(* ===== verification/_CoqProject ===== *)
-Q . S2P
Prelude.v
Bootinfo.v
Pmm.v
PmmFacts.v
PmmAlloc.v
PmmSpec.v
PmmInit.v
Vma.v
VmaFacts.v
VmaSpec.v
SchedData.v
Sched.v
SchedApi.v
SchedSelfTest.v
SchedLists.v
SchedInv.v
SchedMoves.v
SchedSettled.v
SchedBalance.v
SchedBoot.v
SchedStart.v
SchedSpec.v
SchedRace.v
Strings.v
Vfs.v
Sync.v
SyncSpec.v
PagingData.v
PagingTables.v
Paging.v
PagingFacts.v
PagingAlloc.v
PagingSpec.v
PagingFree.v
PagingBoot.v
PagingProps.v
Heap.v
HeapFacts.v
HeapInv.v
HeapOps.v
HeapSlab.v
HeapObject.v
HeapFree.v
HeapSpec.v
HeapApi.v
HeapPaging.v
HeapProps.v
Console.v
Stdio.v
StdioNum.v
StdioSpec.v
StdioProps.v
Panic.v
PanicSpec.v
PanicProps.v
Modules.v
ModulesSpec.v
Gdt.v
Irq.v
IrqSpec.v
Keyboard.v
Vga.v
Platform.v
Cpu.v
CpuSpec.v
CpuProps.v
CpuStart.v
Ktest.v
Kdebug.v
KdebugSpec.v
KdebugTasks.v
KdebugTasksSpec.v
KdebugTimeout.v
KdebugWake.v
Kernel.v
KernelSpec.v
KernelBoot.v
