(* ===== verification/Prelude.v ===== *)
(** DFOS: a verification of its kernel.

    DFOS is a kernel for 32-bit x86 written in C.  This library translates its
    core into Gallina, function by function, and proves the properties that the rest
    of the kernel relies on.  Source paths are relative to the repository: the kernel
    is kernel/kernel and kernel/include/kernel, the C library is libc.

    * The program

    The boot loader hands over a Multiboot structure (bootinfo.c).  Paging
    (paging.c) builds the kernel's address space; the physical memory manager (pmm.c)
    keeps a bitmap of page frames, sized and filled from the boot memory map.  Runs
    of kernel pages are allocated by paging.c from frames of pmm.c at addresses that
    the tree of mappings (vma.c) finds; the heap (heap.c) cuts single pages into
    slabs.  The scheduler (scheduler.c) owns tasks, run queues per processor and
    priority, sleeping and waiting tasks; spin locks, mutexes, condition variables
    and reference counts (sync.c) are built on its wait channels.  Files are the
    entries of a tar archive that the boot loader loaded as a module (vfs.c).  Drivers
    are modules that register themselves (module.c, platform.c): the VGA text screen
    and the serial line behind the console (console.c), which printf and panic write
    to, the keyboard (ps2_keyboard.c, input.c), the interrupt controller and the timer
    (pic.c, pit_timer.c, irq.c, timer.c), whose interrupts arrive through the table of
    interrupts.c.  The other processors are found in the firmware's tables and started
    by cpu.c.  Self tests of the components (test.c) are run from the debugger
    (kdebug.c), a task that reads commands from the keyboard.

    * How code is modelled

    Prelude.v has the conventions.  An unsigned integer of [w] bits is a [Z] with the
    wrap-around written out ([wrap], [u32]); memory is a function from addresses to
    bytes, read and written at the widths of the source.  A function that touches
    state is a computation [M St A]: it returns ([Done]), stops the machine with a
    message ([Panic]), leaves what the model describes, as by a wild pointer
    ([Fault]), or loops for ever ([Spin]).  A theorem about [Done] therefore also
    says that the function ends and neither panics nor faults.  [wp] is the predicate
    transformer that the proofs use.  [for_range], [for_each], [for_acc] and [foreach] are
    the bounded loops; a loop without a bound of its own has fuel and [Spin] when it
    runs out.  Static variables are the fields of one record per component, named as
    in the source; arrays are lists, pointers to their elements are indices.

    * Files

    - Prelude.v: integers, the monad, loops, memory, EFLAGS, list lemmas.
    - Bootinfo.v: bootinfo.c and its properties.
    - Pmm.v models pmm.c; PmmFacts.v has the invariant [pmm_wf], PmmAlloc.v the searches,
      PmmSpec.v allocation and release, PmmInit.v start-up and the NUMA layout.
    - Vma.v models vma.c; VmaFacts.v has the AVL and search-tree invariants,
      VmaSpec.v the operations against the list of intervals.
    - SchedData.v, Sched.v, SchedApi.v and SchedSelfTest.v model scheduler.c: its data, its
      internal operations, its interface and its self tests.  SchedLists.v shows that
      the intrusive lists are sequences; SchedInv.v has the invariant of the lists and
      tasks, SchedSettled.v the one between interrupts ([settled]); SchedMoves.v and
      SchedBalance.v the operations that move tasks; SchedBoot.v start-up and task creation,
      SchedStart.v the first tasks; SchedSpec.v the interface;
      SchedRace.v what two processors can do between a critical section and its yield.
    - Strings.v models libc/string; Vfs.v models vfs.c, with its properties.
    - Sync.v models sync.c: reference counts and spin locks as computations, the
      functions that wait as machines with one memory access per step.  [WaitChannel] is
      the class of what they need of the scheduler.  SyncSpec.v has the invariant of a
      mutex under every interleaving.
    - PagingData.v, PagingTables.v and Paging.v model paging.c.  PagingFacts.v relates
      page tables to translations, PagingAlloc.v has the invariant [kernel_pages] and
      the loops, PagingSpec.v and PagingFree.v allocate and release runs, PagingBoot.v is
      [paging_init], PagingProps.v states the properties.
    - Heap.v models heap.c over the class [PageStore] of what it needs of paging: runs of
      pages and their bytes.  HeapFacts.v has words in pages and the lists of slabs,
      HeapInv.v the invariant and the blocks that clients hold, HeapOps.v and HeapSlab.v
      slabs, HeapObject.v and HeapFree.v taking and returning objects, HeapSpec.v large
      blocks and [heap_init], HeapApi.v the interface against a set of blocks.
      HeapPaging.v shows that paging implements [PageStore]; HeapProps.v states the
      properties.
    - Console.v models console.c, with its properties.  Stdio.v models libc/stdio;
      StdioNum.v has numerals, StdioSpec.v directives and what they render, StdioProps.v
      the properties of [printf] and [snprintf].
    - Panic.v models panic.c; PanicSpec.v has the log as a history and the formatter,
      PanicProps.v what [panic] does.
    - Modules.v models module.c; ModulesSpec.v has the order of activation.
    - Gdt.v models gdt.c, with its properties.
    - Irq.v models interrupts.c, irq.c, pic.c, timer.c and pit_timer.c; IrqSpec.v states
      what the mask, the dispatch and the gates are.  Keyboard.v models ps2_keyboard.c
      and input.c, Vga.v vga_console.c and serial_console.c, Platform.v platform.c and
      the descriptors of the drivers, each with its properties.
    - Cpu.v models cpu.c; CpuSpec.v has the firmware's tables and the numbering of the
      processors, CpuProps.v the local APIC's page and the topology for the scheduler,
      CpuStart.v the handshake with a processor that starts.
    - Ktest.v models test.c, with its properties.  Kdebug.v models kdebug.c over the
      states of all the components it shows and tests; KdebugSpec.v has its line editor
      and the self test of the frames.  Its tests that run several tasks are machines
      over those of Sync.v: KdebugTasks.v (counting under a lock, for every
      [LockMachine]) with KdebugTasksSpec.v, KdebugTimeout.v and KdebugWake.v.
    - Kernel.v models kernel.c and stack_protector.c over the states of all components;
      KernelSpec.v starts the memory components from the boot loader's data, KernelBoot.v
      runs the whole of [kernel_main].

    * What the theorems show

    - Frames: allocation takes exactly free frames, on the preferred node when it can,
      and fails only when it must; release undoes it; start-up frees exactly the frames
      of available memory that hold nothing of the kernel or of the boot loader's data.
    - Mappings: the tree stays balanced, ordered and disjoint; insertion, removal,
      look-up and the gap search do what they say.
    - Pages: [paging_init] builds the direct map and protects code, and the identity map
      stays (an image with its page directory pointer table at the start of a page is
      assumed, see [boot_image_ok]);
      runs of pages get distinct fresh frames, failures roll back, release gives the
      run back; and the direct-map promise that the other components are verified
      against is what paging.c keeps.
    - Scheduler: every task is on exactly one list or current on exactly one processor,
      whatever the timer, yielding, sleeping, waiting, waking, exiting and creating do;
      the right task runs next.
    - Synchronisation: mutual exclusion and ownership in every interleaving of any
      number of tasks, panics only for misuse, exact reference counts.
    - Files: loading a well-formed archive lists its files, opening and reading follow
      the archive; the archive is described by the tar format, not by the parser.
    - Heap: the blocks that clients hold are disjoint, aligned, mapped and keep their
      contents whatever [kmalloc], [kfree] and writes to other blocks do, and through
      paging they are different bytes of physical memory; [kmalloc] panics only when
      memory or slab records are used up.
    - Output: [snprintf] and [printf] render every list of directives as the reference
      does, within the buffer; what is printed is what the screen, a terminal of 80
      columns and 25 rows, shows and what the serial line sends.
    - Panic: the log is the history of the last eight records; [panic] records, prints
      its report and halts.
    - Drivers: modules are tried by priority, then in the order they registered, when
      their probes always give the same answer, and the registry stays well formed
      whatever they do; an unhandled exception panics with what the frame tells; the
      interrupt masks are the set of enabled lines; each interrupt reaches its handler
      and is acknowledged once; the keyboard is a queue of characters.
    - Processors: the firmware's tables are read as they are, the processors numbered
      from the boot processor, the local APIC mapped without leaking its frame, and the
      resulting topology is one that the scheduler accepts; a processor that starts
      enables interrupts only once it is released.
    - Debugger: the command that runs is the text that was edited, and the line buffer
      is never left; the runner runs the selected tests once each and adds them up;
      the self test of the frames passes on every state of the manager with a free
      frame, and the segments that gdt.c loads are flat ones of both privilege levels.
      In every interleaving the tests that count under a lock lose nothing, a mutex that
      is held times out, and a waiter that did not time out has seen the condition.
    - Start-up: the memory part of [kernel_main], from [paging_init] to [heap_init], ends
      on every well-formed handoff with consistent page tables, the right free frames and
      an empty heap.  Given the memory of the first three tasks, the whole of
      [kernel_main] reaches its idle loop on one processor: this composes the theorems on
      the drivers, the descriptor tables, paging, the frames, the heap, the files, the
      processors and the scheduler.
    - Where the code falls short, a theorem exhibits it: a run that the wrapped frame
      search misses, the gap search with lower bound zero, the races between a critical
      section and the following yield, the lost wakeup of a condition, a tar
      header that loops for ever, a heap request that wraps around, the release of a
      large heap block, which reads the page before it, and a format that ends in a lone
      percent sign, which is read past its end.

    * Bounds

    Walks over a task list have fuel [walk_fuel], one more than the 32 task slots, and
    the invariant bounds every list by the slots.  The walk over the boot memory map
    has one step per byte of the map, since every step advances.  The tar loader has
    fuel for one step per block between cursor and limit ([load_fuel]); the theorem on
    well-formed archives shows it is enough, and the one on the wrapping header that no
    fuel is.  String functions take fuel; their theorems ask for more than the length
    of the string.  Walks over a list of slabs have fuel for the
    256 slab records and the end of the list.  The loops of printf.c have fuel for the format, and
    [format_call] asks for more than its length.  A module is tried at most once, so
    33 rounds end every activation of the 32 modules.  The scan for the floating
    pointer has a step per 16 bytes of its range.  The wait for the serial line has
    fuel, and [line_drains] says that the line becomes ready within it.  The loop of
    [scheduler_join_task] has no bound in the source; its fuel counts the rounds.  Nothing
    else has fuel.

    * Not modelled

    Assembly, because its meaning is the processor's; what devices answer is a parameter
    (the bytes of the keyboard's port, the status of the serial line, the registers of
    the local APIC), and what is written to them is a log.  Of kdebug.c, the test that
    joins a task and the one that lets a wait queue time out, which depend on when the
    scheduler resumes a task; they are parameters of the shell.  What paging answers when
    a task is created is an argument of [kernel_main] and of the scheduler's functions, so
    nothing says that paging has the memory for it.  What [kernel_main] and the debugger
    print is the list of the calls, without running the devices; a call of a driver that
    would not return leaves its device as it is ([run_device]), so the theorem on what is
    shown assumes a line that drains.  The frame bitmap is kept apart from memory: the
    boot loader's data is assumed not to lie where it goes.  The states of the heap leave
    out the release of a large block while the bytes below its page look like an object's
    header ([heap_reachable]), which the code does not survive.
    The translation caches of the processor are modelled as the log of
    invalidations, not as a cache that can be stale.  Interrupts arrive between the
    operations of one processor; interleaving inside operations is modelled where the
    source has no lock to exclude it (SchedRace.v, SyncSpec.v).  The theorems on
    paging are about PAE; the legacy tables, for processors without it, are modelled
    without theorems. *)

From Stdlib Require Import ZArith Lia.
From Stdlib Require Export Bool.
From stdpp Require Export base numbers list list_numbers option strings tactics.
Open Scope Z_scope.
#[global] Set Warnings "-clear-no-such-hyp".

(** * Machine integers *)

(** An unsigned C integer of [w] bits is a [Z] in [0, 2^w); [wrap w] is the
    conversion the language applies to every unsigned result. *)
Definition wrap (w x : Z) : Z := x mod 2 ^ w.
Abbreviation u8 := (wrap 8).
Abbreviation u16 := (wrap 16).
Abbreviation u32 := (wrap 32).
Abbreviation u64 := (wrap 64).

Definition fits (w x : Z) : Prop := 0 <= x < 2 ^ w.

Lemma wrap_small w x : fits w x -> wrap w x = x.
Proof. intros H. by apply Z.mod_small. Qed.

Lemma wrap_fits w x : 0 <= w -> fits w (wrap w x).
Proof. intros H. apply Z.mod_pos_bound. by apply Z.pow_pos_nonneg; lia. Qed.

(** The usual overflow test: a sum that did not fall below one of its terms did
    not wrap. *)
Lemma wrap_add_no_overflow w a b :
  0 <= w -> fits w a -> fits w b -> a <= wrap w (a + b) -> wrap w (a + b) = a + b.
Proof.
  intros Hw Ha Hb H. unfold wrap, fits in *. destruct (Z.lt_ge_cases (a + b) (2 ^ w)) as [|Hge].
  - apply Z.mod_small. lia.
  - replace (a + b) with ((a + b - 2 ^ w) + 1 * 2 ^ w) in H by lia.
    rewrite Z_mod_plus_full, Z.mod_small in H by lia. lia.
Qed.

(** Concrete powers, so that [lia] sees numerals. *)
Lemma pow8 : 2 ^ 8 = 256. Proof. reflexivity. Qed.
Lemma pow32 : 2 ^ 32 = 4294967296. Proof. reflexivity. Qed.
Lemma pow64 : 2 ^ 64 = 18446744073709551616. Proof. reflexivity. Qed.

Ltac word_lia := unfold fits in *; rewrite ?pow8, ?pow32, ?pow64 in *; lia.
Ltac wsmall := rewrite wrap_small by word_lia.

(** * Outcomes of C code *)

(** A C function that reads and writes a state [St] ends normally, calls
    [panic] (which never returns), accesses memory outside an object or through
    NULL, or spins on a lock nobody can release. *)
Inductive outcome (St A : Type) : Type :=
| Done (a : A) (s : St)
| Panic (msg : string) (s : St)
| Fault
| Spin.
Arguments Done {St A} a s.
Arguments Panic {St A} msg s.
Arguments Fault {St A}.
Arguments Spin {St A}.

Definition M (St A : Type) : Type := St -> outcome St A.

Definition ret {St A} (a : A) : M St A := fun s => Done a s.

Definition bind {St A B} (m : M St A) (k : A -> M St B) : M St B :=
  fun s => match m s with
           | Done a s' => k a s'
           | Panic msg s' => Panic msg s'
           | Fault => Fault
           | Spin => Spin
           end.

Definition gets {St A} (f : St -> A) : M St A := fun s => Done (f s) s.
Definition modify {St} (f : St -> St) : M St unit := fun s => Done tt (f s).
Definition panic {St A} (msg : string) : M St A := fun s => Panic msg s.
Definition fault {St A} : M St A := fun _ => Fault.

Declare Scope dfos_scope.
Delimit Scope dfos_scope with dfos.
Notation "x <- m ;; k" := (bind m (fun x => k))
  (at level 100, m at next level, right associativity) : dfos_scope.
Notation "m ;;; k" := (bind m (fun _ => k))
  (at level 100, right associativity) : dfos_scope.
Open Scope dfos_scope.

(** Equations that run a computation one step; [run] applies them. *)
Section Run.
Context {St A B : Type}.
Implicit Types (m : M St A) (k : A -> M St B) (s : St).

Lemma run_bind_ret (a : A) k s : bind (ret a) k s = k a s.
Proof. reflexivity. Qed.
Lemma run_bind_gets (f : St -> A) k s : bind (gets f) k s = k (f s) s.
Proof. reflexivity. Qed.
Lemma run_bind_modify (f : St -> St) (k : unit -> M St B) s : bind (modify f) k s = k tt (f s).
Proof. reflexivity. Qed.
Lemma run_bind_panic msg k s : bind (panic (A := A) msg) k s = Panic msg s.
Proof. reflexivity. Qed.
Lemma run_bind_fault k s : bind (fault (A := A)) k s = Fault.
Proof. reflexivity. Qed.
Lemma run_bind_bind {C} (m : M St C) (k : C -> M St A) (k' : A -> M St B) s :
  bind (bind m k) k' s = bind m (fun c => bind (k c) k') s.
Proof. unfold bind. by destruct (m s). Qed.
Lemma run_bind_done m k s a s' : m s = Done a s' -> bind m k s = k a s'.
Proof. unfold bind. by intros ->. Qed.
Lemma run_ret (a : A) s : ret a s = Done a s.
Proof. reflexivity. Qed.
Lemma run_panic msg s : panic (A := A) msg s = Panic msg s.
Proof. reflexivity. Qed.
End Run.
Create Rewrite HintDb run.
#[export] Hint Rewrite @run_bind_ret @run_bind_gets @run_bind_modify @run_bind_panic
  @run_bind_fault @run_bind_bind @run_ret @run_panic : run.
Ltac run := autorewrite with run; cbv beta.
(** Decides the test the computation is about to make by arithmetic, or splits
    on it. *)
Ltac run_lia_on b :=
  first [ replace b with false by (unfold fits in *; lia)
        | replace b with true by (unfold fits in *; lia) ].
Ltac run_lia :=
  match goal with
  | |- context [bind (if ?b then _ else _) _ _] => run_lia_on b
  | |- context [(if ?b then _ else _) ?s] => run_lia_on b
  end; cbv iota; run.
Ltac run_if :=
  match goal with
  | |- context [bind (if ?b then _ else _) _ _] => let E := fresh "E" in destruct b eqn:E
  | |- context [(if ?b then _ else _) ?s] => let E := fresh "E" in destruct b eqn:E
  end; run.

(** Running a computation of another component whose state [s2] it only reads. *)
Definition reading {St S2 A} (s2 : S2) (m : M S2 A) : M St A :=
  fun s => match m s2 with
           | Done a _ => Done a s
           | Panic msg _ => Panic msg s
           | Fault => Fault
           | Spin => Spin
           end.

(** [of_option] turns a failed memory access into a fault. *)
Definition of_option {St A} (o : option A) : M St A :=
  match o with Some a => ret a | None => fault end.

(** A [for] loop over [lo, hi) whose body may leave the function early with
    [Some r]. *)
Fixpoint for_loop {St R} (n : nat) (i : Z) (body : Z -> M St (option R)) : M St (option R) :=
  match n with
  | O => ret None
  | S n' => r <- body i ;;
            match r with
            | Some v => ret (Some v)
            | None => for_loop n' (i + 1) body
            end
  end.

Definition for_range {St R} (lo hi : Z) (body : Z -> M St (option R)) : M St (option R) :=
  for_loop (Z.to_nat (hi - lo)) lo body.

(** A [for] loop with local variables [acc]: the body continues with new
    values ([inl]) or leaves the function early ([inr]). *)
Fixpoint acc_loop {St A R} (n : nat) (i : Z) (acc : A) (body : Z -> A -> M St (A + R))
    : M St (A + R) :=
  match n with
  | O => ret (inl acc)
  | S n' => r <- body i acc ;;
            match r with
            | inr v => ret (inr v)
            | inl acc' => acc_loop n' (i + 1) acc' body
            end
  end.

Definition for_acc {St A R} (lo hi : Z) (acc : A) (body : Z -> A -> M St (A + R)) : M St (A + R) :=
  acc_loop (Z.to_nat (hi - lo)) lo acc body.

(** The same loop with a body that always continues. *)
Definition for_each {St} (lo hi : Z) (body : Z -> M St unit) : M St unit :=
  for_range (R := Empty_set) lo hi (fun i => body i ;;; ret None) ;;; ret tt.

(** Running a body on each element of a list. *)
Fixpoint foreach {St A} (l : list A) (body : A -> M St unit) : M St unit :=
  match l with
  | [] => ret tt
  | a :: l' => body a ;;; foreach l' body
  end.

(** * Weakest preconditions

    [wp m Q s]: run from [s], [m] ends normally in a state satisfying [Q].  It
    is a total-correctness statement: no panic, no fault, no spin. *)
Definition wp {St A} (m : M St A) (Q : A -> St -> Prop) (s : St) : Prop :=
  match m s with
  | Done a s' => Q a s'
  | _ => False
  end.

Section Wp.
Context {St : Type}.

Lemma wp_ret {A} (a : A) (Q : A -> St -> Prop) s : Q a s -> wp (ret a) Q s.
Proof. exact id. Qed.

Lemma wp_bind {A B} (m : M St A) (k : A -> M St B) (Q : B -> St -> Prop) s :
  wp m (fun a s' => wp (k a) Q s') s -> wp (bind m k) Q s.
Proof. unfold wp, bind. destruct (m s); auto. Qed.

Lemma wp_mono {A} (m : M St A) (Q Q' : A -> St -> Prop) s :
  wp m Q s -> (forall a s', Q a s' -> Q' a s') -> wp m Q' s.
Proof. unfold wp. destruct (m s); naive_solver. Qed.

Lemma wp_gets {A} (f : St -> A) (Q : A -> St -> Prop) s : Q (f s) s -> wp (gets f) Q s.
Proof. exact id. Qed.

Lemma wp_modify (f : St -> St) (Q : unit -> St -> Prop) s : Q tt (f s) -> wp (modify f) Q s.
Proof. exact id. Qed.

Lemma wp_of_option {A} (o : option A) a (Q : A -> St -> Prop) s :
  o = Some a -> Q a s -> wp (of_option o) Q s.
Proof. intros -> H. exact H. Qed.

Lemma wp_Done {A} (m : M St A) Q s :
  wp m Q s -> exists a s', m s = Done a s' /\ Q a s'.
Proof. unfold wp. destruct (m s); naive_solver. Qed.

(** The state a computation ends in, when it does. *)
Lemma wp_state {A} (m : M St A) Q s d :
  wp m Q s ->
  exists a, m s = Done a (match m s with Done _ s' => s' | _ => d end) /\
            Q a (match m s with Done _ s' => s' | _ => d end).
Proof. unfold wp. destruct (m s); naive_solver. Qed.

Lemma Done_wp {A} (m : M St A) (Q : A -> St -> Prop) s a s' :
  m s = Done a s' -> Q a s' -> wp m Q s.
Proof. unfold wp. by intros ->. Qed.

Lemma wp_reading {S2 A} (s2 s2' : S2) (m : M S2 A) a (Q : A -> St -> Prop) s :
  m s2 = Done a s2' -> Q a s -> wp (reading s2 m) Q s.
Proof. unfold wp, reading. by intros ->. Qed.

Lemma for_loop_wp {R} (n : nat) lo (body : Z -> M St (option R))
    (I : Z -> St -> Prop) (Q : option R -> St -> Prop) s :
  I lo s ->
  (forall i s, lo <= i < lo + Z.of_nat n -> I i s ->
     wp (body i) (fun r s' => match r with
                              | Some v => Q (Some v) s'
                              | None => I (i + 1) s'
                              end) s) ->
  (forall s, I (lo + Z.of_nat n) s -> Q None s) ->
  wp (for_loop n lo body) Q s.
Proof.
  revert lo s. induction n as [|n IH]; intros lo s HI Hbody Hend; simpl.
  - apply wp_ret, Hend. by rewrite Z.add_0_r.
  - apply wp_bind. eapply wp_mono; [apply Hbody; [lia|exact HI]|].
    intros [v|] s' Hs'; [by apply wp_ret|].
    apply IH; [exact Hs'| |].
    + intros i s'' Hi. apply Hbody. lia.
    + intros s'' H. apply Hend. by replace (lo + Z.of_nat (S n)) with (lo + 1 + Z.of_nat n) by lia.
Qed.

Lemma wp_for {R} lo hi (body : Z -> M St (option R))
    (I : Z -> St -> Prop) (Q : option R -> St -> Prop) s :
  lo <= hi -> I lo s ->
  (forall i s, lo <= i < hi -> I i s ->
     wp (body i) (fun r s' => match r with
                              | Some v => Q (Some v) s'
                              | None => I (i + 1) s'
                              end) s) ->
  (forall s, I hi s -> Q None s) ->
  wp (for_range lo hi body) Q s.
Proof.
  intros Hle HI Hb He. apply (for_loop_wp _ _ _ I); [exact HI| |].
  - intros i s' Hi. apply Hb. lia.
  - intros s'. replace (lo + Z.of_nat (Z.to_nat (hi - lo))) with hi by lia. apply He.
Qed.

Lemma wp_for_empty {R} lo hi (body : Z -> M St (option R)) (Q : option R -> St -> Prop) s :
  hi <= lo -> Q None s -> wp (for_range lo hi body) Q s.
Proof. intros H HQ. unfold for_range. replace (Z.to_nat (hi - lo)) with O by lia. exact HQ. Qed.

Lemma wp_for_acc {A R} lo hi acc (body : Z -> A -> M St (A + R))
    (I : Z -> A -> St -> Prop) (Q : A + R -> St -> Prop) s :
  lo <= hi -> I lo acc s ->
  (forall i a s, lo <= i < hi -> I i a s ->
     wp (body i a) (fun r s' => match r with
                                | inr v => Q (inr v) s'
                                | inl a' => I (i + 1) a' s'
                                end) s) ->
  (forall a s, I hi a s -> Q (inl a) s) ->
  wp (for_acc lo hi acc body) Q s.
Proof.
  unfold for_acc. remember (Z.to_nat (hi - lo)) as n eqn:En.
  revert lo acc s En. induction n as [|n IH]; intros lo acc s En Hle HI Hb He; simpl.
  - apply wp_ret, He. by replace hi with lo by lia.
  - apply wp_bind. eapply wp_mono; [apply Hb; [lia|exact HI]|].
    intros [a'|v] s' Hs'; [|by apply wp_ret].
    apply IH; [lia|lia|exact Hs'| |exact He].
    intros i a s'' Hi. apply Hb. lia.
Qed.

Lemma wp_for_each lo hi (body : Z -> M St unit) (I : Z -> St -> Prop) (Q : unit -> St -> Prop) s :
  lo <= hi -> I lo s ->
  (forall i s, lo <= i < hi -> I i s -> wp (body i) (fun _ s' => I (i + 1) s') s) ->
  (forall s, I hi s -> Q tt s) ->
  wp (for_each lo hi body) Q s.
Proof.
  intros Hle HI Hb He. apply wp_bind.
  apply (wp_for _ _ _ I); [exact Hle|exact HI| |].
  - intros i s' Hi HIi. apply wp_bind. eapply wp_mono; [by apply Hb|].
    intros ? s'' H. by apply wp_ret.
  - intros s' H. apply wp_ret. by apply He.
Qed.

Lemma wp_for_each_empty lo hi (body : Z -> M St unit) (Q : unit -> St -> Prop) s :
  hi <= lo -> Q tt s -> wp (for_each lo hi body) Q s.
Proof. intros H HQ. apply wp_bind, wp_for_empty; [exact H|]. by apply wp_ret. Qed.

Lemma wp_foreach {A} (l : list A) (body : A -> M St unit) (I : St -> Prop) (Q : unit -> St -> Prop) s :
  I s -> (forall a s, a ∈ l -> I s -> wp (body a) (fun _ => I) s) ->
  (forall s, I s -> Q tt s) -> wp (foreach l body) Q s.
Proof.
  intros HI Hb He. revert s HI. induction l as [|a l IH]; intros s HI; simpl.
  - apply wp_ret. by apply He.
  - apply wp_bind. eapply wp_mono; [apply Hb; [left|exact HI]|]. intros ? s' Hs'. cbn in Hs'.
    apply IH; [|exact Hs']. intros b s'' Hin. apply Hb. by right.
Qed.
End Wp.

(** [panics m msg s]: run from [s], [m] ends in [panic] with this message. *)
Definition panics {St A} (m : M St A) (msg : string) (s : St) : Prop := exists s', m s = Panic msg s'.

Section Panics.
Context {St A B : Type}.

Lemma panics_bind (m : M St A) (k : A -> M St B) msg s :
  wp m (fun a s' => panics (k a) msg s') s -> panics (bind m k) msg s.
Proof. unfold wp, panics, bind. destruct (m s); naive_solver. Qed.

Lemma panics_bind_l (m : M St A) (k : A -> M St B) msg s : panics m msg s -> panics (bind m k) msg s.
Proof. unfold panics, bind. intros [s' ->]. by exists s'. Qed.
End Panics.

(** Symbolic execution of the straight-line part of a function. *)
Ltac wp_step :=
  match goal with
  | |- wp (bind _ _) _ _ => apply wp_bind
  | |- wp (ret _) _ _ => apply wp_ret
  | |- wp (gets _) _ _ => apply wp_gets
  | |- wp (modify _) _ _ => apply wp_modify
  | |- wp (if ?b then _ else _) _ _ => let E := fresh "E" in destruct b eqn:E
  end; cbv beta.
Ltac wp_steps := repeat (wp_step; simpl).

(** Boolean comparisons on [Z] to propositions. *)
Ltac z_bools :=
  repeat match goal with
  | H : (_ && _)%bool = true |- _ => apply andb_true_iff in H; destruct H
  | H : (_ && _)%bool = false |- _ => apply andb_false_iff in H
  | H : (_ || _)%bool = true |- _ => apply orb_true_iff in H
  | H : (_ || _)%bool = false |- _ => apply orb_false_iff in H; destruct H
  | H : negb _ = true |- _ => apply negb_true_iff in H
  | H : negb _ = false |- _ => apply negb_false_iff in H
  | H : (_ =? _) = true |- _ => apply Z.eqb_eq in H
  | H : (_ =? _) = false |- _ => apply Z.eqb_neq in H
  | H : (_ <? _) = true |- _ => apply Z.ltb_lt in H
  | H : (_ <? _) = false |- _ => apply Z.ltb_ge in H
  | H : (_ <=? _) = true |- _ => apply Z.leb_le in H
  | H : (_ <=? _) = false |- _ => apply Z.leb_gt in H
  end.

(** * Folding over a range of integers *)

Lemma fold_seqZ_inv {A} (I : Z -> A -> Prop) (f : A -> Z -> A) n a :
  0 <= n -> I 0 a -> (forall k acc, 0 <= k < n -> I k acc -> I (k + 1) (f acc k)) ->
  I n (fold_left f (seqZ 0 n) a).
Proof.
  intros Hn Ha Hf. unfold seqZ. remember (Z.to_nat n) as m eqn:Em.
  assert (Hm : forall j, (j <= m)%nat -> I (Z.of_nat j) (fold_left f ((fun i => Z.of_nat i + 0) <$> seq 0 j) a)).
  { induction j as [|j IH]; intros Hj; [done|].
    rewrite seq_S, fmap_app, fold_left_app. cbn [fmap list_fmap fold_left Nat.add].
    replace (Z.of_nat (S j)) with (Z.of_nat j + 1) by lia. rewrite Z.add_0_r. apply Hf; [lia|]. apply IH. lia. }
  replace n with (Z.of_nat m) by lia. by apply Hm.
Qed.

(** * Counting over a range of integers *)

Fixpoint count_from (P : Z -> bool) (lo : Z) (n : nat) : Z :=
  match n with
  | O => 0
  | S n' => (if P lo then 1 else 0) + count_from P (lo + 1) n'
  end.

(** How many integers of [lo, hi) satisfy [P]. *)
Definition count (P : Z -> bool) (lo hi : Z) : Z := count_from P lo (Z.to_nat (hi - lo)).

Section Count.
Implicit Types P : Z -> bool.

Lemma count_empty P lo hi : hi <= lo -> count P lo hi = 0.
Proof. intros H. unfold count. by replace (Z.to_nat (hi - lo)) with O by lia. Qed.

Lemma count_cons P lo hi :
  lo < hi -> count P lo hi = (if P lo then 1 else 0) + count P (lo + 1) hi.
Proof.
  intros H. unfold count. replace (Z.to_nat (hi - lo)) with (S (Z.to_nat (hi - (lo + 1)))) by lia.
  reflexivity.
Qed.

Lemma count_split P lo mid hi :
  lo <= mid <= hi -> count P lo hi = count P lo mid + count P mid hi.
Proof.
  intros [H1 H2]. remember (Z.to_nat (mid - lo)) as n eqn:En.
  revert lo H1 En. induction n as [|n IH]; intros lo H1 En.
  - assert (mid = lo) as -> by lia. rewrite (count_empty P lo lo) by lia. lia.
  - rewrite (count_cons P lo hi), (count_cons P lo mid) by lia.
    rewrite (IH (lo + 1)) by lia. lia.
Qed.

Lemma count_snoc P lo hi :
  lo <= hi -> count P lo (hi + 1) = count P lo hi + (if P hi then 1 else 0).
Proof.
  intros H. rewrite (count_split P lo hi (hi + 1)) by lia.
  rewrite (count_cons P hi) by lia. rewrite (count_empty P (hi + 1)) by lia. lia.
Qed.

Lemma count_range P lo hi : lo <= hi -> 0 <= count P lo hi <= hi - lo.
Proof.
  intros H. remember (Z.to_nat (hi - lo)) as n eqn:En. revert lo H En.
  induction n as [|n IH]; intros lo H En; [rewrite count_empty by lia; lia|].
  rewrite count_cons by lia. specialize (IH (lo + 1)). destruct (P lo); lia.
Qed.

Lemma count_ext P Q lo hi :
  (forall i, lo <= i < hi -> P i = Q i) -> count P lo hi = count Q lo hi.
Proof.
  intros H. destruct (Z.le_ge_cases hi lo) as [Hle|Hle]; [by rewrite !count_empty by lia|].
  remember (Z.to_nat (hi - lo)) as n eqn:En. revert lo H Hle En.
  induction n as [|n IH]; intros lo H Hle En; [by rewrite !count_empty by lia|].
  rewrite (count_cons P), (count_cons Q) by lia. rewrite (H lo) by lia.
  f_equal. apply IH; [|lia|lia]. intros i Hi. apply H. lia.
Qed.

(** Changing the predicate at one point of the range. *)
Lemma count_flip P Q lo hi f :
  lo <= f < hi -> (forall i, i <> f -> P i = Q i) ->
  count P lo hi - (if P f then 1 else 0) = count Q lo hi - (if Q f then 1 else 0).
Proof.
  intros Hf H. rewrite (count_split P lo f hi), (count_split Q lo f hi) by lia.
  rewrite (count_cons P f), (count_cons Q f) by lia.
  rewrite (count_ext P Q lo f), (count_ext P Q (f + 1) hi); [lia| |];
    intros i Hi; apply H; lia.
Qed.

Lemma count_pos P lo hi f : lo <= f < hi -> P f = true -> 0 < count P lo hi.
Proof.
  intros Hf HP. rewrite (count_split P lo f hi), (count_cons P f) by lia.
  pose proof (count_range P lo f). pose proof (count_range P (f + 1) hi).
  rewrite HP. lia.
Qed.

Lemma count_zero P lo hi : count P lo hi = 0 -> forall f, lo <= f < hi -> P f = false.
Proof.
  intros H f Hf. destruct (P f) eqn:E; [|done].
  pose proof (count_pos P lo hi f Hf E). lia.
Qed.

Lemma count_exists P lo hi : 0 < count P lo hi -> exists f, lo <= f < hi /\ P f = true.
Proof.
  intros H. destruct (Z.le_ge_cases hi lo) as [Hle|Hle]; [rewrite count_empty in H by lia; lia|].
  remember (Z.to_nat (hi - lo)) as n eqn:En. revert lo H Hle En.
  induction n as [|n IH]; intros lo H Hle En; [rewrite count_empty in H by lia; lia|].
  rewrite count_cons in H by lia. destruct (P lo) eqn:E; [exists lo; split; [lia|done]|].
  destruct (IH (lo + 1)) as (f & Hf & HP); [lia|lia|lia|]. exists f. split; [lia|done].
Qed.
End Count.

(** * Masks *)

Lemma fits_bits_high w y n : 0 <= w -> fits w y -> w <= n -> Z.testbit y n = false.
Proof.
  intros Hw Hy Hn. unfold fits in Hy. destruct (Z.eq_dec y 0) as [->|]; [apply Z.bits_0|].
  apply Z.bits_above_log2; [lia|]. apply Z.lt_le_trans with w; [|done]. apply Z.log2_lt_pow2; lia.
Qed.

(** Clearing the low [k] bits rounds down to a multiple of [2 ^ k]. *)
Lemma land_mask w k y :
  0 <= k <= w -> fits w y -> Z.land y (wrap w (Z.lnot (2 ^ k - 1))) = y / 2 ^ k * 2 ^ k.
Proof.
  intros Hk Hy. rewrite <- Z.shiftr_div_pow2, <- Z.shiftl_mul_pow2, <- Z.ldiff_ones_r by lia.
  rewrite Z.ones_equiv, <- Z.sub_1_r. apply Z.bits_inj'. intros n Hn.
  rewrite Z.land_spec, Z.ldiff_spec. unfold wrap. destruct (Z.lt_ge_cases n w).
  - by rewrite Z.mod_pow2_bits_low, Z.lnot_spec by lia.
  - rewrite Z.mod_pow2_bits_high, andb_false_r by lia.
    by rewrite (fits_bits_high w y n) by (done || lia).
Qed.

(** The usual power-of-two test. *)
Lemma pow2_test a : 0 < a -> Z.land a (a - 1) = 0 -> exists k, 0 <= k /\ a = 2 ^ k.
Proof.
  intros Ha H. exists (Z.log2 a). pose proof (Z.log2_nonneg a). split; [done|].
  pose proof (Z.log2_spec a Ha) as [Hlo Hhi]. destruct (Z.eq_dec a (2 ^ Z.log2 a)) as [|Hne]; [done|].
  exfalso. assert (Z.testbit (Z.land a (a - 1)) (Z.log2 a) = true) as Hb; [|by rewrite H, Z.bits_0 in Hb].
  rewrite Z.land_spec, Z.bit_log2 by done. simpl.
  replace (Z.log2 a) with (Z.log2 (a - 1)) by (apply Z.log2_unique; lia). apply Z.bit_log2.
  pose proof (Z.pow_pos_nonneg 2 (Z.log2 a)). lia.
Qed.

(** * Memory *)

(** Little-endian reads from a byte-addressed memory. *)
Definition memory : Type := Z -> Z.
Definition read_u8 (m : memory) (p : Z) : Z := u8 (m p).
Definition read_u16 (m : memory) (p : Z) : Z := read_u8 m p + 2 ^ 8 * read_u8 m (p + 1).
Definition read_u32 (m : memory) (p : Z) : Z := read_u16 m p + 2 ^ 16 * read_u16 m (p + 2).
Definition read_u64 (m : memory) (p : Z) : Z := read_u32 m p + 2 ^ 32 * read_u32 m (p + 4).

Lemma read_u8_fits m p : fits 8 (read_u8 m p).
Proof. by apply wrap_fits. Qed.

Lemma read_u16_fits m p : fits 16 (read_u16 m p).
Proof.
  pose proof (read_u8_fits m p). pose proof (read_u8_fits m (p + 1)).
  unfold read_u16, fits in *. change (2 ^ 16) with (2 ^ 8 * 2 ^ 8). lia.
Qed.

Lemma read_u32_fits m p : fits 32 (read_u32 m p).
Proof.
  pose proof (read_u16_fits m p). pose proof (read_u16_fits m (p + 2)).
  unfold read_u32, fits in *. change (2 ^ 32) with (2 ^ 16 * 2 ^ 16). lia.
Qed.

Lemma read_u64_fits m p : fits 64 (read_u64 m p).
Proof.
  pose proof (read_u32_fits m p). pose proof (read_u32_fits m (p + 4)).
  unfold read_u64, fits in *. change (2 ^ 64) with (2 ^ 32 * 2 ^ 32). lia.
Qed.

(** Little-endian writes of [n] bytes. *)
Definition write_bytes (n : Z) (m : memory) (p v : Z) : memory :=
  fun x => if (p <=? x) && (x <? p + n) then u8 (Z.shiftr v (8 * (x - p))) else m x.
Definition write_u32 : memory -> Z -> Z -> memory := write_bytes 4.
Definition write_u64 : memory -> Z -> Z -> memory := write_bytes 8.

Lemma read_u8_written n m p v i : 0 <= i < n -> read_u8 (write_bytes n m p v) (p + i) = v / 2 ^ (8 * i) mod 2 ^ 8.
Proof.
  intros Hi. unfold read_u8, write_bytes, wrap.
  replace ((p <=? p + i) && (p + i <? p + n)) with true by lia.
  replace (p + i - p) with i by lia. by rewrite Z.mod_mod, Z.shiftr_div_pow2 by lia.
Qed.

(** Consecutive chunks of a number. *)
Lemma digits_join a b v : 0 <= a -> 0 <= b -> v mod 2 ^ a + 2 ^ a * (v / 2 ^ a mod 2 ^ b) = v mod 2 ^ (a + b).
Proof.
  intros Ha Hb. rewrite Z.pow_add_r by done. pose proof (Z.pow_pos_nonneg 2 a). pose proof (Z.pow_pos_nonneg 2 b). rewrite Z.rem_mul_r by lia. lia.
Qed.

Lemma read_u16_written n m p v i :
  0 <= i -> i + 2 <= n -> read_u16 (write_bytes n m p v) (p + i) = v / 2 ^ (8 * i) mod 2 ^ 16.
Proof.
  intros Hi Hn. unfold read_u16. rewrite <- Z.add_assoc, !read_u8_written by lia.
  replace (8 * (i + 1)) with (8 * i + 8) by lia. pose proof (Z.pow_pos_nonneg 2 (8 * i)). rewrite Z.pow_add_r, <- Z.div_div by lia.
  apply (digits_join 8 8); lia.
Qed.

Lemma read_u32_written n m p v i :
  0 <= i -> i + 4 <= n -> read_u32 (write_bytes n m p v) (p + i) = v / 2 ^ (8 * i) mod 2 ^ 32.
Proof.
  intros Hi Hn. unfold read_u32. rewrite <- Z.add_assoc, !read_u16_written by lia.
  replace (8 * (i + 2)) with (8 * i + 16) by lia. pose proof (Z.pow_pos_nonneg 2 (8 * i)). rewrite Z.pow_add_r, <- Z.div_div by lia.
  apply (digits_join 16 16); lia.
Qed.

Lemma read_u32_same m p v : fits 32 v -> read_u32 (write_u32 m p v) p = v.
Proof.
  intros Hv. replace p with (p + 0) at 2 by lia. unfold write_u32. rewrite read_u32_written by lia.
  rewrite Z.div_1_r. by apply wrap_small.
Qed.

Lemma read_u64_same m p v : fits 64 v -> read_u64 (write_u64 m p v) p = v.
Proof.
  intros Hv. unfold read_u64, write_u64. replace (read_u32 _ p) with (read_u32 (write_bytes 8 m p v) (p + 0)) by (by rewrite Z.add_0_r).
  rewrite !read_u32_written by lia. rewrite Z.div_1_r. change (8 * 4) with 32.
  rewrite (digits_join 32 32) by lia. by apply wrap_small.
Qed.

Lemma read_u8_other n m p v q : q < p \/ p + n <= q -> read_u8 (write_bytes n m p v) q = read_u8 m q.
Proof. intros H. unfold read_u8, write_bytes. by replace ((p <=? q) && (q <? p + n)) with false by lia. Qed.

Lemma read_u32_other n m p v q : q + 4 <= p \/ p + n <= q -> read_u32 (write_bytes n m p v) q = read_u32 m q.
Proof. intros H. unfold read_u32, read_u16. by rewrite !read_u8_other by lia. Qed.

Lemma read_u64_other n m p v q : q + 8 <= p \/ p + n <= q -> read_u64 (write_bytes n m p v) q = read_u64 m q.
Proof. intros H. unfold read_u64. by rewrite !read_u32_other by lia. Qed.

(** Constants of kernel/include/kernel/paging.h and the direct map of paging.c. *)
Definition KERNEL_VMA : Z := 0xC0000000.
Definition PAGE_SIZE : Z := 0x1000.
Definition BOOTSTRAP_WINDOW_SIZE : Z := 0x400000.
Definition KERNEL_DIRECT_MAP_LIMIT_PHYS : Z := 0x10000000.

(** What [paging_phys_to_virt] promises its callers: the direct-map address, or
    a panic beyond the aperture. *)
Definition paging_phys_to_virt {St} (physical : Z) : M St Z :=
  if KERNEL_DIRECT_MAP_LIMIT_PHYS <=? physical
  then panic "physical address exceeds direct-map aperture"
  else ret (u32 (KERNEL_VMA + physical)).

(** What [paging_virt_to_phys] answers for an address of the direct map. *)
Definition paging_virt_to_phys_direct {St} (virtual_addr : Z) : M St Z :=
  if (KERNEL_VMA <=? virtual_addr) && (virtual_addr <? KERNEL_VMA + KERNEL_DIRECT_MAP_LIMIT_PHYS)
  then ret (virtual_addr - KERNEL_VMA)
  else panic "paging_virt_to_phys on unmapped address".

(** * EFLAGS and interrupts *)

Definition X86_EFLAGS_INTERRUPT_FLAG : Z := Z.shiftl 1 9.
Definition cli (eflags : Z) : Z := Z.land eflags (u32 (Z.lnot X86_EFLAGS_INTERRUPT_FLAG)).
Definition sti (eflags : Z) : Z := Z.lor eflags X86_EFLAGS_INTERRUPT_FLAG.
Definition interrupts_on (eflags : Z) : bool :=
  negb (Z.land eflags X86_EFLAGS_INTERRUPT_FLAG =? 0).

Lemma land_pow2_testbit b k : 0 <= k -> negb (Z.land b (Z.shiftl 1 k) =? 0) = Z.testbit b k.
Proof.
  intros Hk. rewrite Z.shiftl_1_l.
  destruct (Z.testbit b k) eqn:E.
  - apply negb_true_iff, Z.eqb_neq. intros H.
    assert (Z.testbit (Z.land b (2 ^ k)) k = false) as H' by (by rewrite H, Z.bits_0).
    by rewrite Z.land_spec, E, Z.pow2_bits_true in H' by done.
  - apply negb_false_iff, Z.eqb_eq, Z.bits_inj'. intros n Hn.
    rewrite Z.land_spec, Z.bits_0, Z.pow2_bits_eqb by done.
    destruct (Z.eqb_spec k n); [subst; by rewrite E|]. by rewrite andb_false_r.
Qed.

Lemma interrupts_on_testbit e : interrupts_on e = Z.testbit e 9.
Proof. apply land_pow2_testbit. lia. Qed.

Lemma cli_bits e n :
  fits 32 e -> 0 <= n -> Z.testbit (cli e) n = negb (n =? 9) && Z.testbit e n.
Proof.
  intros He Hn. unfold cli, wrap. rewrite Z.land_spec.
  destruct (Z.lt_ge_cases n 32).
  - rewrite Z.mod_pow2_bits_low, Z.lnot_spec by lia. unfold X86_EFLAGS_INTERRUPT_FLAG.
    rewrite Z.shiftl_1_l, Z.pow2_bits_eqb, andb_comm, (Z.eqb_sym 9) by lia. done.
  - rewrite Z.mod_pow2_bits_high by lia. rewrite andb_false_r.
    replace (Z.testbit e n) with false; [by rewrite andb_false_r|]. symmetry.
    destruct (Z.eq_dec e 0) as [->|]; [apply Z.bits_0|]. unfold fits in He.
    apply Z.bits_above_log2; [lia|]. apply Z.lt_le_trans with 32; [|done].
    apply Z.log2_lt_pow2; lia.
Qed.

(** Saving, disabling and restoring interrupts gives back the same EFLAGS. *)
Lemma eflags_restored e :
  fits 32 e -> (if interrupts_on e then sti (cli e) else cli e) = e.
Proof.
  intros He. rewrite interrupts_on_testbit. apply Z.bits_inj'. intros n Hn.
  destruct (Z.testbit e 9) eqn:E.
  - unfold sti, X86_EFLAGS_INTERRUPT_FLAG. rewrite Z.lor_spec, cli_bits, Z.shiftl_1_l by done.
    rewrite Z.pow2_bits_eqb by lia. destruct (Z.eqb_spec n 9) as [->|Hne]; [by rewrite E|].
    replace (9 =? n) with false by lia. by rewrite orb_false_r.
  - rewrite cli_bits by done. destruct (Z.eqb_spec n 9) as [->|]; [by rewrite E|done].
Qed.
