(* ===== verification/Bootinfo.v ===== *)
(** Boot information: kernel/kernel/bootinfo.c over the Multiboot v1 structures
    of kernel/include/kernel/boot.h.

    The state is the module's three static variables and the physical memory the
    bootloader filled.  A structure is read field by field at its packed offset. *)
From S2P Require Import Prelude.
From Stdlib Require Import ZArith Lia.
Open Scope Z_scope.

Definition MULTIBOOT_BOOTLOADER_MAGIC : Z := 0x2BADB002.
Definition MULTIBOOT_INFO_MEMORY : Z := Z.shiftl 1 0.
Definition MULTIBOOT_INFO_MODULES : Z := Z.shiftl 1 3.
Definition MULTIBOOT_INFO_MEM_MAP : Z := Z.shiftl 1 6.
Definition MULTIBOOT_MEMORY_AVAILABLE : Z := 1.

Inductive bootinfo_loader_kind_t : Type :=
| BOOTINFO_LOADER_UNKNOWN
| BOOTINFO_LOADER_MULTIBOOT1.

Record bootinfo_memory_region : Type := mk_region {
  region_base : Z;
  region_length : Z;
  region_type : Z
}.

Record bootinfo_module : Type := mk_module {
  mod_start : Z;
  mod_end : Z;
  mod_string : option Z   (* virtual address, NULL when the module has none *)
}.

(** [multiboot_info] is the virtual address of the info structure. *)
Record bootinfo : Type := mk_bootinfo {
  loader_kind : bootinfo_loader_kind_t;
  info_phys : Z;
  multiboot_info : option Z;
  phys_mem : memory
}.

(** A load through the direct map. *)
Definition virt_u32 (bi : bootinfo) (virt : Z) : Z := read_u32 bi.(phys_mem) (virt - KERNEL_VMA).
Definition virt_u64 (bi : bootinfo) (virt : Z) : Z := read_u64 bi.(phys_mem) (virt - KERNEL_VMA).

(** multiboot_info_t, packed: the offsets of the fields the code reads. *)
Definition mbi_flags bi p := virt_u32 bi p.
Definition mbi_mem_lower bi p := virt_u32 bi (p + 4).
Definition mbi_mem_upper bi p := virt_u32 bi (p + 8).
Definition mbi_mods_count bi p := virt_u32 bi (p + 20).
Definition mbi_mods_addr bi p := virt_u32 bi (p + 24).
Definition mbi_mmap_length bi p := virt_u32 bi (p + 44).
Definition mbi_mmap_addr bi p := virt_u32 bi (p + 48).
Definition sizeof_multiboot_info_t : Z := 88.
Definition sizeof_multiboot_memory_map_t : Z := 24.
Definition sizeof_multiboot_module_t : Z := 16.

Definition multiboot_map_bounds (bi : bootinfo) : option (Z * Z) :=
  match bi.(multiboot_info) with
  | None => None
  | Some p =>
      if Z.land (mbi_flags bi p) MULTIBOOT_INFO_MEM_MAP =? 0 then None
      else
        let start := mbi_mmap_addr bi p in
        let len := mbi_mmap_length bi p in
        let end_ := u32 (start + len) in
        if end_ <? start then None else Some (start, end_)
  end.

Definition multiboot_decode_memory_region (cursor_phys : Z)
    : M bootinfo (option (bootinfo_memory_region * Z)) :=
  bounds <- gets multiboot_map_bounds ;;
  match bounds with
  | None => ret None
  | Some (map_start_phys, map_end_phys) =>
      if (cursor_phys <? map_start_phys) || (map_end_phys <=? cursor_phys) then ret None
      else
        entry <- paging_phys_to_virt cursor_phys ;;
        payload_size <- gets (fun bi => virt_u32 bi entry) ;;
        let entry_size := u32 (payload_size + 4) in
        if payload_size <? sizeof_multiboot_memory_map_t - 4 then ret None
        else if entry_size <? 4 then ret None
        else
          let next_cursor := u32 (cursor_phys + entry_size) in
          if (next_cursor <=? cursor_phys) || (map_end_phys <? next_cursor) then ret None
          else
            addr <- gets (fun bi => virt_u64 bi (entry + 4)) ;;
            len <- gets (fun bi => virt_u64 bi (entry + 12)) ;;
            ty <- gets (fun bi => virt_u32 bi (entry + 20)) ;;
            ret (Some (mk_region addr len ty, next_cursor))
  end.

Definition bootinfo_init (boot_magic boot_info_phys : Z) : M bootinfo bool :=
  modify (fun bi => mk_bootinfo BOOTINFO_LOADER_UNKNOWN 0 None bi.(phys_mem)) ;;;
  if negb (boot_magic =? MULTIBOOT_BOOTLOADER_MAGIC) then ret false
  else
    modify (fun bi => mk_bootinfo bi.(loader_kind) boot_info_phys bi.(multiboot_info) bi.(phys_mem)) ;;;
    virt <- paging_phys_to_virt boot_info_phys ;;
    modify (fun bi => mk_bootinfo BOOTINFO_LOADER_MULTIBOOT1 bi.(info_phys) (Some virt) bi.(phys_mem)) ;;;
    ret true.

Definition is_multiboot1 (bi : bootinfo) : bool :=
  match bi.(loader_kind) with BOOTINFO_LOADER_MULTIBOOT1 => true | _ => false end.

Definition bootinfo_info_phys (bi : bootinfo) : Z := bi.(info_phys).

Definition bootinfo_info_size_hint (bi : bootinfo) : Z :=
  if negb (is_multiboot1 bi) then 0 else sizeof_multiboot_info_t.

Definition bootinfo_has_memory_map (bi : bootinfo) : bool :=
  match is_multiboot1 bi, bi.(multiboot_info) with
  | true, Some p =>
      negb (Z.land (mbi_flags bi p) MULTIBOOT_INFO_MEM_MAP =? 0) && (0 <? mbi_mmap_length bi p)
  | _, _ => false
  end.

Definition bootinfo_memory_map_phys (bi : bootinfo) : Z :=
  if negb (bootinfo_has_memory_map bi) then 0
  else match bi.(multiboot_info) with Some p => mbi_mmap_addr bi p | None => 0 end.

Definition bootinfo_memory_map_size (bi : bootinfo) : Z :=
  if negb (bootinfo_has_memory_map bi) then 0
  else match bi.(multiboot_info) with Some p => mbi_mmap_length bi p | None => 0 end.

(** The iterator is its one field, [cursor_phys]; [bootinfo_memory_next] returns
    the region, if any, and the iterator it leaves behind. *)
Definition bootinfo_memory_next (cursor_phys : Z)
    : M bootinfo (option bootinfo_memory_region * Z) :=
  if cursor_phys =? 0 then ret (None, cursor_phys)
  else
    bounds <- gets multiboot_map_bounds ;;
    match bounds with
    | None => ret (None, cursor_phys)
    | Some (map_start_phys, map_end_phys) =>
        if (cursor_phys <? map_start_phys) || (map_end_phys <=? cursor_phys)
        then ret (None, cursor_phys)
        else
          decoded <- multiboot_decode_memory_region cursor_phys ;;
          match decoded with
          | None => ret (None, cursor_phys)
          | Some (region, next_cursor) =>
              ret (Some region, if map_end_phys <=? next_cursor then 0 else next_cursor)
          end
    end.

Definition bootinfo_memory_begin (iterator : Z) : M bootinfo (option bootinfo_memory_region * Z) :=
  bounds <- gets multiboot_map_bounds ;;
  match bounds with
  | None => ret (None, iterator)
  | Some (start_phys, _) => bootinfo_memory_next start_phys
  end.

(** The loop every client writes:
    [for (has = begin(&it, &r); has; has = next(&it, &r))], collecting the
    regions.  Running out of fuel is [Spin]; [memory_regions_terminates] shows
    that the fuel below is always enough. *)
Fixpoint memory_walk (fuel : nat) (has_entry : option bootinfo_memory_region * Z)
    : M bootinfo (list bootinfo_memory_region) :=
  match has_entry with
  | (None, _) => ret []
  | (Some region, it) =>
      match fuel with
      | O => fun _ => Spin
      | S fuel' =>
          has_entry' <- bootinfo_memory_next it ;;
          rest <- memory_walk fuel' has_entry' ;;
          ret (region :: rest)
      end
  end.

Definition memory_regions : M bootinfo (list bootinfo_memory_region) :=
  bounds <- gets multiboot_map_bounds ;;
  let fuel := match bounds with Some (s, e) => S (Z.to_nat (e - s)) | None => 1%nat end in
  first <- bootinfo_memory_begin 0 ;;
  memory_walk fuel first.

Definition bootinfo_has_memory_kib_info (bi : bootinfo) : bool :=
  match is_multiboot1 bi, bi.(multiboot_info) with
  | true, Some p => negb (Z.land (mbi_flags bi p) MULTIBOOT_INFO_MEMORY =? 0)
  | _, _ => false
  end.

Definition bootinfo_lower_memory_kib (bi : bootinfo) : Z :=
  if negb (bootinfo_has_memory_kib_info bi) then 0
  else match bi.(multiboot_info) with Some p => mbi_mem_lower bi p | None => 0 end.

Definition bootinfo_upper_memory_kib (bi : bootinfo) : Z :=
  if negb (bootinfo_has_memory_kib_info bi) then 0
  else match bi.(multiboot_info) with Some p => mbi_mem_upper bi p | None => 0 end.

Definition bootinfo_module_count (bi : bootinfo) : Z :=
  match is_multiboot1 bi, bi.(multiboot_info) with
  | true, Some p =>
      if Z.land (mbi_flags bi p) MULTIBOOT_INFO_MODULES =? 0 then 0 else mbi_mods_count bi p
  | _, _ => 0
  end.

Definition bootinfo_module_at (index : Z) : M bootinfo (option bootinfo_module) :=
  count <- gets bootinfo_module_count ;;
  if count <=? index then ret None
  else
    info <- gets multiboot_info ;;
    p <- of_option info ;;
    mods_addr <- gets (fun bi => mbi_mods_addr bi p) ;;
    modules <- paging_phys_to_virt mods_addr ;;
    let entry := modules + sizeof_multiboot_module_t * index in
    start <- gets (fun bi => virt_u32 bi entry) ;;
    end_ <- gets (fun bi => virt_u32 bi (entry + 4)) ;;
    str <- gets (fun bi => virt_u32 bi (entry + 8)) ;;
    if str =? 0 then ret (Some (mk_module start end_ None))
    else
      s <- paging_phys_to_virt str ;;
      ret (Some (mk_module start end_ (Some s))).

Definition bootinfo_module_table_phys (bi : bootinfo) : Z :=
  if bootinfo_module_count bi =? 0 then 0
  else match bi.(multiboot_info) with Some p => mbi_mods_addr bi p | None => 0 end.

Definition bootinfo_module_table_size (bi : bootinfo) : Z :=
  let count := bootinfo_module_count bi in
  if count =? 0 then 0 else u32 (count * sizeof_multiboot_module_t).

(** ** Lemmas *)

Lemma phys_to_virt_spec {St} p (s : St) :
  0 <= p < KERNEL_DIRECT_MAP_LIMIT_PHYS ->
  paging_phys_to_virt p s = Done (KERNEL_VMA + p) s.
Proof.
  intros Hp. unfold paging_phys_to_virt, KERNEL_DIRECT_MAP_LIMIT_PHYS, KERNEL_VMA in *.
  destruct (Z.leb_spec 0x10000000 p); [lia|]. unfold ret. f_equal. apply wrap_small. word_lia.
Qed.

(** Every address of the map fits its register, so reads are bounded. *)
Lemma map_bounds_fits bi s e :
  multiboot_map_bounds bi = Some (s, e) -> 0 <= s <= e /\ e < 2 ^ 32.
Proof.
  unfold multiboot_map_bounds. destruct (multiboot_info bi) as [p|]; [|done].
  destruct (_ =? 0); [done|]. destruct (Z.ltb_spec (u32 (mbi_mmap_addr bi p + mbi_mmap_length bi p))
    (mbi_mmap_addr bi p)); [done|]. intros [= <- <-].
  pose proof (read_u32_fits (phys_mem bi) (p + 48 - KERNEL_VMA)).
  pose proof (wrap_fits 32 (mbi_mmap_addr bi p + mbi_mmap_length bi p)).
  unfold mbi_mmap_addr, mbi_mmap_length, virt_u32, fits in *. lia.
Qed.

(** One iterator step never changes the state, and when it yields a region the
    iterator has strictly advanced inside the map or is the end marker 0. *)
Lemma memory_next_progress it bi res bi' :
  bootinfo_memory_next it bi = Done res bi' ->
  bi' = bi /\
  (fst res = None \/
   it <> 0 /\
   exists s e, multiboot_map_bounds bi = Some (s, e) /\ s <= it < e /\
               (snd res = 0 \/ it + 24 <= snd res < e)).
Proof.
  unfold bootinfo_memory_next, multiboot_decode_memory_region, paging_phys_to_virt.
  destruct (it =? 0) eqn:E0; [run; naive_solver|]. run.
  destruct (multiboot_map_bounds bi) as [[s e]|] eqn:Hb; [|run; naive_solver].
  destruct ((it <? s) || (e <=? it)) eqn:E1; [run; naive_solver|]. run. rewrite Hb, E1. run.
  run_if; [done|]. do 3 (run_if; [naive_solver|]).
  intros [= <- <-]. split; [done|]. right. simpl.
  z_bools. apply map_bounds_fits in Hb as Hf. destruct Hf as [Hse He].
  split; [done|]. exists s, e. split; [done|]. split; [lia|].
  set (v := virt_u32 bi (u32 (KERNEL_VMA + it))) in *.
  assert (fits 32 v) as Hv by apply read_u32_fits.
  unfold sizeof_multiboot_memory_map_t in *.
  destruct (Z.leb_spec e (u32 (it + u32 (v + 4)))); [by left|right].
  assert (u32 (v + 4) = v + 4) as Ev.
  { rewrite Z.add_comm in *. apply wrap_add_no_overflow; word_lia. }
  rewrite Ev in *. assert (fits 32 (v + 4)) by (rewrite <- Ev; by apply wrap_fits).
  assert (u32 (it + (v + 4)) = it + (v + 4)) by (apply wrap_add_no_overflow; word_lia). lia.
Qed.

Lemma memory_next_not_spin it bi : bootinfo_memory_next it bi <> Spin.
Proof.
  unfold bootinfo_memory_next, multiboot_decode_memory_region, paging_phys_to_virt.
  destruct (it =? 0); [done|]. run. destruct (multiboot_map_bounds bi) as [[s e]|] eqn:Hb; [|done].
  destruct (_ || _) eqn:E1; [done|]. run. rewrite Hb, E1. run. by repeat run_if.
Qed.

Lemma memory_walk_not_spin fuel bi res :
  (fst res = None \/ snd res = 0 /\ (0 < fuel)%nat \/
   exists s e, multiboot_map_bounds bi = Some (s, e) /\ snd res < e /\
               (Z.to_nat (e - snd res) < fuel)%nat) ->
  memory_walk fuel res bi <> Spin.
Proof.
  revert res. induction fuel as [|fuel IH]; intros [[r|] it] H; simpl in *; try done.
  - destruct H as [H|[H|(s & e & _ & H)]]; [done|lia|lia].
  - unfold bind. destruct (bootinfo_memory_next it bi) as [res' bi'| | |] eqn:En;
      try done; [|by apply memory_next_not_spin in En].
    apply memory_next_progress in En as [-> Hp].
    specialize (IH res'). destruct (memory_walk fuel res' bi) eqn:Ew; try done.
    exfalso. apply IH; [|done].
    destruct H as [H|[[-> _]|(s & e & Hb & Hlt & Hf)]]; [done| |].
    + destruct Hp as [?|[? _]]; [by left|done].
    + destruct Hp as [?|(_ & s' & e' & Hb' & Hit & Hp)]; [by left|].
      rewrite Hb in Hb'. injection Hb' as <- <-. right.
      destruct Hp as [->|Hp]; [left; split; [done|]; lia|right].
      exists s, e. split; [done|]. lia.
Qed.

(** ** The memory map in memory *)

(** [map_at m p regions e]: the bytes of [m] from [p] up to [e] are the entries
    of [regions], each a size word followed by at least 20 bytes of payload. *)
Inductive map_at (m : memory) : Z -> list bootinfo_memory_region -> Z -> Prop :=
| map_at_nil p : map_at m p [] p
| map_at_cons p r rest e :
    20 <= read_u32 m p ->
    read_u64 m (p + 4) = r.(region_base) ->
    read_u64 m (p + 12) = r.(region_length) ->
    read_u32 m (p + 20) = r.(region_type) ->
    map_at m (p + (read_u32 m p + 4)) rest e ->
    map_at m p (r :: rest) e.

Lemma map_at_le m p regions e : map_at m p regions e -> p <= e.
Proof. induction 1; lia. Qed.

(** The decoder reads back the entry that starts at the cursor. *)
Lemma memory_next_decodes bi s e p r rest :
  multiboot_map_bounds bi = Some (s, e) -> 0 < p -> s <= p ->
  e <= KERNEL_DIRECT_MAP_LIMIT_PHYS -> map_at bi.(phys_mem) p (r :: rest) e ->
  let next := p + (read_u32 bi.(phys_mem) p + 4) in
  bootinfo_memory_next p bi = Done (Some r, if e <=? next then 0 else next) bi.
Proof.
  intros Hb Hp Hs He Hm. inversion Hm as [|? ? ? ? Hsz Ha Hl Ht Hrest]; subst. cbv zeta.
  apply map_at_le in Hrest. pose proof (read_u32_fits bi.(phys_mem) p) as Hf.
  unfold bootinfo_memory_next, multiboot_decode_memory_region, KERNEL_DIRECT_MAP_LIMIT_PHYS,
    sizeof_multiboot_memory_map_t in *.
  run_lia. rewrite Hb. run_lia. rewrite Hb. run_lia.
  rewrite (run_bind_done _ _ _ (KERNEL_VMA + p) bi) by (apply phys_to_virt_spec;
    unfold KERNEL_DIRECT_MAP_LIMIT_PHYS; lia).
  run. unfold virt_u32, virt_u64.
  replace (KERNEL_VMA + p - KERNEL_VMA) with p by lia.
  rewrite (wrap_small 32 (read_u32 _ p + 4)) by word_lia.
  rewrite (wrap_small 32 (p + _)) by word_lia.
  do 3 run_lia.
  replace (KERNEL_VMA + p + 4 - KERNEL_VMA) with (p + 4) by lia.
  replace (KERNEL_VMA + p + 12 - KERNEL_VMA) with (p + 12) by lia.
  replace (KERNEL_VMA + p + 20 - KERNEL_VMA) with (p + 20) by lia.
  rewrite Ha, Hl, Ht. by destruct r.
Qed.

Lemma memory_walk_decodes bi s e regions : forall fuel p r rest,
  regions = r :: rest -> (List.length rest < fuel)%nat ->
  multiboot_map_bounds bi = Some (s, e) -> 0 < p -> s <= p ->
  e <= KERNEL_DIRECT_MAP_LIMIT_PHYS -> map_at bi.(phys_mem) p regions e ->
  bind (bootinfo_memory_next p) (memory_walk fuel) bi = Done regions bi.
Proof.
  induction regions as [|r0 regions IH]; intros fuel p r rest [= -> ->] Hf Hb Hp Hs He Hm.
  rewrite (run_bind_done _ _ _ _ _ (memory_next_decodes _ _ _ _ _ _ Hb Hp Hs He Hm)).
  destruct fuel as [|fuel]; [lia|]. inversion Hm as [|? ? ? ? Hsz _ _ _ Hrest]; subst.
  set (next := p + _) in *. cbn [memory_walk]. rewrite <- run_bind_bind.
  destruct rest as [|r' rest'].
  - inversion Hrest; subst. destruct (Z.leb_spec next next); [|lia].
    unfold bootinfo_memory_next at 1. simpl Z.eqb. cbv iota. run. by destruct fuel.
  - inversion Hrest as [|? ? ? ? Hsz' _ _ _ Hrest']; subst. apply map_at_le in Hrest'.
    destruct (Z.leb_spec e next); [lia|].
    erewrite run_bind_done; [|eapply (IH fuel next); eauto; [simpl in *; lia|lia|lia]]. by run.
Qed.

(** A machine with two megabytes of memory: the Multiboot structure at 0x500,
    its map, one available region, at 0x600. *)
Definition sample_memory : memory := fun a =>
  if a =? 0x500 then 0x40
  else if a =? 0x52C then 24
  else if a =? 0x531 then 0x06
  else if a =? 0x600 then 20
  else if a =? 0x60E then 0x20
  else if a =? 0x614 then 1
  else 0.
Definition sample_boot : bootinfo :=
  mk_bootinfo BOOTINFO_LOADER_MULTIBOOT1 0x500 (Some (KERNEL_VMA + 0x500)) sample_memory.
Definition sample_regions : list bootinfo_memory_region := [mk_region 0 0x200000 1].

Lemma memory_regions_decodes : forall bi s e regions,
  multiboot_map_bounds bi = Some (s, e) ->
  0 < s -> e <= KERNEL_DIRECT_MAP_LIMIT_PHYS ->
  map_at bi.(phys_mem) s regions e ->
  memory_regions bi = Done regions bi.
Proof.
  intros bi s e regions Hb Hs He Hm. unfold memory_regions, bootinfo_memory_begin. run.
  rewrite Hb. destruct regions as [|r rest].
  - inversion Hm; subst. unfold bootinfo_memory_next. destruct (Z.eqb_spec e 0); [lia|]. run.
    rewrite Hb. destruct (Z.leb_spec e e); [|lia]. rewrite orb_true_r. by run.
  - eapply memory_walk_decodes; eauto; [|lia].
    enough (24 * Z.of_nat (List.length (r :: rest)) <= e - s) by (simpl List.length in *; lia).
    clear Hb Hs He. induction Hm; simpl List.length; lia.
Qed.

(** ** Theorems *)

(** C38: walking the boot memory map terminates whatever bytes the bootloader
    left in memory: the [begin]/[next] loop never runs for ever. *)
Theorem memory_regions_terminates : forall bi, memory_regions bi <> Spin.
Proof.
  intros bi. unfold memory_regions, bootinfo_memory_begin. run.
  destruct (multiboot_map_bounds bi) as [[s e]|] eqn:Hb; [|by run].
  unfold bind. destruct (bootinfo_memory_next s bi) as [res bi'| | |] eqn:En; try done.
  - apply memory_next_progress in En as [-> Hp]. apply memory_walk_not_spin.
    destruct Hp as [?|(_ & s' & e' & Hb' & Hit & Hp)]; [by left|right].
    rewrite Hb in Hb'. injection Hb' as <- <-. apply map_bounds_fits in Hb as Hf.
    destruct Hp as [->|Hp]; [left; split; [done|lia]|right]. exists s, e. split; [done|]. lia.
  - by apply memory_next_not_spin in En.
Qed.

(** C37: round trip of the memory map: when memory holds the entries of
    [regions] in the Multiboot layout at [mmap_addr], the walk returns exactly
    those regions, in order. *)
Theorem memory_regions_roundtrip : forall bi s e regions,
  multiboot_map_bounds bi = Some (s, e) ->
  0 < s -> e <= KERNEL_DIRECT_MAP_LIMIT_PHYS ->
  map_at bi.(phys_mem) s regions e ->
  memory_regions bi = Done regions bi.
Proof. exact memory_regions_decodes. Qed.

Lemma memory_regions_roundtrip_witness : memory_regions sample_boot = Done sample_regions sample_boot.
Proof.
  apply (memory_regions_roundtrip sample_boot 0x600 0x618 sample_regions).
  - reflexivity.
  - reflexivity.
  - unfold KERNEL_DIRECT_MAP_LIMIT_PHYS. lia.
  - apply map_at_cons; try (vm_compute; congruence).
    replace (_ + _) with 0x618 by (vm_compute; reflexivity). apply map_at_nil.
Defined.
