(* ===== verification/Pmm.v ===== *)
(** Physical memory manager: kernel/kernel/pmm.c.

    A bitmap with one bit per page frame (set = in use), a global count of free
    frames and up to eight NUMA nodes that partition the frames, each with its
    own count and scan cursor.  Every public operation runs under
    [pmm_state_lock] with interrupts disabled. *)
From S2P Require Import Prelude Bootinfo.
From Stdlib Require Import ZArith Lia.
Open Scope Z_scope.

Definition PMM_MAX_NUMA_NODES : Z := 8.
Definition PMM_NUMA_NODE_ANY : Z := 0xFF.
Definition PMM_PHYS_CAP : Z := 0xFFFFF000.

Record pmm_numa_node : Type := mk_node {
  first_frame : Z;
  frame_count : Z;
  node_free_frames : Z;
  next_scan_frame : Z
}.

Definition set_first_frame (v : Z) (s : pmm_numa_node) : pmm_numa_node :=
  mk_node v (s.(frame_count)) (s.(node_free_frames)) (s.(next_scan_frame)).
Definition set_frame_count (v : Z) (s : pmm_numa_node) : pmm_numa_node :=
  mk_node (s.(first_frame)) v (s.(node_free_frames)) (s.(next_scan_frame)).
Definition set_node_free_frames (v : Z) (s : pmm_numa_node) : pmm_numa_node :=
  mk_node (s.(first_frame)) (s.(frame_count)) v (s.(next_scan_frame)).
Definition set_next_scan_frame (v : Z) (s : pmm_numa_node) : pmm_numa_node :=
  mk_node (s.(first_frame)) (s.(frame_count)) (s.(node_free_frames)) v.

(** The static variables of pmm.c, and the EFLAGS of the executing CPU. *)
Record pmm : Type := mk_pmm {
  frame_bitmap : option (list Z);
  total_frames : Z;
  free_frames : Z;
  total_memory_kib : Z;
  bitmap_end_phys : Z;
  initialized : bool;
  pmm_state_lock : Z;
  numa_nodes : list pmm_numa_node;
  active_numa_node_count : Z;
  round_robin_numa_node : Z;
  global_next_scan_frame : Z;
  eflags : Z
}.

Definition set_frame_bitmap (v : option (list Z)) (s : pmm) : pmm :=
  mk_pmm v (s.(total_frames)) (s.(free_frames)) (s.(total_memory_kib)) (s.(bitmap_end_phys)) (s.(initialized)) (s.(pmm_state_lock)) (s.(numa_nodes)) (s.(active_numa_node_count)) (s.(round_robin_numa_node)) (s.(global_next_scan_frame)) (s.(eflags)).
Definition set_total_frames (v : Z) (s : pmm) : pmm :=
  mk_pmm (s.(frame_bitmap)) v (s.(free_frames)) (s.(total_memory_kib)) (s.(bitmap_end_phys)) (s.(initialized)) (s.(pmm_state_lock)) (s.(numa_nodes)) (s.(active_numa_node_count)) (s.(round_robin_numa_node)) (s.(global_next_scan_frame)) (s.(eflags)).
Definition set_free_frames (v : Z) (s : pmm) : pmm :=
  mk_pmm (s.(frame_bitmap)) (s.(total_frames)) v (s.(total_memory_kib)) (s.(bitmap_end_phys)) (s.(initialized)) (s.(pmm_state_lock)) (s.(numa_nodes)) (s.(active_numa_node_count)) (s.(round_robin_numa_node)) (s.(global_next_scan_frame)) (s.(eflags)).
Definition set_total_memory_kib (v : Z) (s : pmm) : pmm :=
  mk_pmm (s.(frame_bitmap)) (s.(total_frames)) (s.(free_frames)) v (s.(bitmap_end_phys)) (s.(initialized)) (s.(pmm_state_lock)) (s.(numa_nodes)) (s.(active_numa_node_count)) (s.(round_robin_numa_node)) (s.(global_next_scan_frame)) (s.(eflags)).
Definition set_bitmap_end_phys (v : Z) (s : pmm) : pmm :=
  mk_pmm (s.(frame_bitmap)) (s.(total_frames)) (s.(free_frames)) (s.(total_memory_kib)) v (s.(initialized)) (s.(pmm_state_lock)) (s.(numa_nodes)) (s.(active_numa_node_count)) (s.(round_robin_numa_node)) (s.(global_next_scan_frame)) (s.(eflags)).
Definition set_initialized (v : bool) (s : pmm) : pmm :=
  mk_pmm (s.(frame_bitmap)) (s.(total_frames)) (s.(free_frames)) (s.(total_memory_kib)) (s.(bitmap_end_phys)) v (s.(pmm_state_lock)) (s.(numa_nodes)) (s.(active_numa_node_count)) (s.(round_robin_numa_node)) (s.(global_next_scan_frame)) (s.(eflags)).
Definition set_pmm_state_lock (v : Z) (s : pmm) : pmm :=
  mk_pmm (s.(frame_bitmap)) (s.(total_frames)) (s.(free_frames)) (s.(total_memory_kib)) (s.(bitmap_end_phys)) (s.(initialized)) v (s.(numa_nodes)) (s.(active_numa_node_count)) (s.(round_robin_numa_node)) (s.(global_next_scan_frame)) (s.(eflags)).
Definition set_numa_nodes (v : list pmm_numa_node) (s : pmm) : pmm :=
  mk_pmm (s.(frame_bitmap)) (s.(total_frames)) (s.(free_frames)) (s.(total_memory_kib)) (s.(bitmap_end_phys)) (s.(initialized)) (s.(pmm_state_lock)) v (s.(active_numa_node_count)) (s.(round_robin_numa_node)) (s.(global_next_scan_frame)) (s.(eflags)).
Definition set_active_numa_node_count (v : Z) (s : pmm) : pmm :=
  mk_pmm (s.(frame_bitmap)) (s.(total_frames)) (s.(free_frames)) (s.(total_memory_kib)) (s.(bitmap_end_phys)) (s.(initialized)) (s.(pmm_state_lock)) (s.(numa_nodes)) v (s.(round_robin_numa_node)) (s.(global_next_scan_frame)) (s.(eflags)).
Definition set_round_robin_numa_node (v : Z) (s : pmm) : pmm :=
  mk_pmm (s.(frame_bitmap)) (s.(total_frames)) (s.(free_frames)) (s.(total_memory_kib)) (s.(bitmap_end_phys)) (s.(initialized)) (s.(pmm_state_lock)) (s.(numa_nodes)) (s.(active_numa_node_count)) v (s.(global_next_scan_frame)) (s.(eflags)).
Definition set_global_next_scan_frame (v : Z) (s : pmm) : pmm :=
  mk_pmm (s.(frame_bitmap)) (s.(total_frames)) (s.(free_frames)) (s.(total_memory_kib)) (s.(bitmap_end_phys)) (s.(initialized)) (s.(pmm_state_lock)) (s.(numa_nodes)) (s.(active_numa_node_count)) (s.(round_robin_numa_node)) v (s.(eflags)).
Definition set_eflags (v : Z) (s : pmm) : pmm :=
  mk_pmm (s.(frame_bitmap)) (s.(total_frames)) (s.(free_frames)) (s.(total_memory_kib)) (s.(bitmap_end_phys)) (s.(initialized)) (s.(pmm_state_lock)) (s.(numa_nodes)) (s.(active_numa_node_count)) (s.(round_robin_numa_node)) (s.(global_next_scan_frame)) v.

Definition align_up_u32 (value alignment : Z) : Z :=
  Z.land (u32 (value + alignment - 1)) (u32 (Z.lnot (alignment - 1))).

Definition align_up_u64 (value alignment : Z) : Z :=
  Z.land (u64 (value + alignment - 1)) (u64 (Z.lnot (alignment - 1))).

(** ** Locking *)

Definition pmm_irq_save : M pmm Z :=
  flags <- gets eflags ;;
  modify (fun s => set_eflags (cli s.(eflags)) s) ;;;
  ret flags.

Definition pmm_irq_restore (flags : Z) : M pmm unit :=
  if interrupts_on flags then modify (fun s => set_eflags (sti s.(eflags)) s) else ret tt.

(** [xchgl]: stores 1, returns whether the old value was 0. *)
Definition pmm_atomic_try_lock_u32 : M pmm bool :=
  old <- gets pmm_state_lock ;;
  modify (set_pmm_state_lock 1) ;;;
  ret (old =? 0).

(** A lock word that is already set is never cleared while this CPU waits with
    interrupts disabled, so the outer loop spins. *)
Definition pmm_lock_irqsave : M pmm Z :=
  irq_flags <- pmm_irq_save ;;
  ok <- pmm_atomic_try_lock_u32 ;;
  if ok then ret irq_flags else fun _ => Spin.

Definition pmm_unlock_irqrestore (irq_flags : Z) : M pmm unit :=
  modify (set_pmm_state_lock 0) ;;;
  pmm_irq_restore irq_flags.

(** The shape of every public operation. *)
Definition with_pmm_lock {A} (body : M pmm A) : M pmm A :=
  irq_flags <- pmm_lock_irqsave ;;
  r <- body ;;
  pmm_unlock_irqrestore irq_flags ;;;
  ret r.

(** ** The bitmap *)

Definition bitmap_byte (i : Z) : M pmm Z :=
  bm <- gets frame_bitmap ;;
  bytes <- of_option bm ;;
  of_option (bytes !! Z.to_nat i).

Definition bitmap_store (i v : Z) : M pmm unit :=
  bm <- gets frame_bitmap ;;
  bytes <- of_option bm ;;
  _ <- of_option (bytes !! Z.to_nat i) ;;
  modify (set_frame_bitmap (Some (<[Z.to_nat i := v]> bytes))).

Definition bitmap_set (frame : Z) : M pmm unit :=
  b <- bitmap_byte (frame / 8) ;;
  bitmap_store (frame / 8) (Z.lor b (u8 (Z.shiftl 1 (frame mod 8)))).

Definition bitmap_clear (frame : Z) : M pmm unit :=
  b <- bitmap_byte (frame / 8) ;;
  bitmap_store (frame / 8) (Z.land b (u8 (Z.lnot (Z.shiftl 1 (frame mod 8))))).

Definition bitmap_test (frame : Z) : M pmm bool :=
  b <- bitmap_byte (frame / 8) ;;
  ret (negb (Z.land b (Z.shiftl 1 (frame mod 8)) =? 0)).

(** ** NUMA nodes *)

Definition node_at (i : Z) : M pmm pmm_numa_node :=
  nodes <- gets numa_nodes ;;
  of_option (nodes !! Z.to_nat i).

Definition node_update (i : Z) (f : pmm_numa_node -> pmm_numa_node) : M pmm unit :=
  node <- node_at i ;;
  modify (fun s => set_numa_nodes (<[Z.to_nat i := f node]> s.(numa_nodes)) s).

Definition pmm_node_contains_frame (node : pmm_numa_node) (frame : Z) : bool :=
  if node.(frame_count) =? 0 then false
  else
    let end_ := u32 (node.(first_frame) + node.(frame_count)) in
    (node.(first_frame) <=? frame) && (frame <? end_).

Definition pmm_node_index_for_frame (frame : Z) : M pmm Z :=
  active <- gets active_numa_node_count ;;
  found <- for_range 0 active (fun node =>
    n <- node_at node ;;
    ret (if pmm_node_contains_frame n frame then Some (u8 node) else None)) ;;
  ret (default PMM_NUMA_NODE_ANY found).

Definition pmm_numa_reset_layout (node_count : Z) : M pmm unit :=
  let node_count := if node_count =? 0 then 1 else node_count in
  let node_count := if PMM_MAX_NUMA_NODES <? node_count then PMM_MAX_NUMA_NODES else node_count in
  total <- gets total_frames ;;
  let base_frames_per_node := total / node_count in
  _ <- for_acc (R := Empty_set) 0 node_count (0, total mod node_count)
    (fun node '(cursor, remainder) =>
       let frames := base_frames_per_node + (if 0 <? remainder then 1 else 0) in
       let remainder := if 0 <? remainder then remainder - 1 else remainder in
       node_update node (fun _ => mk_node cursor frames 0 cursor) ;;;
       ret (inl (u32 (cursor + frames), remainder))) ;;
  for_each node_count PMM_MAX_NUMA_NODES (fun node =>
    node_update node (fun _ => mk_node 0 0 0 0)) ;;;
  modify (set_active_numa_node_count node_count) ;;;
  modify (fun s => if node_count <=? s.(round_robin_numa_node)
                   then set_round_robin_numa_node 0 s else s) ;;;
  modify (fun s => if s.(total_frames) <=? s.(global_next_scan_frame)
                   then set_global_next_scan_frame 0 s else s).

Definition pmm_recount_numa_free_frames_locked : M pmm unit :=
  active <- gets active_numa_node_count ;;
  r <- for_acc (R := Empty_set) 0 active 0 (fun node total_free =>
    numa_node <- node_at node ;;
    let start := numa_node.(first_frame) in
    let end_ := u32 (start + numa_node.(frame_count)) in
    c <- for_acc (R := Empty_set) start end_ 0 (fun frame node_free =>
      used <- bitmap_test frame ;;
      ret (inl (if negb used then u32 (node_free + 1) else node_free))) ;;
    let node_free := match c with inl n => n | inr e => match e with end end in
    node_update node (set_node_free_frames node_free) ;;;
    numa_node <- node_at node ;;
    (if negb (pmm_node_contains_frame numa_node numa_node.(next_scan_frame))
     then node_update node (set_next_scan_frame start) else ret tt) ;;;
    ret (inl (u32 (total_free + node_free)))) ;;
  modify (set_free_frames (match r with inl n => n | inr e => match e with end end)).

(** ** Frames *)

Definition reserve_frame_locked (frame : Z) : M pmm bool :=
  total <- gets total_frames ;;
  if total <=? frame then ret false
  else
    used <- bitmap_test frame ;;
    if used then ret false
    else
      bitmap_set frame ;;;
      modify (fun s => if 0 <? s.(free_frames) then set_free_frames (s.(free_frames) - 1) s else s) ;;;
      node <- pmm_node_index_for_frame frame ;;
      (if negb (node =? PMM_NUMA_NODE_ANY) then
         n <- node_at node ;;
         if 0 <? n.(node_free_frames)
         then node_update node (fun n => set_node_free_frames (n.(node_free_frames) - 1) n)
         else ret tt
       else ret tt) ;;;
      ret true.

Definition release_frame_locked (frame : Z) : M pmm bool :=
  total <- gets total_frames ;;
  if total <=? frame then ret false
  else
    used <- bitmap_test frame ;;
    if negb used then ret false
    else
      bitmap_clear frame ;;;
      modify (fun s => set_free_frames (u32 (s.(free_frames) + 1)) s) ;;;
      node <- pmm_node_index_for_frame frame ;;
      (if negb (node =? PMM_NUMA_NODE_ANY) then
         node_update node (fun n => set_node_free_frames (u32 (n.(node_free_frames) + 1)) n)
       else ret tt) ;;;
      ret true.

(** The body of both scan loops of [pmm_find_free_frame_in_node_locked]. *)
Definition scan_frame (node_id start end_ frame : Z) : M pmm (option Z) :=
  used <- bitmap_test frame ;;
  if used then ret None
  else
    ok <- reserve_frame_locked frame ;;
    if negb ok then ret None
    else
      node_update node_id
        (set_next_scan_frame (if u32 (frame + 1) <? end_ then u32 (frame + 1) else start)) ;;;
      ret (Some frame).

Definition pmm_find_free_frame_in_node_locked (node_id : Z) : M pmm (option Z) :=
  active <- gets active_numa_node_count ;;
  if active <=? node_id then ret None
  else
    node <- node_at node_id ;;
    if (node.(frame_count) =? 0) || (node.(node_free_frames) =? 0) then ret None
    else
      let start := node.(first_frame) in
      let end_ := u32 (start + node.(frame_count)) in
      let cursor := if negb (pmm_node_contains_frame node node.(next_scan_frame))
                    then start else node.(next_scan_frame) in
      r <- for_range cursor end_ (scan_frame node_id start end_) ;;
      match r with
      | Some frame => ret (Some frame)
      | None => for_range start cursor (scan_frame node_id start end_)
      end.

Definition pmm_find_contiguous_free_linear_locked (start end_ frame_count : Z) : M pmm (option Z) :=
  if (end_ <=? start) || (frame_count =? 0) then ret None
  else if end_ - start <? frame_count then ret None
  else
    r <- for_acc start end_ (0, 0) (fun frame '(run_start, run_length) =>
      used <- bitmap_test frame ;;
      if used then ret (inl (run_start, 0))
      else
        let run_start := if run_length =? 0 then frame else run_start in
        let run_length := u32 (run_length + 1) in
        if run_length =? frame_count then ret (inr run_start)
        else ret (inl (run_start, run_length))) ;;
    ret (match r with inr run_start => Some run_start | inl _ => None end).

Definition pmm_find_contiguous_free_wrapped_locked (start end_ frame_count search_start : Z)
    : M pmm (option Z) :=
  if (end_ <=? start) || (frame_count =? 0) then ret None
  else if end_ - start <? frame_count then ret None
  else
    let search_start := if (search_start <? start) || (end_ <=? search_start)
                        then start else search_start in
    r <- pmm_find_contiguous_free_linear_locked search_start end_ frame_count ;;
    match r with
    | Some run_start => ret (Some run_start)
    | None =>
        if search_start =? start then ret None
        else pmm_find_contiguous_free_linear_locked start search_start frame_count
    end.

Definition pmm_reserve_contiguous_locked (start_frame frame_count : Z) : M pmm bool :=
  r <- for_range 0 frame_count (fun i =>
    ok <- reserve_frame_locked (u32 (start_frame + i)) ;;
    ret (if negb ok then Some tt else None)) ;;
  ret (match r with Some _ => false | None => true end).

Definition pmm_find_contiguous_in_node_locked (node_id fcount : Z) : M pmm (option Z) :=
  active <- gets active_numa_node_count ;;
  if (active <=? node_id) || (fcount =? 0) then ret None
  else
    node <- node_at node_id ;;
    if (node.(frame_count) <? fcount) || (node.(node_free_frames) <? fcount) then ret None
    else
      let start := node.(first_frame) in
      let end_ := u32 (start + node.(frame_count)) in
      let cursor := if negb (pmm_node_contains_frame node node.(next_scan_frame))
                    then start else node.(next_scan_frame) in
      r <- pmm_find_contiguous_free_wrapped_locked start end_ fcount cursor ;;
      match r with
      | None => ret None
      | Some run_start =>
          ok <- pmm_reserve_contiguous_locked run_start fcount ;;
          if negb ok then ret None
          else
            node_update node_id (set_next_scan_frame (u32 (run_start + fcount))) ;;;
            node_update node_id (fun n => if end_ <=? n.(next_scan_frame)
                                          then set_next_scan_frame start n else n) ;;;
            ret (Some run_start)
      end.

(** ** Public operations *)

Definition pmm_mark_available_range (base len : Z) : M pmm unit :=
  with_pmm_lock (
    let start_frame := base / PAGE_SIZE in
    let end_frame := u32 ((base + len) / PAGE_SIZE) in
    total <- gets total_frames ;;
    for_each start_frame (Z.min end_frame total) (fun frame =>
      release_frame_locked frame ;;; ret tt)).

Definition pmm_reserve_range (base len : Z) : M pmm unit :=
  with_pmm_lock (
    let start_frame := base / PAGE_SIZE in
    let end_frame := u32 (align_up_u64 (base + len) PAGE_SIZE / PAGE_SIZE) in
    total <- gets total_frames ;;
    for_each start_frame (Z.min end_frame total) (fun frame =>
      reserve_frame_locked frame ;;; ret tt)).

(** The preferred-node attempt and the round-robin loop that the two allocators
    share; [find] is the per-node search.  The result says which exit was
    taken: the preferred node, another node, or none. *)
Inductive node_search : Type :=
| FoundPreferred (frame : Z)
| FoundNode (frame : Z)
| NotFound.

Definition search_nodes (preferred_node : Z) (find : Z -> M pmm (option Z)) : M pmm node_search :=
  active <- gets active_numa_node_count ;;
  let use_preferred := negb (preferred_node =? PMM_NUMA_NODE_ANY) && (preferred_node <? active) in
  first <- (if use_preferred then find preferred_node else ret None) ;;
  match first with
  | Some frame =>
      modify (set_round_robin_numa_node ((preferred_node + 1) mod active)) ;;;
      ret (FoundPreferred frame)
  | None =>
      rr <- gets round_robin_numa_node ;;
      let start_node := rr mod active in
      r <- for_range 0 active (fun i =>
        let node := u8 ((start_node + i) mod active) in
        if use_preferred && (node =? preferred_node) then ret None
        else
          found <- find node ;;
          match found with
          | None => ret None
          | Some frame =>
              modify (set_round_robin_numa_node ((node + 1) mod active)) ;;;
              ret (Some frame)
          end) ;;
      ret (match r with Some frame => FoundNode frame | None => NotFound end)
  end.

(** The out pointer is [out]: [false] for NULL.  The result is the returned
    boolean with the address stored through the pointer. *)
Definition pmm_alloc_frame_on_node (preferred_node : Z) (out : bool) : M pmm (option Z) :=
  if negb out then ret None
  else
    with_pmm_lock (
      s <- gets id ;;
      if negb s.(initialized) || (s.(active_numa_node_count) =? 0) || (s.(free_frames) =? 0)
      then ret None
      else
        r <- search_nodes preferred_node pmm_find_free_frame_in_node_locked ;;
        ret (match r with
             | FoundPreferred frame | FoundNode frame => Some (u32 (frame * PAGE_SIZE))
             | NotFound => None
             end)).

Definition pmm_alloc_frame (out : bool) : M pmm (option Z) :=
  pmm_alloc_frame_on_node PMM_NUMA_NODE_ANY out.

Definition pmm_free_frame (physical_addr : Z) : M pmm unit :=
  with_pmm_lock (release_frame_locked (physical_addr / PAGE_SIZE) ;;; ret tt).

(** The updates after a run was found outside the preferred-node shortcut. *)
Definition finish_run (run_start fcount : Z) : M pmm unit :=
  modify (set_global_next_scan_frame (u32 (run_start + fcount))) ;;;
  modify (fun s => if s.(total_frames) <=? s.(global_next_scan_frame)
                   then set_global_next_scan_frame (s.(global_next_scan_frame) mod s.(total_frames)) s
                   else s) ;;;
  node <- pmm_node_index_for_frame run_start ;;
  modify (fun s => if negb (node =? PMM_NUMA_NODE_ANY) && (0 <? s.(active_numa_node_count))
                   then set_round_robin_numa_node ((node + 1) mod s.(active_numa_node_count)) s
                   else s).

Definition pmm_alloc_frames_on_node (fcount preferred_node : Z) (out : bool) : M pmm (option Z) :=
  if (fcount =? 0) || negb out then ret None
  else
    with_pmm_lock (
      s <- gets id ;;
      if negb s.(initialized) || (s.(active_numa_node_count) =? 0) || (s.(free_frames) <? fcount)
      then ret None
      else
        r <- search_nodes preferred_node (fun node => pmm_find_contiguous_in_node_locked node fcount) ;;
        match r with
        | FoundPreferred run_start => ret (Some (u32 (run_start * PAGE_SIZE)))
        | FoundNode run_start =>
            finish_run run_start fcount ;;;
            ret (Some (u32 (run_start * PAGE_SIZE)))
        | NotFound =>
            total <- gets total_frames ;;
            cursor <- gets global_next_scan_frame ;;
            g <- pmm_find_contiguous_free_wrapped_locked 0 total fcount cursor ;;
            match g with
            | None => ret None
            | Some run_start =>
                ok <- pmm_reserve_contiguous_locked run_start fcount ;;
                if negb ok then ret None
                else
                  finish_run run_start fcount ;;;
                  ret (Some (u32 (run_start * PAGE_SIZE)))
            end
        end).

Definition pmm_alloc_frames (fcount : Z) (out : bool) : M pmm (option Z) :=
  pmm_alloc_frames_on_node fcount PMM_NUMA_NODE_ANY out.

Definition pmm_free_frames (physical_addr fcount : Z) : M pmm unit :=
  with_pmm_lock (
    let frame := physical_addr / PAGE_SIZE in
    for_each 0 fcount (fun i => release_frame_locked (u32 (frame + i)) ;;; ret tt)).

Definition pmm_configure_numa_topology (node_count : Z) : M pmm bool :=
  if (node_count =? 0) || (PMM_MAX_NUMA_NODES <? node_count) then ret false
  else
    with_pmm_lock (
      pmm_numa_reset_layout node_count ;;;
      s <- gets id ;;
      (if match s.(frame_bitmap) with Some _ => true | None => false end && (0 <? s.(total_frames))
       then pmm_recount_numa_free_frames_locked else ret tt) ;;;
      ret true).

Definition pmm_numa_node_count : M pmm Z := with_pmm_lock (gets active_numa_node_count).

(** pmm_numa_node_stats_t as (node_id, first_frame, frame_count, free_frames). *)
Definition pmm_get_numa_node_stats (node_id : Z) (out : bool) : M pmm (option (Z * Z * Z * Z)) :=
  if negb out then ret None
  else
    with_pmm_lock (
      active <- gets active_numa_node_count ;;
      if active <=? node_id then ret None
      else
        node <- node_at node_id ;;
        ret (Some (node_id, node.(first_frame), node.(frame_count), node.(node_free_frames)))).

Definition pmm_numa_node_for_physical (physical_addr : Z) : M pmm Z :=
  let frame := physical_addr / PAGE_SIZE in
  with_pmm_lock (
    total <- gets total_frames ;;
    if total <=? frame then ret PMM_NUMA_NODE_ANY else pmm_node_index_for_frame frame).

Definition pmm_free_memory_kib : M pmm Z :=
  with_pmm_lock (gets (fun s => u32 (s.(free_frames) * 4))).

Definition pmm_total_memory_kib : M pmm Z := gets total_memory_kib.
Definition pmm_is_initialized : M pmm bool := gets initialized.
Definition pmm_bitmap_end_phys : M pmm Z := gets bitmap_end_phys.

(** ** Initialisation *)

Section Init.
(** Physical addresses of the linker symbols [_kernel_start], [_kernel_end]. *)
Variables kernel_start_phys kernel_end_phys : Z.
(** The boot information, which [pmm_init] only reads.  The bitmap is the list
    [frame_bitmap], apart from this memory: filling it does not change what is read
    here, so the model is that of a boot loader which put nothing where the bitmap
    goes, behind the kernel image. *)
Variable bi : bootinfo.

Definition raise_highest (highest_physical : Z) (region : bootinfo_memory_region) : Z :=
  let region_end := u64 (region.(region_base) + region.(region_length)) in
  let region_end := if region_end <? region.(region_base) then PMM_PHYS_CAP else region_end in
  let region_end := if PMM_PHYS_CAP <? region_end then PMM_PHYS_CAP else region_end in
  if region_end =? 0 then highest_physical
  else
    let region_end_u32 := u32 region_end in
    if highest_physical <? region_end_u32 then region_end_u32 else highest_physical.

Definition mark_region (region : bootinfo_memory_region) : M pmm unit :=
  if negb (region.(region_type) =? MULTIBOOT_MEMORY_AVAILABLE) || (region.(region_length) =? 0)
  then ret tt
  else
    let start := region.(region_base) in
    let end_ := u64 (region.(region_base) + region.(region_length)) in
    if end_ <=? start then ret tt
    else if PMM_PHYS_CAP <=? start then ret tt
    else
      let end_ := if PMM_PHYS_CAP <? end_ then PMM_PHYS_CAP else end_ in
      pmm_mark_available_range (u32 start) (u32 (end_ - start)).

Definition reserve_module (i : Z) : M pmm unit :=
  m <- reading bi (bootinfo_module_at i) ;;
  match m with
  | None => ret tt
  | Some m =>
      (if m.(mod_start) <? m.(mod_end)
       then pmm_reserve_range m.(mod_start) (m.(mod_end) - m.(mod_start)) else ret tt) ;;;
      match m.(mod_string) with
      | None => ret tt
      | Some str =>
          phys <- paging_virt_to_phys_direct str ;;
          pmm_reserve_range phys 128
      end
  end.

Definition pmm_init : M pmm unit :=
  modify (set_initialized false) ;;;
  modify (set_pmm_state_lock 0) ;;;
  modify (set_active_numa_node_count 1) ;;;
  modify (set_round_robin_numa_node 0) ;;;
  modify (set_global_next_scan_frame 0) ;;;
  highest_physical <-
    (if bootinfo_has_memory_map bi then
       regions <- reading bi memory_regions ;;
       ret (fold_left raise_highest regions 0)
     else if bootinfo_has_memory_kib_info bi then
       ret (u32 (u32 (bootinfo_upper_memory_kib bi + 1024) * 1024))
     else panic "no memory map provided by bootloader") ;;
  if highest_physical =? 0 then panic "bootloader reported zero physical memory"
  else
    let total := align_up_u32 highest_physical PAGE_SIZE / PAGE_SIZE in
    modify (set_total_frames total) ;;;
    modify (set_total_memory_kib (u32 (total * 4))) ;;;
    let bitmap_bytes := align_up_u32 (u32 (total + 7) / 8) PAGE_SIZE in
    let bitmap_phys := align_up_u32 kernel_end_phys PAGE_SIZE in
    modify (set_bitmap_end_phys (u32 (bitmap_phys + bitmap_bytes))) ;;;
    if BOOTSTRAP_WINDOW_SIZE <=? u32 (bitmap_phys + bitmap_bytes)
    then panic "frame bitmap exceeds bootstrap mapping window"
    else
      paging_phys_to_virt bitmap_phys ;;;
      modify (set_frame_bitmap (Some (replicate (Z.to_nat bitmap_bytes) 0xFF))) ;;;
      modify (set_free_frames 0) ;;;
      pmm_numa_reset_layout 1 ;;;
      (if bootinfo_has_memory_map bi then
         regions <- reading bi memory_regions ;;
         foreach regions mark_region
       else ret tt) ;;;
      pmm_reserve_range 0 0x100000 ;;;
      pmm_reserve_range kernel_start_phys (u32 (kernel_end_phys - kernel_start_phys)) ;;;
      pmm_reserve_range bitmap_phys bitmap_bytes ;;;
      (if negb (bootinfo_info_phys bi =? 0) && negb (bootinfo_info_size_hint bi =? 0)
       then pmm_reserve_range (bootinfo_info_phys bi) (bootinfo_info_size_hint bi) else ret tt) ;;;
      (if bootinfo_has_memory_map bi
       then pmm_reserve_range (bootinfo_memory_map_phys bi) (bootinfo_memory_map_size bi)
       else ret tt) ;;;
      (if negb (bootinfo_module_table_phys bi =? 0) && negb (bootinfo_module_table_size bi =? 0)
       then pmm_reserve_range (bootinfo_module_table_phys bi) (bootinfo_module_table_size bi)
       else ret tt) ;;;
      for_each 0 (bootinfo_module_count bi) reserve_module ;;;
      with_pmm_lock pmm_recount_numa_free_frames_locked ;;;
      modify (set_initialized true).
End Init.
