(* ===== verification/PmmFacts.v ===== *)
(** The physical memory manager: well-formedness of its state, and what each
    internal operation of Pmm.v does to it. *)
From S2P Require Import Prelude Bootinfo Pmm.
From Stdlib Require Import ZArith Lia.
Open Scope Z_scope.

(** ** The abstract view: which frames are in use *)

Definition frame_used (s : pmm) (f : Z) : bool :=
  match s.(frame_bitmap) with
  | Some bm => Z.testbit (default 0 (bm !! Z.to_nat (f / 8))) (f mod 8)
  | None => true
  end.
Definition frame_free (s : pmm) (f : Z) : bool := negb (frame_used s f).

(** The node ranges cover [a, b) without gap or overlap. *)
Fixpoint chain (nodes : list pmm_numa_node) (a b : Z) : Prop :=
  match nodes with
  | [] => a = b
  | n :: rest => n.(first_frame) = a /\ 0 <= n.(frame_count) /\ chain rest (a + n.(frame_count)) b
  end.

Definition active_nodes (s : pmm) : list pmm_numa_node :=
  take (Z.to_nat s.(active_numa_node_count)) s.(numa_nodes).

(** Layout: sizes and the partition of the frames into nodes. *)
Record pmm_layout (s : pmm) : Prop := {
  lay_total : 0 <= s.(total_frames) <= 2 ^ 20;
  lay_nodes : length s.(numa_nodes) = 8%nat;
  lay_active : 1 <= s.(active_numa_node_count) <= 8;
  lay_chain : chain (active_nodes s) 0 s.(total_frames)
}.

Definition bitmap_ok (s : pmm) : Prop :=
  exists bm, s.(frame_bitmap) = Some bm /\ s.(total_frames) <= 8 * Z.of_nat (length bm) /\
             Forall (fits 8) bm.

Definition node_counted (s : pmm) (n : pmm_numa_node) : Prop :=
  n.(node_free_frames) = count (frame_free s) n.(first_frame) (n.(first_frame) + n.(frame_count)).

(** The invariant: the counters say how many bits of the bitmap are clear. *)
Record pmm_wf (s : pmm) : Prop := {
  wf_layout : pmm_layout s;
  wf_bitmap : bitmap_ok s;
  wf_rr : 0 <= s.(round_robin_numa_node) < s.(active_numa_node_count);
  wf_nodes : Forall (node_counted s) (active_nodes s);
  wf_free : s.(free_frames) = count (frame_free s) 0 s.(total_frames)
}.

(** What no frame operation changes. *)
Record same_shape (s s' : pmm) : Prop := {
  sh_total : s'.(total_frames) = s.(total_frames);
  sh_kib : s'.(total_memory_kib) = s.(total_memory_kib);
  sh_bitmap_end : s'.(bitmap_end_phys) = s.(bitmap_end_phys);
  sh_init : s'.(initialized) = s.(initialized);
  sh_lock : s'.(pmm_state_lock) = s.(pmm_state_lock);
  sh_active : s'.(active_numa_node_count) = s.(active_numa_node_count);
  sh_eflags : s'.(eflags) = s.(eflags);
  sh_ranges : map (fun n => (n.(first_frame), n.(frame_count))) s'.(numa_nodes) =
              map (fun n => (n.(first_frame), n.(frame_count))) s.(numa_nodes)
}.

#[export] Instance same_shape_preorder : PreOrder same_shape.
Proof.
  split; [by intros s|]. intros s1 s2 s3 [] []. split; congruence.
Qed.

(** [f] went from free to used, or back, and nothing else changed. *)
Definition frame_set (s s' : pmm) (f : Z) (b : bool) : Prop :=
  forall g, 0 <= g < s.(total_frames) ->
    frame_used s' g = if g =? f then b else frame_used s g.

(** ** Bits *)

Lemma byte_fits_bits b : fits 8 b <-> 0 <= b /\ forall n, 8 <= n -> Z.testbit b n = false.
Proof.
  unfold fits. split.
  - intros [H0 H]. split; [done|]. intros n Hn. destruct (Z.eq_dec b 0) as [->|]; [apply Z.bits_0|].
    apply Z.bits_above_log2; [done|]. apply Z.log2_lt_pow2; [lia|].
    apply Z.lt_le_trans with (2 ^ 8); [done|]. apply Z.pow_le_mono_r; lia.
  - intros [H0 H]. split; [done|]. destruct (Z.eq_dec b 0) as [->|Hb]; [done|].
    apply Z.log2_lt_pow2; [lia|]. destruct (Z.lt_ge_cases (Z.log2 b) 8) as [|Hge]; [done|].
    specialize (H (Z.log2 b) Hge). rewrite Z.bit_log2 in H by lia. done.
Qed.

Lemma pow2_byte k : 0 <= k < 8 -> u8 (Z.shiftl 1 k) = 2 ^ k.
Proof.
  intros Hk. rewrite Z.shiftl_1_l. apply wrap_small. split; [lia|]. apply Z.pow_lt_mono_r; lia.
Qed.

(** The mask of [bitmap_clear]. *)
Lemma clear_mask_bits k n :
  0 <= k < 8 -> 0 <= n -> Z.testbit (u8 (Z.lnot (Z.shiftl 1 k))) n = (n <? 8) && negb (n =? k).
Proof.
  intros Hk Hn. unfold wrap. destruct (Z.ltb_spec n 8).
  - rewrite Z.mod_pow2_bits_low, Z.lnot_spec, Z.shiftl_1_l, Z.pow2_bits_eqb by lia. simpl. lia.
  - by rewrite Z.mod_pow2_bits_high by lia.
Qed.

Lemma set_bit_byte b k n :
  fits 8 b -> 0 <= k < 8 -> 0 <= n ->
  Z.testbit (Z.lor b (u8 (Z.shiftl 1 k))) n = (n =? k) || Z.testbit b n.
Proof.
  intros _ Hk Hn. rewrite pow2_byte, Z.lor_spec, Z.pow2_bits_eqb by lia.
  rewrite orb_comm. f_equal. lia.
Qed.

Lemma clear_bit_byte b k n :
  fits 8 b -> 0 <= k < 8 -> 0 <= n ->
  Z.testbit (Z.land b (u8 (Z.lnot (Z.shiftl 1 k)))) n = negb (n =? k) && Z.testbit b n.
Proof.
  intros Hb Hk Hn. rewrite Z.land_spec, clear_mask_bits by lia.
  destruct (Z.ltb_spec n 8); simpl; [by rewrite andb_comm|].
  apply byte_fits_bits in Hb as [_ Hb]. by rewrite (Hb n), !andb_false_r by lia.
Qed.

Lemma set_bit_fits b k : fits 8 b -> 0 <= k < 8 -> fits 8 (Z.lor b (u8 (Z.shiftl 1 k))).
Proof.
  intros Hb Hk. pose proof Hb as [H0 H]%byte_fits_bits. apply byte_fits_bits.
  rewrite pow2_byte by done. split; [apply Z.lor_nonneg; lia|]. intros n Hn.
  rewrite <- (pow2_byte k), set_bit_byte, H by (done || lia). lia.
Qed.

Lemma clear_bit_fits b k : fits 8 b -> 0 <= k < 8 -> fits 8 (Z.land b (u8 (Z.lnot (Z.shiftl 1 k)))).
Proof.
  intros Hb Hk. pose proof Hb as [H0 H]%byte_fits_bits. apply byte_fits_bits.
  split; [apply Z.land_nonneg; lia|]. intros n Hn.
  rewrite clear_bit_byte, H by (done || lia). by rewrite andb_false_r.
Qed.

(** ** The bitmap operations *)

Lemma bitmap_slot s bm f :
  s.(frame_bitmap) = Some bm -> s.(total_frames) <= 8 * Z.of_nat (length bm) ->
  0 <= f < s.(total_frames) -> exists b, bm !! Z.to_nat (f / 8) = Some b.
Proof.
  intros Hbm Hlen Hf. destruct (lookup_lt_is_Some_2 bm (Z.to_nat (f / 8))) as [b Hb]; eauto.
  assert (f / 8 < Z.of_nat (length bm)) by (apply Z.div_lt_upper_bound; lia).
  pose proof (Z.div_pos f 8). lia.
Qed.

Lemma bitmap_byte_run s bm i b :
  s.(frame_bitmap) = Some bm -> bm !! Z.to_nat i = Some b -> bitmap_byte i s = Done b s.
Proof. intros H1 H2. unfold bitmap_byte. run. rewrite H1. simpl. run. by rewrite H2. Qed.

Lemma bitmap_store_run s bm i b v :
  s.(frame_bitmap) = Some bm -> bm !! Z.to_nat i = Some b ->
  bitmap_store i v s = Done tt (set_frame_bitmap (Some (<[Z.to_nat i := v]> bm)) s).
Proof.
  intros H1 H2. unfold bitmap_store. run. rewrite H1. simpl. run. by rewrite H2.
Qed.

Lemma bitmap_test_run s f :
  bitmap_ok s -> 0 <= f < s.(total_frames) -> bitmap_test f s = Done (frame_used s f) s.
Proof.
  intros (bm & Hbm & Hlen & _) Hf. destruct (bitmap_slot s bm f) as [b Hb]; [done..|].
  unfold bitmap_test, frame_used. rewrite (run_bind_done _ _ _ _ _ (bitmap_byte_run _ _ _ _ Hbm Hb)).
  rewrite Hbm, Hb. run. f_equal. apply land_pow2_testbit. by apply Z.mod_pos_bound.
Qed.

(** Both updates write one byte [v] whose bits agree with the old byte except at
    [f]. *)
Lemma bitmap_write_spec s bm f b v x :
  s.(frame_bitmap) = Some bm -> s.(total_frames) <= 8 * Z.of_nat (length bm) ->
  Forall (fits 8) bm -> 0 <= f < s.(total_frames) ->
  bm !! Z.to_nat (f / 8) = Some b -> fits 8 v ->
  (forall n, 0 <= n -> Z.testbit v n = if n =? f mod 8 then x else Z.testbit b n) ->
  let s' := set_frame_bitmap (Some (<[Z.to_nat (f / 8) := v]> bm)) s in
  bitmap_ok s' /\ frame_set s s' f x.
Proof.
  intros Hbm Hlen Hall Hf Hb Hv Hbits. split.
  - exists (<[Z.to_nat (f / 8) := v]> bm). simpl. rewrite length_insert. split; [done|].
    split; [done|]. by apply Forall_insert.
  - intros g Hg. unfold frame_used. simpl. rewrite Hbm.
    destruct (Z.eq_dec (g / 8) (f / 8)) as [Ed|Ed].
    + rewrite Ed, list_lookup_insert_eq by (by eapply lookup_lt_Some). rewrite Hb. simpl.
      rewrite Hbits by (by apply Z.mod_pos_bound).
      assert ((g mod 8 =? f mod 8) = (g =? f)) as ->; [|done].
      pose proof (Z.div_mod g 8). pose proof (Z.div_mod f 8). lia.
    + rewrite list_lookup_insert_ne by (pose proof (Z.div_pos g 8); pose proof (Z.div_pos f 8); lia).
      destruct (Z.eqb_spec g f); [by subst|done].
Qed.

Lemma bitmap_set_spec s f :
  bitmap_ok s -> 0 <= f < s.(total_frames) ->
  exists bm', bitmap_set f s = Done tt (set_frame_bitmap (Some bm') s) /\
    bitmap_ok (set_frame_bitmap (Some bm') s) /\ frame_set s (set_frame_bitmap (Some bm') s) f true.
Proof.
  intros (bm & Hbm & Hlen & Hall) Hf. destruct (bitmap_slot s bm f) as [b Hb]; [done..|].
  assert (fits 8 b) as Hfb by (by eapply Forall_lookup_1).
  pose proof (Z.mod_pos_bound f 8 eq_refl) as Hk.
  eexists. unfold bitmap_set. rewrite (run_bind_done _ _ _ _ _ (bitmap_byte_run _ _ _ _ Hbm Hb)).
  rewrite (bitmap_store_run _ _ _ _ _ Hbm Hb). split; [done|].
  eapply bitmap_write_spec; eauto; [by apply set_bit_fits|].
  intros n Hn. rewrite set_bit_byte by (done || lia). by destruct (n =? f mod 8).
Qed.

Lemma bitmap_clear_spec s f :
  bitmap_ok s -> 0 <= f < s.(total_frames) ->
  exists bm', bitmap_clear f s = Done tt (set_frame_bitmap (Some bm') s) /\
    bitmap_ok (set_frame_bitmap (Some bm') s) /\ frame_set s (set_frame_bitmap (Some bm') s) f false.
Proof.
  intros (bm & Hbm & Hlen & Hall) Hf. destruct (bitmap_slot s bm f) as [b Hb]; [done..|].
  assert (fits 8 b) as Hfb by (by eapply Forall_lookup_1).
  pose proof (Z.mod_pos_bound f 8 eq_refl) as Hk.
  eexists. unfold bitmap_clear. rewrite (run_bind_done _ _ _ _ _ (bitmap_byte_run _ _ _ _ Hbm Hb)).
  rewrite (bitmap_store_run _ _ _ _ _ Hbm Hb). split; [done|].
  eapply bitmap_write_spec; eauto; [by apply clear_bit_fits|].
  intros n Hn. rewrite clear_bit_byte by (done || lia). by destruct (n =? f mod 8).
Qed.

(** ** Nodes *)

Lemma chain_le nodes a b : chain nodes a b -> a <= b.
Proof. revert a. induction nodes as [|n l IH]; intros a; simpl; [lia|]. intros (_ & ? & H%IH). lia. Qed.

Lemma chain_lookup nodes a b i n :
  chain nodes a b -> nodes !! i = Some n ->
  a <= n.(first_frame) /\ 0 <= n.(frame_count) /\ n.(first_frame) + n.(frame_count) <= b.
Proof.
  revert a i. induction nodes as [|m l IH]; intros a [|i]; simpl; try done.
  - intros (<- & ? & H%chain_le) [= <-]. lia.
  - intros (_ & ? & H) Hi. destruct (IH _ _ H Hi). lia.
Qed.

(** Two nodes that contain a common frame are the same node. *)
Lemma chain_disjoint nodes a b i j n m f :
  chain nodes a b -> nodes !! i = Some n -> nodes !! j = Some m ->
  n.(first_frame) <= f < n.(first_frame) + n.(frame_count) ->
  m.(first_frame) <= f < m.(first_frame) + m.(frame_count) -> i = j.
Proof.
  revert a i j. induction nodes as [|k l IH]; intros a [|i] [|j]; simpl; try done.
  - intros (<- & ? & H) [= <-] Hj Hf Hm. destruct (chain_lookup _ _ _ _ _ H Hj). lia.
  - intros (<- & ? & H) Hi [= <-] Hf Hm. destruct (chain_lookup _ _ _ _ _ H Hi). lia.
  - intros (_ & _ & H) Hi Hj Hf Hm. f_equal. by eapply IH.
Qed.

Lemma chain_covers nodes a b f :
  chain nodes a b -> a <= f < b ->
  exists i n, nodes !! i = Some n /\ n.(first_frame) <= f < n.(first_frame) + n.(frame_count).
Proof.
  revert a. induction nodes as [|k l IH]; intros a; simpl; [lia|].
  intros (<- & ? & H) Hf. destruct (Z.lt_ge_cases f (k.(first_frame) + k.(frame_count))).
  - exists 0%nat, k. split; [done|lia].
  - destruct (IH _ H) as (i & n & Hi & Hn); [lia|]. by exists (S i), n.
Qed.

Lemma chain_ranges nodes nodes' a b :
  map (fun n => (n.(first_frame), n.(frame_count))) nodes' =
  map (fun n => (n.(first_frame), n.(frame_count))) nodes ->
  chain nodes a b -> chain nodes' a b.
Proof.
  revert nodes' a. induction nodes as [|n l IH]; intros [|n' l'] a; simpl; try done.
  intros [= H1 H2 H3] (<- & H & Hc). rewrite H1, H2. split; [done|]. split; [done|]. by apply IH.
Qed.

Lemma active_lookup s i n :
  pmm_layout s -> active_nodes s !! i = Some n <->
  s.(numa_nodes) !! i = Some n /\ (Z.of_nat i < s.(active_numa_node_count)).
Proof.
  intros H. unfold active_nodes. pose proof (lay_active s H).
  rewrite lookup_take_Some. split; intros []; split; (done || lia).
Qed.

Lemma same_shape_active s s' :
  same_shape s s' ->
  map (fun n => (n.(first_frame), n.(frame_count))) (active_nodes s') =
  map (fun n => (n.(first_frame), n.(frame_count))) (active_nodes s).
Proof. intros H. unfold active_nodes. by rewrite (sh_active _ _ H), <- !firstn_map, (sh_ranges _ _ H). Qed.

Lemma node_at_run s i n : s.(numa_nodes) !! Z.to_nat i = Some n -> node_at i s = Done n s.
Proof. intros H. unfold node_at. run. by rewrite H. Qed.

Lemma node_update_run s i n f :
  s.(numa_nodes) !! Z.to_nat i = Some n ->
  node_update i f s = Done tt (set_numa_nodes (<[Z.to_nat i := f n]> s.(numa_nodes)) s).
Proof. intros H. unfold node_update. rewrite (run_bind_done _ _ _ _ _ (node_at_run _ _ _ H)). done. Qed.

Lemma active_node s i :
  pmm_layout s -> 0 <= i < s.(active_numa_node_count) ->
  exists n, s.(numa_nodes) !! Z.to_nat i = Some n /\ active_nodes s !! Z.to_nat i = Some n.
Proof.
  intros H Hi. pose proof (lay_active s H). pose proof (lay_nodes s H).
  destruct (lookup_lt_is_Some_2 s.(numa_nodes) (Z.to_nat i)) as [n Hn]; [lia|].
  exists n. split; [done|]. apply active_lookup; [done|]. split; [done|lia].
Qed.

(** The range of an active node lies inside the frames, far below 2^32. *)
Lemma active_node_range s i n :
  pmm_layout s -> active_nodes s !! i = Some n ->
  0 <= n.(first_frame) /\ 0 <= n.(frame_count) /\
  n.(first_frame) + n.(frame_count) <= s.(total_frames) /\
  u32 (n.(first_frame) + n.(frame_count)) = n.(first_frame) + n.(frame_count).
Proof.
  intros H Hn. pose proof (lay_total s H).
  destruct (chain_lookup _ _ _ _ _ (lay_chain s H) Hn) as (? & ? & ?).
  repeat split; try lia. apply wrap_small. change (2 ^ 20) with 1048576 in *. word_lia.
Qed.

Lemma contains_spec s i n f :
  pmm_layout s -> active_nodes s !! i = Some n ->
  pmm_node_contains_frame n f = true <->
  n.(first_frame) <= f < n.(first_frame) + n.(frame_count).
Proof.
  intros H Hn. destruct (active_node_range s i n H Hn) as (? & ? & ? & Hw).
  unfold pmm_node_contains_frame. rewrite Hw. destruct (Z.eqb_spec n.(frame_count) 0); [lia|].
  rewrite andb_true_iff, Z.leb_le, Z.ltb_lt. done.
Qed.

(** The search for the node of a frame finds the one node that contains it. *)
Lemma node_index_run s f :
  pmm_layout s -> 0 <= f < s.(total_frames) ->
  exists i n, pmm_node_index_for_frame f s = Done i s /\ 0 <= i < s.(active_numa_node_count) /\
    active_nodes s !! Z.to_nat i = Some n /\
    n.(first_frame) <= f < n.(first_frame) + n.(frame_count).
Proof.
  intros H Hf. pose proof (lay_active s H) as Ha.
  enough (wp (pmm_node_index_for_frame f) (fun i s' => s' = s /\
    0 <= i < s.(active_numa_node_count) /\ exists n, active_nodes s !! Z.to_nat i = Some n /\
    n.(first_frame) <= f < n.(first_frame) + n.(frame_count)) s) as W.
  { apply wp_Done in W as (i & s' & Hr & -> & Hi & n & Hn & Hr'). eauto 10. }
  unfold pmm_node_index_for_frame. wp_step. wp_step. wp_step.
  apply (wp_for _ _ _ (fun i s' => s' = s /\ forall j n, Z.of_nat j < i ->
    active_nodes s !! j = Some n -> pmm_node_contains_frame n f = false)); [lia| | |].
  - split; [done|]. intros; lia.
  - intros i s' Hi [-> Hno]. destruct (active_node s i H) as (n & Hn & Han); [lia|].
    wp_step. apply (Done_wp _ _ _ _ _ (node_at_run _ _ _ Hn)). apply wp_ret.
    destruct (pmm_node_contains_frame n f) eqn:E.
    + apply wp_ret. simpl. rewrite wrap_small by word_lia. split; [done|]. split; [lia|].
      exists n. split; [done|]. by eapply contains_spec.
    + split; [done|]. intros j m Hj Hm. destruct (Z.eq_dec (Z.of_nat j) i) as [<-|].
      * rewrite Nat2Z.id in Han. congruence.
      * eapply Hno; [|done]. lia.
  - intros s' [-> Hno]. exfalso.
    destruct (chain_covers _ _ _ f (lay_chain s H)) as (i & n & Hi & Hn); [lia|].
    assert (pmm_node_contains_frame n f = true) as E by (by eapply contains_spec).
    rewrite (Hno i n) in E; [done| |done]. apply active_lookup in Hi as [_ ?]; [lia|done].
Qed.

(** ** Changing one frame *)

(** Flipping the bit of [f], adjusting the global counter and the counter of the
    node of [f] by the same amount, keeps the invariant. *)
Lemma flip_wf s f i n b bm' d :
  pmm_wf s -> 0 <= f < s.(total_frames) -> frame_used s f = negb b ->
  active_nodes s !! Z.to_nat i = Some n -> 0 <= i ->
  n.(first_frame) <= f < n.(first_frame) + n.(frame_count) ->
  bitmap_ok (set_frame_bitmap (Some bm') s) -> frame_set s (set_frame_bitmap (Some bm') s) f b ->
  d = (if b then -1 else 1) ->
  let s' := set_numa_nodes
         (<[Z.to_nat i := set_node_free_frames (n.(node_free_frames) + d) n]> s.(numa_nodes))
         (set_free_frames (s.(free_frames) + d) (set_frame_bitmap (Some bm') s)) in
  pmm_wf s' /\ same_shape s s' /\ frame_set s s' f b.
Proof.
  intros [Hlay Hbm Hrr Hnodes Hfree] Hf Hu Hn Hi Hr Hbm' Hset Hd s'.
  pose proof (proj1 (active_lookup s _ _ Hlay) Hn) as [Hn' Ha].
  set (s1 := set_frame_bitmap (Some bm') s) in *.
  assert (Hused : forall g, frame_free s' g = frame_free s1 g) by done.
  assert (Hff : frame_free s f = b) by (unfold frame_free; by rewrite Hu, negb_involutive).
  assert (Hcount : forall lo hi, 0 <= lo -> hi <= s.(total_frames) ->
    count (frame_free s') lo hi = count (frame_free s) lo hi +
      (if (lo <=? f) && (f <? hi) then d else 0)).
  { intros lo hi Hlo Hhi. destruct ((lo <=? f) && (f <? hi)) eqn:E.
    - assert (forall g, lo <= g < hi -> frame_free s' g = if g =? f then negb b else frame_free s g) as Hg.
      { intros g Hg. rewrite Hused. unfold frame_free. rewrite Hset by lia. by destruct (g =? f). }
      rewrite (count_ext _ (fun g => if g =? f then negb b else frame_free s g)) by done.
      pose proof (count_flip (fun g => if g =? f then negb b else frame_free s g) (frame_free s) lo hi f) as Hc.
      cbv beta in Hc. rewrite Z.eqb_refl, Hff in Hc. rewrite Hd.
      z_bools. lapply Hc; [|lia]. clear Hc. intros Hc. lapply Hc; [destruct b; simpl; lia|].
      intros g Hgf. destruct (Z.eqb_spec g f); congruence.
    - rewrite Z.add_0_r. apply count_ext. intros g Hg. rewrite Hused. unfold frame_free.
      rewrite Hset by lia. destruct (Z.eqb_spec g f); [lia|done]. }
  assert (Hsh : same_shape s s').
  { split; try done. simpl. rewrite list_fmap_insert. simpl.
    apply list_insert_id. change (map ?g ?l) with (g <$> l). by rewrite list_lookup_fmap, Hn'. }
  split; [|done]. assert (Hchain : pmm_layout s').
  { destruct Hlay. split; try done; simpl; [by rewrite length_insert|].
    eapply chain_ranges; [by apply same_shape_active|done]. }
  split; [done| | |apply Forall_lookup_2|]; try done.
  - intros j m Hm. unfold node_counted.
    destruct (active_node_range s' j m Hchain Hm) as (? & ? & ? & _).
    unfold active_nodes in Hm. simpl in Hm. rewrite take_insert_lt in Hm by lia.
    rewrite Hcount by (simpl in *; lia).
    destruct (decide (Z.to_nat i = j)) as [<-|Hne].
    + rewrite list_lookup_insert_eq in Hm by (by eapply lookup_lt_Some). injection Hm as <-. simpl.
      eapply Forall_lookup_1 in Hnodes as ->; [|done].
      destruct (Z.leb_spec n.(first_frame) f); [|lia].
      destruct (Z.ltb_spec f (n.(first_frame) + n.(frame_count))); [done|lia].
    + rewrite list_lookup_insert_ne in Hm by done. fold (active_nodes s) in Hm.
      eapply Forall_lookup_1 in Hnodes as ->; [|done].
      destruct (_ && _) eqn:E; [|lia]. z_bools.
      destruct Hne. eapply (chain_disjoint _ _ _ _ _ _ _ f (lay_chain s Hlay)); eauto.
  - simpl total_frames. rewrite Hcount by lia. simpl. rewrite Hfree.
    destruct (Z.leb_spec 0 f); [|lia]. destruct (Z.ltb_spec f s.(total_frames)); [done|lia].
Qed.

(** The layout does not depend on the bitmap or the counters. *)
Lemma layout_bitmap s bm : pmm_layout s -> pmm_layout (set_frame_bitmap bm s).
Proof. by intros []. Qed.
Lemma layout_free s v : pmm_layout s -> pmm_layout (set_free_frames v s).
Proof. by intros []. Qed.
#[export] Hint Resolve layout_bitmap layout_free : core.

(** An active node that holds a free frame counts it. *)
Lemma node_free_pos s i n f :
  pmm_wf s -> active_nodes s !! i = Some n ->
  n.(first_frame) <= f < n.(first_frame) + n.(frame_count) -> frame_used s f = false ->
  0 < n.(node_free_frames).
Proof.
  intros W Hn Hf Hu. eapply Forall_lookup_1 in Hn as Hc; [|apply (wf_nodes s W)]. rewrite Hc.
  apply (count_pos _ _ _ f); [done|]. unfold frame_free. by rewrite Hu.
Qed.

Lemma reserve_spec s f :
  pmm_wf s -> 0 <= f ->
  wp (reserve_frame_locked f) (fun r s' =>
    if r then f < s.(total_frames) /\ frame_used s f = false /\
              pmm_wf s' /\ same_shape s s' /\ frame_set s s' f true /\
              s'.(round_robin_numa_node) = s.(round_robin_numa_node) /\
              s'.(global_next_scan_frame) = s.(global_next_scan_frame)
    else s' = s /\ (s.(total_frames) <= f \/ frame_used s f = true)) s.
Proof.
  intros W Hf. pose proof (wf_layout s W) as Hlay. unfold reserve_frame_locked.
  wp_step. wp_step. wp_step; [wp_step; split; [done|]; left; lia|]. z_bools.
  wp_step. apply (Done_wp _ _ _ _ _ (bitmap_test_run s f (wf_bitmap s W) (conj Hf E))).
  wp_step; [wp_step; split; [done|]; by right|].
  destruct (bitmap_set_spec s f (wf_bitmap s W)) as (bm' & Hrun & Hok & Hset); [lia|].
  wp_step. apply (Done_wp _ _ _ _ _ Hrun). wp_step. wp_step.
  assert (0 < s.(free_frames)) as Hpos.
  { rewrite (wf_free s W). apply (count_pos _ _ _ f); [lia|]. unfold frame_free. by rewrite E0. }
  simpl free_frames. replace (0 <? s.(free_frames)) with true by lia.
  destruct (node_index_run (set_free_frames (s.(free_frames) - 1) (set_frame_bitmap (Some bm') s)) f)
    as (i & n & Hidx & Hi & Hn & Hr); [by auto|simpl; lia|].
  wp_step. apply (Done_wp _ _ _ _ _ Hidx).
  change (active_nodes _) with (active_nodes s) in Hn. simpl in Hi.
  pose proof (lay_active s Hlay). pose proof (proj1 (active_lookup s _ _ Hlay) Hn) as [Hn' _].
  assert (0 < n.(node_free_frames)) as Hnpos by (by eapply (node_free_pos s)).
  wp_step. replace (negb (i =? PMM_NUMA_NODE_ANY)) with true by (unfold PMM_NUMA_NODE_ANY; lia).
  wp_step. eapply Done_wp; [by apply node_at_run|]. replace (0 <? _) with true by lia.
  eapply Done_wp; [by apply node_update_run|]. wp_step.
  destruct (flip_wf s f i n true bm' (-1) W) as (? & ? & ?); try (done || lia).
Qed.

Lemma release_spec s f :
  pmm_wf s -> 0 <= f ->
  wp (release_frame_locked f) (fun r s' =>
    if r then f < s.(total_frames) /\ frame_used s f = true /\
              pmm_wf s' /\ same_shape s s' /\ frame_set s s' f false /\
              s'.(round_robin_numa_node) = s.(round_robin_numa_node) /\
              s'.(global_next_scan_frame) = s.(global_next_scan_frame)
    else s' = s /\ (s.(total_frames) <= f \/ frame_used s f = false)) s.
Proof.
  intros W Hf. pose proof (wf_layout s W) as Hlay. unfold release_frame_locked.
  wp_step. wp_step. wp_step; [wp_step; split; [done|]; left; lia|]. z_bools.
  wp_step. apply (Done_wp _ _ _ _ _ (bitmap_test_run s f (wf_bitmap s W) (conj Hf E))).
  wp_step; [wp_step; split; [done|]; right; by z_bools|]. z_bools.
  destruct (bitmap_clear_spec s f (wf_bitmap s W)) as (bm' & Hrun & Hok & Hset); [lia|].
  wp_step. apply (Done_wp _ _ _ _ _ Hrun). wp_step. wp_step.
  pose proof (lay_total s Hlay) as Htot. change (2 ^ 20) with 1048576 in Htot.
  pose proof (count_range (frame_free s) 0 s.(total_frames)) as Hcr.
  assert (u32 (s.(free_frames) + 1) = s.(free_frames) + 1) as Hw.
  { apply wrap_small. rewrite (wf_free s W). word_lia. }
  simpl free_frames. rewrite Hw.
  destruct (node_index_run (set_free_frames (s.(free_frames) + 1) (set_frame_bitmap (Some bm') s)) f)
    as (i & n & Hidx & Hi & Hn & Hr); [by auto|simpl; lia|].
  wp_step. apply (Done_wp _ _ _ _ _ Hidx).
  change (active_nodes _) with (active_nodes s) in Hn. simpl in Hi.
  pose proof (lay_active s Hlay). pose proof (proj1 (active_lookup s _ _ Hlay) Hn) as [Hn' _].
  wp_step. replace (negb (i =? PMM_NUMA_NODE_ANY)) with true by (unfold PMM_NUMA_NODE_ANY; lia).
  eapply Done_wp; [by apply node_update_run|]. wp_step.
  assert (u32 (n.(node_free_frames) + 1) = n.(node_free_frames) + 1) as Hw2.
  { apply wrap_small. rewrite (Forall_lookup_1 _ _ _ _ (wf_nodes s W) Hn).
    destruct (active_node_range s _ _ Hlay Hn) as (? & ? & ? & _).
    pose proof (count_range (frame_free s) n.(first_frame) (n.(first_frame) + n.(frame_count))). word_lia. }
  rewrite Hw2. destruct (flip_wf s f i n false bm' 1 W) as (? & ? & ?); try (done || lia).
Qed.

(** Changing the scan cursors keeps the invariant. *)
Lemma next_scan_wf s i n v :
  pmm_wf s -> s.(numa_nodes) !! i = Some n ->
  let s' := set_numa_nodes (<[i := set_next_scan_frame v n]> s.(numa_nodes)) s in
  pmm_wf s' /\ same_shape s s'.
Proof.
  intros [Hlay Hbm Hrr Hnodes Hfree] Hn s'.
  assert (Hsh : same_shape s s').
  { split; try done. simpl. rewrite list_fmap_insert. simpl.
    apply list_insert_id. change (map ?g ?l) with (g <$> l). by rewrite list_lookup_fmap, Hn. }
  split; [|done]. split; try done.
  - destruct Hlay. split; try done; simpl; [by rewrite length_insert|].
    eapply chain_ranges; [by apply same_shape_active|done].
  - apply Forall_lookup_2. intros j m Hm. unfold active_nodes in Hm. simpl in Hm.
    rewrite lookup_take_Some in Hm. destruct Hm as [Hm Hj].
    assert (forall k, s.(numa_nodes) !! j = Some k -> node_counted s k) as Hk.
    { intros k Hk. eapply Forall_lookup_1; [done|]. unfold active_nodes.
      apply lookup_take_Some. by split. }
    destruct (decide (i = j)) as [<-|].
    + rewrite list_lookup_insert_eq in Hm by (by eapply lookup_lt_Some). injection Hm as <-.
      by apply Hk in Hn.
    + rewrite list_lookup_insert_ne in Hm by done. by apply Hk in Hm.
Qed.
