(* ===== verification/PmmAlloc.v ===== *)
(** The allocation paths of the physical memory manager: the per-node and global
    searches, and what they take from the bitmap. *)
From S2P Require Import Prelude Bootinfo Pmm PmmFacts.
From Stdlib Require Import ZArith Lia.
Open Scope Z_scope.

(** [s'] is [s] with the [n] free frames from [f] on put in use. *)
Record took (s s' : pmm) (f n : Z) : Prop := {
  took_range : 0 <= f /\ f + n <= s.(total_frames);
  took_free : forall g, f <= g < f + n -> frame_used s g = false;
  took_used : forall g, 0 <= g < s.(total_frames) ->
    frame_used s' g = (f <=? g) && (g <? f + n) || frame_used s g;
  took_wf : pmm_wf s';
  took_shape : same_shape s s'
}.

(** The frames of node [k]. *)
Definition node_range (s : pmm) (k f : Z) : Prop :=
  exists n, active_nodes s !! Z.to_nat k = Some n /\
    n.(first_frame) <= f < n.(first_frame) + n.(frame_count).

Definition node_full (s : pmm) (k : Z) : Prop :=
  forall f, node_range s k f -> frame_used s f = true.

(** A run of [n] free frames inside [lo, hi). *)
Definition free_run (s : pmm) (lo hi f n : Z) : Prop :=
  lo <= f /\ f + n <= hi /\ forall g, f <= g < f + n -> frame_used s g = false.

Lemma took_step s s1 s2 f n :
  0 <= f -> 0 <= n -> took s s1 f n -> took s1 s2 (f + n) 1 -> took s s2 f (n + 1).
Proof.
  intros Hf Hn T1 T2. pose proof (sh_total _ _ (took_shape _ _ _ _ T1)) as Ht.
  destruct (took_range _ _ _ _ T2) as [? Hr]. split.
  - lia.
  - intros g Hg. destruct (Z.lt_ge_cases g (f + n)); [apply (took_free _ _ _ _ T1); lia|].
    pose proof (took_free _ _ _ _ T2 g) as Hu. rewrite (took_used _ _ _ _ T1) in Hu by lia.
    destruct (frame_used s g); [|done]. rewrite orb_true_r in Hu. apply Hu. lia.
  - intros g Hg. rewrite (took_used _ _ _ _ T2), (took_used _ _ _ _ T1) by lia.
    destruct (frame_used s g); [by rewrite !orb_true_r|]. lia.
  - apply T2.
  - etransitivity; [apply T1|apply T2].
Qed.

Lemma took_none s f : pmm_wf s -> 0 <= f <= s.(total_frames) -> took s s f 0.
Proof.
  intros W Hf. split; [lia| |intros g Hg|done|done].
  - intros; lia.
  - replace ((f <=? g) && (g <? f + 0)) with false by lia. done.
Qed.

Lemma reserve_took s f :
  pmm_wf s -> 0 <= f ->
  wp (reserve_frame_locked f) (fun r s' =>
    if r then took s s' f 1 /\
              s'.(round_robin_numa_node) = s.(round_robin_numa_node) /\
              s'.(global_next_scan_frame) = s.(global_next_scan_frame)
    else s' = s /\ (s.(total_frames) <= f \/ frame_used s f = true)) s.
Proof.
  intros W Hf. eapply wp_mono; [by apply reserve_spec|]. intros [] s'; [|done].
  intros (Ht & Hu & W' & Hsh & Hset & ? & ?). split; [|done]. split; try done.
  - lia.
  - intros g Hg. by replace g with f by lia.
  - intros g Hg. rewrite Hset by done. destruct (Z.eqb_spec g f) as [->|].
    + rewrite Hu. lia.
    + replace ((f <=? g) && (g <? f + 1)) with false by lia. done.
Qed.

(** Moving a cursor after the frames were taken. *)
Lemma took_modify s s1 s2 f n :
  took s s1 f n -> pmm_wf s2 -> same_shape s1 s2 ->
  s2.(frame_bitmap) = s1.(frame_bitmap) -> took s s2 f n.
Proof.
  intros T W Hsh Hb. split; try apply T; [|done|].
  - intros g Hg. rewrite <- (took_used _ _ _ _ T) by done. unfold frame_used. by rewrite Hb.
  - etransitivity; [apply T|done].
Qed.

Lemma wp_next_scan s k n v (Q : unit -> pmm -> Prop) :
  pmm_wf s -> active_nodes s !! Z.to_nat k = Some n ->
  (forall s', pmm_wf s' -> same_shape s s' -> s'.(frame_bitmap) = s.(frame_bitmap) ->
     s'.(round_robin_numa_node) = s.(round_robin_numa_node) ->
     s'.(global_next_scan_frame) = s.(global_next_scan_frame) ->
     active_nodes s' !! Z.to_nat k = Some (set_next_scan_frame v n) -> Q tt s') ->
  wp (node_update k (set_next_scan_frame v)) Q s.
Proof.
  intros W Hn HQ. pose proof (proj1 (active_lookup s _ _ (wf_layout s W)) Hn) as [Hn' Hk].
  eapply Done_wp; [by apply node_update_run|].
  destruct (next_scan_wf s (Z.to_nat k) n v W Hn') as [W' Hsh].
  apply HQ; try done. apply active_lookup; [apply W'|]. split; [|done].
  simpl. apply list_lookup_insert_eq. by eapply lookup_lt_Some.
Qed.

Lemma same_shape_node s s' k n :
  same_shape s s' -> active_nodes s !! k = Some n ->
  exists n', active_nodes s' !! k = Some n' /\ n'.(first_frame) = n.(first_frame) /\
             n'.(frame_count) = n.(frame_count).
Proof.
  intros Hsh Hn. pose proof (same_shape_active _ _ Hsh) as E.
  apply (f_equal (fun l => l !! k)) in E. change (map ?g ?l) with (g <$> l) in E.
  rewrite !list_lookup_fmap, Hn in E. destruct (active_nodes s' !! k) as [n'|]; [|done].
  simpl in E. injection E as E1 E2. by exists n'.
Qed.

(** ** One frame from one node *)

Definition scan_post (s : pmm) (f : Z) (r : option Z) (s' : pmm) : Prop :=
  match r with
  | Some g => g = f /\ took s s' f 1 /\ s'.(round_robin_numa_node) = s.(round_robin_numa_node) /\
              s'.(global_next_scan_frame) = s.(global_next_scan_frame)
  | None => s' = s /\ frame_used s f = true
  end.

Lemma scan_frame_spec s k n start end_ f :
  pmm_wf s -> active_nodes s !! Z.to_nat k = Some n -> 0 <= f < s.(total_frames) ->
  wp (scan_frame k start end_ f) (scan_post s f) s.
Proof.
  intros W Hn Hf. unfold scan_frame.
  wp_step. apply (Done_wp _ _ _ _ _ (bitmap_test_run s f (wf_bitmap s W) Hf)).
  wp_step; [by wp_step|]. wp_step. eapply wp_mono; [apply reserve_took; [done|lia]|].
  intros [] s1; simpl; [|intros [-> [?|?]]; [lia|congruence]].
  intros (T & Hrr & Hg). wp_step.
  destruct (same_shape_node _ _ _ _ (took_shape _ _ _ _ T) Hn) as (n1 & Hn1 & _).
  eapply wp_next_scan; [apply T|done|]. intros s2 W2 Hsh2 Hb2 ? ? _.
  wp_step. split; [done|]. split; [by eapply took_modify|]. split; congruence.
Qed.

(** The scan of a sub-range leaves the state alone until it hits a free frame. *)
Lemma scan_loop_spec s k n start end_ lo hi :
  pmm_wf s -> active_nodes s !! Z.to_nat k = Some n -> 0 <= lo -> hi <= s.(total_frames) ->
  wp (for_range lo hi (scan_frame k start end_)) (fun r s' =>
    match r with
    | Some f => lo <= f < hi /\ (forall g, lo <= g < f -> frame_used s g = true) /\
                scan_post s f (Some f) s'
    | None => s' = s /\ forall g, lo <= g < hi -> frame_used s g = true
    end) s.
Proof.
  intros W Hn Hlo Hhi. destruct (Z.le_ge_cases lo hi).
  2: { apply wp_for_empty; [done|]. split; [done|]. intros; lia. }
  apply (wp_for _ _ _ (fun i s' => s' = s /\ forall g, lo <= g < i -> frame_used s g = true));
    [done| |intros i s' Hi [-> Hno]|by intros s' []].
  - split; [done|]. intros; lia.
  - eapply wp_mono; [eapply scan_frame_spec; [done|done|lia]|]. intros [f|] s'.
    + intros H'. pose proof H' as [-> _]. split; [lia|]. by split.
    + intros [-> Hu]. split; [done|]. intros g Hg. destruct (Z.eq_dec g i); [by subst|].
      apply Hno. lia.
Qed.

(** The frames [f .. f + n) lie in node [k]. *)
Definition run_in_node (s : pmm) (k f n : Z) : Prop :=
  exists m, active_nodes s !! Z.to_nat k = Some m /\
    m.(first_frame) <= f /\ f + n <= m.(first_frame) + m.(frame_count).

(** What the round-robin loop relies on from a per-node search: it takes [n]
    frames of node [k], or leaves the state alone because [Fail] holds of [k]. *)
Definition find_post (Fail : pmm -> Z -> Prop) (n k : Z) (s : pmm) (r : option Z) (s' : pmm) : Prop :=
  match r with
  | Some f => k < s.(active_numa_node_count) /\ run_in_node s k f n /\ took s s' f n /\
              s'.(round_robin_numa_node) = s.(round_robin_numa_node) /\
              s'.(global_next_scan_frame) = s.(global_next_scan_frame)
  | None => s' = s /\ (k < s.(active_numa_node_count) -> Fail s k)
  end.

Definition find_ok (find : Z -> M pmm (option Z)) (Fail : pmm -> Z -> Prop) (n : Z) : Prop :=
  forall s k, pmm_wf s -> 0 <= k -> wp (find k) (find_post Fail n k s) s.

(** The effective cursor of a node lies in the node. *)
Lemma node_cursor s k n :
  pmm_layout s -> active_nodes s !! k = Some n -> 0 < n.(frame_count) ->
  let cursor := if negb (pmm_node_contains_frame n n.(next_scan_frame))
                then n.(first_frame) else n.(next_scan_frame) in
  n.(first_frame) <= cursor < n.(first_frame) + n.(frame_count).
Proof.
  intros H Hn Hc. simpl. destruct (pmm_node_contains_frame _ _) eqn:E; simpl; [|lia].
  by eapply contains_spec in E.
Qed.

Lemma find_free_frame_ok : find_ok pmm_find_free_frame_in_node_locked node_full 1.
Proof.
  intros s k W Hk. pose proof (wf_layout s W) as Hlay. unfold pmm_find_free_frame_in_node_locked.
  wp_step. wp_step. wp_step; [wp_step; split; [done|]; lia|]. z_bools.
  destruct (active_node s k Hlay) as (n & Hn & Han); [lia|].
  wp_step. apply (Done_wp _ _ _ _ _ (node_at_run _ _ _ Hn)).
  destruct (active_node_range s _ _ Hlay Han) as (? & ? & ? & Hw).
  pose proof (Forall_lookup_1 _ _ _ _ (wf_nodes s W) Han) as Hcnt. red in Hcnt.
  wp_step.
  { wp_step. split; [done|]. intros _ f (m & Hm & Hf). rewrite Han in Hm. injection Hm as <-.
    apply orb_true_iff in E0 as [E0|E0]; z_bools; [lia|].
    rewrite Hcnt in E0. apply (count_zero _ _ _ E0) in Hf. by apply negb_false_iff in Hf. }
  z_bools. rewrite Hw. pose proof (node_cursor s _ n Hlay Han) as Hcur. cbv zeta in Hcur.
  set (cursor := if negb _ then _ else _) in *. lapply Hcur; [clear Hcur; intros Hcur|lia].
  wp_step. eapply wp_mono; [eapply scan_loop_spec; [done|done|lia|lia]|]. intros [f|] s1; simpl.
  { intros (Hf & _ & _ & T & ? & ?). wp_step. split; [done|]. split; [exists n; split; [done|lia]|done]. }
  intros [-> Hno]. eapply wp_mono; [eapply scan_loop_spec; [done|done|lia|lia]|]. intros [f|] s1; simpl.
  { intros (Hf & _ & _ & T & ? & ?). split; [done|]. split; [exists n; split; [done|lia]|done]. }
  intros [-> Hno2]. split; [done|]. intros _ f (m & Hm & Hf). rewrite Han in Hm. injection Hm as <-.
  destruct (Z.lt_ge_cases f cursor); [apply Hno2|apply Hno]; lia.
Qed.

(** ** Runs of frames *)

(** First fit: the linear search returns the lowest free run of its range. *)
Lemma linear_spec s start end_ n :
  pmm_wf s -> 0 <= start -> end_ <= s.(total_frames) -> 0 < n ->
  wp (pmm_find_contiguous_free_linear_locked start end_ n) (fun r s' => s' = s /\
    match r with
    | Some f => free_run s start end_ f n /\ forall g, free_run s start end_ g n -> f <= g
    | None => forall g, ~ free_run s start end_ g n
    end) s.
Proof.
  intros W Hs He Hn. unfold pmm_find_contiguous_free_linear_locked.
  pose proof (lay_total s (wf_layout s W)) as Htot. change (2 ^ 20) with 1048576 in Htot.
  wp_step; [wp_step; split; [done|]; intros g (? & ? & _); lia|]. z_bools.
  wp_step; [wp_step; split; [done|]; intros g (? & ? & _); lia|]. z_bools.
  wp_step. apply (wp_for_acc _ _ _ _ (fun i a s' => s' = s /\ 0 <= a.2 < n /\
    (0 < a.2 -> a.1 = i - a.2 /\ start <= a.1) /\
    (forall g, i - a.2 <= g < i -> frame_used s g = false) /\
    forall g, start <= g -> (forall h, g <= h < Z.min (g + n) i -> frame_used s h = false) ->
              i - a.2 <= g)); [lia| | |].
  - simpl. split; [done|]. split; [lia|]. split; [lia|]. split; [intros; lia|].
    intros g Hg _. lia.
  - intros i [rs rl] s' Hi (-> & Hrl & Hrs & Hfree & Hleast). simpl in *.
    wp_step. apply (Done_wp _ _ _ _ _ (bitmap_test_run s i (wf_bitmap s W) ltac:(lia))).
    wp_step.
    + wp_step. split; [done|]. simpl. split; [lia|]. split; [lia|]. split; [intros; lia|].
      intros g Hg Hall. destruct (Z.lt_ge_cases g (i + 1)); [|lia]. exfalso.
      assert (i - rl <= g) by (apply Hleast; [done|]; intros h Hh; apply Hall; lia).
      assert (frame_used s i = false) by (apply Hall; lia). congruence.
    + assert (forall g, i - rl <= g < i + 1 -> frame_used s g = false) as Hfree'.
      { intros g Hg. destruct (Z.eq_dec g i); [by subst|apply Hfree; lia]. }
      rewrite (wrap_small 32 (rl + 1)) by word_lia. wp_step.
      * z_bools. wp_step. wp_step. split; [done|].
        assert ((if rl =? 0 then i else rs) = i - rl) as -> by (destruct (Z.eqb_spec rl 0); lia).
        split; [split; [|split; [lia|]]|].
        -- destruct (Z.eq_dec rl 0); lia.
        -- intros g Hg. apply Hfree'. lia.
        -- intros g (Hg & _ & Hall). apply Hleast; [done|]. intros h Hh. apply Hall. lia.
      * z_bools. wp_step. simpl. split; [done|]. split; [lia|]. split.
        { intros _. destruct (Z.eqb_spec rl 0); lia. }
        split; [intros g Hg; apply Hfree'; lia|].
        intros g Hg Hall. assert (i - rl <= g); [|lia]. apply Hleast; [done|].
        intros h Hh. apply Hall. lia.
  - intros [rs rl] s' (-> & Hrl & _ & _ & Hleast). simpl in *. wp_step. split; [done|].
    intros g (Hg & Hge & Hall). assert (end_ - rl <= g); [|lia].
    apply Hleast; [done|]. intros h Hh. apply Hall. lia.
Qed.

(** The wrapped search tries [search_start, end_) and then [start,
    search_start): it sees every run that does not straddle its start. *)
Lemma wrapped_spec s start end_ n c :
  pmm_wf s -> 0 <= start -> end_ <= s.(total_frames) -> 0 < n ->
  let c' := if (c <? start) || (end_ <=? c) then start else c in
  wp (pmm_find_contiguous_free_wrapped_locked start end_ n c) (fun r s' => s' = s /\
    match r with
    | Some f => free_run s start end_ f n
    | None => forall g, ~ free_run s c' end_ g n /\ ~ free_run s start c' g n
    end) s.
Proof.
  intros W Hs He Hn c'. unfold pmm_find_contiguous_free_wrapped_locked. fold c'.
  assert (Hno : forall a b g, end_ - start < n -> start <= a -> b <= end_ -> ~ free_run s a b g n)
    by (intros a b g ? ? ? (? & ? & _); lia).
  wp_step.
  { wp_step. split; [done|]. intros g. subst c'. destruct ((c <? start) || (end_ <=? c)) eqn:?;
      z_bools; split; intros (? & ? & _); lia. }
  z_bools. assert (start <= c' <= end_) as Hc' by (subst c'; destruct (_ || _) eqn:?; lia).
  wp_step; [wp_step; split; [done|]; intros g; split; apply Hno; lia|].
  wp_step. eapply wp_mono; [apply linear_spec; (done || lia)|]. intros [f|] s1 [-> H1]; simpl.
  { wp_step. split; [done|]. destruct H1 as [(? & ? & ?) _]. split; [lia|]. by split; [lia|]. }
  wp_step.
  { wp_step. split; [done|]. intros g. split; [done|]. intros (? & ? & _). lia. }
  eapply wp_mono; [apply linear_spec; (done || lia)|]. intros [f|] s1 [-> H2]; simpl; split; try done.
  destruct H2 as [(? & ? & ?) _]. split; [lia|]. by split; [lia|].
Qed.

Lemma reserve_contiguous_spec s f n :
  pmm_wf s -> 0 < n -> free_run s 0 s.(total_frames) f n ->
  wp (pmm_reserve_contiguous_locked f n) (fun r s' => r = true /\ took s s' f n /\
    s'.(round_robin_numa_node) = s.(round_robin_numa_node) /\
    s'.(global_next_scan_frame) = s.(global_next_scan_frame)) s.
Proof.
  intros W Hn (Hf & Hfn & Hfree). unfold pmm_reserve_contiguous_locked.
  pose proof (lay_total s (wf_layout s W)) as Htot. change (2 ^ 20) with 1048576 in Htot.
  wp_step. apply (wp_for _ _ _ (fun i s' => took s s' f i /\
    s'.(round_robin_numa_node) = s.(round_robin_numa_node) /\
    s'.(global_next_scan_frame) = s.(global_next_scan_frame))); [lia| | |].
  - split; [apply took_none; [done|lia]|done].
  - intros i s' Hi (T & Hrr & Hg). rewrite (wrap_small 32 (f + i)) by word_lia.
    pose proof (sh_total _ _ (took_shape _ _ _ _ T)) as Ht.
    wp_step. eapply wp_mono; [apply reserve_took; [apply T|lia]|]. intros [] s1; simpl.
    + intros (T1 & ? & ?). wp_step. split; [|split; congruence]. eapply took_step; [lia|lia|done|done].
    + intros [-> Hbad]. exfalso. rewrite (took_used _ _ _ _ T) in Hbad by lia.
      rewrite Hfree in Hbad by lia. lia.
  - intros s' H. by wp_step.
Qed.

(** No run of [n] free frames on either side of the cursor of node [k]. *)
Definition node_no_run (n : Z) (s : pmm) (k : Z) : Prop :=
  forall m, active_nodes s !! Z.to_nat k = Some m ->
  let c := if negb (pmm_node_contains_frame m m.(next_scan_frame))
           then m.(first_frame) else m.(next_scan_frame) in
  forall g, ~ free_run s c (m.(first_frame) + m.(frame_count)) g n /\
            ~ free_run s m.(first_frame) c g n.

(** Fewer free frames than [n] leave no room for a run of [n]. *)
Lemma free_run_count s lo hi f n :
  0 <= lo -> free_run s lo hi f n -> n <= count (frame_free s) lo hi.
Proof.
  intros Hlo (? & ? & Hall). destruct (Z.le_ge_cases n 0).
  { destruct (Z.le_ge_cases lo hi); [pose proof (count_range (frame_free s) lo hi); lia|].
    rewrite count_empty by lia. lia. }
  rewrite (count_split _ lo f hi), (count_split _ f (f + n) hi) by lia.
  rewrite (count_ext _ (fun _ => true) f (f + n)).
  2: { intros i Hi. unfold frame_free. by rewrite Hall. }
  pose proof (count_range (frame_free s) lo f). pose proof (count_range (frame_free s) (f + n) hi).
  assert (forall k : nat, forall a, count_from (fun _ => true) a k = Z.of_nat k) as Hk.
  { induction k; intros a; simpl; [done|]. rewrite IHk. lia. }
  unfold count at 2. rewrite Hk. lia.
Qed.

Lemma free_run_sub s lo hi lo' hi' f n :
  lo' <= lo -> hi <= hi' -> free_run s lo hi f n -> free_run s lo' hi' f n.
Proof. intros ? ? (? & ? & ?). split; [lia|]. by split; [lia|]. Qed.

Lemma find_contiguous_ok n :
  0 < n -> find_ok (fun k => pmm_find_contiguous_in_node_locked k n) (node_no_run n) n.
Proof.
  intros Hn s k W Hk. pose proof (wf_layout s W) as Hlay. unfold pmm_find_contiguous_in_node_locked.
  wp_step. wp_step. wp_step; [wp_step; split; [done|]; lia|]. z_bools.
  destruct (active_node s k Hlay) as (m & Hm & Ham); [lia|].
  wp_step. apply (Done_wp _ _ _ _ _ (node_at_run _ _ _ Hm)).
  destruct (active_node_range s _ _ Hlay Ham) as (? & ? & ? & Hw).
  pose proof (Forall_lookup_1 _ _ _ _ (wf_nodes s W) Ham) as Hcnt. red in Hcnt.
  pose proof (node_cursor s _ m Hlay Ham) as Hcur. cbv zeta in Hcur.
  wp_step.
  { wp_step. split; [done|]. intros _ m' Hm'. rewrite Ham in Hm'. injection Hm' as <-.
    intros c g. assert (forall a b, m.(first_frame) <= a -> b <= m.(first_frame) + m.(frame_count) ->
      ~ free_run s a b g n) as Hno.
    { intros a b ? ? Hr. apply (free_run_sub _ _ _ m.(first_frame) (m.(first_frame) + m.(frame_count))) in Hr;
        [|lia..]. pose proof Hr as (? & ? & _). apply free_run_count in Hr; [|lia].
      rewrite <- Hcnt in Hr. lia. }
    assert (m.(first_frame) <= c <= m.(first_frame) + m.(frame_count)).
    { subst c. destruct (Z.eq_dec m.(frame_count) 0) as [E1|]; [|lia].
      unfold pmm_node_contains_frame. rewrite E1. simpl. lia. }
    split; apply Hno; lia. }
  z_bools. rewrite Hw. set (cursor := if negb _ then _ else _) in *.
  lapply Hcur; [clear Hcur; intros Hcur|lia].
  wp_step. eapply wp_mono; [apply wrapped_spec; (done || lia)|].
  replace (if (cursor <? _) || _ then _ else cursor) with cursor by
    (destruct ((cursor <? m.(first_frame)) || (m.(first_frame) + m.(frame_count) <=? cursor)) eqn:?; lia).
  intros [f|] s1 [-> Hr]; simpl.
  2: { wp_step. split; [done|]. intros _ m' Hm'. rewrite Ham in Hm'. by injection Hm' as <-. }
  wp_step. eapply wp_mono; [apply reserve_contiguous_spec; [done|done|]|].
  { by eapply free_run_sub; [| |exact Hr]; lia. }
  intros r s1 (-> & T & Hrr & Hg). simpl.
  destruct (same_shape_node _ _ _ _ (took_shape _ _ _ _ T) Ham) as (m1 & Hm1 & _).
  wp_step. eapply wp_next_scan; [apply T|done|]. intros s2 W2 Hsh2 Hb2 ? ? Hm2. wp_step.
  assert (T2 : took s s2 f n) by (by eapply took_modify).
  pose proof (proj1 (active_lookup s2 _ _ (wf_layout s2 W2)) Hm2) as [Hm2' _].
  assert (Hrun : run_in_node s k f n) by (exists m; split; [done|]; destruct Hr as (? & ? & _); lia).
  eapply Done_wp; [by apply node_update_run|]. simpl.
  destruct (_ <=? u32 _).
  - destruct (next_scan_wf s2 _ _ m.(first_frame) W2 Hm2') as [W3 Hsh3]. wp_step. split; [done|].
    split; [done|]. split; [by eapply took_modify|]. simpl. split; congruence.
  - wp_step. split; [done|]. split; [done|].
    rewrite list_insert_id by done.
    assert (set_numa_nodes (numa_nodes s2) s2 = s2) as -> by (by destruct s2). split; [done|].
    split; congruence.
Qed.

(** ** The round-robin loop over the nodes *)

Lemma set_rr_wf s v :
  pmm_wf s -> 0 <= v < s.(active_numa_node_count) -> pmm_wf (set_round_robin_numa_node v s).
Proof. intros [[] ? ? ? ?] Hv. by split. Qed.

Lemma set_rr_took s s' f n v :
  took s s' f n -> 0 <= v < s.(active_numa_node_count) ->
  took s (set_round_robin_numa_node v s') f n.
Proof.
  intros T Hv. eapply took_modify; [done|apply set_rr_wf; [apply T|]|done|done].
  by rewrite (sh_active _ _ (took_shape _ _ _ _ T)).
Qed.

Definition preferred_usable (s : pmm) (p : Z) : bool :=
  negb (p =? PMM_NUMA_NODE_ANY) && (p <? s.(active_numa_node_count)).

Lemma search_nodes_spec find Fail n p s :
  find_ok find Fail n -> pmm_wf s -> 0 <= p ->
  wp (search_nodes p find) (fun r s' =>
    match r with
    | FoundPreferred f => preferred_usable s p = true /\ run_in_node s p f n /\ took s s' f n
    | FoundNode f => (preferred_usable s p = true -> Fail s p) /\
                     (exists k, 0 <= k < s.(active_numa_node_count) /\ run_in_node s k f n) /\
                     took s s' f n
    | NotFound => s' = s /\ forall k, 0 <= k < s.(active_numa_node_count) -> Fail s k
    end) s.
Proof.
  intros Hfind W Hp. pose proof (lay_active s (wf_layout s W)) as Ha. pose proof (wf_rr s W) as Hrr.
  unfold search_nodes. wp_step. wp_step. fold (preferred_usable s p).
  set (a := s.(active_numa_node_count)) in *.
  wp_step. apply wp_mono with (Q := fun r s' => match r with
    | Some f => preferred_usable s p = true /\ find_post Fail n p s (Some f) s'
    | None => s' = s /\ (preferred_usable s p = true -> Fail s p) end).
  { destruct (preferred_usable s p) eqn:E; [|by apply wp_ret].
    eapply wp_mono; [by apply Hfind|]. intros [f|] s' H; [done|]. destruct H as [-> H].
    split; [done|]. intros _. apply H. unfold preferred_usable in E. fold a in E. lia. }
  intros [f|] s1.
  { intros [E (Hlt & Hr & T & ? & ?)]. wp_step. wp_step. wp_step. split; [done|]. split; [done|].
    apply set_rr_took; [done|]. apply Z.mod_pos_bound. lia. }
  intros [-> Hfailp]. wp_step. wp_step.
  rewrite (Z.mod_small s.(round_robin_numa_node)) by lia. set (rr := s.(round_robin_numa_node)) in *.
  wp_step. apply (wp_for _ _ _ (fun i s' => s' = s /\ forall j, 0 <= j < i -> Fail s ((rr + j) mod a)));
    [lia| | |].
  - split; [done|]. intros; lia.
  - intros i s' Hi [-> Hno]. pose proof (Z.mod_pos_bound (rr + i) a) as Hm.
    rewrite (wrap_small 8) by word_lia.
    assert (Hnext : Fail s ((rr + i) mod a) -> forall j, 0 <= j < i + 1 -> Fail s ((rr + j) mod a)).
    { intros Hf j Hj. destruct (Z.eq_dec j i) as [->|]; [done|]. apply Hno. lia. }
    destruct (preferred_usable s p && ((rr + i) mod a =? p)) eqn:E.
    + z_bools. wp_step. split; [done|]. apply Hnext. subst p. auto.
    + wp_step. eapply wp_mono; [apply Hfind; [done|lia]|]. intros [f|] s1.
      * intros (_ & Hr & T & _). wp_step. wp_step. wp_step. wp_step. split; [done|]. split; [exists ((rr + i) mod a); split; [lia|done]|].
        apply set_rr_took; [done|]. apply Z.mod_pos_bound. lia.
      * intros [-> Hf]. wp_step. split; [done|]. apply Hnext, Hf. fold a. lia.
  - intros s' [-> Hno]. wp_step. split; [done|]. intros k Hk.
    replace k with ((rr + (k - rr) mod a) mod a).
    2: { rewrite Zplus_mod_idemp_r. replace (rr + (k - rr)) with k by lia. apply Z.mod_small. lia. }
    apply Hno. apply Z.mod_pos_bound. lia.
Qed.
