(* ===== verification/PmmSpec.v ===== *)
(** The physical memory manager as its callers see it: every public operation
    of pmm.c, run from an idle state (lock clear), against the set of frames in
    use. *)
From S2P Require Import Prelude Bootinfo Pmm PmmFacts PmmAlloc.
From Stdlib Require Import ZArith Lia.
Open Scope Z_scope.

(** ** The lock *)

(** Nobody holds the lock. *)
Record idle (s : pmm) : Prop := {
  idle_lock : s.(pmm_state_lock) = 0;
  idle_eflags : fits 32 s.(eflags)
}.
Record pmm_ready (s : pmm) : Prop := {
  ready_wf : pmm_wf s;
  ready_idle : idle s
}.

Definition locked (s : pmm) : pmm := set_pmm_state_lock 1 (set_eflags (cli s.(eflags)) s).
Definition unlocked (s s' : pmm) : pmm := set_eflags s.(eflags) (set_pmm_state_lock 0 s').

Lemma wf_locked s : pmm_wf s -> pmm_wf (locked s).
Proof. intros [[] ? ? ? ?]. by split. Qed.

Lemma unlocked_shape s s' : idle s -> same_shape (locked s) s' -> same_shape s (unlocked s s').
Proof. intros [Hl He] []. by split. Qed.

Lemma unlocked_ready s s' :
  idle s -> pmm_wf s' -> pmm_ready (unlocked s s').
Proof. intros [Hl He] [[] ? ? ? ?]. by split. Qed.

Lemma unlocked_same s : idle s -> unlocked s (locked s) = s.
Proof. intros [Hl _]. destruct s. simpl in *. by subst. Qed.

Lemma unlocked_took s s' f n : idle s -> took (locked s) s' f n -> took s (unlocked s s') f n.
Proof.
  intros Hi [? ? ? W Hsh]. split; try done; [by apply (unlocked_ready s)|by apply unlocked_shape].
Qed.

(** A public operation is its body run with the lock held and interrupts off;
    on return the lock is free and EFLAGS are what they were. *)
Lemma wp_locked {A} (body : M pmm A) (Q : A -> pmm -> Prop) s :
  idle s ->
  wp body (fun r s' => s'.(eflags) = cli s.(eflags) /\ Q r (unlocked s s')) (locked s) ->
  wp (with_pmm_lock body) Q s.
Proof.
  intros [Hl He] H. unfold with_pmm_lock, pmm_lock_irqsave, pmm_irq_save, pmm_atomic_try_lock_u32.
  wp_steps; [|by rewrite Hl in E]. fold (locked s).
  eapply wp_mono; [exact H|]. intros r s' [He' HQ].
  unfold pmm_unlock_irqrestore, pmm_irq_restore. wp_step. wp_step. wp_step.
  pose proof (eflags_restored _ He) as Hr.
  destruct (interrupts_on s.(eflags)); wp_steps; simpl; rewrite ?He', ?Hr.
  - exact HQ.
  - unfold unlocked in HQ. rewrite <- Hr, <- He' in HQ. by destruct s'.
Qed.

(** The usual case: the body keeps the shape. *)
Lemma wp_locked_shape {A} (body : M pmm A) (Q : A -> pmm -> Prop) s :
  pmm_ready s ->
  wp body (fun r s' => same_shape (locked s) s' /\ Q r (unlocked s s')) (locked s) ->
  wp (with_pmm_lock body) Q s.
Proof.
  intros [W Hi] H. apply wp_locked; [done|]. eapply wp_mono; [exact H|].
  intros r s' [Hsh HQ]. split; [apply Hsh|done].
Qed.

(** Eight frames in one node, all free. *)
Definition small_pmm : pmm :=
  mk_pmm (Some [0]) 8 8 32 0x2000 true 0 (mk_node 0 8 8 0 :: replicate 7 (mk_node 0 0 0 0)) 1 0 0 0x202.

Lemma small_ready : pmm_ready small_pmm.
Proof.
  split; [|split; [done|by vm_compute]].
  split; [split; [by vm_compute|done|simpl; lia|by vm_compute]| |simpl; lia| |by vm_compute].
  - exists [0]. split; [done|]. split; [simpl; lia|]. constructor; [by vm_compute|done].
  - by repeat constructor.
Qed.

(** ** Allocation *)

Definition usable_preferred_full (s : pmm) (p : Z) : Prop :=
  preferred_usable s p = true -> node_full s p.

Lemma frame_addr s s' f n :
  pmm_wf s -> 0 < n -> took s s' f n -> u32 (f * PAGE_SIZE) = f * PAGE_SIZE.
Proof.
  intros W Hn T. destruct (took_range _ _ _ _ T). pose proof (lay_total s (wf_layout s W)).
  change (2 ^ 20) with 1048576 in *. apply wrap_small. unfold PAGE_SIZE. word_lia.
Qed.

Lemma all_nodes_full s :
  pmm_wf s -> (forall k, 0 <= k < s.(active_numa_node_count) -> node_full s k) ->
  forall f, 0 <= f < s.(total_frames) -> frame_used s f = true.
Proof.
  intros W Hall f Hf. pose proof (wf_layout s W) as Hlay.
  destruct (chain_covers _ _ _ f (lay_chain s Hlay)) as (i & n & Hi & Hn); [lia|].
  apply (Hall (Z.of_nat i)); [apply active_lookup in Hi as []; [lia|done]|].
  exists n. by rewrite Nat2Z.id.
Qed.

Lemma alloc_frame_on_node_spec s p :
  pmm_ready s -> s.(initialized) = true -> 0 <= p ->
  wp (pmm_alloc_frame_on_node p true) (fun r s' => pmm_ready s' /\
    match r with
    | Some addr => exists f, addr = f * PAGE_SIZE /\ took s s' f 1 /\
        (preferred_usable s p = true -> node_range s p f \/ node_full s p)
    | None => s' = s /\ forall f, 0 <= f < s.(total_frames) -> frame_used s f = true
    end) s.
Proof.
  intros [W Hi] Hinit Hp. pose proof (lay_active s (wf_layout s W)).
  unfold pmm_alloc_frame_on_node. simpl negb. cbv iota.
  apply wp_locked_shape; [done|]. wp_step. wp_step. simpl. rewrite Hinit. simpl.
  wp_step.
  { wp_step. split; [done|]. rewrite unlocked_same by done. split; [done|]. split; [done|].
    intros f Hf. apply orb_true_iff in E as [E|E]; z_bools; [lia|].
    rewrite (wf_free s W) in E. by apply (count_zero _ _ _ E), negb_false_iff in Hf. }
  wp_step. eapply wp_mono; [apply (search_nodes_spec _ node_full 1 p _ find_free_frame_ok (wf_locked s W) Hp)|].
  intros r s' Hr. wp_step.
  assert (forall f, took (locked s) s' f 1 -> u32 (f * PAGE_SIZE) = f * PAGE_SIZE) as Haddr
    by (intros f T; apply (frame_addr (locked s) s' f 1); [by apply wf_locked|lia|done]).
  destruct r as [f|f|].
  - destruct Hr as (Hu & (n & Hn & Hr) & T). split; [apply T|].
    split; [by apply unlocked_ready, T|].
    exists f. split; [by apply Haddr|]. split; [by apply unlocked_took|].
    intros _. left. exists n. split; [done|lia].
  - destruct Hr as (Hu & _ & T). split; [apply T|]. split; [by apply unlocked_ready, T|].
    exists f. split; [by apply Haddr|]. split; [by apply unlocked_took|]. intros Hu'. right. by apply Hu.
  - destruct Hr as [-> Hfull]. split; [done|]. rewrite unlocked_same by done.
    split; [done|]. split; [done|]. by apply all_nodes_full.
Qed.

(** C1: [pmm_alloc_frame_on_node] always returns.  On success the frame was
    free, is in use afterwards, no other frame changed, and it belongs to the
    preferred node unless that node is full.  It fails only when no frame at
    all is free, and then leaves the state as it was, lock and EFLAGS
    included. *)
Theorem alloc_frame_on_node_correct s p :
  pmm_ready s -> s.(initialized) = true -> 0 <= p ->
  wp (pmm_alloc_frame_on_node p true) (fun r s' => pmm_ready s' /\
    match r with
    | Some addr => exists f, addr = f * PAGE_SIZE /\ took s s' f 1 /\
        (preferred_usable s p = true -> node_range s p f \/ node_full s p)
    | None => s' = s /\ forall f, 0 <= f < s.(total_frames) -> frame_used s f = true
    end) s.
Proof. apply alloc_frame_on_node_spec. Qed.

Lemma alloc_frame_on_node_correct_witness :
  wp (pmm_alloc_frame_on_node 0 true) (fun r s' => pmm_ready s' /\
    match r with
    | Some addr => exists f, addr = f * PAGE_SIZE /\ took small_pmm s' f 1 /\
        (preferred_usable small_pmm 0 = true -> node_range small_pmm 0 f \/ node_full small_pmm 0)
    | None => s' = small_pmm /\
        forall f, 0 <= f < small_pmm.(total_frames) -> frame_used small_pmm f = true
    end) small_pmm.
Proof. apply (alloc_frame_on_node_correct small_pmm 0 small_ready); [reflexivity|lia]. Defined.

(** The cursor bookkeeping after a run was found leaves the frames alone. *)
Lemma finish_run_spec s s' f n :
  pmm_wf s -> 0 < n -> took s s' f n ->
  wp (finish_run f n) (fun _ s2 => took s s2 f n) s'.
Proof.
  intros W Hn T. pose proof (took_wf _ _ _ _ T) as W'. pose proof (took_shape _ _ _ _ T) as Hsh.
  destruct (took_range _ _ _ _ T) as [Hf Hfn].
  assert (Hg : forall v, took s (set_global_next_scan_frame v s') f n).
  { intros v. eapply took_modify; [done| |done|done]. destruct W' as [[] ? ? ? ?]. by split. }
  unfold finish_run. wp_step. wp_step. wp_step. wp_step. wp_step.
  assert (exists v, (if total_frames s' <=? u32 (f + n)
    then set_global_next_scan_frame (u32 (f + n) mod total_frames s') (set_global_next_scan_frame (u32 (f + n)) s')
    else set_global_next_scan_frame (u32 (f + n)) s') = set_global_next_scan_frame v s') as [v Hv].
  { destruct (_ <=? _); eexists; done. }
  simpl. rewrite Hv.
  destruct (node_index_run (set_global_next_scan_frame v s') f) as (i & m & Hrun & Hi & _);
    [apply (wf_layout _ (took_wf _ _ _ _ (Hg v)))|simpl; rewrite (sh_total _ _ Hsh); lia|].
  eapply Done_wp; [exact Hrun|]. wp_step. simpl in *. rewrite (sh_active _ _ Hsh) in *.
  destruct (_ && _); [|done]. apply set_rr_took; [done|]. apply Z.mod_pos_bound. lia.
Qed.

Lemma alloc_frames_on_node_spec s n p :
  pmm_ready s -> s.(initialized) = true -> 0 <= p -> 0 < n ->
  wp (pmm_alloc_frames_on_node n p true) (fun r s' => pmm_ready s' /\
    match r with
    | Some addr => exists f, addr = f * PAGE_SIZE /\ took s s' f n /\
        (preferred_usable s p = true -> run_in_node s p f n \/ node_no_run n s p)
    | None => s' = s /\
        let c := s.(global_next_scan_frame) in
        forall g, ~ free_run s (Z.max 0 c) s.(total_frames) g n /\
                  ~ free_run s 0 (Z.min c s.(total_frames)) g n
    end) s.
Proof.
  intros [W Hi] Hinit Hp Hn. pose proof (lay_active s (wf_layout s W)) as Ha.
  unfold pmm_alloc_frames_on_node. replace ((n =? 0) || negb true) with false by lia. cbv iota.
  apply wp_locked_shape; [done|]. wp_step. wp_step. simpl. rewrite Hinit. simpl.
  pose proof (wf_locked s W) as W'.
  assert (forall s' f, took (locked s) s' f n -> u32 (f * PAGE_SIZE) = f * PAGE_SIZE) as Haddr
    by (intros s' f T; apply (frame_addr (locked s) s' f n W' Hn T)).
  assert (forall s' f, took (locked s) s' f n ->
    (preferred_usable s p = true -> run_in_node s p f n \/ node_no_run n s p) ->
    same_shape (locked s) s' /\ pmm_ready (unlocked s s') /\
    exists f0, u32 (f * PAGE_SIZE) = f0 * PAGE_SIZE /\ took s (unlocked s s') f0 n /\
      (preferred_usable s p = true -> run_in_node s p f0 n \/ node_no_run n s p)) as Hok.
  { intros s' f T Hpref. split; [apply T|]. split; [by apply unlocked_ready, T|].
    exists f. split; [by eapply Haddr|]. split; [by apply unlocked_took|done]. }
  wp_step.
  { wp_step. split; [done|]. rewrite unlocked_same by done. split; [done|]. split; [done|].
    cbv zeta. intros g.
    enough (~ free_run s 0 s.(total_frames) g n) as Hno
      by (split; intros Hr; apply Hno; (eapply free_run_sub; [| |exact Hr]; lia)).
    intros Hr. apply free_run_count in Hr; [|done]. rewrite <- (wf_free s W) in Hr. lia. }
  wp_step. eapply wp_mono; [apply (search_nodes_spec _ _ n p _ (find_contiguous_ok n Hn) W' Hp)|].
  intros r s' Hr. destruct r as [f|f|].
  - destruct Hr as (Hu & Hr & T). wp_step. apply Hok; [done|]. by left.
  - destruct Hr as (Hu & _ & T). wp_step. eapply wp_mono; [by apply (finish_run_spec (locked s))|].
    intros ? s2 T2. wp_step. apply Hok; [done|]. intros Hu'. right. by apply Hu.
  - destruct Hr as [-> Hno]. wp_step. wp_step. wp_step. wp_step. simpl. wp_step.
    eapply wp_mono; [apply wrapped_spec; (done || lia)|]. simpl.
    intros [f|] s1 [-> Hg]; simpl.
    + wp_step. eapply wp_mono; [apply reserve_contiguous_spec; done|].
      intros r s1 (-> & T & _). simpl. wp_step.
      eapply wp_mono; [by apply (finish_run_spec (locked s))|].
      intros ? s2 T2. wp_step. apply Hok; [done|]. intros Hu'. right. apply Hno.
      unfold preferred_usable in Hu'. simpl. lia.
    + wp_step. split; [done|]. rewrite unlocked_same by done. split; [done|]. split; [done|].
      cbv zeta in *. intros g. set (c := s.(global_next_scan_frame)) in *. specialize (Hg g). destruct Hg as [H1 H2].
      change (free_run (locked s)) with (free_run s) in *.
      destruct ((c <? 0) || (s.(total_frames) <=? c)) eqn:Ec.
      * split; intros Hr; apply H1; (eapply free_run_sub; [| |exact Hr]; lia).
      * z_bools. replace (Z.max 0 c) with c by lia. replace (Z.min c _) with c by lia. done.
Qed.

(** C12: [pmm_alloc_frames_on_node] always returns.  On success the [n]
    consecutive frames were all free, are in use afterwards and nothing else
    changed; a usable preferred node with a run on either side of its cursor is
    honoured.  On failure nothing changed and no run of [n] free frames lies
    entirely on one side of the global cursor. *)
Theorem alloc_frames_on_node_correct s n p :
  pmm_ready s -> s.(initialized) = true -> 0 <= p -> 0 < n ->
  wp (pmm_alloc_frames_on_node n p true) (fun r s' => pmm_ready s' /\
    match r with
    | Some addr => exists f, addr = f * PAGE_SIZE /\ took s s' f n /\
        (preferred_usable s p = true -> run_in_node s p f n \/ node_no_run n s p)
    | None => s' = s /\
        let c := s.(global_next_scan_frame) in
        forall g, ~ free_run s (Z.max 0 c) s.(total_frames) g n /\
                  ~ free_run s 0 (Z.min c s.(total_frames)) g n
    end) s.
Proof. apply alloc_frames_on_node_spec. Qed.

Lemma alloc_frames_on_node_correct_witness :
  wp (pmm_alloc_frames_on_node 3 PMM_NUMA_NODE_ANY true) (fun r s' => pmm_ready s' /\
    match r with
    | Some addr => exists f, addr = f * PAGE_SIZE /\ took small_pmm s' f 3 /\
        (preferred_usable small_pmm PMM_NUMA_NODE_ANY = true ->
         run_in_node small_pmm PMM_NUMA_NODE_ANY f 3 \/ node_no_run 3 small_pmm PMM_NUMA_NODE_ANY)
    | None => s' = small_pmm /\
        let c := small_pmm.(global_next_scan_frame) in
        forall g, ~ free_run small_pmm (Z.max 0 c) small_pmm.(total_frames) g 3 /\
                  ~ free_run small_pmm 0 (Z.min c small_pmm.(total_frames)) g 3
    end) small_pmm.
Proof.
  apply (alloc_frames_on_node_correct small_pmm 3 PMM_NUMA_NODE_ANY small_ready);
    [reflexivity|unfold PMM_NUMA_NODE_ANY; lia|lia].
Defined.

(** The wrapped search misses a run that straddles its cursor.  Starting
    with eight free frames: after allocating four frames and freeing the last
    of them, frames 3 to 7 are free, yet an allocation of five frames fails. *)
Theorem straddling_run_missed :
  wp (a <- pmm_alloc_frames 4 true ;;
      pmm_free_frame 0x3000 ;;;
      s <- gets id ;;
      b <- pmm_alloc_frames 5 true ;;
      ret (a, s, b))
     (fun '(a, s, b) _ => a = Some 0 /\ s.(free_frames) = 5 /\
        free_run s 0 s.(total_frames) 3 5 /\ b = None) small_pmm.
Proof.
  eapply Done_wp; [vm_compute; reflexivity|]. cbv beta iota. split; [done|]. split; [done|]. split; [|done].
  split; [done|]. split; [done|]. intros g [H1 H2].
  assert (g = 3 \/ g = 4 \/ g = 5 \/ g = 6 \/ g = 7) as Hg by lia.
  destruct Hg as [->|[->|[->|[->| ->]]]]; done.
Qed.

(** ** Release and reservation of given frames *)

(** [s'] is [s] with the frames of [P] in use ([b = true]) or free. *)
Record changed (b : bool) (s s' : pmm) (P : Z -> bool) : Prop := {
  ch_frames : forall g, 0 <= g < s.(total_frames) ->
    frame_used s' g = if P g then b else frame_used s g;
  ch_wf : pmm_wf s';
  ch_shape : same_shape s s'
}.

Lemma changed_none b s P :
  pmm_wf s -> (forall g, 0 <= g < s.(total_frames) -> P g = false) -> changed b s s P.
Proof. intros W H. split; [|done|done]. intros g Hg. by rewrite H. Qed.

Lemma changed_step b s s1 s2 P Q :
  changed b s s1 P -> changed b s1 s2 Q -> changed b s s2 (fun g => P g || Q g).
Proof.
  intros [H1 ? Hsh1] [H2 ? Hsh2]. pose proof (sh_total _ _ Hsh1). split; [|done|by etransitivity].
  intros g Hg. rewrite H2, H1 by lia. by destruct (P g), (Q g).
Qed.

Lemma changed_ext b s s' P Q :
  (forall g, 0 <= g < s.(total_frames) -> P g = Q g) -> changed b s s' P -> changed b s s' Q.
Proof. intros HPQ [H ? ?]. split; [|done|done]. intros g Hg. rewrite <- HPQ by done. auto. Qed.

Lemma unlocked_changed b s s' P : idle s -> changed b (locked s) s' P -> changed b s (unlocked s s') P.
Proof.
  intros Hi [? ? ?]. split; [done|by apply unlocked_ready|by apply unlocked_shape].
Qed.

(** An operation on one frame that makes it used, or free. *)
Definition changes_frame {A} (b : bool) (op : Z -> M pmm A) : Prop :=
  forall s f, pmm_wf s -> 0 <= f -> wp (op f) (fun _ s' => changed b s s' (fun g => g =? f)) s.

Lemma release_changes : changes_frame false release_frame_locked.
Proof.
  intros s f W Hf. eapply wp_mono; [by apply release_spec|]. intros [] s'.
  - intros (? & ? & W' & Hsh & Hset & _). split; [|done|done]. apply Hset.
  - intros [-> [Hout|Hu]]; split; try done.
    + intros g Hg. replace (g =? f) with false by lia. done.
    + intros g Hg. destruct (Z.eqb_spec g f); [by subst|done].
Qed.

Lemma reserve_changes : changes_frame true reserve_frame_locked.
Proof.
  intros s f W Hf. eapply wp_mono; [by apply reserve_spec|]. intros [] s'.
  - intros (? & ? & W' & Hsh & Hset & _). split; [|done|done]. apply Hset.
  - intros [-> [Hout|Hu]]; split; try done.
    + intros g Hg. replace (g =? f) with false by lia. done.
    + intros g Hg. destruct (Z.eqb_spec g f); [by subst|done].
Qed.

(** The loops of [pmm_mark_available_range], [pmm_reserve_range] and
    [pmm_free_frames]: the frames [base + i] for [i] in [lo, hi). *)
Lemma change_loop {A} b (op : Z -> M pmm A) s base lo hi (fr : Z -> Z) :
  changes_frame b op -> pmm_wf s -> 0 <= base + lo ->
  (forall i, lo <= i < hi -> fr i = base + i) ->
  wp (for_each lo hi (fun i => op (fr i) ;;; ret tt)) (fun _ s' =>
    changed b s s' (fun g => (base + lo <=? g) && (g <? base + hi))) s.
Proof.
  intros Hop W Hlo Hhi. destruct (Z.le_ge_cases lo hi) as [Hle|Hle].
  2: { apply wp_for_each_empty; [done|]. apply changed_none; [done|]. intros; lia. }
  apply (wp_for_each _ _ _ (fun j s' => changed b s s' (fun g => (base + lo <=? g) && (g <? base + j))));
    [done| | |done].
  - apply changed_none; [done|]. intros; lia.
  - intros i s1 Hi R. wp_step. rewrite Hhi by done.
    eapply wp_mono; [apply Hop; [apply R|lia]|].
    intros ? s2 R2. wp_step. eapply changed_ext; [|eapply changed_step; [exact R|exact R2]].
    intros g Hg. cbv beta. lia.
Qed.

Lemma locked_change {A} b (body : M pmm A) s P :
  pmm_ready s -> (forall s, pmm_wf s -> wp body (fun _ s' => changed b s s' (P s)) s) ->
  P (locked s) = P s ->
  wp (with_pmm_lock body) (fun _ s' => pmm_ready s' /\ changed b s s' (P s)) s.
Proof.
  intros R H HP. pose proof R as [W Hi]. apply wp_locked_shape; [done|].
  eapply wp_mono; [by apply H, wf_locked|]. intros r s' C. rewrite HP in C.
  split; [apply C|]. split; [by apply unlocked_ready, C|by apply unlocked_changed].
Qed.

Lemma free_frame_spec s addr :
  pmm_ready s -> 0 <= addr ->
  wp (pmm_free_frame addr) (fun _ s' => pmm_ready s' /\
    changed false s s' (fun g => g =? addr / PAGE_SIZE) /\
    (s.(total_frames) <= addr / PAGE_SIZE \/ frame_used s (addr / PAGE_SIZE) = false -> s' = s)) s.
Proof.
  intros [W Hi] Ha. pose proof (wf_locked s W) as W'. assert (0 <= addr / PAGE_SIZE) as Hf by (by apply Z.div_pos).
  unfold pmm_free_frame. apply wp_locked_shape; [done|]. wp_step.
  pose proof (release_changes _ _ W' Hf) as H1. pose proof (release_spec _ _ W' Hf) as H2.
  apply wp_Done in H1 as (b & s' & Hrun & HR). unfold wp in H2. rewrite Hrun in H2.
  eapply Done_wp; [exact Hrun|]. wp_step. split; [apply HR|].
  split; [by apply unlocked_ready, HR|]. split; [by apply unlocked_changed|].
  intros Hc. destruct b; [|destruct H2 as [-> _]; by apply unlocked_same].
  destruct H2 as (H2a & H2b & _). change (frame_used (locked s)) with (frame_used s) in *.
  simpl in *. destruct Hc; [lia|congruence].
Qed.

(** [pmm_free_frame] frees the frame that holds the address and nothing
    else; freeing a free frame (a double free) or an address beyond the managed
    memory changes nothing at all. *)
Theorem free_frame_correct s addr :
  pmm_ready s -> 0 <= addr ->
  wp (pmm_free_frame addr) (fun _ s' => pmm_ready s' /\
    changed false s s' (fun g => g =? addr / PAGE_SIZE) /\
    (s.(total_frames) <= addr / PAGE_SIZE \/ frame_used s (addr / PAGE_SIZE) = false -> s' = s)) s.
Proof. apply free_frame_spec. Qed.

Lemma free_frame_correct_witness :
  wp (pmm_free_frame 0x3000) (fun _ s' => pmm_ready s' /\
    changed false small_pmm s' (fun g => g =? 0x3000 / PAGE_SIZE) /\
    (small_pmm.(total_frames) <= 0x3000 / PAGE_SIZE \/ frame_used small_pmm (0x3000 / PAGE_SIZE) = false ->
     s' = small_pmm)) small_pmm.
Proof. apply (free_frame_correct small_pmm 0x3000 small_ready). lia. Defined.

Lemma free_frames_spec s addr n :
  pmm_ready s -> 0 <= addr -> addr / PAGE_SIZE + n <= 2 ^ 32 ->
  wp (pmm_free_frames addr n) (fun _ s' => pmm_ready s' /\
    changed false s s' (fun g => (addr / PAGE_SIZE <=? g) && (g <? addr / PAGE_SIZE + n))) s.
Proof.
  intros R Ha Hn. unfold pmm_free_frames.
  apply (locked_change false _ s (fun _ g => (addr / PAGE_SIZE <=? g) && (g <? addr / PAGE_SIZE + n)));
    [done| |done].
  intros s1 W1. eapply wp_mono; [apply (change_loop false _ _ (addr / PAGE_SIZE) _ _ _ release_changes W1)|].
  - rewrite Z.add_0_r. by apply Z.div_pos.
  - intros i Hi. apply wrap_small. pose proof (Z.div_pos addr PAGE_SIZE Ha eq_refl). word_lia.
  - intros ? s' C. eapply changed_ext; [|exact C]. intros g Hg. cbv beta. by rewrite Z.add_0_r.
Qed.

Lemma pmm_ext_counters s s' :
  pmm_wf s -> pmm_wf s' -> same_shape s s' ->
  (forall g, 0 <= g < s.(total_frames) -> frame_used s' g = frame_used s g) ->
  s'.(free_frames) = s.(free_frames).
Proof.
  intros W W' Hsh Hu. rewrite (wf_free s W), (wf_free s' W'), (sh_total _ _ Hsh).
  apply count_ext. intros g Hg. unfold frame_free. by rewrite Hu.
Qed.

(** Freeing what [pmm_alloc_frames_on_node] returned undoes the allocation:
    the same frames are in use as before, and the free count is what it was. *)
Theorem alloc_free_roundtrip s n p :
  pmm_ready s -> s.(initialized) = true -> 0 <= p -> 0 < n ->
  wp (addr <- pmm_alloc_frames_on_node n p true ;;
      match addr with Some a => pmm_free_frames a n | None => ret tt end)
     (fun _ s' => pmm_ready s' /\ s'.(free_frames) = s.(free_frames) /\
        forall g, 0 <= g < s.(total_frames) -> frame_used s' g = frame_used s g) s.
Proof.
  intros R Hinit Hp Hn. wp_step. eapply wp_mono; [by apply alloc_frames_on_node_spec|].
  intros [addr|] s1 [R1 H].
  2: { destruct H as [-> _]. by wp_step. }
  destruct H as (f & -> & T & _). destruct (took_range _ _ _ _ T) as [Hf Hfn].
  pose proof (took_shape _ _ _ _ T) as Hsh. pose proof (sh_total _ _ Hsh) as Htot.
  pose proof (lay_total s (wf_layout s (ready_wf s R))) as Hlt. change (2 ^ 20) with 1048576 in Hlt.
  assert (f * PAGE_SIZE / PAGE_SIZE = f) as Hdiv by (by apply Z.div_mul).
  eapply wp_mono; [apply free_frames_spec; [done|unfold PAGE_SIZE; lia|rewrite Hdiv, pow32; lia]|].
  rewrite Hdiv. intros ? s2 [R2 C]. split; [done|].
  assert (forall g, 0 <= g < s.(total_frames) -> frame_used s2 g = frame_used s g) as Hu.
  { intros g Hg. rewrite (ch_frames _ _ _ _ C), (took_used _ _ _ _ T) by lia.
    destruct ((f <=? g) && (g <? f + n)) eqn:E; [|done]. symmetry. apply (took_free _ _ _ _ T). lia. }
  split; [|done]. eapply pmm_ext_counters; [apply R|apply R2| |done].
  etransitivity; [done|apply C].
Qed.

Lemma alloc_free_roundtrip_witness :
  wp (addr <- pmm_alloc_frames_on_node 3 0 true ;;
      match addr with Some a => pmm_free_frames a 3 | None => ret tt end)
     (fun _ s' => pmm_ready s' /\ s'.(free_frames) = small_pmm.(free_frames) /\
        forall g, 0 <= g < small_pmm.(total_frames) -> frame_used s' g = frame_used small_pmm g) small_pmm.
Proof. apply (alloc_free_roundtrip small_pmm 3 0 small_ready); [reflexivity|lia|lia]. Defined.

(** Rounding up to a page. *)
Lemma align_up_u64_page x :
  0 <= x -> x + PAGE_SIZE <= 2 ^ 64 -> align_up_u64 x PAGE_SIZE / PAGE_SIZE = (x + PAGE_SIZE - 1) / PAGE_SIZE.
Proof.
  intros Hx Hb. unfold align_up_u64. rewrite (wrap_small 64 (x + PAGE_SIZE - 1)) by (unfold PAGE_SIZE in *; word_lia).
  change (PAGE_SIZE - 1) with (2 ^ 12 - 1). rewrite land_mask by (unfold PAGE_SIZE in *; word_lia).
  by apply Z.div_mul.
Qed.

Lemma align_up_u32_page x :
  0 <= x -> x + PAGE_SIZE <= 2 ^ 32 ->
  align_up_u32 x PAGE_SIZE = (x + PAGE_SIZE - 1) / PAGE_SIZE * PAGE_SIZE.
Proof.
  intros Hx Hb. unfold align_up_u32. rewrite (wrap_small 32 (x + PAGE_SIZE - 1)) by (unfold PAGE_SIZE in *; word_lia).
  change (PAGE_SIZE - 1) with (2 ^ 12 - 1). rewrite land_mask by (unfold PAGE_SIZE in *; word_lia). done.
Qed.

(** The frames that overlap [base, base + len), and the frames that end in it. *)
Definition overlaps (base len g : Z) : bool :=
  (g * PAGE_SIZE <? base + len) && (base <? (g + 1) * PAGE_SIZE).
Definition ends_in (base len g : Z) : bool :=
  ((g + 1) * PAGE_SIZE <=? base + len) && (base <? (g + 1) * PAGE_SIZE).

Lemma reserve_range_spec s base len :
  pmm_ready s -> fits 32 base -> fits 32 len ->
  wp (pmm_reserve_range base len) (fun _ s' => pmm_ready s' /\ changed true s s' (overlaps base len)) s.
Proof.
  intros R Hb Hl. unfold pmm_reserve_range.
  apply (locked_change true _ s (fun _ => overlaps base len)); [done| |done].
  intros s1 W1. wp_step. wp_step.
  assert (0 <= base / PAGE_SIZE) as Hd by (apply Z.div_pos; [apply Hb|done]).
  rewrite align_up_u64_page by (unfold PAGE_SIZE; word_lia).
  rewrite wrap_small.
  2: { split; [apply Z.div_pos; [unfold PAGE_SIZE; word_lia|done]|].
       apply Z.div_lt_upper_bound; [done|]. unfold PAGE_SIZE; word_lia. }
  eapply wp_mono; [apply (change_loop true _ _ 0 _ _ (fun i => i) reserve_changes W1); [lia|intros; lia]|].
  intros ? s' C. eapply changed_ext; [|exact C]. intros g Hg. cbv beta. unfold overlaps, PAGE_SIZE in *.
  pose proof (Z.div_mod base 4096 ltac:(lia)). pose proof (Z.mod_pos_bound base 4096 ltac:(lia)).
  pose proof (Z.div_mod (base + len + 4096 - 1) 4096 ltac:(lia)).
  pose proof (Z.mod_pos_bound (base + len + 4096 - 1) 4096 ltac:(lia)). lia.
Qed.

Lemma mark_available_range_spec s base len :
  pmm_ready s -> fits 32 base -> fits 32 len ->
  wp (pmm_mark_available_range base len) (fun _ s' => pmm_ready s' /\ changed false s s' (ends_in base len)) s.
Proof.
  intros R Hb Hl. unfold pmm_mark_available_range.
  apply (locked_change false _ s (fun _ => ends_in base len)); [done| |done].
  intros s1 W1. wp_step. wp_step.
  assert (0 <= base / PAGE_SIZE) as Hd by (apply Z.div_pos; [apply Hb|done]).
  rewrite wrap_small.
  2: { split; [apply Z.div_pos; [unfold PAGE_SIZE; word_lia|done]|].
       apply Z.div_lt_upper_bound; [done|]. unfold PAGE_SIZE; word_lia. }
  eapply wp_mono; [apply (change_loop false _ _ 0 _ _ (fun i => i) release_changes W1); [lia|intros; lia]|].
  intros ? s' C. eapply changed_ext; [|exact C]. intros g Hg. cbv beta. unfold ends_in, PAGE_SIZE in *.
  pose proof (Z.div_mod base 4096 ltac:(lia)). pose proof (Z.mod_pos_bound base 4096 ltac:(lia)).
  pose proof (Z.div_mod (base + len) 4096 ltac:(lia)).
  pose proof (Z.mod_pos_bound (base + len) 4096 ltac:(lia)). lia.
Qed.
