(* ===== verification/PmmInit.v ===== *)
(** NUMA layout and initialisation of the physical memory manager: the layout
    and recount routines establish the invariant, whatever the state before. *)
From S2P Require Import Prelude Bootinfo Pmm PmmFacts PmmAlloc PmmSpec.
From Stdlib Require Import ZArith Lia.
Open Scope Z_scope.

Lemma chain_app l1 l2 a b : chain (l1 ++ l2) a b <-> exists m, chain l1 a m /\ chain l2 m b.
Proof.
  revert a. induction l1 as [|n l IH]; intros a; simpl.
  - split; [intros H; by exists a|]. by intros (m & -> & H).
  - rewrite IH. naive_solver.
Qed.

Lemma chain_unique l a b c : chain l a b -> chain l a c -> b = c.
Proof.
  revert a. induction l as [|x l IH]; simpl; intros a; [congruence|].
  intros (_ & _ & H1) (_ & _ & H2). eauto.
Qed.

Lemma chain_one n a b : chain [n] a b <-> n.(first_frame) = a /\ 0 <= n.(frame_count) /\ b = a + n.(frame_count).
Proof. simpl. naive_solver lia. Qed.

(** Writing slot [i] extends the prefix of a table. *)
Lemma take_insert_snoc {A} (l : list A) i x :
  (i < length l)%nat -> take (S i) (<[i := x]> l) = take i l ++ [x].
Proof.
  intros H. rewrite (take_S_r _ _ x) by (by apply list_lookup_insert_eq).
  by rewrite take_insert_ge by lia.
Qed.

(** ** The layout *)

(** Splitting [total] frames over [nc] nodes: where node [i] starts. *)
Definition split_start (total nc i : Z) : Z := i * (total / nc) + Z.min i (total mod nc).

Definition clamp_nodes (node_count : Z) : Z :=
  Z.min PMM_MAX_NUMA_NODES (if node_count =? 0 then 1 else node_count).

Lemma split_start_end total nc : 0 < nc -> split_start total nc nc = total.
Proof.
  intros H. unfold split_start. pose proof (Z.mod_pos_bound total nc H).
  pose proof (Z.div_mod total nc). lia.
Qed.

Lemma set_numa_nodes_id s : set_numa_nodes s.(numa_nodes) s = s.
Proof. by destruct s. Qed.

Lemma reset_layout_spec s node_count :
  0 <= s.(total_frames) <= 2 ^ 20 -> length s.(numa_nodes) = 8%nat -> 0 <= node_count ->
  let nc := clamp_nodes node_count in
  wp (pmm_numa_reset_layout node_count) (fun _ s' => exists nodes rr g,
    s' = set_global_next_scan_frame g (set_round_robin_numa_node rr
           (set_active_numa_node_count nc (set_numa_nodes nodes s))) /\
    length nodes = 8%nat /\ chain (take (Z.to_nat nc) nodes) 0 s.(total_frames) /\
    Forall (fun n => n.(node_free_frames) = 0) (take (Z.to_nat nc) nodes) /\
    (0 <= s.(round_robin_numa_node) -> 0 <= rr < nc)) s.
Proof.
  intros Htot Hlen Hnc nc. unfold pmm_numa_reset_layout. change (2 ^ 20) with 1048576 in Htot.
  assert (1 <= nc <= 8) as Hnc'.
  { subst nc. unfold clamp_nodes, PMM_MAX_NUMA_NODES. destruct (Z.eqb_spec node_count 0); lia. }
  replace (if PMM_MAX_NUMA_NODES <? (if node_count =? 0 then 1 else node_count) then PMM_MAX_NUMA_NODES
           else if node_count =? 0 then 1 else node_count) with nc
    by (subst nc; unfold clamp_nodes, PMM_MAX_NUMA_NODES; destruct (_ <? _) eqn:?; lia).
  cbv zeta. generalize dependent nc. intros nc Hnc'. clear Hnc node_count.
  pose proof (Z.mod_pos_bound s.(total_frames) nc ltac:(lia)) as Hmod.
  pose proof (Z.div_mod s.(total_frames) nc ltac:(lia)) as Hdm.
  pose proof (Z.div_pos s.(total_frames) nc ltac:(lia) ltac:(lia)) as Hdp.
  wp_step. wp_step. wp_step.
  apply (wp_for_acc _ _ _ _ (fun i '(cursor, rem) s' => exists nodes, s' = set_numa_nodes nodes s /\
    length nodes = 8%nat /\ chain (take (Z.to_nat i) nodes) 0 cursor /\
    Forall (fun n => n.(node_free_frames) = 0) (take (Z.to_nat i) nodes) /\
    cursor = split_start s.(total_frames) nc i /\
    rem = s.(total_frames) mod nc - Z.min i (s.(total_frames) mod nc))); [lia| | |].
  - exists s.(numa_nodes). rewrite set_numa_nodes_id. split; [done|]. split; [done|].
    split; [done|]. split; [done|]. unfold split_start. lia.
  - intros i [cursor rem] s' Hi (nodes & -> & Hl & Hch & Hz & Hcur & Hrem).
    destruct (lookup_lt_is_Some_2 nodes (Z.to_nat i)) as [n Hn]; [lia|].
    wp_step. eapply Done_wp; [by apply node_update_run|]. wp_step. simpl.
    set (fr := s.(total_frames) / nc + (if 0 <? rem then 1 else 0)).
    assert (split_start s.(total_frames) nc (i + 1) = cursor + fr) as Hnext.
    { subst fr cursor rem. unfold split_start. destruct (Z.ltb_spec 0 (s.(total_frames) mod nc - i `min` (s.(total_frames) mod nc))); lia. }
    eexists. split; [done|]. rewrite length_insert. split; [done|].
    replace (Z.to_nat (i + 1)) with (S (Z.to_nat i)) by lia. rewrite take_insert_snoc by lia.
    assert (0 <= cursor + fr < 2 ^ 32).
    { rewrite <- Hnext. unfold split_start. rewrite pow32. nia. }
    rewrite wrap_small by done. split.
    { apply chain_app. exists cursor. split; [done|]. apply chain_one. simpl. split; [done|].
      split; [|done]. subst fr. destruct (0 <? rem); lia. }
    split; [apply Forall_app; split; [done|]; by constructor|].
    split; [done|]. destruct (Z.ltb_spec 0 rem); lia.
  - intros [cursor rem] s1 (nodes & -> & Hl & Hch & Hz & Hcur & _).
    rewrite split_start_end in Hcur by lia. subst cursor.
    wp_step. apply (wp_for_each _ _ _ (fun _ s' => exists nodes', s' = set_numa_nodes nodes' s /\
      length nodes' = 8%nat /\ take (Z.to_nat nc) nodes' = take (Z.to_nat nc) nodes)).
    + unfold PMM_MAX_NUMA_NODES. lia.
    + by exists nodes.
    + intros i s1 Hi (nodes' & -> & Hl' & Htk). unfold PMM_MAX_NUMA_NODES in Hi.
      destruct (lookup_lt_is_Some_2 nodes' (Z.to_nat i)) as [n Hn]; [lia|].
      eapply Done_wp; [by apply node_update_run|]. simpl. eexists. split; [done|].
      rewrite length_insert. split; [done|]. by rewrite take_insert_ge by lia.
    + intros s1 (nodes' & -> & Hl' & Htk). repeat wp_step. simpl.
      exists nodes', (if nc <=? s.(round_robin_numa_node) then 0 else s.(round_robin_numa_node)),
        (if s.(total_frames) <=? s.(global_next_scan_frame) then 0 else s.(global_next_scan_frame)).
      rewrite Htk. split; [|split; [done|split; [done|split; [done|destruct (_ <=? _) eqn:?; lia]]]].
      destruct (nc <=? _); simpl; destruct (total_frames s <=? _); done.
Qed.

(** ** The recount *)

Lemma count_loop s lo hi :
  bitmap_ok s -> 0 <= lo <= hi -> hi <= s.(total_frames) -> s.(total_frames) <= 2 ^ 20 ->
  for_acc (R := Empty_set) lo hi 0 (fun frame node_free =>
      used <- bitmap_test frame ;;
      ret (inl (if negb used then u32 (node_free + 1) else node_free))) s =
  Done (inl (count (frame_free s) lo hi)) s.
Proof.
  intros Hb Hlo Hhi Htot. change (2 ^ 20) with 1048576 in Htot.
  enough (wp (for_acc (R := Empty_set) lo hi 0 (fun frame node_free =>
      used <- bitmap_test frame ;;
      ret (inl (if negb used then u32 (node_free + 1) else node_free))))
    (fun r s' => r = inl (count (frame_free s) lo hi) /\ s' = s) s) as W.
  { apply wp_Done in W as (r & s' & Hr & -> & ->). done. }
  apply (wp_for_acc _ _ _ _ (fun i a s' => a = count (frame_free s) lo i /\ s' = s)); [lia| | |].
  - by rewrite count_empty by lia.
  - intros i a s' Hi [-> ->]. wp_step.
    apply (Done_wp _ _ _ _ _ (bitmap_test_run s i Hb ltac:(lia))). wp_step. split; [|done].
    rewrite count_snoc by lia. pose proof (count_range (frame_free s) lo i ltac:(lia)).
    fold (frame_free s i). destruct (frame_free s i); [apply wrap_small; word_lia|lia].
  - intros a s' [-> ->]. done.
Qed.

Abbreviation ranges nodes := (map (fun n => (n.(first_frame), n.(frame_count))) nodes).

Lemma recount_spec s :
  pmm_layout s -> bitmap_ok s ->
  wp pmm_recount_numa_free_frames_locked (fun _ s' => exists nodes,
    s' = set_free_frames (count (frame_free s) 0 s.(total_frames)) (set_numa_nodes nodes s) /\
    ranges nodes = ranges s.(numa_nodes) /\
    Forall (node_counted s) (take (Z.to_nat s.(active_numa_node_count)) nodes)) s.
Proof.
  intros Hlay Hb. pose proof (lay_active s Hlay) as Ha. pose proof (lay_nodes s Hlay) as Hlen.
  pose proof (lay_total s Hlay) as Htot. unfold pmm_recount_numa_free_frames_locked.
  set (a := s.(active_numa_node_count)) in *. wp_step. wp_step. wp_step. fold a.
  assert (Hlr : forall nodes, ranges nodes = ranges s.(numa_nodes) -> length nodes = 8%nat).
  { intros nodes H%(f_equal length). rewrite !length_map in H. congruence. }
  apply (wp_for_acc _ _ _ _ (fun i acc s' => exists nodes mid, s' = set_numa_nodes nodes s /\
    ranges nodes = ranges s.(numa_nodes) /\ Forall (node_counted s) (take (Z.to_nat i) nodes) /\
    chain (take (Z.to_nat i) nodes) 0 mid /\ acc = count (frame_free s) 0 mid)); [lia| | |].
  - exists s.(numa_nodes), 0. rewrite set_numa_nodes_id. repeat split; try done.
  - intros i acc s' Hi (nodes & mid & -> & Hrg & Hcnt & Hch & ->).
    pose proof (Hlr _ Hrg) as Hl. set (s1 := set_numa_nodes nodes s).
    assert (Hlay1 : pmm_layout s1).
    { destruct Hlay. split; try done. eapply chain_ranges; [|done].
      unfold active_nodes. rewrite <- !firstn_map. simpl. by rewrite Hrg. }
    destruct (active_node s1 i Hlay1 Hi) as (n & Hn & Han). simpl in Hn.
    destruct (active_node_range _ _ _ Hlay1 Han) as (? & ? & Hend & Hw). simpl in Hend.
    assert (n.(first_frame) = mid) as Hfirst.
    { pose proof (lay_chain s1 Hlay1) as Hc. unfold active_nodes in Hc. simpl in Hc. fold a in Hc.
      rewrite <- (take_drop (Z.to_nat i) nodes), take_app_ge in Hc by (rewrite length_take; lia).
      apply chain_app in Hc as (m & Hm & Hc). rewrite length_take in Hc.
      rewrite (drop_S _ n) in Hc by done.
      replace (Z.to_nat a - _)%nat with (S (Z.to_nat (a - i - 1))) in Hc by lia. simpl in Hc.
      rewrite (chain_unique _ _ _ _ Hch Hm). apply Hc. }
    wp_step. eapply Done_wp; [by apply node_at_run|]. rewrite Hw. wp_step.
    eapply Done_wp; [apply (count_loop s1); [done|lia|done|apply Hlay1]|]. cbv beta iota.
    change (frame_free s1) with (frame_free s).
    set (c := count _ _ _). wp_step. eapply Done_wp; [by apply node_update_run|].
    wp_step. eapply Done_wp; [apply node_at_run; simpl; apply list_lookup_insert_eq; lia|].
    pose proof (count_range (frame_free s) n.(first_frame) (n.(first_frame) + n.(frame_count)) ltac:(lia)).
    pose proof (count_range (frame_free s) 0 mid (chain_le _ _ _ Hch)).
    pose proof (count_split (frame_free s) 0 mid (mid + n.(frame_count)) ltac:(lia)).
    change (2 ^ 20) with 1048576 in Htot.
    assert (u32 (count (frame_free s) 0 mid + c) = count (frame_free s) 0 (mid + n.(frame_count))) as Hc'.
    { subst c. rewrite Hfirst in *. rewrite wrap_small by word_lia. lia. }
    assert (Hfin : forall m, m.(first_frame) = n.(first_frame) -> m.(frame_count) = n.(frame_count) ->
      m.(node_free_frames) = c ->
      ranges (<[Z.to_nat i := m]> nodes) = ranges s.(numa_nodes) /\
      Forall (node_counted s) (take (Z.to_nat (i + 1)) (<[Z.to_nat i := m]> nodes)) /\
      chain (take (Z.to_nat (i + 1)) (<[Z.to_nat i := m]> nodes)) 0 (mid + n.(frame_count))).
    { intros m E1 E2 E3. replace (Z.to_nat (i + 1)) with (S (Z.to_nat i)) by lia.
      rewrite take_insert_snoc by lia. split; [|split].
      - rewrite <- Hrg. change (map ?g ?l) with (g <$> l). rewrite list_fmap_insert, E1, E2.
        apply list_insert_id. by rewrite list_lookup_fmap, Hn.
      - apply Forall_app. split; [done|]. constructor; [|done]. unfold node_counted. by rewrite E1, E2, E3.
      - apply chain_app. exists mid. split; [done|]. apply chain_one. rewrite E1, E2. split; [done|lia]. }
    wp_step. wp_step.
    + eapply Done_wp; [apply node_update_run; simpl; apply list_lookup_insert_eq; lia|].
      wp_step. rewrite Hc'. eexists _, (mid + n.(frame_count)). split; [simpl; rewrite list_insert_insert_eq; reflexivity|].
      edestruct Hfin as (? & ? & ?); [| | |split; [done|split; [done|split; done]]]; done.
    + wp_step. wp_step. rewrite Hc'. eexists _, (mid + n.(frame_count)). split; [reflexivity|].
      edestruct Hfin as (? & ? & ?); [| | |split; [done|split; [done|split; done]]]; done.
  - intros acc s1 (nodes & mid & -> & Hrg & Hcnt & Hch & ->). wp_step. exists nodes.
    assert (mid = s.(total_frames)) as ->; [|done].
    pose proof (lay_chain s Hlay) as Hc. unfold active_nodes in Hc. fold a in Hc.
    eapply (chain_ranges _ (take (Z.to_nat a) nodes)) in Hc; [|by rewrite <- !firstn_map, Hrg].
    by eapply chain_unique.
Qed.

(** The recount makes the counters right whatever they were. *)
Lemma recount_wf s :
  pmm_layout s -> bitmap_ok s -> 0 <= s.(round_robin_numa_node) < s.(active_numa_node_count) ->
  wp pmm_recount_numa_free_frames_locked (fun _ s' =>
    pmm_wf s' /\ same_shape s s' /\ s'.(frame_bitmap) = s.(frame_bitmap)) s.
Proof.
  intros Hlay Hb Hrr. eapply wp_mono; [by apply recount_spec|].
  intros ? s' (nodes & -> & Hrg & Hcnt).
  set (s' := set_free_frames _ _). assert (Hsh : same_shape s s') by (by split).
  split; [|done]. split; try done. destruct Hlay. split; try done; simpl.
  - apply (f_equal length) in Hrg. rewrite !length_map in Hrg. congruence.
  - eapply chain_ranges; [by apply same_shape_active|done].
Qed.

(** [pmm_configure_numa_topology] accepts 1 to 8 nodes; it repartitions the
    frames into that many nodes, recounts, and re-establishes the invariant
    without changing which frames are in use.  Other counts are refused and
    change nothing. *)
Theorem configure_numa_topology_correct s node_count :
  pmm_ready s -> 0 <= node_count ->
  wp (pmm_configure_numa_topology node_count) (fun r s' => pmm_ready s' /\
    r = bool_decide (1 <= node_count <= 8) /\
    s'.(active_numa_node_count) = (if r then node_count else s.(active_numa_node_count)) /\
    s'.(total_frames) = s.(total_frames) /\ s'.(free_frames) = s.(free_frames) /\
    (forall f, frame_used s' f = frame_used s f) /\
    (r = false -> s' = s)) s.
Proof.
  intros [W Hi] Hnc. pose proof (wf_layout s W) as Hlay. unfold pmm_configure_numa_topology.
  wp_step.
  { wp_step. rewrite bool_decide_false by (unfold PMM_MAX_NUMA_NODES in *; lia). do 6 (split; [done|]). done. }
  unfold PMM_MAX_NUMA_NODES in *. z_bools. rewrite bool_decide_true by lia.
  apply wp_locked; [done|]. wp_step.
  eapply wp_mono; [apply (reset_layout_spec (locked s)); [apply Hlay|apply Hlay|done]|].
  intros ? s1 (nodes & rr & g & -> & Hl & Hch & Hz & Hrr).
  replace (clamp_nodes node_count) with node_count in *
    by (unfold clamp_nodes, PMM_MAX_NUMA_NODES; destruct (Z.eqb_spec node_count 0); lia).
  set (s1 := set_global_next_scan_frame _ _).
  assert (pmm_layout s1) as Hlay1 by (destruct Hlay; split; try done; simpl; lia).
  assert (bitmap_ok s1) as Hb1 by apply W.
  assert (0 <= round_robin_numa_node s1 < active_numa_node_count s1) as Hrr1 by (apply Hrr, W).
  wp_step. wp_step. wp_step. pose proof Hb1 as (bm & Hbm & _).
  apply wp_mono with (Q := fun _ s' => pmm_wf s' /\ same_shape s1 s' /\ s'.(frame_bitmap) = s1.(frame_bitmap)).
  - change (frame_bitmap (id s1)) with (frame_bitmap s1). wp_step; [by apply recount_wf|]. rewrite Hbm in E. simpl in E.
    wp_step. split; [|done].
    split; try done; [|].
    + apply Forall_lookup_2. intros i n Hn. destruct (active_node_range _ _ _ Hlay1 Hn) as (? & ? & ? & _).
      simpl in *. unfold node_counted. rewrite count_empty by lia. by eapply (Forall_lookup_1 _ _ _ _ Hz).
    + simpl. rewrite (wf_free s W). done.
  - intros ? s2 (W2 & Hsh2 & Hbm2). wp_step. split; [apply Hsh2|].
    assert (forall f, frame_used s2 f = frame_used s f) as Hu by (intros f; unfold frame_used; by rewrite Hbm2).
    split; [by apply unlocked_ready|]. split; [done|]. split; [apply Hsh2|]. split; [apply Hsh2|].
    split; [|by split]. simpl. rewrite (wf_free s W), (wf_free s2 W2), (sh_total _ _ Hsh2).
    apply count_ext. intros f Hf. unfold frame_free. by rewrite Hu.
Qed.

Lemma configure_numa_topology_correct_witness :
  wp (pmm_configure_numa_topology 3) (fun r s' => pmm_ready s' /\
    r = bool_decide (1 <= 3 <= 8) /\
    s'.(active_numa_node_count) = (if r then 3 else small_pmm.(active_numa_node_count)) /\
    s'.(total_frames) = small_pmm.(total_frames) /\ s'.(free_frames) = small_pmm.(free_frames) /\
    (forall f, frame_used s' f = frame_used small_pmm f) /\
    (r = false -> s' = small_pmm)) small_pmm.
Proof. apply (configure_numa_topology_correct small_pmm 3 small_ready). lia. Defined.

(** ** pmm_init *)

Definition region_fits (r : bootinfo_memory_region) : Prop :=
  fits 64 r.(region_base) /\ fits 64 r.(region_length).

Lemma memory_next_fits it bi r it' bi' :
  bootinfo_memory_next it bi = Done (Some r, it') bi' -> region_fits r.
Proof.
  unfold bootinfo_memory_next, multiboot_decode_memory_region, paging_phys_to_virt.
  destruct (it =? 0) eqn:E0; [done|]. run.
  destruct (multiboot_map_bounds bi) as [[s e]|] eqn:Hb; [|done].
  destruct ((it <? s) || (e <=? it)) eqn:E1; [done|]. run. rewrite Hb, E1. run.
  run_if; [done|]. do 3 (run_if; [done|]).
  intros [= <- _ _]. split; apply read_u64_fits.
Qed.

Lemma memory_walk_fits fuel bi res regions bi' :
  (forall r, fst res = Some r -> region_fits r) ->
  memory_walk fuel res bi = Done regions bi' -> Forall region_fits regions.
Proof.
  revert res regions bi bi'. induction fuel as [|fuel IH]; intros [[r|] it] regions bi bi' Hr; simpl;
    try (by intros [= <- <-]); try done.
  unfold bind. destruct (bootinfo_memory_next it bi) as [[o it'] bi1| | |] eqn:En; try done.
  destruct (memory_walk fuel (o, it') bi1) as [rest bi2| | |] eqn:Ew; try done. intros [= <- <-].
  constructor; [by apply Hr|]. eapply IH; [|exact Ew]. simpl. intros r' ->. by eapply memory_next_fits.
Qed.

Lemma memory_regions_fit bi regions :
  memory_regions bi = Done regions bi -> Forall region_fits regions.
Proof.
  unfold memory_regions, bootinfo_memory_begin. run.
  destruct (multiboot_map_bounds bi) as [[s e]|] eqn:Hb; [|by run; intros [= <-]].
  unfold bind. destruct (bootinfo_memory_next s bi) as [[o it'] bi1| | |] eqn:En; try done.
  apply memory_walk_fits. simpl. intros r' ->. by eapply memory_next_fits.
Qed.

Lemma raise_highest_bound h r :
  region_fits r -> 0 <= h <= PMM_PHYS_CAP -> h <= raise_highest h r <= PMM_PHYS_CAP.
Proof.
  intros [Hb Hl] Hh. unfold raise_highest. set (e := if _ <? _ then _ else _).
  assert (0 <= e <= PMM_PHYS_CAP) as He.
  { subst e. pose proof (wrap_fits 64 (r.(region_base) + r.(region_length)) ltac:(lia)) as Hw. unfold fits in Hw.
    destruct (PMM_PHYS_CAP <? _) eqn:E; [by vm_compute|]. z_bools.
    destruct (_ <? r.(region_base)); [by vm_compute|lia]. }
  unfold PMM_PHYS_CAP in *. destruct (e =? 0); [lia|]. rewrite wrap_small by word_lia.
  destruct (Z.ltb_spec h e); lia.
Qed.

Lemma highest_bound regions h :
  Forall region_fits regions -> 0 <= h <= PMM_PHYS_CAP ->
  0 <= fold_left raise_highest regions h <= PMM_PHYS_CAP.
Proof.
  intros H. revert h. induction H as [|r l Hr _ IH]; intros h Hh; simpl; [done|].
  apply IH. pose proof (raise_highest_bound h r Hr Hh). lia.
Qed.

(** Frame [g] lies, up to its first bytes, in an available region, whose end is an
    address of 64 bits. *)
Definition available_frame (r : bootinfo_memory_region) (g : Z) : Prop :=
  r.(region_type) = MULTIBOOT_MEMORY_AVAILABLE /\
  (g + 1) * PAGE_SIZE <= r.(region_base) + r.(region_length) < 2 ^ 64 /\
  r.(region_base) < (g + 1) * PAGE_SIZE.

Lemma mark_region_spec s r :
  pmm_ready s -> region_fits r -> s.(total_frames) <= 2 ^ 20 - 1 ->
  wp (mark_region r) (fun _ s' => pmm_ready s' /\ same_shape s s' /\
    forall g, 0 <= g < s.(total_frames) ->
      frame_used s' g = false <-> frame_used s g = false \/ available_frame r g) s.
Proof.
  intros R [Hb Hl] Ht. change (2 ^ 20 - 1) with 1048575 in Ht. unfold mark_region, fits in *.
  assert (Hid : (forall g, 0 <= g < s.(total_frames) -> ~ available_frame r g) ->
    pmm_ready s /\ same_shape s s /\ forall g, 0 <= g < s.(total_frames) ->
      frame_used s g = false <-> frame_used s g = false \/ available_frame r g).
  { intros Hn. split; [done|]. split; [done|]. intros g Hg. specialize (Hn g Hg). tauto. }
  unfold available_frame, PMM_PHYS_CAP, PAGE_SIZE in *.
  wp_step; [z_bools; apply wp_ret, Hid; intros g Hg (? & ? & ?); lia|].
  wp_step; [z_bools; apply wp_ret, Hid; intros g Hg (? & ? & ?); rewrite wrap_small in E0 by word_lia; lia|].
  wp_step; [z_bools; apply wp_ret, Hid; intros g Hg (? & ? & ?); lia|]. z_bools.
  pose proof (wrap_add_no_overflow 64 _ _ ltac:(lia) Hb Hl ltac:(lia)) as Hw. rewrite Hw in *.
  assert (Hend : r.(region_base) + r.(region_length) < 2 ^ 64) by (rewrite <- Hw; apply wrap_fits; lia).
  set (e := if _ <? _ then _ else _).
  assert (He : e = Z.min (r.(region_base) + r.(region_length)) 0xFFFFF000) by (subst e; destruct (Z.ltb_spec 0xFFFFF000 (r.(region_base) + r.(region_length))); lia).
  rewrite (wrap_small 32 r.(region_base)), (wrap_small 32 (e - _)) by word_lia.
  eapply wp_mono; [apply mark_available_range_spec; [done|word_lia|word_lia]|].
  intros ? s' [R' C]. split; [done|]. split; [apply C|]. intros g Hg.
  rewrite (ch_frames _ _ _ _ C) by done. unfold ends_in, PAGE_SIZE.
  destruct (_ && _) eqn:Ee; [|split; [by left|intros [|(? & ? & ?)]; [done|lia]]].
  split; [|done]. intros _. right. split; [done|lia].
Qed.

(** A step of [pmm_init] that only takes frames away. *)
Definition only_reserves {A} (m : M pmm A) (P : Z -> bool) : Prop :=
  forall s, pmm_ready s -> wp m (fun _ s' => pmm_ready s' /\ same_shape s s' /\
    forall g, 0 <= g < s.(total_frames) ->
      frame_used s' g = false <-> frame_used s g = false /\ P g = false) s.

Lemma reserve_range_only base len :
  fits 32 base -> fits 32 len -> only_reserves (pmm_reserve_range base len) (overlaps base len).
Proof.
  intros Hb Hl s R. eapply wp_mono; [by apply reserve_range_spec|]. intros ? s' [R' C].
  split; [done|]. split; [apply C|]. intros g Hg. rewrite (ch_frames _ _ _ _ C) by done.
  destruct (overlaps base len g); [split; [done|by intros []]|tauto].
Qed.

Lemma only_reserves_ret (P : Z -> bool) :
  (forall g, 0 <= g -> P g = false) -> only_reserves (ret tt) P.
Proof. intros HP s R. wp_step. split; [done|]. split; [done|]. intros g Hg. rewrite HP by lia. tauto. Qed.

Lemma only_reserves_ext {A} (m : M pmm A) P Q :
  (forall g, Q g = P g) -> only_reserves m P -> only_reserves m Q.
Proof.
  intros HPQ H s R. eapply wp_mono; [by apply H|]. intros ? s' (R' & Hsh & Hu).
  split; [done|]. split; [done|]. intros g Hg. rewrite HPQ. by apply Hu.
Qed.

Lemma only_reserves_seq {A B} (m : M pmm A) (k : M pmm B) P Q :
  only_reserves m P -> only_reserves k Q -> only_reserves (m ;;; k) (fun g => P g || Q g).
Proof.
  intros Hm Hk s R. wp_step. eapply wp_mono; [by apply Hm|]. intros ? s1 (R1 & Hsh1 & H1).
  eapply wp_mono; [by apply Hk|]. intros ? s2 (R2 & Hsh2 & H2).
  pose proof (sh_total _ _ Hsh1) as Ht. split; [done|]. split; [by etransitivity|].
  intros g Hg. rewrite H2, H1, orb_false_iff by lia. tauto.
Qed.

Lemma only_reserves_if {A} (b : bool) (m k : M pmm A) P :
  (b = true -> only_reserves m P) -> (b = false -> only_reserves k P) ->
  only_reserves (if b then m else k) P.
Proof. destruct b; auto. Qed.

(** The frames of boot module [i] and of its string. *)
Definition string_frames (str : option Z) (g : Z) : bool :=
  match str with Some str => overlaps (str - KERNEL_VMA) 128 g | None => false end.
Definition module_frames (bi : bootinfo) (i g : Z) : bool :=
  match bootinfo_module_at i bi with
  | Done (Some m) _ => (m.(mod_start) <? m.(mod_end)) && overlaps m.(mod_start) (m.(mod_end) - m.(mod_start)) g ||
      string_frames m.(mod_string) g
  | _ => false
  end.

Lemma module_at_fits bi i m :
  bootinfo_module_at i bi = Done (Some m) bi ->
  fits 32 m.(mod_start) /\ fits 32 m.(mod_end) /\
  forall str, m.(mod_string) = Some str -> KERNEL_VMA <= str < KERNEL_VMA + KERNEL_DIRECT_MAP_LIMIT_PHYS.
Proof.
  unfold bootinfo_module_at, paging_phys_to_virt. run. run_if; [done|].
  destruct (multiboot_info bi) as [p|]; [|done]. simpl. run. run_if; [done|].
  set (entry := _ + _ * i). pose proof (read_u32_fits (phys_mem bi) (entry + 8 - KERNEL_VMA)) as Hs.
  run_if; [intros [= <-]; simpl; split; [apply read_u32_fits|split; [apply read_u32_fits|done]]|].
  run_if; [done|]. intros [= <-]. simpl. split; [apply read_u32_fits|]. split; [apply read_u32_fits|].
  intros str [= <-]. unfold virt_u32 in *. unfold KERNEL_VMA, KERNEL_DIRECT_MAP_LIMIT_PHYS in *.
  z_bools. unfold fits in Hs. rewrite wrap_small by word_lia. lia.
Qed.

Lemma reserve_module_only bi i m :
  bootinfo_module_at i bi = Done m bi -> only_reserves (reserve_module bi i) (module_frames bi i).
Proof.
  intros Hm s R. unfold reserve_module. wp_step. eapply wp_reading; [exact Hm|].
  destruct m as [m|].
  2: { apply (only_reserves_ret (module_frames bi i)); [|done]. intros. unfold module_frames. by rewrite Hm. }
  pose proof (module_at_fits _ _ _ Hm) as (Hs & He & Hstr).
  assert (Hrest : only_reserves (match m.(mod_string) with
    | None => ret tt | Some str => phys <- paging_virt_to_phys_direct str ;; pmm_reserve_range phys 128 end)
    (string_frames m.(mod_string))).
  { destruct (mod_string m) as [str|]; [|by apply only_reserves_ret]. specialize (Hstr str eq_refl).
    unfold paging_virt_to_phys_direct, KERNEL_VMA, KERNEL_DIRECT_MAP_LIMIT_PHYS in *.
    destruct (_ && _) eqn:E; [|lia]. intros s1 R1. wp_step. wp_step. cbn [string_frames]. unfold KERNEL_VMA.
    apply reserve_range_only; [word_lia|word_lia|done]. }
  apply (only_reserves_ext _ (fun g => (m.(mod_start) <? m.(mod_end)) && overlaps m.(mod_start) (m.(mod_end) - m.(mod_start)) g ||
      string_frames m.(mod_string) g)); [intros g; unfold module_frames; by rewrite Hm| |done].
  apply only_reserves_seq; [|done]. apply only_reserves_if; intros E; rewrite E.
  - z_bools. apply reserve_range_only; [done|word_lia].
  - by apply only_reserves_ret.
Qed.

Definition any_module (bi : bootinfo) (n g : Z) : bool :=
  bool_decide (Exists (fun i => module_frames bi i g = true) (seqZ 0 n)).

Lemma any_module_succ bi n g : 0 <= n -> any_module bi (n + 1) g = any_module bi n g || module_frames bi n g.
Proof.
  intros Hn. unfold any_module. apply eq_true_iff_eq. rewrite orb_true_iff, !bool_decide_eq_true.
  rewrite seqZ_app, Exists_app, (seqZ_cons _ 1), Exists_cons, Z.add_0_l by lia. rewrite Exists_nil. tauto.
Qed.

Lemma reserve_modules_only bi n :
  0 <= n -> (forall i, 0 <= i < n -> exists m, bootinfo_module_at i bi = Done m bi) ->
  only_reserves (for_each 0 n (reserve_module bi)) (any_module bi n).
Proof.
  intros Hn Hm s R. apply (wp_for_each _ _ _ (fun j s' => pmm_ready s' /\ same_shape s s' /\
    forall g, 0 <= g < s.(total_frames) ->
      frame_used s' g = false <-> frame_used s g = false /\ any_module bi j g = false)); [done| | |done].
  - split; [done|]. split; [done|]. intros g Hg. change (any_module bi 0 g) with false. tauto.
  - intros i s1 Hi (R1 & Hsh1 & H1). destruct (Hm i Hi) as [m Hmi].
    eapply wp_mono; [by apply (reserve_module_only bi i m)|]. intros ? s2 (R2 & Hsh2 & H2).
    pose proof (sh_total _ _ Hsh1). split; [done|]. split; [by etransitivity|].
    intros g Hg. rewrite H2, H1, any_module_succ, orb_false_iff by lia. tauto.
Qed.

(** Every bit of the fresh bitmap is set. *)
Lemma fresh_bitmap_used s n f :
  s.(frame_bitmap) = Some (replicate n 0xFF) -> 0 <= f < 8 * Z.of_nat n -> frame_used s f = true.
Proof.
  intros Hb Hf. unfold frame_used. rewrite Hb.
  assert (0 <= f / 8 < Z.of_nat n) by (split; [apply Z.div_pos; lia|apply Z.div_lt_upper_bound; lia]).
  rewrite lookup_replicate_2 by lia. simpl.
  pose proof (Z.mod_pos_bound f 8 eq_refl). change 255 with (Z.ones 8).
  apply Z.ones_spec_low. lia.
Qed.

Section InitCorrect.
Variables kernel_start_phys kernel_end_phys : Z.
Variable bi : bootinfo.
Variable regions : list bootinfo_memory_region.
Let highest := fold_left raise_highest regions 0.
Let total := align_up_u32 highest PAGE_SIZE / PAGE_SIZE.
Let bitmap_phys := align_up_u32 kernel_end_phys PAGE_SIZE.
Let bitmap_bytes := align_up_u32 (u32 (total + 7) / 8) PAGE_SIZE.

Hypothesis Hkernel : 0 <= kernel_start_phys <= kernel_end_phys.
Hypothesis Hwindow : bitmap_phys + bitmap_bytes < BOOTSTRAP_WINDOW_SIZE.
Hypothesis Hkend : kernel_end_phys + PAGE_SIZE <= 2 ^ 32.
Hypothesis Hmap : bootinfo_has_memory_map bi = true.
Hypothesis Hregions : memory_regions bi = Done regions bi.
Hypothesis Hhighest : highest <> 0.
Hypothesis Hmodules : forall i, 0 <= i < bootinfo_module_count bi ->
  exists m, bootinfo_module_at i bi = Done m bi.
Hypothesis Hinfo : fits 32 bi.(info_phys).

Let fit : Forall region_fits regions.
Proof. by apply (memory_regions_fit bi). Qed.

Lemma init_total : 0 < total <= 2 ^ 20 - 1 /\ total = (highest + PAGE_SIZE - 1) / PAGE_SIZE.
Proof.
  pose proof (highest_bound regions 0 fit ltac:(by vm_compute)) as Hh. fold highest in Hh.
  unfold PMM_PHYS_CAP in Hh. subst total. rewrite align_up_u32_page by (unfold PAGE_SIZE; word_lia).
  rewrite Z.div_mul by done. split; [|done]. unfold PAGE_SIZE.
  pose proof (Z.div_mod (highest + 4096 - 1) 4096 ltac:(lia)).
  pose proof (Z.mod_pos_bound (highest + 4096 - 1) 4096 ltac:(lia)).
  change (2 ^ 20 - 1) with 1048575. lia.
Qed.

Lemma init_bitmap_bytes : total <= 8 * bitmap_bytes /\ 0 <= bitmap_bytes <= 2 ^ 18.
Proof.
  destruct init_total as [Ht _]. change (2 ^ 20 - 1) with 1048575 in Ht. change (2 ^ 18) with 262144.
  subst bitmap_bytes. rewrite (wrap_small 32) by word_lia.
  pose proof (Z.div_mod (total + 7) 8 ltac:(lia)). pose proof (Z.mod_pos_bound (total + 7) 8 ltac:(lia)).
  rewrite align_up_u32_page by (unfold PAGE_SIZE; word_lia). unfold PAGE_SIZE.
  pose proof (Z.div_mod ((total + 7) / 8 + 4096 - 1) 4096 ltac:(lia)).
  pose proof (Z.mod_pos_bound ((total + 7) / 8 + 4096 - 1) 4096 ltac:(lia)). lia.
Qed.

Lemma init_bitmap_phys : 0 <= bitmap_phys < BOOTSTRAP_WINDOW_SIZE.
Proof.
  pose proof init_bitmap_bytes. split; [|lia]. subst bitmap_phys.
  rewrite align_up_u32_page by lia. unfold PAGE_SIZE.
  pose proof (Z.div_pos (kernel_end_phys + 4096 - 1) 4096). lia.
Qed.

(** The frames that [pmm_init] keeps for the kernel. *)
Definition boot_reserved (g : Z) : bool :=
  overlaps 0 0x100000 g || overlaps kernel_start_phys (kernel_end_phys - kernel_start_phys) g ||
  overlaps bitmap_phys bitmap_bytes g ||
  negb (bootinfo_info_phys bi =? 0) && negb (bootinfo_info_size_hint bi =? 0) && overlaps (bootinfo_info_phys bi) (bootinfo_info_size_hint bi) g ||
  overlaps (bootinfo_memory_map_phys bi) (bootinfo_memory_map_size bi) g ||
  negb (bootinfo_module_table_phys bi =? 0) && negb (bootinfo_module_table_size bi =? 0) &&
    overlaps (bootinfo_module_table_phys bi) (bootinfo_module_table_size bi) g ||
  any_module bi (bootinfo_module_count bi) g.

(** What holds between the steps of [pmm_init] once the map is marked: the free
    frames are those that are available according to the map and not in [P]. *)
Definition booting (s0 : pmm) (P : Z -> bool) (s : pmm) : Prop :=
  pmm_ready s /\ same_shape s0 s /\
  forall g, 0 <= g < s0.(total_frames) ->
    frame_used s g = false <-> Exists (fun r => available_frame r g) regions /\ P g = false.

Lemma booting_step {A} (m : M pmm A) s0 P Q s :
  only_reserves m Q -> booting s0 P s -> wp m (fun _ => booting s0 (fun g => P g || Q g)) s.
Proof.
  intros Hm (R & Hsh & H). eapply wp_mono; [by apply Hm|]. intros ? s' (R' & Hsh' & H').
  pose proof (sh_total _ _ Hsh). split; [done|]. split; [by etransitivity|].
  intros g Hg. rewrite H', H, orb_false_iff by lia. tauto.
Qed.

(** The state right after the bitmap was filled and the layout reset. *)
Lemma fresh_ready s s1 nodes rr g :
  fits 32 s.(eflags) ->
  s1.(frame_bitmap) = Some (replicate (Z.to_nat bitmap_bytes) 0xFF) -> s1.(total_frames) = total ->
  s1.(free_frames) = 0 -> s1.(pmm_state_lock) = 0 -> s1.(eflags) = s.(eflags) ->
  length nodes = 8%nat -> chain (take 1 nodes) 0 total ->
  Forall (fun n => n.(node_free_frames) = 0) (take 1 nodes) -> 0 <= rr < 1 ->
  let s2 := set_global_next_scan_frame g (set_round_robin_numa_node rr
         (set_active_numa_node_count 1 (set_numa_nodes nodes s1))) in
  pmm_ready s2 /\ forall g, 0 <= g < total -> frame_used s2 g = true.
Proof.
  intros He Hb Ht Hf Hl He1 Hlen Hch Hz Hrr s2. destruct init_bitmap_bytes as [Hbb Hbr].
  destruct init_total as [Htot _].
  assert (Hused : forall g, 0 <= g < total -> frame_used s2 g = true).
  { intros h Hh. apply (fresh_bitmap_used _ (Z.to_nat bitmap_bytes)); [done|lia]. }
  assert (Hcount : forall lo hi, 0 <= lo -> hi <= total -> count (frame_free s2) lo hi = 0).
  { intros lo hi Hlo Hhi. rewrite (count_ext _ (fun _ => false)).
    - destruct (Z.le_ge_cases lo hi); [|by apply count_empty].
      destruct (Z.eq_dec (count (fun _ => false) lo hi) 0) as [|Hne]; [done|].
      destruct (count_exists (fun _ => false) lo hi) as (x & _ & Hx); [|done].
      pose proof (count_range (fun _ => false) lo hi). lia.
    - intros i Hi. unfold frame_free. by rewrite Hused by lia. }
  split; [|done]. split; [|split; [done|simpl; by rewrite He1]].
  assert (Hlay : pmm_layout s2).
  { split; simpl; rewrite ?Ht; try done; lia. }
  split; [done| |done| |].
  - eexists. split; [exact Hb|]. simpl. rewrite Ht, length_replicate. split; [lia|].
    by apply Forall_replicate.
  - apply Forall_lookup_2. intros i n Hn. destruct (active_node_range _ _ _ Hlay Hn) as (? & ? & Hr & _).
    unfold node_counted. simpl in Hr. rewrite Hcount by lia. by eapply (Forall_lookup_1 _ _ _ _ Hz).
  - simpl. rewrite Hcount by lia. done.
Qed.

Lemma mark_regions_spec l : forall s,
  Forall region_fits l -> pmm_ready s -> s.(total_frames) <= 2 ^ 20 - 1 ->
  wp (foreach l mark_region) (fun _ s' => pmm_ready s' /\ same_shape s s' /\
    forall g, 0 <= g < s.(total_frames) ->
      frame_used s' g = false <-> frame_used s g = false \/ Exists (fun r => available_frame r g) l) s.
Proof.
  induction l as [|r l IH]; intros s Hl R Ht; cbn [foreach].
  - wp_step. split; [done|]. split; [done|]. intros g Hg. rewrite Exists_nil. tauto.
  - inversion Hl as [|? ? Hr Hl']; subst. wp_step. eapply wp_mono; [by apply mark_region_spec|].
    intros ? s1 (R1 & Hsh1 & H1). pose proof (sh_total _ _ Hsh1) as Ht1.
    eapply wp_mono; [apply IH; [done|done|lia]|]. intros ? s2 (R2 & Hsh2 & H2).
    split; [done|]. split; [by etransitivity|]. intros g Hg. rewrite H2, H1, Exists_cons by lia. tauto.
Qed.

Lemma locked_recount s :
  pmm_ready s ->
  wp (with_pmm_lock pmm_recount_numa_free_frames_locked) (fun _ s' =>
    pmm_ready s' /\ same_shape s s' /\ s'.(frame_bitmap) = s.(frame_bitmap)) s.
Proof.
  intros [W Hi]. apply wp_locked_shape; [done|]. pose proof (wf_locked s W) as W'.
  eapply wp_mono; [apply recount_wf; apply W'|]. intros ? s' (W1 & Hsh & Hb).
  split; [done|]. split; [by apply unlocked_ready|]. split; [by apply unlocked_shape|done].
Qed.

Lemma boot_word_fits :
  fits 32 (bootinfo_info_size_hint bi) /\ fits 32 (bootinfo_memory_map_phys bi) /\
  fits 32 (bootinfo_memory_map_size bi) /\ fits 32 (bootinfo_module_table_phys bi) /\
  fits 32 (bootinfo_module_table_size bi) /\ 0 <= bootinfo_module_count bi.
Proof.
  assert (fits 32 0) as H0 by (by vm_compute).
  unfold bootinfo_info_size_hint, bootinfo_memory_map_phys, bootinfo_memory_map_size,
    bootinfo_module_table_phys, bootinfo_module_table_size.
  assert (0 <= bootinfo_module_count bi).
  { unfold bootinfo_module_count. destruct (is_multiboot1 bi), (multiboot_info bi); try done.
    destruct (_ =? 0); [done|]. apply read_u32_fits. }
  repeat split; try done; destruct (multiboot_info bi); repeat destruct (negb _); repeat destruct (_ =? 0);
    try done; try apply read_u32_fits; try (by apply wrap_fits).
Qed.

Lemma initialized_ready s b : pmm_ready s -> pmm_ready (set_initialized b s).
Proof. intros [[[] ? ? ? ?] []]. by split; [split|split]. Qed.

Lemma reserve_word_only a b (c : bool) :
  fits 32 a -> fits 32 b ->
  only_reserves (if c then pmm_reserve_range a b else ret tt) (fun g => c && overlaps a b g).
Proof. intros Ha Hb. destruct c; [by apply reserve_range_only|by apply only_reserves_ret]. Qed.

(** The steps of [pmm_init] after the map was marked. *)
Lemma init_tail s0 s3 :
  booting s0 (fun _ => false) s3 -> s0.(total_frames) = total ->
  wp (pmm_reserve_range 0 0x100000 ;;;
      pmm_reserve_range kernel_start_phys (u32 (kernel_end_phys - kernel_start_phys)) ;;;
      pmm_reserve_range bitmap_phys bitmap_bytes ;;;
      (if negb (bootinfo_info_phys bi =? 0) && negb (bootinfo_info_size_hint bi =? 0)
       then pmm_reserve_range (bootinfo_info_phys bi) (bootinfo_info_size_hint bi) else ret tt) ;;;
      pmm_reserve_range (bootinfo_memory_map_phys bi) (bootinfo_memory_map_size bi) ;;;
      (if negb (bootinfo_module_table_phys bi =? 0) && negb (bootinfo_module_table_size bi =? 0)
       then pmm_reserve_range (bootinfo_module_table_phys bi) (bootinfo_module_table_size bi)
       else ret tt) ;;;
      for_each 0 (bootinfo_module_count bi) (reserve_module bi) ;;;
      with_pmm_lock pmm_recount_numa_free_frames_locked ;;;
      modify (set_initialized true)) (fun _ s' =>
    pmm_ready s' /\ s'.(initialized) = true /\
    s'.(total_frames) = (highest + PAGE_SIZE - 1) / PAGE_SIZE /\
    forall g, 0 <= g < s'.(total_frames) ->
      frame_used s' g = false <-> Exists (fun r => available_frame r g) regions /\ boot_reserved g = false) s3.
Proof.
  intros B3 Ht0. destruct init_total as [Htot Htoteq]. destruct init_bitmap_bytes as [Hbb Hbr].
  pose proof init_bitmap_phys as Hbp. destruct boot_word_fits as (Hf1 & Hf2 & Hf3 & Hf4 & Hf5 & Hf6).
  change (2 ^ 18) with 262144 in Hbr. unfold BOOTSTRAP_WINDOW_SIZE in *.
  unfold PAGE_SIZE in Hkend. rewrite (wrap_small 32 (kernel_end_phys - kernel_start_phys)) by word_lia.
  wp_step. eapply wp_mono; [eapply booting_step; [apply reserve_range_only; word_lia|exact B3]|]. intros ? s4 B4.
  wp_step. eapply wp_mono; [eapply booting_step; [apply reserve_range_only; word_lia|exact B4]|]. intros ? s5 B5.
  wp_step. eapply wp_mono; [eapply booting_step; [apply reserve_range_only; word_lia|exact B5]|]. intros ? s6 B6.
  wp_step. eapply wp_mono; [eapply booting_step; [by apply reserve_word_only|exact B6]|]. intros ? s7 B7.
  wp_step. eapply wp_mono; [eapply booting_step; [by apply (reserve_word_only _ _ true Hf2 Hf3)|exact B7]|]. intros ? s8 B8.
  wp_step. eapply wp_mono; [eapply booting_step; [by apply reserve_word_only|exact B8]|]. intros ? s9 B9.
  wp_step. eapply wp_mono; [eapply booting_step; [by apply reserve_modules_only|exact B9]|]. intros ? s10 B10.
  destruct B10 as (R10 & Hsh10 & H10). wp_step. eapply wp_mono; [by apply locked_recount|].
  intros ? s11 (R11 & Hsh11 & Hb11). wp_step.
  assert (Ht : s11.(total_frames) = total) by (rewrite (sh_total _ _ Hsh11), (sh_total _ _ Hsh10); done).
  split; [by apply initialized_ready|]. split; [done|]. simpl. split; [congruence|].
  rewrite Ht. intros h Hh. rewrite <- (H10 h) by lia. unfold frame_used. simpl. by rewrite Hb11.
Qed.

Lemma pmm_init_spec s :
  length s.(numa_nodes) = 8%nat -> fits 32 s.(eflags) ->
  wp (pmm_init kernel_start_phys kernel_end_phys bi) (fun _ s' =>
    pmm_ready s' /\ s'.(initialized) = true /\
    s'.(total_frames) = (highest + PAGE_SIZE - 1) / PAGE_SIZE /\
    forall g, 0 <= g < s'.(total_frames) ->
      frame_used s' g = false <-> Exists (fun r => available_frame r g) regions /\ boot_reserved g = false) s.
Proof.
  intros Hlen He. destruct init_total as [Htot Htoteq]. destruct init_bitmap_bytes as [Hbb Hbr].
  pose proof init_bitmap_phys as Hbp. destruct boot_word_fits as (Hf1 & Hf2 & Hf3 & Hf4 & Hf5 & Hf6).
  unfold pmm_init. do 5 (wp_step; wp_step). rewrite Hmap. wp_step. wp_step.
  eapply wp_reading; [exact Hregions|]. wp_step. fold highest.
  replace (highest =? 0) with false by lia. do 2 (wp_step; wp_step). fold total bitmap_phys.
  change (align_up_u32 (u32 (total + 7) / 8) PAGE_SIZE) with bitmap_bytes.
  change (2 ^ 18) with 262144 in Hbr. unfold BOOTSTRAP_WINDOW_SIZE in *.
  rewrite (wrap_small 32 (bitmap_phys + bitmap_bytes)) by word_lia.
  wp_step. wp_step. replace (_ <=? bitmap_phys + bitmap_bytes) with false by lia.
  wp_step. eapply Done_wp; [apply phys_to_virt_spec; unfold KERNEL_DIRECT_MAP_LIMIT_PHYS; lia|].
  do 2 (wp_step; wp_step). wp_step.
  eapply wp_mono; [apply reset_layout_spec; simpl; [lia|done|lia]|].
  intros ? s2 (nodes & rr & g & -> & Hl & Hch & Hz & Hrr).
  match goal with |- wp _ _ (set_global_next_scan_frame _ (set_round_robin_numa_node _
    (set_active_numa_node_count _ (set_numa_nodes _ ?s1)))) =>
    destruct (fresh_ready s s1 nodes rr g He eq_refl eq_refl eq_refl eq_refl eq_refl Hl Hch Hz)
      as [R2 Hu2]; [by apply Hrr|] end.
  change (clamp_nodes 1) with 1 in *. set (s2 := set_global_next_scan_frame g _) in *.
  wp_step. wp_step. eapply wp_reading; [exact Hregions|].
  assert (Ht2 : s2.(total_frames) = total) by reflexivity. rewrite <- Ht2 in Hu2. clearbody s2.
  eapply wp_mono; [apply (mark_regions_spec regions s2 fit R2); lia|]. intros ? s3 (R3 & Hsh3 & H3).
  apply init_tail with (s0 := s2); [|done]. split; [done|]. split; [done|]. intros h Hh. rewrite H3, Hu2 by done. naive_solver.
Qed.

End InitCorrect.

(** ** What the boot loader left *)

(** The word at an offset of the Multiboot information structure. *)
Definition info_word (bi : bootinfo) (offset : Z) : Z := read_u32 bi.(phys_mem) (bi.(info_phys) + offset).

(** Its number of modules: a field that is valid when bit 3 of the flags is set. *)
Definition modules_told (bi : bootinfo) : Z := if Z.testbit (info_word bi 0) 3 then info_word bi 20 else 0.

(** The entry of module [i] in the module table: start, end, string. *)
Definition module_entry (bi : bootinfo) (i : Z) : Z := info_word bi 24 + 16 * i.

(** The structure of a Multiboot 1 loader, with a memory map (bit 6 of the flags)
    that describes [regions], and everything it points to in the first 256 MiB. *)
Record multiboot_tables (bi : bootinfo) (regions : list bootinfo_memory_region) : Prop := {
  bt_loader : bi.(loader_kind) = BOOTINFO_LOADER_MULTIBOOT1;
  bt_info : bi.(multiboot_info) = Some (0xC0000000 + bi.(info_phys));
  bt_addr : 0 <= bi.(info_phys) < 2 ^ 32;
  bt_flag : Z.testbit (info_word bi 0) 6 = true;
  bt_map : 0 < info_word bi 48 /\ 0 < info_word bi 44 /\ info_word bi 48 + info_word bi 44 <= 0x10000000 /\
    map_at bi.(phys_mem) (info_word bi 48) regions (info_word bi 48 + info_word bi 44);
  bt_table : 0 < modules_told bi -> info_word bi 24 + 16 * modules_told bi <= 0x10000000;
  bt_strings i : 0 <= i < modules_told bi -> read_u32 bi.(phys_mem) (module_entry bi i + 8) < 0x10000000
}.

(** The address after the last byte of the regions, up to 4 GiB less a page. *)
Definition top_address (regions : list bootinfo_memory_region) : Z :=
  fold_left (fun top r => Z.max top (Z.min (r.(region_base) + r.(region_length)) 0xFFFFF000)) regions 0.

Definition pages_for (bytes : Z) : Z := (bytes + 4095) / 4096.

(** The frame bitmap: one bit per frame, in whole pages after the kernel image. *)
Definition bitmap_start (kernel_end : Z) : Z := pages_for kernel_end * 4096.
Definition bitmap_size (total : Z) : Z := pages_for ((total + 7) / 8) * 4096.

(** The bytes that must not be given out: the first megabyte, the kernel image, the
    bitmap, the information structure, the memory map, the module table, the modules
    and their strings. *)
Inductive kept_byte (kernel_start kernel_end total : Z) (bi : bootinfo) (a : Z) : Prop :=
| kept_low : 0 <= a < 0x100000 -> kept_byte kernel_start kernel_end total bi a
| kept_image : kernel_start <= a < kernel_end -> kept_byte kernel_start kernel_end total bi a
| kept_bitmap : bitmap_start kernel_end <= a < bitmap_start kernel_end + bitmap_size total ->
    kept_byte kernel_start kernel_end total bi a
| kept_info : bi.(info_phys) <= a < bi.(info_phys) + 88 -> kept_byte kernel_start kernel_end total bi a
| kept_map : info_word bi 48 <= a < info_word bi 48 + info_word bi 44 -> kept_byte kernel_start kernel_end total bi a
| kept_table : info_word bi 24 <> 0 ->
    info_word bi 24 <= a < info_word bi 24 + 16 * modules_told bi -> kept_byte kernel_start kernel_end total bi a
| kept_module i : 0 <= i < modules_told bi ->
    read_u32 bi.(phys_mem) (module_entry bi i) <= a < read_u32 bi.(phys_mem) (module_entry bi i + 4) ->
    kept_byte kernel_start kernel_end total bi a
| kept_string i : 0 <= i < modules_told bi -> read_u32 bi.(phys_mem) (module_entry bi i + 8) <> 0 ->
    read_u32 bi.(phys_mem) (module_entry bi i + 8) <= a < read_u32 bi.(phys_mem) (module_entry bi i + 8) + 128 ->
    kept_byte kernel_start kernel_end total bi a.

Lemma top_address_raise regions : Forall region_fits regions -> fold_left raise_highest regions 0 = top_address regions.
Proof.
  intros Hf. unfold top_address. enough (H : forall h, 0 <= h -> fold_left raise_highest regions h =
    fold_left (fun top r => Z.max top (Z.min (r.(region_base) + r.(region_length)) 0xFFFFF000)) regions h) by (by apply H).
  induction Hf as [|r l [Hb Hl] _ IH]; intros h Hh; simpl; [done|].
  assert (E : raise_highest h r = Z.max h (Z.min (region_base r + region_length r) 0xFFFFF000)).
  { unfold raise_highest, PMM_PHYS_CAP, fits in *. set (e0 := u64 _). set (e1 := if e0 <? _ then _ else _). set (e := if _ <? e1 then _ else _).
    assert (He : e = Z.min (region_base r + region_length r) 0xFFFFF000).
    { assert (H0 : e0 = if Z_lt_le_dec (region_base r + region_length r) (2 ^ 64) then region_base r + region_length r
        else region_base r + region_length r - 2 ^ 64).
      { unfold e0. destruct (Z_lt_le_dec _ _); [apply wrap_small; word_lia|]. unfold wrap. symmetry. apply (Z.mod_unique _ _ 1); lia. }
      subst e e1. clearbody e0. destruct (Z_lt_le_dec (region_base r + region_length r) (2 ^ 64)) in H0.
      - destruct (Z.ltb_spec e0 (region_base r)); [lia|]. destruct (Z.ltb_spec 0xFFFFF000 e0); lia.
      - destruct (Z.ltb_spec e0 (region_base r)); [|lia]. destruct (Z.ltb_spec 0xFFFFF000 0xFFFFF000); lia. }
    rewrite He. destruct (Z.eqb_spec (Z.min (region_base r + region_length r) 0xFFFFF000) 0); [lia|].
    rewrite wrap_small by word_lia. destruct (Z.ltb_spec h (Z.min (region_base r + region_length r) 0xFFFFF000)); lia. }
  rewrite E. apply IH. lia.
Qed.

(** The tables as the code reads them. *)
Section Tables.
Context (bi : bootinfo) (regions : list bootinfo_memory_region) (T : multiboot_tables bi regions).

Lemma tables_word k : virt_u32 bi (0xC0000000 + bi.(info_phys) + k) = info_word bi k.
Proof. unfold virt_u32, info_word, KERNEL_VMA. f_equal. lia. Qed.

Lemma tables_flags : virt_u32 bi (0xC0000000 + bi.(info_phys)) = info_word bi 0.
Proof. rewrite <- (Z.add_0_r (0xC0000000 + info_phys bi)). apply tables_word. Qed.

Lemma tables_multiboot : is_multiboot1 bi = true.
Proof. unfold is_multiboot1. by rewrite (bt_loader _ _ T). Qed.

Lemma tables_bit k w : 0 <= k -> (Z.land w (Z.shiftl 1 k) =? 0) = negb (Z.testbit w k).
Proof. intros Hk. by rewrite <- (land_pow2_testbit w k Hk), negb_involutive. Qed.

Lemma tables_has_map : bootinfo_has_memory_map bi = true.
Proof.
  unfold bootinfo_has_memory_map, mbi_flags, mbi_mmap_length, MULTIBOOT_INFO_MEM_MAP. rewrite tables_multiboot, (bt_info _ _ T).
  rewrite tables_flags, tables_word, tables_bit, (bt_flag _ _ T) by lia. destruct (bt_map _ _ T) as (_ & H & _). simpl. lia.
Qed.

Lemma tables_regions : memory_regions bi = Done regions bi.
Proof.
  destruct (bt_map _ _ T) as (H1 & H2 & H3 & H4).
  apply (memory_regions_decodes bi (info_word bi 48) (info_word bi 48 + info_word bi 44)); [|done|done|done].
  unfold multiboot_map_bounds, mbi_flags, mbi_mmap_addr, mbi_mmap_length, MULTIBOOT_INFO_MEM_MAP. rewrite (bt_info _ _ T).
  rewrite tables_flags, !tables_word, tables_bit, (bt_flag _ _ T) by lia. simpl negb. cbv iota.
  rewrite wrap_small by word_lia. by replace (_ <? info_word bi 48) with false by lia.
Qed.

Lemma tables_count : bootinfo_module_count bi = modules_told bi.
Proof.
  unfold bootinfo_module_count, mbi_flags, mbi_mods_count, MULTIBOOT_INFO_MODULES, modules_told.
  rewrite tables_multiboot, (bt_info _ _ T), tables_flags, tables_word, tables_bit by lia.
  by destruct (Z.testbit _ 3).
Qed.

Lemma tables_module i : 0 <= i < modules_told bi ->
  let e := module_entry bi i in let str := read_u32 bi.(phys_mem) (e + 8) in
  bootinfo_module_at i bi = Done (Some (mk_module (read_u32 bi.(phys_mem) e) (read_u32 bi.(phys_mem) (e + 4))
    (if str =? 0 then None else Some (0xC0000000 + str)))) bi.
Proof.
  intros Hi e str. pose proof (bt_table _ _ T ltac:(lia)) as H1. pose proof (bt_strings _ _ T i Hi) as H2. unfold bootinfo_module_at, paging_phys_to_virt. run.
  rewrite tables_count. replace (modules_told bi <=? i) with false by lia. run. rewrite (bt_info _ _ T). simpl. run.
  unfold mbi_mods_addr. rewrite tables_word. unfold KERNEL_DIRECT_MAP_LIMIT_PHYS. replace (0x10000000 <=? info_word bi 24) with false by lia. run.
  pose proof (read_u32_fits (phys_mem bi) (bi.(info_phys) + 24)) as Hw. fold (info_word bi 24) in Hw. unfold fits in Hw.
  unfold KERNEL_VMA, sizeof_multiboot_module_t. rewrite wrap_small by word_lia. unfold virt_u32, KERNEL_VMA.
  replace (0xC0000000 + info_word bi 24 + 16 * i - 0xC0000000) with e by (unfold e, module_entry; lia).
  replace (0xC0000000 + info_word bi 24 + 16 * i + 4 - 0xC0000000) with (e + 4) by (unfold e, module_entry; lia).
  replace (0xC0000000 + info_word bi 24 + 16 * i + 8 - 0xC0000000) with (e + 8) by (unfold e, module_entry; lia).
  fold str. destruct (str =? 0); [done|]. run. replace (0x10000000 <=? str) with false by (unfold str, e; lia). run.
  pose proof (read_u32_fits (phys_mem bi) (e + 8)) as Hs. fold str in Hs. unfold fits in Hs. rewrite wrap_small by (unfold str, e in *; word_lia). done.
Qed.

Lemma overlaps_iff base len g : 0 < len ->
  overlaps base len g = true <-> exists a, g * 4096 <= a < (g + 1) * 4096 /\ base <= a < base + len.
Proof.
  intros Hl. unfold overlaps, PAGE_SIZE. split.
  - intros H. exists (Z.max base (g * 4096)). lia.
  - intros (a & H). lia.
Qed.

Lemma any_module_iff g :
  any_module bi (modules_told bi) g = true <-> exists i, 0 <= i < modules_told bi /\ module_frames bi i g = true.
Proof.
  unfold any_module. rewrite bool_decide_eq_true, Exists_exists. split.
  - intros (i & Hi & H). exists i. apply list_elem_of_In, elem_of_seqZ in Hi. split; [lia|done].
  - intros (i & Hi & H). exists i. split; [apply list_elem_of_In, elem_of_seqZ; lia|done].
Qed.

Lemma module_frames_iff i g : 0 <= i < modules_told bi ->
  module_frames bi i g = true <-> exists a, g * 4096 <= a < (g + 1) * 4096 /\
    (read_u32 bi.(phys_mem) (module_entry bi i) <= a < read_u32 bi.(phys_mem) (module_entry bi i + 4) \/
     read_u32 bi.(phys_mem) (module_entry bi i + 8) <> 0 /\
     read_u32 bi.(phys_mem) (module_entry bi i + 8) <= a < read_u32 bi.(phys_mem) (module_entry bi i + 8) + 128).
Proof.
  intros Hi. unfold module_frames. rewrite (tables_module i Hi). cbn [mod_start mod_end mod_string].
  set (s := read_u32 _ (module_entry bi i)). set (e := read_u32 _ (module_entry bi i + 4)). set (str := read_u32 _ (module_entry bi i + 8)).
  rewrite orb_true_iff, andb_true_iff. split.
  - intros [[Hlt H]|H].
    + apply overlaps_iff in H as (a & Ha & H); [|lia]. exists a. split; [done|]. left. lia.
    + destruct (Z.eqb_spec str 0); [done|]. cbn [string_frames] in H. apply overlaps_iff in H as (a & Ha & H); [|lia].
      exists a. split; [done|]. right. unfold KERNEL_VMA in H. split; [done|lia].
  - intros (a & Ha & [H|[Hn H]]).
    + left. split; [lia|]. apply overlaps_iff; [lia|]. exists a. lia.
    + right. replace (str =? 0) with false by lia. cbn [string_frames]. apply overlaps_iff; [lia|]. exists a. unfold KERNEL_VMA. lia.
Qed.

(** [boot_reserved] with the words of the structure. *)
Lemma boot_reserved_words kernel_start kernel_end g :
  0 <= kernel_end -> kernel_end + 4096 <= 2 ^ 32 -> 0 <= top_address regions <= 0xFFFFF000 ->
  fold_left raise_highest regions 0 = top_address regions ->
  boot_reserved kernel_start kernel_end bi regions g =
    overlaps 0 0x100000 g || overlaps kernel_start (kernel_end - kernel_start) g ||
    overlaps (bitmap_start kernel_end) (bitmap_size (pages_for (top_address regions))) g ||
    negb (info_phys bi =? 0) && overlaps (info_phys bi) 88 g || overlaps (info_word bi 48) (info_word bi 44) g ||
    negb (modules_told bi =? 0) && negb (info_word bi 24 =? 0) && overlaps (info_word bi 24) (16 * modules_told bi) g ||
    any_module bi (modules_told bi) g.
Proof.
  intros Hk0 Hk Htop Hfold.
  assert (Hpages : forall x, 0 <= x -> x + 4096 <= 2 ^ 32 -> align_up_u32 x PAGE_SIZE = pages_for x * 4096).
  { intros x H1 H2. rewrite align_up_u32_page by done. unfold pages_for, PAGE_SIZE. do 2 f_equal. lia. }
  assert (Hpf : 0 <= pages_for (top_address regions) < 2 ^ 20).
  { unfold pages_for. split; [apply Z.div_pos; lia|apply Z.div_lt_upper_bound; lia]. }
  assert (Hp8 : 0 <= (pages_for (top_address regions) + 7) / 8 <= 2 ^ 20) by (split; [apply Z.div_pos; lia|apply Z.div_le_upper_bound; lia]).
  pose proof (read_u32_fits (phys_mem bi) (info_phys bi + 24)) as Hw. fold (info_word bi 24) in Hw. unfold fits in Hw.
  assert (Hmt : 0 <= modules_told bi) by (unfold modules_told; destruct (Z.testbit _ _); [apply read_u32_fits|done]).
  unfold boot_reserved. rewrite tables_count. f_equal. f_equal; [f_equal; [f_equal; [f_equal|]|]|].
  - rewrite Hfold, (Hpages kernel_end), (Hpages (top_address regions)) by lia.
    assert (pages_for (top_address regions) * 4096 / PAGE_SIZE = pages_for (top_address regions)) as -> by (by apply Z.div_mul).
    rewrite (wrap_small 32 (pages_for _ + 7)) by word_lia. by rewrite Hpages by lia.
  - unfold bootinfo_info_phys, bootinfo_info_size_hint. rewrite tables_multiboot. by rewrite andb_true_r.
  - unfold bootinfo_memory_map_phys, bootinfo_memory_map_size, mbi_mmap_addr, mbi_mmap_length. by rewrite tables_has_map, (bt_info _ _ T), !tables_word.
  - unfold bootinfo_module_table_phys, bootinfo_module_table_size, sizeof_multiboot_module_t, mbi_mods_addr.
    rewrite tables_count, (bt_info _ _ T), tables_word. destruct (Z.eqb_spec (modules_told bi) 0) as [E|E]; [done|].
    pose proof (bt_table _ _ T ltac:(lia)). rewrite wrap_small by word_lia. rewrite (Z.mul_comm (modules_told bi)).
    destruct (Z.eqb_spec (16 * modules_told bi) 0); [lia|]. cbn [negb]. by rewrite andb_true_r.
Qed.

Lemma bitmap_size_pos total : 0 < total -> 0 < bitmap_size total.
Proof.
  intros H. unfold bitmap_size, pages_for. assert (0 < (total + 7) / 8) by (apply Z.div_str_pos; lia).
  assert (0 < ((total + 7) / 8 + 4095) / 4096) by (apply Z.div_str_pos; lia). lia.
Qed.

(** The frames that are reserved are those that hold a kept byte. *)
Lemma reserved_bytes kernel_start kernel_end g :
  0 <= kernel_start < kernel_end -> kernel_end + 4096 <= 2 ^ 32 -> 0 < top_address regions <= 0xFFFFF000 ->
  fold_left raise_highest regions 0 = top_address regions ->
  boot_reserved kernel_start kernel_end bi regions g = true <->
  exists a, g * 4096 <= a < (g + 1) * 4096 /\ kept_byte kernel_start kernel_end (pages_for (top_address regions)) bi a.
Proof.
  intros Hk0 Hk Htop Hfold. rewrite boot_reserved_words by (done || lia).
  assert (Hbs : 0 < bitmap_size (pages_for (top_address regions))) by (apply bitmap_size_pos, Z.div_str_pos; lia).
  destruct (bt_map _ _ T) as (Hm1 & Hm2 & _).
  assert (Hmt : 0 <= modules_told bi) by (unfold modules_told; destruct (Z.testbit _ _); [apply read_u32_fits|done]).
  rewrite !orb_true_iff, !andb_true_iff, any_module_iff, !negb_true_iff, !Z.eqb_neq.
  split.
  - intros [[[[[[H|H]|H]|[Hn H]]|H]|[[Hn1 Hn2] H]]|(i & Hi & H)].
    + apply overlaps_iff in H as (a & Ha & H); [|lia]. exists a. split; [done|]. by apply kept_low.
    + apply overlaps_iff in H as (a & Ha & H); [|lia]. exists a. split; [done|]. apply kept_image. lia.
    + apply overlaps_iff in H as (a & Ha & H); [|lia]. exists a. split; [done|]. by apply kept_bitmap.
    + apply overlaps_iff in H as (a & Ha & H); [|lia]. exists a. split; [done|]. by apply kept_info.
    + apply overlaps_iff in H as (a & Ha & H); [|lia]. exists a. split; [done|]. by apply kept_map.
    + apply overlaps_iff in H as (a & Ha & H); [|lia]. exists a. split; [done|]. by apply kept_table.
    + apply (module_frames_iff i g Hi) in H as (a & Ha & [H|[Hn H]]); exists a; (split; [done|]).
      * by apply (kept_module _ _ _ _ _ i).
      * by apply (kept_string _ _ _ _ _ i).
  - intros (a & Ha & [H|H|H|H|H|Hn H|i Hi H|i Hi Hn H]).
    + do 6 left. apply overlaps_iff; [lia|]. by exists a.
    + do 5 left. right. apply overlaps_iff; [lia|]. exists a. lia.
    + do 4 left. right. apply overlaps_iff; [lia|]. by exists a.
    + destruct (Z.eq_dec (info_phys bi) 0) as [E|E].
      * do 6 left. apply overlaps_iff; [lia|]. exists a. lia.
      * do 3 left. right. split; [done|]. apply overlaps_iff; [lia|]. by exists a.
    + do 2 left. right. apply overlaps_iff; [lia|]. by exists a.
    + left. right. split; [split; [lia|done]|]. apply overlaps_iff; [lia|]. by exists a.
    + right. exists i. split; [done|]. apply module_frames_iff; [done|]. exists a. split; [done|]. by left.
    + right. exists i. split; [done|]. apply module_frames_iff; [done|]. exists a. split; [done|]. by right.
Qed.
End Tables.

(** All steps of [pmm_init]. *)
Lemma pmm_init_exact kernel_start kernel_end bi regions s :
  let total := pages_for (top_address regions) in
  multiboot_tables bi regions -> top_address regions <> 0 ->
  0 <= kernel_start < kernel_end -> bitmap_start kernel_end + bitmap_size total < 0x400000 ->
  length s.(numa_nodes) = 8%nat -> fits 32 s.(eflags) ->
  wp (pmm_init kernel_start kernel_end bi) (fun _ s' =>
    pmm_ready s' /\ s'.(initialized) = true /\ s'.(total_frames) = total /\
    forall g, 0 <= g < total -> frame_used s' g = false <->
      Exists (fun r => available_frame r g) regions /\
      forall a, g * 4096 <= a < (g + 1) * 4096 -> ~ kept_byte kernel_start kernel_end total bi a) s.
Proof.
  intros total T Htop Hk Hw Hn He. pose proof (tables_regions bi regions T) as Hreg.
  pose proof (memory_regions_fit bi regions Hreg) as Hfit. pose proof (top_address_raise regions Hfit) as Hraise.
  pose proof (highest_bound regions 0 Hfit ltac:(by vm_compute)) as Hh. rewrite Hraise in Hh. unfold PMM_PHYS_CAP in Hh.
  assert (Hpf : 0 <= total < 2 ^ 20).
  { unfold total, pages_for. split; [apply Z.div_pos; lia|apply Z.div_lt_upper_bound; lia]. }
  assert (Hb : 0 <= (total + 7) / 8 <= 2 ^ 20) by (split; [apply Z.div_pos; lia|apply Z.div_le_upper_bound; lia]).
  assert (Hsz : 0 <= bitmap_size total) by (unfold bitmap_size, pages_for; pose proof (Z.div_pos ((total + 7) / 8 + 4095) 4096); lia).
  assert (Hke : kernel_end <= bitmap_start kernel_end).
  { unfold bitmap_start, pages_for. pose proof (Z.div_mod (kernel_end + 4095) 4096 ltac:(lia)). pose proof (Z.mod_pos_bound (kernel_end + 4095) 4096 ltac:(lia)). lia. }
  assert (Hpages : forall x, 0 <= x -> x + 4096 <= 2 ^ 32 -> align_up_u32 x PAGE_SIZE = pages_for x * 4096).
  { intros x H1 H2. rewrite align_up_u32_page by done. unfold pages_for, PAGE_SIZE. do 2 f_equal. lia. }
  eapply wp_mono; [apply (pmm_init_spec kernel_start kernel_end bi regions); try done|].
  - lia.
  - rewrite Hraise, (Hpages kernel_end), (Hpages (top_address regions)) by lia. fold total.
    assert (total * 4096 / PAGE_SIZE = total) as -> by (by apply Z.div_mul).
    rewrite (wrap_small 32 (total + 7)) by word_lia. rewrite Hpages by lia. exact Hw.
  - unfold PAGE_SIZE. lia.
  - by apply (tables_has_map bi regions).
  - by rewrite Hraise.
  - intros i Hi. rewrite (tables_count bi regions T) in Hi. eexists. by apply (tables_module bi regions T).
  - apply T.
  - intros _ s' (R & Hi & Ht & Hf). rewrite Hraise in Ht.
    assert (Ht' : total_frames s' = total) by (rewrite Ht; unfold total, pages_for, PAGE_SIZE; f_equal; lia).
    split; [done|]. split; [done|]. split; [done|]. intros g Hg. rewrite Hf by lia.
    pose proof (reserved_bytes bi regions T kernel_start kernel_end g Hk ltac:(lia) ltac:(lia) Hraise) as Hr. fold total in Hr.
    destruct (boot_reserved _ _ _ _ g); split; intros [Hav Hx]; (split; [exact Hav|]); [done| |intros a Ha Hka|done].
    + destruct Hr as [Hr _]. destruct (Hr eq_refl) as (a & Ha & Hka). by destruct (Hx a Ha).
    + destruct Hr as [_ Hr]. by discriminate Hr; exists a.
Qed.

(** C19: [pmm_init] succeeds on every well-formed memory map of a Multiboot loader
    whose bitmap fits the first 4 MiB.  It ends initialized with the invariant
    established and the managed frames covering the highest address of the map; the
    frames it leaves free are exactly those that end in an available region and of
    which no byte belongs to the first megabyte, the kernel image, the frame bitmap,
    the boot information structure, the memory map, the module table, a module or a
    module's string.  The boot loader's data is read as it was left: the bitmap,
    which is kept apart from memory here, is assumed not to be laid over it. *)
Theorem pmm_init_correct kernel_start kernel_end bi regions s :
  let total := pages_for (top_address regions) in
  multiboot_tables bi regions -> top_address regions <> 0 ->
  0 <= kernel_start < kernel_end -> bitmap_start kernel_end + bitmap_size total < 0x400000 ->
  length s.(numa_nodes) = 8%nat -> fits 32 s.(eflags) ->
  wp (pmm_init kernel_start kernel_end bi) (fun _ s' =>
    pmm_ready s' /\ s'.(initialized) = true /\ s'.(total_frames) = total /\
    forall g, 0 <= g < total -> frame_used s' g = false <->
      Exists (fun r => available_frame r g) regions /\
      forall a, g * 4096 <= a < (g + 1) * 4096 -> ~ kept_byte kernel_start kernel_end total bi a) s.
Proof. exact (pmm_init_exact kernel_start kernel_end bi regions s). Qed.

Definition empty_node : pmm_numa_node := mk_node 0 0 0 0.
(** The static variables as they are before [pmm_init]. *)
Definition cold_pmm : pmm :=
  mk_pmm None 0 0 0 0 false 0 (replicate 8 empty_node) 1 0 0 0x202.

(** A boot loader that left one module at 0x180000, with a string at 0x700: the
    structure at 0x500, the map at 0x600 and the module table at 0x680. *)
Definition module_memory : memory := fun a =>
  if a =? 0x500 then 0x48
  else if a =? 0x514 then 1 else if a =? 0x518 then 0x80 else if a =? 0x519 then 0x06
  else if a =? 0x682 then 0x18 else if a =? 0x685 then 0x10 else if a =? 0x686 then 0x18
  else if a =? 0x689 then 0x07
  else sample_memory a.
Definition module_boot : bootinfo :=
  mk_bootinfo BOOTINFO_LOADER_MULTIBOOT1 0x500 (Some (KERNEL_VMA + 0x500)) module_memory.

Lemma module_boot_tables : multiboot_tables module_boot sample_regions.
Proof.
  split; [reflexivity|reflexivity|by vm_compute|by vm_compute| |by vm_compute|].
  - split; [by vm_compute|]. split; [by vm_compute|]. split; [by vm_compute|]. apply map_at_cons; try (vm_compute; congruence).
    replace (info_word module_boot 48 + _) with (info_word module_boot 48 + info_word module_boot 44) by (vm_compute; reflexivity). apply map_at_nil.
  - intros i Hi. change (modules_told module_boot) with 1 in Hi. assert (i = 0) as -> by lia. by vm_compute.
Qed.

Lemma pmm_init_correct_witness :
  wp (pmm_init 0x100000 0x110000 module_boot) (fun _ s' =>
      pmm_ready s' /\ s'.(initialized) = true /\ s'.(total_frames) = 512 /\
      forall g, 0 <= g < 512 -> frame_used s' g = false <->
        Exists (fun r => available_frame r g) sample_regions /\
        forall a, g * 4096 <= a < (g + 1) * 4096 -> ~ kept_byte 0x100000 0x110000 512 module_boot a) cold_pmm.
Proof.
  apply (pmm_init_correct 0x100000 0x110000 module_boot sample_regions cold_pmm module_boot_tables).
  - by vm_compute.
  - lia.
  - by vm_compute.
  - reflexivity.
  - by vm_compute.
Defined.
