(* ===== verification/Vma.v ===== *)
(** Virtual memory areas: kernel/kernel/vma.c.

    A process's mappings are an AVL tree of disjoint address intervals whose
    nodes come from one static pool shared by every tree.  A tree node carries
    the index of its pool slot; the pool keeps the slots that are free, in the
    order of its linked list. *)
From S2P Require Import Prelude.
From Stdlib Require Import ZArith Lia.
Open Scope Z_scope.

Definition VMA_MAX_NODES : Z := 2048.

(** vma_node_t; NULL is [Null]. *)
Inductive vma_node : Type :=
| Null
| Node (slot : Z) (start end_ flags : Z) (height : Z) (left right : vma_node).

(** node_pool and free_nodes: the free list, head first. *)
Record vma_pool : Type := mk_pool {
  free_nodes : list Z;
  pool_initialized : bool
}.

Record vma_tree : Type := mk_tree {
  root : vma_node;
  node_count : Z
}.

Record gap_search_state : Type := mk_gap {
  cursor : Z;
  max_addr : Z;
  gap_length : Z;
  alignment : Z;
  result : Z;
  found : bool
}.

Definition max_i32 (a b : Z) : Z := if b <? a then a else b.

(** The conversion to [int8_t]. *)
Definition to_i8 (x : Z) : Z := (x + 128) mod 256 - 128.

Definition align_up_u32 (value alignment : Z) : Z :=
  if alignment <=? 1 then value
  else
    let aligned := Z.land (u64 (value + alignment - 1)) (u64 (Z.lnot (alignment - 1))) in
    if 0xFFFFFFFF <? aligned then 0 else u32 aligned.

Definition add_fits_limit (start length limit : Z) : bool :=
  let end_ := u64 (start + length) in
  end_ <=? limit.

(** ** The node pool *)

Definition node_pool_init : M vma_pool unit :=
  p <- gets id ;;
  if p.(pool_initialized) then ret tt
  else
    modify (fun p => mk_pool [] p.(pool_initialized)) ;;;
    for_each 0 VMA_MAX_NODES (fun i =>
      modify (fun p => mk_pool (i :: p.(free_nodes)) p.(pool_initialized))) ;;;
    modify (fun p => mk_pool p.(free_nodes) true).

Definition node_alloc (start end_ flags : Z) : M vma_pool vma_node :=
  node_pool_init ;;;
  p <- gets id ;;
  match p.(free_nodes) with
  | [] => ret Null
  | node :: rest =>
      modify (fun p => mk_pool rest p.(pool_initialized)) ;;;
      ret (Node node start end_ flags 1 Null Null)
  end.

(** [node_free] links the slot of the node in front of the free list. *)
Definition node_free (node : vma_node) : M vma_pool unit :=
  match node with
  | Null => fault
  | Node slot _ _ _ _ _ _ =>
      modify (fun p => mk_pool (slot :: p.(free_nodes)) p.(pool_initialized))
  end.

(** ** Balancing *)

Definition node_height (node : vma_node) : Z :=
  match node with Null => 0 | Node _ _ _ _ h _ _ => h end.

Definition node_refresh_height (node : vma_node) : vma_node :=
  match node with
  | Null => Null
  | Node slot s e f _ l r => Node slot s e f (to_i8 (1 + max_i32 (node_height l) (node_height r))) l r
  end.

Definition node_balance_factor (node : vma_node) : Z :=
  match node with Null => 0 | Node _ _ _ _ _ l r => node_height l - node_height r end.

(** [None] is the access through a NULL pivot. *)
Definition rotate_right (node : vma_node) : option vma_node :=
  match node with
  | Node slot s e f h (Node pslot ps pe pf ph pl pr) r =>
      let node := node_refresh_height (Node slot s e f h pr r) in
      Some (node_refresh_height (Node pslot ps pe pf ph pl node))
  | _ => None
  end.

Definition rotate_left (node : vma_node) : option vma_node :=
  match node with
  | Node slot s e f h l (Node pslot ps pe pf ph pl pr) =>
      let node := node_refresh_height (Node slot s e f h l pl) in
      Some (node_refresh_height (Node pslot ps pe pf ph node pr))
  | _ => None
  end.

Definition set_left (node left : vma_node) : vma_node :=
  match node with Null => Null | Node slot s e f h _ r => Node slot s e f h left r end.
Definition set_right (node right : vma_node) : vma_node :=
  match node with Null => Null | Node slot s e f h l _ => Node slot s e f h l right end.
Definition left_of (node : vma_node) : vma_node :=
  match node with Null => Null | Node _ _ _ _ _ l _ => l end.
Definition right_of (node : vma_node) : vma_node :=
  match node with Null => Null | Node _ _ _ _ _ _ r => r end.

Definition rebalance (node : vma_node) : option vma_node :=
  let node := node_refresh_height node in
  let balance := node_balance_factor node in
  if 1 <? balance then
    if node_balance_factor (left_of node) <? 0 then
      l ← rotate_left (left_of node); rotate_right (set_left node l)
    else rotate_right node
  else if balance <? -1 then
    if 0 <? node_balance_factor (right_of node) then
      r ← rotate_right (right_of node); rotate_left (set_right node r)
    else rotate_left node
  else Some node.

(** ** Insertion and removal *)

(** The result is the new root and [*inserted]. *)
Fixpoint node_insert (root node : vma_node) : option (vma_node * bool) :=
  match root, node with
  | Null, _ => Some (node, true)
  | _, Null => None
  | Node rslot rs re rf rh l r, Node _ ns ne _ _ _ _ =>
      if ne <=? rs then
        '(l', inserted) ← node_insert l node;
        if inserted : bool then t ← rebalance (Node rslot rs re rf rh l' r); Some (t, true)
        else Some (Node rslot rs re rf rh l' r, false)
      else if re <=? ns then
        '(r', inserted) ← node_insert r node;
        if inserted : bool then t ← rebalance (Node rslot rs re rf rh l r'); Some (t, true)
        else Some (Node rslot rs re rf rh l r', false)
      else Some (root, false)
  end.

Fixpoint node_leftmost (node : vma_node) : vma_node :=
  match node with
  | Null => Null
  | Node _ _ _ _ _ l _ => match l with Null => node | _ => node_leftmost l end
  end.

(** [*removed] is threaded as an argument, since one branch leaves it alone.  In
    the two-children case the node keeps its slot and takes the successor's
    interval, and the successor's slot is freed by the recursive call. *)
Fixpoint node_remove (root : vma_node) (start end_ : Z) (removed : bool)
    : M vma_pool (vma_node * bool) :=
  match root with
  | Null => ret (Null, removed)
  | Node slot rs re rf h l r =>
      if start <? rs then
        res <- node_remove l start end_ removed ;;
        t <- of_option (rebalance (Node slot rs re rf h (fst res) r)) ;;
        ret (t, snd res)
      else if rs <? start then
        res <- node_remove r start end_ removed ;;
        t <- of_option (rebalance (Node slot rs re rf h l (fst res))) ;;
        ret (t, snd res)
      else if negb (re =? end_) then ret (root, false)
      else
        match l, r with
        | Node _ _ _ _ _ _ _, Node _ _ _ _ _ _ _ =>
            match node_leftmost r with
            | Null => fault
            | Node _ ss se sf _ _ _ =>
                res <- node_remove r ss se false ;;
                t <- of_option (rebalance (Node slot ss se sf h l (fst res))) ;;
                ret (t, true)
            end
        | Node _ _ _ _ _ _ _, Null => node_free root ;;; ret (l, true)
        | Null, _ => node_free root ;;; ret (r, true)
        end
  end.

Fixpoint node_release_subtree (node : vma_node) : M vma_pool unit :=
  match node with
  | Null => ret tt
  | Node _ _ _ _ _ l r =>
      node_release_subtree l ;;;
      node_release_subtree r ;;;
      node_free node
  end.

(** ** Gap search *)

Fixpoint gap_search_in_order (node : vma_node) (state : gap_search_state) : gap_search_state :=
  match node with
  | Null => state
  | Node _ s e _ _ l r =>
      if state.(found) then state
      else
        let state := gap_search_in_order l state in
        if state.(found) then state
        else
          if state.(cursor) <? e then
            let gap_end := if state.(max_addr) <? s then state.(max_addr) else s in
            if add_fits_limit state.(cursor) state.(gap_length) gap_end then
              mk_gap state.(cursor) state.(max_addr) state.(gap_length) state.(alignment) state.(cursor) true
            else
              let next_cursor := align_up_u32 e state.(alignment) in
              let next_cursor := if next_cursor <? state.(cursor) then state.(max_addr) else next_cursor in
              let c := if state.(max_addr) <? next_cursor then state.(max_addr) else next_cursor in
              gap_search_in_order r
                (mk_gap c state.(max_addr) state.(gap_length) state.(alignment) state.(result) state.(found))
          else gap_search_in_order r state
  end.

(** ** Public operations *)

Definition vma_tree_init : vma_tree := mk_tree Null 0.

Definition vma_tree_clear (tree : vma_tree) : M vma_pool vma_tree :=
  node_release_subtree tree.(root) ;;;
  ret (mk_tree Null 0).

Definition vma_tree_insert (tree : vma_tree) (start end_ flags : Z) : M vma_pool (vma_tree * bool) :=
  if end_ <=? start then ret (tree, false)
  else
    node <- node_alloc start end_ flags ;;
    match node with
    | Null => ret (tree, false)
    | _ =>
        res <- of_option (node_insert tree.(root) node) ;;
        let tree := mk_tree (fst res) tree.(node_count) in
        if negb (snd res) then node_free node ;;; ret (tree, false)
        else ret (mk_tree tree.(root) (u32 (tree.(node_count) + 1)), true)
    end.

Definition vma_tree_remove (tree : vma_tree) (start end_ : Z) : M vma_pool (vma_tree * bool) :=
  res <- node_remove tree.(root) start end_ false ;;
  let removed := snd res in
  ret (mk_tree (fst res) (if removed : bool then u32 (tree.(node_count) - 1) else tree.(node_count)),
       removed).

(** The three out pointers are written together when not NULL; the result holds
    what they receive. *)
Fixpoint node_find (node : vma_node) (address : Z) : option (Z * Z * Z) :=
  match node with
  | Null => None
  | Node _ s e f _ l r =>
      if address <? s then node_find l address
      else if e <=? address then node_find r address
      else Some (s, e, f)
  end.

Definition vma_tree_find (tree : vma_tree) (address : Z) : option (Z * Z * Z) :=
  node_find tree.(root) address.

Definition vma_tree_first (tree : vma_tree) : option (Z * Z * Z) :=
  match node_leftmost tree.(root) with
  | Null => None
  | Node _ s e f _ _ _ => Some (s, e, f)
  end.

Definition vma_tree_find_gap (tree : vma_tree) (min_addr max_addr length alignment : Z) : option Z :=
  if (length =? 0) || (max_addr <=? min_addr) || (alignment =? 0) then None
  else if negb (Z.land alignment (alignment - 1) =? 0) then None
  else
    let start := align_up_u32 min_addr alignment in
    if (start <? min_addr) || (max_addr <=? start) then None
    else
      let state := gap_search_in_order tree.(root) (mk_gap start max_addr length alignment 0 false) in
      if state.(found) then Some state.(result)
      else if add_fits_limit state.(cursor) length max_addr then Some state.(cursor)
      else None.

Definition vma_tree_node_count (tree : vma_tree) : Z := tree.(node_count).
