(* ===== verification/VmaFacts.v ===== *)
(** The VMA tree against its contract: an ordered list of disjoint intervals.
    Balance, height bounds, the interval order and the accounting of pool slots
    are kept by every operation; the lookups and the gap search are exact. *)
From S2P Require Import Prelude Vma.
From Stdlib Require Import ZArith Lia.
From stdpp Require Import sets.
Open Scope Z_scope.

(** ** Views of a tree *)

Fixpoint intervals (t : vma_node) : list (Z * Z * Z) :=
  match t with
  | Null => []
  | Node _ s e f _ l r => intervals l ++ (s, e, f) :: intervals r
  end.

Fixpoint slots (t : vma_node) : list Z :=
  match t with
  | Null => []
  | Node slot _ _ _ _ l r => slot :: slots l ++ slots r
  end.

(** The intervals of [t], left to right, are non-empty, disjoint and inside
    [lo, hi]. *)
Fixpoint bst (lo hi : Z) (t : vma_node) : Prop :=
  match t with
  | Null => lo <= hi
  | Node _ s e _ _ l r => bst lo s l /\ s < e /\ bst e hi r
  end.

(** Stored heights are the real ones and siblings differ by at most one. *)
Fixpoint avl (t : vma_node) : Prop :=
  match t with
  | Null => True
  | Node _ _ _ _ h l r =>
      avl l /\ avl r /\ h = 1 + Z.max (node_height l) (node_height r) /\
      -1 <= node_height l - node_height r <= 1
  end.

Definition tree_size (t : vma_node) : Z := Z.of_nat (length (slots t)).

Lemma avl_height_nonneg t : avl t -> 0 <= node_height t.
Proof. induction t; simpl; [lia|]. intros (?%IHt1 & ?%IHt2 & -> & _). lia. Qed.

Lemma size_node slot s e f h l r : tree_size (Node slot s e f h l r) = 1 + tree_size l + tree_size r.
Proof. unfold tree_size. simpl. rewrite length_app. lia. Qed.

Lemma size_nonneg t : 0 <= tree_size t.
Proof. unfold tree_size. lia. Qed.

(** An AVL tree of height [h] has at least [2 ^ (h / 2) - 1] nodes. *)
Lemma avl_size t : avl t -> 2 ^ (node_height t / 2) <= tree_size t + 1.
Proof.
  induction t as [|slot s e f h l IHl r IHr]; [by vm_compute|].
  intros (Hl & Hr & -> & Hb). simpl node_height. specialize (IHl Hl). specialize (IHr Hr).
  rewrite size_node. pose proof (avl_height_nonneg l Hl). pose proof (avl_height_nonneg r Hr).
  pose proof (size_nonneg l). pose proof (size_nonneg r).
  set (h := 1 + Z.max _ _). destruct (Z.eq_dec h 1) as [->|]; [change (2 ^ (1 / 2)) with 1; lia|].
  assert (h / 2 = (h - 2) / 2 + 1) as Hh
    by (replace h with ((h - 2) + 1 * 2) at 1 by lia; apply Z.div_add; lia).
  rewrite Hh, Z.pow_add_r by (try apply Z.div_pos; lia).
  assert (forall x, h - 2 <= x -> 2 ^ ((h - 2) / 2) <= 2 ^ (x / 2)) as Hm.
  { intros x Hx. apply Z.pow_le_mono_r; [lia|]. apply Z.div_le_mono; lia. }
  pose proof (Hm (node_height l)). pose proof (Hm (node_height r)). lia.
Qed.

(** The pool holds 2048 nodes, so no height comes near the range of [int8_t]. *)
Lemma avl_height_bound t : avl t -> tree_size t <= VMA_MAX_NODES -> node_height t <= 23.
Proof.
  intros Ha Hs. pose proof (avl_size t Ha) as H. unfold VMA_MAX_NODES in Hs.
  destruct (Z.le_gt_cases (node_height t) 23) as [|Hgt]; [done|]. exfalso.
  assert (2 ^ 12 <= 2 ^ (node_height t / 2)); [|change (2 ^ 12) with 4096 in *; lia].
  apply Z.pow_le_mono_r; [lia|]. apply Z.div_le_lower_bound; lia.
Qed.

Lemma to_i8_small x : -128 <= x <= 127 -> to_i8 x = x.
Proof. intros H. unfold to_i8. rewrite Z.mod_small; lia. Qed.

Ltac i8_small :=
  repeat match goal with
  | |- context [to_i8 ?x] =>
      lazymatch x with context [to_i8 _] => fail | _ => rewrite (to_i8_small x) by lia end
  end.

Lemma max_i32_max a b : max_i32 a b = Z.max a b.
Proof. unfold max_i32. destruct (Z.ltb_spec b a); lia. Qed.

Lemma refresh_node slot s e f h l r :
  0 <= node_height l <= 100 -> 0 <= node_height r <= 100 ->
  node_refresh_height (Node slot s e f h l r) =
  Node slot s e f (1 + Z.max (node_height l) (node_height r)) l r.
Proof. intros H1 H2. simpl. by rewrite max_i32_max, to_i8_small by lia. Qed.

(** ** Same contents *)

(** Rotations reorder the nodes but keep what the tree says. *)
Record same_tree (t t' : vma_node) : Prop := {
  st_intervals : intervals t' = intervals t;
  st_slots : slots t' ≡ₚ slots t;
  st_bst : forall lo hi, bst lo hi t -> bst lo hi t'
}.

#[export] Instance same_tree_preorder : PreOrder same_tree.
Proof.
  split; [by intros t; split|]. intros t1 t2 t3 [] []. split; [congruence| |auto]. by etransitivity.
Qed.

Lemma refresh_same t : same_tree t (node_refresh_height t).
Proof. by destruct t. Qed.

Lemma rotate_right_same t t' : rotate_right t = Some t' -> same_tree t t'.
Proof.
  destruct t as [|slot s e f h [|ps pst pe pf ph pl pr] r]; try done. intros [= <-]. split; simpl.
  - by rewrite <- app_assoc.
  - rewrite <- !app_assoc. solve_Permutation.
  - intros lo hi. tauto.
Qed.

Lemma rotate_left_same t t' : rotate_left t = Some t' -> same_tree t t'.
Proof.
  destruct t as [|slot s e f h l [|ps pst pe pf ph pl pr]]; try done. intros [= <-]. split; simpl.
  - by rewrite <- app_assoc.
  - rewrite <- ?app_assoc. solve_Permutation.
  - intros lo hi. tauto.
Qed.

Lemma set_left_same t l : same_tree (left_of t) l -> same_tree t (set_left t l).
Proof.
  destruct t as [|slot s e f h l0 r]; [done|]. simpl. intros [He Hs Hb]. split; simpl.
  - by rewrite He.
  - by rewrite Hs.
  - intros lo hi (H1 & H2 & H3). auto.
Qed.

Lemma set_right_same t r : same_tree (right_of t) r -> same_tree t (set_right t r).
Proof.
  destruct t as [|slot s e f h l r0]; [done|]. simpl. intros [He Hs Hb]. split; simpl.
  - by rewrite He.
  - by rewrite Hs.
  - intros lo hi (H1 & H2 & H3). auto.
Qed.

Lemma rebalance_same t t' : rebalance t = Some t' -> same_tree t t'.
Proof.
  unfold rebalance. intros H. etransitivity; [apply refresh_same|].
  set (t1 := node_refresh_height t) in *. clearbody t1.
  destruct (1 <? _); [destruct (_ <? 0)|destruct (_ <? -1); [destruct (0 <? _)|]].
  - destruct (rotate_left (left_of t1)) as [l|] eqn:El; [|done]. simpl in H.
    etransitivity; [apply set_left_same; by eapply rotate_left_same|by apply rotate_right_same].
  - by apply rotate_right_same.
  - destruct (rotate_right (right_of t1)) as [r|] eqn:Er; [|done]. simpl in H.
    etransitivity; [apply set_right_same; by eapply rotate_right_same|by apply rotate_left_same].
  - by apply rotate_left_same.
  - by injection H as <-.
Qed.

(** Rebalancing two AVL subtrees whose heights differ by at most two never
    dereferences NULL and gives an AVL tree, at most one level lower than the
    unbalanced one. *)
Lemma rebalance_avl slot s e f h l r :
  avl l -> avl r -> node_height l <= 100 -> node_height r <= 100 ->
  -2 <= node_height l - node_height r <= 2 ->
  exists t, rebalance (Node slot s e f h l r) = Some t /\ avl t /\
    let m := Z.max (node_height l) (node_height r) in
    (if bool_decide (-1 <= node_height l - node_height r <= 1)
     then t = Node slot s e f (1 + m) l r else m <= node_height t <= 1 + m).
Proof.
  intros Hl Hr Hlb Hrb Hd. pose proof (avl_height_nonneg l Hl). pose proof (avl_height_nonneg r Hr).
  unfold rebalance. rewrite refresh_node by lia. simpl node_balance_factor.
  destruct (Z.ltb_spec 1 (node_height l - node_height r)).
  - rewrite bool_decide_false by lia.
    destruct l as [|ls lst le lf lh ll lr]; [simpl in *; lia|]. destruct Hl as (Hll & Hlr & Hlh & Hlbal).
    pose proof (avl_height_nonneg ll Hll). pose proof (avl_height_nonneg lr Hlr). simpl in *.
    destruct (Z.ltb_spec (node_height ll - node_height lr) 0).
    + destruct lr as [|m1 m2 m3 m4 mh ml mr]; [simpl in *; lia|]. destruct Hlr as (Hml & Hmr & Hmh & Hmb).
      pose proof (avl_height_nonneg ml Hml). pose proof (avl_height_nonneg mr Hmr). simpl in *.
      eexists. split; [reflexivity|]. rewrite !max_i32_max.
      i8_small.
      simpl; repeat split; try done; lia.
    + eexists. split; [reflexivity|]. rewrite !max_i32_max.
      i8_small.
      simpl; repeat split; try done; lia.
  - destruct (Z.ltb_spec (node_height l - node_height r) (-1)).
    + rewrite bool_decide_false by lia.
      destruct r as [|ls lst le lf lh ll lr]; [simpl in *; lia|]. destruct Hr as (Hll & Hlr & Hlh & Hlbal).
      pose proof (avl_height_nonneg ll Hll). pose proof (avl_height_nonneg lr Hlr). simpl in *.
      destruct (Z.ltb_spec 0 (node_height ll - node_height lr)).
      * destruct ll as [|m1 m2 m3 m4 mh ml mr]; [simpl in *; lia|]. destruct Hll as (Hml & Hmr & Hmh & Hmb).
        pose proof (avl_height_nonneg ml Hml). pose proof (avl_height_nonneg mr Hmr). simpl in *.
        eexists. split; [reflexivity|]. rewrite !max_i32_max.
        i8_small.
        simpl; repeat split; try done; lia.
      * eexists. split; [reflexivity|]. rewrite !max_i32_max.
        i8_small.
        simpl; repeat split; try done; lia.
    + rewrite bool_decide_true by lia. eexists. split; [reflexivity|]. split; [|done].
      simpl. repeat split; try done; lia.
Qed.

(** ** Order *)

Lemma bst_le lo hi t : bst lo hi t -> lo <= hi.
Proof. revert lo hi. induction t; simpl; intros lo hi; [done|]. intros (?%IHt1 & ? & ?%IHt2). lia. Qed.

Lemma bst_bounds lo hi t s e f :
  bst lo hi t -> (s, e, f) ∈ intervals t -> lo <= s /\ s < e /\ e <= hi.
Proof.
  revert lo hi. induction t as [|slot ts te tf h l IHl r IHr]; simpl; intros lo hi.
  { intros _ H. by apply not_elem_of_nil in H. }
  intros (Hl & Hse & Hr) H. pose proof (bst_le _ _ _ Hl). pose proof (bst_le _ _ _ Hr).
  apply elem_of_app in H as [H|H]; [specialize (IHl _ _ Hl H); lia|].
  apply elem_of_cons in H as [[= -> -> ->]|H]; [lia|]. specialize (IHr _ _ Hr H). lia.
Qed.

Definition disjoint_from (s e : Z) (i : Z * Z * Z) : Prop := e <= i.1.1 \/ i.1.2 <= s.

Lemma in_left lo hi slot s e f h l r i :
  bst lo hi (Node slot s e f h l r) -> i ∈ intervals l -> i.1.2 <= s.
Proof. intros (Hl & _) Hi. destruct i as [[a b] c]. apply (bst_bounds _ _ _ _ _ _ Hl) in Hi. simpl. lia. Qed.

Lemma in_right lo hi slot s e f h l r i :
  bst lo hi (Node slot s e f h l r) -> i ∈ intervals r -> e <= i.1.1.
Proof. intros (_ & _ & Hr) Hi. destruct i as [[a b] c]. apply (bst_bounds _ _ _ _ _ _ Hr) in Hi. simpl. lia. Qed.

(** ** Insertion *)

Definition insert_post (slot ns ne nf lo hi : Z) (t t' : vma_node) (b : bool) : Prop :=
  if b then
    (forall i, i ∈ intervals t -> disjoint_from ns ne i) /\ avl t' /\ bst lo hi t' /\
    slots t' ≡ₚ slot :: slots t /\
    (exists l1 l2, intervals t = l1 ++ l2 /\ intervals t' = l1 ++ (ns, ne, nf) :: l2) /\
    node_height t <= node_height t' <= node_height t + 1
  else t' = t /\ exists i, i ∈ intervals t /\ ~ disjoint_from ns ne i.

Lemma node_insert_spec slot ns ne nf t : forall lo hi,
  avl t -> bst lo hi t -> lo <= ns -> ns < ne -> ne <= hi -> node_height t <= 100 ->
  exists t' b, node_insert t (Node slot ns ne nf 1 Null Null) = Some (t', b) /\
    insert_post slot ns ne nf lo hi t t' b.
Proof.
  induction t as [|rslot rs re rf rh l IHl r IHr]; intros lo hi Ha Hb Hlo Hlt Hhi Hh.
  { eexists _, true. split; [reflexivity|]. split; [intros i Hi; by apply not_elem_of_nil in Hi|].
    simpl. split; [done|]. split; [done|]. split; [done|]. split; [by exists [], []|lia]. }
  pose proof Ha as (Hal & Har & Hrh & Hbal). pose proof Hb as (Hbl & Hse & Hbr).
  pose proof (avl_height_nonneg l Hal). pose proof (avl_height_nonneg r Har). simpl in Hh.
  cbn [node_insert]. destruct (Z.leb_spec ne rs) as [Hc|Hc]; [|destruct (Z.leb_spec re ns) as [Hc2|Hc2]].
  - destruct (IHl lo rs) as (l' & b & Heq & Hpost); [done|done|lia..|].
    rewrite Heq. simpl. destruct b.
    2: { destruct Hpost as [-> (i & Hi & Hd)]. eexists _, false. split; [reflexivity|].
         split; [done|]. exists i. split; [simpl; set_solver|done]. }
    destruct Hpost as (Hdis & Ha' & Hb' & Hs' & (l1 & l2 & E1 & E2) & Hh').
    destruct (rebalance_avl rslot rs re rf rh l' r) as (t' & Ht' & Hat' & Hbd); [done|done|lia..|].
    rewrite Ht'. simpl. eexists t', true. split; [reflexivity|].
    pose proof (rebalance_same _ _ Ht') as [Ee Es Eb]. split.
    { intros i [Hi|[->|Hi]%elem_of_cons]%elem_of_app; [by apply Hdis|left; simpl; lia|].
      left. apply (in_right _ _ _ _ _ _ _ _ _ _ Hb) in Hi. lia. }
    split; [done|]. split; [apply Eb; simpl; done|].
    split. { rewrite Es. simpl. rewrite Hs'. solve_Permutation. }
    split. { exists l1, (l2 ++ (rs, re, rf) :: intervals r). rewrite Ee. simpl. rewrite E1, E2. by rewrite <- !app_assoc. }
    cbv zeta in Hbd. simpl. destruct (bool_decide_reflect (-1 <= node_height l' - node_height r <= 1)); [subst t'; simpl; lia|lia].
  - destruct (IHr re hi) as (r' & b & Heq & Hpost); [done|done|lia..|].
    rewrite Heq. simpl. destruct b.
    2: { destruct Hpost as [-> (i & Hi & Hd)]. eexists _, false. split; [reflexivity|].
         split; [done|]. exists i. split; [simpl; set_solver|done]. }
    destruct Hpost as (Hdis & Ha' & Hb' & Hs' & (l1 & l2 & E1 & E2) & Hh').
    destruct (rebalance_avl rslot rs re rf rh l r') as (t' & Ht' & Hat' & Hbd); [done|done|lia..|].
    rewrite Ht'. simpl. eexists t', true. split; [reflexivity|].
    pose proof (rebalance_same _ _ Ht') as [Ee Es Eb]. split.
    { intros i [Hi|[->|Hi]%elem_of_cons]%elem_of_app; [|right; simpl; lia|by apply Hdis].
      right. apply (in_left _ _ _ _ _ _ _ _ _ _ Hb) in Hi. lia. }
    split; [done|]. split; [apply Eb; simpl; done|].
    split. { rewrite Es. simpl. rewrite Hs'. solve_Permutation. }
    split. { exists (intervals l ++ (rs, re, rf) :: l1), l2. rewrite Ee. simpl. rewrite E1, E2. by rewrite <- !app_assoc. }
    cbv zeta in Hbd. simpl. destruct (bool_decide_reflect (-1 <= node_height l - node_height r' <= 1)); [subst t'; simpl; lia|lia].
  - eexists _, false. split; [reflexivity|]. split; [done|]. exists (rs, re, rf).
    split; [simpl; set_solver|]. unfold disjoint_from. simpl. lia.
Qed.

(** ** Removal *)

(** Changing the bounds of an ordered tree. *)
Lemma bst_rebound lo hi lo' hi' t :
  bst lo hi t -> lo' <= hi' ->
  (forall i, i ∈ intervals t -> lo' <= i.1.1 /\ i.1.2 <= hi') -> bst lo' hi' t.
Proof.
  revert lo hi lo' hi'. induction t as [|slot s e f h l IHl r IHr]; simpl; intros lo hi lo' hi'; [done|].
  intros (Hl & Hse & Hr) Hle Hall. destruct (Hall (s, e, f)) as [H1 H2]; [set_solver|]. simpl in *.
  split; [|split; [done|]].
  - eapply IHl; [done|done|]. intros [[a b] c] Hi. destruct (Hall (a, b, c)) as [? _]; [set_solver|].
    simpl in *. pose proof (bst_bounds _ _ _ _ _ _ Hl Hi). lia.
  - eapply IHr; [done|done|]. intros [[a b] c] Hi. destruct (Hall (a, b, c)) as [_ ?]; [set_solver|].
    simpl in *. pose proof (bst_bounds _ _ _ _ _ _ Hr Hi). lia.
Qed.

(** The intervals of an ordered tree around one of them. *)
Lemma bst_split lo hi t l1 l2 s e f :
  bst lo hi t -> intervals t = l1 ++ (s, e, f) :: l2 ->
  s < e /\ (forall i, i ∈ l1 -> i.1.2 <= s) /\ (forall i, i ∈ l2 -> e <= i.1.1).
Proof.
  revert lo hi l1 l2. induction t as [|slot ts te tf h l IHl r IHr]; simpl; intros lo hi l1 l2 Hb E.
  { by destruct l1. }
  pose proof Hb as (Hl & Hse & Hr).
  assert (Hin : forall i, i ∈ intervals l -> i.1.2 <= ts) by (intros i; by apply (in_left lo hi slot ts te tf h l r)).
  assert (Hin' : forall i, i ∈ intervals r -> te <= i.1.1) by (intros i; by apply (in_right lo hi slot ts te tf h l r)).
  apply app_eq_app in E as (m & [[E1 E2]|[E1 E2]]); destruct m as [|x m]; simplify_list_eq.
  - split; [done|]. split; [done|]. done.
  - destruct (IHl _ _ _ _ Hl E1) as (H1 & H2 & H3). split; [done|]. split; [done|].
    assert (e <= ts) by (apply (Hin (s, e, f)); rewrite E1; set_solver).
    intros i [Hi|[->|Hi]%elem_of_cons]%elem_of_app; [by apply H3|simpl; lia|]. apply Hin' in Hi. lia.
  - split; [done|]. split; [done|]. done.
  - match goal with H : intervals r = _ |- _ => rename H into Er end.
    destruct (IHr _ _ _ _ Hr Er) as (H1 & H2 & H3). split; [done|].
    assert (te <= s) by (apply (Hin' (s, e, f)); rewrite Er; set_solver).
    split; [|done].
    intros i [Hi|[->|Hi]%elem_of_cons]%elem_of_app; [|simpl; lia|by apply H2]. apply Hin in Hi. lia.
Qed.

Lemma leftmost_spec t :
  t <> Null -> exists slot s e f h l r rest,
    node_leftmost t = Node slot s e f h l r /\ intervals t = (s, e, f) :: rest.
Proof.
  induction t as [|slot s e f h l IHl r IHr]; [done|]. intros _. simpl.
  destruct l as [|slot' s' e' f' h' l' r'].
  - simpl. do 8 eexists. done.
  - destruct IHl as (a1 & a2 & a3 & a4 & a5 & a6 & a7 & rest & Hl & He); [done|].
    rewrite Hl, He. do 8 eexists. done.
Qed.

Definition has_interval (t : vma_node) (s e : Z) : Prop := exists f, (s, e, f) ∈ intervals t.

(** What removing [start, end_) does to the tree and the pool. *)
Definition remove_post (start end_ lo hi : Z) (t t' : vma_node) (p p' : vma_pool) (b : bool) : Prop :=
  if b then
    avl t' /\ bst lo hi t' /\ node_height t - 1 <= node_height t' <= node_height t /\
    (exists l1 f l2, intervals t = l1 ++ (start, end_, f) :: l2 /\ intervals t' = l1 ++ l2) /\
    exists slot, p' = mk_pool (slot :: p.(free_nodes)) p.(pool_initialized) /\
                 slots t ≡ₚ slot :: slots t'
  else t' = t /\ p' = p /\ ~ has_interval t start end_.

(** The rebalancing step above a removal in the left or right subtree. *)
Lemma rebalance_left_step slot s e f h l l' r :
  avl (Node slot s e f h l r) -> avl l' -> node_height l <= 100 -> node_height r <= 100 ->
  node_height l - 1 <= node_height l' <= node_height l ->
  exists t, rebalance (Node slot s e f h l' r) = Some t /\ avl t /\ h - 1 <= node_height t <= h.
Proof.
  intros (Hl & Hr & -> & Hb) Hl' ? ? Hh.
  destruct (rebalance_avl slot s e f (1 + Z.max (node_height l) (node_height r)) l' r)
    as (t & Ht & Ha & Hbd); [done|done|lia..|].
  exists t. split; [done|]. split; [done|]. cbv zeta in Hbd.
  destruct (bool_decide_reflect (-1 <= node_height l' - node_height r <= 1)); [subst t; simpl; lia|lia].
Qed.

Lemma rebalance_right_step slot s e f h l r r' :
  avl (Node slot s e f h l r) -> avl r' -> node_height l <= 100 -> node_height r <= 100 ->
  node_height r - 1 <= node_height r' <= node_height r ->
  exists t, rebalance (Node slot s e f h l r') = Some t /\ avl t /\ h - 1 <= node_height t <= h.
Proof.
  intros (Hl & Hr & -> & Hb) Hr' ? ? Hh.
  destruct (rebalance_avl slot s e f (1 + Z.max (node_height l) (node_height r)) l r')
    as (t & Ht & Ha & Hbd); [done|done|lia..|].
  exists t. split; [done|]. split; [done|]. cbv zeta in Hbd.
  destruct (bool_decide_reflect (-1 <= node_height l - node_height r' <= 1)); [subst t; simpl; lia|lia].
Qed.

Lemma rebalance_id t slot s e f h l r :
  t = Node slot s e f h l r -> avl t -> node_height l <= 100 -> node_height r <= 100 ->
  rebalance t = Some t.
Proof.
  intros -> Ha ? ?. pose proof Ha as (Hl & Hr & Hh & Hb).
  destruct (rebalance_avl slot s e f h l r) as (t & Ht & _ & Hbd); [done|done|lia..|].
  cbv zeta in Hbd. rewrite bool_decide_true in Hbd by lia. rewrite Ht, Hbd. by rewrite Hh.
Qed.

(** Removing an interval that is not there is found out without a change. *)
Lemma has_interval_left lo hi slot s e f h l r start end_ :
  bst lo hi (Node slot s e f h l r) -> start < s ->
  has_interval (Node slot s e f h l r) start end_ -> has_interval l start end_.
Proof.
  intros Hb Hlt (g & Hg). exists g. apply elem_of_app in Hg as [?|[[= -> -> ->]|Hg]%elem_of_cons]; [done|lia|].
  apply (in_right _ _ _ _ _ _ _ _ _ _ Hb) in Hg. simpl in Hg. destruct Hb as (_ & ? & _). lia.
Qed.

Lemma has_interval_right lo hi slot s e f h l r start end_ :
  bst lo hi (Node slot s e f h l r) -> s < start ->
  has_interval (Node slot s e f h l r) start end_ -> has_interval r start end_.
Proof.
  intros Hb Hlt (g & Hg). exists g. apply elem_of_app in Hg as [Hg|[[= -> -> ->]|Hg]%elem_of_cons]; [|lia|done].
  pose proof Hb as (Hl & _). pose proof (bst_bounds _ _ _ _ _ _ Hl Hg). lia.
Qed.

Lemma has_interval_root lo hi slot s e f h l r end_ :
  bst lo hi (Node slot s e f h l r) ->
  has_interval (Node slot s e f h l r) s end_ -> e = end_.
Proof.
  intros Hb (g & Hg). pose proof Hb as (Hl & Hse & Hr).
  apply elem_of_app in Hg as [Hg|[[= -> ->]|Hg]%elem_of_cons]; [|done|].
  - pose proof (bst_bounds _ _ _ _ _ _ Hl Hg). lia.
  - pose proof (bst_bounds _ _ _ _ _ _ Hr Hg). lia.
Qed.

(** The two-children case, given what the recursive call on the right subtree
    does: the node takes over the leftmost interval of that subtree. *)
Lemma remove_root_two slot rs re rf h l r lo hi ss se sf rest p :
  avl (Node slot rs re rf h l r) -> bst lo hi (Node slot rs re rf h l r) -> h <= 100 ->
  intervals r = (ss, se, sf) :: rest ->
  (exists t' b p', node_remove r ss se false p = Done (t', b) p' /\
     remove_post ss se re hi r t' p p' b) ->
  exists t' b p', (res <- node_remove r ss se false ;;
    t <- of_option (rebalance (Node slot ss se sf h l (fst res))) ;;
    ret (t, true)) p = Done (t', b) p' /\
    remove_post rs re lo hi (Node slot rs re rf h l r) t' p p' b.
Proof.
  intros Ha Hb Hh Hre (r' & b & p' & Hrun & Hpost).
  pose proof Ha as (Hal & Har & Hrh & Hbal). pose proof Hb as (Hbl & Hse & Hbr).
  pose proof (avl_height_nonneg l Hal). pose proof (avl_height_nonneg r Har).
  pose proof (bst_le _ _ _ Hbl) as Hle1. pose proof (bst_le _ _ _ Hbr) as Hle2.
  rewrite (run_bind_done _ _ _ _ _ Hrun). simpl fst.
  destruct b; [|destruct Hpost as (_ & _ & Hno); destruct Hno; exists sf; rewrite Hre; left].
  destruct Hpost as (Ha' & Hb' & Hht & (l1 & f & l2 & E1 & E2) & fs & Hp' & Hs).
  assert (l1 = []) as ->.
  { destruct l1 as [|x l1]; [done|]. rewrite Hre in E1. injection E1 as <- E1. rewrite E1 in Hre.
    destruct (bst_split _ _ _ [] (l1 ++ (ss, se, f) :: l2) _ _ _ Hbr Hre) as (Hlt & _ & Hall).
    specialize (Hall (ss, se, f)). simpl in Hall. lapply Hall; [lia|set_solver]. }
  rewrite Hre in E1. injection E1 as <- ->. simpl in E2.
  destruct (bst_split _ _ _ [] l2 _ _ _ Hbr Hre) as (Hlt & _ & Hall).
  assert (re <= ss /\ se <= hi) as [Hss Hse'].
  { destruct (bst_bounds _ _ _ ss se sf Hbr) as (? & ? & ?); [rewrite Hre; left|lia]. }
  destruct (rebalance_avl slot ss se sf h l r') as (t & Ht & Hat & Hbd); [done|done|lia..|].
  assert (h - 1 <= node_height t <= h) as Hth.
  { cbv zeta in Hbd. destruct (bool_decide_reflect (-1 <= node_height l - node_height r' <= 1)); [subst t; simpl; lia|lia]. }
  rewrite Ht. do 3 eexists. split; [reflexivity|]. pose proof (rebalance_same _ _ Ht) as [Ee Es Eb].
  split; [done|]. split; [apply Eb; split; [|split; [done|]]|].
  - eapply bst_rebound; [exact Hbl|lia|]. intros [[a b] c] Hi. pose proof (bst_bounds _ _ _ _ _ _ Hbl Hi). simpl. lia.
  - eapply bst_rebound; [exact Hb'|lia|]. intros [[a b] c] Hi. pose proof (bst_bounds _ _ _ _ _ _ Hb' Hi).
    rewrite E2 in Hi. apply Hall in Hi. simpl in *. lia.
  - split; [simpl; lia|]. split.
    + exists (intervals l), rf, ((ss, se, sf) :: l2). rewrite Ee. simpl. by rewrite E2, Hre.
    + exists fs. split; [done|]. rewrite Es. simpl. rewrite Hs. solve_Permutation.
Qed.

Lemma node_remove_spec t : forall start end_ lo hi p,
  avl t -> bst lo hi t -> node_height t <= 100 ->
  exists t' b p', node_remove t start end_ false p = Done (t', b) p' /\
    remove_post start end_ lo hi t t' p p' b.
Proof.
  induction t as [|slot rs re rf h l IHl r IHr]; intros start end_ lo hi p Ha Hb Hh.
  { do 3 eexists. split; [reflexivity|]. split; [done|]. split; [done|].
    intros [f Hf]. by apply not_elem_of_nil in Hf. }
  pose proof Ha as (Hal & Har & Hrh & Hbal). pose proof Hb as (Hbl & Hse & Hbr).
  pose proof (avl_height_nonneg l Hal). pose proof (avl_height_nonneg r Har). simpl in Hh.
  cbn [node_remove]. destruct (Z.ltb_spec start rs) as [Hc|Hc]; [|destruct (Z.ltb_spec rs start) as [Hc2|Hc2]].
  - destruct (IHl start end_ lo rs p) as (l' & b & p' & Hrun & Hpost); [done|done|lia|].
    rewrite (run_bind_done _ _ _ _ _ Hrun). simpl. destruct b.
    + destruct Hpost as (Ha' & Hb' & Hht & (l1 & f & l2 & E1 & E2) & fs & Hp' & Hs).
      destruct (rebalance_left_step slot rs re rf h l l' r) as (t & Ht & Hat & Hth); [done|done|lia..|].
      rewrite Ht. do 3 eexists. split; [reflexivity|]. pose proof (rebalance_same _ _ Ht) as [Ee Es Eb].
      split; [done|]. split; [by apply Eb|]. split; [simpl; lia|]. split.
      * exists l1, f, (l2 ++ (rs, re, rf) :: intervals r). rewrite Ee. simpl. rewrite E1, E2. by rewrite <- !app_assoc.
      * exists fs. split; [done|]. rewrite Es. simpl. rewrite Hs. solve_Permutation.
    + destruct Hpost as (-> & -> & Hno). erewrite (rebalance_id _ _ _ _ _ _ _ _ eq_refl) by (done || lia).
      do 3 eexists. split; [reflexivity|]. split; [done|]. split; [done|].
      intros Hi. by eapply Hno, has_interval_left.
  - destruct (IHr start end_ re hi p) as (r' & b & p' & Hrun & Hpost); [done|done|lia|].
    rewrite (run_bind_done _ _ _ _ _ Hrun). simpl. destruct b.
    + destruct Hpost as (Ha' & Hb' & Hht & (l1 & f & l2 & E1 & E2) & fs & Hp' & Hs).
      destruct (rebalance_right_step slot rs re rf h l r r') as (t & Ht & Hat & Hth); [done|done|lia..|].
      rewrite Ht. do 3 eexists. split; [reflexivity|]. pose proof (rebalance_same _ _ Ht) as [Ee Es Eb].
      split; [done|]. split; [by apply Eb|]. split; [simpl; lia|]. split.
      * exists (intervals l ++ (rs, re, rf) :: l1), f, l2. rewrite Ee. simpl. rewrite E1, E2. by rewrite <- !app_assoc.
      * exists fs. split; [done|]. rewrite Es. simpl. rewrite Hs. solve_Permutation.
    + destruct Hpost as (-> & -> & Hno). erewrite (rebalance_id _ _ _ _ _ _ _ _ eq_refl) by (done || lia).
      do 3 eexists. split; [reflexivity|]. split; [done|]. split; [done|].
      intros Hi. by eapply Hno, has_interval_right.
  - assert (start = rs) as -> by lia. destruct (Z.eqb_spec re end_) as [->|Hne]; simpl.
    2: { do 3 eexists. split; [reflexivity|]. split; [done|]. split; [done|].
         intros Hi. apply (has_interval_root _ _ _ _ _ _ _ _ _ _ Hb) in Hi. done. }
    pose proof (bst_le _ _ _ Hbl) as Hle1. pose proof (bst_le _ _ _ Hbr) as Hle2.
    destruct l as [|lslot ls le lf lh ll lr] eqn:El; [|destruct r as [|rslot rs' re' rf' rh rl rr] eqn:Er].
    + do 3 eexists. split; [reflexivity|]. split; [done|]. split.
      { eapply bst_rebound; [done|lia|]. intros [[a b] c] Hi. pose proof (bst_bounds _ _ _ _ _ _ Hbr Hi). simpl. lia. }
      split; [simpl in *; lia|]. split; [by exists [], rf, (intervals r)|]. by exists slot.
    + do 3 eexists. split; [reflexivity|]. rewrite <- El in *. split; [done|]. split.
      { eapply bst_rebound; [done|simpl in *; lia|]. intros [[a b] c] Hi. pose proof (bst_bounds _ _ _ _ _ _ Hbl Hi). simpl in *. lia. }
      split; [simpl in *; lia|]. split; [exists (intervals l), rf, []; by rewrite app_nil_r|].
      exists slot. simpl. by rewrite app_nil_r.
    + rewrite <- Er, <- El in *. destruct (leftmost_spec r) as (s1 & ss & se & sf & sh & sl & sr & rest & Hlm & Hre);
        [by subst|]. rewrite Hlm.
      by apply (remove_root_two slot rs end_ rf h l r lo hi ss se sf rest p); [..|apply IHr; (done || lia)].
Qed.
