(* ===== verification/VmaSpec.v ===== *)
(** The public operations of vma.c: correctness of insert, remove, find, first,
    clear and of the gap search, for any tree over the shared node pool. *)
From S2P Require Import Prelude Vma VmaFacts.
From Stdlib Require Import ZArith Lia.
From stdpp Require Import sets.
Open Scope Z_scope.

(** ** The pool *)

Definition all_slots : list Z := reverse (seqZ 0 VMA_MAX_NODES).

(** The slots an allocation can take: a pool that was never used is full. *)
Definition pool_slots (p : vma_pool) : list Z :=
  if p.(pool_initialized) then p.(free_nodes) else all_slots.

Lemma node_pool_init_run p : node_pool_init p = Done tt (mk_pool (pool_slots p) true).
Proof. destruct p as [fl []]; [reflexivity|]. vm_compute. reflexivity. Qed.

(** A tree and the pool it shares: balanced, ordered, every slot used once. *)
Record vma_wf (p : vma_pool) (t : vma_tree) : Prop := {
  wf_avl : avl t.(root);
  wf_bst : bst 0 (2 ^ 32 - 1) t.(root);
  wf_nodup : NoDup (slots t.(root) ++ pool_slots p);
  wf_range : forall x, x ∈ slots t.(root) ++ pool_slots p -> 0 <= x < VMA_MAX_NODES;
  wf_count : t.(node_count) = tree_size t.(root)
}.

Lemma bounded_nodup_length (l : list Z) n :
  0 <= n -> NoDup l -> (forall x, x ∈ l -> 0 <= x < n) -> Z.of_nat (length l) <= n.
Proof.
  intros Hn Hd Hr. enough (length l <= length (seqZ 0 n))%nat as H by (rewrite length_seqZ in H; lia).
  apply submseteq_length, NoDup_submseteq; [done|]. intros x Hx. apply elem_of_seqZ. apply Hr in Hx. lia.
Qed.

Lemma wf_size p t : vma_wf p t -> tree_size t.(root) + Z.of_nat (length (pool_slots p)) <= VMA_MAX_NODES.
Proof.
  intros W. unfold tree_size. rewrite <- Nat2Z.inj_add, <- length_app.
  apply bounded_nodup_length; [by vm_compute|apply W|apply W].
Qed.

Lemma wf_height p t : vma_wf p t -> node_height t.(root) <= 23.
Proof.
  intros W. apply avl_height_bound; [apply W|]. pose proof (wf_size p t W). lia.
Qed.

(** Moving slots between the tree and the pool. *)
Lemma wf_move p t p' t' :
  vma_wf p t -> avl t'.(root) -> bst 0 (2 ^ 32 - 1) t'.(root) -> t'.(node_count) = tree_size t'.(root) ->
  slots t'.(root) ++ pool_slots p' ≡ₚ slots t.(root) ++ pool_slots p -> vma_wf p' t'.
Proof.
  intros [] ? ? ? HP. split; try done; [by rewrite HP|]. intros x. rewrite HP. auto.
Qed.

(** ** Insertion *)

Lemma vma_tree_insert_spec p t start end_ flags :
  vma_wf p t -> fits 32 start -> fits 32 end_ ->
  exists t' b p', vma_tree_insert t start end_ flags p = Done (t', b) p' /\ vma_wf p' t' /\
    (b = true <-> start < end_ /\ (forall i, i ∈ intervals t.(root) -> disjoint_from start end_ i) /\
                  pool_slots p <> []) /\
    (if b then exists l1 l2, intervals t.(root) = l1 ++ l2 /\
                 intervals t'.(root) = l1 ++ (start, end_, flags) :: l2
     else t' = t /\ pool_slots p' = pool_slots p).
Proof.
  intros W Hs He. unfold vma_tree_insert. destruct (Z.leb_spec end_ start).
  { do 3 eexists. split; [reflexivity|]. split; [done|]. split; [split; [done|intros []; lia]|done]. }
  unfold node_alloc. run. rewrite (run_bind_done _ _ _ _ _ (node_pool_init_run p)). run. simpl free_nodes.
  assert (Hinit : vma_wf (mk_pool (pool_slots p) true) t) by (eapply wf_move; [done|apply W..|done]).
  destruct (pool_slots p) as [|slot rest] eqn:Ep.
  { do 3 eexists. split; [reflexivity|]. split; [done|]. split; [split; [done|by intros (_ & _ & ?)]|].
    done. }
  run. simpl pool_initialized. pose proof (wf_height p t W). unfold fits in *.
  destruct (node_insert_spec slot start end_ flags t.(root) 0 (2 ^ 32 - 1)) as (r & b & Hr & Hpost);
    [apply W|apply W|lia..|].
  rewrite Hr. simpl. run. destruct b; simpl; run.
  - destruct Hpost as (Hd & Ha & Hb & Hsl & Hel & _). do 3 eexists. split; [reflexivity|].
    assert (Hsz : tree_size r = tree_size t.(root) + 1) by (unfold tree_size; rewrite Hsl; simpl; lia).
    pose proof (wf_size p t W). rewrite (wf_count p t W). pose proof (size_nonneg t.(root)).
    unfold VMA_MAX_NODES in *. rewrite wrap_small by word_lia. split; [|split; [|done]].
    + eapply wf_move; [exact Hinit|done|done|done|]. simpl. rewrite Hsl. solve_Permutation.
    + split; [|done]. intros _. split; [done|]. by split.
  - destruct Hpost as [-> (i & Hi & Hno)]. do 3 eexists. split; [reflexivity|].
    assert (mk_tree t.(root) t.(node_count) = t) as -> by (by destruct t). split; [exact Hinit|].
    split; [split; [done|]; intros (_ & Hall & _); by apply Hall in Hi|]. done.
Qed.

(** C26: [vma_tree_insert] never faults and keeps the tree well formed.  It
    succeeds exactly when the interval is non-empty, overlaps no interval of the
    tree and a pool slot is left; then the interval appears in address order
    with the others unchanged.  A refused insertion leaves tree and pool as they
    were. *)
Theorem vma_tree_insert_correct p t start end_ flags :
  vma_wf p t -> fits 32 start -> fits 32 end_ ->
  exists t' b p', vma_tree_insert t start end_ flags p = Done (t', b) p' /\ vma_wf p' t' /\
    (b = true <-> start < end_ /\ (forall i, i ∈ intervals t.(root) -> disjoint_from start end_ i) /\
                  pool_slots p <> []) /\
    (if b then exists l1 l2, intervals t.(root) = l1 ++ l2 /\
                 intervals t'.(root) = l1 ++ (start, end_, flags) :: l2
     else t' = t /\ pool_slots p' = pool_slots p).
Proof. apply vma_tree_insert_spec. Qed.

(** ** Removal *)

Lemma vma_tree_remove_spec p t start end_ :
  vma_wf p t -> p.(pool_initialized) = true ->
  exists t' b p', vma_tree_remove t start end_ p = Done (t', b) p' /\ vma_wf p' t' /\
    (b = true <-> has_interval t.(root) start end_) /\
    (if b then (exists l1 f l2, intervals t.(root) = l1 ++ (start, end_, f) :: l2 /\
                                intervals t'.(root) = l1 ++ l2) /\
               exists slot, p'.(free_nodes) = slot :: p.(free_nodes)
     else t' = t /\ p' = p).
Proof.
  intros W Hi. pose proof (wf_height p t W). unfold vma_tree_remove.
  destruct (node_remove_spec t.(root) start end_ 0 (2 ^ 32 - 1) p) as (r & b & p' & Hrun & Hpost);
    [apply W|apply W|lia|].
  rewrite (run_bind_done _ _ _ _ _ Hrun). run. simpl. destruct b.
  - destruct Hpost as (Ha & Hb & _ & (l1 & f & l2 & E1 & E2) & slot & -> & Hsl).
    do 3 eexists. split; [reflexivity|]. split; [|split; [split; [|done]|]].
    + assert (Hsz : tree_size t.(root) = tree_size r + 1) by (unfold tree_size; rewrite Hsl; simpl; lia).
      pose proof (wf_size p t W). rewrite (wf_count p t W). pose proof (size_nonneg r).
      unfold VMA_MAX_NODES in *.
      eapply wf_move; [done|done|done|simpl; rewrite wrap_small by word_lia; lia|].
      unfold pool_slots. simpl. rewrite Hi, Hsl. solve_Permutation.
    + intros _. exists f. rewrite E1. set_solver.
    + split; [by exists l1, f, l2|]. by exists slot.
  - destruct Hpost as (-> & -> & Hno). do 3 eexists. split; [reflexivity|].
    assert (mk_tree t.(root) t.(node_count) = t) as -> by (by destruct t). done.
Qed.

(** C28: [vma_tree_remove] never faults and keeps the tree well formed.  It
    succeeds exactly when the interval [start, end) is in the tree; then that
    interval disappears, the others stay in order, and one slot goes back to the
    pool.  Otherwise tree and pool are unchanged. *)
Theorem vma_tree_remove_correct p t start end_ :
  vma_wf p t -> p.(pool_initialized) = true ->
  exists t' b p', vma_tree_remove t start end_ p = Done (t', b) p' /\ vma_wf p' t' /\
    (b = true <-> has_interval t.(root) start end_) /\
    (if b then (exists l1 f l2, intervals t.(root) = l1 ++ (start, end_, f) :: l2 /\
                                intervals t'.(root) = l1 ++ l2) /\
               exists slot, p'.(free_nodes) = slot :: p.(free_nodes)
     else t' = t /\ p' = p).
Proof. apply vma_tree_remove_spec. Qed.

(** ** Clearing *)

Lemma release_subtree_run t p :
  exists ss, node_release_subtree t p = Done tt (mk_pool (ss ++ p.(free_nodes)) p.(pool_initialized)) /\
    ss ≡ₚ slots t.
Proof.
  revert p. induction t as [|slot s e f h l IHl r IHr]; intros p.
  { exists []. split; [|done]. simpl. by destruct p. }
  destruct (IHl p) as (sl & Hl & El).
  destruct (IHr (mk_pool (sl ++ p.(free_nodes)) p.(pool_initialized))) as (sr & Hr & Er).
  exists (slot :: sr ++ sl). simpl. rewrite (run_bind_done _ _ _ _ _ Hl), (run_bind_done _ _ _ _ _ Hr).
  simpl. rewrite app_assoc. split; [done|]. rewrite El, Er. solve_Permutation.
Qed.

(** [vma_tree_clear] empties the tree and returns every slot it used: the
    pool then holds its old slots and those of the tree. *)
Theorem vma_tree_clear_correct p t :
  exists ss, vma_tree_clear t p = Done vma_tree_init (mk_pool (ss ++ p.(free_nodes)) p.(pool_initialized)) /\
    ss ≡ₚ slots t.(root).
Proof.
  unfold vma_tree_clear. destruct (release_subtree_run t.(root) p) as (ss & Hr & E). exists ss.
  by rewrite (run_bind_done _ _ _ _ _ Hr).
Qed.

(** ** Lookup *)

(** [vma_tree_find] returns an interval exactly when it is the one that
    contains the address. *)
Theorem vma_tree_find_correct p t address s e f :
  vma_wf p t ->
  vma_tree_find t address = Some (s, e, f) <-> (s, e, f) ∈ intervals t.(root) /\ s <= address < e.
Proof.
  intros W. unfold vma_tree_find. pose proof (wf_bst p t W) as Hb. revert Hb. generalize 0, (2 ^ 32 - 1).
  induction t.(root) as [|slot ts te tf h l IHl r IHr]; intros lo hi Hb; simpl.
  { split; [done|]. intros [H _]. by apply not_elem_of_nil in H. }
  pose proof Hb as (Hl & Hse & Hr).
  assert (Hin : forall i, i ∈ intervals l -> i.1.2 <= ts) by (intros i; by apply (in_left lo hi slot ts te tf h l r)).
  assert (Hin' : forall i, i ∈ intervals r -> te <= i.1.1) by (intros i; by apply (in_right lo hi slot ts te tf h l r)).
  rewrite elem_of_app, elem_of_cons.
  destruct (Z.ltb_spec address ts); [|destruct (Z.leb_spec te address)].
  - rewrite (IHl _ _ Hl). split; [intros []; auto|]. intros [[?|[[= -> -> ->]|Hi]] ?]; [done|lia|].
    apply Hin' in Hi. simpl in Hi. lia.
  - rewrite (IHr _ _ Hr). split; [intros []; auto|]. intros [[Hi|[[= -> -> ->]|Hi]] ?]; [|lia|done].
    apply Hin in Hi. simpl in Hi. lia.
  - split; [intros [= -> -> ->]; split; [auto|lia]|]. intros [[Hi|[[= -> -> ->]|Hi]] ?]; [|done|].
    + apply Hin in Hi. simpl in Hi. lia.
    + apply Hin' in Hi. simpl in Hi. lia.
Qed.

Lemma vma_tree_first_spec t : vma_tree_first t = head (intervals t.(root)).
Proof.
  unfold vma_tree_first. destruct (decide (intervals t.(root) = [])) as [E|E].
  - destruct t.(root) as [|? ? ? ? ? l r]; [done|]. simpl in E. by destruct (intervals l).
  - destruct (leftmost_spec t.(root)) as (? & ? & ? & ? & ? & ? & ? & ? & -> & ->); [by intros H; rewrite H in E|done].
Qed.

(** ** The gap search *)

(** The traversal is a fold over the intervals in address order. *)
Definition gap_step (state : gap_search_state) (i : Z * Z * Z) : gap_search_state :=
  if state.(found) then state
  else if state.(cursor) <? i.1.2 then
    if add_fits_limit state.(cursor) state.(gap_length)
         (if state.(max_addr) <? i.1.1 then state.(max_addr) else i.1.1)
    then mk_gap state.(cursor) state.(max_addr) state.(gap_length) state.(alignment) state.(cursor) true
    else
      let next := align_up_u32 i.1.2 state.(alignment) in
      let next := if next <? state.(cursor) then state.(max_addr) else next in
      mk_gap (if state.(max_addr) <? next then state.(max_addr) else next)
        state.(max_addr) state.(gap_length) state.(alignment) state.(result) state.(found)
  else state.

Lemma gap_fold_found l st : st.(found) = true -> foldl gap_step st l = st.
Proof. intros H. induction l as [|i l IH]; simpl; [done|]. unfold gap_step at 2. by rewrite H. Qed.

Lemma gap_search_fold t st : gap_search_in_order t st = foldl gap_step st (intervals t).
Proof.
  revert st. induction t as [|slot s e f h l IHl r IHr]; intros st; [done|]. simpl.
  destruct (found st) eqn:Ef; [by rewrite gap_fold_found|].
  rewrite foldl_app, IHl. simpl. set (st1 := foldl gap_step st (intervals l)).
  unfold gap_step at 2. simpl. destruct (found st1) eqn:E1; [by rewrite gap_fold_found|].
  destruct (cursor st1 <? e); [|apply IHr].
  destruct (add_fits_limit _ _ _); [by rewrite gap_fold_found|]. apply IHr.
Qed.

(** Rounding up to a power of two; a result beyond 32 bits comes back as 0. *)
Lemma align_up_spec v k :
  fits 32 v -> 0 <= k < 32 ->
  let a := (v + 2 ^ k - 1) / 2 ^ k * 2 ^ k in
  align_up_u32 v (2 ^ k) = (if a <? 2 ^ 32 then a else 0) /\
  v <= a /\ (2 ^ k | a) /\ forall r, v <= r -> (2 ^ k | r) -> a <= r.
Proof.
  intros Hv Hk a. pose proof (Z.pow_pos_nonneg 2 k ltac:(lia) ltac:(lia)) as Hp.
  assert (2 ^ k <= 2 ^ 32) as Hp2 by (apply Z.pow_le_mono_r; lia). rewrite pow32 in Hp2.
  pose proof (Z.div_mod (v + 2 ^ k - 1) (2 ^ k) ltac:(lia)).
  pose proof (Z.mod_pos_bound (v + 2 ^ k - 1) (2 ^ k) ltac:(lia)).
  assert (v <= a < v + 2 ^ k) as Ha by (subst a; lia).
  split; [|split; [lia|split]].
  - unfold align_up_u32. destruct (Z.leb_spec (2 ^ k) 1).
    + assert (2 ^ k = 1) as E by lia. subst a. rewrite E, Z.div_1_r, Z.mul_1_r.
      replace (v + 1 - 1) with v by lia. destruct (Z.ltb_spec v (2 ^ 32)); [done|word_lia].
    + rewrite (wrap_small 64 (v + 2 ^ k - 1)) by word_lia.
      rewrite land_mask by word_lia. fold a. rewrite pow32.
      destruct (Z.ltb_spec 0xFFFFFFFF a), (Z.ltb_spec a 4294967296); try lia. apply wrap_small. word_lia.
  - subst a. apply Z.divide_factor_r.
  - intros r Hr [q ->]. subst a. apply Z.mul_le_mono_nonneg_r; [lia|].
    apply Z.lt_succ_r, Z.div_lt_upper_bound; [lia|]. lia.
Qed.

(** Where a mapping of [len] bytes may go. *)
Definition gap_ok (l : list (Z * Z * Z)) (lo hi len align r : Z) : Prop :=
  lo <= r /\ r + len <= hi /\ (align | r) /\ forall i, i ∈ l -> disjoint_from r (r + len) i.

Lemma add_fits_spec a b c : fits 32 a -> fits 32 b -> add_fits_limit a b c = (a + b <=? c).
Proof. intros Ha Hb. unfold add_fits_limit. by rewrite wrap_small by word_lia. Qed.

Section Gap.
Variables (l : list (Z * Z * Z)) (lo hi len k : Z).
Hypotheses (Hlen : 0 < len) (Hlo : 0 < lo) (Hhi : hi < 2 ^ 32) (Hlen32 : len < 2 ^ 32)
  (Hk : 0 <= k < 32).
Hypothesis Hbound : forall i, i ∈ l -> 0 <= i.1.1 /\ i.1.1 < i.1.2 /\ i.1.2 < 2 ^ 32.

(** The state of the search after the intervals of [done]. *)
Definition gap_inv (done : list (Z * Z * Z)) (st : gap_search_state) : Prop :=
  st.(max_addr) = hi /\ st.(gap_length) = len /\ st.(alignment) = 2 ^ k /\
  (forall r, gap_ok l lo hi len (2 ^ k) r ->
     (if st.(found) then st.(result) else st.(cursor)) <= r) /\
  if st.(found) then gap_ok l lo hi len (2 ^ k) st.(result)
  else lo <= st.(cursor) <= hi /\
    (st.(cursor) < hi -> (2 ^ k | st.(cursor)) /\ forall i, i ∈ done -> i.1.2 <= st.(cursor)).

Lemma gap_step_inv done i rest st :
  l = done ++ i :: rest -> (forall j, j ∈ rest -> i.1.2 <= j.1.1) ->
  gap_inv done st -> gap_inv (done ++ [i]) (gap_step st i).
Proof.
  intros Hl Hrest (Hm & Hg & Ha & Hleast & Hst). unfold gap_step.
  destruct (found st) eqn:Ef; [unfold gap_inv; by rewrite Ef|].
  destruct Hst as [Hc Hcur]. destruct (Hbound i) as (Hi1 & Hi2 & Hi3); [rewrite Hl; set_solver|].
  destruct (Z.ltb_spec (cursor st) i.1.2).
  2: { unfold gap_inv. rewrite Ef. do 4 (split; [done|]). split; [done|]. intros Hlt.
       destruct (Hcur Hlt) as [? Hd]. split; [done|]. intros j [?|Hj%list_elem_of_singleton]%elem_of_app; [auto|subst j; lia]. }
  rewrite Hm, Hg, Ha, add_fits_spec by word_lia.
  set (ge := if hi <? i.1.1 then hi else i.1.1).
  assert (ge <= hi /\ ge <= i.1.1) as Hge by (subst ge; destruct (Z.ltb_spec hi i.1.1); lia).
  destruct (Z.leb_spec (cursor st + len) ge) as [Hfit|Hfit].
  - unfold gap_inv. simpl. do 4 (split; [done|]). destruct (Hcur ltac:(lia)) as [Hal Hd].
    split; [lia|]. split; [lia|]. split; [done|].
    intros j Hj. rewrite Hl in Hj. apply elem_of_app in Hj as [Hj|[->|Hj]%elem_of_cons].
    + right. auto.
    + left. lia.
    + left. apply Hrest in Hj. lia.
  - assert (Hnext : forall r, gap_ok l lo hi len (2 ^ k) r -> i.1.2 <= r).
    { intros r Hr. pose proof (Hleast r Hr). destruct Hr as (? & ? & _ & Hdis).
      destruct (Hdis i) as [Hx|Hx]; [rewrite Hl; set_solver| |done].
      subst ge. destruct (Z.ltb_spec hi i.1.1); lia. }
    destruct (align_up_spec i.1.2 k ltac:(word_lia) Hk) as (Hal & Hva & Hdiv & Hmin).
    set (a := (i.1.2 + 2 ^ k - 1) / 2 ^ k * 2 ^ k) in *. rewrite Hal.
    set (nx := if (if a <? 2 ^ 32 then a else 0) <? cursor st then hi else if a <? 2 ^ 32 then a else 0).
    set (c' := if hi <? nx then hi else nx).
    assert (c' = Z.min a hi) as Hc'.
    { subst c' nx. destruct (Z.ltb_spec a (2 ^ 32)).
      - destruct (Z.ltb_spec a (cursor st)); [lia|]. destruct (Z.ltb_spec hi a); lia.
      - destruct (Z.ltb_spec 0 (cursor st)); [|lia]. destruct (Z.ltb_spec hi hi); lia. }
    unfold gap_inv. simpl. rewrite Hc'. do 3 (split; [done|]). split; [|split; [lia|]].
    + intros r Hr. pose proof (Hnext r Hr). destruct Hr as (? & ? & ? & _).
      pose proof (Hmin r ltac:(lia) ltac:(done)). lia.
    + intros Hlt. replace (Z.min a hi) with a by lia. split; [done|].
      intros j [Hj|Hj%list_elem_of_singleton]%elem_of_app; [|subst j; lia].
      destruct (Hcur ltac:(lia)) as [_ Hd]. apply Hd in Hj. lia.
Qed.
End Gap.

Lemma gap_fold_inv l lo hi len k todo : forall done st,
  0 < len -> 0 < lo -> hi < 2 ^ 32 -> len < 2 ^ 32 -> 0 <= k < 32 ->
  (forall i, i ∈ l -> 0 <= i.1.1 /\ i.1.1 < i.1.2 /\ i.1.2 < 2 ^ 32) ->
  (forall l1 i l2, l = l1 ++ i :: l2 -> forall j, j ∈ l2 -> i.1.2 <= j.1.1) ->
  l = done ++ todo -> gap_inv l lo hi len k done st ->
  gap_inv l lo hi len k l (foldl gap_step st todo).
Proof.
  induction todo as [|i todo IH]; intros done st H1 H2 H3 H4 H5 H6 H7 Hl Hinv; simpl.
  - rewrite app_nil_r in Hl. by subst.
  - apply (IH (done ++ [i])); try done; [by rewrite <- app_assoc|].
    apply (gap_step_inv l lo hi len k H1 H2 H3 H4 H5 H6 done i todo); [done|by eapply H7|done].
Qed.

Lemma vma_tree_find_gap_spec p t lo hi len k :
  vma_wf p t -> 0 < lo -> lo < hi -> hi < 2 ^ 32 -> 0 < len -> len < 2 ^ 32 -> 0 <= k < 32 ->
  match vma_tree_find_gap t lo hi len (2 ^ k) with
  | Some r => gap_ok (intervals t.(root)) lo hi len (2 ^ k) r /\
              forall r', gap_ok (intervals t.(root)) lo hi len (2 ^ k) r' -> r <= r'
  | None => forall r, ~ gap_ok (intervals t.(root)) lo hi len (2 ^ k) r
  end.
Proof.
  intros W Hlo Hlh Hhi Hlen Hlen32 Hk. unfold vma_tree_find_gap.
  pose proof (Z.pow_pos_nonneg 2 k ltac:(lia) ltac:(lia)) as Hp.
  replace ((len =? 0) || (hi <=? lo) || (2 ^ k =? 0)) with false by lia. cbv iota.
  replace (Z.land (2 ^ k) (2 ^ k - 1)) with 0.
  2: { rewrite Z.sub_1_r, <- Z.ones_equiv, Z.land_ones by lia. by rewrite Z.mod_same by lia. }
  simpl negb. cbv iota. destruct (align_up_spec lo k ltac:(word_lia) Hk) as (Hal & Hva & Hdiv & Hmin).
  set (a := (lo + 2 ^ k - 1) / 2 ^ k * 2 ^ k) in *. rewrite Hal.
  set (l := intervals t.(root)).
  assert (Hbound : forall i, i ∈ l -> 0 <= i.1.1 /\ i.1.1 < i.1.2 /\ i.1.2 < 2 ^ 32).
  { intros [[x y] z] Hi. apply (bst_bounds _ _ _ _ _ _ (wf_bst p t W)) in Hi. simpl. lia. }
  assert (Hsplit : forall l1 i l2, l = l1 ++ i :: l2 -> forall j, j ∈ l2 -> i.1.2 <= j.1.1).
  { intros l1 [[x y] z] l2 E. by apply (bst_split _ _ _ _ _ _ _ _ (wf_bst p t W) E). }
  assert (Hstart : forall r, gap_ok l lo hi len (2 ^ k) r -> a <= r) by (intros r (? & ? & ? & _); by apply Hmin).
  destruct (((if a <? 2 ^ 32 then a else 0) <? lo) || (hi <=? (if a <? 2 ^ 32 then a else 0))) eqn:E.
  { intros r Hr. pose proof (Hstart r Hr). destruct Hr as (? & ? & _).
    destruct (Z.ltb_spec a (2 ^ 32)); lia. }
  assert (a < 2 ^ 32) as Ha by (destruct (Z.ltb_spec a (2 ^ 32)); lia).
  replace (a <? 2 ^ 32) with true in * by lia. rewrite gap_search_fold.
  pose proof (gap_fold_inv l lo hi len k l [] (mk_gap a hi len (2 ^ k) 0 false) Hlen Hlo Hhi Hlen32 Hk
    Hbound Hsplit eq_refl) as Hinv.
  fold l. set (st := foldl _ _ _) in *. destruct Hinv as (Hm & Hg & Hal' & Hleast & Hst).
  { split; [done|]. split; [done|]. split; [done|]. simpl. split; [done|]. split; [lia|].
    intros _. split; [done|]. intros i Hi. by apply not_elem_of_nil in Hi. }
  destruct (found st) eqn:Ef; [by split|]. destruct Hst as [Hc Hcur].
  rewrite add_fits_spec by word_lia. destruct (Z.leb_spec (cursor st + len) hi).
  - split; [|done]. destruct (Hcur ltac:(lia)) as [Hd Hpast]. split; [lia|]. split; [lia|]. split; [done|].
    intros i Hi. right. auto.
  - intros r Hr. pose proof (Hleast r Hr). destruct Hr as (? & ? & _). lia.
Qed.

(** C6: the gap search is exact.  For a power-of-two alignment and a lower bound
    above zero it returns the lowest aligned address in [min, max) where [len]
    bytes fit below [max] without touching a mapped interval, and fails only
    when there is none. *)
Theorem vma_tree_find_gap_correct p t lo hi len k :
  vma_wf p t -> 0 < lo -> lo < hi -> hi < 2 ^ 32 -> 0 < len -> len < 2 ^ 32 -> 0 <= k < 32 ->
  match vma_tree_find_gap t lo hi len (2 ^ k) with
  | Some r => gap_ok (intervals t.(root)) lo hi len (2 ^ k) r /\
              forall r', gap_ok (intervals t.(root)) lo hi len (2 ^ k) r' -> r <= r'
  | None => forall r, ~ gap_ok (intervals t.(root)) lo hi len (2 ^ k) r
  end.
Proof. apply vma_tree_find_gap_spec. Qed.

(** Two mappings and a pool with two slots left. *)
Definition sample_pool : vma_pool := mk_pool [5; 6] true.
Definition sample_tree : vma_tree :=
  mk_tree (Node 0 0x1000 0x3000 1 2 Null (Node 1 0x5000 0x7000 2 1 Null Null)) 2.

Lemma sample_vma_wf : vma_wf sample_pool sample_tree.
Proof.
  split.
  - simpl. lia.
  - simpl. lia.
  - apply (bool_decide_unpack _). by vm_compute.
  - intros x. change (slots _ ++ pool_slots _) with [0; 1; 5; 6].
    unfold VMA_MAX_NODES. rewrite !elem_of_cons. intros Hx.
    repeat destruct Hx as [->|Hx]; try lia. by apply not_elem_of_nil in Hx.
  - reflexivity.
Qed.

Lemma vma_tree_insert_correct_witness :
  exists t' b p', vma_tree_insert sample_tree 0x3000 0x5000 7 sample_pool = Done (t', b) p' /\ vma_wf p' t' /\
    (b = true <-> 0x3000 < 0x5000 /\
       (forall i, i ∈ intervals sample_tree.(root) -> disjoint_from 0x3000 0x5000 i) /\
       pool_slots sample_pool <> []) /\
    (if b then exists l1 l2, intervals sample_tree.(root) = l1 ++ l2 /\
                 intervals t'.(root) = l1 ++ (0x3000, 0x5000, 7) :: l2
     else t' = sample_tree /\ pool_slots p' = pool_slots sample_pool).
Proof.
  apply (vma_tree_insert_correct sample_pool sample_tree 0x3000 0x5000 7 sample_vma_wf); word_lia.
Defined.

Lemma vma_tree_remove_correct_witness :
  exists t' b p', vma_tree_remove sample_tree 0x1000 0x3000 sample_pool = Done (t', b) p' /\ vma_wf p' t' /\
    (b = true <-> has_interval sample_tree.(root) 0x1000 0x3000) /\
    (if b then (exists l1 f l2, intervals sample_tree.(root) = l1 ++ (0x1000, 0x3000, f) :: l2 /\
                                intervals t'.(root) = l1 ++ l2) /\
               exists slot, p'.(free_nodes) = slot :: sample_pool.(free_nodes)
     else t' = sample_tree /\ p' = sample_pool).
Proof. apply (vma_tree_remove_correct sample_pool sample_tree 0x1000 0x3000 sample_vma_wf). reflexivity. Defined.

Lemma vma_tree_find_correct_witness :
  vma_tree_find sample_tree 0x2000 = Some (0x1000, 0x3000, 1) <->
  (0x1000, 0x3000, 1) ∈ intervals sample_tree.(root) /\ 0x1000 <= 0x2000 < 0x3000.
Proof. apply (vma_tree_find_correct sample_pool sample_tree 0x2000 0x1000 0x3000 1 sample_vma_wf). Defined.

Lemma vma_tree_find_gap_correct_witness :
  match vma_tree_find_gap sample_tree 0x1000 0x9000 0x1000 (2 ^ 12) with
  | Some r => gap_ok (intervals sample_tree.(root)) 0x1000 0x9000 0x1000 (2 ^ 12) r /\
              forall r', gap_ok (intervals sample_tree.(root)) 0x1000 0x9000 0x1000 (2 ^ 12) r' -> r <= r'
  | None => forall r, ~ gap_ok (intervals sample_tree.(root)) 0x1000 0x9000 0x1000 (2 ^ 12) r
  end.
Proof.
  apply (vma_tree_find_gap_correct sample_pool sample_tree 0x1000 0x9000 0x1000 12 sample_vma_wf);
    rewrite ?pow32; lia.
Defined.

(** With a lower bound of zero the overflow marker of [align_up_u32] is
    mistaken for an address: the search answers 0 although that address is
    mapped. *)
Theorem vma_find_gap_zero_overlap :
  exists p t, vma_wf p t /\ vma_tree_find_gap t 0 0xFFFFFFFF 0x1000 0x1000 = Some 0 /\
    vma_tree_find t 0 <> None.
Proof.
  exists (mk_pool [1] true), (mk_tree (Node 0 0 0xFFFFF001 0 1 Null Null) 1).
  split; [|by split; vm_compute].
  split; [simpl; lia|simpl; lia|apply (bool_decide_unpack _); by vm_compute| |reflexivity].
  intros x. change (slots _ ++ pool_slots _) with [0; 1].
  unfold VMA_MAX_NODES. rewrite !elem_of_cons. intros Hx.
  repeat destruct Hx as [->|Hx]; try lia. by apply not_elem_of_nil in Hx.
Qed.
