(* ===== verification/SchedData.v ===== *)
(** The scheduler's data: kernel/kernel/scheduler.c and scheduler.h.

    Tasks, run queues and processors are referred to by index, as the code
    refers to them by pointer: slot [i] of the static array [tasks] is task
    [i], and indices from 100 on stand for the local tasks and processors of
    the self tests.  A queue is a [task_list_t] threaded through the
    [list_prev]/[list_next] pointers of its tasks, modelled as such. *)
From S2P Require Import Prelude.
From Stdlib Require Import ZArith Lia.
Open Scope Z_scope.

Definition SCHEDULER_MAX_THREADS : Z := 32.
Definition SCHEDULER_MAX_CPUS : Z := 8.
Definition SCHEDULER_MAX_NUMA_NODES : Z := 4.
Definition SCHEDULER_CPU_MASK_ALL : Z := 0xFFFFFFFF.
Definition SCHEDULER_NUMA_NODE_ANY : Z := 0xFF.
Definition SCHEDULER_WAIT_FOREVER : Z := 0xFFFFFFFF.
Definition SCHEDULER_INVALID_CPU_ID : Z := 0xFF.
Definition SCHEDULER_YIELD_VECTOR : Z := 48.
Definition TASK_STACK_SIZE : Z := 16384.
Definition TASK_STACK_PAGES : Z := TASK_STACK_SIZE / PAGE_SIZE.
Definition SCHEDULER_BALANCE_INTERVAL_TICKS : Z := 16.
Definition SCHEDULER_BALANCE_MAX_MIGRATIONS : Z := 2.
Definition SCHEDULER_U64_MAX : Z := 2 ^ 64 - 1.
Definition UINT_MAX : Z := 2 ^ 32 - 1.
Definition GDT_SELECTOR_KERNEL_CODE : Z := 0x08.
Definition sizeof_interrupt_frame_t : Z := 52.

(** scheduler_priority_t is an unsigned integer; these are its named values. *)
Definition SCHEDULER_PRIORITY_REALTIME : Z := 0.
Definition SCHEDULER_PRIORITY_HIGH : Z := 1.
Definition SCHEDULER_PRIORITY_NORMAL : Z := 2.
Definition SCHEDULER_PRIORITY_LOW : Z := 3.
Definition SCHEDULER_PRIORITY_BACKGROUND : Z := 4.
Definition SCHEDULER_PRIORITY_COUNT : Z := 5.

Inductive task_state : Type :=
| TASK_UNUSED | TASK_RUNNABLE | TASK_RUNNING | TASK_SLEEPING | TASK_BLOCKED | TASK_ZOMBIE.
#[export] Instance task_state_eq : EqDecision task_state.
Proof. solve_decision. Defined.

Inductive task_list_kind : Type :=
| TASK_LIST_NONE | TASK_LIST_FREE | TASK_LIST_RUNNABLE | TASK_LIST_SLEEPING | TASK_LIST_BLOCKED
| TASK_LIST_ZOMBIE.
#[export] Instance task_list_kind_eq : EqDecision task_list_kind.
Proof. solve_decision. Defined.

Inductive scheduler_enqueue_reason : Type :=
| SCHEDULER_ENQUEUE_REASON_RESCHEDULE | SCHEDULER_ENQUEUE_REASON_WAKEUP.

(** A [task_t*] that is not NULL. *)
Definition task_ref : Type := Z.

(** A [task_list_t*]: the four static lists, the run queue of a processor at a
    priority, or a local list. *)
Inductive list_ref : Type :=
| free_list | sleeping_list | blocked_list | zombie_list
| runnable (cpu priority : Z)
| local_list.
#[export] Instance list_ref_eq : EqDecision list_ref.
Proof. solve_decision. Defined.

Record interrupt_frame : Type := mk_frame {
  f_edi : Z; f_esi : Z; f_ebp : Z; f_esp : Z; f_ebx : Z; f_edx : Z; f_ecx : Z; f_eax : Z;
  f_vector : Z; f_error_code : Z; f_eip : Z; f_cs : Z; f_eflags : Z
}.

Record task : Type := mk_task {
  t_id : Z;
  t_name : option string;
  t_state : task_state;
  t_priority : Z;
  cpu_affinity_mask : Z;
  preferred_numa_node : Z;
  assigned_cpu : Z;
  assigned_numa_node : Z;
  t_frame : option Z;
  stack_base : option Z;
  kernel_stack_top : Z;
  wakeup_tick : Z;
  runnable_enqueue_tick : Z;
  t_entry : option Z;
  t_arg : Z;
  t_space : option Z;
  wait_channel : option Z;
  wait_result : bool;
  ticks_in_slice : Z;
  list_prev : option task_ref;
  list_next : option task_ref;
  list_kind : task_list_kind
}.

Definition set_t_id (v : Z) (s : task) : task :=
  mk_task v (s.(t_name)) (s.(t_state)) (s.(t_priority)) (s.(cpu_affinity_mask)) (s.(preferred_numa_node)) (s.(assigned_cpu)) (s.(assigned_numa_node)) (s.(t_frame)) (s.(stack_base)) (s.(kernel_stack_top)) (s.(wakeup_tick)) (s.(runnable_enqueue_tick)) (s.(t_entry)) (s.(t_arg)) (s.(t_space)) (s.(wait_channel)) (s.(wait_result)) (s.(ticks_in_slice)) (s.(list_prev)) (s.(list_next)) (s.(list_kind)).
Definition set_t_name (v : option string) (s : task) : task :=
  mk_task (s.(t_id)) v (s.(t_state)) (s.(t_priority)) (s.(cpu_affinity_mask)) (s.(preferred_numa_node)) (s.(assigned_cpu)) (s.(assigned_numa_node)) (s.(t_frame)) (s.(stack_base)) (s.(kernel_stack_top)) (s.(wakeup_tick)) (s.(runnable_enqueue_tick)) (s.(t_entry)) (s.(t_arg)) (s.(t_space)) (s.(wait_channel)) (s.(wait_result)) (s.(ticks_in_slice)) (s.(list_prev)) (s.(list_next)) (s.(list_kind)).
Definition set_t_state (v : task_state) (s : task) : task :=
  mk_task (s.(t_id)) (s.(t_name)) v (s.(t_priority)) (s.(cpu_affinity_mask)) (s.(preferred_numa_node)) (s.(assigned_cpu)) (s.(assigned_numa_node)) (s.(t_frame)) (s.(stack_base)) (s.(kernel_stack_top)) (s.(wakeup_tick)) (s.(runnable_enqueue_tick)) (s.(t_entry)) (s.(t_arg)) (s.(t_space)) (s.(wait_channel)) (s.(wait_result)) (s.(ticks_in_slice)) (s.(list_prev)) (s.(list_next)) (s.(list_kind)).
Definition set_t_priority (v : Z) (s : task) : task :=
  mk_task (s.(t_id)) (s.(t_name)) (s.(t_state)) v (s.(cpu_affinity_mask)) (s.(preferred_numa_node)) (s.(assigned_cpu)) (s.(assigned_numa_node)) (s.(t_frame)) (s.(stack_base)) (s.(kernel_stack_top)) (s.(wakeup_tick)) (s.(runnable_enqueue_tick)) (s.(t_entry)) (s.(t_arg)) (s.(t_space)) (s.(wait_channel)) (s.(wait_result)) (s.(ticks_in_slice)) (s.(list_prev)) (s.(list_next)) (s.(list_kind)).
Definition set_cpu_affinity_mask (v : Z) (s : task) : task :=
  mk_task (s.(t_id)) (s.(t_name)) (s.(t_state)) (s.(t_priority)) v (s.(preferred_numa_node)) (s.(assigned_cpu)) (s.(assigned_numa_node)) (s.(t_frame)) (s.(stack_base)) (s.(kernel_stack_top)) (s.(wakeup_tick)) (s.(runnable_enqueue_tick)) (s.(t_entry)) (s.(t_arg)) (s.(t_space)) (s.(wait_channel)) (s.(wait_result)) (s.(ticks_in_slice)) (s.(list_prev)) (s.(list_next)) (s.(list_kind)).
Definition set_preferred_numa_node (v : Z) (s : task) : task :=
  mk_task (s.(t_id)) (s.(t_name)) (s.(t_state)) (s.(t_priority)) (s.(cpu_affinity_mask)) v (s.(assigned_cpu)) (s.(assigned_numa_node)) (s.(t_frame)) (s.(stack_base)) (s.(kernel_stack_top)) (s.(wakeup_tick)) (s.(runnable_enqueue_tick)) (s.(t_entry)) (s.(t_arg)) (s.(t_space)) (s.(wait_channel)) (s.(wait_result)) (s.(ticks_in_slice)) (s.(list_prev)) (s.(list_next)) (s.(list_kind)).
Definition set_assigned_cpu (v : Z) (s : task) : task :=
  mk_task (s.(t_id)) (s.(t_name)) (s.(t_state)) (s.(t_priority)) (s.(cpu_affinity_mask)) (s.(preferred_numa_node)) v (s.(assigned_numa_node)) (s.(t_frame)) (s.(stack_base)) (s.(kernel_stack_top)) (s.(wakeup_tick)) (s.(runnable_enqueue_tick)) (s.(t_entry)) (s.(t_arg)) (s.(t_space)) (s.(wait_channel)) (s.(wait_result)) (s.(ticks_in_slice)) (s.(list_prev)) (s.(list_next)) (s.(list_kind)).
Definition set_assigned_numa_node (v : Z) (s : task) : task :=
  mk_task (s.(t_id)) (s.(t_name)) (s.(t_state)) (s.(t_priority)) (s.(cpu_affinity_mask)) (s.(preferred_numa_node)) (s.(assigned_cpu)) v (s.(t_frame)) (s.(stack_base)) (s.(kernel_stack_top)) (s.(wakeup_tick)) (s.(runnable_enqueue_tick)) (s.(t_entry)) (s.(t_arg)) (s.(t_space)) (s.(wait_channel)) (s.(wait_result)) (s.(ticks_in_slice)) (s.(list_prev)) (s.(list_next)) (s.(list_kind)).
Definition set_t_frame (v : option Z) (s : task) : task :=
  mk_task (s.(t_id)) (s.(t_name)) (s.(t_state)) (s.(t_priority)) (s.(cpu_affinity_mask)) (s.(preferred_numa_node)) (s.(assigned_cpu)) (s.(assigned_numa_node)) v (s.(stack_base)) (s.(kernel_stack_top)) (s.(wakeup_tick)) (s.(runnable_enqueue_tick)) (s.(t_entry)) (s.(t_arg)) (s.(t_space)) (s.(wait_channel)) (s.(wait_result)) (s.(ticks_in_slice)) (s.(list_prev)) (s.(list_next)) (s.(list_kind)).
Definition set_stack_base (v : option Z) (s : task) : task :=
  mk_task (s.(t_id)) (s.(t_name)) (s.(t_state)) (s.(t_priority)) (s.(cpu_affinity_mask)) (s.(preferred_numa_node)) (s.(assigned_cpu)) (s.(assigned_numa_node)) (s.(t_frame)) v (s.(kernel_stack_top)) (s.(wakeup_tick)) (s.(runnable_enqueue_tick)) (s.(t_entry)) (s.(t_arg)) (s.(t_space)) (s.(wait_channel)) (s.(wait_result)) (s.(ticks_in_slice)) (s.(list_prev)) (s.(list_next)) (s.(list_kind)).
Definition set_kernel_stack_top (v : Z) (s : task) : task :=
  mk_task (s.(t_id)) (s.(t_name)) (s.(t_state)) (s.(t_priority)) (s.(cpu_affinity_mask)) (s.(preferred_numa_node)) (s.(assigned_cpu)) (s.(assigned_numa_node)) (s.(t_frame)) (s.(stack_base)) v (s.(wakeup_tick)) (s.(runnable_enqueue_tick)) (s.(t_entry)) (s.(t_arg)) (s.(t_space)) (s.(wait_channel)) (s.(wait_result)) (s.(ticks_in_slice)) (s.(list_prev)) (s.(list_next)) (s.(list_kind)).
Definition set_wakeup_tick (v : Z) (s : task) : task :=
  mk_task (s.(t_id)) (s.(t_name)) (s.(t_state)) (s.(t_priority)) (s.(cpu_affinity_mask)) (s.(preferred_numa_node)) (s.(assigned_cpu)) (s.(assigned_numa_node)) (s.(t_frame)) (s.(stack_base)) (s.(kernel_stack_top)) v (s.(runnable_enqueue_tick)) (s.(t_entry)) (s.(t_arg)) (s.(t_space)) (s.(wait_channel)) (s.(wait_result)) (s.(ticks_in_slice)) (s.(list_prev)) (s.(list_next)) (s.(list_kind)).
Definition set_runnable_enqueue_tick (v : Z) (s : task) : task :=
  mk_task (s.(t_id)) (s.(t_name)) (s.(t_state)) (s.(t_priority)) (s.(cpu_affinity_mask)) (s.(preferred_numa_node)) (s.(assigned_cpu)) (s.(assigned_numa_node)) (s.(t_frame)) (s.(stack_base)) (s.(kernel_stack_top)) (s.(wakeup_tick)) v (s.(t_entry)) (s.(t_arg)) (s.(t_space)) (s.(wait_channel)) (s.(wait_result)) (s.(ticks_in_slice)) (s.(list_prev)) (s.(list_next)) (s.(list_kind)).
Definition set_t_entry (v : option Z) (s : task) : task :=
  mk_task (s.(t_id)) (s.(t_name)) (s.(t_state)) (s.(t_priority)) (s.(cpu_affinity_mask)) (s.(preferred_numa_node)) (s.(assigned_cpu)) (s.(assigned_numa_node)) (s.(t_frame)) (s.(stack_base)) (s.(kernel_stack_top)) (s.(wakeup_tick)) (s.(runnable_enqueue_tick)) v (s.(t_arg)) (s.(t_space)) (s.(wait_channel)) (s.(wait_result)) (s.(ticks_in_slice)) (s.(list_prev)) (s.(list_next)) (s.(list_kind)).
Definition set_t_arg (v : Z) (s : task) : task :=
  mk_task (s.(t_id)) (s.(t_name)) (s.(t_state)) (s.(t_priority)) (s.(cpu_affinity_mask)) (s.(preferred_numa_node)) (s.(assigned_cpu)) (s.(assigned_numa_node)) (s.(t_frame)) (s.(stack_base)) (s.(kernel_stack_top)) (s.(wakeup_tick)) (s.(runnable_enqueue_tick)) (s.(t_entry)) v (s.(t_space)) (s.(wait_channel)) (s.(wait_result)) (s.(ticks_in_slice)) (s.(list_prev)) (s.(list_next)) (s.(list_kind)).
Definition set_t_space (v : option Z) (s : task) : task :=
  mk_task (s.(t_id)) (s.(t_name)) (s.(t_state)) (s.(t_priority)) (s.(cpu_affinity_mask)) (s.(preferred_numa_node)) (s.(assigned_cpu)) (s.(assigned_numa_node)) (s.(t_frame)) (s.(stack_base)) (s.(kernel_stack_top)) (s.(wakeup_tick)) (s.(runnable_enqueue_tick)) (s.(t_entry)) (s.(t_arg)) v (s.(wait_channel)) (s.(wait_result)) (s.(ticks_in_slice)) (s.(list_prev)) (s.(list_next)) (s.(list_kind)).
Definition set_wait_channel (v : option Z) (s : task) : task :=
  mk_task (s.(t_id)) (s.(t_name)) (s.(t_state)) (s.(t_priority)) (s.(cpu_affinity_mask)) (s.(preferred_numa_node)) (s.(assigned_cpu)) (s.(assigned_numa_node)) (s.(t_frame)) (s.(stack_base)) (s.(kernel_stack_top)) (s.(wakeup_tick)) (s.(runnable_enqueue_tick)) (s.(t_entry)) (s.(t_arg)) (s.(t_space)) v (s.(wait_result)) (s.(ticks_in_slice)) (s.(list_prev)) (s.(list_next)) (s.(list_kind)).
Definition set_wait_result (v : bool) (s : task) : task :=
  mk_task (s.(t_id)) (s.(t_name)) (s.(t_state)) (s.(t_priority)) (s.(cpu_affinity_mask)) (s.(preferred_numa_node)) (s.(assigned_cpu)) (s.(assigned_numa_node)) (s.(t_frame)) (s.(stack_base)) (s.(kernel_stack_top)) (s.(wakeup_tick)) (s.(runnable_enqueue_tick)) (s.(t_entry)) (s.(t_arg)) (s.(t_space)) (s.(wait_channel)) v (s.(ticks_in_slice)) (s.(list_prev)) (s.(list_next)) (s.(list_kind)).
Definition set_ticks_in_slice (v : Z) (s : task) : task :=
  mk_task (s.(t_id)) (s.(t_name)) (s.(t_state)) (s.(t_priority)) (s.(cpu_affinity_mask)) (s.(preferred_numa_node)) (s.(assigned_cpu)) (s.(assigned_numa_node)) (s.(t_frame)) (s.(stack_base)) (s.(kernel_stack_top)) (s.(wakeup_tick)) (s.(runnable_enqueue_tick)) (s.(t_entry)) (s.(t_arg)) (s.(t_space)) (s.(wait_channel)) (s.(wait_result)) v (s.(list_prev)) (s.(list_next)) (s.(list_kind)).
Definition set_list_prev (v : option task_ref) (s : task) : task :=
  mk_task (s.(t_id)) (s.(t_name)) (s.(t_state)) (s.(t_priority)) (s.(cpu_affinity_mask)) (s.(preferred_numa_node)) (s.(assigned_cpu)) (s.(assigned_numa_node)) (s.(t_frame)) (s.(stack_base)) (s.(kernel_stack_top)) (s.(wakeup_tick)) (s.(runnable_enqueue_tick)) (s.(t_entry)) (s.(t_arg)) (s.(t_space)) (s.(wait_channel)) (s.(wait_result)) (s.(ticks_in_slice)) v (s.(list_next)) (s.(list_kind)).
Definition set_list_next (v : option task_ref) (s : task) : task :=
  mk_task (s.(t_id)) (s.(t_name)) (s.(t_state)) (s.(t_priority)) (s.(cpu_affinity_mask)) (s.(preferred_numa_node)) (s.(assigned_cpu)) (s.(assigned_numa_node)) (s.(t_frame)) (s.(stack_base)) (s.(kernel_stack_top)) (s.(wakeup_tick)) (s.(runnable_enqueue_tick)) (s.(t_entry)) (s.(t_arg)) (s.(t_space)) (s.(wait_channel)) (s.(wait_result)) (s.(ticks_in_slice)) (s.(list_prev)) v (s.(list_kind)).
Definition set_list_kind (v : task_list_kind) (s : task) : task :=
  mk_task (s.(t_id)) (s.(t_name)) (s.(t_state)) (s.(t_priority)) (s.(cpu_affinity_mask)) (s.(preferred_numa_node)) (s.(assigned_cpu)) (s.(assigned_numa_node)) (s.(t_frame)) (s.(stack_base)) (s.(kernel_stack_top)) (s.(wakeup_tick)) (s.(runnable_enqueue_tick)) (s.(t_entry)) (s.(t_arg)) (s.(t_space)) (s.(wait_channel)) (s.(wait_result)) (s.(ticks_in_slice)) (s.(list_prev)) (s.(list_next)) v.

Record task_list : Type := mk_list {
  l_head : option task_ref;
  l_tail : option task_ref;
  l_count : Z
}.

Definition set_l_head (v : option task_ref) (s : task_list) : task_list :=
  mk_list v (s.(l_tail)) (s.(l_count)).
Definition set_l_tail (v : option task_ref) (s : task_list) : task_list :=
  mk_list (s.(l_head)) v (s.(l_count)).
Definition set_l_count (v : Z) (s : task_list) : task_list :=
  mk_list (s.(l_head)) (s.(l_tail)) v.

Record scheduler_cpu_state : Type := mk_cpu {
  c_id : Z;
  numa_node : Z;
  online : bool;
  runnable_count : Z;
  current : option task_ref
}.

Definition set_c_id (v : Z) (s : scheduler_cpu_state) : scheduler_cpu_state :=
  mk_cpu v (s.(numa_node)) (s.(online)) (s.(runnable_count)) (s.(current)).
Definition set_numa_node (v : Z) (s : scheduler_cpu_state) : scheduler_cpu_state :=
  mk_cpu (s.(c_id)) v (s.(online)) (s.(runnable_count)) (s.(current)).
Definition set_online (v : bool) (s : scheduler_cpu_state) : scheduler_cpu_state :=
  mk_cpu (s.(c_id)) (s.(numa_node)) v (s.(runnable_count)) (s.(current)).
Definition set_runnable_count (v : Z) (s : scheduler_cpu_state) : scheduler_cpu_state :=
  mk_cpu (s.(c_id)) (s.(numa_node)) (s.(online)) v (s.(current)).
Definition set_current (v : option task_ref) (s : scheduler_cpu_state) : scheduler_cpu_state :=
  mk_cpu (s.(c_id)) (s.(numa_node)) (s.(online)) (s.(runnable_count)) v.

(** scheduler_trace_counters_t, one constructor per field. *)
Inductive trace_counter : Type :=
| timer_ticks | schedule_events | context_switches | preemptions | voluntary_yields | wakeups
| wait_calls | wait_timeouts | sleep_calls | task_creations | task_exits | priority_updates
| load_balance_runs | load_balance_migrations | task_migrations | remote_wakeup_ipis
| remote_reschedule_ipis.
#[export] Instance trace_counter_eq : EqDecision trace_counter.
Proof. solve_decision. Defined.

Record scheduler_trace_latency_metric : Type := mk_metric {
  sample_count : Z;
  total_ticks : Z;
  min_ticks : Z;
  max_ticks : Z
}.

(** scheduler_trace_latency_t, one constructor per field; the last stands for
    the local metric of a self test. *)
Inductive latency_metric : Type :=
| runnable_wait_ticks | sleep_overshoot_ticks | wait_timeout_overshoot_ticks | local_metric.
#[export] Instance latency_metric_eq : EqDecision latency_metric.
Proof. solve_decision. Defined.

(** Calls into other components, in order: inter-processor interrupts (cpu.c),
    the task-state segment (gdt.c), address spaces and stacks (paging.c), NUMA
    layout (pmm.c), the interrupt table (interrupts.c). *)
Inductive event : Type :=
| cpu_send_wakeup_ipi (cpu : Z)
| cpu_send_reschedule_ipi (cpu : Z)
| gdt_set_kernel_stack (top : Z)
| paging_switch_space (space : option Z)
| paging_create_process_space_on_node (node : Z)
| paging_alloc_pages_on_node (pages node : Z)
| paging_free_pages (base pages : Z)
| paging_destroy_process_space (space : Z)
| pmm_configure_numa_topology (nodes : Z)
| register_interrupt_handler (vector : Z).

(** The static variables of scheduler.c, with the processor that executes
    ([this_cpu], its EFLAGS), whether other processors run ([smp_available]),
    the interrupt frames in stack memory, and the calls made so far, latest
    first. *)
Record sched : Type := mk_sched {
  tasks : task_ref -> task;
  lists : list_ref -> task_list;
  cpus : Z -> scheduler_cpu_state;
  configured_cpu_count : Z;
  configured_node_count : Z;
  boot_cpu_id : Z;
  system_ticks : Z;
  next_task_id : Z;
  last_balance_tick : Z;
  scheduler_bootstrapped : bool;
  scheduler_state_lock : Z;
  trace_counters : trace_counter -> Z;
  trace_latency : latency_metric -> scheduler_trace_latency_metric;
  this_cpu : Z;
  smp_available : bool;
  eflags : Z;
  frame_mem : Z -> interrupt_frame;
  events : list event
}.

Definition set_tasks (v : task_ref -> task) (s : sched) : sched :=
  mk_sched v (s.(lists)) (s.(cpus)) (s.(configured_cpu_count)) (s.(configured_node_count)) (s.(boot_cpu_id)) (s.(system_ticks)) (s.(next_task_id)) (s.(last_balance_tick)) (s.(scheduler_bootstrapped)) (s.(scheduler_state_lock)) (s.(trace_counters)) (s.(trace_latency)) (s.(this_cpu)) (s.(smp_available)) (s.(eflags)) (s.(frame_mem)) (s.(events)).
Definition set_lists (v : list_ref -> task_list) (s : sched) : sched :=
  mk_sched (s.(tasks)) v (s.(cpus)) (s.(configured_cpu_count)) (s.(configured_node_count)) (s.(boot_cpu_id)) (s.(system_ticks)) (s.(next_task_id)) (s.(last_balance_tick)) (s.(scheduler_bootstrapped)) (s.(scheduler_state_lock)) (s.(trace_counters)) (s.(trace_latency)) (s.(this_cpu)) (s.(smp_available)) (s.(eflags)) (s.(frame_mem)) (s.(events)).
Definition set_cpus (v : Z -> scheduler_cpu_state) (s : sched) : sched :=
  mk_sched (s.(tasks)) (s.(lists)) v (s.(configured_cpu_count)) (s.(configured_node_count)) (s.(boot_cpu_id)) (s.(system_ticks)) (s.(next_task_id)) (s.(last_balance_tick)) (s.(scheduler_bootstrapped)) (s.(scheduler_state_lock)) (s.(trace_counters)) (s.(trace_latency)) (s.(this_cpu)) (s.(smp_available)) (s.(eflags)) (s.(frame_mem)) (s.(events)).
Definition set_configured_cpu_count (v : Z) (s : sched) : sched :=
  mk_sched (s.(tasks)) (s.(lists)) (s.(cpus)) v (s.(configured_node_count)) (s.(boot_cpu_id)) (s.(system_ticks)) (s.(next_task_id)) (s.(last_balance_tick)) (s.(scheduler_bootstrapped)) (s.(scheduler_state_lock)) (s.(trace_counters)) (s.(trace_latency)) (s.(this_cpu)) (s.(smp_available)) (s.(eflags)) (s.(frame_mem)) (s.(events)).
Definition set_configured_node_count (v : Z) (s : sched) : sched :=
  mk_sched (s.(tasks)) (s.(lists)) (s.(cpus)) (s.(configured_cpu_count)) v (s.(boot_cpu_id)) (s.(system_ticks)) (s.(next_task_id)) (s.(last_balance_tick)) (s.(scheduler_bootstrapped)) (s.(scheduler_state_lock)) (s.(trace_counters)) (s.(trace_latency)) (s.(this_cpu)) (s.(smp_available)) (s.(eflags)) (s.(frame_mem)) (s.(events)).
Definition set_boot_cpu_id (v : Z) (s : sched) : sched :=
  mk_sched (s.(tasks)) (s.(lists)) (s.(cpus)) (s.(configured_cpu_count)) (s.(configured_node_count)) v (s.(system_ticks)) (s.(next_task_id)) (s.(last_balance_tick)) (s.(scheduler_bootstrapped)) (s.(scheduler_state_lock)) (s.(trace_counters)) (s.(trace_latency)) (s.(this_cpu)) (s.(smp_available)) (s.(eflags)) (s.(frame_mem)) (s.(events)).
Definition set_system_ticks (v : Z) (s : sched) : sched :=
  mk_sched (s.(tasks)) (s.(lists)) (s.(cpus)) (s.(configured_cpu_count)) (s.(configured_node_count)) (s.(boot_cpu_id)) v (s.(next_task_id)) (s.(last_balance_tick)) (s.(scheduler_bootstrapped)) (s.(scheduler_state_lock)) (s.(trace_counters)) (s.(trace_latency)) (s.(this_cpu)) (s.(smp_available)) (s.(eflags)) (s.(frame_mem)) (s.(events)).
Definition set_next_task_id (v : Z) (s : sched) : sched :=
  mk_sched (s.(tasks)) (s.(lists)) (s.(cpus)) (s.(configured_cpu_count)) (s.(configured_node_count)) (s.(boot_cpu_id)) (s.(system_ticks)) v (s.(last_balance_tick)) (s.(scheduler_bootstrapped)) (s.(scheduler_state_lock)) (s.(trace_counters)) (s.(trace_latency)) (s.(this_cpu)) (s.(smp_available)) (s.(eflags)) (s.(frame_mem)) (s.(events)).
Definition set_last_balance_tick (v : Z) (s : sched) : sched :=
  mk_sched (s.(tasks)) (s.(lists)) (s.(cpus)) (s.(configured_cpu_count)) (s.(configured_node_count)) (s.(boot_cpu_id)) (s.(system_ticks)) (s.(next_task_id)) v (s.(scheduler_bootstrapped)) (s.(scheduler_state_lock)) (s.(trace_counters)) (s.(trace_latency)) (s.(this_cpu)) (s.(smp_available)) (s.(eflags)) (s.(frame_mem)) (s.(events)).
Definition set_scheduler_bootstrapped (v : bool) (s : sched) : sched :=
  mk_sched (s.(tasks)) (s.(lists)) (s.(cpus)) (s.(configured_cpu_count)) (s.(configured_node_count)) (s.(boot_cpu_id)) (s.(system_ticks)) (s.(next_task_id)) (s.(last_balance_tick)) v (s.(scheduler_state_lock)) (s.(trace_counters)) (s.(trace_latency)) (s.(this_cpu)) (s.(smp_available)) (s.(eflags)) (s.(frame_mem)) (s.(events)).
Definition set_scheduler_state_lock (v : Z) (s : sched) : sched :=
  mk_sched (s.(tasks)) (s.(lists)) (s.(cpus)) (s.(configured_cpu_count)) (s.(configured_node_count)) (s.(boot_cpu_id)) (s.(system_ticks)) (s.(next_task_id)) (s.(last_balance_tick)) (s.(scheduler_bootstrapped)) v (s.(trace_counters)) (s.(trace_latency)) (s.(this_cpu)) (s.(smp_available)) (s.(eflags)) (s.(frame_mem)) (s.(events)).
Definition set_trace_counters (v : trace_counter -> Z) (s : sched) : sched :=
  mk_sched (s.(tasks)) (s.(lists)) (s.(cpus)) (s.(configured_cpu_count)) (s.(configured_node_count)) (s.(boot_cpu_id)) (s.(system_ticks)) (s.(next_task_id)) (s.(last_balance_tick)) (s.(scheduler_bootstrapped)) (s.(scheduler_state_lock)) v (s.(trace_latency)) (s.(this_cpu)) (s.(smp_available)) (s.(eflags)) (s.(frame_mem)) (s.(events)).
Definition set_trace_latency (v : latency_metric -> scheduler_trace_latency_metric) (s : sched) : sched :=
  mk_sched (s.(tasks)) (s.(lists)) (s.(cpus)) (s.(configured_cpu_count)) (s.(configured_node_count)) (s.(boot_cpu_id)) (s.(system_ticks)) (s.(next_task_id)) (s.(last_balance_tick)) (s.(scheduler_bootstrapped)) (s.(scheduler_state_lock)) (s.(trace_counters)) v (s.(this_cpu)) (s.(smp_available)) (s.(eflags)) (s.(frame_mem)) (s.(events)).
Definition set_this_cpu (v : Z) (s : sched) : sched :=
  mk_sched (s.(tasks)) (s.(lists)) (s.(cpus)) (s.(configured_cpu_count)) (s.(configured_node_count)) (s.(boot_cpu_id)) (s.(system_ticks)) (s.(next_task_id)) (s.(last_balance_tick)) (s.(scheduler_bootstrapped)) (s.(scheduler_state_lock)) (s.(trace_counters)) (s.(trace_latency)) v (s.(smp_available)) (s.(eflags)) (s.(frame_mem)) (s.(events)).
Definition set_smp_available (v : bool) (s : sched) : sched :=
  mk_sched (s.(tasks)) (s.(lists)) (s.(cpus)) (s.(configured_cpu_count)) (s.(configured_node_count)) (s.(boot_cpu_id)) (s.(system_ticks)) (s.(next_task_id)) (s.(last_balance_tick)) (s.(scheduler_bootstrapped)) (s.(scheduler_state_lock)) (s.(trace_counters)) (s.(trace_latency)) (s.(this_cpu)) v (s.(eflags)) (s.(frame_mem)) (s.(events)).
Definition set_eflags (v : Z) (s : sched) : sched :=
  mk_sched (s.(tasks)) (s.(lists)) (s.(cpus)) (s.(configured_cpu_count)) (s.(configured_node_count)) (s.(boot_cpu_id)) (s.(system_ticks)) (s.(next_task_id)) (s.(last_balance_tick)) (s.(scheduler_bootstrapped)) (s.(scheduler_state_lock)) (s.(trace_counters)) (s.(trace_latency)) (s.(this_cpu)) (s.(smp_available)) v (s.(frame_mem)) (s.(events)).
Definition set_frame_mem (v : Z -> interrupt_frame) (s : sched) : sched :=
  mk_sched (s.(tasks)) (s.(lists)) (s.(cpus)) (s.(configured_cpu_count)) (s.(configured_node_count)) (s.(boot_cpu_id)) (s.(system_ticks)) (s.(next_task_id)) (s.(last_balance_tick)) (s.(scheduler_bootstrapped)) (s.(scheduler_state_lock)) (s.(trace_counters)) (s.(trace_latency)) (s.(this_cpu)) (s.(smp_available)) (s.(eflags)) v (s.(events)).
Definition set_events (v : list event) (s : sched) : sched :=
  mk_sched (s.(tasks)) (s.(lists)) (s.(cpus)) (s.(configured_cpu_count)) (s.(configured_node_count)) (s.(boot_cpu_id)) (s.(system_ticks)) (s.(next_task_id)) (s.(last_balance_tick)) (s.(scheduler_bootstrapped)) (s.(scheduler_state_lock)) (s.(trace_counters)) (s.(trace_latency)) (s.(this_cpu)) (s.(smp_available)) (s.(eflags)) (s.(frame_mem)) v.

(** ** Access through pointers *)

Definition upd {A B} `{EqDecision A} (f : A -> B) (a : A) (b : B) : A -> B :=
  fun x => if decide (x = a) then b else f x.

Definition upd_task (t : task_ref) (g : task -> task) : M sched unit :=
  modify (fun s => set_tasks (upd s.(tasks) t (g (s.(tasks) t))) s).
Definition get_task {A} (t : task_ref) (field : task -> A) : M sched A :=
  gets (fun s => field (s.(tasks) t)).
Definition upd_list (l : list_ref) (g : task_list -> task_list) : M sched unit :=
  modify (fun s => set_lists (upd s.(lists) l (g (s.(lists) l))) s).
Definition get_list {A} (l : list_ref) (field : task_list -> A) : M sched A :=
  gets (fun s => field (s.(lists) l)).
Definition upd_cpu (c : Z) (g : scheduler_cpu_state -> scheduler_cpu_state) : M sched unit :=
  modify (fun s => set_cpus (upd s.(cpus) c (g (s.(cpus) c))) s).
Definition get_cpu {A} (c : Z) (field : scheduler_cpu_state -> A) : M sched A :=
  gets (fun s => field (s.(cpus) c)).
Definition emit (e : event) : M sched unit := modify (fun s => set_events (e :: s.(events)) s).
Definition when (b : bool) (m : M sched unit) : M sched unit := if b then m else ret tt.

(** The variables in .bss, before [scheduler_init], on processor 0 with
    interrupts enabled. *)
Definition cold_task : task :=
  mk_task 0 None TASK_UNUSED 0 0 0 0 0 None None 0 0 0 None 0 None None false 0 None None TASK_LIST_NONE.
Definition cold_sched : sched :=
  mk_sched (fun _ => cold_task) (fun _ => mk_list None None 0) (fun _ => mk_cpu 0 0 false 0 None)
    0 0 0 0 0 0 false 0 (fun _ => 0) (fun _ => mk_metric 0 0 0 0) 0 false 0x202
    (fun _ => mk_frame 0 0 0 0 0 0 0 0 0 0 0 0 0) [].
