(* ===== verification/Sched.v ===== *)
(** The scheduler's internal operations, called with [scheduler_state_lock]
    held: kernel/kernel/scheduler.c. *)
From S2P Require Import Prelude SchedData.
From Stdlib Require Import ZArith Lia.
Open Scope Z_scope.

(** ** Tracing *)

Definition scheduler_trace_counter_inc (counter : trace_counter) : M sched unit :=
  v <- gets (fun s => s.(trace_counters) counter) ;;
  if v =? SCHEDULER_U64_MAX then ret tt
  else modify (fun s => set_trace_counters (upd s.(trace_counters) counter (v + 1)) s).

Definition metric_record (metric : scheduler_trace_latency_metric) (ticks : Z)
    : scheduler_trace_latency_metric :=
  let min := if (metric.(sample_count) =? 0) || (ticks <? metric.(min_ticks))
             then ticks else metric.(min_ticks) in
  let max := if metric.(max_ticks) <? ticks then ticks else metric.(max_ticks) in
  let samples := if metric.(sample_count) <? SCHEDULER_U64_MAX
                 then metric.(sample_count) + 1 else metric.(sample_count) in
  let total := if SCHEDULER_U64_MAX - ticks <? metric.(total_ticks)
               then SCHEDULER_U64_MAX else metric.(total_ticks) + ticks in
  mk_metric samples total min max.

Definition scheduler_trace_latency_record (metric : latency_metric) (ticks : Z) : M sched unit :=
  modify (fun s => set_trace_latency
    (upd s.(trace_latency) metric (metric_record (s.(trace_latency) metric) ticks)) s).

Definition scheduler_trace_latency_reset_metric (metric : latency_metric) : M sched unit :=
  modify (fun s => set_trace_latency (upd s.(trace_latency) metric (mk_metric 0 0 0 0)) s).

Definition scheduler_trace_reset_locked : M sched unit :=
  modify (set_trace_counters (fun _ => 0)) ;;;
  scheduler_trace_latency_reset_metric runnable_wait_ticks ;;;
  scheduler_trace_latency_reset_metric sleep_overshoot_ticks ;;;
  scheduler_trace_latency_reset_metric wait_timeout_overshoot_ticks.

(** ** Priorities *)

Definition scheduler_priority_sanitize (priority : Z) : Z :=
  if SCHEDULER_PRIORITY_COUNT <=? priority then SCHEDULER_PRIORITY_NORMAL else priority.

Definition priority_time_slice : list Z := [2; 3; 5; 7; 9].

Definition scheduler_priority_timeslice (priority : Z) : Z :=
  let safe_priority := scheduler_priority_sanitize priority in
  default 0 (priority_time_slice !! Z.to_nat safe_priority).

Definition task_state_name (state : task_state) : string :=
  match state with
  | TASK_UNUSED => "unused"
  | TASK_RUNNABLE => "runnable"
  | TASK_RUNNING => "running"
  | TASK_SLEEPING => "sleeping"
  | TASK_BLOCKED => "blocked"
  | TASK_ZOMBIE => "zombie"
  end.

(** ** Task lists *)

Definition task_list_init (list : list_ref) : M sched unit :=
  upd_list list (fun _ => mk_list None None 0).

Definition task_list_push_back (list : list_ref) (t : task_ref) (kind : task_list_kind) : M sched unit :=
  last <- get_list list l_tail ;;
  upd_task t (set_list_prev last) ;;;
  upd_task t (set_list_next None) ;;;
  (match last with
   | Some p => upd_task p (set_list_next (Some t))
   | None => upd_list list (set_l_head (Some t))
   end) ;;;
  upd_list list (set_l_tail (Some t)) ;;;
  upd_list list (fun l => set_l_count (u32 (l.(l_count) + 1)) l) ;;;
  upd_task t (set_list_kind kind).

Definition task_list_remove (list : list_ref) (t : task_ref) : M sched unit :=
  prev <- get_task t list_prev ;;
  next <- get_task t list_next ;;
  (match prev with
   | Some p => upd_task p (set_list_next next)
   | None => upd_list list (set_l_head next)
   end) ;;;
  (match next with
   | Some n => upd_task n (set_list_prev prev)
   | None => upd_list list (set_l_tail prev)
   end) ;;;
  upd_list list (fun l => if 0 <? l.(l_count) then set_l_count (l.(l_count) - 1) l else l) ;;;
  upd_task t (set_list_prev None) ;;;
  upd_task t (set_list_next None) ;;;
  upd_task t (set_list_kind TASK_LIST_NONE).

Definition task_list_pop_front (list : list_ref) : M sched (option task_ref) :=
  first <- get_list list l_head ;;
  match first with
  | None => ret None
  | Some t => task_list_remove list t ;;; ret (Some t)
  end.

Definition task_reset (t : task_ref) : M sched unit :=
  boot <- gets boot_cpu_id ;;
  upd_task t (fun _ => mk_task 0 None TASK_UNUSED SCHEDULER_PRIORITY_NORMAL SCHEDULER_CPU_MASK_ALL
    SCHEDULER_NUMA_NODE_ANY boot 0 None None 0 0 0 None 0 None None false 0 None None TASK_LIST_NONE).

Definition scheduler_cpu_state_init (cpu id node : Z) (on : bool) : M sched unit :=
  upd_cpu cpu (fun _ => mk_cpu id node on 0 None) ;;;
  for_each 0 SCHEDULER_PRIORITY_COUNT (fun i => task_list_init (runnable cpu i)).

Definition scheduler_has_live_tasks : M sched bool :=
  r <- for_range 0 SCHEDULER_MAX_THREADS (fun i =>
    st <- get_task i t_state ;;
    ret (if decide (st = TASK_UNUSED) then None else Some tt)) ;;
  ret (match r with Some _ => true | None => false end).

Definition scheduler_find_task_by_id (task_id : Z) : M sched (option task_ref) :=
  for_range 0 SCHEDULER_MAX_THREADS (fun i =>
    st <- get_task i t_state ;;
    id <- get_task i t_id ;;
    ret (if bool_decide (st <> TASK_UNUSED) && (id =? task_id) then Some i else None)).

Definition scheduler_allocate_task_slot : M sched (option task_ref) :=
  t <- task_list_pop_front free_list ;;
  match t with
  | None => ret None
  | Some t => task_reset t ;;; ret (Some t)
  end.

Definition scheduler_release_task_slot (t : option task_ref) : M sched unit :=
  match t with
  | None => ret tt
  | Some t => task_reset t ;;; task_list_push_back free_list t TASK_LIST_FREE
  end.

(** ** Processors *)

Definition scheduler_online_cpu_mask : M sched Z :=
  s <- gets id ;;
  ret (fold_left (fun mask i => if (s.(cpus) i).(online) then Z.lor mask (Z.shiftl 1 i) else mask)
         (seqZ 0 s.(configured_cpu_count)) 0).

Definition scheduler_normalize_affinity_mask (affinity_mask : Z) : M sched Z :=
  mask <- scheduler_online_cpu_mask ;;
  let normalized := Z.land affinity_mask mask in
  ret (if normalized =? 0 then mask else normalized).

(** A [scheduler_cpu_state_t*] is the index of the processor. *)
Definition scheduler_cpu_by_id (cpu_id : Z) : M sched Z :=
  s <- gets id ;;
  ret (if (s.(configured_cpu_count) <=? cpu_id) || negb (s.(cpus) cpu_id).(online)
       then s.(boot_cpu_id) else cpu_id).

Definition scheduler_current_cpu_state : M sched Z :=
  s <- gets id ;;
  ret (if s.(configured_cpu_count) =? 0 then 0
       else
         let cpu_id := s.(this_cpu) in
         if (s.(configured_cpu_count) <=? cpu_id) || negb (s.(cpus) cpu_id).(online)
         then s.(boot_cpu_id) else cpu_id).

Definition scheduler_current_cpu : M sched Z :=
  cpu <- scheduler_current_cpu_state ;;
  get_cpu cpu c_id.

Definition scheduler_current_task : M sched (option task_ref) :=
  cpu <- scheduler_current_cpu_state ;;
  get_cpu cpu current.

Definition scheduler_cpu_load (cpu : Z) : M sched Z :=
  load <- get_cpu cpu runnable_count ;;
  cur <- get_cpu cpu current ;;
  match cur with
  | None => ret load
  | Some t =>
      st <- get_task t t_state ;;
      ret (if decide (st = TASK_RUNNING) then u32 (load + 1) else load)
  end.

(** ** Choosing a processor *)

(** The loop body of one pass: [(best_cpu, best_load)] after looking at [cpu]. *)
Definition consider_cpu (cpu_to_node cpu_load : Z -> Z) (affinity : Z) (enforce : bool)
    (preferred local_cpu : Z) (best : Z * Z) (cpu : Z) : Z * Z :=
  let '(best_cpu, best_load) := best in
  if Z.land affinity (Z.shiftl 1 cpu) =? 0 then best
  else if enforce && negb (cpu_to_node cpu =? preferred) then best
  else
    let load := cpu_load cpu in
    if (best_cpu =? SCHEDULER_INVALID_CPU_ID) || (load <? best_load) then (u8 cpu, load)
    else if load =? best_load then
      if (cpu =? local_cpu) && negb (best_cpu =? local_cpu) then (u8 cpu, best_load)
      else if negb (best_cpu =? local_cpu) && (cpu <? best_cpu) then (u8 cpu, best_load)
      else best
    else best.

Definition scheduler_select_best_cpu_from_view (cpu_count : Z) (cpu_online : Z -> bool)
    (cpu_to_node cpu_load : Z -> Z) (affinity_mask preferred_numa_node local_cpu : Z) : Z :=
  if cpu_count =? 0 then SCHEDULER_INVALID_CPU_ID
  else
    let all := seqZ 0 cpu_count in
    let online_mask :=
      fold_left (fun mask cpu => if cpu_online cpu then Z.lor mask (Z.shiftl 1 cpu) else mask) all 0 in
    if online_mask =? 0 then SCHEDULER_INVALID_CPU_ID
    else
      let normalized := Z.land affinity_mask online_mask in
      let normalized := if normalized =? 0 then online_mask else normalized in
      let pass (p : Z) :=
        let enforce := (p =? 0) && negb (preferred_numa_node =? SCHEDULER_NUMA_NODE_ANY) in
        fst (fold_left (consider_cpu cpu_to_node cpu_load normalized enforce preferred_numa_node local_cpu)
               all (SCHEDULER_INVALID_CPU_ID, UINT_MAX)) in
      let best := pass 0 in
      if negb (best =? SCHEDULER_INVALID_CPU_ID) then best else pass 1.

(** The three arrays that describe the processors [base + i]. *)
Definition cpu_view (base : Z) : M sched ((Z -> bool) * (Z -> Z) * (Z -> Z)) :=
  s <- gets id ;;
  let load i := match scheduler_cpu_load (base + i) s with Done l _ => l | _ => 0 end in
  ret ((fun i => (s.(cpus) (base + i)).(online)), (fun i => (s.(cpus) (base + i)).(numa_node)), load).

Definition scheduler_select_target_cpu (affinity_mask preferred_numa_node : Z) : M sched Z :=
  boot <- gets boot_cpu_id ;;
  boots <- gets scheduler_bootstrapped ;;
  local_cpu <- (if boots : bool then c <- scheduler_current_cpu ;; ret (u8 c) else ret boot) ;;
  view <- cpu_view 0 ;;
  n <- gets configured_cpu_count ;;
  let '(cpu_online, cpu_to_node, cpu_load) := view in
  let selected := scheduler_select_best_cpu_from_view n cpu_online cpu_to_node cpu_load
                    affinity_mask preferred_numa_node local_cpu in
  ret (if selected =? SCHEDULER_INVALID_CPU_ID then boot else selected).

(** ** Run queues *)

Definition scheduler_notify_remote_runnable (cpu : Z) (reason : scheduler_enqueue_reason) : M sched unit :=
  s <- gets id ;;
  if negb s.(scheduler_bootstrapped) || negb (s.(cpus) cpu).(online) || negb s.(smp_available) then ret tt
  else
    current_cpu <- scheduler_current_cpu ;;
    id <- get_cpu cpu c_id ;;
    if id =? current_cpu then ret tt
    else match reason with
         | SCHEDULER_ENQUEUE_REASON_WAKEUP =>
             scheduler_trace_counter_inc remote_wakeup_ipis ;;; emit (cpu_send_wakeup_ipi id)
         | SCHEDULER_ENQUEUE_REASON_RESCHEDULE =>
             scheduler_trace_counter_inc remote_reschedule_ipis ;;; emit (cpu_send_reschedule_ipi id)
         end.

Definition scheduler_cpu_enqueue_runnable_local (cpu : Z) (t : task_ref) : M sched unit :=
  p <- get_task t t_priority ;;
  let priority := scheduler_priority_sanitize p in
  c <- gets (fun s => s.(cpus) cpu) ;;
  now <- gets system_ticks ;;
  upd_task t (set_t_priority priority) ;;;
  upd_task t (set_assigned_cpu c.(c_id)) ;;;
  upd_task t (set_assigned_numa_node c.(numa_node)) ;;;
  upd_task t (set_t_state TASK_RUNNABLE) ;;;
  upd_task t (set_ticks_in_slice 0) ;;;
  upd_task t (set_runnable_enqueue_tick now) ;;;
  task_list_push_back (runnable cpu priority) t TASK_LIST_RUNNABLE ;;;
  upd_cpu cpu (fun c => set_runnable_count (u32 (c.(runnable_count) + 1)) c).

Definition scheduler_cpu_enqueue_runnable (cpu : Z) (t : task_ref) (reason : scheduler_enqueue_reason)
    : M sched unit :=
  scheduler_cpu_enqueue_runnable_local cpu t ;;;
  scheduler_notify_remote_runnable cpu reason.

Definition scheduler_enqueue_runnable (t : task_ref) (reason : scheduler_enqueue_reason) : M sched unit :=
  a <- get_task t assigned_cpu ;;
  cpu <- scheduler_cpu_by_id a ;;
  scheduler_cpu_enqueue_runnable cpu t reason.

Definition dec_runnable_count (cpu : Z) : M sched unit :=
  upd_cpu cpu (fun c => if 0 <? c.(runnable_count) then set_runnable_count (c.(runnable_count) - 1) c else c).

Definition scheduler_remove_runnable (t : option task_ref) : M sched unit :=
  match t with
  | None => ret tt
  | Some t =>
      k <- get_task t list_kind ;;
      st <- get_task t t_state ;;
      if bool_decide (k <> TASK_LIST_RUNNABLE) || bool_decide (st <> TASK_RUNNABLE) then ret tt
      else
        a <- get_task t assigned_cpu ;;
        cpu <- scheduler_cpu_by_id a ;;
        p <- get_task t t_priority ;;
        task_list_remove (runnable cpu (scheduler_priority_sanitize p)) t ;;;
        dec_runnable_count cpu
  end.

Definition scheduler_cpu_dequeue_next_runnable (cpu : Z) : M sched (option task_ref) :=
  for_range 0 SCHEDULER_PRIORITY_COUNT (fun priority =>
    next <- task_list_pop_front (runnable cpu priority) ;;
    match next with
    | None => ret None
    | Some t =>
        dec_runnable_count cpu ;;;
        now <- gets system_ticks ;;
        since <- get_task t runnable_enqueue_tick ;;
        scheduler_trace_latency_record runnable_wait_ticks (u32 (now - since)) ;;;
        ret (Some t)
    end).

Definition scheduler_cpu_has_higher_priority_runnable (cpu priority : Z) : M sched bool :=
  r <- for_range 0 (scheduler_priority_sanitize priority) (fun i =>
    n <- get_list (runnable cpu i) l_count ;;
    ret (if 0 <? n then Some tt else None)) ;;
  ret (match r with Some _ => true | None => false end).

(** ** Walking a list *)

(** [while (task != NULL && guard) { next = task->list_next; body; task = next; }]
    with local variables [acc]; [inr] leaves the loop.  Lists hold at most
    [SCHEDULER_MAX_THREADS] tasks, so [walk_fuel] steps reach the end of any
    well-formed list. *)
Fixpoint walk {A R} (fuel : nat) (t : option task_ref) (acc : A) (guard : A -> bool)
    (body : task_ref -> A -> M sched (A + R)) : M sched (A + R) :=
  match t with
  | None => ret (inl acc)
  | Some t =>
      if negb (guard acc) then ret (inl acc)
      else match fuel with
           | O => fun _ => Spin
           | S fuel' =>
               next <- get_task t list_next ;;
               r <- body t acc ;;
               match r with
               | inr v => ret (inr v)
               | inl acc' => walk fuel' next acc' guard body
               end
           end
  end.

Definition walk_fuel : nat := Z.to_nat (SCHEDULER_MAX_THREADS + 1).

(** ** Load balancing *)

Definition scheduler_migrate_runnable_task (source_cpu target_cpu : Z) (t : task_ref) (notify_target : bool)
    : M sched bool :=
  s <- gets id ;;
  let src := s.(cpus) source_cpu in
  let dst := s.(cpus) target_cpu in
  let k := s.(tasks) t in
  if source_cpu =? target_cpu then ret false
  else if negb src.(online) || negb dst.(online) then ret false
  else if bool_decide (k.(t_state) <> TASK_RUNNABLE) || bool_decide (k.(list_kind) <> TASK_LIST_RUNNABLE)
  then ret false
  else if negb (k.(assigned_cpu) =? src.(c_id)) then ret false
  else if Z.land k.(cpu_affinity_mask) (Z.shiftl 1 dst.(c_id)) =? 0 then ret false
  else
    task_list_remove (runnable source_cpu (scheduler_priority_sanitize k.(t_priority))) t ;;;
    dec_runnable_count source_cpu ;;;
    (if notify_target
     then scheduler_cpu_enqueue_runnable target_cpu t SCHEDULER_ENQUEUE_REASON_RESCHEDULE
     else scheduler_cpu_enqueue_runnable_local target_cpu t) ;;;
    scheduler_trace_counter_inc task_migrations ;;;
    ret true.

(** The result is whether a task moved, with the [cpu_load] array after the
    call.  [base] is the first processor of [cpu_view]. *)
Definition scheduler_balance_once_from_view (base cpu_count : Z) (cpu_online : Z -> bool)
    (cpu_to_node cpu_load : Z -> Z) (notify_target : bool) : M sched (bool * (Z -> Z)) :=
  if cpu_count <=? 1 then ret (false, cpu_load)
  else
    r <- for_range 0 cpu_count (fun source_index =>
      let source_cpu := base + source_index in
      src <- gets (fun s => s.(cpus) source_cpu) ;;
      if negb (cpu_online source_index) || negb src.(online) || (src.(runnable_count) =? 0) then ret None
      else
        for_range 0 SCHEDULER_PRIORITY_COUNT (fun j =>
          let priority_index := SCHEDULER_PRIORITY_COUNT - j in
          first <- get_list (runnable source_cpu (priority_index - 1)) l_head ;;
          w <- walk walk_fuel first tt (fun _ => true) (fun t _ =>
            aff <- get_task t cpu_affinity_mask ;;
            pref <- get_task t preferred_numa_node ;;
            let target_id := scheduler_select_best_cpu_from_view cpu_count cpu_online cpu_to_node cpu_load
                               aff pref src.(c_id) in
            if (target_id =? SCHEDULER_INVALID_CPU_ID) || (target_id =? src.(c_id)) then ret (inl tt)
            else if cpu_load source_index <=? u32 (cpu_load target_id + 1) then ret (inl tt)
            else
              let target_cpu := base + target_id in
              dst <- gets (fun s => s.(cpus) target_cpu) ;;
              if negb (cpu_online target_id) || negb dst.(online) then ret (inl tt)
              else
                moved <- scheduler_migrate_runnable_task source_cpu target_cpu t notify_target ;;
                if negb moved then ret (inl tt)
                else
                  let load1 := upd cpu_load source_index (u32 (cpu_load source_index - 1)) in
                  ret (inr (upd load1 target_id (u32 (load1 target_id + 1))))) ;;
          ret (match w with inr load => Some load | inl _ => None end))) ;;
    ret (match r with Some load => (true, load) | None => (false, cpu_load) end).

Definition scheduler_should_balance_now : M sched bool :=
  s <- gets id ;;
  if negb s.(scheduler_bootstrapped) || (s.(configured_cpu_count) <=? 1) || negb s.(smp_available)
  then ret false
  else if u32 (s.(system_ticks) - s.(last_balance_tick)) <? SCHEDULER_BALANCE_INTERVAL_TICKS then ret false
  else modify (set_last_balance_tick s.(system_ticks)) ;;; ret true.

Definition scheduler_balance_periodic : M sched unit :=
  scheduler_trace_counter_inc load_balance_runs ;;;
  view <- cpu_view 0 ;;
  n <- gets configured_cpu_count ;;
  let '(cpu_online, cpu_to_node, cpu_load) := view in
  _ <- for_acc (R := unit) 0 SCHEDULER_BALANCE_MAX_MIGRATIONS cpu_load (fun _ load =>
    r <- scheduler_balance_once_from_view 0 n cpu_online cpu_to_node load true ;;
    if negb (fst r) then ret (inr tt)
    else scheduler_trace_counter_inc load_balance_migrations ;;; ret (inl (snd r))) ;;
  ret tt.

(** ** Timers *)

Definition wake_sleeper (t : task_ref) : M sched unit :=
  now <- gets system_ticks ;;
  w <- get_task t wakeup_tick ;;
  if w <=? now then
    scheduler_trace_latency_record sleep_overshoot_ticks (u32 (now - w)) ;;;
    task_list_remove sleeping_list t ;;;
    scheduler_enqueue_runnable t SCHEDULER_ENQUEUE_REASON_WAKEUP ;;;
    scheduler_trace_counter_inc wakeups
  else ret tt.

Definition expire_waiter (t : task_ref) : M sched unit :=
  now <- gets system_ticks ;;
  w <- get_task t wakeup_tick ;;
  if negb (w =? 0) && (w <=? now) then
    scheduler_trace_latency_record wait_timeout_overshoot_ticks (u32 (now - w)) ;;;
    task_list_remove blocked_list t ;;;
    upd_task t (set_wait_channel None) ;;;
    upd_task t (set_wait_result false) ;;;
    upd_task t (set_wakeup_tick 0) ;;;
    scheduler_enqueue_runnable t SCHEDULER_ENQUEUE_REASON_WAKEUP ;;;
    scheduler_trace_counter_inc wakeups ;;;
    scheduler_trace_counter_inc wait_timeouts
  else ret tt.

Definition scheduler_advance_timers : M sched unit :=
  first <- get_list sleeping_list l_head ;;
  _ <- walk (R := Empty_set) walk_fuel first tt (fun _ => true) (fun t _ => wake_sleeper t ;;; ret (inl tt)) ;;
  first <- get_list blocked_list l_head ;;
  _ <- walk (R := Empty_set) walk_fuel first tt (fun _ => true) (fun t _ => expire_waiter t ;;; ret (inl tt)) ;;
  ret tt.

(** ** Switching *)

(** The result is the interrupt frame the processor returns to. *)
Definition scheduler_switch_to_task (cpu : Z) (next : option task_ref) (fallback_frame : Z)
    : M sched (option Z) :=
  previous <- get_cpu cpu current ;;
  match next with
  | None =>
      match previous with
      | Some cur =>
          st <- get_task cur t_state ;;
          if decide (st = TASK_RUNNING) then
            top <- get_task cur kernel_stack_top ;;
            emit (gdt_set_kernel_stack top) ;;;
            space <- get_task cur t_space ;;
            emit (paging_switch_space space) ;;;
            ret (Some fallback_frame)
          else panic "scheduler: cpu %u has no runnable tasks"
      | None => panic "scheduler: cpu %u has no runnable tasks"
      end
  | Some next =>
      upd_task next (set_t_state TASK_RUNNING) ;;;
      upd_task next (set_ticks_in_slice 0) ;;;
      upd_cpu cpu (set_current (Some next)) ;;;
      when (bool_decide (previous <> Some next)) (scheduler_trace_counter_inc context_switches) ;;;
      top <- get_task next kernel_stack_top ;;
      emit (gdt_set_kernel_stack top) ;;;
      space <- get_task next t_space ;;
      emit (paging_switch_space space) ;;;
      get_task next t_frame
  end.

Definition is_running (t : option task_ref) : M sched bool :=
  match t with
  | None => ret false
  | Some t => st <- get_task t t_state ;; ret (bool_decide (st = TASK_RUNNING))
  end.

Definition scheduler_schedule_cpu (cpu frame : Z) (force_switch : bool) : M sched (option Z) :=
  cur <- get_cpu cpu current ;;
  scheduler_trace_counter_inc schedule_events ;;;
  (match cur with Some t => upd_task t (set_t_frame (Some frame)) | None => ret tt end) ;;;
  running <- is_running cur ;;
  stay <- (match cur with
           | Some t =>
               if running && negb force_switch then
                 p <- get_task t t_priority ;;
                 higher <- scheduler_cpu_has_higher_priority_runnable cpu p ;;
                 ret (negb higher)
               else ret false
           | None => ret false
           end) ;;
  if stay : bool then ret (Some frame)
  else
    (match cur with
     | Some t =>
         (* here force_switch holds, or was set because of a higher priority *)
         when running (scheduler_cpu_enqueue_runnable cpu t SCHEDULER_ENQUEUE_REASON_RESCHEDULE)
     | None => ret tt
     end) ;;;
    next <- scheduler_cpu_dequeue_next_runnable cpu ;;
    scheduler_switch_to_task cpu next frame.

(** ** Zombies *)

Definition scheduler_task_is_current_on_any_cpu_locked (t : task_ref) : M sched bool :=
  n <- gets configured_cpu_count ;;
  r <- for_range 0 n (fun cpu =>
    c <- gets (fun s => s.(cpus) cpu) ;;
    ret (if negb c.(online) then None
         else if decide (c.(current) = Some t) then Some tt else None)) ;;
  ret (match r with Some _ => true | None => false end).

(** scheduler_reap_resources_t: the stack and the space of the task. *)
Definition reap_resources : Type := option Z * option Z.

Definition scheduler_detach_zombie_task_locked (t : task_ref) : M sched (option reap_resources) :=
  st <- get_task t t_state ;;
  k <- get_task t list_kind ;;
  if bool_decide (st <> TASK_ZOMBIE) || bool_decide (k <> TASK_LIST_ZOMBIE) then ret None
  else
    cur <- scheduler_task_is_current_on_any_cpu_locked t ;;
    if cur : bool then ret None
    else
      task_list_remove zombie_list t ;;;
      stack <- get_task t stack_base ;;
      space <- get_task t t_space ;;
      upd_task t (set_stack_base None) ;;;
      upd_task t (set_t_space None) ;;;
      scheduler_release_task_slot (Some t) ;;;
      ret (Some (stack, space)).

(** [kernel_space] is what [paging_kernel_space] returns. *)
Definition scheduler_cleanup_reaped_resources (kernel_space : Z) (resources : reap_resources) : M sched unit :=
  (match resources.1 with
   | Some stack => emit (paging_free_pages stack TASK_STACK_PAGES)
   | None => ret tt
   end) ;;;
  match resources.2 with
  | Some space => if space =? kernel_space then ret tt else emit (paging_destroy_process_space space)
  | None => ret tt
  end.
