(* ===== verification/SchedApi.v ===== *)
(** The scheduler's public operations: kernel/kernel/scheduler.c.

    Functions that call paging.c while the lock is free take what paging.c
    answers as arguments, and the calls are recorded in [events].  A task that
    blocks executes [int 48]; the operation is then its locked part followed by
    [scheduler_on_yield], and the frame it returns is where the processor goes. *)
From S2P Require Import Prelude SchedData Sched.
From Stdlib Require Import ZArith Lia.
Open Scope Z_scope.

(** ** Locking *)

Definition scheduler_irq_save : M sched Z :=
  flags <- gets eflags ;;
  modify (fun s => set_eflags (cli s.(eflags)) s) ;;;
  ret flags.

Definition scheduler_irq_restore (flags : Z) : M sched unit :=
  if interrupts_on flags then modify (fun s => set_eflags (sti s.(eflags)) s) else ret tt.

Definition scheduler_atomic_try_lock_u32 : M sched bool :=
  old <- gets scheduler_state_lock ;;
  modify (set_scheduler_state_lock 1) ;;;
  ret (old =? 0).

Definition scheduler_lock_irqsave : M sched Z :=
  irq_flags <- scheduler_irq_save ;;
  ok <- scheduler_atomic_try_lock_u32 ;;
  if ok : bool then ret irq_flags else fun _ => Spin.

Definition scheduler_unlock_irqrestore (irq_flags : Z) : M sched unit :=
  modify (set_scheduler_state_lock 0) ;;;
  scheduler_irq_restore irq_flags.

(** The shape of a critical section. *)
Definition with_scheduler_lock {A} (body : M sched A) : M sched A :=
  irq_flags <- scheduler_lock_irqsave ;;
  r <- body ;;
  scheduler_unlock_irqrestore irq_flags ;;;
  ret r.

(** ** Configuration *)

Record scheduler_topology_config : Type := mk_topology {
  cfg_cpu_count : Z;
  cfg_boot_cpu_id : Z;
  cfg_node_count : Z;
  cpu_to_node : Z -> Z;
  cpu_online : Z -> bool
}.

Record scheduler_task_config : Type := mk_task_config {
  cfg_priority : Z;
  cfg_cpu_affinity_mask : Z;
  cfg_preferred_numa_node : Z
}.

Definition scheduler_topology_default : scheduler_topology_config :=
  mk_topology 1 0 1 (fun _ => 0) (fun i => i =? 0).

Definition scheduler_task_config_default : scheduler_task_config :=
  mk_task_config SCHEDULER_PRIORITY_NORMAL SCHEDULER_CPU_MASK_ALL SCHEDULER_NUMA_NODE_ANY.

(** The loop that rejects a bad node and counts the processors that are on. *)
Definition count_online (config : scheduler_topology_config) : option Z :=
  fold_left (fun acc i =>
    n ← acc;
    if config.(cfg_node_count) <=? config.(cpu_to_node) i then None
    else Some (if config.(cpu_online) i then n + 1 else n)) (seqZ 0 config.(cfg_cpu_count)) (Some 0).

(** [pmm_configure_numa_topology] accepts one to eight nodes. *)
Definition pmm_accepts (nodes : Z) : bool := negb (nodes =? 0) && (nodes <=? 8).

Definition scheduler_configure_topology (config : scheduler_topology_config) : M sched bool :=
  with_scheduler_lock (
    boots <- gets scheduler_bootstrapped ;;
    live <- scheduler_has_live_tasks ;;
    if boots || live then ret false
    else if (config.(cfg_cpu_count) =? 0) || (SCHEDULER_MAX_CPUS <? config.(cfg_cpu_count)) then ret false
    else if (config.(cfg_node_count) =? 0) || (SCHEDULER_MAX_NUMA_NODES <? config.(cfg_node_count))
    then ret false
    else if config.(cfg_cpu_count) <=? config.(cfg_boot_cpu_id) then ret false
    else match count_online config with
         | None => ret false
         | Some online_count =>
             if (online_count =? 0) || negb (config.(cpu_online) config.(cfg_boot_cpu_id)) then ret false
             else
               modify (set_configured_cpu_count config.(cfg_cpu_count)) ;;;
               modify (set_configured_node_count config.(cfg_node_count)) ;;;
               modify (set_boot_cpu_id config.(cfg_boot_cpu_id)) ;;;
               for_each 0 SCHEDULER_MAX_CPUS (fun i =>
                 let inside := i <? config.(cfg_cpu_count) in
                 scheduler_cpu_state_init i (u8 i)
                   (if inside then config.(cpu_to_node) i else 0)
                   (if inside then config.(cpu_online) i else false)) ;;;
               emit (pmm_configure_numa_topology config.(cfg_node_count)) ;;;
               ret (pmm_accepts config.(cfg_node_count))
         end).

Definition scheduler_init : M sched unit :=
  task_list_init free_list ;;;
  task_list_init sleeping_list ;;;
  task_list_init blocked_list ;;;
  task_list_init zombie_list ;;;
  modify (set_scheduler_bootstrapped false) ;;;
  modify (set_system_ticks 0) ;;;
  modify (set_next_task_id 1) ;;;
  modify (set_last_balance_tick 0) ;;;
  modify (set_configured_cpu_count 0) ;;;
  modify (set_configured_node_count 0) ;;;
  modify (set_boot_cpu_id 0) ;;;
  modify (set_scheduler_state_lock 0) ;;;
  scheduler_trace_reset_locked ;;;
  for_each 0 SCHEDULER_MAX_THREADS (fun i =>
    task_reset i ;;; task_list_push_back free_list i TASK_LIST_FREE) ;;;
  ok <- scheduler_configure_topology scheduler_topology_default ;;
  if negb ok then panic "scheduler failed to configure default topology"
  else emit (register_interrupt_handler SCHEDULER_YIELD_VECTOR).

(** ** Bootstrapping *)

(** [kernel_space] and [current_space] are what paging.c answers. *)
Definition scheduler_bootstrap_cpu_task (kernel_space cpu_id stack_top : Z) (name : option string)
    : M sched (option task_ref) :=
  s <- gets id ;;
  let cpu := s.(cpus) cpu_id in
  if (s.(configured_cpu_count) =? 0) || (s.(configured_cpu_count) <=? cpu_id) || negb cpu.(online)
  then ret None
  else if bool_decide (cpu.(current) <> None) then ret None
  else
    slot <- scheduler_allocate_task_slot ;;
    match slot with
    | None => ret None
    | Some t =>
        tid <- gets next_task_id ;;
        modify (set_next_task_id (u32 (tid + 1))) ;;;
        mask <- scheduler_online_cpu_mask ;;
        upd_task t (fun k => mk_task tid (Some (default "bootstrap"%string name)) TASK_RUNNING
          SCHEDULER_PRIORITY_NORMAL mask SCHEDULER_NUMA_NODE_ANY cpu.(c_id) cpu.(numa_node)
          None None stack_top 0 0 None 0 (Some kernel_space) None false 0
          k.(list_prev) k.(list_next) k.(list_kind)) ;;;
        upd_cpu cpu_id (set_current (Some t)) ;;;
        ret (Some t)
    end.

Definition scheduler_bootstrap_current (kernel_space current_space stack_top : Z) (name : option string)
    : M sched unit :=
  irq_flags <- scheduler_lock_irqsave ;;
  s <- gets id ;;
  if s.(scheduler_bootstrapped) then panic "scheduler bootstrap attempted twice"
  else if s.(configured_cpu_count) =? 0 then panic "scheduler topology is not configured"
  else
    let task_name := default "bootstrap"%string name in
    t <- scheduler_bootstrap_cpu_task kernel_space s.(boot_cpu_id) stack_top (Some task_name) ;;
    match t with
    | None => panic "scheduler could not attach bootstrap task to cpu %u"
    | Some t =>
        upd_task t (set_t_space (Some current_space)) ;;;
        modify (set_scheduler_bootstrapped true) ;;;
        top <- get_task t kernel_stack_top ;;
        emit (gdt_set_kernel_stack top) ;;;
        scheduler_unlock_irqrestore irq_flags
    end.

Definition scheduler_bootstrap_secondary_current (kernel_space cpu_id stack_top : Z) (name : option string)
    : M sched bool :=
  with_scheduler_lock (
    s <- gets id ;;
    if negb s.(scheduler_bootstrapped) then ret false
    else if s.(configured_cpu_count) <=? cpu_id then ret false
    else if cpu_id =? s.(boot_cpu_id) then ret false
    else
      t <- scheduler_bootstrap_cpu_task kernel_space (u8 cpu_id) stack_top name ;;
      ret (bool_decide (t <> None))).

(** ** Task creation *)

Definition synthetic_frame (trampoline : Z) : interrupt_frame :=
  mk_frame 0 0 0 0 0 0 0 0 SCHEDULER_YIELD_VECTOR 0 trampoline GDT_SELECTOR_KERNEL_CODE 0x202.

(** The first critical section of [scheduler_create_kernel_task_ex]: the effective
    configuration, the node the memory should come from, and a slot. *)
Definition create_reserve (effective : scheduler_task_config)
    : M sched (option (scheduler_task_config * Z * option task_ref)) :=
  with_scheduler_lock (
    s <- gets id ;;
    if s.(configured_cpu_count) =? 0 then ret None
    else
      let priority := scheduler_priority_sanitize effective.(cfg_priority) in
      mask <- scheduler_normalize_affinity_mask effective.(cfg_cpu_affinity_mask) ;;
      let node := if negb (effective.(cfg_preferred_numa_node) =? SCHEDULER_NUMA_NODE_ANY) &&
                     (s.(configured_node_count) <=? effective.(cfg_preferred_numa_node))
                  then SCHEDULER_NUMA_NODE_ANY else effective.(cfg_preferred_numa_node) in
      hint <- scheduler_select_target_cpu mask node ;;
      hint_cpu <- scheduler_cpu_by_id hint ;;
      memory_node <- get_cpu hint_cpu numa_node ;;
      t <- scheduler_allocate_task_slot ;;
      ret (Some (mk_task_config priority mask node, memory_node, t))).

(** Its second critical section: the slot is filled in and queued. *)
Definition create_place (effective : scheduler_task_config) (name : option string) (entry arg : Z)
    (space stack frame : Z) (t : task_ref) : M sched bool :=
  with_scheduler_lock (
    s <- gets id ;;
    if s.(configured_cpu_count) =? 0 then ret false
    else
      target <- scheduler_select_target_cpu effective.(cfg_cpu_affinity_mask)
                  effective.(cfg_preferred_numa_node) ;;
      cpu <- scheduler_cpu_by_id target ;;
      c <- gets (fun s => s.(cpus) cpu) ;;
      tid <- gets next_task_id ;;
      modify (set_next_task_id (u32 (tid + 1))) ;;;
      upd_task t (fun k => mk_task tid (Some (default "kernel-task"%string name)) TASK_RUNNABLE
        effective.(cfg_priority) effective.(cfg_cpu_affinity_mask)
        effective.(cfg_preferred_numa_node) c.(c_id) c.(numa_node)
        (Some frame) (Some stack) (u32 (stack + TASK_STACK_SIZE)) 0 0
        (Some entry) arg (Some space) None false 0
        k.(list_prev) k.(list_next) k.(list_kind)) ;;;
      scheduler_cpu_enqueue_runnable cpu t SCHEDULER_ENQUEUE_REASON_RESCHEDULE ;;;
      scheduler_trace_counter_inc task_creations ;;;
      ret true).

(** [trampoline] is the address of [task_trampoline]; [space_answer] and
    [stack_answer] are what [paging_create_process_space_on_node] and
    [paging_alloc_pages_on_node] return when they are called.  Those functions are
    in Paging.v, on a state of their own: here the calls are recorded in [events] with
    their arguments, and the frames and pages that they take are not accounted for. *)
Definition scheduler_create_kernel_task_ex (trampoline : Z) (space_answer stack_answer : option Z)
    (name : option string) (entry : option Z) (arg : Z) (config : option scheduler_task_config)
    : M sched bool :=
  match entry with
  | None => ret false
  | Some entry =>
      reserved <- create_reserve (default scheduler_task_config_default config) ;;
      match reserved with
      | None => ret false
      | Some (_, _, None) => ret false
      | Some (effective, memory_node, Some t) =>
          emit (paging_create_process_space_on_node memory_node) ;;;
          match space_answer with
          | None => with_scheduler_lock (scheduler_release_task_slot (Some t)) ;;; ret false
          | Some space =>
              emit (paging_alloc_pages_on_node TASK_STACK_PAGES memory_node) ;;;
              match stack_answer with
              | None =>
                  emit (paging_destroy_process_space space) ;;;
                  with_scheduler_lock (scheduler_release_task_slot (Some t)) ;;;
                  ret false
              | Some stack =>
                  let frame := stack + TASK_STACK_SIZE - sizeof_interrupt_frame_t in
                  modify (fun s => set_frame_mem (upd s.(frame_mem) frame (synthetic_frame trampoline)) s) ;;;
                  placed <- create_place effective name entry arg space stack frame t ;;
                  if placed : bool then ret true
                  else
                    emit (paging_free_pages stack TASK_STACK_PAGES) ;;;
                    emit (paging_destroy_process_space space) ;;;
                    with_scheduler_lock (scheduler_release_task_slot (Some t)) ;;;
                    ret false
              end
          end
      end
  end.

Definition scheduler_create_kernel_task (trampoline : Z) (space_answer stack_answer : option Z)
    (name : option string) (entry : option Z) (arg : Z) : M sched bool :=
  scheduler_create_kernel_task_ex trampoline space_answer stack_answer name entry arg
    (Some scheduler_task_config_default).

Definition scheduler_set_task_priority (task_id priority : Z) : M sched bool :=
  with_scheduler_lock (
    found <- scheduler_find_task_by_id task_id ;;
    match found with
    | None => ret false
    | Some t =>
        let safe_priority := scheduler_priority_sanitize priority in
        p <- get_task t t_priority ;;
        if p =? safe_priority then ret true
        else
          st <- get_task t t_state ;;
          k <- get_task t list_kind ;;
          when (bool_decide (st = TASK_RUNNABLE) && bool_decide (k = TASK_LIST_RUNNABLE))
            (scheduler_remove_runnable (Some t)) ;;;
          upd_task t (set_t_priority safe_priority) ;;;
          st <- get_task t t_state ;;
          when (bool_decide (st = TASK_RUNNABLE))
            (scheduler_enqueue_runnable t SCHEDULER_ENQUEUE_REASON_RESCHEDULE) ;;;
          st <- get_task t t_state ;;
          when (bool_decide (st = TASK_RUNNING)) (upd_task t (set_ticks_in_slice 0)) ;;;
          scheduler_trace_counter_inc priority_updates ;;;
          ret true
    end).

(** ** Interrupts *)

Definition scheduler_on_timer_tick (frame : Z) : M sched (option Z) :=
  with_scheduler_lock (
    modify (fun s => set_system_ticks (u32 (s.(system_ticks) + 1)) s) ;;;
    scheduler_trace_counter_inc timer_ticks ;;;
    scheduler_advance_timers ;;;
    cpu <- scheduler_current_cpu_state ;;
    cur <- get_cpu cpu current ;;
    id <- get_cpu cpu c_id ;;
    boot <- gets boot_cpu_id ;;
    (if id =? boot then
       due <- scheduler_should_balance_now ;;
       when due scheduler_balance_periodic
     else ret tt) ;;;
    match cur with
    | None => scheduler_schedule_cpu cpu frame true
    | Some t =>
        st <- get_task t t_state ;;
        if bool_decide (st <> TASK_RUNNING) then scheduler_schedule_cpu cpu frame true
        else
          upd_task t (fun k => set_ticks_in_slice (u32 (k.(ticks_in_slice) + 1)) k) ;;;
          k <- gets (fun s => s.(tasks) t) ;;
          let slice := scheduler_priority_timeslice k.(t_priority) in
          higher <- (if slice <=? k.(ticks_in_slice) then ret true
                     else scheduler_cpu_has_higher_priority_runnable cpu k.(t_priority)) ;;
          if higher : bool then
            scheduler_trace_counter_inc preemptions ;;;
            scheduler_schedule_cpu cpu frame true
          else
            upd_task t (set_t_frame (Some frame)) ;;;
            ret (Some frame)
    end).

Definition scheduler_on_yield (frame : Z) : M sched (option Z) :=
  with_scheduler_lock (
    scheduler_trace_counter_inc voluntary_yields ;;;
    cpu <- scheduler_current_cpu_state ;;
    scheduler_schedule_cpu cpu frame true).

(** [int 48]: the processor pushes the frame and enters the handler. *)
Definition scheduler_yield (frame : Z) : M sched (option Z) := scheduler_on_yield frame.

(** ** Blocking *)

(** The locked part of [scheduler_sleep]; [true] when [int 48] follows. *)
Definition scheduler_sleep_locked (ticks : Z) : M sched bool :=
  if ticks =? 0 then ret true
  else
    cur <- scheduler_current_task ;;
    match cur with
    | None => ret false
    | Some t =>
        with_scheduler_lock (
          scheduler_trace_counter_inc sleep_calls ;;;
          now <- gets system_ticks ;;
          upd_task t (set_wakeup_tick (u32 (now + ticks))) ;;;
          upd_task t (set_t_state TASK_SLEEPING) ;;;
          task_list_push_back sleeping_list t TASK_LIST_SLEEPING ;;;
          ret true)
    end.

Definition scheduler_sleep (ticks frame : Z) : M sched (option Z) :=
  y <- scheduler_sleep_locked ticks ;;
  if y : bool then scheduler_yield frame else ret (Some frame).

(** The locked part of [scheduler_wait_channel]; [true] when [int 48] follows.
    The value the caller gets once it runs again is the task's [wait_result]. *)
Definition scheduler_wait_channel_locked (channel : option Z) (timeout_ticks : Z) : M sched bool :=
  match channel with
  | None => ret false
  | Some ch =>
      if timeout_ticks =? 0 then ret false
      else
        cur <- scheduler_current_task ;;
        match cur with
        | None => ret false
        | Some t =>
            with_scheduler_lock (
              scheduler_trace_counter_inc wait_calls ;;;
              upd_task t (set_wait_channel (Some ch)) ;;;
              upd_task t (set_wait_result false) ;;;
              now <- gets system_ticks ;;
              upd_task t (set_wakeup_tick
                (if timeout_ticks =? SCHEDULER_WAIT_FOREVER then 0 else u32 (now + timeout_ticks))) ;;;
              upd_task t (set_t_state TASK_BLOCKED) ;;;
              task_list_push_back blocked_list t TASK_LIST_BLOCKED ;;;
              ret true)
        end
  end.

Definition scheduler_wait_channel (channel : option Z) (timeout_ticks frame : Z) : M sched (option Z) :=
  y <- scheduler_wait_channel_locked channel timeout_ticks ;;
  if y : bool then scheduler_yield frame else ret (Some frame).

(** Waking one blocked task. *)
Definition wake_waiter (t : task_ref) : M sched unit :=
  task_list_remove blocked_list t ;;;
  upd_task t (set_wait_channel None) ;;;
  upd_task t (set_wait_result true) ;;;
  upd_task t (set_wakeup_tick 0) ;;;
  scheduler_enqueue_runnable t SCHEDULER_ENQUEUE_REASON_WAKEUP ;;;
  scheduler_trace_counter_inc wakeups.

Definition scheduler_wake_channel (channel : option Z) (max_count : Z) : M sched Z :=
  match channel with
  | None => ret 0
  | Some ch =>
      with_scheduler_lock (
        let limit := if max_count =? 0 then UINT_MAX else max_count in
        first <- get_list blocked_list l_head ;;
        r <- walk (R := Empty_set) walk_fuel first 0 (fun woke => woke <? limit) (fun t woke =>
          w <- get_task t wait_channel ;;
          if decide (w = Some ch) then wake_waiter t ;;; ret (inl (u32 (woke + 1)))
          else ret (inl woke)) ;;
        ret (match r with inl woke => woke | inr e => match e with end end))
  end.

(** ** Exit, join and reaping *)

(** [token] is the address of [scheduler_join_wait_channel_token]. *)
Definition scheduler_exit_current (token frame : Z) : M sched (option Z) :=
  irq_flags <- scheduler_lock_irqsave ;;
  cur <- scheduler_current_task ;;
  match cur with
  | None => panic "scheduler exit without current task"
  | Some t =>
      upd_task t (set_t_state TASK_ZOMBIE) ;;;
      task_list_push_back zombie_list t TASK_LIST_ZOMBIE ;;;
      scheduler_trace_counter_inc task_exits ;;;
      scheduler_unlock_irqrestore irq_flags ;;;
      scheduler_wake_channel (Some token) 0 ;;;
      scheduler_yield frame
  end.

(** One round of the loop of [scheduler_join_task]: it returns, or yields and
    tries again, or waits on the join channel for so many ticks. *)
Inductive join_step : Type :=
| JoinReturn (result : bool)
| JoinYield
| JoinWait (ticks : Z).

Definition scheduler_join_round (kernel_space task_id timeout_ticks start_tick : Z) : M sched join_step :=
  let wait_forever := timeout_ticks =? SCHEDULER_WAIT_FOREVER in
  r <- with_scheduler_lock (
    found <- scheduler_find_task_by_id task_id ;;
    match found with
    | None => ret (inl (JoinReturn false))
    | Some t =>
        st <- get_task t t_state ;;
        if decide (st = TASK_ZOMBIE) then
          res <- scheduler_detach_zombie_task_locked t ;;
          ret (inr res)
        else
          now <- gets system_ticks ;;
          if negb wait_forever then
            let elapsed := u32 (now - start_tick) in
            if timeout_ticks <=? elapsed then ret (inl (JoinReturn false))
            else ret (inl (JoinWait (timeout_ticks - elapsed)))
          else ret (inl (JoinWait SCHEDULER_WAIT_FOREVER))
    end) ;;
  match r with
  | inl step => ret step
  | inr (Some resources) =>
      scheduler_cleanup_reaped_resources kernel_space resources ;;; ret (JoinReturn true)
  | inr None =>
      now <- gets system_ticks ;;
      ret (if negb wait_forever && (timeout_ticks <=? u32 (now - start_tick))
           then JoinReturn false else JoinYield)
  end.

Definition scheduler_current_task_id : M sched Z :=
  cur <- scheduler_current_task ;;
  match cur with None => ret 0 | Some t => get_task t t_id end.

(** The checks before the loop; [Some start_tick] when it is entered. *)
Definition scheduler_join_enter (task_id timeout_ticks : Z) : M sched (option Z) :=
  if (task_id =? 0) || (timeout_ticks =? 0) then ret None
  else
    current_task_id <- scheduler_current_task_id ;;
    if negb (current_task_id =? 0) && (task_id =? current_task_id) then ret None
    else start_tick <- gets system_ticks ;; ret (Some start_tick).

(** [scheduler_join_task].  [resumed] is what the processor does from the switch to
    another task until this one runs again; the loop has no bound of its own. *)
Section Join.
Context (resumed : M sched unit) (kernel_space token frame task_id timeout_ticks : Z).

(** [scheduler_wait_channel] up to its return. *)
Definition join_wait (wait_ticks : Z) : M sched bool :=
  cur <- scheduler_current_task ;;
  waits <- scheduler_wait_channel_locked (Some token) wait_ticks ;;
  if negb waits then ret false
  else
    scheduler_yield frame ;;;
    resumed ;;;
    match cur with None => ret false | Some t => get_task t wait_result end.

Fixpoint join_loop (fuel : nat) (start_tick : Z) : M sched bool :=
  match fuel with
  | O => fun _ => Spin
  | S fuel' =>
      r <- scheduler_join_round kernel_space task_id timeout_ticks start_tick ;;
      match r with
      | JoinReturn result => ret result
      | JoinYield => scheduler_yield frame ;;; resumed ;;; join_loop fuel' start_tick
      | JoinWait wait_ticks =>
          woke <- join_wait wait_ticks ;;
          if negb woke then ret false else join_loop fuel' start_tick
      end
  end.

Definition scheduler_join_task (fuel : nat) : M sched bool :=
  r <- scheduler_join_enter task_id timeout_ticks ;;
  match r with None => ret false | Some start_tick => join_loop fuel start_tick end.
End Join.

(** The first code of a task; [run] is the code at an address, called with an argument. *)
Definition task_trampoline (run : Z -> Z -> M sched unit) (token frame : Z) : M sched (option Z) :=
  let bad := panic "scheduler entered task trampoline without a valid task" in
  cur <- scheduler_current_task ;;
  match cur with
  | None => bad
  | Some t =>
      e <- get_task t t_entry ;;
      match e with
      | None => bad
      | Some entry =>
          arg <- get_task t t_arg ;;
          run entry arg ;;;
          scheduler_exit_current token frame
      end
  end.

(** One round of [scheduler_reap_zombies]: the first zombie that no processor
    still runs. *)
Definition scheduler_reap_round (kernel_space : Z) : M sched bool :=
  r <- with_scheduler_lock (
    first <- get_list zombie_list l_head ;;
    walk walk_fuel first tt (fun _ => true) (fun t _ =>
      res <- scheduler_detach_zombie_task_locked t ;;
      ret (match res with Some resources => inr resources | None => inl tt end))) ;;
  match r with
  | inr resources => scheduler_cleanup_reaped_resources kernel_space resources ;;; ret true
  | inl _ => ret false
  end.

(** The loop ends when a round detaches nothing; every round that does empties
    a slot of the zombie list, so [walk_fuel] rounds are enough. *)
Definition scheduler_reap_zombies (kernel_space max_count : Z) : M sched Z :=
  let limit := if max_count =? 0 then UINT_MAX else max_count in
  (fix loop (fuel : nat) (reaped : Z) : M sched Z :=
     if negb (reaped <? limit) then ret reaped
     else match fuel with
          | O => fun _ => Spin
          | S fuel' =>
              detached <- scheduler_reap_round kernel_space ;;
              if negb detached then ret reaped else loop fuel' (u32 (reaped + 1))
          end) walk_fuel 0.

(** ** Queries *)

Definition scheduler_ticks : M sched Z := gets system_ticks.
Definition scheduler_cpu_count : M sched Z := gets configured_cpu_count.

Definition scheduler_current_task_name : M sched string :=
  cur <- scheduler_current_task ;;
  match cur with
  | None => ret "none"%string
  | Some t => n <- get_task t t_name ;; ret (default "none"%string n)
  end.

Definition scheduler_task_count : M sched Z :=
  with_scheduler_lock (
    r <- for_acc (R := Empty_set) 0 SCHEDULER_MAX_THREADS 0 (fun i count =>
      st <- get_task i t_state ;;
      ret (inl (if decide (st = TASK_UNUSED) then count else u32 (count + 1)))) ;;
    ret (match r with inl n => n | inr e => match e with end end)).

Record scheduler_task_snapshot : Type := mk_task_snapshot {
  snap_id : Z;
  snap_name : string;
  snap_state : string;
  snap_wakeup_tick : Z;
  snap_space : option Z;   (* whose root is reported; 0 for none *)
  snap_priority : Z;
  snap_cpu_id : Z;
  snap_numa_node : Z;
  snap_cpu_affinity_mask : Z
}.

Definition scheduler_get_task_snapshot (index : Z) : M sched (option scheduler_task_snapshot) :=
  with_scheduler_lock (
    r <- for_acc 0 SCHEDULER_MAX_THREADS 0 (fun i seen =>
      k <- gets (fun s => s.(tasks) i) ;;
      ret (if decide (k.(t_state) = TASK_UNUSED) then inl seen
           else if seen =? index then
             inr (mk_task_snapshot k.(t_id) (default "unnamed"%string k.(t_name))
                    (task_state_name k.(t_state)) k.(wakeup_tick) k.(t_space)
                    (u8 (scheduler_priority_sanitize k.(t_priority)))
                    k.(assigned_cpu) k.(assigned_numa_node) k.(cpu_affinity_mask))
           else inl (u32 (seen + 1)))) ;;
    ret (match r with inr snapshot => Some snapshot | inl _ => None end)).

(** scheduler_cpu_snapshot_t as (cpu_id, numa_node, online, runnable_count,
    running_task_id, running_task_name). *)
Definition scheduler_get_cpu_snapshot (index : Z) : M sched (option (Z * Z * bool * Z * Z * string)) :=
  with_scheduler_lock (
    s <- gets id ;;
    if s.(configured_cpu_count) <=? index then ret None
    else
      let cpu := s.(cpus) index in
      let '(tid, tname) := match cpu.(current) with
                           | None => (0, "none"%string)
                           | Some t => ((s.(tasks) t).(t_id), default "unnamed"%string (s.(tasks) t).(t_name))
                           end in
      ret (Some (cpu.(c_id), cpu.(numa_node), cpu.(online), cpu.(runnable_count), tid, tname))).

(** scheduler_list_snapshot_t as (free, runnable, sleeping, blocked, zombie). *)
Definition scheduler_get_list_snapshot : M sched (Z * Z * Z * Z * Z) :=
  with_scheduler_lock (
    s <- gets id ;;
    let runnable_total := fold_left (fun n cpu => u32 (n + (s.(cpus) cpu).(runnable_count)))
                            (seqZ 0 s.(configured_cpu_count)) 0 in
    let n l := (s.(lists) l).(l_count) in
    ret (n free_list, runnable_total, n sleeping_list, n blocked_list, n zombie_list)).

Definition scheduler_trace_reset : M sched unit := with_scheduler_lock scheduler_trace_reset_locked.

Definition scheduler_get_trace_counters : M sched (trace_counter -> Z) :=
  with_scheduler_lock (gets trace_counters).

Definition scheduler_get_trace_latency : M sched (latency_metric -> scheduler_trace_latency_metric) :=
  with_scheduler_lock (gets trace_latency).
