(* ===== verification/SchedSelfTest.v ===== *)
(** The scheduler's built-in self tests (kernel/kernel/scheduler.c,
    [scheduler_run_self_tests]), run by the model.

    The local tasks, processors, list and metric of the C functions are the
    task and processor references from 100 on, [local_list] and [local_metric]. *)
From S2P Require Import Prelude SchedData Sched SchedApi.
From Stdlib Require Import ZArith Lia.
Open Scope Z_scope.

(** scheduler_self_test_report_t: (checks, failures). *)
Definition report : Type := Z * Z.

Definition scheduler_self_test_record (r : report) (condition : bool) : report :=
  (u32 (r.1 + 1), if condition then r.2 else u32 (r.2 + 1)).

Definition record_all (r : report) (conditions : list bool) : report :=
  fold_left scheduler_self_test_record conditions r.

Definition is_task (t : option task_ref) (k : task_ref) : bool := bool_decide (t = Some k).
Definition is_null (t : option task_ref) : bool := bool_decide (t = None).

Definition scheduler_self_test_thread_list (r : report) : M sched (report * bool) :=
  task_list_init local_list ;;;
  task_reset 100 ;;; task_reset 101 ;;; task_reset 102 ;;;
  task_list_push_back local_list 100 TASK_LIST_RUNNABLE ;;;
  task_list_push_back local_list 101 TASK_LIST_RUNNABLE ;;;
  task_list_push_back local_list 102 TASK_LIST_RUNNABLE ;;;
  n <- get_list local_list l_count ;;
  let r := scheduler_self_test_record r (n =? 3) in
  a <- task_list_pop_front local_list ;;
  b <- task_list_pop_front local_list ;;
  c <- task_list_pop_front local_list ;;
  d <- task_list_pop_front local_list ;;
  m <- get_list local_list l_count ;;
  let checks := [is_task a 100; is_task b 101; is_task c 102; is_null d; m =? 0] in
  ret (record_all r checks, (n =? 3) && forallb id checks).

Definition scheduler_self_test_priority_dispatch (r : report) : M sched (report * bool) :=
  scheduler_cpu_state_init 100 0 0 true ;;;
  task_reset 100 ;;; task_reset 101 ;;; task_reset 102 ;;;
  upd_task 100 (set_t_priority SCHEDULER_PRIORITY_LOW) ;;;
  upd_task 101 (set_t_priority SCHEDULER_PRIORITY_NORMAL) ;;;
  upd_task 102 (set_t_priority SCHEDULER_PRIORITY_REALTIME) ;;;
  scheduler_cpu_enqueue_runnable_local 100 100 ;;;
  scheduler_cpu_enqueue_runnable_local 100 101 ;;;
  scheduler_cpu_enqueue_runnable_local 100 102 ;;;
  first <- scheduler_cpu_dequeue_next_runnable 100 ;;
  second <- scheduler_cpu_dequeue_next_runnable 100 ;;
  third <- scheduler_cpu_dequeue_next_runnable 100 ;;
  none <- scheduler_cpu_dequeue_next_runnable 100 ;;
  n <- get_cpu 100 runnable_count ;;
  let checks := [is_task first 102; is_task second 101; is_task third 100; is_null none; n =? 0] in
  ret (record_all r checks, forallb id checks).

Definition array {A} (d : A) (l : list A) : Z -> A := fun i => default d (l !! Z.to_nat i).

Definition scheduler_self_test_numa_selection (r : report) : M sched (report * bool) :=
  let cpu_online := array false [true; true; true; true] in
  let cpu_to_node := array 0 [0; 0; 1; 1] in
  let cpu_load := array 0 [4; 2; 1; 3] in
  let preferred_pick := scheduler_select_best_cpu_from_view 4 cpu_online cpu_to_node cpu_load
                          SCHEDULER_CPU_MASK_ALL 1 0 in
  let affinity_pick := scheduler_select_best_cpu_from_view 4 cpu_online cpu_to_node cpu_load
                         (Z.lor (Z.shiftl 1 0) (Z.shiftl 1 3)) SCHEDULER_NUMA_NODE_ANY 0 in
  let cpu_online := upd cpu_online 3 false in
  let invalid_pick := scheduler_select_best_cpu_from_view 4 cpu_online cpu_to_node cpu_load
                        (Z.shiftl 1 3) SCHEDULER_NUMA_NODE_ANY 0 in
  let checks := [preferred_pick =? 2; affinity_pick =? 3; invalid_pick =? 2] in
  ret (record_all r checks, forallb id checks).

Definition scheduler_self_test_task_migration (r : report) : M sched (report * bool) :=
  scheduler_cpu_state_init 100 0 0 true ;;;
  scheduler_cpu_state_init 101 1 0 true ;;;
  task_reset 100 ;;; task_reset 101 ;;;
  upd_task 100 (set_t_priority SCHEDULER_PRIORITY_NORMAL) ;;;
  upd_task 100 (set_cpu_affinity_mask (Z.lor (Z.shiftl 1 0) (Z.shiftl 1 1))) ;;;
  upd_task 101 (set_t_priority SCHEDULER_PRIORITY_NORMAL) ;;;
  upd_task 101 (set_cpu_affinity_mask (Z.shiftl 1 0)) ;;;
  scheduler_cpu_enqueue_runnable_local 100 100 ;;;
  scheduler_cpu_enqueue_runnable_local 100 101 ;;;
  moved <- scheduler_migrate_runnable_task 100 101 100 false ;;
  blocked <- scheduler_migrate_runnable_task 100 101 101 false ;;
  movable_cpu <- get_task 100 assigned_cpu ;;
  pinned_cpu <- get_task 101 assigned_cpu ;;
  na <- get_cpu 100 runnable_count ;;
  nb <- get_cpu 101 runnable_count ;;
  let checks := [moved; negb blocked; movable_cpu =? 1; pinned_cpu =? 0; na =? 1; nb =? 1] in
  ret (record_all r checks, forallb id checks).

Definition scheduler_self_test_load_balancer (r : report) : M sched (report * bool) :=
  for_each 0 3 (fun i => scheduler_cpu_state_init (100 + i) (u8 i) 0 true) ;;;
  task_reset 100 ;;; task_reset 101 ;;; task_reset 102 ;;;
  let all := Z.lor (Z.lor (Z.shiftl 1 0) (Z.shiftl 1 1)) (Z.shiftl 1 2) in
  upd_task 100 (set_t_priority SCHEDULER_PRIORITY_LOW) ;;;
  upd_task 100 (set_cpu_affinity_mask (Z.shiftl 1 0)) ;;;
  upd_task 101 (set_t_priority SCHEDULER_PRIORITY_BACKGROUND) ;;;
  upd_task 101 (set_cpu_affinity_mask all) ;;;
  upd_task 102 (set_t_priority SCHEDULER_PRIORITY_BACKGROUND) ;;;
  upd_task 102 (set_cpu_affinity_mask all) ;;;
  scheduler_cpu_enqueue_runnable_local 100 100 ;;;
  scheduler_cpu_enqueue_runnable_local 100 101 ;;;
  scheduler_cpu_enqueue_runnable_local 100 102 ;;;
  let cpu_online := array false [true; true; true] in
  let cpu_to_node := array 0 [0; 0; 0] in
  l0 <- scheduler_cpu_load 100 ;;
  l1 <- scheduler_cpu_load 101 ;;
  l2 <- scheduler_cpu_load 102 ;;
  m1 <- scheduler_balance_once_from_view 100 3 cpu_online cpu_to_node (array 0 [l0; l1; l2]) false ;;
  m2 <- scheduler_balance_once_from_view 100 3 cpu_online cpu_to_node (snd m1) false ;;
  m3 <- scheduler_balance_once_from_view 100 3 cpu_online cpu_to_node (snd m2) false ;;
  pinned_cpu <- get_task 100 assigned_cpu ;;
  n0 <- get_cpu 100 runnable_count ;;
  n1 <- get_cpu 101 runnable_count ;;
  n2 <- get_cpu 102 runnable_count ;;
  let checks := [fst m1; fst m2; negb (fst m3); pinned_cpu =? 0; n0 =? 1; n1 =? 1; n2 =? 1] in
  ret (record_all r checks, forallb id checks).

Definition scheduler_self_test_trace_latency_metrics (r : report) : M sched (report * bool) :=
  scheduler_trace_latency_reset_metric local_metric ;;;
  scheduler_trace_latency_record local_metric 7 ;;;
  scheduler_trace_latency_record local_metric 3 ;;;
  scheduler_trace_latency_record local_metric 11 ;;;
  m <- gets (fun s => s.(trace_latency) local_metric) ;;
  let checks := [m.(sample_count) =? 3; m.(total_ticks) =? 21; m.(min_ticks) =? 3; m.(max_ticks) =? 11] in
  ret (record_all r checks, forallb id checks).

Definition scheduler_run_self_tests : M sched (report * bool) :=
  a <- scheduler_self_test_thread_list (0, 0) ;;
  b <- scheduler_self_test_priority_dispatch (fst a) ;;
  c <- scheduler_self_test_numa_selection (fst b) ;;
  d <- scheduler_self_test_task_migration (fst c) ;;
  e <- scheduler_self_test_load_balancer (fst d) ;;
  f <- scheduler_self_test_trace_latency_metrics (fst e) ;;
  ret (fst f, snd a && snd b && snd c && snd d && snd e && snd f && (snd (fst f) =? 0)).

(** The kernel's own scheduler self tests pass after [scheduler_init]:
    thirty-one checks, no failure. *)
Theorem scheduler_self_tests_pass :
  wp (scheduler_init ;;; scheduler_run_self_tests) (fun r _ => r = ((31, 0), true)) cold_sched.
Proof. vm_compute. reflexivity. Qed.
