(* ===== verification/SchedLists.v ===== *)
(** The scheduler's intrusive lists implement sequences: every list pointer
    structure of a state represents a list of tasks, and push, remove and pop
    act on those lists as the sequence operations do. *)
From S2P Require Import Prelude SchedData Sched.
From Stdlib Require Import ZArith Lia.
From stdpp Require Import sets.
Open Scope Z_scope.

(** ** Function update *)

Section Upd.
Context {A B : Type} `{EqDecision A}.
Implicit Types (f : A -> B).

Lemma upd_eq f a b : upd f a b a = b.
Proof. unfold upd. by rewrite decide_True. Qed.
Lemma upd_ne f a b x : x <> a -> upd f a b x = f x.
Proof. intros H. unfold upd. by rewrite decide_False. Qed.
End Upd.
Ltac upd_simpl := repeat (first [rewrite upd_eq | rewrite upd_ne by (done || congruence)]).

(** ** Segments *)

Definition first_or (l : list task_ref) (d : option task_ref) : option task_ref :=
  match l with [] => d | x :: _ => Some x end.
Definition last_or (l : list task_ref) (d : option task_ref) : option task_ref :=
  match last l with Some x => Some x | None => d end.

(** The tasks of [l] are linked in order, from [p] before the first to [n]
    after the last. *)
Fixpoint dseg (tk : task_ref -> task) (p : option task_ref) (l : list task_ref) (n : option task_ref) : Prop :=
  match l with
  | [] => True
  | t :: rest => (tk t).(list_prev) = p /\ (tk t).(list_next) = first_or rest n /\ dseg tk (Some t) rest n
  end.

Lemma last_or_snoc l x d : last_or (l ++ [x]) d = Some x.
Proof. unfold last_or. by rewrite last_snoc. Qed.

Lemma last_or_cons x l d : last_or (x :: l) d = last_or l (Some x).
Proof. unfold last_or. rewrite last_cons. by destruct (last l). Qed.

Lemma first_or_app l1 l2 d : first_or (l1 ++ l2) d = first_or l1 (first_or l2 d).
Proof. by destruct l1. Qed.

Lemma dseg_app tk p l1 l2 n :
  dseg tk p (l1 ++ l2) n <-> dseg tk p l1 (first_or l2 n) /\ dseg tk (last_or l1 p) l2 n.
Proof.
  revert p. induction l1 as [|t l1 IH]; intros p; simpl; [naive_solver|].
  rewrite IH, first_or_app, last_or_cons. naive_solver.
Qed.

(** A segment only depends on the links of its tasks. *)
Lemma dseg_frame tk tk' p l n :
  (forall t, t ∈ l -> (tk' t).(list_prev) = (tk t).(list_prev) /\ (tk' t).(list_next) = (tk t).(list_next)) ->
  dseg tk p l n -> dseg tk' p l n.
Proof.
  revert p. induction l as [|t l IH]; intros p Hf; simpl; [done|]. intros (H1 & H2 & H3).
  destruct (Hf t) as [E1 E2]; [left|]. rewrite E1, E2. split; [done|]. split; [done|].
  apply IH; [|done]. intros x Hx. apply Hf. by right.
Qed.

(** Relinking the end, or the start, of a segment. *)
Lemma dseg_set_next tk tk' p l x n n' :
  NoDup (l ++ [x]) -> dseg tk p (l ++ [x]) n ->
  (forall t, t ∈ l -> (tk' t).(list_prev) = (tk t).(list_prev) /\ (tk' t).(list_next) = (tk t).(list_next)) ->
  (tk' x).(list_prev) = (tk x).(list_prev) -> (tk' x).(list_next) = n' ->
  dseg tk' p (l ++ [x]) n'.
Proof.
  intros Hd H Hf Hp Hn. apply dseg_app in H as [H1 H2]. apply dseg_app. simpl in *. split.
  - by eapply dseg_frame.
  - destruct H2 as (? & _ & _). split; [congruence|done].
Qed.

Lemma dseg_set_prev tk tk' p p' x l n :
  dseg tk p (x :: l) n ->
  (forall t, t ∈ l -> (tk' t).(list_prev) = (tk t).(list_prev) /\ (tk' t).(list_next) = (tk t).(list_next)) ->
  (tk' x).(list_prev) = p' -> (tk' x).(list_next) = (tk x).(list_next) ->
  dseg tk' p' (x :: l) n.
Proof.
  intros (H1 & H2 & H3) Hf Hp Hn. simpl. split; [done|]. split; [congruence|]. by eapply dseg_frame.
Qed.

(** ** Representation *)

Definition valid_task (t : task_ref) : Prop := 0 <= t < SCHEDULER_MAX_THREADS.

Definition kind_of (r : list_ref) : task_list_kind :=
  match r with
  | free_list => TASK_LIST_FREE
  | sleeping_list => TASK_LIST_SLEEPING
  | blocked_list => TASK_LIST_BLOCKED
  | zombie_list => TASK_LIST_ZOMBIE
  | runnable _ _ => TASK_LIST_RUNNABLE
  | local_list => TASK_LIST_RUNNABLE
  end.

Record list_rep (s : sched) (r : list_ref) (l : list task_ref) : Prop := {
  lr_head : (s.(lists) r).(l_head) = first_or l None;
  lr_tail : (s.(lists) r).(l_tail) = last_or l None;
  lr_count : (s.(lists) r).(l_count) = Z.of_nat (length l);
  lr_seg : dseg s.(tasks) None l None;
  lr_kind : forall t, t ∈ l -> (s.(tasks) t).(list_kind) = kind_of r
}.

(** Each list [r] holds the tasks [L r]; no task is on two lists, or twice. *)
Record rep (s : sched) (L : list_ref -> list task_ref) : Prop := {
  rep_list : forall r, list_rep s r (L r);
  rep_nodup : forall r, NoDup (L r);
  rep_disj : forall r1 r2 t, t ∈ L r1 -> t ∈ L r2 -> r1 = r2;
  rep_valid : forall r t, t ∈ L r -> valid_task t
}.

Definition unlisted (L : list_ref -> list task_ref) (t : task_ref) : Prop := forall r, t ∉ L r.

(** What the links leave alone. *)
Definition data (k : task) : task :=
  set_list_kind TASK_LIST_NONE (set_list_prev None (set_list_next None k)).

(** [s'] is [s] with other links. *)
Record relinked (s s' : sched) : Prop := {
  rl_rest : s' = set_tasks s'.(tasks) (set_lists s'.(lists) s);
  rl_data : forall x, data (s'.(tasks) x) = data (s.(tasks) x)
}.

#[export] Instance relinked_preorder : PreOrder relinked.
Proof.
  split.
  - intros s. split; [by destruct s|done].
  - intros s1 s2 s3 [H1 D1] [H2 D2]. split; [|intros x; by rewrite D2].
    rewrite H2, H1. by destruct s1.
Qed.

Lemma rep_length s L r : rep s L -> Z.of_nat (length (L r)) <= SCHEDULER_MAX_THREADS.
Proof.
  intros R. enough (length (L r) <= length (seqZ 0 SCHEDULER_MAX_THREADS))%nat as H
    by (rewrite length_seqZ in H; unfold SCHEDULER_MAX_THREADS in *; lia).
  apply submseteq_length, NoDup_submseteq; [apply R|]. intros x Hx.
  apply elem_of_seqZ. apply (rep_valid _ _ R) in Hx. unfold valid_task in Hx. lia.
Qed.

(** Rebuilding the representation after one list changed to [l']. *)
Lemma rep_change s s' L r l' :
  rep s L -> list_rep s' r l' -> NoDup l' ->
  (forall t, t ∈ l' -> t ∈ L r \/ unlisted L t /\ valid_task t) ->
  (forall r', r' <> r -> s'.(lists) r' = s.(lists) r') ->
  (forall r' t, r' <> r -> t ∈ L r' -> s'.(tasks) t = s.(tasks) t) ->
  rep s' (upd L r l').
Proof.
  intros R Hr Hd Hsub Hl Ht. split.
  - intros r'. destruct (decide (r' = r)) as [->|Hne]; [by rewrite upd_eq|]. rewrite upd_ne by done.
    destruct (rep_list _ _ R r') as [H1 H2 H3 H4 H5]. split; rewrite ?Hl by done; try done.
    + eapply dseg_frame; [|exact H4]. intros t Hin. by rewrite (Ht r' t Hne Hin).
    + intros t Hin. rewrite (Ht r' t Hne Hin). auto.
  - intros r'. destruct (decide (r' = r)) as [->|Hne]; [by rewrite upd_eq|]. rewrite upd_ne by done. apply R.
  - intros r1 r2 t. destruct (decide (r1 = r)) as [->|H1], (decide (r2 = r)) as [->|H2];
      rewrite ?upd_eq, ?upd_ne by done; try done.
    + intros Hin1 Hin2. destruct (Hsub t Hin1) as [Hin|[Hun _]]; [by apply (rep_disj _ _ R _ _ t)|by destruct (Hun r2)].
    + intros Hin1 Hin2. destruct (Hsub t Hin2) as [Hin|[Hun _]]; [by apply (rep_disj _ _ R _ _ t)|by destruct (Hun r1)].
    + by apply R.
  - intros r' t. destruct (decide (r' = r)) as [->|Hne]; rewrite ?upd_eq, ?upd_ne by done; [|by apply R].
    intros Hin. destruct (Hsub t Hin) as [Hin'|[_ Hv]]; [by apply (rep_valid _ _ R r)|done].
Qed.

(** ** Push *)

Lemma last_or_Some l p : last_or l None = Some p -> exists l0, l = l0 ++ [p].
Proof.
  unfold last_or. destruct (last l) as [x|] eqn:E; [|done]. intros [= ->]. by apply last_Some.
Qed.

Lemma last_or_None l : last_or l None = None -> l = [].
Proof. unfold last_or. destruct (last l) eqn:E; [done|]. intros _. by apply last_None. Qed.

(** The links after a push. *)
Definition pushed (tk : task_ref -> task) (l : list task_ref) (t : task_ref) (kind : task_list_kind)
    (x : task_ref) : task :=
  if decide (x = t) then set_list_kind kind (set_list_next None (set_list_prev (last_or l None) (tk t)))
  else if decide (last_or l None = Some x) then set_list_next (Some t) (tk x)
  else tk x.

Lemma pushed_new tk l t k : pushed tk l t k t = set_list_kind k (set_list_next None (set_list_prev (last_or l None) (tk t))).
Proof. unfold pushed. by rewrite decide_True. Qed.

Lemma pushed_old tk l t k x : x <> t -> last_or l None <> Some x -> pushed tk l t k x = tk x.
Proof. intros H1 H2. unfold pushed. by rewrite !decide_False. Qed.

Lemma pushed_last tk l t k x : x <> t -> last_or l None = Some x -> pushed tk l t k x = set_list_next (Some t) (tk x).
Proof. intros H1 H2. unfold pushed. by rewrite decide_False, decide_True. Qed.

Lemma pushed_other tk l t k x :
  x <> t -> pushed tk l t k x = tk x \/ pushed tk l t k x = set_list_next (Some t) (tk x).
Proof. intros H. unfold pushed. rewrite decide_False by done. case_decide; auto. Qed.

Lemma last_or_in l x : last_or l None = Some x -> x ∈ l.
Proof. intros (l0 & ->)%last_or_Some. set_solver. Qed.

Lemma pushed_seg tk l t k :
  NoDup (l ++ [t]) -> dseg tk None l None -> dseg (pushed tk l t k) None (l ++ [t]) None.
Proof.
  intros Hnd H. pose proof Hnd as (Hnd0 & Hdis & _)%NoDup_app.
  assert (Hne : forall x, x ∈ l -> x <> t) by (intros x Hx ->; apply (Hdis t); [done|set_solver]).
  apply dseg_app. split; [|by simpl; rewrite pushed_new].
  destruct (last_or l None) as [p|] eqn:El; [|by rewrite (last_or_None _ El)].
  destruct (last_or_Some _ _ El) as [l0 El0]. pose proof Hnd0 as Hnd1. rewrite El0 in Hnd1 |- *.
  pose proof Hnd1 as (_ & Hdis0 & _)%NoDup_app. pose proof (last_or_in _ _ El) as Hp.
  rewrite El0 in H. apply (dseg_set_next tk _ None l0 p None); try done.
  - intros x Hx. rewrite <- El0. rewrite pushed_old; [done|apply Hne; rewrite El0; set_solver|].
    rewrite El. intros [= ->]. apply (Hdis0 x); set_solver.
  - rewrite <- El0, pushed_last; [done|by apply Hne|done].
  - rewrite <- El0, pushed_last; [done|by apply Hne|done].
Qed.

Lemma push_rep s s' L r t :
  rep s L -> unlisted L t -> valid_task t ->
  (forall x, s'.(tasks) x = pushed s.(tasks) (L r) t (kind_of r) x) ->
  s'.(lists) r = mk_list (first_or (L r) (Some t)) (Some t) (Z.of_nat (length (L r ++ [t]))) ->
  (forall r', r' <> r -> s'.(lists) r' = s.(lists) r') ->
  rep s' (upd L r (L r ++ [t])).
Proof.
  intros R Hun Hv Htk Hl Hlo. destruct (rep_list _ _ R r) as [Hh Ht Hc Hs Hk].
  assert (Hne : forall x r', x ∈ L r' -> x <> t) by (intros x r' Hx ->; by apply (Hun r')).
  assert (Hnd : NoDup (L r ++ [t])).
  { apply NoDup_app. split; [apply R|]. split; [|apply NoDup_singleton].
    intros x Hx Hx'%list_elem_of_singleton. subst x. by apply (Hun r). }
  apply (rep_change s); try done.
  - split; rewrite ?Hl; simpl; try done.
    + by rewrite first_or_app.
    + by rewrite last_or_snoc.
    + eapply dseg_frame; [|by apply (pushed_seg _ _ _ (kind_of r) Hnd Hs)]. intros x _. by rewrite Htk.
    + intros x [Hx|Hx%list_elem_of_singleton]%elem_of_app; [|subst x; by rewrite Htk, pushed_new].
      rewrite Htk. destruct (pushed_other s.(tasks) (L r) t (kind_of r) x) as [-> | ->];
        [by apply (Hne x r)|by apply Hk|by apply Hk].
  - intros x [?|Hx%list_elem_of_singleton]%elem_of_app; [auto|subst x; auto].
  - intros r' x Hr' Hx. rewrite Htk, pushed_old; [done|by apply (Hne x r')|].
    intros E%last_or_in. apply Hr'. by apply (rep_disj _ _ R _ _ x).
Qed.

Lemma pushed_data tk l t k x : data (pushed tk l t k x) = data (tk x).
Proof.
  destruct (decide (x = t)) as [->|Hne]; [by rewrite pushed_new|].
  by destruct (pushed_other tk l t k x Hne) as [-> | ->].
Qed.

(** What a push does to the tasks. *)
Lemma push_back_run s L r t :
  rep s L -> unlisted L t ->
  exists s', task_list_push_back r t (kind_of r) s = Done tt s' /\
    s' = set_tasks s'.(tasks) (set_lists s'.(lists) s) /\
    (forall x, s'.(tasks) x = pushed s.(tasks) (L r) t (kind_of r) x) /\
    s'.(lists) r = mk_list (first_or (L r) (Some t)) (Some t) (Z.of_nat (length (L r ++ [t]))) /\
    (forall r', r' <> r -> s'.(lists) r' = s.(lists) r').
Proof.
  intros R Hun. destruct (rep_list _ _ R r) as [Hh Ht Hc _ _].
  pose proof (rep_length s L r R) as Hlen. unfold SCHEDULER_MAX_THREADS in Hlen.
  assert (Hcount : u32 ((s.(lists) r).(l_count) + 1) = Z.of_nat (length (L r ++ [t])))
    by (rewrite Hc, length_app, wrap_small by word_lia; simpl; lia).
  unfold task_list_push_back, get_list, upd_task, upd_list. run. rewrite Ht.
  destruct (last_or (L r) None) as [p|] eqn:El; run; eexists; (split; [reflexivity|]); simpl;
    (split; [done|]).
  - assert (p <> t) by (intros ->; by apply (Hun r), last_or_in). split; [|split].
    + intros x. destruct (decide (x = t)) as [->|]; [rewrite pushed_new, El; by upd_simpl|].
      destruct (decide (x = p)) as [->|]; [rewrite pushed_last by done; by upd_simpl|].
      rewrite pushed_old by (done || congruence). by upd_simpl.
    + upd_simpl. simpl. rewrite Hcount. destruct (last_or_Some _ _ El) as [l0 E0].
      unfold set_l_count, set_l_tail. simpl. rewrite Hh, E0. by destruct l0.
    + intros r' Hr'. by upd_simpl.
  - rewrite (last_or_None _ El) in *. split; [|split].
    + intros x. destruct (decide (x = t)) as [->|]; [rewrite pushed_new; by upd_simpl|].
      rewrite pushed_old by done. by upd_simpl.
    + upd_simpl. simpl. by rewrite Hcount.
    + intros r' Hr'. by upd_simpl.
Qed.

Lemma push_back_spec s L r t :
  rep s L -> unlisted L t -> valid_task t ->
  exists s', task_list_push_back r t (kind_of r) s = Done tt s' /\
    rep s' (upd L r (L r ++ [t])) /\ relinked s s' /\
    (forall x, x <> t -> (s'.(tasks) x).(list_kind) = (s.(tasks) x).(list_kind)).
Proof.
  intros R Hun Hv. destruct (push_back_run s L r t R Hun) as (s' & Hrun & Hrest & Htk & Hl & Hlo).
  exists s'. split; [done|]. split; [by eapply push_rep|]. split.
  - split; [done|]. intros x. by rewrite Htk, pushed_data.
  - intros x Hx. rewrite Htk. by destruct (pushed_other s.(tasks) (L r) t (kind_of r) x Hx) as [-> | ->].
Qed.

(** ** Remove *)

(** The links after removing [t] from [l1 ++ t :: l2]. *)
Definition removed (tk : task_ref -> task) (l1 l2 : list task_ref) (t x : task_ref) : task :=
  if decide (x = t) then data (tk t)
  else if decide (last_or l1 None = Some x) then set_list_next (first_or l2 None) (tk x)
  else if decide (first_or l2 None = Some x) then set_list_prev (last_or l1 None) (tk x)
  else tk x.

Lemma first_or_in l x : first_or l None = Some x -> x ∈ l.
Proof. destruct l; [done|]. intros [= ->]. left. Qed.

Lemma removed_kind tk l1 l2 t x : x <> t -> (removed tk l1 l2 t x).(list_kind) = (tk x).(list_kind).
Proof. intros H. unfold removed. rewrite decide_False by done. by repeat case_decide. Qed.

Lemma removed_data tk l1 l2 t x : data (removed tk l1 l2 t x) = data (tk x).
Proof. unfold removed. case_decide as E; [by subst|]. by repeat case_decide. Qed.

Lemma removed_old tk l1 l2 t x :
  x <> t -> last_or l1 None <> Some x -> first_or l2 None <> Some x -> removed tk l1 l2 t x = tk x.
Proof. intros ? ? ?. unfold removed. by rewrite !decide_False. Qed.

(** In a list without duplicates the neighbours of [t] are distinct. *)
Lemma nodup_middle (l1 l2 : list task_ref) t :
  NoDup (l1 ++ t :: l2) ->
  NoDup (l1 ++ l2) /\ (t ∉ l1 ++ l2) /\ (forall x, x ∈ l1 -> x ∈ l2 -> False).
Proof.
  intros H. rewrite <- Permutation_middle in H. apply NoDup_cons in H as [H1 H2].
  split; [done|]. split; [done|]. intros x Hx Hy. apply NoDup_app in H2 as (_ & H2 & _). by apply (H2 x).
Qed.

Lemma removed_seg tk l1 l2 t :
  NoDup (l1 ++ t :: l2) -> dseg tk None (l1 ++ t :: l2) None ->
  dseg (removed tk l1 l2 t) None (l1 ++ l2) None.
Proof.
  intros Hnd H. destruct (nodup_middle _ _ _ Hnd) as (Hnd' & Hnt & Hdis).
  assert (Hne : forall x, x ∈ l1 ++ l2 -> x <> t) by (by intros x Hx ->).
  apply dseg_app in H as (H1 & _ & _ & H2). apply dseg_app. split.
  - destruct (last_or l1 None) as [p|] eqn:El; [|by rewrite (last_or_None _ El)].
    destruct (last_or_Some _ _ El) as [l0 El0]. rewrite El0 in H1 |- *.
    assert (Hnd1 : NoDup (l0 ++ [p])) by (rewrite <- El0; by apply NoDup_app in Hnd' as [? _]).
    assert (p ∈ l1) by (by apply last_or_in).
    apply (dseg_set_next tk _ None l0 p (Some t)); try done; try rewrite <- El0.
    + intros x Hx. assert (x ∈ l1) by (rewrite El0; set_solver).
      rewrite removed_old; [done|apply Hne; set_solver| |].
      * rewrite El. intros [= ->]. apply NoDup_app in Hnd1 as (_ & Hd & _). apply (Hd x); set_solver.
      * intros Hf%first_or_in. by apply (Hdis x).
    + unfold removed. rewrite decide_False by (apply Hne; set_solver). by rewrite decide_True.
    + unfold removed. rewrite decide_False by (apply Hne; set_solver). by rewrite decide_True.
  - destruct l2 as [|y l2]; [done|].
    assert (y <> t) by (apply Hne; set_solver).
    assert (Hly : last_or l1 None <> Some y) by (intros Hl%last_or_in; apply (Hdis y); set_solver).
    apply NoDup_app in Hnd' as (_ & _ & [Hy _]%NoDup_cons).
    apply (dseg_set_prev tk _ (Some t) _ y l2 None H2).
    + intros x Hx. assert (x <> y) by (by intros ->). rewrite removed_old; [done|apply Hne; set_solver| |].
      * intros Hl%last_or_in. apply (Hdis x); set_solver.
      * simpl. congruence.
    + unfold removed. rewrite !decide_False by done. by rewrite decide_True.
    + unfold removed. rewrite !decide_False by done. by rewrite decide_True.
Qed.

(** The ends of a list from which [t] is taken. *)
Lemma remove_ends (l1 l2 : list task_ref) t :
  (match last_or l1 None with
   | Some _ => first_or (l1 ++ t :: l2) None | None => first_or l2 None end) = first_or (l1 ++ l2) None /\
  (match first_or l2 None with
   | Some _ => last_or (l1 ++ t :: l2) None | None => last_or l1 None end) = last_or (l1 ++ l2) None.
Proof.
  split.
  - destruct (last_or l1 None) eqn:E; [|by rewrite (last_or_None _ E)].
    destruct l1; [done|]. by rewrite !first_or_app.
  - destruct l2 as [|y l2]; simpl; [by rewrite app_nil_r|].
    unfold last_or. rewrite !last_app, !last_cons. by destruct (last l2).
Qed.

Lemma remove_run s L r t l1 l2 :
  rep s L -> L r = l1 ++ t :: l2 ->
  exists s', task_list_remove r t s = Done tt s' /\
    s' = set_tasks s'.(tasks) (set_lists s'.(lists) s) /\
    (forall x, s'.(tasks) x = removed s.(tasks) l1 l2 t x) /\
    s'.(lists) r = mk_list (first_or (l1 ++ l2) None) (last_or (l1 ++ l2) None)
                     (Z.of_nat (length (l1 ++ l2))) /\
    (forall r', r' <> r -> s'.(lists) r' = s.(lists) r').
Proof.
  intros R HL. destruct (rep_list _ _ R r) as [Hh Ht Hc Hs _]. rewrite HL in *.
  pose proof (rep_nodup _ _ R r) as Hnd. rewrite HL in Hnd.
  destruct (nodup_middle _ _ _ Hnd) as (_ & Hnt & Hdis).
  assert (Hne : forall x, x ∈ l1 ++ l2 -> x <> t) by (by intros x Hx ->).
  pose proof Hs as (_ & Hprev & Hnext & _)%dseg_app.
  destruct (remove_ends l1 l2 t) as [<- <-]. rewrite <- Hh, <- Ht.
  assert ((0 <? (s.(lists) r).(l_count)) = true /\
                   (s.(lists) r).(l_count) - 1 = Z.of_nat (length (l1 ++ l2))) as [Hpos Hcount].
  { rewrite Hc, !length_app. cbn [length].
    split; [apply Z.ltb_lt|]; unfold task_ref in *; lia. }
  assert (Hpne : forall p, last_or l1 None = Some p -> p <> t) by (intros p ?%last_or_in; apply Hne; set_solver).
  assert (Hnne : forall n, first_or l2 None = Some n -> n <> t) by (intros n ?%first_or_in; apply Hne; set_solver).
  assert (Hpn : forall p n, last_or l1 None = Some p -> first_or l2 None = Some n -> p <> n).
  { intros p n ?%last_or_in ?%first_or_in ->. by apply (Hdis n). }
  unfold task_list_remove, get_task, upd_task, upd_list. run. rewrite Hprev, Hnext.
  destruct (last_or l1 None) as [p|] eqn:Ep, (first_or l2 None) as [n|] eqn:En; run;
    try pose proof (Hpne p eq_refl); try pose proof (Hnne n eq_refl); try pose proof (Hpn p n eq_refl eq_refl);
    eexists; (split; [reflexivity|]); simpl; (split; [done|]); (split; [|split]);
    try (intros r' Hr'; by upd_simpl);
    try (intros x; unfold removed; rewrite ?Ep, ?En; repeat case_decide; simplify_eq; by upd_simpl);
    upd_simpl; simpl; unfold set_l_count, set_l_head, set_l_tail; simpl; by rewrite Hpos, Hcount.
Qed.

Lemma remove_rep s s' L r t l1 l2 :
  rep s L -> L r = l1 ++ t :: l2 ->
  (forall x, s'.(tasks) x = removed s.(tasks) l1 l2 t x) ->
  s'.(lists) r = mk_list (first_or (l1 ++ l2) None) (last_or (l1 ++ l2) None) (Z.of_nat (length (l1 ++ l2))) ->
  (forall r', r' <> r -> s'.(lists) r' = s.(lists) r') ->
  rep s' (upd L r (l1 ++ l2)).
Proof.
  intros R HL Htk Hl Hlo. destruct (rep_list _ _ R r) as [Hh Ht Hc Hs Hk]. rewrite HL in *.
  pose proof (rep_nodup _ _ R r) as Hnd. rewrite HL in Hnd.
  destruct (nodup_middle _ _ _ Hnd) as (Hnd' & Hnt & Hdis).
  assert (Hmem : forall x, x ∈ l1 ++ l2 -> x ∈ L r /\ x <> t).
  { intros x Hx. split; [rewrite HL; set_solver|]. by intros ->. }
  apply (rep_change s); try done.
  - split; rewrite ?Hl; simpl; try done.
    + eapply dseg_frame; [|by apply (removed_seg _ _ _ _ Hnd Hs)]. intros x _. by rewrite Htk.
    + intros x Hx. destruct (Hmem x Hx) as [Hin Hxt]. rewrite Htk, removed_kind by done. apply Hk. by rewrite <- HL.
  - intros x Hx. left. by apply Hmem.
  - intros r' x Hr' Hx. rewrite Htk. apply removed_old.
    + intros ->. apply Hr'. apply (rep_disj _ _ R _ _ t); [done|]. rewrite HL. set_solver.
    + intros E%last_or_in. apply Hr'. apply (rep_disj _ _ R _ _ x); [done|]. rewrite HL. set_solver.
    + intros E%first_or_in. apply Hr'. apply (rep_disj _ _ R _ _ x); [done|]. rewrite HL. set_solver.
Qed.

Lemma remove_spec s L r t l1 l2 :
  rep s L -> L r = l1 ++ t :: l2 ->
  exists s', task_list_remove r t s = Done tt s' /\
    rep s' (upd L r (l1 ++ l2)) /\ unlisted (upd L r (l1 ++ l2)) t /\ relinked s s' /\
    (s'.(tasks) t).(list_kind) = TASK_LIST_NONE /\
    (forall x, x <> t -> (s'.(tasks) x).(list_kind) = (s.(tasks) x).(list_kind)).
Proof.
  intros R HL. destruct (remove_run s L r t l1 l2 R HL) as (s' & Hrun & Hrest & Htk & Hl & Hlo).
  exists s'. split; [done|]. split; [by eapply remove_rep|]. split; [|split; [|split]].
  - intros r'. destruct (decide (r' = r)) as [->|Hne]; rewrite ?upd_eq, ?upd_ne by done.
    + pose proof (rep_nodup _ _ R r) as Hnd. rewrite HL in Hnd. by apply nodup_middle in Hnd as (_ & ? & _).
    + intros Hin. apply Hne. apply (rep_disj _ _ R _ _ t); [done|]. rewrite HL. set_solver.
  - split; [done|]. intros x. by rewrite Htk, removed_data.
  - rewrite Htk. unfold removed. by rewrite decide_True.
  - intros x Hx. by rewrite Htk, removed_kind.
Qed.

(** ** Pop *)

Lemma pop_front_spec s L r :
  rep s L ->
  match L r with
  | [] => task_list_pop_front r s = Done None s
  | t :: l => exists s', task_list_pop_front r s = Done (Some t) s' /\
      rep s' (upd L r l) /\ unlisted (upd L r l) t /\ relinked s s' /\
      (s'.(tasks) t).(list_kind) = TASK_LIST_NONE /\
      (forall x, x <> t -> (s'.(tasks) x).(list_kind) = (s.(tasks) x).(list_kind))
  end.
Proof.
  intros R. unfold task_list_pop_front, get_list. pose proof (lr_head _ _ _ (rep_list _ _ R r)) as Hh.
  destruct (L r) as [|t l] eqn:HL; run; rewrite Hh; simpl; run; [done|].
  destruct (remove_spec s L r t [] l R HL) as (s' & Hrun & H). exists s'.
  by rewrite (run_bind_done _ _ _ _ _ Hrun).
Qed.

(** ** Queues *)

Fixpoint push_all (r : list_ref) (ts : list task_ref) : M sched unit :=
  match ts with
  | [] => ret tt
  | t :: ts' => task_list_push_back r t (kind_of r) ;;; push_all r ts'
  end.

Fixpoint pop_all (r : list_ref) (n : nat) : M sched (list (option task_ref)) :=
  match n with
  | O => ret []
  | S n' => t <- task_list_pop_front r ;; ts <- pop_all r n' ;; ret (t :: ts)
  end.

Lemma push_all_run r ts : forall s L,
  rep s L -> NoDup ts -> (forall t, t ∈ ts -> unlisted L t /\ valid_task t) ->
  exists s' L', push_all r ts s = Done tt s' /\ rep s' L' /\ relinked s s' /\ L' r = L r ++ ts.
Proof.
  induction ts as [|t ts IH]; intros s L R Hnd Hts.
  - exists s, L. by rewrite app_nil_r.
  - apply NoDup_cons in Hnd as [Hn Hnd]. destruct (Hts t ltac:(left)) as [Hun Hv].
    destruct (push_back_spec s L r t R Hun Hv) as (s1 & Hrun & R1 & Hrl & _).
    destruct (IH s1 (upd L r (L r ++ [t])) R1 Hnd) as (s2 & L2 & Hrun2 & R2 & Hrl2 & HL2).
    { intros x Hx. destruct (Hts x ltac:(by right)) as [Hux Hvx]. split; [|done]. intros r' Hin.
      destruct (decide (r' = r)) as [->|]; rewrite ?upd_eq, ?upd_ne in Hin by done; [|by apply (Hux r')].
      apply elem_of_app in Hin as [Hin|Hin%list_elem_of_singleton]; [by apply (Hux r)|by subst x]. }
    exists s2, L2. split; [simpl; by rewrite (run_bind_done _ _ _ _ _ Hrun)|]. split; [done|].
    split; [by etransitivity|]. by rewrite HL2, upd_eq, <- app_assoc.
Qed.

Lemma pop_all_run r ts : forall s L,
  rep s L -> L r = ts ->
  exists s' L', pop_all r (length ts) s = Done (Some <$> ts) s' /\ rep s' L' /\ relinked s s' /\ L' r = [].
Proof.
  induction ts as [|t ts IH]; intros s L R HL.
  - by exists s, L.
  - pose proof (pop_front_spec s L r R) as Hp. rewrite HL in Hp. destruct Hp as (s1 & Hrun & R1 & _ & Hrl & _).
    destruct (IH s1 (upd L r ts) R1) as (s2 & L2 & Hrun2 & R2 & Hrl2 & HL2); [by rewrite upd_eq|].
    exists s2, L2. split; [|by split_and!; try done; etransitivity].
    simpl. rewrite (run_bind_done _ _ _ _ _ Hrun), (run_bind_done _ _ _ _ _ Hrun2). done.
Qed.

(** A task list is a queue.  On well-formed lists, pushing distinct unlisted
    tasks [ts] on a list and then popping it empty returns its old contents followed
    by [ts], in order; the lists stay well formed and no task changes but for its
    links. *)
Theorem task_list_fifo s L r ts :
  rep s L -> NoDup ts -> (forall t, t ∈ ts -> unlisted L t /\ valid_task t) ->
  exists s1 s2 L2, push_all r ts s = Done tt s1 /\
    pop_all r (length (L r ++ ts)) s1 = Done (Some <$> (L r ++ ts)) s2 /\
    rep s2 L2 /\ L2 r = [] /\ relinked s s2.
Proof.
  intros R Hnd Hts. destruct (push_all_run r ts s L R Hnd Hts) as (s1 & L1 & Hrun1 & R1 & Hrl1 & HL1).
  destruct (pop_all_run r (L r ++ ts) s1 L1 R1 HL1) as (s2 & L2 & Hrun2 & R2 & Hrl2 & HL2).
  exists s1, s2, L2. split_and!; try done. by etransitivity.
Qed.

Lemma cold_rep : rep cold_sched (fun _ => []).
Proof.
  split; [|by intros r; apply NoDup_nil|by intros r1 r2 t ?%elem_of_nil|by intros r t ?%elem_of_nil].
  intros r. split; try done. by intros t ?%elem_of_nil.
Qed.

Lemma task_list_fifo_witness :
  exists s1 s2 L2, push_all zombie_list [3; 1; 2] cold_sched = Done tt s1 /\
    pop_all zombie_list 3 s1 = Done [Some 3; Some 1; Some 2] s2 /\
    rep s2 L2 /\ L2 zombie_list = [] /\ relinked cold_sched s2.
Proof.
  apply (task_list_fifo cold_sched (fun _ => []) zombie_list [3; 1; 2]).
  - exact cold_rep.
  - by apply (bool_decide_unpack _), I.
  - intros t Ht. split; [by intros r ?%elem_of_nil|].
    assert (t = 3 \/ t = 1 \/ t = 2) as [->|[->| ->]] by set_solver; by vm_compute.
Defined.
