(* ===== verification/SchedInv.v ===== *)
(** The invariant of the scheduler's state, and what its internal operations do
    to it. *)
From S2P Require Import Prelude SchedData Sched SchedLists.
From Stdlib Require Import ZArith Lia.
From stdpp Require Import sets.
Open Scope Z_scope.

(** ** The invariant *)

(** What being on a list says about a task. *)
Definition in_state (s : sched) (r : list_ref) (k : task) : Prop :=
  match r with
  | free_list => k.(t_state) = TASK_UNUSED
  | sleeping_list => k.(t_state) = TASK_SLEEPING
  | blocked_list => k.(t_state) = TASK_BLOCKED
  | zombie_list => k.(t_state) = TASK_ZOMBIE
  | runnable c p => k.(t_state) = TASK_RUNNABLE /\ k.(assigned_cpu) = c /\ k.(t_priority) = p /\
                    0 <= c < s.(configured_cpu_count) /\ 0 <= p < SCHEDULER_PRIORITY_COUNT /\
                    (s.(cpus) c).(online) = true
  | local_list => False
  end.

(** How many tasks wait on the run queues of processor [c]. *)
Definition queue_length (L : list_ref -> list task_ref) (c : Z) : Z :=
  fold_right (fun p n => Z.of_nat (length (L (runnable c p))) + n) 0 [0; 1; 2; 3; 4].

(** Two unsigned fields, whose values pick a queue. *)
Definition unsigned_fields (k : task) : Prop := 0 <= k.(t_priority) /\ 0 <= k.(assigned_cpu).

Record core (s : sched) (L : list_ref -> list task_ref) : Prop := {
  core_rep : rep s L;
  core_cfg : 1 <= s.(configured_cpu_count) <= SCHEDULER_MAX_CPUS;
  core_boot : 0 <= s.(boot_cpu_id) < s.(configured_cpu_count);
  core_boot_on : (s.(cpus) s.(boot_cpu_id)).(online) = true;
  core_id : forall c, 0 <= c < s.(configured_cpu_count) -> (s.(cpus) c).(c_id) = c;
  core_state : forall r t, t ∈ L r -> in_state s r (s.(tasks) t);
  core_count : forall c, 0 <= c < s.(configured_cpu_count) ->
    (s.(cpus) c).(runnable_count) = queue_length L c;
  core_unsigned : forall t, unsigned_fields (s.(tasks) t)
}.

(** ** What the internal operations leave alone *)

(** The processor descriptors agree, up to the run-queue counter. *)
Definition same_cpu (a b : scheduler_cpu_state) : Prop :=
  b.(c_id) = a.(c_id) /\ b.(numa_node) = a.(numa_node) /\ b.(online) = a.(online) /\ b.(current) = a.(current).

Record same_env (s s' : sched) : Prop := {
  se_cpus : forall c, same_cpu (s.(cpus) c) (s'.(cpus) c);
  se_count : s'.(configured_cpu_count) = s.(configured_cpu_count);
  se_nodes : s'.(configured_node_count) = s.(configured_node_count);
  se_boot : s'.(boot_cpu_id) = s.(boot_cpu_id);
  se_ticks : s'.(system_ticks) = s.(system_ticks);
  se_next : s'.(next_task_id) = s.(next_task_id);
  se_bootstrapped : s'.(scheduler_bootstrapped) = s.(scheduler_bootstrapped);
  se_lock : s'.(scheduler_state_lock) = s.(scheduler_state_lock);
  se_this : s'.(this_cpu) = s.(this_cpu);
  se_smp : s'.(smp_available) = s.(smp_available);
  se_eflags : s'.(eflags) = s.(eflags)
}.

#[export] Instance same_env_preorder : PreOrder same_env.
Proof.
  split; [by intros s; split|]. intros s1 s2 s3 [] []. split; try congruence.
  intros c. unfold same_cpu in *. destruct (se_cpus0 c) as (? & ? & ? & ?), (se_cpus1 c) as (? & ? & ? & ?).
  repeat split; congruence.
Qed.

(** Tracing and events: no task, list or processor changes. *)
Record quiet (s s' : sched) : Prop := {
  qu_tasks : s'.(tasks) = s.(tasks);
  qu_lists : s'.(lists) = s.(lists);
  qu_cpus : s'.(cpus) = s.(cpus);
  qu_env : same_env s s'
}.

#[export] Instance quiet_preorder : PreOrder quiet.
Proof.
  split; [by intros s; split|]. intros s1 s2 s3 [] []. split; try congruence. by etransitivity.
Qed.

Lemma core_quiet s s' L : quiet s s' -> core s L -> core s' L.
Proof.
  intros [Ht Hl Hc He] [[]]. pose proof (se_count _ _ He) as E1. pose proof (se_boot _ _ He) as E2.
  split; rewrite ?E1, ?E2, ?Hc; try done.
  - split; try done. intros r. destruct (rep_list r). split; rewrite ?Ht, ?Hl; done.
  - intros r t Hin. rewrite Ht. specialize (core_state0 r t Hin).
    destruct r; simpl in *; try done. by rewrite E1, Hc.
  - by rewrite Ht.
Qed.

(** The data of tasks outside [P] is unchanged. *)
Definition keeps (P : task_ref -> Prop) (s s' : sched) : Prop :=
  forall x, ~ P x -> data (s'.(tasks) x) = data (s.(tasks) x).

Lemma keeps_refl P s : keeps P s s.
Proof. by intros x. Qed.
Lemma keeps_trans P Q s1 s2 s3 : keeps P s1 s2 -> keeps Q s2 s3 -> keeps (fun x => P x \/ Q x) s1 s3.
Proof. intros H1 H2 x Hx. rewrite H2, H1; [done|tauto..]. Qed.

(** Fields of equal data are equal. *)
Lemma data_fields (k k' : task) :
  data k' = data k ->
  k'.(t_state) = k.(t_state) /\ k'.(t_priority) = k.(t_priority) /\ k'.(assigned_cpu) = k.(assigned_cpu) /\
  k'.(wakeup_tick) = k.(wakeup_tick) /\ k'.(wait_channel) = k.(wait_channel) /\
  k'.(cpu_affinity_mask) = k.(cpu_affinity_mask) /\ k'.(t_id) = k.(t_id) /\
  k'.(wait_result) = k.(wait_result) /\ k'.(t_frame) = k.(t_frame).
Proof. destruct k, k'. unfold data. simpl. intros [= -> -> -> -> -> -> -> -> -> -> -> -> -> -> -> -> -> -> ->]. done. Qed.

Lemma in_state_data s s' r k k' :
  data k' = data k -> s'.(configured_cpu_count) = s.(configured_cpu_count) ->
  (forall c, same_cpu (s.(cpus) c) (s'.(cpus) c)) ->
  in_state s r k -> in_state s' r k'.
Proof.
  intros (E1 & E2 & E3 & _)%data_fields Hc Hs. destruct r; simpl; rewrite ?E1, ?E2, ?E3, ?Hc; try done.
  destruct (Hs cpu) as (_ & _ & -> & _). done.
Qed.

(** ** Tracing *)

Lemma counter_inc_quiet c s (Q : unit -> sched -> Prop) :
  (forall s', quiet s s' -> Q tt s') -> wp (scheduler_trace_counter_inc c) Q s.
Proof.
  intros H. unfold scheduler_trace_counter_inc. wp_step. wp_step. wp_step; wp_step; apply H; by repeat split.
Qed.

Lemma latency_record_quiet m v s (Q : unit -> sched -> Prop) :
  (forall s', quiet s s' -> Q tt s') -> wp (scheduler_trace_latency_record m v) Q s.
Proof. intros H. unfold scheduler_trace_latency_record. wp_step. apply H; by repeat split. Qed.

Lemma emit_quiet e s (Q : unit -> sched -> Prop) :
  (forall s', quiet s s' -> Q tt s') -> wp (emit e) Q s.
Proof. intros H. unfold emit. wp_step. apply H; by repeat split. Qed.

Lemma notify_quiet cpu reason s (Q : unit -> sched -> Prop) :
  (forall s', quiet s s' -> Q tt s') -> wp (scheduler_notify_remote_runnable cpu reason) Q s.
Proof.
  intros H. unfold scheduler_notify_remote_runnable, scheduler_current_cpu, scheduler_current_cpu_state, get_cpu.
  wp_steps; try (apply H; reflexivity).
  all: apply counter_inc_quiet; intros s1 H1;
    apply emit_quiet; intros s2 H2; apply H; by etransitivity.
Qed.

(** ** Changing tasks and lists *)

(** The state of an unlisted task is free to change. *)
Lemma rep_unlisted s s' L t :
  rep s L -> unlisted L t -> s'.(lists) = s.(lists) ->
  (forall x, x <> t -> s'.(tasks) x = s.(tasks) x) -> rep s' L.
Proof.
  intros [Hr Hd Hj Hv] Hun Hl Ht. split; try done. intros r. destruct (Hr r) as [H1 H2 H3 H4 H5].
  assert (Hx : forall x, x ∈ L r -> s'.(tasks) x = s.(tasks) x) by (intros x Hx; apply Ht; intros ->; by apply (Hun r)).
  split; rewrite ?Hl; try done.
  - eapply dseg_frame; [|exact H4]. intros x Hin. by rewrite Hx.
  - intros x Hin. rewrite Hx by done. auto.
Qed.

Lemma core_unlisted s s' L t :
  core s L -> unlisted L t -> s'.(lists) = s.(lists) ->
  (forall x, x <> t -> s'.(tasks) x = s.(tasks) x) ->
  s'.(cpus) = s.(cpus) -> s'.(configured_cpu_count) = s.(configured_cpu_count) ->
  s'.(boot_cpu_id) = s.(boot_cpu_id) -> unsigned_fields (s'.(tasks) t) -> core s' L.
Proof.
  intros [R ? ? ? ? Hst ? Hu] Hun Hl Ht Hc Hn Hb Hu'. split; rewrite ?Hc, ?Hn, ?Hb; try done.
  - by eapply rep_unlisted.
  - intros r x Hin. rewrite Ht by (intros ->; by apply (Hun r)).
    eapply in_state_data; [done|done| |by apply Hst]. intros c. by rewrite Hc.
  - intros x. destruct (decide (x = t)) as [->|]; [done|]. by rewrite Ht.
Qed.

Lemma relinked_env s s' : relinked s s' -> same_env s s' /\ s'.(cpus) = s.(cpus).
Proof. intros [-> _]. by repeat split. Qed.

Lemma relinked_unsigned s s' L : core s L -> relinked s s' -> forall t, unsigned_fields (s'.(tasks) t).
Proof.
  intros C Hrl t. destruct (data_fields _ _ (rl_data _ _ Hrl t)) as (_ & E1 & E2 & _).
  unfold unsigned_fields. rewrite E1, E2. apply C.
Qed.

Lemma relinked_keeps s s' : relinked s s' -> keeps (fun _ => False) s s'.
Proof. intros [_ H] x _. apply H. Qed.

Lemma queue_length_other L r l c :
  (forall p, r <> runnable c p) -> queue_length (upd L r l) c = queue_length L c.
Proof. intros H. unfold queue_length. simpl. rewrite !upd_ne by (intros E; by eapply H). done. Qed.

Lemma queue_length_upd L c p l :
  0 <= p < SCHEDULER_PRIORITY_COUNT ->
  queue_length (upd L (runnable c p) l) c =
  queue_length L c - Z.of_nat (length (L (runnable c p))) + Z.of_nat (length l).
Proof.
  intros Hp. unfold queue_length, SCHEDULER_PRIORITY_COUNT in *. simpl.
  assert (p = 0 \/ p = 1 \/ p = 2 \/ p = 3 \/ p = 4) as [->|[->|[->|[->| ->]]]] by lia;
    rewrite upd_eq, !upd_ne by congruence; unfold task_ref in *; lia.
Qed.

(** The core invariant over new lists, when configuration and processors stay. *)
Lemma core_relist s s' L L' :
  core s L -> rep s' L' -> same_env s s' ->
  (forall r t, t ∈ L' r -> in_state s' r (s'.(tasks) t)) ->
  (forall c, 0 <= c < s.(configured_cpu_count) -> (s'.(cpus) c).(runnable_count) = queue_length L' c) ->
  (forall t, unsigned_fields (s'.(tasks) t)) ->
  core s' L'.
Proof.
  intros C R E Hst Hcnt Hu. pose proof (se_count _ _ E) as Hn. pose proof (se_boot _ _ E) as Hb.
  destruct C. split; rewrite ?Hn, ?Hb; try done.
  - destruct (se_cpus _ _ E s.(boot_cpu_id)) as (_ & _ & -> & _). done.
  - intros c Hc. destruct (se_cpus _ _ E c) as (-> & _). auto.
Qed.

(** Membership after a push, and after a removal. *)
Lemma upd_push_elem (L : list_ref -> list task_ref) r t r' x :
  x ∈ upd L r (L r ++ [t]) r' -> x ∈ L r' \/ r' = r /\ x = t.
Proof.
  destruct (decide (r' = r)) as [->|]; rewrite ?upd_eq, ?upd_ne by done; [|auto].
  intros [?|?%list_elem_of_singleton]%elem_of_app; auto.
Qed.

Lemma upd_remove_elem (L : list_ref -> list task_ref) r l1 t l2 r' x :
  L r = l1 ++ t :: l2 -> x ∈ upd L r (l1 ++ l2) r' -> x ∈ L r'.
Proof.
  intros HL. destruct (decide (r' = r)) as [->|]; rewrite ?upd_eq, ?upd_ne by done; [|done].
  rewrite HL. set_solver.
Qed.

(** Putting a task on one of the four static lists. *)
Lemma push_core s L r t (Q : unit -> sched -> Prop) :
  core s L -> unlisted L t -> valid_task t -> in_state s r (s.(tasks) t) ->
  (forall c p, r <> runnable c p) ->
  (forall s', core s' (upd L r (L r ++ [t])) -> relinked s s' -> Q tt s') ->
  wp (task_list_push_back r t (kind_of r)) Q s.
Proof.
  intros C Hun Hv Hst Hr HQ. destruct (push_back_spec s L r t (core_rep _ _ C) Hun Hv)
    as (s' & Hrun & R' & Hrl & _). eapply Done_wp; [exact Hrun|]. apply HQ; [|done].
  destruct (relinked_env _ _ Hrl) as [He Hc].
  eapply core_relist; [done|done|done| | |by eapply relinked_unsigned].
  - intros r' x Hx. assert (in_state s r' (s.(tasks) x)) as Hold.
    { apply upd_push_elem in Hx as [Hx|[-> ->]]; [by apply C|done]. }
    eapply in_state_data; [apply Hrl|apply He|apply He|exact Hold].
  - intros c Hcc. rewrite Hc, queue_length_other by (intros p; apply Hr). by apply C.
Qed.

(** Taking a task off any list. *)
Lemma remove_core s L r t l1 l2 (Q : unit -> sched -> Prop) :
  core s L -> L r = l1 ++ t :: l2 -> (forall c p, r <> runnable c p) ->
  (forall s', core s' (upd L r (l1 ++ l2)) -> unlisted (upd L r (l1 ++ l2)) t -> relinked s s' -> Q tt s') ->
  wp (task_list_remove r t) Q s.
Proof.
  intros C HL Hr HQ. destruct (remove_spec s L r t l1 l2 (core_rep _ _ C) HL)
    as (s' & Hrun & R' & Hun & Hrl & _). eapply Done_wp; [exact Hrun|].
  destruct (relinked_env _ _ Hrl) as [He Hc]. apply HQ; [|done|done].
  eapply core_relist; [done|done|done| | |by eapply relinked_unsigned].
  - intros r' x Hx. apply (upd_remove_elem _ _ _ t) in Hx; [|done].
    eapply in_state_data; [apply Hrl|apply He|apply He|by apply C].
  - intros c Hcc. rewrite Hc, queue_length_other by (intros p; apply Hr). by apply C.
Qed.

(** ** Run queues *)

(** The task [scheduler_cpu_enqueue_runnable_local] leaves behind. *)
Definition enqueued (k : task) (c : scheduler_cpu_state) (now : Z) : task :=
  set_runnable_enqueue_tick now (set_ticks_in_slice 0 (set_t_state TASK_RUNNABLE
    (set_assigned_numa_node c.(numa_node) (set_assigned_cpu c.(c_id)
      (set_t_priority (scheduler_priority_sanitize k.(t_priority)) k))))).

Lemma sanitize_range p : 0 <= p -> 0 <= scheduler_priority_sanitize p < SCHEDULER_PRIORITY_COUNT.
Proof.
  intros H. unfold scheduler_priority_sanitize, SCHEDULER_PRIORITY_NORMAL, SCHEDULER_PRIORITY_COUNT.
  destruct (Z.leb_spec 5 p); lia.
Qed.

Lemma queue_length_bound L c s :
  rep s L -> 0 <= queue_length L c <= 5 * SCHEDULER_MAX_THREADS.
Proof.
  intros R. unfold queue_length. simpl.
  pose proof (rep_length s L (runnable c 0) R). pose proof (rep_length s L (runnable c 1) R).
  pose proof (rep_length s L (runnable c 2) R). pose proof (rep_length s L (runnable c 3) R).
  pose proof (rep_length s L (runnable c 4) R). unfold task_ref in *. lia.
Qed.

(** The run queue [r] gains [t]; nothing else about the state moves. *)
Record enqueue_post (s : sched) (L : list_ref -> list task_ref) (cpu : Z) (t : task_ref)
    (s' : sched) (L' : list_ref -> list task_ref) : Prop := {
  eq_lists : let r := runnable cpu (scheduler_priority_sanitize (s.(tasks) t).(t_priority)) in
             L' = upd L r (L r ++ [t]);
  eq_core : core s' L';
  eq_env : same_env s s';
  eq_keeps : keeps (eq t) s s';
  eq_task : data (s'.(tasks) t) = data (enqueued (s.(tasks) t) (s.(cpus) cpu) s.(system_ticks))
}.

Lemma enqueue_local_spec s L cpu t (Q : unit -> sched -> Prop) :
  core s L -> unlisted L t -> valid_task t ->
  0 <= cpu < s.(configured_cpu_count) -> (s.(cpus) cpu).(online) = true ->
  (forall s' L', enqueue_post s L cpu t s' L' -> Q tt s') ->
  wp (scheduler_cpu_enqueue_runnable_local cpu t) Q s.
Proof.
  intros C Hun Hv Hcpu Hon HQ. pose proof (sanitize_range _ (proj1 (core_unsigned _ _ C t))) as Hpr.
  set (p := scheduler_priority_sanitize (s.(tasks) t).(t_priority)) in *.
  unfold scheduler_cpu_enqueue_runnable_local, get_task, upd_task. do 6 wp_step. do 12 wp_step. simpl. fold p.
  match goal with |- wp _ _ ?st => set (s1 := st) end.
  assert (Ht1 : s1.(tasks) t = enqueued (s.(tasks) t) (s.(cpus) cpu) s.(system_ticks))
    by (simpl; by rewrite !upd_eq).
  assert (Ho1 : forall x, x <> t -> s1.(tasks) x = s.(tasks) x) by (intros x Hx; simpl; by rewrite !upd_ne).
  assert (E1 : same_env s s1) by (by repeat split). assert (Hl1 : s1.(lists) = s.(lists)) by done.
  assert (Hc1 : s1.(cpus) = s.(cpus)) by done. clearbody s1.
  assert (R1 : rep s1 L) by (eapply rep_unlisted; [apply C|done..]).
  destruct (push_back_spec s1 L (runnable cpu p) t R1 Hun Hv) as (s2 & Hrun & R2 & Hrl & _).
  wp_step. eapply Done_wp; [exact Hrun|]. unfold upd_cpu. wp_step.
  destruct (relinked_env _ _ Hrl) as [E2 Hc2]. rewrite Hc1 in Hc2.
  set (s3 := set_cpus _ _).
  assert (Hcpus : forall c, same_cpu (s.(cpus) c) (s3.(cpus) c)).
  { intros c. simpl. rewrite Hc2. destruct (decide (c = cpu)) as [->|]; rewrite ?upd_eq, ?upd_ne by done; done. }
  assert (E3 : same_env s s3).
  { pose proof (transitivity E1 E2) as []. split; try done. }
  apply (HQ s3 (upd L (runnable cpu p) (L (runnable cpu p) ++ [t]))). split; [done| |done| |].
  - eapply core_relist; [done|by destruct R2; split; [intros r; destruct (rep_list r); split|..]|done| | |].
    + intros r x Hx. apply upd_push_elem in Hx as [Hx|[-> ->]].
      * eapply in_state_data; [|apply E3|apply E3|by apply C]. simpl. rewrite (rl_data _ _ Hrl).
        by rewrite Ho1 by (intros ->; by apply (Hun r)).
      * eapply (in_state_data s); [|apply E3|apply E3|].
        { simpl. rewrite (rl_data _ _ Hrl), Ht1. reflexivity. }
        simpl. rewrite (core_id _ _ C) by done. done.
    + intros c Hc. simpl. rewrite Hc2. destruct (decide (c = cpu)) as [->|Hne].
      * rewrite upd_eq. simpl. rewrite queue_length_upd, length_app, (core_count _ _ C) by done.
        pose proof (queue_length_bound L cpu s (core_rep _ _ C)) as Hb. unfold SCHEDULER_MAX_THREADS in Hb.
        rewrite wrap_small by word_lia. simpl. lia.
      * rewrite upd_ne, queue_length_other by congruence. by apply C.
    + intros x. destruct (data_fields _ _ (rl_data _ _ Hrl x)) as (_ & E4 & E5 & _).
      unfold unsigned_fields. simpl. rewrite E4, E5. destruct (decide (x = t)) as [->|].
      * rewrite Ht1. simpl. fold p. rewrite (core_id _ _ C) by done. lia.
      * rewrite Ho1 by done. apply C.
  - intros x Hx. simpl. rewrite (rl_data _ _ Hrl), Ho1 by congruence. done.
  - simpl. by rewrite (rl_data _ _ Hrl), Ht1.
Qed.

Lemma quiet_keeps s s' : quiet s s' -> keeps (fun _ => False) s s'.
Proof. intros [H _ _ _] x _. by rewrite H. Qed.

Lemma enqueue_post_quiet s L cpu t s1 s2 L' :
  enqueue_post s L cpu t s1 L' -> quiet s1 s2 -> enqueue_post s L cpu t s2 L'.
Proof.
  intros [H1 H2 H3 H4 H5] Hq. split; [done|by eapply core_quiet| | |].
  - etransitivity; [done|apply Hq].
  - intros x Hx. rewrite (qu_tasks _ _ Hq). by apply H4.
  - by rewrite (qu_tasks _ _ Hq).
Qed.

Lemma enqueue_spec s L cpu t reason (Q : unit -> sched -> Prop) :
  core s L -> unlisted L t -> valid_task t ->
  0 <= cpu < s.(configured_cpu_count) -> (s.(cpus) cpu).(online) = true ->
  (forall s' L', enqueue_post s L cpu t s' L' -> Q tt s') ->
  wp (scheduler_cpu_enqueue_runnable cpu t reason) Q s.
Proof.
  intros C Hun Hv Hc Hon HQ. unfold scheduler_cpu_enqueue_runnable. wp_step.
  eapply enqueue_local_spec; try done. intros s1 L1 H1. apply notify_quiet. intros s2 H2.
  eapply HQ. by eapply enqueue_post_quiet.
Qed.

(** The processor a task goes back to: its own if that is online. *)
Definition home_cpu (s : sched) (a : Z) : Z :=
  if (s.(configured_cpu_count) <=? a) || negb (s.(cpus) a).(online) then s.(boot_cpu_id) else a.

Lemma home_cpu_ok s L a :
  core s L -> 0 <= a ->
  0 <= home_cpu s a < s.(configured_cpu_count) /\ (s.(cpus) (home_cpu s a)).(online) = true.
Proof.
  intros C Ha. unfold home_cpu. destruct (_ || _) eqn:E; [split; apply C|].
  apply orb_false_iff in E as [E1 E2]. apply negb_false_iff in E2. split; [lia|done].
Qed.

Lemma enqueue_runnable_spec s L t reason (Q : unit -> sched -> Prop) :
  core s L -> unlisted L t -> valid_task t ->
  (forall s' L', enqueue_post s L (home_cpu s (s.(tasks) t).(assigned_cpu)) t s' L' -> Q tt s') ->
  wp (scheduler_enqueue_runnable t reason) Q s.
Proof.
  intros C Hun Hv HQ. unfold scheduler_enqueue_runnable, get_task, scheduler_cpu_by_id. do 6 wp_step.
  destruct (home_cpu_ok s L (s.(tasks) t).(assigned_cpu) C) as [Hc Hon]; [apply C|].
  by eapply (enqueue_spec s L (home_cpu s (s.(tasks) t).(assigned_cpu))).
Qed.

(** Taking a task off a run queue, with the counter. *)
Lemma remove_runnable_run s L cpu p t l1 l2 :
  core s L -> 0 <= cpu < s.(configured_cpu_count) -> 0 <= p < SCHEDULER_PRIORITY_COUNT ->
  L (runnable cpu p) = l1 ++ t :: l2 ->
  exists s1 s', task_list_remove (runnable cpu p) t s = Done tt s1 /\ dec_runnable_count cpu s1 = Done tt s' /\
    core s' (upd L (runnable cpu p) (l1 ++ l2)) /\ unlisted (upd L (runnable cpu p) (l1 ++ l2)) t /\
    same_env s s' /\ forall x, data (s'.(tasks) x) = data (s.(tasks) x).
Proof.
  intros C Hcpu Hp HL.
  destruct (remove_spec s L (runnable cpu p) t l1 l2 (core_rep _ _ C) HL) as (s1 & Hrun & R1 & Hun & Hrl & _).
  unfold dec_runnable_count, upd_cpu. eexists s1, _. split; [done|]. split; [reflexivity|].
  destruct (relinked_env _ _ Hrl) as [E1 Hc1]. set (s2 := set_cpus _ _).
  assert (Hq : queue_length (upd L (runnable cpu p) (l1 ++ l2)) cpu = queue_length L cpu - 1 /\ 0 < queue_length L cpu).
  { rewrite queue_length_upd, HL, !length_app by done. cbn [length].
    pose proof (queue_length_bound (upd L (runnable cpu p) (l1 ++ l2)) cpu s1 R1) as Hb.
    rewrite queue_length_upd, HL, !length_app in Hb by done. cbn [length] in Hb. unfold task_ref in *. lia. }
  assert (E2 : same_env s s2).
  { destruct E1. split; try done. intros c. simpl. rewrite Hc1.
    destruct (decide (c = cpu)) as [->|]; rewrite ?upd_eq, ?upd_ne by done; [|done].
    destruct (0 <? runnable_count (cpus s cpu)); done. }
  split; [|split; [done|split; [done|apply Hrl]]].
  eapply core_relist; [done|by destruct R1; split; [intros r; destruct (rep_list r); split|..]|done| | |].
  - intros r x Hx. apply (upd_remove_elem _ _ _ t) in Hx; [|done].
    eapply in_state_data; [apply Hrl|apply E2|apply E2|by apply C].
  - intros c Hcc. simpl. rewrite Hc1. destruct (decide (c = cpu)) as [->|Hne].
    + rewrite upd_eq, (core_count _ _ C) by done. destruct Hq as [-> Hpos].
      replace (0 <? queue_length L cpu) with true by lia. done.
    + rewrite upd_ne, queue_length_other by congruence. by apply C.
  - by apply (relinked_unsigned s s1 L C Hrl).
Qed.

(** The first non-empty run queue of a processor, and its head. *)
Definition best_runnable (L : list_ref -> list task_ref) (cpu p : Z) (t : task_ref) (l : list task_ref) : Prop :=
  0 <= p < SCHEDULER_PRIORITY_COUNT /\ L (runnable cpu p) = t :: l /\
  forall q, 0 <= q < p -> L (runnable cpu q) = [].
Definition no_runnable (L : list_ref -> list task_ref) (cpu : Z) : Prop :=
  forall q, 0 <= q < SCHEDULER_PRIORITY_COUNT -> L (runnable cpu q) = [].

Lemma dequeue_spec s L cpu (Q : option task_ref -> sched -> Prop) :
  core s L -> 0 <= cpu < s.(configured_cpu_count) ->
  (no_runnable L cpu -> Q None s) ->
  (forall p t l s', best_runnable L cpu p t l ->
     core s' (upd L (runnable cpu p) l) -> unlisted (upd L (runnable cpu p) l) t -> valid_task t ->
     same_env s s' -> (forall x, data (s'.(tasks) x) = data (s.(tasks) x)) -> Q (Some t) s') ->
  wp (scheduler_cpu_dequeue_next_runnable cpu) Q s.
Proof.
  intros C Hcpu Hnone Hsome. unfold scheduler_cpu_dequeue_next_runnable.
  apply (wp_for _ _ _ (fun i s' => s' = s /\ forall q, 0 <= q < i -> L (runnable cpu q) = [])).
  - unfold SCHEDULER_PRIORITY_COUNT. lia.
  - split; [done|]. intros; lia.
  - intros p s1 Hp [-> Hno]. pose proof (lr_head _ _ _ (rep_list _ _ (core_rep _ _ C) (runnable cpu p))) as Hh.
    unfold task_list_pop_front, get_list. do 3 wp_step. rewrite Hh.
    destruct (L (runnable cpu p)) as [|t l] eqn:HL; simpl.
    { do 2 wp_step. split; [done|]. intros q Hq. destruct (Z.eq_dec q p); [by subst|apply Hno; lia]. }
    assert (Hv : valid_task t) by (apply (rep_valid _ _ (core_rep _ _ C) (runnable cpu p)); rewrite HL; left).
    destruct (remove_runnable_run s L cpu p t [] l C Hcpu Hp HL) as (s1 & s2 & Hr1 & Hr2 & C2 & Hun2 & E2 & D2).
    wp_step. eapply Done_wp; [exact Hr1|]. wp_step. cbv beta iota. wp_step. eapply Done_wp; [exact Hr2|].
    unfold get_task. do 5 wp_step.
    apply latency_record_quiet. intros s3 Hq. wp_step.
    apply (Hsome p t l s3); try done.
    + by eapply core_quiet.
    + etransitivity; [done|apply Hq].
    + intros x. by rewrite (qu_tasks _ _ Hq).
  - intros s1 [-> Hno]. by apply Hnone.
Qed.

(** ** Switching *)

Definition with_current (s : sched) (cpu : Z) (t : task_ref) : sched :=
  set_cpus (upd s.(cpus) cpu (set_current (Some t) (s.(cpus) cpu))) s.

Lemma core_with_current s L cpu t : core s L -> core (with_current s cpu t) L.
Proof.
  intros C. destruct C as [R ? ? Hon Hid Hst Hc Hu].
  assert (Hs : forall c, (upd s.(cpus) cpu (set_current (Some t) (s.(cpus) cpu)) c).(c_id) = (s.(cpus) c).(c_id) /\
    (upd s.(cpus) cpu (set_current (Some t) (s.(cpus) cpu)) c).(online) = (s.(cpus) c).(online) /\
    (upd s.(cpus) cpu (set_current (Some t) (s.(cpus) cpu)) c).(runnable_count) = (s.(cpus) c).(runnable_count)).
  { intros c. destruct (decide (c = cpu)) as [->|]; rewrite ?upd_eq, ?upd_ne by done; done. }
  split; simpl; try done.
  - destruct R as [Hl ? ? ?]. split; try done. intros r. destruct (Hl r). by split.
  - destruct (Hs s.(boot_cpu_id)) as (_ & -> & _). done.
  - intros c Hcc. destruct (Hs c) as (-> & _ & _). auto.
  - intros r x Hx. specialize (Hst r x Hx). destruct r; simpl in *; try done.
    destruct (Hs cpu0) as (_ & -> & _). done.
  - intros c Hcc. destruct (Hs c) as (_ & _ & ->). auto.
Qed.

(** Tracing around the switch. *)
Lemma with_current_quiet s s' cpu t : quiet s s' -> quiet (with_current s cpu t) (with_current s' cpu t).
Proof.
  intros [H1 H2 H3 H4]. split; simpl; try done; [by rewrite H3|].
  destruct H4. split; simpl; try done. intros c. by rewrite H3.
Qed.

(** What switching to [n] does: [n] runs on [cpu], with a fresh slice. *)
Record switched (s : sched) (L : list_ref -> list task_ref) (cpu : Z) (n : task_ref) (s' : sched) : Prop := {
  sw_core : core s' L;
  sw_env : same_env (with_current s cpu n) s';
  sw_keeps : keeps (eq n) s s';
  sw_task : data (s'.(tasks) n) = data (set_ticks_in_slice 0 (set_t_state TASK_RUNNING (s.(tasks) n)))
}.

Lemma switched_quiet s L cpu n s1 s2 : switched s L cpu n s1 -> quiet s1 s2 -> switched s L cpu n s2.
Proof.
  intros [H1 H2 H3 H4] Hq. split; [by eapply core_quiet|etransitivity; [done|apply Hq]| |].
  - intros x Hx. rewrite (qu_tasks _ _ Hq). auto.
  - by rewrite (qu_tasks _ _ Hq).
Qed.

Lemma switch_to_spec s L cpu n frame (Q : option Z -> sched -> Prop) :
  core s L -> unlisted L n ->
  (forall s', switched s L cpu n s' -> Q (s.(tasks) n).(t_frame) s') ->
  wp (scheduler_switch_to_task cpu (Some n) frame) Q s.
Proof.
  intros C Hun HQ. unfold scheduler_switch_to_task, get_cpu, get_task, upd_task, upd_cpu. do 9 wp_step.
  match goal with |- wp _ _ ?st => set (s1 := st) end.
  assert (Hn : s1.(tasks) n = set_ticks_in_slice 0 (set_t_state TASK_RUNNING (s.(tasks) n)))
    by (simpl; by rewrite !upd_eq).
  assert (Hsw : switched s L cpu n s1).
  { split.
    - apply (core_unlisted (with_current s cpu n) _ _ n); try done; [by apply core_with_current| |].
      + intros x Hx. simpl. by rewrite !upd_ne.
      + rewrite Hn. apply C.
    - by repeat split.
    - intros x Hx. simpl. by rewrite !upd_ne by congruence.
    - by rewrite Hn. }
  clearbody s1.
  assert (Hpost : forall s2, quiet s1 s2 -> wp (top <- gets (fun s => kernel_stack_top (tasks s n)) ;;
      emit (gdt_set_kernel_stack top) ;;; space <- gets (fun s => t_space (tasks s n)) ;;
      emit (paging_switch_space space) ;;; gets (fun s => t_frame (tasks s n))) Q s2).
  { intros s2 H2. do 3 wp_step. apply emit_quiet. intros s3 H3. do 3 wp_step. apply emit_quiet. intros s4 H4.
    wp_step. rewrite (qu_tasks _ _ H4), (qu_tasks _ _ H3), (qu_tasks _ _ H2), Hn. simpl.
    apply HQ. eapply switched_quiet; [exact Hsw|]. by rewrite H2, H3, H4. }
  unfold when. wp_step.
  - apply counter_inc_quiet. apply Hpost.
  - wp_step. apply Hpost. reflexivity.
Qed.

(** ** Scheduling a processor *)

(** A processor that keeps running: its current task is alone in being off the
    lists, and is running. *)
Definition running_on (s : sched) (L : list_ref -> list task_ref) (cpu : Z) (t : task_ref) : Prop :=
  (s.(cpus) cpu).(current) = Some t /\ valid_task t /\ unlisted L t /\
  (s.(tasks) t).(t_state) = TASK_RUNNING.

(** Yielding: the running task goes to the back of its queue, and the head of
    the first non-empty queue runs next. *)
Record rescheduled (s : sched) (L : list_ref -> list task_ref) (cpu : Z) (t : task_ref) (frame : Z)
    (result : option Z) (s' : sched) (L' : list_ref -> list task_ref) (n : task_ref) : Prop := {
  rs_queue : exists p q l, p = scheduler_priority_sanitize (s.(tasks) t).(t_priority) /\
    let L1 := upd L (runnable cpu p) (L (runnable cpu p) ++ [t]) in
    best_runnable L1 cpu q n l /\ L' = upd L1 (runnable cpu q) l;
  rs_core : core s' L';
  rs_unlisted : unlisted L' n;
  rs_valid : valid_task n;
  rs_env : same_env (with_current s cpu n) s';
  rs_keeps : keeps (fun x => x = t \/ x = n) s s';
  rs_running : (s'.(tasks) n).(t_state) = TASK_RUNNING;
  rs_slice : (s'.(tasks) n).(ticks_in_slice) = 0;
  rs_frame : result = if decide (n = t) then Some frame else (s.(tasks) n).(t_frame);
  rs_saved : n <> t -> data (s'.(tasks) t) =
    data (enqueued (set_t_frame (Some frame) (s.(tasks) t)) (s.(cpus) cpu) s.(system_ticks))
}.

(** Fields the invariant does not look at may change on any task. *)
Definition same_place (k k' : task) : Prop :=
  k'.(list_prev) = k.(list_prev) /\ k'.(list_next) = k.(list_next) /\ k'.(list_kind) = k.(list_kind) /\
  k'.(t_state) = k.(t_state) /\ k'.(t_priority) = k.(t_priority) /\ k'.(assigned_cpu) = k.(assigned_cpu).

Lemma core_tweak s s' L :
  core s L -> (forall x, same_place (s.(tasks) x) (s'.(tasks) x)) ->
  s'.(lists) = s.(lists) -> s'.(cpus) = s.(cpus) ->
  s'.(configured_cpu_count) = s.(configured_cpu_count) -> s'.(boot_cpu_id) = s.(boot_cpu_id) -> core s' L.
Proof.
  intros [R ? ? ? ? Hst ? Hu] Ht Hl Hc Hn Hb. split; rewrite ?Hc, ?Hn, ?Hb; try done.
  - destruct R as [Hr ? ? ?]. split; try done. intros r. destruct (Hr r) as [H1 H2 H3 H4 H5].
    split; rewrite ?Hl; try done.
    + eapply dseg_frame; [|exact H4]. intros x _. by destruct (Ht x) as (-> & -> & _).
    + intros x Hx. destruct (Ht x) as (_ & _ & -> & _). auto.
  - intros r x Hx. specialize (Hst r x Hx). destruct (Ht x) as (_ & _ & _ & E1 & E2 & E3).
    destruct r; simpl in *; rewrite ?E1, ?E2, ?E3, ?Hn, ?Hc; done.
  - intros x. unfold unsigned_fields. destruct (Ht x) as (_ & _ & _ & _ & -> & ->). apply Hu.
Qed.

Definition with_frame (s : sched) (t : task_ref) (frame : Z) : sched :=
  set_tasks (upd s.(tasks) t (set_t_frame (Some frame) (s.(tasks) t))) s.

Lemma core_with_frame s L t frame : core s L -> core (with_frame s t frame) L.
Proof.
  intros C. apply (core_tweak s); try done. intros x. simpl.
  destruct (decide (x = t)) as [->|]; rewrite ?upd_eq, ?upd_ne by done; by repeat split.
Qed.

Lemma schedule_running s L cpu t frame (Q : option Z -> sched -> Prop) :
  core s L -> running_on s L cpu t -> 0 <= cpu < s.(configured_cpu_count) -> (s.(cpus) cpu).(online) = true ->
  (forall r s' L' n, rescheduled s L cpu t frame r s' L' n -> Q r s') ->
  wp (scheduler_schedule_cpu cpu frame true) Q s.
Proof.
  intros C (Hcur & Hv & Hun & Hrun) Hcpu Hon HQ. unfold scheduler_schedule_cpu, get_cpu. do 3 wp_step.
  apply counter_inc_quiet. intros s0 H0. rewrite Hcur.
  pose proof (core_quiet _ _ _ H0 C) as C0. rewrite <- (qu_tasks _ _ H0) in Hrun.
  unfold upd_task, is_running, get_task. do 7 wp_step. fold (with_frame s0 t frame).
  set (s1 := with_frame s0 t frame).
  assert (Ht1 : s1.(tasks) t = set_t_frame (Some frame) (s.(tasks) t))
    by (simpl; rewrite upd_eq, (qu_tasks _ _ H0); done).
  assert (Ho1 : forall x, x <> t -> s1.(tasks) x = s.(tasks) x)
    by (intros x Hx; simpl; rewrite upd_ne, (qu_tasks _ _ H0) by done; done).
  assert (C1 : core s1 L) by (by apply core_with_frame).
  assert (E1 : same_env s s1) by (destruct (qu_env _ _ H0); by split). assert (Hc1 : s1.(cpus) = s.(cpus)) by apply H0.
  assert (Hst : bool_decide (t_state (s1.(tasks) t) = TASK_RUNNING) = true)
    by (apply bool_decide_eq_true; rewrite Ht1; simpl; by rewrite <- (qu_tasks _ _ H0)).
  clearbody s1. rewrite Hst.
  change (true && negb true) with false. cbv iota. wp_step. cbv iota.
  unfold when. wp_step. apply (enqueue_spec s1 L cpu t); try done.
  { by rewrite (se_count _ _ E1). } { by rewrite Hc1. }
  intros s2 L2 [HL2 C2 E2 K2 D2]. wp_step.
  apply (dequeue_spec s2 L2 cpu); [done|by rewrite (se_count _ _ E2), (se_count _ _ E1)| |].
  { intros Hnone. exfalso. pose proof (sanitize_range _ (proj1 (core_unsigned _ _ C1 t))) as Hp.
    specialize (Hnone _ Hp). rewrite HL2, upd_eq in Hnone. by destruct (L _). }
  intros q n l s3 Hbest C3 Hun3 Hv3 E3 D3. apply (switch_to_spec s3 (upd L2 (runnable cpu q) l)); [done|done|].
  intros s4 [C4 E4 K4 D4]. apply (HQ _ s4 (upd L2 (runnable cpu q) l) n).
  assert (Hp : t_priority (s1.(tasks) t) = t_priority (s.(tasks) t)) by (by rewrite Ht1).
  assert (Hdn : n <> t -> data (s3.(tasks) n) = data (s.(tasks) n)).
  { intros Hne. rewrite D3, K2 by congruence. by rewrite Ho1. }
  split; try done.
  - exists (scheduler_priority_sanitize (s.(tasks) t).(t_priority)), q, l. rewrite HL2, Hp in *. done.
  - assert (same_env s s3) as E03 by (by rewrite E1, E2, E3).
    etransitivity; [|exact E4]. destruct E03 as [Hcs]. split; simpl; try done.
    intros c. destruct (decide (c = cpu)) as [->|]; rewrite ?upd_eq, ?upd_ne by done; [|done].
    destruct (Hcs cpu) as (? & ? & ? & _). done.
  - intros x Hx. rewrite K4 by (intros ->; tauto). rewrite D3, K2 by (intros ->; tauto). rewrite Ho1; [done|tauto].
  - destruct (data_fields _ _ D4) as (-> & _). done.
  - by apply (f_equal ticks_in_slice) in D4.
  - destruct (decide (n = t)) as [->|Hne].
    + destruct (data_fields _ _ (D3 t)) as (_ & _ & _ & _ & _ & _ & _ & _ & ->).
      destruct (data_fields _ _ D2) as (_ & _ & _ & _ & _ & _ & _ & _ & ->). by rewrite Ht1.
    + by destruct (data_fields _ _ (Hdn Hne)) as (_ & _ & _ & _ & _ & _ & _ & _ & ->).
  - intros Hne. rewrite K4, D3, D2, Ht1, Hc1, (se_ticks _ _ E1) by done. done.
Qed.

(** A current task that blocked, slept or exited: the head of the first
    non-empty queue runs next. *)
Record dispatched (s : sched) (L : list_ref -> list task_ref) (cpu : Z) (t : task_ref) (frame : Z)
    (result : option Z) (s' : sched) (L' : list_ref -> list task_ref) (n : task_ref) : Prop := {
  dp_queue : exists q l, best_runnable L cpu q n l /\ L' = upd L (runnable cpu q) l;
  dp_core : core s' L';
  dp_unlisted : unlisted L' n;
  dp_valid : valid_task n;
  dp_env : same_env (with_current s cpu n) s';
  dp_keeps : keeps (fun x => x = t \/ x = n) s s';
  dp_running : (s'.(tasks) n).(t_state) = TASK_RUNNING;
  dp_slice : (s'.(tasks) n).(ticks_in_slice) = 0;
  dp_frame : result = if decide (n = t) then Some frame else (s.(tasks) n).(t_frame);
  dp_saved : n <> t -> data (s'.(tasks) t) = data (set_t_frame (Some frame) (s.(tasks) t))
}.

Lemma schedule_blocked s L cpu t frame (Q : option Z -> sched -> Prop) :
  core s L -> (s.(cpus) cpu).(current) = Some t -> (s.(tasks) t).(t_state) <> TASK_RUNNING ->
  0 <= cpu < s.(configured_cpu_count) -> ~ no_runnable L cpu ->
  (forall r s' L' n, dispatched s L cpu t frame r s' L' n -> Q r s') ->
  wp (scheduler_schedule_cpu cpu frame true) Q s.
Proof.
  intros C Hcur Hnr Hcpu Hne HQ. unfold scheduler_schedule_cpu, get_cpu. do 3 wp_step.
  apply counter_inc_quiet. intros s0 H0. rewrite Hcur.
  pose proof (core_quiet _ _ _ H0 C) as C0.
  unfold upd_task, is_running, get_task. do 7 wp_step. fold (with_frame s0 t frame).
  set (s1 := with_frame s0 t frame).
  assert (Ht1 : s1.(tasks) t = set_t_frame (Some frame) (s.(tasks) t))
    by (simpl; rewrite upd_eq, (qu_tasks _ _ H0); done).
  assert (Ho1 : forall x, x <> t -> s1.(tasks) x = s.(tasks) x)
    by (intros x Hx; simpl; rewrite upd_ne, (qu_tasks _ _ H0) by done; done).
  assert (C1 : core s1 L) by (by apply core_with_frame).
  assert (E1 : same_env s s1) by (destruct (qu_env _ _ H0); by split).
  assert (Hst : bool_decide (t_state (s1.(tasks) t) = TASK_RUNNING) = false)
    by (apply bool_decide_eq_false; by rewrite Ht1).
  clearbody s1. rewrite Hst. change (false && negb true) with false. cbv iota. wp_step. cbv iota.
  unfold when. do 2 wp_step. wp_step.
  apply (dequeue_spec s1 L cpu); [done|by rewrite (se_count _ _ E1)|done|].
  intros q n l s3 Hbest C3 Hun3 Hv3 E3 D3. apply (switch_to_spec s3 (upd L (runnable cpu q) l)); [done|done|].
  intros s4 [C4 E4 K4 D4]. apply (HQ _ s4 (upd L (runnable cpu q) l) n). split; try done.
  - by exists q, l.
  - assert (same_env s s3) as E03 by (by rewrite E1, E3).
    etransitivity; [|exact E4]. destruct E03 as [Hcs]. split; simpl; try done.
    intros c. destruct (decide (c = cpu)) as [->|]; rewrite ?upd_eq, ?upd_ne by done; [|done].
    destruct (Hcs cpu) as (? & ? & ? & _). done.
  - intros x Hx. rewrite K4 by (intros ->; tauto). rewrite D3. rewrite Ho1; [done|tauto].
  - destruct (data_fields _ _ D4) as (-> & _). done.
  - by apply (f_equal ticks_in_slice) in D4.
  - destruct (data_fields _ _ (D3 n)) as (_ & _ & _ & _ & _ & _ & _ & _ & ->).
    destruct (decide (n = t)) as [->|Hnt]; [by rewrite Ht1|by rewrite Ho1].
  - intros Hnt. by rewrite K4, D3, Ht1 by done.
Qed.
