(* ===== verification/SchedMoves.v ===== *)
(** Moving tasks between lists: waking, timing out, migrating.  The walks over a
    list whose elements leave it, and the balance of what they move. *)
From S2P Require Import Prelude SchedData Sched SchedApi SchedLists SchedInv.
From Stdlib Require Import ZArith Lia.
From stdpp Require Import sets.
Open Scope Z_scope.

(** ** Walks *)

(** [I rest acc s]: the walk has the tasks of [rest] still to visit. *)
Lemma walk_rule {A R} (body : task_ref -> A -> M sched (A + R)) (guard : A -> bool)
    (I : list task_ref -> A -> sched -> Prop) (Q : A + R -> sched -> Prop) fuel : forall l acc s,
  (forall t rest acc s, I (t :: rest) acc s -> (s.(tasks) t).(list_next) = first_or rest None) ->
  (forall t rest acc s, I (t :: rest) acc s -> guard acc = true ->
     wp (body t acc) (fun r s' => match r with inl acc' => I rest acc' s' | inr v => Q (inr v) s' end) s) ->
  (forall acc s, I [] acc s -> Q (inl acc) s) ->
  (forall l acc s, I l acc s -> guard acc = false -> Q (inl acc) s) ->
  I l acc s -> (length l <= fuel)%nat ->
  wp (walk fuel (first_or l None) acc guard body) Q s.
Proof.
  induction fuel as [|fuel IH]; intros l acc s Hnext Hbody Hend Hstop HI Hlen.
  - destruct l as [|t l]; [|simpl in Hlen; lia]. simpl. apply wp_ret. by apply Hend.
  - destruct l as [|t rest]; [simpl; apply wp_ret; by apply Hend|]. cbn [walk first_or].
    destruct (guard acc) eqn:Eg; simpl; [|apply wp_ret; by eapply Hstop].
    unfold get_task. do 2 wp_step. rewrite (Hnext _ _ _ _ HI). wp_step.
    eapply wp_mono; [by apply Hbody|]. intros [acc'|v] s' H'; [|by apply wp_ret].
    apply IH; try done. simpl in Hlen. lia.
Qed.

Lemma walk_fuel_enough s L r : rep s L -> (length (L r) <= walk_fuel)%nat.
Proof.
  intros R. pose proof (rep_length s L r R) as H. unfold walk_fuel, SCHEDULER_MAX_THREADS in *.
  unfold task_ref in *. lia.
Qed.

(** The link out of a task in the middle of a list. *)
Lemma next_of s L r l1 t l2 : rep s L -> L r = l1 ++ t :: l2 -> (s.(tasks) t).(list_next) = first_or l2 None.
Proof.
  intros R HL. pose proof (lr_seg _ _ _ (rep_list _ _ R r)) as H. rewrite HL in H.
  apply dseg_app in H as (_ & _ & H & _). done.
Qed.

(** ** Shuffles: listed tasks change lists, the others and the processors stay *)

Record shuffle (s : sched) (L : list_ref -> list task_ref) (s' : sched) (L' : list_ref -> list task_ref) : Prop := {
  sf_env : same_env s s';
  sf_listed : forall x, unlisted L x <-> unlisted L' x;
  sf_data : forall x, unlisted L x -> data (s'.(tasks) x) = data (s.(tasks) x)
}.

Lemma shuffle_refl s L : shuffle s L s L.
Proof. by split. Qed.

Lemma shuffle_trans s1 L1 s2 L2 s3 L3 :
  shuffle s1 L1 s2 L2 -> shuffle s2 L2 s3 L3 -> shuffle s1 L1 s3 L3.
Proof.
  intros [E1 H1 D1] [E2 H2 D2]. split; [by etransitivity|intros x; by rewrite H1|].
  intros x Hx. rewrite D2 by (by apply H1). auto.
Qed.

Lemma shuffle_quiet s L s1 s2 L' : shuffle s L s1 L' -> quiet s1 s2 -> shuffle s L s2 L'.
Proof.
  intros [E H D] Hq. split; [etransitivity; [done|apply Hq]|done|].
  intros x Hx. rewrite (qu_tasks _ _ Hq). auto.
Qed.

Lemma listed_dec (L : list_ref -> list task_ref) r t : t ∈ L r -> ~ unlisted L t.
Proof. intros H Hun. by apply (Hun r). Qed.

(** A task leaves list [r] and goes to the end of list [r']. *)
Definition moved (L : list_ref -> list task_ref) (r : list_ref) (l1 l2 : list task_ref) (r' : list_ref)
    (t : task_ref) : list_ref -> list task_ref :=
  let L1 := upd L r (l1 ++ l2) in upd L1 r' (L1 r' ++ [t]).

Lemma moved_listed L r l1 l2 r' t x :
  L r = l1 ++ t :: l2 -> unlisted L x <-> unlisted (moved L r l1 l2 r' t) x.
Proof.
  intros HL. unfold moved, unlisted. split; intros H rr Hin.
  - apply upd_push_elem in Hin as [Hin|[-> ->]].
    + apply (H rr). destruct (decide (rr = r)) as [->|]; rewrite ?upd_eq, ?upd_ne in Hin by done; [|done].
      rewrite HL. set_solver.
    + apply (H r). rewrite HL. set_solver.
  - destruct (decide (x = t)) as [->|Hne].
    + apply (H r'). rewrite upd_eq. set_solver.
    + specialize (H rr). apply H. destruct (decide (rr = r')) as [->|]; rewrite ?upd_eq, ?upd_ne by done.
      * apply elem_of_app. left. destruct (decide (r' = r)) as [->|]; rewrite ?upd_eq, ?upd_ne by done; [|done].
        rewrite HL in Hin. set_solver.
      * destruct (decide (rr = r)) as [->|]; rewrite ?upd_eq, ?upd_ne by done; [|done].
        rewrite HL in Hin. set_solver.
Qed.

(** Updating fields of an unlisted task. *)
Lemma upd_unlisted s L t (f : task -> task) (Q : unit -> sched -> Prop) :
  core s L -> unlisted L t -> unsigned_fields (f (s.(tasks) t)) ->
  (forall s', core s' L -> same_env s s' -> s'.(tasks) t = f (s.(tasks) t) ->
     (forall x, x <> t -> s'.(tasks) x = s.(tasks) x) -> Q tt s') ->
  wp (upd_task t f) Q s.
Proof.
  intros C Hun Hu HQ. unfold upd_task. wp_step. set (s' := set_tasks _ _).
  assert (Ht : s'.(tasks) t = f (s.(tasks) t)) by (simpl; by rewrite upd_eq).
  assert (Ho : forall x, x <> t -> s'.(tasks) x = s.(tasks) x) by (intros x Hx; simpl; by rewrite upd_ne).
  assert (E : same_env s s') by (by repeat split).
  apply HQ; [|exact E|exact Ht|exact Ho].
  apply (core_unlisted s s' L t); try done. by rewrite Ht.
Qed.

(** Removing [t] from a static list and making it runnable at home; [f] is what
    happens to its fields in between. *)
Record woken (s : sched) (L : list_ref -> list task_ref) (r : list_ref) (l1 : list task_ref) (t : task_ref)
    (l2 : list task_ref) (f : task -> task) (s' : sched) (L' : list_ref -> list task_ref) : Prop := {
  wk_core : core s' L';
  wk_lists : let k := s.(tasks) t in
    L' = moved L r l1 l2 (runnable (home_cpu s k.(assigned_cpu)) (scheduler_priority_sanitize k.(t_priority))) t;
  wk_shuffle : shuffle s L s' L';
  wk_keeps : keeps (eq t) s s';
  wk_task : data (s'.(tasks) t) =
    data (enqueued (f (s.(tasks) t)) (s.(cpus) (home_cpu s (s.(tasks) t).(assigned_cpu))) s.(system_ticks))
}.

Lemma woken_quiet s L r l1 t l2 f s1 s2 L' :
  woken s L r l1 t l2 f s1 L' -> quiet s1 s2 -> woken s L r l1 t l2 f s2 L'.
Proof.
  intros [H1 H2 H3 H4 H5] Hq. split; [by eapply core_quiet|done|by eapply shuffle_quiet| |].
  - intros x Hx. rewrite (qu_tasks _ _ Hq). auto.
  - by rewrite (qu_tasks _ _ Hq).
Qed.

(** From the unlisted task [t] with the data of [f k], after its removal, to the
    run queue. *)
Lemma wake_finish s L r l1 t l2 f s1 reason (Q : unit -> sched -> Prop) :
  core s L -> L r = l1 ++ t :: l2 ->
  core s1 (upd L r (l1 ++ l2)) -> unlisted (upd L r (l1 ++ l2)) t -> valid_task t ->
  same_env s s1 -> keeps (eq t) s s1 -> data (s1.(tasks) t) = data (f (s.(tasks) t)) ->
  (f (s.(tasks) t)).(t_priority) = (s.(tasks) t).(t_priority) ->
  (f (s.(tasks) t)).(assigned_cpu) = (s.(tasks) t).(assigned_cpu) ->
  (forall s' L', woken s L r l1 t l2 f s' L' -> Q tt s') ->
  wp (scheduler_enqueue_runnable t reason) Q s1.
Proof.
  intros C HL C1 Hun1 Hv E1 K1 D1 Hp Ha HQ.
  pose proof (data_fields _ _ D1) as (_ & Hp1 & Ha1 & _).
  assert (Hhome : home_cpu s1 (s1.(tasks) t).(assigned_cpu) = home_cpu s (s.(tasks) t).(assigned_cpu)).
  { unfold home_cpu. rewrite Ha1, Ha, (se_count _ _ E1), (se_boot _ _ E1).
    destruct (se_cpus _ _ E1 (s.(tasks) t).(assigned_cpu)) as (_ & _ & -> & _). done. }
  apply (enqueue_runnable_spec s1 (upd L r (l1 ++ l2)) t); try done.
  rewrite Hhome. intros s2 L2 [HL2 C2 E2 K2 D2]. apply (HQ s2 L2). split; try done.
  - simpl in HL2. rewrite Hp1, Hp in HL2. exact HL2.
  - split; [by etransitivity| |].
    + intros x. rewrite HL2. by apply moved_listed.
    + intros x Hx. assert (x <> t) by (intros ->; apply (Hx r); rewrite HL; set_solver).
      rewrite K2 by congruence. apply K1. congruence.
  - intros x Hx. rewrite K2 by done. by apply K1.
  - rewrite D2. unfold enqueued. rewrite (se_ticks _ _ E1), Hp1.
    destruct (se_cpus _ _ E1 (home_cpu s (s.(tasks) t).(assigned_cpu))) as (-> & -> & _ & _).
    revert D1. generalize (f (s.(tasks) t)) (s1.(tasks) t). intros [] [] [= ]. subst. reflexivity.
Qed.

(** ** Waking a selection of a list *)

(** The run queue a task goes to when it becomes runnable. *)
Definition home_queue (s : sched) (t : task_ref) : list_ref :=
  runnable (home_cpu s (s.(tasks) t).(assigned_cpu)) (scheduler_priority_sanitize (s.(tasks) t).(t_priority)).

(** The task record after [f] and an enqueue at home. *)
Definition awake (s : sched) (f : task -> task) (t : task_ref) : task :=
  data (enqueued (f (s.(tasks) t)) (s.(cpus) (home_cpu s (s.(tasks) t).(assigned_cpu))) s.(system_ticks)).

Lemma home_queue_kept s s' t :
  same_env s s' -> data (s'.(tasks) t) = data (s.(tasks) t) -> home_queue s' t = home_queue s t.
Proof.
  intros E (_ & Hp & Ha & _)%data_fields. unfold home_queue, home_cpu.
  rewrite Hp, Ha, (se_count _ _ E), (se_boot _ _ E).
  destruct (se_cpus _ _ E (s.(tasks) t).(assigned_cpu)) as (_ & _ & -> & _). done.
Qed.

(** From [(s, L)], the tasks [W] of list [r] went home in that order, and [kept]
    is left in [r]. *)
Record waking (s : sched) (L : list_ref -> list task_ref) (r : list_ref) (f : task -> task)
    (kept W : list task_ref) (s' : sched) (L' : list_ref -> list task_ref) : Prop := {
  wa_core : core s' L';
  wa_shuffle : shuffle s L s' L';
  wa_kept : L' r = kept;
  wa_queue : forall c p, L' (runnable c p) = L (runnable c p) ++ filter (fun t => home_queue s t = runnable c p) W;
  wa_static : forall r', r' <> r -> (forall c p, r' <> runnable c p) -> L' r' = L r';
  wa_keeps : keeps (fun x => x ∈ W) s s';
  wa_woken : forall t, t ∈ W -> data (s'.(tasks) t) = awake s f t
}.

Lemma waking_refl s L r f : core s L -> (forall c p, r <> runnable c p) -> waking s L r f (L r) [] s L.
Proof.
  intros C Hr. split; try done; [intros; by rewrite filter_nil, app_nil_r|].
  by intros t ?%elem_of_nil.
Qed.

Lemma waking_quiet s L r f kept W s1 s2 L' :
  waking s L r f kept W s1 L' -> quiet s1 s2 -> waking s L r f kept W s2 L'.
Proof.
  intros [] Hq. split; try done; [by eapply core_quiet|by eapply shuffle_quiet| |].
  - intros x Hx. rewrite (qu_tasks _ _ Hq). auto.
  - intros t Ht. rewrite (qu_tasks _ _ Hq). auto.
Qed.

(** What the record update [f] must respect. *)
Definition wake_update (f : task -> task) : Prop :=
  forall k k', (f k).(t_priority) = k.(t_priority) /\ (f k).(assigned_cpu) = k.(assigned_cpu) /\
    (f k).(cpu_affinity_mask) = k.(cpu_affinity_mask) /\ (data k = data k' -> data (f k) = data (f k')).

Lemma data_enqueued k k' c now : data k = data k' -> data (enqueued k c now) = data (enqueued k' c now).
Proof. destruct k, k'. intros [= ]. subst. reflexivity. Qed.

Lemma enqueued_same_cpu k c c' now : same_cpu c c' -> enqueued k c' now = enqueued k c now.
Proof. intros (E1 & E2 & _). unfold enqueued. by rewrite E1, E2. Qed.

Lemma awake_kept s s' f t :
  wake_update f -> same_env s s' -> data (s'.(tasks) t) = data (s.(tasks) t) -> awake s' f t = awake s f t.
Proof.
  intros Hf E D. destruct (data_fields _ _ D) as (_ & Hp & Ha & _).
  assert (home_cpu s' (s'.(tasks) t).(assigned_cpu) = home_cpu s (s.(tasks) t).(assigned_cpu)) as Hh.
  { pose proof (home_queue_kept s s' t E D) as H. unfold home_queue in H. congruence. }
  unfold awake. rewrite Hh, (se_ticks _ _ E).
  rewrite (enqueued_same_cpu _ _ _ _ (se_cpus _ _ E _)). apply data_enqueued. by apply Hf.
Qed.

(** What a task keeps when it is put on a run queue: everything but its place, its
    state, its slice and the time it was queued. *)
Definition unplaced (k : task) : task := data (enqueued k (mk_cpu 0 0 true 0 None) 0).

Lemma unplaced_data k k' : data k' = data k -> unplaced k' = unplaced k.
Proof. intros H. by apply data_enqueued. Qed.

Lemma unplaced_enqueued k c now : unplaced (enqueued k c now) = unplaced k.
Proof.
  unfold unplaced, enqueued, data. simpl. f_equal. unfold scheduler_priority_sanitize.
  destruct (SCHEDULER_PRIORITY_COUNT <=? t_priority k) eqn:E; [done|by rewrite E].
Qed.

Lemma unplaced_fields k k' :
  unplaced k' = unplaced k -> k'.(cpu_affinity_mask) = k.(cpu_affinity_mask) /\ k'.(t_frame) = k.(t_frame).
Proof. intros H. split; [apply (f_equal cpu_affinity_mask H)|apply (f_equal t_frame H)]. Qed.

Lemma waking_rest s L r f kept W s' L' x :
  waking s L r f kept W s' L' ->
  unplaced (s'.(tasks) x) = unplaced (if decide (x ∈ W) then f (s.(tasks) x) else s.(tasks) x).
Proof.
  intros HW. destruct (decide (x ∈ W)) as [Hin|Hout].
  - etransitivity; [|apply unplaced_enqueued]. apply unplaced_data. by apply (wa_woken _ _ _ _ _ _ _ _ HW).
  - apply unplaced_data. by apply (wa_keeps _ _ _ _ _ _ _ _ HW).
Qed.

(** One more task of the list goes home. *)
Lemma waking_step s L r f kept rest W t s1 L1 s2 L2 :
  wake_update f -> (forall c p, r <> runnable c p) ->
  waking s L r f (kept ++ t :: rest) W s1 L1 -> t ∉ W ->
  woken s1 L1 r kept t rest f s2 L2 -> waking s L r f (kept ++ rest) (W ++ [t]) s2 L2.
Proof.
  intros Hf Hr [C1 Sh1 Hk1 Hq1 Hs1 K1 D1] Ht [C2 HL2 Sh2 K2 D2]. simpl in HL2.
  assert (Dt : data (s1.(tasks) t) = data (s.(tasks) t)) by (by apply K1).
  pose proof (home_queue_kept s s1 t (sf_env _ _ _ _ Sh1) Dt) as Hh.
  fold (home_queue s1 t) in HL2. rewrite Hh in HL2.
  assert (Hne : home_queue s t <> r) by (intros <-; by eapply Hr).
  unfold moved in HL2. split; try done.
  - by eapply shuffle_trans.
  - rewrite HL2, upd_ne by done. by rewrite upd_eq.
  - intros c p. rewrite HL2, filter_app, filter_cons, filter_nil, app_assoc, <- Hq1.
    destruct (decide (home_queue s t = runnable c p)) as [E|E].
    + rewrite E, upd_eq, upd_ne by (intros E'; by eapply Hr). done.
    + rewrite upd_ne by done. rewrite upd_ne by (intros E'; by eapply Hr). by rewrite app_nil_r.
  - intros r' Hr' Hst. rewrite HL2, upd_ne, upd_ne by (done || (intros ->; by eapply Hst)). by apply Hs1.
  - intros x Hx. rewrite K2 by set_solver. apply K1. set_solver.
  - intros x [Hx| ->%list_elem_of_singleton]%elem_of_app.
    + rewrite K2 by (intros <-; done). auto.
    + rewrite D2. fold (awake s1 f t). apply awake_kept; [done|apply Sh1|done].
Qed.

Lemma woken_quiet_l s L r l1 t l2 f s0 s1 L' :
  quiet s s0 -> woken s0 L r l1 t l2 f s1 L' -> woken s L r l1 t l2 f s1 L'.
Proof.
  intros [Ht Hl Hc E] [H1 H2 [F1 F2 F3] H4 H5].
  assert (Hh : forall a, home_cpu s0 a = home_cpu s a)
    by (intros a; unfold home_cpu; by rewrite (se_count _ _ E), (se_boot _ _ E), Hc).
  cbv zeta in H2. rewrite Ht, Hh in *. split; try done.
  - split; [by etransitivity|done|]. intros x Hx. by rewrite F3.
  - intros x Hx. rewrite H4 by done. by rewrite Ht.
  - by rewrite H5, Hc, (se_ticks _ _ E).
Qed.

(** The three ways to leave a waiting list. *)
Definition stay_as (k : task) : task := k.
Definition timed_out (k : task) : task :=
  set_wakeup_tick 0 (set_wait_result false (set_wait_channel None k)).
Definition signalled (k : task) : task :=
  set_wakeup_tick 0 (set_wait_result true (set_wait_channel None k)).

Lemma stay_as_update : wake_update stay_as.
Proof. intros k k'. by repeat split. Qed.
Lemma timed_out_update : wake_update timed_out.
Proof. intros [] []. repeat split. intros [= ]. subst. reflexivity. Qed.
Lemma signalled_update : wake_update signalled.
Proof. intros [] []. repeat split. intros [= ]. subst. reflexivity. Qed.

Lemma listed_valid s L r l1 t l2 : core s L -> L r = l1 ++ t :: l2 -> valid_task t.
Proof. intros C HL. apply (rep_valid _ _ (core_rep _ _ C) r). rewrite HL. set_solver. Qed.

Lemma wake_sleeper_due s L l1 t l2 (Q : unit -> sched -> Prop) :
  core s L -> L sleeping_list = l1 ++ t :: l2 -> (s.(tasks) t).(wakeup_tick) <= s.(system_ticks) ->
  (forall s' L', woken s L sleeping_list l1 t l2 stay_as s' L' -> Q tt s') -> wp (wake_sleeper t) Q s.
Proof.
  intros C HL Hdue HQ. unfold wake_sleeper, get_task. do 5 wp_step; [|lia].
  wp_step. apply latency_record_quiet. intros s0 H0. pose proof (core_quiet _ _ _ H0 C) as C0.
  wp_step. apply (remove_core s0 L sleeping_list t l1 l2); try done. intros s1 C1 Hun1 Hrl1.
  destruct (relinked_env _ _ Hrl1) as [E1 _]. wp_step.
  apply (wake_finish s0 L sleeping_list l1 t l2 stay_as s1); try done.
  - by eapply (listed_valid s L).
  - by intros x _; apply Hrl1.
  - apply Hrl1.
  - intros s2 L2 Hwk. apply counter_inc_quiet. intros s3 H3. apply (HQ s3 L2).
    eapply woken_quiet; [|done]. by eapply woken_quiet_l.
Qed.

(** Leaving the blocked list: the three fields change, then the task goes home. *)
Lemma leave_blocked s L l1 t l2 v f reason (K : M sched unit) (Q : unit -> sched -> Prop) :
  core s L -> L blocked_list = l1 ++ t :: l2 ->
  (forall k, f k = set_wakeup_tick 0 (set_wait_result v (set_wait_channel None k))) ->
  (forall s' L', woken s L blocked_list l1 t l2 f s' L' -> wp K Q s') ->
  wp (task_list_remove blocked_list t ;;; upd_task t (set_wait_channel None) ;;;
      upd_task t (set_wait_result v) ;;; upd_task t (set_wakeup_tick 0) ;;;
      scheduler_enqueue_runnable t reason ;;; K) Q s.
Proof.
  intros C HL Hf HQ. wp_step. apply (remove_core s L blocked_list t l1 l2); try done.
  intros s1 C1 Hun1 Hrl1. destruct (relinked_env _ _ Hrl1) as [E1 _].
  wp_step. apply (upd_unlisted s1 (upd L blocked_list (l1 ++ l2))); [done|done|apply C1|].
  intros s2 C2 E2 T2 O2. wp_step. apply (upd_unlisted s2 (upd L blocked_list (l1 ++ l2))); [done|done|apply C2|].
  intros s3 C3 E3 T3 O3. wp_step. apply (upd_unlisted s3 (upd L blocked_list (l1 ++ l2))); [done|done|apply C3|].
  intros s4 C4 E4 T4 O4. wp_step. apply (wake_finish s L blocked_list l1 t l2 f s4); try done.
  - by eapply (listed_valid s L).
  - by rewrite E1, E2, E3, E4.
  - intros x Hx. rewrite O4, O3, O2 by congruence. apply Hrl1.
  - rewrite T4, T3, T2, Hf. pose proof (rl_data _ _ Hrl1 t) as D. revert D.
    generalize (s1.(tasks) t) (s.(tasks) t). intros [] [] [= ]. subst. reflexivity.
  - by rewrite Hf.
  - by rewrite Hf.
Qed.

Lemma expire_waiter_due s L l1 t l2 (Q : unit -> sched -> Prop) :
  core s L -> L blocked_list = l1 ++ t :: l2 ->
  (s.(tasks) t).(wakeup_tick) <> 0 -> (s.(tasks) t).(wakeup_tick) <= s.(system_ticks) ->
  (forall s' L', woken s L blocked_list l1 t l2 timed_out s' L' -> Q tt s') -> wp (expire_waiter t) Q s.
Proof.
  intros C HL H0' Hdue HQ. unfold expire_waiter, get_task. do 5 wp_step; [|lia].
  wp_step. apply latency_record_quiet. intros s0 H0. pose proof (core_quiet _ _ _ H0 C) as C0.
  apply (leave_blocked s0 L l1 t l2 false timed_out); try done.
  intros s1 L1 Hwk. wp_step. apply counter_inc_quiet. intros s2 H2. apply counter_inc_quiet. intros s3 H3.
  apply (HQ s3 L1). eapply woken_quiet; [|etransitivity; [exact H2|exact H3]]. by eapply woken_quiet_l.
Qed.

Lemma wake_waiter_spec s L l1 t l2 (Q : unit -> sched -> Prop) :
  core s L -> L blocked_list = l1 ++ t :: l2 ->
  (forall s' L', woken s L blocked_list l1 t l2 signalled s' L' -> Q tt s') -> wp (wake_waiter t) Q s.
Proof.
  intros C HL HQ. unfold wake_waiter. apply (leave_blocked s L l1 t l2 true signalled); try done.
  intros s1 L1 Hwk. apply counter_inc_quiet. intros s2 H2. apply (HQ s2 L1). by eapply woken_quiet.
Qed.

(** ** Walking a waiting list *)

Section Visit.
Context (s : sched) (L : list_ref -> list task_ref) (r : list_ref) (f : task -> task).
Context (sel : task_ref -> Prop) `{forall t, Decision (sel t)}.
Context (C : core s L) (Hr : forall c p, r <> runnable c p) (Hf : wake_update f).

(** The walk has visited [seen] and woken the selected tasks. *)
Definition visiting (seen rest : list task_ref) (s' : sched) (L' : list_ref -> list task_ref) : Prop :=
  L r = seen ++ rest /\ waking s L r f (filter (fun t => ~ sel t) seen ++ rest) (filter sel seen) s' L'.

Lemma visiting_start : visiting [] (L r) s L.
Proof. split; [done|]. by apply waking_refl. Qed.

Lemma visiting_skip seen t rest s' L' : ~ sel t -> visiting seen (t :: rest) s' L' -> visiting (seen ++ [t]) rest s' L'.
Proof.
  intros Hs [HL HW]. split; [by rewrite <- app_assoc|].
  rewrite !filter_app, !filter_cons, !filter_nil, decide_True, decide_False by done.
  by rewrite app_nil_r, <- app_assoc.
Qed.

Lemma visiting_wake seen t rest s1 L1 s2 L2 :
  sel t -> visiting seen (t :: rest) s1 L1 ->
  woken s1 L1 r (filter (fun t => ~ sel t) seen) t rest f s2 L2 -> visiting (seen ++ [t]) rest s2 L2.
Proof.
  intros Hs [HL HW] Hwk. split; [by rewrite <- app_assoc|].
  rewrite !filter_app, !filter_cons, !filter_nil, (decide_True (P := sel t)), decide_False by tauto.
  rewrite app_nil_r.
  eapply waking_step; try done. pose proof (rep_nodup _ _ (core_rep _ _ C) r) as Hnd. rewrite HL in Hnd.
  apply NoDup_app in Hnd as (_ & Hd & _). intros [_ Hin]%list_elem_of_filter. apply (Hd t Hin). by left.
Qed.

Lemma visiting_task seen t rest s' L' :
  visiting seen (t :: rest) s' L' ->
  (s'.(tasks) t).(list_next) = first_or rest None /\ same_env s s' /\ data (s'.(tasks) t) = data (s.(tasks) t).
Proof.
  intros [HL HW]. split; [|split; [apply HW|]].
  - eapply next_of; [apply (core_rep _ _ (wa_core _ _ _ _ _ _ _ _ HW))|apply HW].
  - apply (wa_keeps _ _ _ _ _ _ _ _ HW). pose proof (rep_nodup _ _ (core_rep _ _ C) r) as Hnd. rewrite HL in Hnd.
    apply NoDup_app in Hnd as (_ & Hd & _). intros [_ Hin]%list_elem_of_filter. apply (Hd t Hin). by left.
Qed.
End Visit.

(** The walk that looks at every task. *)
Lemma walk_all s L r f (sel : task_ref -> Prop) `{forall t, Decision (sel t)} (body : task_ref -> M sched unit)
    (Q : unit + Empty_set -> sched -> Prop) :
  core s L -> (forall c p, r <> runnable c p) -> wake_update f ->
  (forall s1 L1 l1 t l2 (Q' : unit -> sched -> Prop), core s1 L1 -> L1 r = l1 ++ t :: l2 -> same_env s s1 ->
     data (s1.(tasks) t) = data (s.(tasks) t) ->
     (sel t -> forall s' L', woken s1 L1 r l1 t l2 f s' L' -> Q' tt s') -> (~ sel t -> Q' tt s1) ->
     wp (body t) Q' s1) ->
  (forall s' L', waking s L r f (filter (fun t => ~ sel t) (L r)) (filter sel (L r)) s' L' -> Q (inl tt) s') ->
  wp (walk walk_fuel (first_or (L r) None) tt (fun _ => true) (fun t _ => body t ;;; ret (inl tt))) Q s.
Proof.
  intros C Hr Hf Hbody HQ.
  apply (walk_rule _ _ (fun rest _ s' => exists seen L', visiting s L r f sel seen rest s' L')).
  - intros t rest _ s' (seen & L' & HV). by eapply visiting_task in HV as [? _].
  - intros t rest _ s1 (seen & L1 & HV) _. wp_step.
    destruct (visiting_task s L r f sel C _ _ _ _ _ HV) as (_ & E & D).
    eapply (Hbody s1 L1 _ t rest); [apply HV|apply HV|done|done| |].
    + intros Hs s2 L2 Hwk. wp_step. exists (seen ++ [t]), L2. by eapply visiting_wake.
    + intros Hs. wp_step. exists (seen ++ [t]), L1. by apply visiting_skip.
  - intros [] s' (seen & L' & HL & HW). rewrite app_nil_r in *. subst seen. by eapply HQ.
  - done.
  - exists [], L. by apply visiting_start.
  - apply (walk_fuel_enough s). apply C.
Qed.

(** Which tasks the clock wakes. *)
Definition due (s : sched) (t : task_ref) : Prop := (s.(tasks) t).(wakeup_tick) <= s.(system_ticks).
Definition expired (s : sched) (t : task_ref) : Prop :=
  (s.(tasks) t).(wakeup_tick) <> 0 /\ (s.(tasks) t).(wakeup_tick) <= s.(system_ticks).
#[export] Instance due_dec s t : Decision (due s t).
Proof. unfold due. apply _. Defined.
#[export] Instance expired_dec s t : Decision (expired s t).
Proof. unfold expired. apply _. Defined.

Lemma list_head s L r : core s L -> (s.(lists) r).(l_head) = first_or (L r) None.
Proof. intros C. apply (lr_head _ _ _ (rep_list _ _ (core_rep _ _ C) r)). Qed.

(** The clock's work: sleepers that are due, then waiters that timed out. *)
Lemma advance_timers_spec s L (Q : unit -> sched -> Prop) :
  core s L ->
  (forall s1 L1 s2 L2,
     waking s L sleeping_list stay_as (filter (fun t => ~ due s t) (L sleeping_list))
       (filter (due s) (L sleeping_list)) s1 L1 ->
     waking s1 L1 blocked_list timed_out (filter (fun t => ~ expired s1 t) (L1 blocked_list))
       (filter (expired s1) (L1 blocked_list)) s2 L2 -> Q tt s2) ->
  wp scheduler_advance_timers Q s.
Proof.
  intros C HQ. unfold scheduler_advance_timers, get_list. do 3 wp_step. rewrite (list_head s L) by done.
  apply (walk_all s L sleeping_list stay_as (due s)); [done|done|apply stay_as_update| |].
  { intros s1 L1 l1 t l2 Q' C1 HL1 E1 D1 Hy Hn. destruct (data_fields _ _ D1) as (_ & _ & _ & Hw & _).
    destruct (decide (due s t)) as [Hd|Hd]; unfold due in Hd.
    - apply (wake_sleeper_due s1 L1 l1 t l2); try done; [|by apply Hy]. rewrite Hw, (se_ticks _ _ E1). done.
    - unfold wake_sleeper, get_task. do 5 wp_step; [|wp_step; by apply Hn].
      rewrite Hw, (se_ticks _ _ E1) in E. lia. }
  intros s1 L1 HW1. pose proof (wa_core _ _ _ _ _ _ _ _ HW1) as C1.
  do 3 wp_step. rewrite (list_head s1 L1) by done.
  apply (walk_all s1 L1 blocked_list timed_out (expired s1)); [done|done|apply timed_out_update| |].
  { intros s2 L2 l1 t l2 Q' C2 HL2 E2 D2 Hy Hn. destruct (data_fields _ _ D2) as (_ & _ & _ & Hw & _).
    destruct (decide (expired s1 t)) as [Hd|Hd]; unfold expired in Hd.
    - apply (expire_waiter_due s2 L2 l1 t l2); try done; rewrite ?Hw, ?(se_ticks _ _ E2); try tauto.
      by apply Hy.
    - unfold expire_waiter, get_task. do 5 wp_step; [|wp_step; by apply Hn].
      rewrite Hw, (se_ticks _ _ E2) in E. lia. }
  intros s2 L2 HW2. wp_step. by eapply HQ.
Qed.

(** Which tasks a channel wakes. *)
Definition waits_on (s : sched) (ch : Z) (t : task_ref) : Prop := (s.(tasks) t).(wait_channel) = Some ch.
#[export] Instance waits_on_dec s ch t : Decision (waits_on s ch t).
Proof. unfold waits_on. apply _. Defined.

Definition woken_count (s : sched) (ch : Z) (seen : list task_ref) : Z :=
  Z.of_nat (length (filter (waits_on s ch) seen)).

Lemma woken_count_snoc s ch seen t :
  woken_count s ch (seen ++ [t]) = woken_count s ch seen + (if decide (waits_on s ch t) then 1 else 0).
Proof.
  unfold woken_count. rewrite filter_app, length_app, filter_cons, filter_nil. destruct (decide _); simpl; lia.
Qed.

Lemma woken_count_bound s L ch seen rest :
  core s L -> L blocked_list = seen ++ rest -> 0 <= woken_count s ch seen <= SCHEDULER_MAX_THREADS.
Proof.
  intros C HL. pose proof (rep_length s L blocked_list (core_rep _ _ C)) as H. rewrite HL, length_app in H.
  pose proof (length_filter (waits_on s ch) seen). unfold woken_count, task_ref in *. lia.
Qed.

(** The walk of [scheduler_wake_channel] stops at the end of the list, or when
    [limit] tasks are awake. *)
Lemma wake_channel_walk s L ch limit (Q : Z + Empty_set -> sched -> Prop) :
  core s L -> 0 <= limit ->
  (forall seen rest s' L', visiting s L blocked_list signalled (waits_on s ch) seen rest s' L' ->
     rest = [] /\ woken_count s ch seen <= limit \/ woken_count s ch seen = limit ->
     Q (inl (woken_count s ch seen)) s') ->
  wp (walk walk_fuel (first_or (L blocked_list) None) 0 (fun woke => woke <? limit) (fun t woke =>
        w <- get_task t wait_channel ;;
        if decide (w = Some ch) then wake_waiter t ;;; ret (inl (u32 (woke + 1))) else ret (inl woke))) Q s.
Proof.
  intros C Hlim HQ.
  apply (walk_rule _ _ (fun rest woke s' => exists seen L',
    visiting s L blocked_list signalled (waits_on s ch) seen rest s' L' /\
    woke = woken_count s ch seen /\ woke <= limit)).
  - intros t rest _ s' (seen & L' & HV & _). by eapply visiting_task in HV as [? _].
  - intros t rest woke s1 (seen & L1 & HV & -> & Hle) Hg. z_bools. unfold get_task. do 2 wp_step.
    destruct (visiting_task s L blocked_list signalled (waits_on s ch) C _ _ _ _ _ HV) as (_ & E & D).
    destruct (data_fields _ _ D) as (_ & _ & _ & _ & -> & _).
    pose proof (woken_count_bound s L ch seen (t :: rest) C (proj1 HV)) as Hb. unfold SCHEDULER_MAX_THREADS in Hb.
    pose proof (woken_count_snoc s ch seen t) as Hcnt. fold (waits_on s ch t). destruct (decide (waits_on s ch t)) as [Hs|Hs].
    + wp_step. eapply wake_waiter_spec; [apply HV|apply HV|]. intros s2 L2 Hwk. wp_step.
      exists (seen ++ [t]), L2. split.
      { eapply visiting_wake; try done. apply signalled_update. }
      rewrite wrap_small by word_lia. lia.
    + wp_step. exists (seen ++ [t]), L1. split; [by apply visiting_skip|]. lia.
  - intros woke s' (seen & L' & HV & -> & Hle). eapply HQ; [done|]. by left.
  - intros rest woke s' (seen & L' & HV & -> & Hle) Hg. z_bools. eapply HQ; [done|]. right. lia.
  - exists [], L. split; [by apply visiting_start|]. done.
  - apply (walk_fuel_enough s). apply C.
Qed.
