(* ===== verification/SchedSettled.v ===== *)
(** The scheduler between operations: the lock, the settled invariant, and the
    two ways an operation keeps it (a shuffle of listed tasks, a handover of a
    processor). *)
From S2P Require Import Prelude SchedData Sched SchedApi SchedLists SchedInv SchedMoves.
From Stdlib Require Import ZArith Lia.
From stdpp Require Import sets.
Open Scope Z_scope.

(** ** The lock *)

Definition locked (s : sched) : sched := set_scheduler_state_lock 1 (set_eflags (cli s.(eflags)) s).
Definition unlocked (s s' : sched) : sched := set_scheduler_state_lock 0 (set_eflags s.(eflags) s').

Definition idle (s : sched) : Prop := s.(scheduler_state_lock) = 0 /\ fits 32 s.(eflags).

(** The two halves of the lock, for code that may panic in between. *)
Lemma wp_lock s (Q : Z -> sched -> Prop) : idle s -> Q s.(eflags) (locked s) -> wp scheduler_lock_irqsave Q s.
Proof.
  intros [Hl He] H. unfold scheduler_lock_irqsave, scheduler_irq_save, scheduler_atomic_try_lock_u32.
  wp_steps; [|by rewrite Hl in E]. exact H.
Qed.

Lemma wp_unlock s s' (Q : unit -> sched -> Prop) :
  idle s -> s'.(eflags) = cli s.(eflags) -> Q tt (unlocked s s') -> wp (scheduler_unlock_irqrestore s.(eflags)) Q s'.
Proof.
  intros [Hl He] He' HQ. unfold scheduler_unlock_irqrestore, scheduler_irq_restore. wp_step. wp_step.
  pose proof (eflags_restored _ He) as Hr.
  destruct (interrupts_on s.(eflags)); wp_steps; simpl; rewrite ?He', ?Hr.
  - exact HQ.
  - unfold unlocked in HQ. rewrite <- Hr, <- He' in HQ. by destruct s'.
Qed.

Lemma wp_sched_locked {A} (body : M sched A) (Q : A -> sched -> Prop) s :
  idle s ->
  wp body (fun r s' => s'.(eflags) = cli s.(eflags) /\ Q r (unlocked s s')) (locked s) ->
  wp (with_scheduler_lock body) Q s.
Proof.
  intros Hi H. unfold with_scheduler_lock. wp_step. apply wp_lock; [done|]. wp_step.
  eapply wp_mono; [exact H|]. intros r s' [He' HQ]. wp_step. by apply wp_unlock.
Qed.

Lemma core_locked s L : core s L -> core (locked s) L.
Proof. intros C. apply (core_tweak s); try done. Qed.

Lemma core_unlocked s s' L : core s' L -> core (unlocked s s') L.
Proof. intros C. apply (core_tweak s'); try done. Qed.

Lemma env_unlocked s s0 s' :
  idle s -> s0.(eflags) = s.(eflags) -> s0.(scheduler_state_lock) = 0 ->
  same_env (locked s0) s' -> same_env s0 (unlocked s s') /\ s'.(eflags) = cli s.(eflags).
Proof.
  intros [Hl _] He Hl0 []. simpl in *. split; [|congruence]. split; simpl; done.
Qed.

(** ** The settled invariant *)

(** The processor the code runs on, as the scheduler sees it. *)
Definition here (s : sched) : Z :=
  if (s.(configured_cpu_count) <=? s.(this_cpu)) || negb (s.(cpus) s.(this_cpu)).(online)
  then s.(boot_cpu_id) else s.(this_cpu).

Definition cpu_index (s : sched) (c : Z) : Prop := 0 <= c < s.(configured_cpu_count).

(** Between operations: the lists are well formed, each processor's current task
    is running and is on no list, runs nowhere else, and every task is on a list
    or current on a processor. *)
Record settled (s : sched) (L : list_ref -> list task_ref) : Prop := {
  stl_core : core s L;
  stl_idle : idle s;
  stl_here : 0 <= s.(this_cpu);
  stl_running : forall c t, cpu_index s c -> (s.(cpus) c).(current) = Some t -> running_on s L c t;
  stl_once : forall c1 c2 t, cpu_index s c1 -> cpu_index s c2 ->
    (s.(cpus) c1).(current) = Some t -> (s.(cpus) c2).(current) = Some t -> c1 = c2;
  stl_all : forall t, valid_task t -> unlisted L t -> exists c, cpu_index s c /\ (s.(cpus) c).(current) = Some t
}.

Lemma here_ok s L : core s L -> 0 <= s.(this_cpu) -> cpu_index s (here s) /\ (s.(cpus) (here s)).(online) = true.
Proof.
  intros C Ht. unfold here, cpu_index. destruct (_ || _) eqn:E; [split; apply C|]. z_bools. split; [lia|done].
Qed.

Lemma current_cpu_state s L (Q : Z -> sched -> Prop) :
  core s L -> Q (here s) s -> wp scheduler_current_cpu_state Q s.
Proof.
  intros C HQ. unfold scheduler_current_cpu_state. do 3 wp_step. pose proof (core_cfg _ _ C).
  replace (configured_cpu_count (id s) =? 0) with false by (simpl; lia). done.
Qed.

Lemma current_task_here s L (Q : option task_ref -> sched -> Prop) :
  core s L -> Q (s.(cpus) (here s)).(current) s -> wp scheduler_current_task Q s.
Proof.
  intros C HQ. unfold scheduler_current_task. wp_step. eapply current_cpu_state; [done|].
  unfold get_cpu. by wp_step.
Qed.

Lemma env_here s s' : same_env s s' -> here s' = here s.
Proof.
  intros E. unfold here. rewrite (se_this _ _ E), (se_count _ _ E), (se_boot _ _ E).
  by destruct (se_cpus _ _ E s.(this_cpu)) as (_ & _ & -> & _).
Qed.

(** ** Keeping it: shuffles *)

Lemma shuffle_settled s L s' L' : settled s L -> core s' L' -> shuffle s L s' L' -> settled s' L'.
Proof.
  intros [C Hi Ht Hr Ho Ha] C' [E Hl D].
  assert (Hc : forall c, current (s'.(cpus) c) = current (s.(cpus) c)) by (intros c; apply (se_cpus _ _ E c)).
  unfold cpu_index, idle in *. rewrite <- (se_count _ _ E), <- (se_this _ _ E), <- (se_lock _ _ E), <- (se_eflags _ _ E) in *.
  split; try done; unfold cpu_index; setoid_rewrite Hc.
  - intros c t Hcc Hcur. destruct (Hr c t Hcc Hcur) as (_ & Hv & Hun & Hst).
    split; [by rewrite Hc|]. split; [done|]. split; [by apply Hl|].
    by destruct (data_fields _ _ (D t Hun)) as (-> & _).
  - done.
  - intros t Hv Hun. apply Ha; [done|]. by apply Hl.
Qed.

(** ** Keeping it: handing a processor over *)

(** Processor [cpu] stops running [out], if any, and runs [n]. *)
Record handover (s : sched) (L : list_ref -> list task_ref) (cpu : Z) (out : option task_ref) (n : task_ref)
    (s' : sched) (L' : list_ref -> list task_ref) : Prop := {
  ho_core : core s' L';
  ho_env : same_env (with_current s cpu n) s';
  ho_listed : forall x, unlisted L' x <-> x = n \/ unlisted L x /\ out <> Some x;
  ho_next : out = Some n \/ ~ unlisted L n;
  ho_valid : valid_task n;
  ho_running : (s'.(tasks) n).(t_state) = TASK_RUNNING;
  ho_keeps : forall x, unlisted L x -> out <> Some x -> x <> n -> data (s'.(tasks) x) = data (s.(tasks) x)
}.

Lemma handover_settled s L cpu out n s' L' :
  settled s L -> cpu_index s cpu -> (s.(cpus) cpu).(current) = out ->
  handover s L cpu out n s' L' -> settled s' L'.
Proof.
  intros [C Hi Ht Hr Ho Ha] Hcpu Hcur [C' E Hl Hn Hv Hrun D].
  assert (Hc : forall c, current (s'.(cpus) c) = if decide (c = cpu) then Some n else current (s.(cpus) c)).
  { intros c. destruct (se_cpus _ _ E c) as (_ & _ & _ & ->). simpl.
    destruct (decide (c = cpu)) as [->|]; by rewrite ?upd_eq, ?upd_ne. }
  assert (Hother : forall c x, cpu_index s c -> c <> cpu -> current (s.(cpus) c) = Some x -> out <> Some x /\ x <> n).
  { intros c x Hcc Hne Hx. assert (Hxt : out <> Some x) by (intros ->; apply Hne; by eapply Ho).
    split; [done|]. intros ->. destruct Hn as [->|Hn]; [done|]. apply Hn. by apply (Hr c n). }
  assert (Hci : forall c, cpu_index s' c <-> cpu_index s c) by (intros c; unfold cpu_index; by rewrite (se_count _ _ E)).
  split; [done| |by rewrite (se_this _ _ E)| | |].
  - destruct Hi. split; [by rewrite (se_lock _ _ E)|by rewrite (se_eflags _ _ E)].
  - intros c x Hcc Hx. unfold running_on. rewrite Hc in *. apply Hci in Hcc. destruct (decide (c = cpu)) as [->|Hne].
    + injection Hx as <-. split; [done|]. split; [done|]. split; [|done]. apply Hl. by left.
    + destruct (Hother c x Hcc Hne Hx) as [H1 H2]. destruct (Hr c x Hcc Hx) as (_ & Hvx & Hux & Hsx).
      split; [done|]. split; [done|]. split; [apply Hl; tauto|].
      by destruct (data_fields _ _ (D x Hux H1 H2)) as (-> & _).
  - intros c1 c2 x H1 H2. rewrite !Hc. apply Hci in H1, H2. intros Hx1 Hx2.
    destruct (decide (c1 = cpu)) as [->|N1], (decide (c2 = cpu)) as [->|N2]; simplify_eq; try done.
    + by destruct (Hother c2 x H2 N2 Hx2).
    + by destruct (Hother c1 x H1 N1 Hx1).
    + by eapply Ho.
  - intros x Hvx Hux. apply Hl in Hux as [->|[Hux Hne]].
    + exists cpu. split; [by apply Hci|]. by rewrite Hc, decide_True.
    + destruct (Ha x Hvx Hux) as (c & Hcc & Hx). exists c. split; [by apply Hci|].
      rewrite Hc, decide_False; [done|]. intros ->. congruence.
Qed.

(** ** The yield interrupt *)

Lemma switch_unlock s s0 s1 cpu n :
  idle s -> quiet (locked s) s0 -> same_env (with_current s0 cpu n) s1 ->
  same_env (with_current s cpu n) (unlocked s s1) /\ s1.(eflags) = cli s.(eflags).
Proof.
  intros Hi Hq E. apply (env_unlocked s (with_current s cpu n) s1); try done; [apply Hi|].
  etransitivity; [|exact E]. apply (qu_env _ _ (with_current_quiet (locked s) s0 cpu n Hq)).
Qed.

Lemma rescheduled_unlock s s0 L cpu t frame r s1 L' n :
  idle s -> quiet (locked s) s0 -> rescheduled s0 L cpu t frame r s1 L' n ->
  rescheduled s L cpu t frame r (unlocked s s1) L' n /\ s1.(eflags) = cli s.(eflags).
Proof.
  intros Hi Hq [Hqu C Hu Hv E K R Sl F V]. destruct (switch_unlock s s0 s1 cpu n Hi Hq E) as [E' He].
  pose proof (qu_tasks _ _ Hq) as Ht. simpl in Ht. rewrite Ht in *. split; [|done].
  split; try done; [by apply core_unlocked| |].
  - intros x Hx. simpl. rewrite K by done. by rewrite Ht.
  - intros Hne. simpl. rewrite V by done. by rewrite (qu_cpus _ _ Hq), (se_ticks _ _ (qu_env _ _ Hq)).
Qed.

Lemma dispatched_unlock s s0 L cpu t frame r s1 L' n :
  idle s -> quiet (locked s) s0 -> dispatched s0 L cpu t frame r s1 L' n ->
  dispatched s L cpu t frame r (unlocked s s1) L' n /\ s1.(eflags) = cli s.(eflags).
Proof.
  intros Hi Hq [Hqu C Hu Hv E K R Sl F V]. destruct (switch_unlock s s0 s1 cpu n Hi Hq E) as [E' He].
  pose proof (qu_tasks _ _ Hq) as Ht. simpl in Ht. rewrite Ht in *. split; [|done].
  split; try done; [by apply core_unlocked|]. intros x Hx. simpl. rewrite K by done. by rewrite Ht.
Qed.

(** Entering the handler: the lock, a counter, the processor. *)
Lemma on_yield_enter s L frame (Q : option Z -> sched -> Prop) :
  core s L -> idle s ->
  (forall s0, quiet (locked s) s0 -> core s0 L ->
     wp (scheduler_schedule_cpu (here s) frame true)
       (fun r s' => s'.(eflags) = cli s.(eflags) /\ Q r (unlocked s s')) s0) ->
  wp (scheduler_on_yield frame) Q s.
Proof.
  intros C Hi HQ. unfold scheduler_on_yield. apply wp_sched_locked; [done|]. wp_step.
  apply counter_inc_quiet. intros s0 Hq. pose proof (core_quiet _ _ _ Hq (core_locked _ _ C)) as C0.
  wp_step. eapply current_cpu_state; [done|]. rewrite (env_here _ _ (qu_env _ _ Hq)). by apply HQ.
Qed.

Lemma yield_running s L t frame (Q : option Z -> sched -> Prop) :
  core s L -> idle s -> 0 <= s.(this_cpu) -> running_on s L (here s) t ->
  (forall r s' L' n, rescheduled s L (here s) t frame r s' L' n -> Q r s') ->
  wp (scheduler_on_yield frame) Q s.
Proof.
  intros C Hi Ht (Hcur & Hv & Hun & Hst) HQ. destruct (here_ok s L C Ht) as [Hc Hon].
  eapply on_yield_enter; [done|done|]. intros s0 Hq C0.
  eapply (schedule_running s0 L (here s) t); [done| | | |].
  - split; [by rewrite (qu_cpus _ _ Hq)|]. split; [done|]. split; [done|]. by rewrite (qu_tasks _ _ Hq).
  - by rewrite (se_count _ _ (qu_env _ _ Hq)).
  - by rewrite (qu_cpus _ _ Hq).
  - intros r s1 L' n Hr. destruct (rescheduled_unlock _ _ _ _ _ _ _ _ _ _ Hi Hq Hr) as [Hr' He].
    split; [done|]. by eapply HQ.
Qed.

Lemma yield_blocked s L t frame (Q : option Z -> sched -> Prop) :
  core s L -> idle s -> 0 <= s.(this_cpu) -> (s.(cpus) (here s)).(current) = Some t ->
  (s.(tasks) t).(t_state) <> TASK_RUNNING -> ~ no_runnable L (here s) ->
  (forall r s' L' n, dispatched s L (here s) t frame r s' L' n -> Q r s') ->
  wp (scheduler_on_yield frame) Q s.
Proof.
  intros C Hi Ht Hcur Hst Hne HQ. destruct (here_ok s L C Ht) as [Hc Hon].
  eapply on_yield_enter; [done|done|]. intros s0 Hq C0.
  eapply (schedule_blocked s0 L (here s) t); [done| | | |done|].
  - by rewrite (qu_cpus _ _ Hq).
  - by rewrite (qu_tasks _ _ Hq).
  - by rewrite (se_count _ _ (qu_env _ _ Hq)).
  - intros r s1 L' n Hr. destruct (dispatched_unlock _ _ _ _ _ _ _ _ _ _ Hi Hq Hr) as [Hr' He].
    split; [done|]. by eapply HQ.
Qed.

(** ** Both are handovers *)

Lemma best_listed L cpu p t l : best_runnable L cpu p t l -> t ∈ L (runnable cpu p).
Proof. intros (_ & -> & _). by left. Qed.

(** Popping the head of a run queue unlists it and nothing else. *)
Lemma popped_listed L cpu q n l :
  best_runnable L cpu q n l -> unlisted (upd L (runnable cpu q) l) n ->
  forall x, unlisted (upd L (runnable cpu q) l) x <-> x = n \/ unlisted L x.
Proof.
  intros (_ & HL & _) Hn x. split.
  - intros Hu. destruct (decide (x = n)) as [->|Hne]; [by left|right]. intros r Hin. apply (Hu r).
    destruct (decide (r = runnable cpu q)) as [->|]; rewrite ?upd_eq, ?upd_ne by done; [|done].
    rewrite HL in Hin. set_solver.
  - intros [->|Hx]; [done|]. intros r Hin. apply (Hx r).
    destruct (decide (r = runnable cpu q)) as [->|Hne]; rewrite ?upd_eq, ?upd_ne in Hin by done; [|done].
    rewrite HL. by right.
Qed.

(** Pushing lists one task more. *)
Lemma pushed_listed (L : list_ref -> list task_ref) r t x :
  unlisted (upd L r (L r ++ [t])) x <-> unlisted L x /\ x <> t.
Proof.
  unfold unlisted. split.
  - intros H. split; [intros r' Hin|intros ->].
    + apply (H r'). destruct (decide (r' = r)) as [->|]; rewrite ?upd_eq, ?upd_ne by done; set_solver.
    + apply (H r). rewrite upd_eq. set_solver.
  - intros [H Hne] r' [Hin|[_ ->]]%upd_push_elem; [by apply (H r')|done].
Qed.

Lemma rescheduled_handover s L cpu t frame r s' L' n :
  rescheduled s L cpu t frame r s' L' n -> handover s L cpu (Some t) n s' L'.
Proof.
  intros [(p & q & l & _ & Hb & HL') C Hu Hv E K R Sl F V]. cbv zeta in *.
  set (L1 := upd L (runnable cpu p) (L (runnable cpu p) ++ [t])) in *.
  split; try done.
  - intros x. rewrite HL' in *. rewrite (popped_listed L1 cpu q n l Hb Hu). unfold L1. rewrite pushed_listed. naive_solver.
  - destruct (decide (n = t)) as [->|Hne]; [by left|right]. intros Hun.
    apply best_listed, upd_push_elem in Hb as [Hb|[_ Hb]]; [by apply (Hun _ Hb)|done].
  - intros x _ H1 H2. apply K. intros [->|?]; done.
Qed.

(** A current task that put itself on a list, and the dispatch that follows. *)
Lemma dispatched_handover s L s1 L1 cpu t frame r s' L' n :
  (forall x, unlisted L1 x <-> unlisted L x /\ x <> t) -> (forall c p, t ∉ L1 (runnable c p)) -> same_env s s1 ->
  (forall x, unlisted L x -> x <> t -> data (s1.(tasks) x) = data (s.(tasks) x)) ->
  dispatched s1 L1 cpu t frame r s' L' n -> handover s L cpu (Some t) n s' L' /\ n <> t.
Proof.
  intros Hl Hr0 E1 D1 [(q & l & Hb & HL') C Hu Hv E K R Sl F V]. pose proof (best_listed _ _ _ _ _ Hb) as Hin.
  assert (Hne : n <> t) by (intros ->; by apply (Hr0 _ _ Hin)). split; [|done]. split; try done.
  - etransitivity; [|exact E]. destruct E1 as [Hcs]. split; simpl; try done.
    intros c. destruct (decide (c = cpu)) as [->|]; rewrite ?upd_eq, ?upd_ne by done; [|done].
    destruct (Hcs cpu) as (? & ? & ? & _). done.
  - intros x. rewrite HL' in *. rewrite (popped_listed L1 cpu q n l Hb Hu), Hl. naive_solver.
  - right. intros Hun. by apply (proj2 (Hl n) (conj Hun Hne) _ Hin).
  - intros x Hx H1 H2. rewrite K by (intros [->|?]; done). apply D1; [done|congruence].
Qed.

Lemma handover_unlock s s0 L cpu out n s1 L' :
  idle s -> s0.(eflags) = s.(eflags) -> s0.(scheduler_state_lock) = 0 ->
  handover (locked s0) L cpu out n s1 L' ->
  handover s0 L cpu out n (unlocked s s1) L' /\ s1.(eflags) = cli s.(eflags).
Proof.
  intros Hi He Hl [C E H1 H2 H3 H4 H5].
  destruct (env_unlocked s (with_current s0 cpu n) s1 Hi He Hl E) as [E' Hf].
  split; [|done]. split; try done. by apply core_unlocked.
Qed.

Lemma handover_quiet s L cpu out n s1 s2 L' :
  handover s L cpu out n s1 L' -> quiet s1 s2 -> handover s L cpu out n s2 L'.
Proof.
  intros [C E H1 H2 H3 H4 H5] Hq. split; try done; rewrite ?(qu_tasks _ _ Hq); try done.
  - by eapply core_quiet.
  - etransitivity; [done|apply Hq].
Qed.

(** State the invariant does not look at. *)
Lemma settled_tweak s s' L :
  settled s L -> (forall x, same_place (s.(tasks) x) (s'.(tasks) x)) ->
  s'.(lists) = s.(lists) -> s'.(cpus) = s.(cpus) -> s'.(configured_cpu_count) = s.(configured_cpu_count) ->
  s'.(boot_cpu_id) = s.(boot_cpu_id) -> s'.(this_cpu) = s.(this_cpu) -> idle s' -> settled s' L.
Proof.
  intros [C Hi Ht Hr Ho Ha] Hx Hl Hc Hn Hb Hth Hi'.
  assert (Hci : forall c, cpu_index s' c <-> cpu_index s c) by (intros c; unfold cpu_index; by rewrite Hn).
  split; [by apply (core_tweak s)|done|by rewrite Hth| | |].
  - intros c t Hcc. unfold running_on. rewrite Hc. apply Hci in Hcc. intros Hcur.
    destruct (Hr c t Hcc Hcur) as (_ & Hv & Hun & Hst). destruct (Hx t) as (_ & _ & _ & -> & _). done.
  - intros c1 c2 t H1 H2. rewrite Hc. apply Hci in H1, H2. by apply Ho.
  - intros t Hv Hun. destruct (Ha t Hv Hun) as (c & H1 & H2). exists c. rewrite Hc. split; [by apply Hci|done].
Qed.

Lemma handover_base s0 s L cpu out n s' L' :
  s.(tasks) = s0.(tasks) -> same_env s0 s -> handover s L cpu out n s' L' -> handover s0 L cpu out n s' L'.
Proof.
  intros Ht E [C Ee H1 H2 H3 H4 H5]. rewrite Ht in H5. split; try done.
  etransitivity; [|exact Ee]. destruct E as [Hcs]. split; simpl; try done.
  intros c. destruct (decide (c = cpu)) as [->|]; rewrite ?upd_eq, ?upd_ne by done; [|apply Hcs].
  destruct (Hcs cpu) as (? & ? & ? & _). done.
Qed.
