(* ===== verification/SchedBalance.v ===== *)
(** Choosing processors and moving runnable tasks between them. *)
From S2P Require Import Prelude SchedData Sched SchedApi SchedLists SchedInv SchedMoves SchedSettled.
From Stdlib Require Import ZArith Lia.
From stdpp Require Import sets.
Open Scope Z_scope.

(** ** Choosing a processor *)

Section Select.
Context (cpu_count : Z) (cpu_online : Z -> bool) (cpu_to_node cpu_load : Z -> Z).
Context (affinity preferred local_cpu : Z).

(** Online and in the mask, or merely online when the mask has no such processor. *)
Definition allowed (c : Z) : Prop :=
  0 <= c < cpu_count /\ cpu_online c = true /\
  (Z.testbit affinity c = true \/
   forall d, 0 <= d < cpu_count -> cpu_online d = true -> Z.testbit affinity d = false).

(** On the preferred node, unless none is asked for or none is allowed there. *)
Definition wanted (c : Z) : Prop :=
  allowed c /\ (preferred = SCHEDULER_NUMA_NODE_ANY \/ cpu_to_node c = preferred \/
                forall d, allowed d -> cpu_to_node d <> preferred).

(** Least loaded of those satisfying [P]; ties go to the local processor, then to
    the lowest number. *)
Definition best_of (P : Z -> Prop) (r : Z) : Prop :=
  P r /\ forall d, P d -> cpu_load r <= cpu_load d /\
    (cpu_load d = cpu_load r -> r = local_cpu \/ d <> local_cpu /\ r <= d).

Lemma mask_bits (l : list Z) mask c :
  0 <= c -> (forall d, d ∈ l -> 0 <= d) ->
  Z.testbit (fold_left (fun mask cpu => if cpu_online cpu then Z.lor mask (Z.shiftl 1 cpu) else mask) l mask) c =
  Z.testbit mask c || bool_decide (c ∈ l) && cpu_online c.
Proof.
  intros Hc. revert mask. induction l as [|d l IH]; intros mask Hl; cbn [fold_left].
  { rewrite bool_decide_eq_false_2 by set_solver. by rewrite orb_false_r. }
  rewrite IH by set_solver. assert (0 <= d) by set_solver.
  destruct (decide (c = d)) as [->|Hne].
  - rewrite (bool_decide_eq_true_2 (d ∈ d :: l)) by left. simpl.
    destruct (cpu_online d) eqn:E; [|by rewrite andb_false_r, orb_false_r].
    rewrite Z.lor_spec, Z.shiftl_1_l, Z.pow2_bits_true, orb_true_r by done. done.
  - rewrite (bool_decide_ext (c ∈ d :: l) (c ∈ l)) by set_solver.
    destruct (cpu_online d); [|done]. f_equal. rewrite Z.lor_spec, Z.shiftl_1_l, Z.pow2_bits_eqb by done.
    replace (d =? c) with false by lia. by rewrite orb_false_r.
Qed.

(** One pass of the selection over the processors below [k]. *)
Definition pass_inv (P : Z -> Prop) (k : Z) (best : Z * Z) : Prop :=
  best = (SCHEDULER_INVALID_CPU_ID, UINT_MAX) /\ (forall c, 0 <= c < k -> ~ P c) \/
  exists b, best = (b, cpu_load b) /\ 0 <= b < k /\ best_of (fun c => 0 <= c < k /\ P c) b.

Lemma consider_inv (mask : Z) (enforce : bool) k best (P : Z -> Prop) :
  0 <= k < SCHEDULER_INVALID_CPU_ID ->
  (P k <-> Z.testbit mask k = true /\ (enforce = true -> cpu_to_node k = preferred)) ->
  pass_inv P k best ->
  pass_inv P (k + 1) (consider_cpu cpu_to_node cpu_load mask enforce preferred local_cpu best k).
Proof.
  unfold SCHEDULER_INVALID_CPU_ID. intros Hk HP HI. pose proof (land_pow2_testbit mask k ltac:(lia)) as Hb.
  apply (f_equal negb) in Hb. rewrite negb_involutive in Hb.
  assert (Hdec : {P k} + {~ P k}).
  { destruct (Z.testbit mask k); [|right; rewrite HP; by intros [? _]].
    destruct enforce; [destruct (decide (cpu_to_node k = preferred))|]; [left|right|left]; rewrite HP; naive_solver. }
  unfold consider_cpu. destruct best as [b0 l0]. rewrite Hb.
  destruct Hdec as [Hyes|Hno]; cycle 1.
  { assert (Hsame : pass_inv P (k + 1) (b0, l0)).
    { assert (Hx : forall c, 0 <= c < k + 1 -> P c -> 0 <= c < k) by (intros c Hc Hp; destruct (decide (c = k)); [by subst|lia]).
      destruct HI as [[-> Hn]|(b & E & Hbk & [_ HPb] & Hmin)]; [left|right].
      - split; [done|]. intros c Hc Hp. by apply (Hn c); [apply Hx|].
      - exists b. split; [done|]. split; [lia|]. split; [split; [lia|done]|].
        intros d [Hd Hp]. apply Hmin. split; [by apply Hx|done]. }
    destruct (Z.testbit mask k) eqn:Et; simpl; [|done].
    destruct enforce; simpl; [|naive_solver]. destruct (Z.eqb_spec (cpu_to_node k) preferred); simpl; [naive_solver|done]. }
  apply HP in Hyes as Hyes'. destruct Hyes' as [-> Hen]. simpl.
  replace (enforce && negb (cpu_to_node k =? preferred)) with false
    by (destruct enforce; simpl; [rewrite Hen by done; by rewrite Z.eqb_refl|done]).
  assert (Hu : u8 k = k) by (apply wrap_small; word_lia). rewrite Hu.
  assert (Hfirst : (forall c, 0 <= c < k -> ~ P c) -> pass_inv P (k + 1) (k, cpu_load k)).
  { intros Hn. right. exists k. split; [done|]. split; [lia|]. split; [split; [lia|done]|].
    intros d [Hd Hp]. assert (d = k) as -> by (destruct (decide (d = k)); [done|]; exfalso; apply (Hn d); [lia|done]).
    split; [lia|]. intros _. destruct (decide (k = local_cpu)); [by left|right]. lia. }
  destruct HI as [[E Hn]|(b & E & Hbk & [[_ HPb] Hmin])].
  { injection E as -> ->. replace (255 =? 255) with true by done. simpl. by apply Hfirst. }
  injection E as -> ->. unfold SCHEDULER_INVALID_CPU_ID. replace (b =? 255) with false by lia. simpl.
  assert (Hb' : forall b' , best_of (fun c => 0 <= c < k + 1 /\ P c) b' -> 0 <= b' < k + 1 -> pass_inv P (k + 1) (b', cpu_load b')).
  { intros b' H1 H2. right. exists b'. done. }
  assert (Hold : forall b', 0 <= b' < k + 1 -> P b' -> (forall d, 0 <= d < k -> P d -> cpu_load b' <= cpu_load d /\
      (cpu_load d = cpu_load b' -> b' = local_cpu \/ d <> local_cpu /\ b' <= d)) -> cpu_load b' <= cpu_load k /\
      (cpu_load k = cpu_load b' -> b' = local_cpu \/ k <> local_cpu /\ b' <= k) -> best_of (fun c => 0 <= c < k + 1 /\ P c) b').
  { intros b' Hr Hp Hd Hkk. split; [done|]. intros d [Hdr Hpd]. destruct (decide (d = k)) as [->|]; [done|]. apply Hd; [lia|done]. }
  destruct (Z.ltb_spec (cpu_load k) (cpu_load b)); [|destruct (Z.eqb_spec (cpu_load k) (cpu_load b)) as [Heq|Heq]].
  - apply Hb'; [|lia]. apply Hold; [lia|done| |lia]. intros d Hd Hp. destruct (Hmin d ltac:(done)). lia.
  - destruct ((k =? local_cpu) && negb (b =? local_cpu)) eqn:E1; [|destruct (negb (b =? local_cpu) && (k <? b)) eqn:E2; [lia|]].
    + rewrite <- Heq. apply Hb'; [|lia]. apply Hold; [lia|done| |lia]. intros d Hd Hp. destruct (Hmin d ltac:(done)). lia.
    + apply Hb'; [|lia]. apply Hold; [lia|done| |lia]. intros d Hd Hp. by apply Hmin.
  - apply Hb'; [|lia]. apply Hold; [lia|done| |lia]. intros d Hd Hp. by apply Hmin.
Qed.

Definition select_pass (mask : Z) (enforce : bool) : Z :=
  fst (fold_left (consider_cpu cpu_to_node cpu_load mask enforce preferred local_cpu)
         (seqZ 0 cpu_count) (SCHEDULER_INVALID_CPU_ID, UINT_MAX)).

Lemma select_pass_best mask enforce (P : Z -> Prop) :
  0 <= cpu_count <= SCHEDULER_INVALID_CPU_ID ->
  (forall k, 0 <= k < cpu_count -> P k <-> Z.testbit mask k = true /\ (enforce = true -> cpu_to_node k = preferred)) ->
  let r := select_pass mask enforce in
  r = SCHEDULER_INVALID_CPU_ID /\ (forall c, 0 <= c < cpu_count -> ~ P c) \/
  0 <= r < cpu_count /\ best_of (fun c => 0 <= c < cpu_count /\ P c) r.
Proof.
  intros Hn HP. cbv zeta. assert (HI : pass_inv P cpu_count (fold_left
    (consider_cpu cpu_to_node cpu_load mask enforce preferred local_cpu)
    (seqZ 0 cpu_count) (SCHEDULER_INVALID_CPU_ID, UINT_MAX))).
  { apply (fold_seqZ_inv (pass_inv P)); [lia|left; split; [done|lia]|].
    intros k best Hk. apply consider_inv; [lia|by apply HP]. }
  unfold select_pass. destruct HI as [[-> H]|(b & -> & Hb & H)]; [by left|by right].
Qed.

(** The normalised mask holds the allowed processors. *)
Definition online_mask : Z :=
  fold_left (fun mask cpu => if cpu_online cpu then Z.lor mask (Z.shiftl 1 cpu) else mask) (seqZ 0 cpu_count) 0.

Lemma online_mask_bits c : 0 <= c -> Z.testbit online_mask c = bool_decide (c < cpu_count) && cpu_online c.
Proof.
  intros Hc. unfold online_mask. rewrite mask_bits; [|done|intros d Hd%elem_of_seqZ; lia]. rewrite Z.bits_0. simpl.
  f_equal. apply bool_decide_ext. rewrite elem_of_seqZ. lia.
Qed.

Lemma normalized_bits k :
  0 <= k < cpu_count ->
  Z.testbit (if Z.land affinity online_mask =? 0 then online_mask else Z.land affinity online_mask) k = true <->
  allowed k.
Proof.
  intros Hk. unfold allowed. destruct (Z.eqb_spec (Z.land affinity online_mask) 0) as [E|E].
  - rewrite online_mask_bits, bool_decide_eq_true_2 by lia. simpl. split; [|tauto].
    intros Ho. split; [done|]. split; [done|]. right. intros d Hd Hod.
    apply (f_equal (fun m => Z.testbit m d)) in E. rewrite Z.land_spec, Z.bits_0, online_mask_bits in E by lia.
    rewrite bool_decide_eq_true_2, Hod, andb_true_r in E by lia. done.
  - rewrite Z.land_spec, online_mask_bits, bool_decide_eq_true_2, andb_true_iff by lia. simpl. split; [tauto|].
    intros (_ & Ho & [Ha|Hnone]); [done|]. exfalso. apply E, Z.bits_inj'. intros d Hd.
    rewrite Z.land_spec, online_mask_bits, Z.bits_0 by done.
    case_bool_decide; [|by rewrite andb_false_r]. simpl.
    destruct (cpu_online d) eqn:Hod; [|by rewrite andb_false_r]. by rewrite Hnone by (done || lia).
Qed.

Lemma online_mask_zero : online_mask = 0 <-> forall c, 0 <= c < cpu_count -> cpu_online c = false.
Proof.
  split.
  - intros E c Hc. pose proof (online_mask_bits c ltac:(lia)) as H.
    rewrite E, Z.bits_0, bool_decide_eq_true_2 in H by lia. by simpl in H.
  - intros H. apply Z.bits_inj'. intros c Hc. rewrite online_mask_bits, Z.bits_0 by done.
    case_bool_decide; [|done]. simpl. by rewrite H by lia.
Qed.

(** If a processor is online, one is allowed. *)
Lemma some_allowed : (exists c, 0 <= c < cpu_count /\ cpu_online c = true) -> exists c, allowed c.
Proof.
  intros (c & Hc & Ho). set (both := fun d => cpu_online d && Z.testbit affinity d).
  destruct (Z.eq_dec (count both 0 cpu_count) 0) as [Hz|Hz].
  - exists c. split; [done|]. split; [done|]. right. intros d Hd Hod.
    pose proof (count_zero _ _ _ Hz d Hd) as H. unfold both in H. by rewrite Hod in H.
  - destruct (count_exists both 0 cpu_count) as (d & Hd & Hb); [pose proof (count_range both 0 cpu_count); lia|].
    apply andb_true_iff in Hb as [Hod Hb]. exists d. split; [done|]. split; [done|]. by left.
Qed.

Lemma best_of_ext (P P' : Z -> Prop) r : (forall c, P c <-> P' c) -> best_of P r -> best_of P' r.
Proof. intros H [H1 H2]. split; [by apply H|]. intros d Hd. apply H2. by apply H. Qed.

Lemma select_best_cpu :
  0 <= cpu_count <= SCHEDULER_INVALID_CPU_ID ->
  let r := scheduler_select_best_cpu_from_view cpu_count cpu_online cpu_to_node cpu_load affinity preferred local_cpu in
  (exists c, 0 <= c < cpu_count /\ cpu_online c = true) /\ best_of wanted r \/
  (forall c, 0 <= c < cpu_count -> cpu_online c = false) /\ r = SCHEDULER_INVALID_CPU_ID.
Proof.
  intros Hn. cbv zeta. unfold scheduler_select_best_cpu_from_view. fold online_mask.
  destruct (Z.eqb_spec cpu_count 0) as [->|Hn0]; [right; split; [lia|done]|].
  destruct (Z.eqb_spec online_mask 0) as [E|E]; [right; split; [by apply online_mask_zero|done]|left].
  assert (Hon : exists c, 0 <= c < cpu_count /\ cpu_online c = true).
  { destruct (Z.eq_dec (count cpu_online 0 cpu_count) 0) as [Hz|Hz].
    - exfalso. apply E, online_mask_zero. by apply count_zero.
    - apply count_exists. pose proof (count_range cpu_online 0 cpu_count). lia. }
  split; [done|].
  set (mask := if Z.land affinity online_mask =? 0 then online_mask else Z.land affinity online_mask).
  fold (select_pass mask ((0 =? 0) && negb (preferred =? SCHEDULER_NUMA_NODE_ANY))).
  fold (select_pass mask ((1 =? 0) && negb (preferred =? SCHEDULER_NUMA_NODE_ANY))).
  change ((1 =? 0) && negb (preferred =? SCHEDULER_NUMA_NODE_ANY)) with false.
  change ((0 =? 0) && negb (preferred =? SCHEDULER_NUMA_NODE_ANY)) with (negb (preferred =? SCHEDULER_NUMA_NODE_ANY)).
  set (enf := negb (preferred =? SCHEDULER_NUMA_NODE_ANY)).
  pose proof (some_allowed Hon) as Hall.
  destruct (select_pass_best mask enf (fun c => allowed c /\ (enf = true -> cpu_to_node c = preferred)))
    as [[-> Hnone]|[Hr Hbest]]; [done| | |].
  - intros k Hk. unfold mask. by rewrite normalized_bits.
  - simpl. destruct (select_pass_best mask false allowed) as [[_ Hno]|[_ Hbest]]; [done| | |].
    + intros k Hk. unfold mask. rewrite normalized_bits by done. naive_solver.
    + exfalso. destruct Hall as (c & Hc). apply (Hno c); [apply Hc|done].
    + eapply best_of_ext; [|exact Hbest]. intros c. unfold wanted. cbv beta. split.
      * intros [Hc Ha]. split; [done|]. right. right. intros d Hd Hp. apply (Hnone d); [apply Hd|]. done.
      * intros [Ha _]. split; [apply Ha|done].
  - assert (select_pass mask enf <> SCHEDULER_INVALID_CPU_ID) as Hne by lia.
    apply Z.eqb_neq in Hne. rewrite Hne. simpl. eapply best_of_ext; [|exact Hbest]. intros c. cbv beta. unfold wanted. split.
    + intros [Hc [Ha He]]. split; [done|]. unfold enf in He.
      destruct (Z.eqb_spec preferred SCHEDULER_NUMA_NODE_ANY); [by left|]. right. left. by apply He.
    + intros [Ha Hw]. split; [apply Ha|]. split; [done|]. unfold enf. intros He. z_bools.
      destruct Hw as [?|[?|Hw]]; [done|done|]. exfalso. destruct Hbest as [[_ [Hal Hpr]] _].
      apply (Hw _ Hal). apply Hpr. unfold enf. by apply negb_true_iff, Z.eqb_neq.
Qed.
End Select.

(** The choice of a processor for a task.  If some processor is online, the
    one returned is online, in the affinity mask unless no online processor is, on
    the preferred node unless none is asked for or no allowed processor is there,
    and has the least load of all such processors; ties go to the local processor,
    then to the lowest number.  Otherwise the invalid id is returned. *)
Theorem select_cpu_correct cpu_count cpu_online cpu_to_node cpu_load affinity preferred local_cpu :
  0 <= cpu_count <= SCHEDULER_MAX_CPUS ->
  let r := scheduler_select_best_cpu_from_view cpu_count cpu_online cpu_to_node cpu_load affinity preferred local_cpu in
  (exists c, 0 <= c < cpu_count /\ cpu_online c = true) /\
    best_of cpu_load local_cpu (wanted cpu_count cpu_online cpu_to_node affinity preferred) r \/
  (forall c, 0 <= c < cpu_count -> cpu_online c = false) /\ r = SCHEDULER_INVALID_CPU_ID.
Proof. intros Hn. apply select_best_cpu. unfold SCHEDULER_MAX_CPUS, SCHEDULER_INVALID_CPU_ID in *. lia. Qed.

Lemma select_cpu_correct_witness :
  let r := scheduler_select_best_cpu_from_view 2 (fun _ => true) (fun c => c) (fun c => 5 - c) 3 0 0 in
  (exists c, 0 <= c < 2 /\ true = true) /\
    best_of (fun c => 5 - c) 0 (wanted 2 (fun _ => true) (fun c => c) 3 0) r \/
  (forall c, 0 <= c < 2 -> true = false) /\ r = SCHEDULER_INVALID_CPU_ID.
Proof. apply (select_cpu_correct 2 (fun _ => true) (fun c => c) (fun c => 5 - c) 3 0 0). by vm_compute. Defined.

(** ** Migration *)

(** Runnable tasks changed processors: each stays at its priority, on a
    processor of its mask if it moved, and no other list changes. *)
Record rebalanced (s : sched) (L : list_ref -> list task_ref) (s' : sched) (L' : list_ref -> list task_ref) : Prop := {
  rb_core : core s' L';
  rb_shuffle : shuffle s L s' L';
  rb_static : forall r, (forall c p, r <> runnable c p) -> L' r = L r;
  rb_priority : forall x p, (exists c, x ∈ L (runnable c p)) -> exists c, x ∈ L' (runnable c p);
  rb_place : forall x c p, x ∈ L' (runnable c p) ->
    x ∈ L (runnable c p) \/ Z.testbit (s.(tasks) x).(cpu_affinity_mask) c = true /\ (s.(cpus) c).(online) = true;
  rb_rest : forall x, unplaced (s'.(tasks) x) = unplaced (s.(tasks) x)
}.

Lemma rebalanced_refl s L : core s L -> rebalanced s L s L.
Proof. intros C. split; try done. intros; by left. Qed.

Lemma rebalanced_trans s1 L1 s2 L2 s3 L3 :
  rebalanced s1 L1 s2 L2 -> rebalanced s2 L2 s3 L3 -> rebalanced s1 L1 s3 L3.
Proof.
  intros [C1 F1 S1 P1 A1 M1] [C2 F2 S2 P2 A2 M2]. split; try done.
  - by eapply shuffle_trans.
  - intros r Hr. rewrite S2, S1; done.
  - intros x p Hx. by apply P2, P1.
  - intros x c p Hx. destruct (A2 x c p Hx) as [Hx'|[H1 H2]]; [by apply A1|]. right.
    destruct (unplaced_fields _ _ (M1 x)) as [Hm _]. rewrite Hm in H1.
    destruct (se_cpus _ _ (sf_env _ _ _ _ F1) c) as (_ & _ & E & _). by rewrite E in H2.
  - intros x. by rewrite M2, M1.
Qed.

Lemma rebalanced_quiet s L s1 s2 L' : rebalanced s L s1 L' -> quiet s1 s2 -> rebalanced s L s2 L'.
Proof.
  intros [C1 F1 S1 P1 A1 M1] Hq. split; try done; [by eapply core_quiet|by eapply shuffle_quiet|].
  intros x. rewrite (qu_tasks _ _ Hq). auto.
Qed.

Lemma rebalanced_quiet_l s L s0 s1 L' : quiet s s0 -> rebalanced s0 L s1 L' -> rebalanced s L s1 L'.
Proof.
  intros [Ht Hl Hc E] [C1 [F1 F2 F3] S1 P1 A1 M1]. rewrite Ht, Hc in *. split; try done.
  split; [by etransitivity|done|]. intros x Hx. by rewrite F3.
Qed.

(** One task moves from queue [(src, p)] to queue [(dst, p)]. *)
Lemma moved_rebalanced s L src dst p l1 t l2 s' L' :
  L (runnable src p) = l1 ++ t :: l2 -> core s' L' -> same_env s s' -> keeps (eq t) s s' ->
  L' = moved L (runnable src p) l1 l2 (runnable dst p) t ->
  unplaced (s'.(tasks) t) = unplaced (s.(tasks) t) ->
  Z.testbit (s.(tasks) t).(cpu_affinity_mask) dst = true -> (s.(cpus) dst).(online) = true ->
  rebalanced s L s' L'.
Proof.
  intros HL C' E K -> Hm Hb Hon. split; try done.
  - split; [done|intros x; by apply moved_listed|]. intros x Hx. apply K. intros <-.
    apply (Hx (runnable src p)). rewrite HL. set_solver.
  - intros r Hr. unfold moved. rewrite !upd_ne; [done|intros Eq; by eapply Hr..].
  - intros x q [c Hx]. unfold moved. destruct (decide (x = t)) as [->|Hne].
    + destruct (decide (q = p)) as [->|Hq]; [exists dst; rewrite upd_eq; set_solver|].
      exists c. rewrite !upd_ne by congruence. done.
    + exists c. destruct (decide (runnable c q = runnable dst p)) as [Eq|Nq]; [rewrite <- Eq, upd_eq; apply elem_of_app; left|rewrite upd_ne by done].
      all: destruct (decide (runnable c q = runnable src p)) as [Eq'|Nq']; [rewrite Eq', upd_eq; rewrite Eq', HL in Hx; set_solver|by rewrite upd_ne].
  - intros x c q [Hx|[Eq ->]]%upd_push_elem; [left; by eapply upd_remove_elem|]. injection Eq as -> ->. by right.
  - intros x. destruct (decide (x = t)) as [->|]; [done|].
    apply unplaced_data, K. congruence.
Qed.

Lemma migrate_spec s L src dst p l1 t l2 notify (Q : bool -> sched -> Prop) :
  core s L -> cpu_index s src -> cpu_index s dst -> L (runnable src p) = l1 ++ t :: l2 ->
  Q false s ->
  (forall s' L', rebalanced s L s' L' -> L' = moved L (runnable src p) l1 l2 (runnable dst p) t -> Q true s') ->
  wp (scheduler_migrate_runnable_task src dst t notify) Q s.
Proof.
  intros C Hsrc Hdst HL Hno Hyes. assert (Hin : t ∈ L (runnable src p)) by (rewrite HL; set_solver).
  destruct (core_state _ _ C _ _ Hin) as (Hst & Ha & Hp & _ & Hpr & Hon).
  unfold scheduler_migrate_runnable_task. do 2 wp_step. unfold id. do 5 (wp_step; [by wp_step|]).
  assert (Hsp : scheduler_priority_sanitize p = p).
  { unfold scheduler_priority_sanitize, SCHEDULER_PRIORITY_COUNT in *. replace (5 <=? p) with false by lia. done. }
  rewrite Hp, Hsp.
  assert (Hbit : Z.testbit (s.(tasks) t).(cpu_affinity_mask) dst = true).
  { rewrite <- land_pow2_testbit by (unfold cpu_index in *; lia). rewrite (core_id _ _ C) in E3 by done. by rewrite E3. }
  z_bools. destruct (remove_runnable_run s L src p t l1 l2 C Hsrc Hpr HL) as (s1 & s2 & R1 & R2 & C2 & Hun2 & E2' & D2).
  wp_step. eapply Done_wp; [exact R1|]. wp_step. eapply Done_wp; [exact R2|].
  destruct (data_fields _ _ (D2 t)) as (_ & Hp2 & _). wp_step.
  assert (Hpost : forall s3 L3, enqueue_post s2 (upd L (runnable src p) (l1 ++ l2)) dst t s3 L3 ->
    wp (scheduler_trace_counter_inc task_migrations ;;; ret true) Q s3).
  { intros s3 L3 [HL3 C3 E3' K3 D3]. wp_step. apply counter_inc_quiet. intros s4 Hq. wp_step.
    simpl in HL3. rewrite Hp2, Hp, Hsp in HL3. apply (Hyes s4 L3); [|exact HL3].
    eapply rebalanced_quiet; [|exact Hq]. eapply moved_rebalanced; [done|done| | |exact HL3| |done|done].
    - by etransitivity.
    - intros x Hx. rewrite K3 by done. apply D2.
    - rewrite (unplaced_data _ _ D3), unplaced_enqueued. apply unplaced_data, D2. }
  assert (cpu_index s2 dst) by (unfold cpu_index; by rewrite (se_count _ _ E2')).
  assert (online (s2.(cpus) dst) = true) by (by destruct (se_cpus _ _ E2' dst) as (_ & _ & -> & _)).
  pose proof (listed_valid _ _ _ _ _ _ C HL).
  destruct notify; [by eapply enqueue_spec|by eapply enqueue_local_spec].
Qed.

(** ** The balancer *)

Lemma balance_once_spec s L online_v node_v load_v notify (Q : bool * (Z -> Z) -> sched -> Prop) :
  core s L ->
  Q (false, load_v) s ->
  (forall load' s' L', rebalanced s L s' L' -> Q (true, load') s') ->
  wp (scheduler_balance_once_from_view 0 s.(configured_cpu_count) online_v node_v load_v notify) Q s.
Proof.
  intros C Hno Hyes. unfold scheduler_balance_once_from_view. pose proof (core_cfg _ _ C) as Hcfg.
  wp_step; [by wp_step|]. wp_step.
  apply (wp_for _ _ _ (fun _ s' => s' = s)); [lia|done| |intros s' ->; by wp_step].
  intros src s' Hsrc ->. rewrite Z.add_0_l. do 3 wp_step; [by wp_step|].
  apply (wp_for _ _ _ (fun _ s' => s' = s)); [by vm_compute|done| |by intros s' ->].
  intros j s' Hj ->. unfold get_list at 1. do 3 wp_step.
  rewrite (list_head s L) by done. set (q := runnable src (SCHEDULER_PRIORITY_COUNT - j - 1)).
  apply (walk_rule _ _ (fun rest _ s' => s' = s /\ exists seen, L q = seen ++ rest)).
  - intros t rest _ s' [-> [seen HL]]. by eapply next_of; [apply C|].
  - intros t rest _ s' [-> [seen HL]] _. unfold get_task. do 4 wp_step.
    assert (Hstay : forall (e : Z -> Z), s = s /\ exists seen0, L q = seen0 ++ rest)
      by (intros _; split; [done|]; exists (seen ++ [t]); by rewrite <- app_assoc).
    set (target := scheduler_select_best_cpu_from_view _ _ _ _ _ _ _).
    wp_step; [wp_step; by apply Hstay|]. wp_step; [wp_step; by apply Hstay|].
    do 3 wp_step; [wp_step; by apply Hstay|]. rewrite Z.add_0_l.
    assert (Htarget : cpu_index s target).
    { apply orb_false_iff in E1 as [E1 _]. z_bools. unfold cpu_index.
      destruct (select_best_cpu s.(configured_cpu_count) online_v node_v load_v (cpu_affinity_mask (tasks s t))
        (preferred_numa_node (tasks s t)) (c_id (cpus s src))) as [[_ [[Ha _] _]]|[_ Hinv]].
      - unfold SCHEDULER_MAX_CPUS, SCHEDULER_INVALID_CPU_ID in *. lia.
      - apply Ha.
      - fold target in Hinv. done. }
    wp_step. eapply (migrate_spec s L src target); [done|done|done|exact HL| |].
    + simpl. wp_step. by apply Hstay.
    + intros s1 L1 Hr _. simpl. wp_step. wp_step. wp_step. by eapply Hyes.
  - intros _ s' [-> _]. by wp_step.
  - done.
  - split; [done|]. by exists [].
  - apply (walk_fuel_enough s). apply C.
Qed.

Lemma balance_periodic_spec s L (Q : unit -> sched -> Prop) :
  core s L -> (forall s' L', rebalanced s L s' L' -> Q tt s') -> wp scheduler_balance_periodic Q s.
Proof.
  intros C HQ. unfold scheduler_balance_periodic. wp_step. apply counter_inc_quiet. intros s0 H0.
  pose proof (core_quiet _ _ _ H0 C) as C0. unfold cpu_view. do 5 wp_step. cbv iota. do 2 wp_step.
  apply (wp_for_acc _ _ _ _ (fun _ _ s' => exists L', rebalanced s L s' L')).
  - by vm_compute.
  - exists L. eapply rebalanced_quiet; [by apply rebalanced_refl|done].
  - intros i load s1 _ [L1 Hr]. wp_step.
    assert (configured_cpu_count s0 = configured_cpu_count s1) as ->.
    { rewrite (se_count _ _ (qu_env _ _ H0)). by rewrite (se_count _ _ (sf_env _ _ _ _ (rb_shuffle _ _ _ _ Hr))). }
    eapply balance_once_spec; [apply Hr| |].
    + simpl. wp_step. wp_step. by eapply HQ.
    + intros load' s2 L2 Hr2. simpl. wp_step. apply counter_inc_quiet. intros s3 H3. wp_step.
      exists L2. eapply rebalanced_quiet; [|done]. by eapply rebalanced_trans.
  - intros load s1 [L1 Hr]. wp_step. by eapply HQ.
Qed.

Lemma should_balance_spec s (Q : bool -> sched -> Prop) :
  (forall b s', quiet s s' -> Q b s') -> wp scheduler_should_balance_now Q s.
Proof.
  intros HQ. unfold scheduler_should_balance_now. do 3 wp_step; [wp_step; by apply HQ|].
  wp_step; [wp_step; by apply HQ|]. do 3 wp_step. apply HQ. by repeat split.
Qed.
