(* ===== verification/SchedBoot.v ===== *)
(** From the zeroed variables to a running scheduler: initialisation, topology,
    the bootstrap task and the creation of tasks. *)
From S2P Require Import Prelude SchedData Sched SchedApi SchedLists SchedInv SchedMoves SchedSettled SchedBalance.
From Stdlib Require Import ZArith Lia.
From stdpp Require Import sets.
Open Scope Z_scope.

(** ** Lists that are initialised again *)

Lemma list_rep_local s s' r l :
  s'.(lists) r = s.(lists) r -> s'.(tasks) = s.(tasks) -> list_rep s r l -> list_rep s' r l.
Proof. intros E1 E2 []. split; rewrite ?E1, ?E2; done. Qed.

Lemma list_init_rep s L r : L r = [] -> rep s L -> rep (set_lists (upd s.(lists) r (mk_list None None 0)) s) L.
Proof.
  intros HL [Hl Hnd Hd Hv]. split; try done. intros r'. destruct (decide (r' = r)) as [->|Hne].
  - rewrite HL. split; simpl; rewrite ?upd_eq; try done. by intros t ?%elem_of_nil.
  - apply (list_rep_local s); [simpl; by rewrite upd_ne|done|apply Hl].
Qed.

Lemma list_init_spec s L r (Q : unit -> sched -> Prop) :
  L r = [] -> rep s L ->
  (forall s', rep s' L -> quiet (set_lists s'.(lists) s) s' -> Q tt s') -> wp (task_list_init r) Q s.
Proof.
  intros HL R HQ. unfold task_list_init, upd_list. wp_step. apply HQ; [by apply list_init_rep|done].
Qed.

(** Agreement up to the contents of the list descriptors. *)
Definition same_but_lists (s s' : sched) : Prop := quiet (set_lists s'.(lists) s) s'.

(** ** The topology *)

(** What [scheduler_configure_topology] accepts. *)
Record topology_ok (config : scheduler_topology_config) : Prop := {
  tk_cpus : 1 <= config.(cfg_cpu_count) <= SCHEDULER_MAX_CPUS;
  tk_nodes : 1 <= config.(cfg_node_count) <= SCHEDULER_MAX_NUMA_NODES;
  tk_boot : 0 <= config.(cfg_boot_cpu_id) < config.(cfg_cpu_count);
  tk_map : forall i, 0 <= i < config.(cfg_cpu_count) -> config.(cpu_to_node) i < config.(cfg_node_count);
  tk_boot_on : config.(cpu_online) config.(cfg_boot_cpu_id) = true
}.

Lemma count_online_spec config :
  1 <= config.(cfg_cpu_count) ->
  (forall i, 0 <= i < config.(cfg_cpu_count) -> config.(cpu_to_node) i < config.(cfg_node_count)) ->
  count_online config = Some (count config.(cpu_online) 0 config.(cfg_cpu_count)).
Proof.
  intros Hn Hm. unfold count_online.
  apply (fold_seqZ_inv (fun k acc => acc = Some (count config.(cpu_online) 0 k))); [lia|done|].
  intros k acc Hk ->. simpl. specialize (Hm k Hk). replace (cfg_node_count config <=? cpu_to_node config k) with false by lia.
  rewrite count_snoc by lia. f_equal. destruct (cpu_online config k); lia.
Qed.

Lemma has_live_spec s (Q : bool -> sched -> Prop) :
  (forall i, valid_task i -> (s.(tasks) i).(t_state) = TASK_UNUSED) -> Q false s -> wp scheduler_has_live_tasks Q s.
Proof.
  intros H HQ. unfold scheduler_has_live_tasks. wp_step.
  apply (wp_for _ _ _ (fun _ s' => s' = s)); [by vm_compute|done| |intros s' ->; by wp_step].
  intros i s' Hi ->. unfold get_task. do 3 wp_step. by rewrite H, decide_True by done.
Qed.

(** The descriptor that the configuration gives processor [i]. *)
Definition configured_cpu (config : scheduler_topology_config) (i : Z) : scheduler_cpu_state :=
  let inside := i <? config.(cfg_cpu_count) in
  mk_cpu (u8 i) (if inside then config.(cpu_to_node) i else 0) (if inside then config.(cpu_online) i else false) 0 None.

Definition no_queues (L : list_ref -> list task_ref) : Prop := forall c p, L (runnable c p) = [].

(** What stays when the processors are set up. *)
Record setup (s s' : sched) : Prop := {
  su_tasks : s'.(tasks) = s.(tasks);
  su_count : s'.(configured_cpu_count) = s.(configured_cpu_count);
  su_nodes : s'.(configured_node_count) = s.(configured_node_count);
  su_boot : s'.(boot_cpu_id) = s.(boot_cpu_id);
  su_lock : s'.(scheduler_state_lock) = s.(scheduler_state_lock);
  su_this : s'.(this_cpu) = s.(this_cpu);
  su_eflags : s'.(eflags) = s.(eflags);
  su_bootstrapped : s'.(scheduler_bootstrapped) = s.(scheduler_bootstrapped);
  su_next : s'.(next_task_id) = s.(next_task_id);
  su_ticks : s'.(system_ticks) = s.(system_ticks)
}.

#[export] Instance setup_preorder : PreOrder setup.
Proof. split; [by intros s; split|]. intros s1 s2 s3 [] []. split; congruence. Qed.

Lemma cpu_state_init_spec s L i id node on (Q : unit -> sched -> Prop) :
  rep s L -> no_queues L ->
  (forall s', rep s' L -> setup s s' -> s'.(cpus) = upd s.(cpus) i (mk_cpu id node on 0 None) -> Q tt s') ->
  wp (scheduler_cpu_state_init i id node on) Q s.
Proof.
  intros R HL HQ. unfold scheduler_cpu_state_init, upd_cpu. do 2 wp_step. set (s0 := set_cpus _ s).
  assert (rep s0 L) by (destruct R as [Hl ? ? ?]; split; try done; intros r; by apply (list_rep_local s)).
  apply (wp_for_each _ _ _ (fun _ s' => rep s' L /\ setup s0 s' /\ s'.(cpus) = s0.(cpus))); [by vm_compute|done| |].
  - intros p s1 _ (R1 & S1 & C1). apply (list_init_spec s1 L); [apply HL|done|]. intros s2 R2 Hq.
    destruct Hq as [Q1 Q2 Q3 []]. simpl in *. split; [done|]. split; [|by rewrite Q3].
    etransitivity; [exact S1|]. by split.
  - intros s1 (R1 & S1 & C1). apply HQ; [done|by destruct S1; split|done].
Qed.

(** The scheduler once the topology is set: no processor runs a task yet. *)
Definition fresh_cpus (config : scheduler_topology_config) (s : sched) : Prop :=
  s.(configured_cpu_count) = config.(cfg_cpu_count) /\ s.(configured_node_count) = config.(cfg_node_count) /\
  s.(boot_cpu_id) = config.(cfg_boot_cpu_id) /\
  forall i, 0 <= i < SCHEDULER_MAX_CPUS -> s.(cpus) i = configured_cpu config i.

Lemma fresh_core config s L :
  topology_ok config -> fresh_cpus config s -> rep s L -> no_queues L -> L local_list = [] ->
  (forall r t, t ∈ L r -> in_state s r (s.(tasks) t)) -> (forall t, unsigned_fields (s.(tasks) t)) -> core s L.
Proof.
  intros [Hc Hn Hb Hm Hon] (E1 & E2 & E3 & Hcpu) R HL Hloc Hst Hu.
  assert (Hcc : forall c, 0 <= c < s.(configured_cpu_count) -> s.(cpus) c = mk_cpu c (config.(cpu_to_node) c) (config.(cpu_online) c) 0 None).
  { intros c Hcr. rewrite E1 in Hcr. rewrite Hcpu by lia. unfold configured_cpu.
    replace (c <? cfg_cpu_count config) with true by lia. unfold SCHEDULER_MAX_CPUS in *. f_equal.
    apply wrap_small. word_lia. }
  split; try done.
  - by rewrite E1.
  - by rewrite E1, E3.
  - rewrite E3, Hcc by lia. done.
  - intros c Hcr. by rewrite Hcc.
  - intros c Hcr. rewrite Hcc by done. simpl. unfold queue_length. simpl. by rewrite !HL.
Qed.

Lemma configure_accepts s L config (Q : bool -> sched -> Prop) :
  idle s -> s.(scheduler_bootstrapped) = false -> rep s L -> no_queues L ->
  (forall i, valid_task i -> (s.(tasks) i).(t_state) = TASK_UNUSED) ->
  topology_ok config ->
  (forall s', rep s' L -> fresh_cpus config s' -> s'.(tasks) = s.(tasks) -> idle s' ->
     s'.(this_cpu) = s.(this_cpu) -> s'.(scheduler_bootstrapped) = false -> s'.(next_task_id) = s.(next_task_id) ->
     Q true s') ->
  wp (scheduler_configure_topology config) Q s.
Proof.
  intros Hi Hbs R HL Hun [Hc Hn Hb Hm Hon] HQ. unfold scheduler_configure_topology. apply wp_sched_locked; [done|].
  do 2 wp_step. simpl. rewrite Hbs. wp_step. apply has_live_spec; [done|]. simpl.
  unfold SCHEDULER_MAX_CPUS, SCHEDULER_MAX_NUMA_NODES in *.
  do 3 (wp_step; [exfalso; lia|]). rewrite count_online_spec by (done || lia).
  pose proof (count_pos config.(cpu_online) 0 _ _ Hb Hon). wp_step.
  { exfalso. rewrite Hon in E2. simpl in E2. lia. }
  do 7 wp_step. set (s0 := set_boot_cpu_id _ _).
  assert (R0 : rep s0 L) by (destruct R as [Hl ? ? ?]; split; try done; intros r; by apply (list_rep_local s)).
  apply (wp_for_each _ _ _ (fun k s' => rep s' L /\ setup s0 s' /\ forall i, 0 <= i < k -> s'.(cpus) i = configured_cpu config i)).
  - by vm_compute.
  - split; [done|]. split; [done|]. intros; lia.
  - intros k s1 Hk (R1 & S1 & C1). apply (cpu_state_init_spec s1 L); [done|done|].
    intros s2 R2 S2 C2. split; [done|]. split; [by etransitivity|]. intros i Hik. rewrite C2.
    destruct (decide (i = k)) as [->|]; rewrite ?upd_eq, ?upd_ne by done; [done|]. apply C1. lia.
  - intros s1 (R1 & S1 & C1). wp_step. apply emit_quiet. intros s2 Hq. wp_step.
    destruct (qu_env _ _ Hq), S1. simpl in *. split; [congruence|].
    replace (pmm_accepts (cfg_node_count config)) with true by (unfold pmm_accepts; lia).
    assert (Ht : s2.(tasks) = s.(tasks)) by (rewrite (qu_tasks _ _ Hq); done).
    apply HQ; simpl; try congruence; try done.
    + assert (R2 : rep s2 L).
      { destruct R1 as [Hl ? ? ?]; split; try done; intros r; apply (list_rep_local s1); [|apply Hq|done]. by rewrite (qu_lists _ _ Hq). }
      destruct R2 as [Hl ? ? ?]; split; try done; intros r; by apply (list_rep_local s2).
    + unfold fresh_cpus. simpl. rewrite (qu_cpus _ _ Hq). split; [congruence|]. split; [congruence|]. split; [congruence|done].
    + split; [done|apply Hi].
Qed.

(** ** Initialisation *)

(** The variables in .bss. *)
Record cold (s : sched) : Prop := {
  cd_rep : rep s (fun _ => []);
  cd_unsigned : forall t, unsigned_fields (s.(tasks) t);
  cd_eflags : fits 32 s.(eflags);
  cd_this : 0 <= s.(this_cpu)
}.

Lemma cold_sched_cold : cold cold_sched.
Proof.
  split; [exact cold_rep|by vm_compute..].
Qed.

(** All the slots below [i] are on the free list. *)
Definition free_only (i : Z) : list_ref -> list task_ref := upd (fun _ => []) free_list (seqZ 0 i).

Lemma free_only_in i r t : t ∈ free_only i r -> r = free_list /\ 0 <= t < i.
Proof.
  unfold free_only. destruct (decide (r = free_list)) as [->|]; rewrite ?upd_eq, ?upd_ne by done.
  - intros H%elem_of_seqZ. split; [done|lia].
  - by intros ?%elem_of_nil.
Qed.

Lemma rep_ext s L L' : (forall r, L r = L' r) -> rep s L -> rep s L'.
Proof.
  intros E [H1 H2 H3 H4]. split.
  - intros r. rewrite <- E. apply H1.
  - intros r. rewrite <- E. apply H2.
  - intros r1 r2 t. rewrite <- !E. apply H3.
  - intros r t. rewrite <- E. apply H4.
Qed.

Lemma free_only_snoc i r :
  0 <= i -> upd (free_only i) free_list (free_only i free_list ++ [i]) r = free_only (i + 1) r.
Proof.
  intros Hi. unfold free_only.
  destruct (decide (r = free_list)) as [->|]; rewrite ?upd_eq, ?upd_ne by done; [|done].
  rewrite seqZ_app by lia. by rewrite Z.add_0_l.
Qed.

(** A slot after [task_reset]. *)
Definition reset_task (boot : Z) : task :=
  mk_task 0 None TASK_UNUSED SCHEDULER_PRIORITY_NORMAL SCHEDULER_CPU_MASK_ALL
    SCHEDULER_NUMA_NODE_ANY boot 0 None None 0 0 0 None 0 None None false 0 None None TASK_LIST_NONE.

(** Freeing slot [i] while the slots below it are free. *)
Lemma init_slot s i (Q : unit -> sched -> Prop) :
  rep s (free_only i) -> 0 <= i < SCHEDULER_MAX_THREADS -> 
  (forall t, 0 <= t < i -> (s.(tasks) t).(t_state) = TASK_UNUSED) ->
  (forall t, unsigned_fields (s.(tasks) t)) -> 0 <= s.(boot_cpu_id) ->
  (forall s', rep s' (free_only (i + 1)) -> (forall t, 0 <= t < i + 1 -> (s'.(tasks) t).(t_state) = TASK_UNUSED) ->
     (forall t, unsigned_fields (s'.(tasks) t)) -> same_env s s' -> Q tt s') ->
  wp (task_reset i ;;; task_list_push_back free_list i TASK_LIST_FREE) Q s.
Proof.
  intros R Hi Hst Hu Hb HQ. unfold task_reset, upd_task. do 4 wp_step.
  set (s1 := set_tasks _ s). assert (Hun : unlisted (free_only i) i) by (intros r [_ ?]%free_only_in; lia).
  assert (T1 : s1.(tasks) i = reset_task s.(boot_cpu_id)) by (simpl; by rewrite upd_eq).
  assert (O1 : forall x, x <> i -> s1.(tasks) x = s.(tasks) x) by (intros x Hx; simpl; by rewrite upd_ne).
  assert (R1 : rep s1 (free_only i)) by (by eapply rep_unlisted).
  assert (E1 : same_env s s1) by (by repeat split). clearbody s1.
  destruct (push_back_spec s1 (free_only i) free_list i R1 Hun Hi) as (s2 & Hrun & R2 & Hrl & _).
  eapply Done_wp; [exact Hrun|]. apply (rep_ext _ _ (free_only (i + 1))) in R2; [|intros r; apply free_only_snoc; lia].
  assert (Hx : forall x, x <> i -> data (s2.(tasks) x) = data (s.(tasks) x))
    by (intros x Hx; rewrite (rl_data _ _ Hrl), O1; done).
  destruct (data_fields _ _ (rl_data _ _ Hrl i)) as (Hi1 & Hi2 & Hi3 & _). rewrite T1 in *.
  apply HQ; [done| | |by etransitivity; [|apply relinked_env]].
  - intros t Ht. destruct (decide (t = i)) as [->|Hne]; [done|].
    destruct (data_fields _ _ (Hx t Hne)) as (-> & _). apply Hst. lia.
  - intros t. unfold unsigned_fields. destruct (decide (t = i)) as [->|Hne]; [rewrite Hi2, Hi3; by split|].
    destruct (data_fields _ _ (Hx t Hne)) as (_ & -> & -> & _). apply Hu.
Qed.

Lemma rep_same s s' L : s'.(lists) = s.(lists) -> s'.(tasks) = s.(tasks) -> rep s L -> rep s' L.
Proof. intros E1 E2 [Hl ? ? ?]. split; try done. intros r. apply (list_rep_local s); [by rewrite E1|done|apply Hl]. Qed.

(** [scheduler_init] up to the loop that frees the slots. *)
Lemma init_prefix s K (Q : unit -> sched -> Prop) :
  cold s ->
  (forall s', rep s' (fun _ => []) -> s'.(tasks) = s.(tasks) -> s'.(this_cpu) = s.(this_cpu) ->
     s'.(eflags) = s.(eflags) -> s'.(boot_cpu_id) = 0 -> s'.(scheduler_state_lock) = 0 ->
     s'.(scheduler_bootstrapped) = false -> s'.(next_task_id) = 1 -> wp K Q s') ->
  wp (task_list_init free_list ;;; task_list_init sleeping_list ;;; task_list_init blocked_list ;;;
      task_list_init zombie_list ;;; modify (set_scheduler_bootstrapped false) ;;; modify (set_system_ticks 0) ;;;
      modify (set_next_task_id 1) ;;; modify (set_last_balance_tick 0) ;;; modify (set_configured_cpu_count 0) ;;;
      modify (set_configured_node_count 0) ;;; modify (set_boot_cpu_id 0) ;;; modify (set_scheduler_state_lock 0) ;;;
      scheduler_trace_reset_locked ;;; K) Q s.
Proof.
  intros [R _ _ _] HK.
  assert (Hinit : forall r s0 (K' : M sched unit), rep s0 (fun _ => []) -> s0.(tasks) = s.(tasks) ->
    s0.(this_cpu) = s.(this_cpu) -> s0.(eflags) = s.(eflags) ->
    (forall s', rep s' (fun _ => []) -> s'.(tasks) = s.(tasks) -> s'.(this_cpu) = s.(this_cpu) ->
       s'.(eflags) = s.(eflags) -> wp K' Q s') -> wp (task_list_init r ;;; K') Q s0).
  { intros r s0 K' R0 T0 H0 F0 HK'. wp_step. apply (list_init_spec s0 (fun _ => [])); [done|done|].
    intros s1 R1 [Q1 Q2 Q3 Q4]. apply HK'; [done|by rewrite Q1| |].
    - rewrite (se_this _ _ Q4). done.
    - rewrite (se_eflags _ _ Q4). done. }
  apply Hinit; try done. intros s1 R1 T1 H1 F1. apply Hinit; try done. intros s2 R2 T2 H2 F2.
  apply Hinit; try done. intros s3 R3 T3 H3 F3. apply Hinit; try done. intros s4 R4 T4 H4 F4.
  unfold scheduler_trace_reset_locked, scheduler_trace_latency_reset_metric. do 24 wp_step.
  apply HK; try done. by apply (rep_same s4).
Qed.

Lemma topology_default_ok : topology_ok scheduler_topology_default.
Proof. split; simpl; unfold SCHEDULER_MAX_CPUS, SCHEDULER_MAX_NUMA_NODES; (lia || done). Qed.

Lemma init_spec s (Q : unit -> sched -> Prop) :
  cold s ->
  (forall s', settled s' (free_only SCHEDULER_MAX_THREADS) -> fresh_cpus scheduler_topology_default s' ->
     s'.(scheduler_bootstrapped) = false -> s'.(next_task_id) = 1 -> s'.(this_cpu) = s.(this_cpu) -> Q tt s') ->
  wp scheduler_init Q s.
Proof.
  intros Hcold HQ. pose proof Hcold as [_ Hu He Ht]. unfold scheduler_init. apply init_prefix; [done|].
  intros s0 R0 T0 H0 F0 B0 L0 Bs0 N0. wp_step.
  apply (wp_for_each _ _ _ (fun i s' => rep s' (free_only i) /\ same_env s0 s' /\
    (forall t, unsigned_fields (s'.(tasks) t)) /\ forall t, 0 <= t < i -> (s'.(tasks) t).(t_state) = TASK_UNUSED)).
  - by vm_compute.
  - split; [|split; [done|split; [by rewrite T0|intros; lia]]]. eapply rep_ext; [|exact R0].
    intros r. unfold free_only. destruct (decide (r = free_list)) as [->|]; by rewrite ?upd_eq, ?upd_ne.
  - intros i s1 Hi (R1 & E1 & U1 & St1). apply (init_slot s1 i); try done; [by rewrite (se_boot _ _ E1), B0|].
    intros s2 R2 St2 U2 E2. split; [done|]. split; [by etransitivity|done].
  - intros s1 (R1 & E1 & U1 & St1). wp_step.
    assert (HL : no_queues (free_only SCHEDULER_MAX_THREADS)) by done.
    apply (configure_accepts s1 (free_only SCHEDULER_MAX_THREADS)); try done.
    + split; [by rewrite (se_lock _ _ E1)|by rewrite (se_eflags _ _ E1), F0].
    + by rewrite (se_bootstrapped _ _ E1).
    + intros s2 R2 Hf T2 I2 H2 B2 N2. simpl. apply emit_quiet. intros s3 Hq.
      assert (C2 : core s2 (free_only SCHEDULER_MAX_THREADS)).
      { apply (fresh_core scheduler_topology_default); try done; [|by rewrite T2].
        intros r t [-> Hr]%free_only_in. simpl. rewrite T2. by apply St1. }
      assert (Hcur : forall c, cpu_index s2 c -> current (s2.(cpus) c) = None).
      { intros c Hc. destruct Hf as (Ec & _ & _ & Hf). unfold cpu_index in Hc. rewrite Ec in Hc. simpl in Hc.
        by rewrite Hf by (unfold SCHEDULER_MAX_CPUS; lia). }
      assert (S2 : settled s2 (free_only SCHEDULER_MAX_THREADS)).
      { split; try done.
        - rewrite H2, (se_this _ _ E1), H0. done.
        - intros c t Hc Hx. by rewrite Hcur in Hx.
        - intros c1 c2 t Hc _ Hx. by rewrite Hcur in Hx.
        - intros t Hv Hun. exfalso. apply (Hun free_list). unfold free_only. rewrite upd_eq. apply elem_of_seqZ.
          unfold valid_task in Hv. lia. }
      rewrite (se_next _ _ E1) in N2. rewrite (se_this _ _ E1) in H2.
      destruct (qu_env _ _ Hq). apply HQ; try congruence.
      * eapply shuffle_settled; [exact S2|by eapply core_quiet|]. eapply shuffle_quiet; [|exact Hq]. by apply shuffle_refl.
      * destruct Hf as (Ha & Hb & Hc & Hd). unfold fresh_cpus. rewrite (qu_cpus _ _ Hq). split; [congruence|]. split; [congruence|]. split; [congruence|done].
Qed.

(** ** Slots *)

Lemma allocate_slot_spec s L (Q : option task_ref -> sched -> Prop) :
  core s L ->
  (L free_list = [] -> Q None s) ->
  (forall t l s', L free_list = t :: l -> core s' (upd L free_list l) -> unlisted (upd L free_list l) t ->
     valid_task t -> same_env s s' -> keeps (eq t) s s' -> data (s'.(tasks) t) = data (reset_task s.(boot_cpu_id)) ->
     Q (Some t) s') ->
  wp scheduler_allocate_task_slot Q s.
Proof.
  intros C Hno Hyes. unfold scheduler_allocate_task_slot, task_list_pop_front, get_list. do 3 wp_step.
  rewrite (list_head s L) by done. destruct (L free_list) as [|t l] eqn:HL; simpl; [by do 2 wp_step; apply Hno|].
  wp_step. apply (remove_core s L free_list t [] l); [done|done|done|]. intros s1 C1 Hun Hrl. wp_step. cbv iota. wp_step.
  destruct (relinked_env _ _ Hrl) as [E1 _]. unfold task_reset. do 2 wp_step.
  apply (upd_unlisted s1 (upd L free_list l)); [done|done| |].
  { split; [done|]. apply (core_boot _ _ C1). }
  intros s2 C2 E2 T2 O2. wp_step. apply (Hyes t l); try done.
  - by eapply (listed_valid s L free_list []).
  - by etransitivity.
  - intros x Hx. rewrite O2 by congruence. apply Hrl.
  - by rewrite T2, (se_boot _ _ E1).
Qed.

(** ** Attaching the first task of a processor *)

Lemma popped_free L t l x :
  L free_list = t :: l -> unlisted (upd L free_list l) t ->
  unlisted (upd L free_list l) x <-> x = t \/ unlisted L x.
Proof.
  intros HL Ht. split.
  - intros Hu. destruct (decide (x = t)) as [->|Hne]; [by left|right]. intros r Hin. apply (Hu r).
    destruct (decide (r = free_list)) as [->|]; rewrite ?upd_eq, ?upd_ne by done; [|done].
    rewrite HL in Hin. set_solver.
  - intros [->|Hx]; [done|]. intros r Hin. apply (Hx r).
    destruct (decide (r = free_list)) as [->|]; rewrite ?upd_eq, ?upd_ne in Hin by done; [|done].
    rewrite HL. by right.
Qed.

Lemma bootstrap_cpu_spec s L kernel_space cpu stack_top name t l (Q : option task_ref -> sched -> Prop) :
  core s L -> cpu_index s cpu -> (s.(cpus) cpu).(online) = true -> (s.(cpus) cpu).(current) = None ->
  0 <= s.(boot_cpu_id) -> L free_list = t :: l ->
  (forall s' , handover (set_next_task_id (u32 (s.(next_task_id) + 1)) s) L cpu None t s' (upd L free_list l) ->
     (s'.(tasks) t).(t_id) = s.(next_task_id) -> (s'.(tasks) t).(t_priority) = SCHEDULER_PRIORITY_NORMAL ->
     Q (Some t) s') ->
  wp (scheduler_bootstrap_cpu_task kernel_space cpu stack_top name) Q s.
Proof.
  intros C Hcpu Hon Hcur Hb HL HQ. unfold scheduler_bootstrap_cpu_task. do 2 wp_step. unfold id.
  wp_step; [exfalso; rewrite Hon in E; unfold cpu_index in Hcpu; simpl in E; pose proof (core_cfg _ _ C); lia|].
  wp_step; [by rewrite Hcur in E0|]. wp_step.
  apply (allocate_slot_spec s L); [done|by rewrite HL|].
  intros t' l' s1 HL' C1 Hun Hv E1 K1 D1. rewrite HL in HL'. injection HL' as <- <-. do 4 wp_step.
  set (s2 := set_next_task_id _ s1).
  assert (C2 : core s2 (upd L free_list l)) by (by apply (core_tweak s1)). unfold scheduler_online_cpu_mask.
  do 4 wp_step. set (mask := fold_left _ _ _). wp_step.
  apply (upd_unlisted s2 (upd L free_list l)); [done|done| |].
  { split; [done|]. simpl. rewrite (core_id _ _ C) by done. apply Hcpu. }
  intros s3 C3 E3 T3 O3. unfold upd_cpu. do 3 wp_step. fold (with_current s3 cpu t).
  set (s4 := with_current s3 cpu t). assert (T4 : s4.(tasks) t = s3.(tasks) t) by done.
  apply HQ; rewrite ?T4, ?T3; simpl; [|apply E1|done].
  split; [by apply core_with_current| | | |done| |].
  - assert (same_env (set_next_task_id (u32 (s.(next_task_id) + 1)) s) s3) as [Hcs].
    { etransitivity; [|exact E3]. destruct E1. split; simpl; try done. congruence. }
    split; simpl; try done. intros c. destruct (decide (c = cpu)) as [->|]; rewrite ?upd_eq, ?upd_ne by done; [|apply Hcs].
    destruct (Hcs cpu) as (? & ? & ? & _). done.
  - intros x. rewrite (popped_free L t l) by done. naive_solver.
  - right. intros Hx. apply (Hx free_list). rewrite HL. by left.
  - by rewrite T4, T3.
  - intros x Hx _ Hne. simpl. rewrite O3 by done. by apply K1.
Qed.

Lemma bootstrap_spec s L kernel_space current_space stack_top name t l (Q : unit -> sched -> Prop) :
  settled s L -> s.(scheduler_bootstrapped) = false -> (s.(cpus) s.(boot_cpu_id)).(current) = None ->
  L free_list = t :: l ->
  (forall s', settled s' (upd L free_list l) -> s'.(scheduler_bootstrapped) = true ->
     (s'.(cpus) s.(boot_cpu_id)).(current) = Some t -> s'.(boot_cpu_id) = s.(boot_cpu_id) ->
     s'.(this_cpu) = s.(this_cpu) -> s'.(configured_cpu_count) = s.(configured_cpu_count) ->
     (s'.(tasks) t).(t_priority) = SCHEDULER_PRIORITY_NORMAL -> Q tt s') ->
  wp (scheduler_bootstrap_current kernel_space current_space stack_top name) Q s.
Proof.
  intros S Hbs Hcur HL HQ. pose proof S as [C Hi Ht _ _ _]. unfold scheduler_bootstrap_current.
  wp_step. apply wp_lock; [done|]. do 2 wp_step. unfold id. simpl. rewrite Hbs.
  pose proof (core_cfg _ _ C) as Hcfg. wp_step; [lia|]. wp_step.
  apply (bootstrap_cpu_spec (locked s) L _ _ _ _ t l); [by apply core_locked|apply C|apply C|done|apply C|done|].
  intros s1 Ho _ Hp. cbv iota. wp_step.
  apply (upd_unlisted s1 (upd L free_list l)); [apply Ho|apply (ho_listed _ _ _ _ _ _ _ Ho); by left|apply (ho_core _ _ _ _ _ _ _ Ho)|].
  intros s2 C2 E2 T2 O2. unfold get_task. do 5 wp_step. apply emit_quiet. intros s3 Hq.
  set (s0 := set_next_task_id (u32 (s.(next_task_id) + 1)) s).
  assert (Ho2 : handover (locked s0) L s.(boot_cpu_id) None t s2 (upd L free_list l)).
  { destruct Ho as [_ Ee H1 H2 H3 H4 H5]. split; try done.
    - by etransitivity.
    - by rewrite T2.
    - intros x Hx Hx' Hne. rewrite O2 by done. by apply H5. }
  assert (S0 : settled s0 L) by (by apply (settled_tweak s)).
  destruct (handover_unlock s s0 L s.(boot_cpu_id) None t s2 (upd L free_list l) Hi) as [Ho3 Hef]; [done|apply Hi|done|].
  pose proof (qu_env _ _ Hq) as E3. pose proof (ho_env _ _ _ _ _ _ _ Ho2) as E02.
  apply wp_unlock; [done|by rewrite (se_eflags _ _ E3)|].
  assert (S3 : settled (unlocked s s2) (upd L free_list l)) by (eapply (handover_settled s0); [done|apply C|done|done]).
  apply HQ; simpl.
  - apply (settled_tweak (unlocked s s2)); try done; simpl.
    + intros x. rewrite (qu_tasks _ _ Hq). by repeat split.
    + apply Hq.
    + apply Hq.
    + by rewrite (se_count _ _ E3).
    + by rewrite (se_boot _ _ E3).
    + by rewrite (se_this _ _ E3).
    + split; [done|apply Hi].
  - by rewrite (se_bootstrapped _ _ E3).
  - destruct (se_cpus _ _ E3 s.(boot_cpu_id)) as (_ & _ & _ & ->). simpl.
    destruct (se_cpus _ _ E02 s.(boot_cpu_id)) as (_ & _ & _ & ->). simpl. by rewrite upd_eq.
  - rewrite (se_boot _ _ E3). apply (se_boot _ _ E02).
  - rewrite (se_this _ _ E3). apply (se_this _ _ E02).
  - rewrite (se_count _ _ E3). apply (se_count _ _ E02).
  - rewrite (qu_tasks _ _ Hq). simpl. by rewrite T2.
Qed.

(** ** Creating tasks *)

Lemma select_target_spec s L mask node (Q : Z -> sched -> Prop) :
  core s L -> (forall c, cpu_index s c -> (s.(cpus) c).(online) = true -> Q c s) ->
  wp (scheduler_select_target_cpu mask node) Q s.
Proof.
  intros C HQ. unfold scheduler_select_target_cpu. do 5 wp_step.
  assert (Hpost : forall local, wp (view <- cpu_view 0;; n <- gets configured_cpu_count;;
      (let '(cpu_online, cpu_to_node, cpu_load) := view in
       let selected := scheduler_select_best_cpu_from_view n cpu_online cpu_to_node cpu_load mask node local in
       ret (if selected =? SCHEDULER_INVALID_CPU_ID then boot_cpu_id s else selected))) Q s).
  { intros local. unfold cpu_view. do 6 wp_step. cbv beta iota zeta. wp_step.
    pose proof (core_cfg _ _ C). pose proof (core_boot _ _ C) as Hb. pose proof (core_boot_on _ _ C) as Hon.
    destruct (select_best_cpu s.(configured_cpu_count) (fun i => online (cpus (id s) (0 + i))) (fun i => numa_node (cpus (id s) (0 + i)))
      (fun i => match scheduler_cpu_load (0 + i) (id s) with Done l _ => l | _ => 0 end) mask node local)
      as [[_ [[(Hr & Ho & _) _] _]]|[Hnone _]].
    - unfold SCHEDULER_MAX_CPUS, SCHEDULER_INVALID_CPU_ID in *. lia.
    - unfold SCHEDULER_MAX_CPUS, SCHEDULER_INVALID_CPU_ID in *.
      match goal with |- context [if ?b then _ else _] => replace b with false by lia end. by apply HQ.
    - specialize (Hnone _ Hb). rewrite Z.add_0_l in Hnone. unfold id in Hnone. congruence. }
  destruct (scheduler_bootstrapped s).
  - unfold scheduler_current_cpu. do 2 wp_step. eapply current_cpu_state; [done|]. unfold get_cpu. do 2 wp_step. apply Hpost.
  - wp_step. apply Hpost.
Qed.

Lemma cpu_by_id_same s c (Q : Z -> sched -> Prop) :
  cpu_index s c -> (s.(cpus) c).(online) = true -> Q c s -> wp (scheduler_cpu_by_id c) Q s.
Proof.
  intros Hc Hon HQ. unfold scheduler_cpu_by_id. do 3 wp_step. unfold id, cpu_index in *. rewrite Hon. simpl.
  by replace (configured_cpu_count s <=? c) with false by lia.
Qed.

(** Putting a reserved slot back. *)
Lemma release_slot_spec s L t (Q : unit -> sched -> Prop) :
  core s L -> unlisted L t -> valid_task t ->
  (forall s', core s' (upd L free_list (L free_list ++ [t])) -> same_env s s' -> keeps (eq t) s s' -> Q tt s') ->
  wp (scheduler_release_task_slot (Some t)) Q s.
Proof.
  intros C Hun Hv HQ. unfold scheduler_release_task_slot, task_reset. do 3 wp_step.
  apply (upd_unlisted s L); [done|done|split; [done|apply (core_boot _ _ C)]|].
  intros s1 C1 E1 T1 O1. apply (push_core s1 L free_list t); [done|done|done|by simpl; rewrite T1|done|].
  intros s2 C2 Hrl. apply HQ; [done| |].
  - etransitivity; [done|]. by apply relinked_env.
  - intros x Hx. rewrite (rl_data _ _ Hrl), O1; [done|congruence].
Qed.

Lemma keeps_eq_trans t s1 s2 s3 : keeps (eq t) s1 s2 -> keeps (eq t) s2 s3 -> keeps (eq t) s1 s3.
Proof. intros H1 H2 x Hx. rewrite H2, H1; done. Qed.

(** A critical section that works on the unlisted slot [t]. *)
Lemma wp_locked_slot {A} (body : M sched A) (Q : A -> sched -> Prop) s L :
  core s L -> idle s ->
  (core (locked s) L -> wp body (fun r s1 => same_env (locked s) s1 /\
     (same_env s (unlocked s s1) -> idle (unlocked s s1) -> Q r (unlocked s s1))) (locked s)) ->
  wp (with_scheduler_lock body) Q s.
Proof.
  intros C Hi H. apply wp_sched_locked; [done|]. eapply wp_mono; [apply H; by apply core_locked|].
  intros r s1 [E HQ]. destruct (env_unlocked s s s1 Hi eq_refl (proj1 Hi) E) as [E' He].
  split; [done|]. apply HQ; [done|]. split; [done|apply Hi].
Qed.

Lemma create_reserve_spec s L config t l (Q : option (scheduler_task_config * Z * option task_ref) -> sched -> Prop) :
  core s L -> idle s -> L free_list = t :: l -> 0 <= config.(cfg_priority) ->
  (forall s' config' node, core s' (upd L free_list l) -> unlisted (upd L free_list l) t -> same_env s s' ->
     idle s' -> keeps (eq t) s s' -> config'.(cfg_priority) = scheduler_priority_sanitize config.(cfg_priority) ->
     Q (Some (config', node, Some t)) s') ->
  wp (create_reserve config) Q s.
Proof.
  intros C Hi HL Hp HQ. unfold create_reserve. eapply wp_locked_slot; [done|done|]. intros C0.
  pose proof (core_cfg _ _ C0). do 2 wp_step. unfold id. wp_step; [lia|].
  unfold scheduler_normalize_affinity_mask, scheduler_online_cpu_mask. do 6 wp_step. wp_step.
  eapply select_target_spec; [done|]. intros c Hc Hon. wp_step.
  eapply cpu_by_id_same; [done|done|]. unfold get_cpu. do 3 wp_step.
  apply (allocate_slot_spec (locked s) L); [done|by rewrite HL|].
  intros t' l' s1 HL' C1 Hun Hv E1 K1 D1. rewrite HL in HL'. injection HL' as <- <-. wp_step.
  split; [done|]. intros E' I'. apply HQ; try done. by apply core_unlocked.
Qed.

Lemma release_locked_spec s L t (Q : unit -> sched -> Prop) :
  core s L -> idle s -> unlisted L t -> valid_task t ->
  (forall s', core s' (upd L free_list (L free_list ++ [t])) -> same_env s s' -> keeps (eq t) s s' -> Q tt s') ->
  wp (with_scheduler_lock (scheduler_release_task_slot (Some t))) Q s.
Proof.
  intros C Hi Hun Hv HQ. eapply wp_locked_slot; [done|done|]. intros C0.
  apply (release_slot_spec (locked s) L t); try done. intros s1 C1 E1 K1. split; [done|]. intros E' _.
  apply HQ; [by apply core_unlocked|done|done].
Qed.

(** The scheduler after one more task id was given out. *)
Definition next_id (s : sched) : sched := set_next_task_id (u32 (s.(next_task_id) + 1)) s.

(** The record of a task that was just created with id [tid] on processor [c]. *)
Record new_task (tid : Z) (name : option string) (entry arg space stack frame priority c : Z) (k : task) : Prop := {
  nt_id : k.(t_id) = tid;
  nt_name : k.(t_name) = Some (match name with Some n => n | None => "kernel-task"%string end);
  nt_state : k.(t_state) = TASK_RUNNABLE;
  nt_priority : k.(t_priority) = priority;
  nt_cpu : k.(assigned_cpu) = c;
  nt_frame : k.(t_frame) = Some frame;
  nt_stack : k.(stack_base) = Some stack;
  nt_top : k.(kernel_stack_top) = u32 (stack + 16384);
  nt_entry : k.(t_entry) = Some entry;
  nt_arg : k.(t_arg) = arg;
  nt_space : k.(t_space) = Some space;
  nt_waiting : k.(wait_channel) = None /\ k.(wakeup_tick) = 0;
  nt_slice : k.(ticks_in_slice) = 0
}.

Lemma place_spec s L config name entry arg space stack frame t (Q : bool -> sched -> Prop) :
  core s L -> idle s -> unlisted L t -> valid_task t -> 0 <= config.(cfg_priority) ->
  (forall s' c L', cpu_index s c -> (s.(cpus) c).(online) = true ->
     let r := runnable c (scheduler_priority_sanitize config.(cfg_priority)) in
     L' = upd L r (L r ++ [t]) -> core s' L' -> same_env (next_id s) s' -> keeps (eq t) s s' ->
     new_task s.(next_task_id) name entry arg space stack frame (scheduler_priority_sanitize config.(cfg_priority)) c
       (s'.(tasks) t) -> Q true s') ->
  wp (create_place config name entry arg space stack frame t) Q s.
Proof.
  intros C Hi Hun Hv Hp HQ. unfold create_place. apply wp_sched_locked; [done|].
  pose proof (core_locked _ _ C) as C0. pose proof (core_cfg _ _ C0). do 2 wp_step. unfold id. wp_step; [lia|].
  wp_step. eapply select_target_spec; [done|]. intros c Hc Hon. wp_step. eapply cpu_by_id_same; [done|done|].
  do 6 wp_step. set (s1 := set_next_task_id _ (locked s)).
  assert (C1 : core s1 L) by (by apply (core_tweak (locked s))). wp_step.
  apply (upd_unlisted s1 L); [done|done|split; [done|simpl; rewrite (core_id _ _ C) by done; apply Hc]|].
  intros s2 C2 E2 T2 O2. wp_step.
  apply (enqueue_spec s2 L c t); try done; [by rewrite (se_count _ _ E2)|by destruct (se_cpus _ _ E2 c) as (_ & _ & -> & _)|].
  intros s3 L3 [HL3 C3 E3 K3 D3]. wp_step. apply counter_inc_quiet. intros s4 Hq. wp_step.
  assert (E4 : same_env (locked (next_id s)) s4).
  { transitivity s3; [|apply Hq]. transitivity s2; [|done]. exact E2. }
  destruct (env_unlocked s (next_id s) s4 Hi eq_refl (proj1 Hi) E4) as [E5 He]. split; [done|].
  apply (HQ _ c L3); try done; simpl; rewrite ?(qu_tasks _ _ Hq).
  - simpl in HL3. by rewrite T2 in HL3.
  - apply core_unlocked. by eapply core_quiet.
  - intros x Hx. simpl. rewrite (qu_tasks _ _ Hq), K3 by done. by rewrite O2 by congruence.
  - rewrite T2 in D3. destruct (se_cpus _ _ E2 c) as (Hid & _).
    change (cpus s1 c) with (cpus s c) in Hid. rewrite (core_id _ _ C) in Hid by done.
    split; [exact (f_equal t_id D3)|exact (f_equal t_name D3)|exact (f_equal t_state D3)|exact (f_equal t_priority D3)| |
      exact (f_equal t_frame D3)|exact (f_equal stack_base D3)|exact (f_equal kernel_stack_top D3)|exact (f_equal t_entry D3)|
      exact (f_equal t_arg D3)|exact (f_equal t_space D3)|split; [exact (f_equal wait_channel D3)|exact (f_equal wakeup_tick D3)]|
      exact (f_equal ticks_in_slice D3)].
    etransitivity; [exact (f_equal assigned_cpu D3)|exact Hid].
Qed.

(** A slot that went from the head of the free list to the back of list [r]. *)
Lemma slot_settled s0 s L t l r s' :
  settled s L -> settled s0 L -> L free_list = t :: l ->
  core s' (moved L free_list [] l r t) -> same_env s0 s' -> keeps (eq t) s s' -> s0.(tasks) = s.(tasks) ->
  settled s' (moved L free_list [] l r t).
Proof.
  intros S S0 HL C' E K Ht. apply (shuffle_settled s0 L); [done|done|].
  split; [done|intros x; by apply moved_listed|]. intros x Hx. rewrite Ht. apply K. intros <-.
  apply (Hx free_list). rewrite HL. by left.
Qed.

Lemma settled_next_id s L : settled s L -> settled (next_id s) L.
Proof. intros S. apply (settled_tweak s); try done. apply S. Qed.

Lemma create_spec s L tramp space_answer stack_answer name entry arg config t l (Q : bool -> sched -> Prop) :
  settled s L -> L free_list = t :: l -> 0 <= (default scheduler_task_config_default config).(cfg_priority) ->
  (forall s', space_answer = None \/ stack_answer = None -> same_env s s' -> keeps (eq t) s s' ->
     settled s' (moved L free_list [] l free_list t) -> Q false s') ->
  (forall s' c space stack, space_answer = Some space -> stack_answer = Some stack -> cpu_index s c -> (s.(cpus) c).(online) = true ->
     settled s' (moved L free_list [] l
       (runnable c (scheduler_priority_sanitize (default scheduler_task_config_default config).(cfg_priority))) t) ->
     same_env (next_id s) s' -> keeps (eq t) s s' ->
     new_task s.(next_task_id) name entry arg space stack (stack + TASK_STACK_SIZE - sizeof_interrupt_frame_t)
       (scheduler_priority_sanitize (default scheduler_task_config_default config).(cfg_priority)) c (s'.(tasks) t) -> Q true s') ->
  wp (scheduler_create_kernel_task_ex tramp space_answer stack_answer name (Some entry) arg config) Q s.
Proof.
  intros S HL Hp Hno Hyes. pose proof S as [C Hi Ht _ _ _]. unfold scheduler_create_kernel_task_ex. wp_step.
  apply (create_reserve_spec s L _ t l); try done. intros s1 cfg node C1 Hun E1 I1 K1 Hcp.
  assert (Hv : valid_task t) by (by eapply (listed_valid s L free_list [])).
  assert (Hfail : forall s2 s3, quiet s1 s2 -> core s3 (moved L free_list [] l free_list t) -> same_env s2 s3 ->
    keeps (eq t) s2 s3 -> space_answer = None \/ stack_answer = None -> Q false s3).
  { intros s2 s3 Hq C3 E3 K3 Hwhy. assert (same_env s s3) by (rewrite E1, (qu_env _ _ Hq); done).
    assert (K : keeps (eq t) s s3).
    { apply (keeps_eq_trans t s s1); [done|]. intros x Hx. rewrite K3 by done. by rewrite (qu_tasks _ _ Hq). }
    apply Hno; try done. by apply (slot_settled s s L t l). }
  assert (Hidle : forall s2, quiet s1 s2 -> idle s2).
  { intros s2 Hq. destruct I1. split; [by rewrite (se_lock _ _ (qu_env _ _ Hq))|by rewrite (se_eflags _ _ (qu_env _ _ Hq))]. }
  cbv iota. wp_step. apply emit_quiet. intros s2 H2.
  destruct space_answer as [space|]; cycle 1.
  { wp_step. apply (release_locked_spec s2 (upd L free_list l) t); try done; [by eapply core_quiet|by apply Hidle|].
    intros s3 C3 E3 K3. wp_step. apply (Hfail s2 s3); try done. by left. }
  wp_step. apply emit_quiet. intros s3 H3. assert (H13 : quiet s1 s3) by (by etransitivity).
  destruct stack_answer as [stack|]; cycle 1.
  { wp_step. apply emit_quiet. intros s4 H4. assert (H14 : quiet s1 s4) by (by etransitivity). wp_step.
    apply (release_locked_spec s4 (upd L free_list l) t); try done; [by eapply core_quiet|by apply Hidle|].
    intros s5 C5 E5 K5. wp_step. apply (Hfail s4 s5); try done. by right. }
  do 3 wp_step. set (s4 := set_frame_mem _ s3). assert (H14 : quiet s1 s4) by (destruct H13 as [? ? ? []]; split; [done|done|done|by split]).
  clearbody s4. assert (E4 : same_env s s4) by (rewrite E1; apply H14).
  apply (place_spec s4 (upd L free_list l)); try done; [by eapply core_quiet|by apply Hidle| |].
  { rewrite Hcp. pose proof (sanitize_range _ Hp). lia. }
  intros s5 c L5 Hc Hon r HL5 C5 E5 K5 Hnew. wp_step. subst r.
  assert (Hsan : forall p, scheduler_priority_sanitize (scheduler_priority_sanitize p) = scheduler_priority_sanitize p).
  { intros p. unfold scheduler_priority_sanitize, SCHEDULER_PRIORITY_COUNT, SCHEDULER_PRIORITY_NORMAL.
    destruct (Z.leb_spec 5 p) as [H|H]; simpl; [done|]. by replace (5 <=? p) with false by lia. }
  rewrite Hcp, Hsan in HL5, Hnew. rewrite (se_next _ _ E4) in Hnew.
  assert (En : same_env (next_id s) s5).
  { etransitivity; [|exact E5]. destruct E4. split; simpl; try done. congruence. }
  assert (K : keeps (eq t) s s5).
  { apply (keeps_eq_trans t s s1); [done|]. intros x Hx. rewrite K5 by done. by rewrite (qu_tasks _ _ H14). }
  assert (Hce : online (s.(cpus) c) = true) by (by destruct (se_cpus _ _ E4 c) as (_ & _ & <- & _)).
  apply (Hyes s5 c space stack); try done.
  - unfold cpu_index in *. by rewrite <- (se_count _ _ E4).
  - rewrite HL5 in C5. apply (slot_settled (next_id s) s L t l); try done. by apply settled_next_id.
Qed.

(** ** Two tasks on one processor *)

(** The state the examples start from: after [scheduler_init], the bootstrap task
    and one kernel task. *)
Definition booting : M sched bool :=
  scheduler_init ;;;
  scheduler_bootstrap_current 1 1 0xC0108000 None ;;;
  scheduler_create_kernel_task 0xC0101000 (Some 2) (Some 0xC0200000) None (Some 0xC0102000) 0.

Definition booted : sched := match booting cold_sched with Done _ s => s | _ => cold_sched end.

Definition booted_lists : list_ref -> list task_ref :=
  moved (upd (free_only SCHEDULER_MAX_THREADS) free_list (seqZ 1 31)) free_list [] (seqZ 2 30) (runnable 0 2) 1.

Definition booted_spec (b : bool) (s : sched) : Prop :=
  b = true /\ settled s booted_lists /\ here s = 0 /\ (s.(cpus) 0).(current) = Some 0 /\
  (s.(tasks) 0).(t_priority) = SCHEDULER_PRIORITY_NORMAL.

Lemma booting_wp : wp booting booted_spec cold_sched.
Proof.
  unfold booting. wp_step. apply init_spec; [apply cold_sched_cold|]. intros s1 S1 (F1 & F2 & F3 & F4) B1 N1 H1. wp_step.
    assert (Hc1 : s1.(cpus) 0 = configured_cpu scheduler_topology_default 0) by (by apply F4).
    apply (bootstrap_spec s1 (free_only SCHEDULER_MAX_THREADS) _ _ _ _ 0 (seqZ 1 31)); [done|done|by rewrite F3; simpl; rewrite Hc1| |].
    { unfold free_only. rewrite upd_eq. by apply (seqZ_cons 0 32). }
    intros s2 S2 B2 C2 Hb2 H2 Hn2 Hp2. unfold scheduler_create_kernel_task.
    apply (create_spec s2 (upd (free_only SCHEDULER_MAX_THREADS) free_list (seqZ 1 31)) _ _ _ _ _ _ _ 1 (seqZ 2 30)); [done| |done|by intros s3 [?|?]|].
    { rewrite upd_eq. by apply (seqZ_cons 1 31). }
    intros s3 c space stack _ _ Hc Hon S3 E3 K3 _. unfold cpu_index in Hc. rewrite Hn2, F1 in Hc. simpl in Hc.
    assert (c = 0) as -> by lia. split; [done|]. split; [exact S3|]. rewrite F3 in *. simpl in *. split; [|split].
    - destruct E3. unfold here. rewrite se_this, se_count, se_boot. simpl. rewrite H2, H1, Hn2, F1, Hb2. simpl.
      by destruct (negb _).
    - by destruct (se_cpus _ _ E3 0) as (_ & _ & _ & ->).
    - by destruct (data_fields _ _ (K3 0 ltac:(done))) as (_ & -> & _).
Qed.

Lemma booted_ok : exists b, booting cold_sched = Done b booted /\ booted_spec b booted.
Proof. apply (wp_state booting booted_spec cold_sched cold_sched booting_wp). Qed.

(** ** One task on one processor *)

Definition starting : M sched unit :=
  scheduler_init ;;; scheduler_bootstrap_current 1 1 0xC0108000 None.

Definition lone : sched := match starting cold_sched with Done _ s => s | _ => cold_sched end.

Definition lone_lists : list_ref -> list task_ref :=
  upd (free_only SCHEDULER_MAX_THREADS) free_list (seqZ 1 31).

Definition lone_spec (_ : unit) (s : sched) : Prop :=
  settled s lone_lists /\ here s = 0 /\ (s.(cpus) 0).(current) = Some 0.

Lemma starting_wp : wp starting lone_spec cold_sched.
Proof.
  unfold starting. wp_step. apply init_spec; [apply cold_sched_cold|]. intros s1 S1 (F1 & F2 & F3 & F4) B1 N1 H1.
  assert (Hc1 : s1.(cpus) 0 = configured_cpu scheduler_topology_default 0) by (by apply F4).
  apply (bootstrap_spec s1 (free_only SCHEDULER_MAX_THREADS) _ _ _ _ 0 (seqZ 1 31)); [done|done|by rewrite F3; simpl; rewrite Hc1| |].
  { unfold free_only. rewrite upd_eq. by apply (seqZ_cons 0 32). }
  intros s2 S2 B2 C2 Hb2 H2 Hn2 Hp2. rewrite F3 in *. split; [exact S2|]. split; [|exact C2].
  unfold here. rewrite H2, H1, Hn2, F1, Hb2. simpl. by destruct (negb _).
Qed.

Lemma lone_ok : lone_spec tt lone.
Proof. destruct (wp_state starting lone_spec cold_sched cold_sched starting_wp) as ([] & _ & H). exact H. Qed.

(** ** The public operations *)

(** [scheduler_init], from the zeroed variables, never panics and leaves a
    consistent scheduler: one processor, all slots on the free list in order, no
    task running, the lock free and the next task id 1. *)
Theorem scheduler_init_correct s :
  cold s ->
  exists s', scheduler_init s = Done tt s' /\ settled s' (free_only SCHEDULER_MAX_THREADS) /\
    fresh_cpus scheduler_topology_default s' /\ s'.(scheduler_bootstrapped) = false /\ s'.(next_task_id) = 1.
Proof.
  intros Hc. assert (H : wp scheduler_init (fun _ s' => settled s' (free_only SCHEDULER_MAX_THREADS) /\
    fresh_cpus scheduler_topology_default s' /\ s'.(scheduler_bootstrapped) = false /\ s'.(next_task_id) = 1) s).
  { apply init_spec; [exact Hc|]. intros s' H1 H2 H3 H4 _. exact (conj H1 (conj H2 (conj H3 H4))). }
  apply wp_Done in H as ([] & s' & Hrun & H). exists s'. exact (conj Hrun H).
Qed.

Lemma scheduler_init_correct_witness :
  exists s', scheduler_init cold_sched = Done tt s' /\ settled s' (free_only SCHEDULER_MAX_THREADS) /\
    fresh_cpus scheduler_topology_default s' /\ s'.(scheduler_bootstrapped) = false /\ s'.(next_task_id) = 1.
Proof. apply scheduler_init_correct. exact cold_sched_cold. Defined.

(** One of the five priorities, the middle one when there is none of that number. *)
Definition sane_priority (p : Z) : Z := if decide (p < 5) then p else 2.
Lemma sanitize_sane p : scheduler_priority_sanitize p = sane_priority p.
Proof.
  unfold scheduler_priority_sanitize, sane_priority, SCHEDULER_PRIORITY_COUNT, SCHEDULER_PRIORITY_NORMAL.
  case_decide; destruct (Z.leb_spec 5 p); (done || lia).
Qed.

(** What the creation of a task answers and does to its slot [t], which is on
    list [r] afterwards: success exactly when paging.c gave both the space and the
    stack. *)
Definition created (s : sched) (space_answer stack_answer : option Z) (name : option string) (entry arg : Z)
    (config : scheduler_task_config) (t : task_ref) (b : bool) (s' : sched) (r : list_ref) : Prop :=
  match b with
  | false => (space_answer = None \/ stack_answer = None) /\ r = free_list
  | true => exists c space stack, space_answer = Some space /\ stack_answer = Some stack /\
      cpu_index s c /\ (s.(cpus) c).(online) = true /\
      r = runnable c (sane_priority config.(cfg_priority)) /\ s'.(next_task_id) = u32 (s.(next_task_id) + 1) /\
      new_task s.(next_task_id) name entry arg space stack (stack + TASK_STACK_SIZE - sizeof_interrupt_frame_t)
        (sane_priority config.(cfg_priority)) c (s'.(tasks) t)
  end.

(** C33: creating a kernel task takes the first free slot.  It succeeds exactly
    when paging.c provides both the space and the stack; then the task gets the
    next id, its name, entry and argument, that space, that stack with a frame at
    its top, and the last place of the run queue of its sanitised priority on an
    online processor.  When either is missing, the operation fails and the slot goes
    back to the free list.  Either way the scheduler stays consistent and no other
    task changes. *)
Theorem create_kernel_task_correct s L tramp space_answer stack_answer name entry arg config t l :
  settled s L -> L free_list = t :: l -> 0 <= (default scheduler_task_config_default config).(cfg_priority) ->
  exists b s' r, scheduler_create_kernel_task_ex tramp space_answer stack_answer name (Some entry) arg config s = Done b s' /\
    settled s' (moved L free_list [] l r t) /\ keeps (eq t) s s' /\
    created s space_answer stack_answer name entry arg (default scheduler_task_config_default config) t b s' r.
Proof.
  intros S HL Hp. assert (H : wp (scheduler_create_kernel_task_ex tramp space_answer stack_answer name (Some entry) arg config)
    (fun b s' => exists r, settled s' (moved L free_list [] l r t) /\ keeps (eq t) s s' /\
       created s space_answer stack_answer name entry arg (default scheduler_task_config_default config) t b s' r) s).
  2: { apply wp_Done in H as (b & s' & Hrun & r & H). exists b, s', r. exact (conj Hrun H). }
  apply (create_spec s L _ _ _ _ _ _ _ t l); try assumption.
  - intros s' Hwhy E K S'. exists free_list. split; [done|]. split; [done|]. by split.
  - intros s' c space stack Hsp Hst Hc Hon S' E K Hnew. rewrite sanitize_sane in *. eexists. split; [exact S'|]. split; [done|]. exists c, space, stack.
    split_and!; try done. apply (se_next _ _ E).
Qed.

Lemma create_kernel_task_correct_witness :
  exists b s' r, scheduler_create_kernel_task_ex 0xC0101000 (Some 2) (Some 0xC0200000) None (Some 0xC0102000) 0 None lone = Done b s' /\
    settled s' (moved lone_lists free_list [] (seqZ 2 30) r 1) /\ keeps (eq 1) lone s' /\
    created lone (Some 2) (Some 0xC0200000) None 0xC0102000 0 scheduler_task_config_default 1 b s' r.
Proof.
  apply (create_kernel_task_correct lone lone_lists 0xC0101000 (Some 2) (Some 0xC0200000) None 0xC0102000 0 None 1 (seqZ 2 30)).
  - exact (proj1 lone_ok).
  - exact (seqZ_cons 1 31 eq_refl).
  - by vm_compute.
Defined.
