(* ===== verification/SchedStart.v ===== *)
(** The scheduler during start-up: configured again before the first task, then the
    bootstrap task and the first kernel tasks on one processor. *)
From S2P Require Import Prelude SchedData Sched SchedApi SchedLists SchedInv SchedMoves SchedSettled SchedBalance SchedBoot.
From Stdlib Require Import ZArith Lia.
From stdpp Require Import sets.
Open Scope Z_scope.

(** All slots are free. *)
Abbreviation all_free := (free_only SCHEDULER_MAX_THREADS).

(** Processors that were just configured, and no task. *)
Lemma fresh_settled config s :
  topology_ok config -> fresh_cpus config s -> rep s all_free -> idle s -> 0 <= s.(this_cpu) ->
  (forall i, valid_task i -> (s.(tasks) i).(t_state) = TASK_UNUSED) -> (forall t, unsigned_fields (s.(tasks) t)) -> settled s all_free.
Proof.
  intros Hok Hf R Hi Ht Hun Hu.
  assert (C : core s all_free).
  { apply (fresh_core config); try done. intros r t [-> Hr]%free_only_in. simpl. by apply Hun. }
  assert (Hcur : forall c, cpu_index s c -> current (s.(cpus) c) = None).
  { intros c Hc. destruct Hf as (Ec & _ & _ & Hf). destruct Hok as [Hcc _ _ _ _]. unfold cpu_index in Hc. rewrite Ec in Hc.
    rewrite Hf by (unfold SCHEDULER_MAX_CPUS in *; lia). done. }
  split; try done.
  - intros c t Hc Hx. by rewrite Hcur in Hx.
  - intros c1 c2 t Hc _ Hx. by rewrite Hcur in Hx.
  - intros t Hv Hl. exfalso. apply (Hl free_list). unfold free_only. rewrite upd_eq. apply elem_of_seqZ. unfold valid_task in Hv. lia.
Qed.

(** Configuring again before the first task. *)
Lemma configure_spec s config (Q : bool -> sched -> Prop) :
  settled s all_free -> s.(scheduler_bootstrapped) = false -> topology_ok config ->
  (forall s', settled s' all_free -> fresh_cpus config s' -> s'.(scheduler_bootstrapped) = false ->
     s'.(this_cpu) = s.(this_cpu) -> s'.(next_task_id) = s.(next_task_id) -> Q true s') ->
  wp (scheduler_configure_topology config) Q s.
Proof.
  intros S Hb Hok HQ. pose proof (stl_core _ _ S) as C.
  assert (Hun : forall i, valid_task i -> (s.(tasks) i).(t_state) = TASK_UNUSED).
  { intros i Hi. assert (Hin : i ∈ all_free free_list) by (unfold free_only; rewrite upd_eq; apply elem_of_seqZ; unfold valid_task in Hi; lia).
    exact (core_state _ _ C _ _ Hin). }
  apply (configure_accepts s all_free); try done; [apply S|apply C|].
  intros s' R' Hf Ht Hi' Hth Hbs Hn. apply HQ; try done. apply (fresh_settled config); try done.
  - rewrite Hth. apply S.
  - by rewrite Ht.
  - rewrite Ht. apply C.
Qed.

(** A scheduler on one processor that runs the bootstrap task, with the slots from [k]
    on free. *)
Record alone (k : Z) (L : list_ref -> list task_ref) (s : sched) : Prop := {
  al_settled : settled s L;
  al_count : s.(configured_cpu_count) = 1;
  al_boot : s.(boot_cpu_id) = 0;
  al_current : (s.(cpus) 0).(current) = Some 0;
  al_free : L free_list = seqZ k (32 - k)
}.

Lemma bootstrap_one s config kernel_space current_space stack name :
  settled s all_free -> fresh_cpus config s -> s.(scheduler_bootstrapped) = false -> topology_ok config ->
  config.(cfg_cpu_count) = 1 ->
  wp (scheduler_bootstrap_current kernel_space current_space stack name)
     (fun _ s' => alone 1 (upd all_free free_list (seqZ 1 31)) s') s.
Proof.
  intros S (F1 & F2 & F3 & F4) Hb [Hc Hn Hbt Hm Hon] H1. assert (Hb0 : s.(boot_cpu_id) = 0) by lia.
  apply (bootstrap_spec s all_free _ _ _ _ 0 (seqZ 1 31)); [done|done| | |].
  - rewrite Hb0, F4 by done. done.
  - unfold free_only. rewrite upd_eq. by apply (seqZ_cons 0 32).
  - intros s' S' _ Hcur Hb' _ Hn' _. rewrite Hb0 in Hcur, Hb'. split; [done|lia|done|exact Hcur|by rewrite upd_eq].
Qed.

(** The task in slot [k] is queued at priority [p]. *)
Definition queued (L : list_ref -> list task_ref) (k p : Z) : list_ref -> list task_ref :=
  moved L free_list [] (seqZ (k + 1) (31 - k)) (runnable 0 p) k.

Lemma create_one k L s tramp space stack name entry arg config :
  alone k L s -> 0 <= k < 32 -> 0 <= cfg_priority config < SCHEDULER_PRIORITY_COUNT ->
  wp (scheduler_create_kernel_task_ex tramp (Some space) (Some stack) name (Some entry) arg (Some config))
     (fun b s' => b = true /\ alone (k + 1) (queued L k (cfg_priority config)) s') s.
Proof.
  intros [S Hc Hb Hcur Hf] Hk Hp. assert (HL : L free_list = k :: seqZ (k + 1) (31 - k)).
  { rewrite Hf, seqZ_cons by lia. f_equal. f_equal; lia. }
  apply (create_spec s L _ _ _ _ _ _ _ k (seqZ (k + 1) (31 - k))); [done|done|simpl; lia|by intros s' [?|?]|].
  intros s' c sp st _ _ Hi _ S' E _ _. unfold cpu_index in Hi. rewrite Hc in Hi. assert (c = 0) as -> by lia.
  simpl in S'. unfold scheduler_priority_sanitize in S'. replace (SCHEDULER_PRIORITY_COUNT <=? cfg_priority config) with false in S' by lia.
  split; [done|]. split.
  - exact S'.
  - rewrite (se_count _ _ E). exact Hc.
  - rewrite (se_boot _ _ E). exact Hb.
  - destruct (se_cpus _ _ E 0) as (_ & _ & _ & ->). exact Hcur.
  - unfold queued, moved. rewrite upd_ne, upd_eq by done. simpl. f_equal. lia.
Qed.

