(* ===== verification/SchedSpec.v ===== *)
(** The scheduler as the kernel sees it: yielding, sleeping, waiting, waking and
    the clock, from any settled state. *)
From S2P Require Import Prelude SchedData Sched SchedApi SchedLists SchedInv SchedMoves SchedSettled SchedBalance SchedBoot.
From Stdlib Require Import ZArith Lia.
From stdpp Require Import sets.
Open Scope Z_scope.

(** ** Facts about the example state *)

Lemma booted_settled : settled booted booted_lists.
Proof. destruct booted_ok as (b & _ & _ & H & _). exact H. Qed.

Lemma booted_current : (booted.(cpus) (here booted)).(current) = Some 0.
Proof. destruct booted_ok as (b & _ & _ & _ & H & H' & _). rewrite H. exact H'. Qed.

Lemma booted_queue : booted_lists (runnable (here booted) 2) = [1].
Proof. destruct booted_ok as (b & _ & _ & _ & H & _). rewrite H. reflexivity. Qed.

Lemma booted_busy : ~ no_runnable booted_lists (here booted).
Proof. intros H. specialize (H 2 ltac:(by vm_compute)). by rewrite booted_queue in H. Qed.

(** ** Yielding *)

Lemma settled_running s L t :
  settled s L -> (s.(cpus) (here s)).(current) = Some t -> running_on s L (here s) t.
Proof. intros S Hcur. apply (stl_running _ _ S); [|done]. by apply (here_ok s L); apply S. Qed.

Lemma settled_here s L : settled s L -> cpu_index s (here s).
Proof. intros S. by apply (here_ok s L); apply S. Qed.

(** C10: the yield interrupt always switches and keeps the scheduler consistent.
    The running task goes to the back of the queue of its priority on its own
    processor, the head of the highest non-empty queue of that processor becomes
    the current task, and the frame returned is the one saved for it (the
    interrupted frame when the task resumes itself).  Every task stays on exactly
    one list or current on exactly one processor, and no other task's record
    changes. *)
Theorem yield_correct s L t frame :
  settled s L -> (s.(cpus) (here s)).(current) = Some t ->
  exists r s' L' n, scheduler_on_yield frame s = Done r s' /\
    rescheduled s L (here s) t frame r s' L' n /\ settled s' L'.
Proof.
  intros S Hcur.
  assert (H : wp (scheduler_on_yield frame) (fun r s' => exists L' n,
    rescheduled s L (here s) t frame r s' L' n /\ settled s' L') s).
  { eapply (yield_running s L t); [apply S..|by apply settled_running|].
    intros r s' L' n Hr. exists L', n. split; [done|].
    eapply handover_settled; [exact S|by eapply settled_here|exact Hcur|by eapply rescheduled_handover]. }
  apply wp_Done in H as (r & s' & Hrun & L' & n & H). by exists r, s', L', n.
Qed.

Lemma yield_correct_witness :
  exists r s' L' n, scheduler_on_yield 0xC0107F00 booted = Done r s' /\
    rescheduled booted booted_lists (here booted) 0 0xC0107F00 r s' L' n /\ settled s' L'.
Proof. apply yield_correct; [exact booted_settled|exact booted_current]. Defined.

(** ** Sleeping and waiting *)

(** The current task left the processor for list [r0]: [f] is what happened to
    its record; the best runnable task runs instead. *)
Record departed (s : sched) (L : list_ref -> list task_ref) (r0 : list_ref) (t : task_ref) (f : task -> task)
    (frame : Z) (result : option Z) (s' : sched) (L' : list_ref -> list task_ref) (n : task_ref) : Prop := {
  de_next : exists q l, best_runnable L (here s) q n l /\
    forall r, L' r = if decide (r = runnable (here s) q) then l else if decide (r = r0) then L r0 ++ [t] else L r;
  de_current : (s'.(cpus) (here s)).(current) = Some n;
  de_running : (s'.(tasks) n).(t_state) = TASK_RUNNING;
  de_slice : (s'.(tasks) n).(ticks_in_slice) = 0;
  de_result : result = (s.(tasks) n).(t_frame);
  de_task : data (s'.(tasks) t) = data (set_t_frame (Some frame) (f (s.(tasks) t)));
  de_others : forall x, x <> t -> x <> n -> data (s'.(tasks) x) = data (s.(tasks) x);
  de_env : same_env (with_current s (here s) n) s'
}.

(** The part under the lock, and the yield that follows it. *)
Lemma depart s L r0 t f frame s1 (Q : option Z -> sched -> Prop) :
  settled s L -> (s.(cpus) (here s)).(current) = Some t -> (forall c p, r0 <> runnable c p) ->
  ~ no_runnable L (here s) ->
  core s1 (upd L r0 (L r0 ++ [t])) -> same_env s s1 -> (forall x, x <> t -> data (s1.(tasks) x) = data (s.(tasks) x)) ->
  data (s1.(tasks) t) = data (f (s.(tasks) t)) -> (f (s.(tasks) t)).(t_state) <> TASK_RUNNING ->
  (forall r s' L' n, departed s L r0 t f frame r s' L' n -> settled s' L' -> Q r s') ->
  wp (scheduler_on_yield frame) Q s1.
Proof.
  intros S Hcur Hr0 Hbusy C1 E1 D1 T1 Hst HQ. pose proof (env_here _ _ E1) as Hh.
  destruct (data_fields _ _ T1) as (Hst1 & _).
  assert (Hq : forall q, upd L r0 (L r0 ++ [t]) (runnable (here s) q) = L (runnable (here s) q))
    by (intros q; apply upd_ne; intros Eq; by eapply Hr0).
  destruct (settled_running s L t S Hcur) as (_ & _ & Hun & _).
  eapply (yield_blocked s1 (upd L r0 (L r0 ++ [t])) t); [done| | | | |intros Hno; apply Hbusy|].
  - destruct (stl_idle _ _ S). split; [by rewrite (se_lock _ _ E1)|by rewrite (se_eflags _ _ E1)].
  - rewrite (se_this _ _ E1). apply S.
  - rewrite Hh. by destruct (se_cpus _ _ E1 (here s)) as (_ & _ & _ & ->).
  - by rewrite Hst1.
  - intros q Hqr. rewrite <- Hq. rewrite Hh in Hno. by apply Hno.
  - intros r s' L' n Hd. rewrite Hh in Hd.
    destruct (dispatched_handover s L s1 (upd L r0 (L r0 ++ [t])) (here s) t frame r s' L' n) as [Ho Hne];
      [apply pushed_listed|intros c p; rewrite upd_ne by (intros Eq; by eapply Hr0); apply Hun|done|auto|done|].
    assert (S' : settled s' L') by (eapply handover_settled; [exact S|by eapply settled_here|exact Hcur|exact Ho]).
    destruct Hd as [(q & l & Hb & HL') C' Hu Hv E K R Sl F V].
    assert (Hbest : best_runnable L (here s) q n l).
    { destruct Hb as (H1 & H2 & H3). rewrite Hq in H2. split; [done|]. split; [done|]. intros q' Hq'. rewrite <- Hq. auto. }
    apply (HQ r s' L' n); [|done]. split; try done.
    + exists q, l. split; [done|]. intros r'. rewrite HL'. unfold upd. by repeat case_decide.
    + destruct (se_cpus _ _ E (here s)) as (_ & _ & _ & ->). simpl. by rewrite upd_eq.
    + rewrite F, decide_False by done. by destruct (data_fields _ _ (D1 n Hne)) as (_ & _ & _ & _ & _ & _ & _ & _ & ->).
    + rewrite V by done. revert T1. generalize (s1.(tasks) t) (f (s.(tasks) t)). intros [] [] [= ]. by subst.
    + intros x H1 H2. rewrite K by (intros [?|?]; done). auto.
    + apply Ho.
Qed.

Definition asleep (wake : Z) (k : task) : task := set_t_state TASK_SLEEPING (set_wakeup_tick wake k).
Definition waiting (ch wake : Z) (k : task) : task :=
  set_t_state TASK_BLOCKED (set_wakeup_tick wake (set_wait_result false (set_wait_channel (Some ch) k))).

Lemma sleep_locked_spec s L t ticks (Q : bool -> sched -> Prop) :
  settled s L -> (s.(cpus) (here s)).(current) = Some t -> ticks <> 0 ->
  (forall s1, core s1 (upd L sleeping_list (L sleeping_list ++ [t])) -> same_env s s1 ->
     (forall x, x <> t -> data (s1.(tasks) x) = data (s.(tasks) x)) ->
     data (s1.(tasks) t) = data (asleep (u32 (s.(system_ticks) + ticks)) (s.(tasks) t)) -> Q true s1) ->
  wp (scheduler_sleep_locked ticks) Q s.
Proof.
  intros S Hcur Ht HQ. destruct (settled_running s L t S Hcur) as (_ & Hv & Hun & _).
  unfold scheduler_sleep_locked. wp_step; [lia|]. wp_step.
  eapply current_task_here; [apply S|]. rewrite Hcur. eapply wp_locked_slot; [apply S|apply S|]. intros C0.
  wp_step. apply counter_inc_quiet. intros s1 H1. pose proof (core_quiet _ _ _ H1 C0) as C1. do 3 wp_step.
  apply (upd_unlisted s1 L); [done|done|apply C1|]. intros s2 C2 E2 T2 O2. wp_step.
  apply (upd_unlisted s2 L); [done|done|apply C2|]. intros s3 C3 E3 T3 O3. wp_step.
  apply (push_core s3 L sleeping_list t); [done|done|done|by simpl; rewrite T3|done|]. intros s4 C4 Hrl. wp_step.
  destruct (relinked_env _ _ Hrl) as [E4 _]. split; [by rewrite (qu_env _ _ H1), E2, E3|]. intros E' _.
  apply HQ; [by apply core_unlocked|done| |]; simpl.
  - intros x Hx. rewrite (rl_data _ _ Hrl), O3, O2 by done. by rewrite (qu_tasks _ _ H1).
  - rewrite (rl_data _ _ Hrl), T3, T2, (qu_tasks _ _ H1), (se_ticks _ _ (qu_env _ _ H1)). done.
Qed.

(** Sleeping for a non-zero number of ticks puts the running task at the end
    of the sleeping list with its deadline, and hands the processor to the best
    runnable task; the frame of the sleeper is saved and the frame of the new task
    is returned.  The scheduler stays consistent. *)
Theorem sleep_correct s L t ticks frame :
  settled s L -> (s.(cpus) (here s)).(current) = Some t -> 0 < ticks < 2 ^ 32 -> ~ no_runnable L (here s) ->
  exists r s' L' n, scheduler_sleep ticks frame s = Done r s' /\ settled s' L' /\
    departed s L sleeping_list t (asleep (u32 (s.(system_ticks) + ticks))) frame r s' L' n.
Proof.
  intros S Hcur Ht Hbusy.
  assert (H : wp (scheduler_sleep ticks frame) (fun r s' => exists L' n, settled s' L' /\
    departed s L sleeping_list t (asleep (u32 (s.(system_ticks) + ticks))) frame r s' L' n) s).
  { unfold scheduler_sleep. wp_step. eapply (sleep_locked_spec s L t); [done|done|lia|].
    intros s1 C1 E1 D1 T1. cbv iota. eapply (depart s L sleeping_list t); try done.
    intros r s' L' n Hd S'. by exists L', n. }
  apply wp_Done in H as (r & s' & Hrun & L' & n & H1 & H2). by exists r, s', L', n.
Qed.

Lemma sleep_correct_witness :
  exists r s' L' n, scheduler_sleep 10 0xC0107F00 booted = Done r s' /\ settled s' L' /\
    departed booted booted_lists sleeping_list 0 (asleep (u32 (booted.(system_ticks) + 10))) 0xC0107F00 r s' L' n.
Proof. apply sleep_correct; [exact booted_settled|exact booted_current|lia|exact booted_busy]. Defined.

Lemma wait_locked_spec s L t ch timeout (Q : bool -> sched -> Prop) :
  settled s L -> (s.(cpus) (here s)).(current) = Some t -> timeout <> 0 ->
  (forall s1, core s1 (upd L blocked_list (L blocked_list ++ [t])) -> same_env s s1 ->
     (forall x, x <> t -> data (s1.(tasks) x) = data (s.(tasks) x)) ->
     data (s1.(tasks) t) = data (waiting ch (if timeout =? SCHEDULER_WAIT_FOREVER then 0
                                             else u32 (s.(system_ticks) + timeout)) (s.(tasks) t)) -> Q true s1) ->
  wp (scheduler_wait_channel_locked (Some ch) timeout) Q s.
Proof.
  intros S Hcur Ht HQ. destruct (settled_running s L t S Hcur) as (_ & Hv & Hun & _).
  unfold scheduler_wait_channel_locked. wp_step; [lia|]. wp_step.
  eapply current_task_here; [apply S|]. rewrite Hcur. eapply wp_locked_slot; [apply S|apply S|]. intros C0.
  wp_step. apply counter_inc_quiet. intros s1 H1. pose proof (core_quiet _ _ _ H1 C0) as C1. wp_step.
  apply (upd_unlisted s1 L); [done|done|apply C1|]. intros s2 C2 E2 T2 O2. wp_step.
  apply (upd_unlisted s2 L); [done|done|apply C2|]. intros s3 C3 E3 T3 O3. do 3 wp_step.
  apply (upd_unlisted s3 L); [done|done|apply C3|]. intros s4 C4 E4 T4 O4. wp_step.
  apply (upd_unlisted s4 L); [done|done|apply C4|]. intros s5 C5 E5 T5 O5. wp_step.
  apply (push_core s5 L blocked_list t); [done|done|done|by simpl; rewrite T5|done|]. intros s6 C6 Hrl. wp_step.
  destruct (relinked_env _ _ Hrl) as [E6 _]. split; [by rewrite (qu_env _ _ H1), E2, E3, E4, E5|]. intros E' _.
  apply HQ; [by apply core_unlocked|done| |]; simpl.
  - intros x Hx. rewrite (rl_data _ _ Hrl), O5, O4, O3, O2 by done. by rewrite (qu_tasks _ _ H1).
  - rewrite (rl_data _ _ Hrl), T5, T4, T3, T2, (qu_tasks _ _ H1), (se_ticks _ _ E3), (se_ticks _ _ E2),
      (se_ticks _ _ (qu_env _ _ H1)). done.
Qed.

Lemma wait_channel_spec s L t ch timeout frame :
  settled s L -> (s.(cpus) (here s)).(current) = Some t -> 0 < timeout < 2 ^ 32 -> ~ no_runnable L (here s) ->
  wp (scheduler_wait_channel (Some ch) timeout frame) (fun r s' => exists L' n, settled s' L' /\
    departed s L blocked_list t
      (waiting ch (if timeout =? SCHEDULER_WAIT_FOREVER then 0 else u32 (s.(system_ticks) + timeout)))
      frame r s' L' n) s.
Proof.
  intros S Hcur Ht Hbusy. unfold scheduler_wait_channel. wp_step. eapply (wait_locked_spec s L t); [done|done|lia|].
  intros s1 C1 E1 D1 T1. cbv iota. eapply (depart s L blocked_list t); try done.
  intros r s' L' n Hd S'. by exists L', n.
Qed.

(** C30: waiting on a channel puts the running task at the end of the blocked
    list, with the channel, a clear result and its deadline (none when it waits
    forever), and hands the processor to the best runnable task.  The scheduler
    stays consistent. *)
Theorem wait_channel_correct s L t ch timeout frame :
  settled s L -> (s.(cpus) (here s)).(current) = Some t -> 0 < timeout < 2 ^ 32 -> ~ no_runnable L (here s) ->
  exists r s' L' n, scheduler_wait_channel (Some ch) timeout frame s = Done r s' /\ settled s' L' /\
    departed s L blocked_list t
      (waiting ch (if timeout =? SCHEDULER_WAIT_FOREVER then 0 else u32 (s.(system_ticks) + timeout)))
      frame r s' L' n.
Proof.
  intros S Hcur Ht Hbusy. pose proof (wait_channel_spec s L t ch timeout frame S Hcur Ht Hbusy) as H.
  apply wp_Done in H as (r & s' & Hrun & L' & n & H1 & H2). by exists r, s', L', n.
Qed.

Lemma wait_channel_correct_witness :
  exists r s' L' n, scheduler_wait_channel (Some 7) SCHEDULER_WAIT_FOREVER 0xC0107F00 booted = Done r s' /\
    settled s' L' /\ departed booted booted_lists blocked_list 0 (waiting 7 0) 0xC0107F00 r s' L' n.
Proof.
  apply (wait_channel_correct booted booted_lists 0 7 SCHEDULER_WAIT_FOREVER);
    [exact booted_settled|exact booted_current|by vm_compute|exact booted_busy].
Defined.

(** ** Waking *)

Lemma shuffle_unlock s L s1 L' :
  idle s -> shuffle (locked s) L s1 L' -> shuffle s L (unlocked s s1) L' /\ s1.(eflags) = cli s.(eflags).
Proof.
  intros Hi [E H D]. destruct (env_unlocked s s s1 Hi eq_refl (proj1 Hi) E) as [E' He].
  split; [|done]. by split.
Qed.

Lemma waking_unlock s L r f kept W s1 L' :
  idle s -> waking (locked s) L r f kept W s1 L' ->
  waking s L r f kept W (unlocked s s1) L' /\ s1.(eflags) = cli s.(eflags).
Proof.
  intros Hi [C F H1 H2 H3 H4 H5]. destruct (shuffle_unlock s L s1 L' Hi F) as [F' He]. split; [|done].
  split; try done. by apply core_unlocked.
Qed.

(** What waking up to [limit] waiters of a channel does to the lists. *)
Definition channel_woken (s : sched) (L : list_ref -> list task_ref) (ch limit n : Z) (s' : sched)
    (L' : list_ref -> list task_ref) : Prop :=
  exists seen rest, L blocked_list = seen ++ rest /\ n = woken_count s ch seen /\
    (rest = [] /\ n <= limit \/ n = limit) /\
    waking s L blocked_list signalled (filter (fun t => ~ waits_on s ch t) seen ++ rest)
      (filter (waits_on s ch) seen) s' L'.

Lemma wake_channel_spec s L ch max_count (Q : Z -> sched -> Prop) :
  core s L -> idle s -> 0 <= max_count ->
  (forall n s' L', channel_woken s L ch (if max_count =? 0 then UINT_MAX else max_count) n s' L' -> Q n s') ->
  wp (scheduler_wake_channel (Some ch) max_count) Q s.
Proof.
  intros C Hi Hmax HQ. unfold scheduler_wake_channel. apply wp_sched_locked; [done|].
  pose proof (core_locked _ _ C) as C0. unfold get_list. do 3 wp_step. rewrite (list_head _ _ _ C0).
  eapply (wake_channel_walk (locked s) L); [done|destruct (max_count =? 0); [by vm_compute|done]|].
  intros seen rest s1 L1 [HL HW] Hlim. wp_step.
  destruct (waking_unlock s L _ _ _ _ s1 L1 Hi HW) as [HW' He]. split; [done|].
  apply (HQ _ _ L1). by exists seen, rest.
Qed.

(** C31: waking a channel wakes its waiters in the order in which they blocked, at
    most [max_count] of them (all when it is zero), and returns how many it woke.
    Each goes to the back of its home run queue with a true wait result and no
    deadline; everybody else stays as they were.  The scheduler stays consistent. *)
Theorem wake_channel_correct s L ch max_count :
  settled s L -> 0 <= max_count < 2 ^ 32 ->
  exists n s' L', scheduler_wake_channel (Some ch) max_count s = Done n s' /\ settled s' L' /\
    channel_woken s L ch (if max_count =? 0 then UINT_MAX else max_count) n s' L'.
Proof.
  intros S Hmax.
  assert (H : wp (scheduler_wake_channel (Some ch) max_count) (fun n s' => exists L', settled s' L' /\
    channel_woken s L ch (if max_count =? 0 then UINT_MAX else max_count) n s' L') s).
  { apply (wake_channel_spec s L); [apply S|apply S|lia|]. intros n s' L' Hw. exists L'. split; [|done].
    destruct Hw as (seen & rest & _ & _ & _ & HW). eapply shuffle_settled; [exact S|apply HW|apply HW]. }
  apply wp_Done in H as (n & s' & Hrun & L' & H). by exists n, s', L'.
Qed.

(** The two tasks, the first of which waits on channel 7. *)
Definition one_waits : sched :=
  match scheduler_wait_channel (Some 7) SCHEDULER_WAIT_FOREVER 0xC0107F00 booted with Done _ s => s | _ => booted end.

Lemma one_waits_settled : exists L, settled one_waits L.
Proof.
  destruct (wp_Done _ _ _ (wait_channel_spec booted booted_lists 0 7 SCHEDULER_WAIT_FOREVER 0xC0107F00
    booted_settled booted_current ltac:(by vm_compute) booted_busy)) as (r & s' & Hrun & L & n & HS & _).
  exists L. unfold one_waits. by rewrite Hrun.
Qed.

Lemma wake_channel_correct_witness :
  exists L s' L', scheduler_wake_channel (Some 7) 0 one_waits = Done 1 s' /\ settled s' L' /\
    channel_woken one_waits L 7 UINT_MAX 1 s' L'.
Proof.
  destruct one_waits_settled as [L HS].
  destruct (wake_channel_correct one_waits L 7 0 HS ltac:(lia)) as (n & s' & L' & Hrun & HS' & Hw).
  assert (Hn : match scheduler_wake_channel (Some 7) 0 one_waits with Done n _ => n | _ => 0 end = 1) by (vm_compute; reflexivity).
  rewrite Hrun in Hn. subst n. exists L, s', L'. exact (conj Hrun (conj HS' Hw)).
Defined.

(** ** The clock *)

Lemma has_higher_spec s L cpu p (Q : bool -> sched -> Prop) :
  core s L -> 0 <= p ->
  ((exists q, 0 <= q < scheduler_priority_sanitize p /\ L (runnable cpu q) <> []) -> Q true s) ->
  ((forall q, 0 <= q < scheduler_priority_sanitize p -> L (runnable cpu q) = []) -> Q false s) ->
  wp (scheduler_cpu_has_higher_priority_runnable cpu p) Q s.
Proof.
  intros C Hp Hyes Hno. unfold scheduler_cpu_has_higher_priority_runnable. wp_step. pose proof (sanitize_range p Hp) as Hr.
  apply (wp_for _ _ _ (fun i s' => s' = s /\ forall q, 0 <= q < i -> L (runnable cpu q) = [])); [lia|split; [done|lia]| |].
  - intros i s' Hi [-> Hb]. unfold get_list. do 3 wp_step.
    rewrite (lr_count _ _ _ (rep_list _ _ (core_rep _ _ C) (runnable cpu i))).
    destruct (L (runnable cpu i)) as [|x l] eqn:HL; simpl.
    + split; [done|]. intros q Hq. destruct (decide (q = i)) as [->|]; [done|]. apply Hb. lia.
    + wp_step. apply Hyes. exists i. split; [done|]. by rewrite HL.
  - intros s' [-> Hb]. wp_step. by apply Hno.
Qed.

(** The clock advanced by one tick. *)
Definition ticked (s : sched) : sched := set_system_ticks (u32 (s.(system_ticks) + 1)) s.

(** One more tick of the current task's slice. *)
Definition slice_used (k : task) : task := set_ticks_in_slice (u32 (k.(ticks_in_slice) + 1)) k.

(** Whether task [t], current on [cpu], loses the processor at the tick. *)
Definition preempted (s : sched) (L : list_ref -> list task_ref) (cpu : Z) (t : task_ref) : Prop :=
  let k := slice_used (s.(tasks) t) in
  scheduler_priority_timeslice k.(t_priority) <= k.(ticks_in_slice) \/
  exists q, 0 <= q < scheduler_priority_sanitize k.(t_priority) /\ L (runnable cpu q) <> [].

Lemma filter_ext_in {A} (P P' : A -> Prop) `{forall x, Decision (P x)} `{forall x, Decision (P' x)} (l : list A) :
  (forall x, x ∈ l -> P x <-> P' x) -> filter P l = filter P' l.
Proof.
  induction l as [|x l IH]; intros Hl; [done|]. rewrite !filter_cons, IH by set_solver.
  destruct (decide (P x)) as [Hp|Hp], (decide (P' x)) as [Hp'|Hp']; try done; exfalso; set_solver.
Qed.

(** The lists after the clock of state [s] woke what it should. *)
Record timers_fired (s : sched) (L L' : list_ref -> list task_ref) : Prop := {
  tf_sleeping : L' sleeping_list = filter (fun t => ~ due s t) (L sleeping_list);
  tf_blocked : L' blocked_list = filter (fun t => ~ expired s t) (L blocked_list);
  tf_queues : forall c p, L' (runnable c p) = L (runnable c p) ++
    filter (fun t => home_queue s t = runnable c p)
      (filter (due s) (L sleeping_list) ++ filter (expired s) (L blocked_list));
  tf_free : L' free_list = L free_list;
  tf_zombies : L' zombie_list = L zombie_list
}.

Lemma unplaced_timed_out k k' : unplaced k' = unplaced k -> unplaced (timed_out k') = unplaced (timed_out k).
Proof. intros H. exact (f_equal timed_out H). Qed.

(** The record of a task after the clock of state [s] woke what it should: a
    timed waiter that is due loses its channel and deadline and gets a false wait
    result. *)
Definition fired (s : sched) (L : list_ref -> list task_ref) (x : task_ref) : task :=
  if decide (x ∈ filter (expired s) (L blocked_list)) then timed_out (s.(tasks) x) else s.(tasks) x.

Lemma timers_spec s L (Q : unit -> sched -> Prop) :
  core s L ->
  (forall s' L', core s' L' -> shuffle s L s' L' -> timers_fired s L L' ->
     (forall x, unplaced (s'.(tasks) x) = unplaced (fired s L x)) -> Q tt s') ->
  wp scheduler_advance_timers Q s.
Proof.
  intros C HQ. apply (advance_timers_spec s L); [done|]. intros s1 L1 s2 L2 W1 W2.
  assert (HB : L1 blocked_list = L blocked_list) by (by apply (wa_static _ _ _ _ _ _ _ _ W1)).
  assert (Hold : forall t, t ∈ L blocked_list -> data (s1.(tasks) t) = data (s.(tasks) t)).
  { intros t Ht. apply (wa_keeps _ _ _ _ _ _ _ _ W1). intros [_ Hin]%list_elem_of_filter.
    by pose proof (rep_disj _ _ (core_rep _ _ C) _ _ t Ht Hin). }
  pose proof (sf_env _ _ _ _ (wa_shuffle _ _ _ _ _ _ _ _ W1)) as E1.
  assert (Hexp : forall t, t ∈ L blocked_list -> expired s1 t <-> expired s t).
  { intros t Ht. destruct (data_fields _ _ (Hold t Ht)) as (_ & _ & _ & Hw & _).
    unfold expired. by rewrite Hw, (se_ticks _ _ E1). }
  apply (HQ s2 L2); [apply W2| | |].
  - eapply shuffle_trans; [apply W1|apply W2].
  - split.
    + rewrite (wa_static _ _ _ _ _ _ _ _ W2) by done. apply W1.
    + rewrite (wa_kept _ _ _ _ _ _ _ _ W2), HB. apply filter_ext_in. intros t Ht. by rewrite Hexp.
    + intros c p. rewrite (wa_queue _ _ _ _ _ _ _ _ W2), (wa_queue _ _ _ _ _ _ _ _ W1), filter_app, <- app_assoc, HB.
      do 2 f_equal. rewrite (filter_ext_in (expired s1) (expired s)) by done. apply filter_ext_in.
      intros t [_ Ht]%list_elem_of_filter. by rewrite (home_queue_kept s s1 t E1 (Hold t Ht)).
    + rewrite (wa_static _ _ _ _ _ _ _ _ W2), (wa_static _ _ _ _ _ _ _ _ W1); done.
    + rewrite (wa_static _ _ _ _ _ _ _ _ W2), (wa_static _ _ _ _ _ _ _ _ W1); done.
  - intros x. rewrite (waking_rest _ _ _ _ _ _ _ _ x W2). unfold fired.
    rewrite HB, (filter_ext_in (expired s1) (expired s)) by done. case_decide as Hx.
    + apply unplaced_timed_out. rewrite (waking_rest _ _ _ _ _ _ _ _ x W1). by case_decide.
    + rewrite (waking_rest _ _ _ _ _ _ _ _ x W1). by case_decide.
Qed.

Lemma timers_fired_quiet s s0 L L' : quiet s s0 -> timers_fired s0 L L' -> timers_fired s L L'.
Proof.
  intros Hq [H1 H2 H3 H4 H5]. pose proof (qu_tasks _ _ Hq) as Ht. pose proof (se_ticks _ _ (qu_env _ _ Hq)) as Hk.
  assert (Hh : forall t, home_queue s0 t = home_queue s t) by (intros t; apply home_queue_kept; [apply Hq|by rewrite Ht]).
  assert (Hd : forall t, due s0 t <-> due s t) by (intros t; unfold due; by rewrite Ht, Hk).
  assert (Hx : forall t, expired s0 t <-> expired s t) by (intros t; unfold expired; by rewrite Ht, Hk).
  split; try done.
  - rewrite H1. apply filter_ext_in. intros t _. by rewrite Hd.
  - rewrite H2. apply filter_ext_in. intros t _. by rewrite Hx.
  - intros c p. rewrite H3. rewrite (filter_ext_in (due s0) (due s)), (filter_ext_in (expired s0) (expired s)) by auto.
    f_equal. apply filter_ext_in. intros t _. by rewrite Hh.
Qed.

Lemma fired_quiet s s0 L x : quiet s s0 -> unplaced (fired s0 L x) = unplaced (fired s L x).
Proof.
  intros Hq. unfold fired. rewrite (qu_tasks _ _ Hq), (filter_ext_in (expired s0) (expired s)); [done|].
  intros t _. unfold expired. by rewrite (qu_tasks _ _ Hq), (se_ticks _ _ (qu_env _ _ Hq)).
Qed.

Lemma fired_fields s L x :
  (fired s L x).(cpu_affinity_mask) = (s.(tasks) x).(cpu_affinity_mask) /\
  (fired s L x).(t_frame) = (s.(tasks) x).(t_frame).
Proof. unfold fired. by case_decide. Qed.

(** The lists after the balancer ran. *)
Definition balanced (s : sched) (L L' : list_ref -> list task_ref) : Prop :=
  (forall r, (forall c p, r <> runnable c p) -> L' r = L r) /\
  (forall x p, (exists c, x ∈ L (runnable c p)) -> exists c, x ∈ L' (runnable c p)) /\
  (forall x c p, x ∈ L' (runnable c p) -> x ∈ L (runnable c p) \/
     Z.testbit (s.(tasks) x).(cpu_affinity_mask) c = true /\ (s.(cpus) c).(online) = true).

(** Task [n] took the processor over from [t], which went to a run queue: [n] runs
    with a fresh slice, what is resumed is the frame saved for it (the interrupted
    frame when it is [t] itself), and the record of [t] keeps the interrupted frame. *)
Record taken_over (s : sched) (t : task_ref) (frame : Z) (result : option Z) (s' : sched) (n : task_ref) : Prop := {
  to_current : (s'.(cpus) (here s)).(current) = Some n;
  to_running : (s'.(tasks) n).(t_state) = TASK_RUNNING;
  to_slice : (s'.(tasks) n).(ticks_in_slice) = 0;
  to_result : result = if decide (n = t) then Some frame else (s.(tasks) n).(t_frame);
  to_saved : n <> t -> data (s'.(tasks) t) =
    data (enqueued (set_t_frame (Some frame) (s.(tasks) t)) (s.(cpus) (here s)) s'.(system_ticks))
}.

(** The timer interrupt on the processor that runs [t]. *)
Record clock_tick (s : sched) (L : list_ref -> list task_ref) (t : task_ref) (frame : Z)
    (result : option Z) (s' : sched) (L' : list_ref -> list task_ref) : Prop := {
  ct_time : s'.(system_ticks) = u32 (s.(system_ticks) + 1);
  ct_lists : exists L1 L2, timers_fired (ticked s) L L1 /\
    (if decide (here s = s.(boot_cpu_id)) then balanced s L1 L2 else L2 = L1) /\
    (preempted s L2 (here s) t ->
       exists q n l, let p := scheduler_priority_sanitize (s.(tasks) t).(t_priority) in
         let L3 := upd L2 (runnable (here s) p) (L2 (runnable (here s) p) ++ [t]) in
         best_runnable L3 (here s) q n l /\ L' = upd L3 (runnable (here s) q) l /\
         taken_over s t frame result s' n) /\
    (~ preempted s L2 (here s) t ->
       L' = L2 /\ (s'.(cpus) (here s)).(current) = Some t /\ result = Some frame /\
       data (s'.(tasks) t) = data (set_t_frame (Some frame) (slice_used (s.(tasks) t))));
  ct_others : forall x, x <> t -> (s'.(cpus) (here s)).(current) <> Some x ->
    unplaced (s'.(tasks) x) = unplaced (fired (ticked s) L x)
}.

(** The balancing step of the timer interrupt. *)
Lemma tick_balance s L (boot_here : bool) (Q : unit -> sched -> Prop) :
  core s L ->
  (forall s' L', rebalanced s L s' L' -> (boot_here = false -> L' = L) -> Q tt s') ->
  wp (if boot_here then due <- scheduler_should_balance_now ;; when due scheduler_balance_periodic else ret tt) Q s.
Proof.
  intros C HQ. destruct boot_here; [|wp_step; apply (HQ s L); [by apply rebalanced_refl|done]].
  wp_step. apply should_balance_spec. intros b s1 Hq. pose proof (core_quiet _ _ _ Hq C) as C1.
  unfold when. destruct b.
  - apply (balance_periodic_spec s1 L); [done|]. intros s2 L2 Hr. apply (HQ s2 L2); [|done].
    by eapply rebalanced_quiet_l.
  - wp_step. apply (HQ s1 L); [|done]. eapply rebalanced_quiet; [by apply rebalanced_refl|done].
Qed.

(** The end of the timer interrupt, once the lists are up to date: [U] is the state
    without the lock. *)
Lemma tick_dispatch s U s2 L t frame (Q : option Z -> sched -> Prop) :
  idle s -> settled U L -> U = unlocked s s2 -> s2.(scheduler_state_lock) = 1 -> s2.(eflags) = cli s.(eflags) ->
  (U.(cpus) (here U)).(current) = Some t ->
  (forall r s', s'.(system_ticks) = U.(system_ticks) -> preempted U L (here U) t -> forall q n l L',
     let p := scheduler_priority_sanitize (U.(tasks) t).(t_priority) in
     let L3 := upd L (runnable (here U) p) (L (runnable (here U) p) ++ [t]) in
     best_runnable L3 (here U) q n l -> L' = upd L3 (runnable (here U) q) l ->
     taken_over U t frame r s' n -> keeps (fun x => x = t \/ x = n) U s' -> settled s' L' -> Q r s') ->
  (forall s', s'.(system_ticks) = U.(system_ticks) -> ~ preempted U L (here U) t -> settled s' L ->
     (s'.(cpus) (here U)).(current) = Some t -> keeps (eq t) U s' ->
     data (s'.(tasks) t) = data (set_t_frame (Some frame) (slice_used (U.(tasks) t))) -> Q (Some frame) s') ->
  wp (st <- get_task t t_state ;;
      if bool_decide (st <> TASK_RUNNING) then scheduler_schedule_cpu (here U) frame true
      else
        upd_task t (fun k => set_ticks_in_slice (u32 (k.(ticks_in_slice) + 1)) k) ;;;
        k <- gets (fun s => s.(tasks) t) ;;
        let slice := scheduler_priority_timeslice k.(t_priority) in
        higher <- (if slice <=? k.(ticks_in_slice) then ret true
                   else scheduler_cpu_has_higher_priority_runnable (here U) k.(t_priority)) ;;
        if higher : bool then
          scheduler_trace_counter_inc preemptions ;;;
          scheduler_schedule_cpu (here U) frame true
        else
          upd_task t (set_t_frame (Some frame)) ;;;
          ret (Some frame))
    (fun r s' => s'.(eflags) = cli s.(eflags) /\ Q r (unlocked s s')) s2.
Proof.
  intros Hi SU HU Hlk Hef Hcur Hpre Hstay. destruct (settled_running U L t SU Hcur) as (_ & Hv & Hun & Hst).
  assert (Hs2 : s2.(tasks) = U.(tasks) /\ s2.(cpus) = U.(cpus) /\ s2.(lists) = U.(lists) /\
    s2.(system_ticks) = U.(system_ticks)) by (by subst U). destruct Hs2 as (Ht2 & Hc2 & Hl2 & Hk2).
  unfold get_task, upd_task. do 3 wp_step.
  { exfalso. apply bool_decide_eq_true in E. apply E. by rewrite Ht2. }
  do 4 wp_step. set (s3 := set_tasks _ s2). set (k := slice_used (U.(tasks) t)).
  assert (T3 : s3.(tasks) t = k) by (simpl; by rewrite upd_eq, Ht2). rewrite T3. cbv zeta.
  assert (O3 : forall x, x <> t -> s3.(tasks) x = U.(tasks) x) by (intros x Hx; simpl; by rewrite upd_ne, Ht2).
  assert (P3 : forall x, same_place (U.(tasks) x) (s3.(tasks) x)).
  { intros x. destruct (decide (x = t)) as [->|Hx]; [by rewrite T3|by rewrite O3]. }
  assert (S3 : settled (unlocked s s3) L).
  { apply (settled_tweak U); try done; try (by subst U). split; [done|apply Hi]. }
  assert (C3 : core s3 L).
  { apply (core_tweak (unlocked s s3)); try done. apply S3. }
  assert (E3 : same_env (locked (unlocked s s3)) s3) by (split; done).
  assert (Hpr : forall b : bool, (b = true <-> preempted U L (here U) t) ->
    wp (if b then scheduler_trace_counter_inc preemptions ;;; scheduler_schedule_cpu (here U) frame true
        else modify (fun s => set_tasks (upd s.(tasks) t (set_t_frame (Some frame) (s.(tasks) t))) s) ;;; ret (Some frame))
      (fun r s' => s'.(eflags) = cli s.(eflags) /\ Q r (unlocked s s')) s3).
  { intros b Hb. destruct (here_ok U L) as [HcU HonU]; [apply SU|apply SU|]. destruct b.
    - wp_step. apply counter_inc_quiet. intros s4 H4.
      apply (schedule_running s4 L (here U) t); [by eapply core_quiet| | | |].
      + split; [by rewrite (qu_cpus _ _ H4); simpl; rewrite Hc2|]. split; [done|]. split; [done|].
        rewrite (qu_tasks _ _ H4), T3. done.
      + rewrite (se_count _ _ (qu_env _ _ H4)). by subst U.
      + rewrite (qu_cpus _ _ H4). simpl. by rewrite Hc2.
      + intros r s5 L5 n Hr.
        assert (Ho : handover (locked (unlocked s s3)) L (here U) (Some t) n s5 L5).
        { eapply handover_base; [| |by eapply rescheduled_handover].
          - by rewrite (qu_tasks _ _ H4).
          - etransitivity; [exact E3|apply H4]. }
        destruct (handover_unlock s (unlocked s s3) L (here U) (Some t) n s5 L5 Hi) as [Ho' He5]; [done|done|exact Ho|].
        split; [done|]. destruct Hr as [(p & q & l & Hp & Hbest & HL5) _ _ _ E5 K5 R5 Sl5 F5 V5].
        rewrite (qu_tasks _ _ H4), T3 in Hp. cbv zeta in *. change (t_priority k) with (t_priority (U.(tasks) t)) in Hp.
        assert (Hk5 : s5.(system_ticks) = U.(system_ticks)).
        { rewrite (se_ticks _ _ E5). simpl. by rewrite (se_ticks _ _ (qu_env _ _ H4)). }
        assert (O4 : forall x, x <> t -> s4.(tasks) x = U.(tasks) x) by (intros x Hx; rewrite (qu_tasks _ _ H4); auto).
        subst p. eapply Hpre; [done|by apply Hb|exact Hbest|exact HL5| | |].
        * split; try done.
          -- destruct (se_cpus _ _ (ho_env _ _ _ _ _ _ _ Ho') (here U)) as (_ & _ & _ & ->). simpl. by rewrite upd_eq.
          -- rewrite F5. destruct (decide (n = t)) as [|Hne]; [done|by rewrite O4].
          -- intros Hne. simpl. rewrite (V5 Hne), (qu_tasks _ _ H4), T3, (qu_cpus _ _ H4), Hk5. simpl. rewrite Hc2.
             rewrite (se_ticks _ _ (qu_env _ _ H4)). simpl. by rewrite Hk2.
        * intros x Hx. simpl. rewrite (K5 x Hx), O4; [done|]. intros ->. tauto.
        * eapply (handover_settled (unlocked s s3)); [done| |simpl; by rewrite Hc2|exact Ho'].
          unfold cpu_index in *. by subst U.
    - do 3 wp_step. split; [done|]. apply Hstay; [done| | | | |].
      + intros Hp. by apply Hb in Hp.
      + apply (settled_tweak (unlocked s s3)); try done; [|split; [done|apply Hi]].
        intros x. simpl. destruct (decide (x = t)) as [->|Hx]; rewrite ?upd_eq, ?upd_ne by done; done.
      + simpl. by rewrite Hc2.
      + intros x Hx. simpl. rewrite !upd_ne by congruence. by rewrite Ht2.
      + simpl. by rewrite upd_eq, upd_eq, Ht2. }
  unfold preempted in Hpr. fold k in Hpr. wp_step. destruct (Z.leb_spec (scheduler_priority_timeslice k.(t_priority)) k.(ticks_in_slice)).
  - wp_step. apply (Hpr true). split; [intros _; by left|done].
  - apply (has_higher_spec s3 L); [done| |intros Hh; apply (Hpr true); split; [by right|done]|].
    + apply (core_unsigned _ _ (stl_core _ _ SU) t).
    + intros Hh. apply (Hpr false). split; [done|]. intros [Hs|(q & Hq & Hne)]; [lia|]. by rewrite Hh in Hne.
Qed.

Lemma ticked_settled s L : settled s L -> settled (ticked s) L.
Proof. intros S. apply (settled_tweak s); try done. apply S. Qed.

Lemma data_preempted s s' L cpu t :
  data (s'.(tasks) t) = data (s.(tasks) t) -> preempted s' L cpu t <-> preempted s L cpu t.
Proof.
  intros D. unfold preempted, slice_used. cbv zeta. simpl.
  pose proof (f_equal ticks_in_slice D) as H1. pose proof (f_equal t_priority D) as H2. simpl in H1, H2.
  by rewrite H1, H2.
Qed.

(** The same from the state before the timers and the balancer ran. *)
Lemma taken_over_before s U t frame r s' n :
  here U = here s -> same_cpu (s.(cpus) (here s)) (U.(cpus) (here s)) -> data (U.(tasks) t) = data (s.(tasks) t) ->
  (n <> t -> (U.(tasks) n).(t_frame) = (s.(tasks) n).(t_frame)) ->
  taken_over U t frame r s' n -> taken_over s t frame r s' n.
Proof.
  intros Hh Hc Ht Hn [H1 H2 H3 H4 H5]. rewrite Hh in *. split; try done.
  - rewrite H4. case_decide; auto.
  - intros Hne. rewrite (H5 Hne), (enqueued_same_cpu _ _ _ _ Hc). apply data_enqueued.
    revert Ht. generalize (U.(tasks) t) (s.(tasks) t). intros [] [] [= ]. by subst.
Qed.

(** The scheduler, locked, after the timers fired and the balancer ran. *)
Record tick_prepared (s : sched) (L : list_ref -> list task_ref) (s2 : sched) (L1 L2 : list_ref -> list task_ref) : Prop := {
  tp_core : core s2 L2;
  tp_shuffle : shuffle (locked (ticked s)) L s2 L2;
  tp_fired : timers_fired (ticked s) L L1;
  tp_balanced : if decide (here s = s.(boot_cpu_id)) then balanced s L1 L2 else L2 = L1;
  tp_rest : forall x, unplaced (s2.(tasks) x) = unplaced (fired (ticked s) L x)
}.

Lemma tick_front {A} s L t (K : Z -> option task_ref -> M sched A) (Q : A -> sched -> Prop) :
  settled s L -> (s.(cpus) (here s)).(current) = Some t ->
  (forall s2 L1 L2, tick_prepared s L s2 L1 L2 -> wp (K (here s) (Some t)) Q s2) ->
  wp (modify (fun s => set_system_ticks (u32 (s.(system_ticks) + 1)) s) ;;;
      scheduler_trace_counter_inc timer_ticks ;;;
      scheduler_advance_timers ;;;
      cpu <- scheduler_current_cpu_state ;;
      cur <- get_cpu cpu current ;;
      id <- get_cpu cpu c_id ;;
      boot <- gets boot_cpu_id ;;
      (if id =? boot then due <- scheduler_should_balance_now ;; when due scheduler_balance_periodic else ret tt) ;;;
      K cpu cur) Q (locked s).
Proof.
  intros S Hcur HK. do 3 wp_step.
  change (set_system_ticks (u32 (system_ticks (locked s) + 1)) (locked s)) with (locked (ticked s)).
  pose proof (core_locked _ _ (stl_core _ _ (ticked_settled s L S))) as CT.
  apply counter_inc_quiet. intros s0 H0. wp_step.
  apply (timers_spec s0 L); [by eapply core_quiet|]. intros s1 L1 C1 F1 TF1 M1. wp_step.
  assert (F01 : shuffle (locked (ticked s)) L s1 L1).
  { eapply shuffle_trans; [|exact F1]. eapply shuffle_quiet; [apply shuffle_refl|exact H0]. }
  pose proof (sf_env _ _ _ _ F01) as E1.
  eapply current_cpu_state; [done|]. pose proof (env_here _ _ E1) as Hh1. change (here (locked (ticked s))) with (here s) in Hh1.
  rewrite Hh1. unfold get_cpu. do 6 wp_step.
  assert (Hcur1 : current (s1.(cpus) (here s)) = Some t) by (by destruct (se_cpus _ _ E1 (here s)) as (_ & _ & _ & ->)).
  assert (Hid : c_id (s1.(cpus) (here s)) = here s).
  { apply (core_id _ _ C1). rewrite (se_count _ _ E1). by apply (settled_here s L). }
  rewrite Hcur1, Hid, (se_boot _ _ E1). change (boot_cpu_id (locked (ticked s))) with (boot_cpu_id s). wp_step.
  apply (tick_balance s1 L1); [done|]. intros s2 L2 R2 HL2. apply (HK s2 L1 L2).
  assert (HR1 : forall x, unplaced (s1.(tasks) x) = unplaced (fired (ticked s) L x)) by (intros x; rewrite M1; exact (fired_quiet _ _ L x H0)).
  split; [apply R2|eapply shuffle_trans; [exact F01|apply R2]|by destruct (timers_fired_quiet _ _ _ _ H0 TF1)| |].
  - destruct (decide (here s = s.(boot_cpu_id))) as [Eb|Nb]; [|apply HL2; by apply Z.eqb_neq].
    split; [apply R2|]. split; [apply R2|]. intros x c p Hx. destruct (rb_place _ _ _ _ R2 x c p Hx) as [?|[Hm Ho]]; [by left|right].
    destruct (unplaced_fields _ _ (HR1 x)) as [Hmask _]. rewrite Hmask in Hm. destruct (fired_fields (ticked s) L x) as [Hf _]. rewrite Hf in Hm.
    by destruct (se_cpus _ _ E1 c) as (_ & _ & Hon & _); rewrite Hon in Ho.
  - intros x. etransitivity; [apply (rb_rest _ _ _ _ R2)|apply HR1].
Qed.

(** C2: the timer interrupt.  The clock advances by one; the sleepers and the
    timed waiters that are due, and only they, go to their home run queues in
    order; on the boot processor the balancer may move runnable tasks between
    online processors of their affinity masks, without changing their priority;
    then the current task keeps the processor exactly when its time slice is not
    used up and no task of a higher priority is runnable there: its slice is then
    one tick older and the interrupted frame is returned.  Otherwise it goes to the
    back of its queue with the interrupted frame saved, and the best runnable task
    takes over with a fresh slice, its own saved frame being returned.  The records
    of the others change only where they were woken or moved.  The scheduler stays
    consistent. *)
Theorem timer_tick_correct s L t frame :
  settled s L -> (s.(cpus) (here s)).(current) = Some t ->
  exists r s' L', scheduler_on_timer_tick frame s = Done r s' /\ settled s' L' /\ clock_tick s L t frame r s' L'.
Proof.
  intros S Hcur. pose proof (stl_idle _ _ S) as Hi.
  destruct (settled_running s L t S Hcur) as (_ & Hv & Hun & Hst).
  assert (H : wp (scheduler_on_timer_tick frame) (fun r s' => exists L', settled s' L' /\ clock_tick s L t frame r s' L') s).
  2: { apply wp_Done in H as (r & s' & Hrun & L' & H1 & H2). by exists r, s', L'. }
  unfold scheduler_on_timer_tick. apply wp_sched_locked; [done|]. apply (tick_front s L t); [done|done|].
  intros s2 L1 L2 [C2 F02 HTF HB HRU]. pose proof (ticked_settled s L S) as ST. pose proof (sf_env _ _ _ _ F02) as E2.
  destruct (shuffle_unlock (ticked s) L s2 L2 (stl_idle _ _ ST) F02) as [FU He2].
  set (U := unlocked s s2). assert (SU : settled U L2) by (eapply shuffle_settled; [exact ST|by apply core_unlocked|exact FU]).
  assert (HhU : here U = here s) by exact (env_here _ _ (sf_env _ _ _ _ FU)).
  assert (DU : data (U.(tasks) t) = data (s.(tasks) t)) by (by apply (sf_data _ _ _ _ FU)).
  assert (HPU : preempted U L2 (here U) t <-> preempted s L2 (here s) t) by (rewrite HhU; by apply data_preempted).
  assert (HFU : forall x, (U.(tasks) x).(t_frame) = (s.(tasks) x).(t_frame)).
  { intros x. destruct (unplaced_fields _ _ (HRU x)) as [_ Hf]. etransitivity; [exact Hf|apply (fired_fields (ticked s))]. }
  assert (HkU : U.(system_ticks) = u32 (s.(system_ticks) + 1)) by exact (se_ticks _ _ (sf_env _ _ _ _ FU)).
  rewrite <- HhU. apply (tick_dispatch s U s2 L2 t frame
    (fun r s' => exists L', settled s' L' /\ clock_tick s L t frame r s' L')); try done.
  - exact (se_lock _ _ E2).
  - destruct (se_cpus _ _ (sf_env _ _ _ _ FU) (here U)) as (_ & _ & _ & Hc). rewrite HhU in *. etransitivity; [exact Hc|exact Hcur].
  - intros r s' Hk Hp q n l L' p L3 Hbest HL' Ho K' S'. exists L'. split; [done|].
    apply (taken_over_before s) in Ho; [|done|exact (se_cpus _ _ (sf_env _ _ _ _ FU) (here s))|done|done].
    split; [by rewrite Hk| |].
    2: { intros x Hx Hc. rewrite (unplaced_data _ _ (K' x ltac:(intros [?| ->]; [done|]; by apply Hc, Ho))). apply HRU. }
    exists L1, L2. split; [done|]. split; [done|]. subst L3 p. rewrite HhU in *.
    split; [|intros Hnp; exfalso; by apply Hnp, HPU].
    intros _. exists q, n, l. pose proof (f_equal t_priority DU) as Hpr. simpl in Hpr. by rewrite <- Hpr.
  - intros s' Hk Hp S' Hn K' D'. exists L2. split; [done|]. split; [by rewrite Hk| |].
    2: { intros x Hx _. rewrite (unplaced_data _ _ (K' x ltac:(congruence))). apply HRU. }
    exists L1, L2. split; [done|]. split; [done|]. rewrite HhU in *. split; [intros Hpp; by apply HPU in Hpp|].
    intros _. split; [done|]. split; [done|]. split; [done|]. rewrite D'.
    revert DU. generalize (U.(tasks) t) (s.(tasks) t). intros [] [] [= ]. by subst.
Qed.

Lemma timer_tick_correct_witness :
  exists r s' L', scheduler_on_timer_tick 0xC0107F00 booted = Done r s' /\ settled s' L' /\
    clock_tick booted booted_lists 0 0xC0107F00 r s' L'.
Proof. apply timer_tick_correct; [exact booted_settled|exact booted_current]. Defined.

(** ** Leaving for good *)












(** ** Nothing left to run *)

Lemma yield_alone s L t frame :
  core s L -> idle s -> 0 <= s.(this_cpu) -> (s.(cpus) (here s)).(current) = Some t ->
  (s.(tasks) t).(t_state) <> TASK_RUNNING -> no_runnable L (here s) ->
  panics (scheduler_on_yield frame) "scheduler: cpu %u has no runnable tasks" s.
Proof.
  intros C Hi Ht Hcur Hst Hno. unfold scheduler_on_yield, with_scheduler_lock.
  destruct (here_ok s L C Ht) as [Hc Hon].
  apply panics_bind, wp_lock; [done|]. apply panics_bind_l, panics_bind, counter_inc_quiet. intros s0 H0.
  pose proof (core_quiet _ _ _ H0 (core_locked _ _ C)) as C0.
  apply panics_bind. eapply current_cpu_state; [done|]. rewrite (env_here _ _ (qu_env _ _ H0)).
  change (here (locked s)) with (here s). unfold scheduler_schedule_cpu, get_cpu, get_task, upd_task, is_running, get_task.
  apply panics_bind. wp_step. rewrite (qu_cpus _ _ H0). change (cpus (locked s)) with (cpus s). rewrite Hcur.
  apply panics_bind, counter_inc_quiet. intros s1 H1. pose proof (core_quiet _ _ _ H1 C0) as C1.
  apply panics_bind. wp_step. fold (with_frame s1 t frame). apply panics_bind. do 3 wp_step.
  assert (Hst1 : t_state (tasks (with_frame s1 t frame) t) <> TASK_RUNNING).
  { simpl. rewrite upd_eq. simpl. rewrite (qu_tasks _ _ H1), (qu_tasks _ _ H0). exact Hst. }
  rewrite bool_decide_eq_false_2 by done. change (false && negb true) with false. apply panics_bind. wp_step. cbv iota.
  apply panics_bind. unfold when. wp_step.
  apply panics_bind. assert (C2 : core (with_frame s1 t frame) L) by (by apply core_with_frame).
  apply (dequeue_spec _ L (here s)); [done| | |].
  - simpl. by rewrite (se_count _ _ (qu_env _ _ H1)), (se_count _ _ (qu_env _ _ H0)).
  - intros _. unfold scheduler_switch_to_task, get_cpu, get_task. apply panics_bind. wp_step.
    replace (current (cpus (with_frame s1 t frame) (here s))) with (Some t)
      by (simpl; by rewrite (qu_cpus _ _ H1), (qu_cpus _ _ H0)).
    apply panics_bind. wp_step. rewrite decide_False by done. by eexists.
  - intros p x l s' Hb. exfalso. destruct Hb as (Hp & HL & _). by rewrite Hno in HL.
Qed.

(** A task that goes to sleep while no other task is runnable on its processor
    ends in the scheduler's panic: there is no idle task to fall back on. *)
Theorem sleep_alone_panics s L t ticks frame :
  settled s L -> (s.(cpus) (here s)).(current) = Some t -> 0 < ticks < 2 ^ 32 -> no_runnable L (here s) ->
  exists s', scheduler_sleep ticks frame s = Panic "scheduler: cpu %u has no runnable tasks" s'.
Proof.
  intros S Hcur Ht Hno. unfold scheduler_sleep. apply panics_bind.
  eapply (sleep_locked_spec s L t); [done|done|lia|]. intros s1 C1 E1 D1 T1. cbv iota.
  destruct (data_fields _ _ T1) as (Hst & _). pose proof (env_here _ _ E1) as Hh.
  apply (yield_alone s1 (upd L sleeping_list (L sleeping_list ++ [t])) t); rewrite ?Hh; [done| | | | |].
  - destruct (stl_idle _ _ S). split; [by rewrite (se_lock _ _ E1)|by rewrite (se_eflags _ _ E1)].
  - rewrite (se_this _ _ E1). apply S.
  - by destruct (se_cpus _ _ E1 (here s)) as (_ & _ & _ & ->).
  - by rewrite Hst.
  - intros q Hq. rewrite upd_ne by done. by apply Hno.
Qed.

Lemma sleep_alone_panics_witness :
  exists s', scheduler_sleep 10 0xC0107F00 lone = Panic "scheduler: cpu %u has no runnable tasks" s'.
Proof.
  apply (sleep_alone_panics lone lone_lists 0).
  - exact (proj1 lone_ok).
  - destruct lone_ok as (_ & H1 & H2). rewrite H1. exact H2.
  - lia.
  - destruct lone_ok as (_ & H1 & _). rewrite H1. by intros q _.
Defined.
