(* ===== verification/SchedRace.v ===== *)
(** Two processors: what can happen between the critical section of
    [scheduler_sleep] and its yield interrupt. *)
From S2P Require Import Prelude SchedData Sched SchedApi.
From Stdlib Require Import ZArith Lia.
Open Scope Z_scope.

(** The next steps run on processor [c]. *)
Definition on_cpu (c : Z) : M sched unit := modify (set_this_cpu c).

Definition two_cpus : scheduler_topology_config := mk_topology 2 0 1 (fun _ => 0) (fun i => i <? 2).

(** Tasks that may only run on processor 1. *)
Definition pinned : option scheduler_task_config :=
  Some (mk_task_config SCHEDULER_PRIORITY_NORMAL 2 SCHEDULER_NUMA_NODE_ANY).

Fixpoint times (n : nat) (m : M sched unit) : M sched unit :=
  match n with O => ret tt | S n' => m ;;; times n' m end.

Definition two_cpus_running : M sched unit :=
  scheduler_init ;;;
  scheduler_configure_topology two_cpus ;;;
  scheduler_bootstrap_current 1 1 0x8000 None ;;;
  modify (set_smp_available true) ;;;
  scheduler_bootstrap_secondary_current 1 1 0x9000 None ;;;
  scheduler_create_kernel_task_ex 0 (Some 2) (Some 0x10000) None (Some 1) 0 pinned ;;;
  scheduler_create_kernel_task_ex 0 (Some 3) (Some 0x20000) None (Some 1) 0 pinned ;;;
  ret tt.

(** Processor 1 goes to sleep for one tick but is held up before [int 48]; the
    clock of processor 0 ticks twenty times meanwhile. *)
Definition delayed_yield : M sched unit :=
  two_cpus_running ;;;
  on_cpu 1 ;;; scheduler_sleep_locked 1 ;;;
  on_cpu 0 ;;; times 20 (scheduler_on_timer_tick 0x7000 ;;; ret tt).

(** The tasks the processors run. *)
Definition currents (o : outcome sched unit) : option (option task_ref * option task_ref) :=
  match o with
  | Done _ s => Some ((s.(cpus) 0).(current), (s.(cpus) 1).(current))
  | _ => None
  end.

(** [scheduler_sleep] releases the lock after listing the current task and
    before the yield interrupt.  In that window the clock of another processor can
    wake the task and the balancer can migrate it, so that one task is current on
    two processors at once. *)
Theorem sleep_window_double_run : currents (delayed_yield cold_sched) = Some (Some 1, Some 1).
Proof. vm_compute. reflexivity. Qed.

(** ** Joining a task *)

(** Three tasks on one processor: the bootstrap task (id 1) and two more (2, 3). *)
Definition three_tasks : M sched unit :=
  scheduler_init ;;;
  scheduler_bootstrap_current 1 1 0x8000 None ;;;
  scheduler_create_kernel_task 0 (Some 2) (Some 0x10000) None (Some 1) 0 ;;;
  scheduler_create_kernel_task 0 (Some 3) (Some 0x20000) None (Some 1) 0 ;;;
  ret tt.

Definition join_token : Z := 0x5000.

(** Task 1 joins task 2 without a timeout.  Its round finds the task alive; before
    it waits, its slice ends, task 2 runs and exits, and task 1 is resumed. *)
Definition late_join : M sched join_step :=
  three_tasks ;;;
  scheduler_join_enter 2 SCHEDULER_WAIT_FOREVER ;;;
  step <- scheduler_join_round 1 2 SCHEDULER_WAIT_FOREVER 0 ;;
  times 5 (scheduler_on_timer_tick 0x7000 ;;; ret tt) ;;;
  scheduler_exit_current join_token 0x7100 ;;;
  scheduler_yield 0x7200 ;;;
  scheduler_wait_channel (Some join_token) SCHEDULER_WAIT_FOREVER 0x7300 ;;;
  ret step.

(** The step the join took, and the states and deadline of tasks 1 and 2. *)
Definition join_result (o : outcome sched join_step) : option (join_step * task_state * Z * task_state) :=
  match o with
  | Done step s => Some (step, (s.(tasks) 0).(t_state), (s.(tasks) 0).(wakeup_tick), (s.(tasks) 1).(t_state))
  | _ => None
  end.

(** [scheduler_join_task] decides to wait under the lock but starts waiting
    after releasing it.  If the task exits in between, its wakeup finds nobody: the
    joiner blocks without a deadline although the task it joins is already dead. *)
Theorem join_lost_wakeup :
  join_result (late_join cold_sched) = Some (JoinWait SCHEDULER_WAIT_FOREVER, TASK_BLOCKED, 0, TASK_ZOMBIE).
Proof. vm_compute. reflexivity. Qed.
