(* ===== verification/Strings.v ===== *)
(** The C library's memory and string functions: libc/string/*.c.

    Memory is byte-addressed; a pointer is an address.  The functions that look
    for a terminator take a bound on the steps; running out of it is [Spin]. *)
From S2P Require Import Prelude.
From Stdlib Require Import ZArith Lia.
Open Scope Z_scope.

(** ** Operations *)

Definition byte_at (p : Z) : M memory Z := gets (fun m => read_u8 m p).
Definition mem_set (m : memory) (p v : Z) : memory := fun x => if x =? p then v else m x.
Definition store_byte (p v : Z) : M memory unit := modify (fun m => mem_set m p (u8 v)).

Definition copy_byte (dst src i : Z) : M memory unit :=
  v <- byte_at (src + i) ;; store_byte (dst + i) v.

Definition memcpy (dst src size : Z) : M memory Z :=
  for_each 0 size (copy_byte dst src) ;;; ret dst.

Definition memmove (dst src size : Z) : M memory Z :=
  (if dst <? src then for_each 0 size (copy_byte dst src)
   else for_each 0 size (fun j => let i := size - j in copy_byte dst src (i - 1))) ;;;
  ret dst.

Definition memset (buf value size : Z) : M memory Z :=
  for_each 0 size (fun i => store_byte (buf + i) value) ;;; ret buf.

Definition memcmp (a b size : Z) : M memory Z :=
  r <- for_range 0 size (fun i =>
    x <- byte_at (a + i) ;;
    y <- byte_at (b + i) ;;
    ret (if x <? y then Some (-1) else if y <? x then Some 1 else None)) ;;
  ret (default 0 r).

Fixpoint strlen_loop (fuel : nat) (str len : Z) : M memory Z :=
  match fuel with
  | O => fun _ => Spin
  | S fuel' =>
      c <- byte_at (str + len) ;;
      if c =? 0 then ret len else strlen_loop fuel' str (len + 1)
  end.

Definition strlen (fuel : nat) (str : Z) : M memory Z := strlen_loop fuel str 0.

Fixpoint strcmp (fuel : nat) (left right : Z) : M memory Z :=
  match fuel with
  | O => fun _ => Spin
  | S fuel' =>
      x <- byte_at left ;;
      y <- byte_at right ;;
      if negb (x =? 0) && (x =? y) then strcmp fuel' (left + 1) (right + 1) else ret (x - y)
  end.

Definition strncmp (left right count : Z) : M memory Z :=
  r <- for_range 0 count (fun i =>
    x <- byte_at (left + i) ;;
    y <- byte_at (right + i) ;;
    ret (if negb (x =? y) || (x =? 0) || (y =? 0) then Some (x - y) else None)) ;;
  ret (default 0 r).

(** ** Copying *)

(** [m'] is [m] with the [n] bytes at [src] of [m] also at [dst]. *)
Definition copied (m : memory) (dst src n : Z) (m' : memory) : Prop :=
  forall x, m' x = if (dst <=? x) && (x <? dst + n) then read_u8 m (src + (x - dst)) else m x.

Lemma read_u8_set m p v x : read_u8 (mem_set m p (u8 v)) x = if x =? p then u8 v else read_u8 m x.
Proof.
  unfold read_u8, mem_set. destruct (x =? p); [|done]. unfold wrap. by rewrite Z.mod_mod.
Qed.

Lemma copy_byte_wp dst src i (Q : unit -> memory -> Prop) m :
  Q tt (mem_set m (dst + i) (u8 (read_u8 m (src + i)))) -> wp (copy_byte dst src i) Q m.
Proof. intros H. unfold copy_byte, byte_at, store_byte. do 3 wp_step. exact H. Qed.

Lemma read_u8_idem m p : u8 (read_u8 m p) = read_u8 m p.
Proof. apply wrap_small, read_u8_fits. Qed.

(** Copying upwards is right when no source byte is overwritten before it is read. *)
Lemma copy_forward dst src size (Q : unit -> memory -> Prop) m :
  0 <= size -> (dst <= src \/ src + size <= dst) ->
  (forall m', copied m dst src size m' -> Q tt m') -> wp (for_each 0 size (copy_byte dst src)) Q m.
Proof.
  intros Hs Hd HQ. apply (wp_for_each _ _ _ (fun i m' => copied m dst src i m')); [done| | |done].
  - intros x. replace ((dst <=? x) && (x <? dst + 0)) with false by lia. done.
  - intros i m' Hi Hc. apply copy_byte_wp. intros x. rewrite read_u8_idem. unfold mem_set.
    assert (Hsrc : read_u8 m' (src + i) = read_u8 m (src + i)).
    { unfold read_u8. rewrite Hc. by replace ((dst <=? src + i) && (src + i <? dst + i)) with false by lia. }
    destruct (Z.eqb_spec x (dst + i)) as [->|Hne].
    + replace ((dst <=? dst + i) && (dst + i <? dst + (i + 1))) with true by lia.
      rewrite Hsrc. f_equal. lia.
    + rewrite Hc. replace (x <? dst + (i + 1)) with (x <? dst + i) by lia. done.
Qed.

(** Copying downwards is right when the destination does not start below the source. *)
Lemma copy_backward dst src size (Q : unit -> memory -> Prop) m :
  0 <= size -> src <= dst ->
  (forall m', copied m dst src size m' -> Q tt m') ->
  wp (for_each 0 size (fun j => let i := size - j in copy_byte dst src (i - 1))) Q m.
Proof.
  intros Hs Hd HQ.
  apply (wp_for_each _ _ _ (fun j m' => forall x,
    m' x = if (dst + (size - j) <=? x) && (x <? dst + size) then read_u8 m (src + (x - dst)) else m x)); [done| | |].
  - intros x. replace ((dst + (size - 0) <=? x) && (x <? dst + size)) with false by lia. done.
  - intros j m' Hj Hc. cbv zeta. apply copy_byte_wp. intros x. rewrite read_u8_idem. unfold mem_set.
    assert (Hsrc : read_u8 m' (src + (size - j - 1)) = read_u8 m (src + (size - j - 1))).
    { unfold read_u8. rewrite Hc.
      by replace ((dst + (size - j) <=? src + (size - j - 1)) && (src + (size - j - 1) <? dst + size)) with false by lia. }
    destruct (Z.eqb_spec x (dst + (size - j - 1))) as [->|Hne].
    + replace ((dst + (size - (j + 1)) <=? dst + (size - j - 1)) && (dst + (size - j - 1) <? dst + size)) with true by lia.
      rewrite Hsrc. f_equal. lia.
    + rewrite Hc. replace (dst + (size - (j + 1)) <=? x) with (dst + (size - j) <=? x) by lia. done.
  - intros m' Hc. apply HQ. intros x. rewrite Hc. by replace (dst + (size - size)) with dst by lia.
Qed.

(** [memmove] copies correctly whatever the overlap: afterwards the [size]
    bytes at [dst] are the bytes that were at [src] before the call, and every other
    byte is unchanged; it returns [dst]. *)
Theorem memmove_correct dst src size m :
  0 <= size -> exists m', memmove dst src size m = Done dst m' /\ copied m dst src size m'.
Proof.
  intros Hs. assert (H : wp (memmove dst src size) (fun r m' => r = dst /\ copied m dst src size m') m).
  { unfold memmove. wp_step. destruct (Z.ltb_spec dst src).
    - apply copy_forward; [done|left; lia|]. intros m' Hc. by wp_step.
    - apply copy_backward; [done|done|]. intros m' Hc. by wp_step. }
  apply wp_Done in H as (r & m' & Hrun & -> & Hc). by exists m'.
Qed.

(** Five bytes at 100; the rest is zero. *)
Definition hello : memory := fun x => nth (Z.to_nat (x - 100)) [72; 101; 108; 108; 111] 0 * (if x <? 100 then 0 else 1).

Lemma memmove_correct_witness :
  exists m', memmove 102 100 5 hello = Done 102 m' /\ copied hello 102 100 5 m'.
Proof. apply memmove_correct. lia. Defined.

Lemma memcpy_spec dst src size m (Q : Z -> memory -> Prop) :
  0 <= size -> (dst <= src \/ src + size <= dst) ->
  (forall m', copied m dst src size m' -> Q dst m') -> wp (memcpy dst src size) Q m.
Proof.
  intros Hs Hd HQ. unfold memcpy. wp_step. apply copy_forward; [done|done|]. intros m' Hc. wp_step. by apply HQ.
Qed.

Lemma memset_spec buf value size m (Q : Z -> memory -> Prop) :
  0 <= size ->
  (forall m', (forall x, m' x = if (buf <=? x) && (x <? buf + size) then u8 value else m x) -> Q buf m') ->
  wp (memset buf value size) Q m.
Proof.
  intros Hs HQ. unfold memset. wp_step.
  apply (wp_for_each _ _ _ (fun i m' => forall x, m' x = if (buf <=? x) && (x <? buf + i) then u8 value else m x)); [done| | |].
  - intros x. replace ((buf <=? x) && (x <? buf + 0)) with false by lia. done.
  - intros i m' Hi Hc. unfold store_byte. wp_step. intros x. unfold mem_set.
    destruct (Z.eqb_spec x (buf + i)) as [->|Hne].
    + by replace ((buf <=? buf + i) && (buf + i <? buf + (i + 1))) with true by lia.
    + rewrite Hc. by replace (x <? buf + (i + 1)) with (x <? buf + i) by lia.
  - intros m' Hc. wp_step. by apply HQ.
Qed.

(** ** Strings *)

(** The bytes [l] (none zero), then a terminator, at [p]. *)
Fixpoint cstr (m : memory) (p : Z) (l : list Z) : Prop :=
  match l with
  | [] => read_u8 m p = 0
  | c :: l' => read_u8 m p = c /\ c <> 0 /\ cstr m (p + 1) l'
  end.

(** Lexicographic comparison of byte strings, as the difference of the first bytes
    that differ (0 past the end). *)
Fixpoint lex_diff (l1 l2 : list Z) : Z :=
  match l1, l2 with
  | [], [] => 0
  | [], y :: _ => - y
  | x :: _, [] => x
  | x :: l1', y :: l2' => if x =? y then lex_diff l1' l2' else x - y
  end.

Lemma strcmp_run m fuel : forall l1 l2 p q,
  cstr m p l1 -> cstr m q l2 -> (length l1 < fuel)%nat -> strcmp fuel p q m = Done (lex_diff l1 l2) m.
Proof.
  induction fuel as [|fuel IH]; intros l1 l2 p q H1 H2 Hf; [lia|]. cbn [strcmp]. unfold byte_at. run.
  destruct l1 as [|x l1], l2 as [|y l2]; simpl in *.
  - rewrite H1, H2. done.
  - destruct H2 as (H2 & Hy & _). rewrite H1, H2. simpl. run. done.
  - destruct H1 as (H1 & Hx & _). rewrite H1, H2. replace (negb (x =? 0) && (x =? 0)) with false by lia. run.
    by rewrite Z.sub_0_r.
  - destruct H1 as (H1 & Hx & H1'), H2 as (H2 & Hy & H2'). rewrite H1, H2.
    replace (negb (x =? 0)) with true by lia. simpl. destruct (Z.eqb_spec x y) as [->|Hne]; [|done].
    apply IH; [done|done|lia].
Qed.

Lemma lex_diff_zero l1 : forall l2,
  Forall (fun c => c <> 0) l1 -> Forall (fun c => c <> 0) l2 -> lex_diff l1 l2 = 0 <-> l1 = l2.
Proof.
  induction l1 as [|x l1 IH]; intros [|y l2] H1 H2; simpl; try done.
  - inversion H2; subst. split; [lia|done].
  - inversion H1; subst. split; [lia|done].
  - inversion H1; inversion H2; subst. destruct (Z.eqb_spec x y) as [->|Hne].
    + rewrite (IH l2) by done. split; congruence.
    + split; [lia|congruence].
Qed.

Lemma cstr_nonzero m p l : cstr m p l -> Forall (fun c => c <> 0) l.
Proof. revert p. induction l as [|c l IH]; intros p H; [done|]. destruct H as (_ & Hc & H). constructor; [done|by eapply IH]. Qed.

(** [strcmp] on two terminated strings ends, changes no byte, and returns the
    difference of the first bytes in which they differ; the result is zero exactly
    when the strings are equal. *)
Theorem strcmp_correct m fuel l1 l2 p q :
  cstr m p l1 -> cstr m q l2 -> (length l1 < fuel)%nat ->
  strcmp fuel p q m = Done (lex_diff l1 l2) m /\ (lex_diff l1 l2 = 0 <-> l1 = l2).
Proof.
  intros H1 H2 Hf. split; [by apply strcmp_run|]. apply lex_diff_zero; by eapply cstr_nonzero.
Qed.

Lemma strcmp_correct_witness :
  strcmp 6 100 102 hello = Done (lex_diff [72; 101; 108; 108; 111] [108; 108; 111]) hello /\
  (lex_diff [72; 101; 108; 108; 111] [108; 108; 111] = 0 <-> [72; 101; 108; 108; 111] = [108; 108; 111]).
Proof. apply strcmp_correct; [by vm_compute|by vm_compute|simpl; lia]. Defined.
