(* ===== verification/Vfs.v ===== *)
(** The file system: kernel/kernel/vfs.c.  The first boot module is a tar archive;
    the files are the entries of the archive, in place.

    [vmem] is the memory as the kernel addresses it; the array [files] is the list
    of its first [file_count] entries. *)
From S2P Require Import Prelude Bootinfo Strings.
From Stdlib Require Import ZArith Lia.
Open Scope Z_scope.

Definition VFS_MAX_FILES : Z := 32.
Definition TAR_BLOCK_SIZE : Z := 512.

Record vfs_node : Type := mk_vfs_node {
  node_name : Z;
  node_data : Z;
  node_size : Z
}.

Record vfs : Type := mk_vfs {
  vmem : memory;
  files : list vfs_node
}.

(** ** Reading the archive *)

(** Offsets in tar_header_t. *)
Definition tar_size_offset : Z := 124.
Definition tar_size_length : nat := 12.
Definition tar_typeflag_offset : Z := 156.

Fixpoint octal_loop (m : memory) (text : Z) (length : nat) (value : Z) : Z :=
  match length with
  | O => value
  | S length' =>
      let c := read_u8 m text in
      if c =? 0 then value
      else octal_loop m (text + 1) length'
             (if (c <? 48) || (55 <? c) then value else u32 (u32 (Z.shiftl value 3) + (c - 48)))
  end.

Definition tar_parse_octal (m : memory) (text : Z) (length : nat) : Z := octal_loop m text length 0.

Definition tar_block_is_zero (m : memory) (block : Z) : bool :=
  forallb (fun i => read_u8 m (block + i) =? 0) (seqZ 0 TAR_BLOCK_SIZE).

Definition normalize_name (m : memory) (raw_name : Z) : Z :=
  if (read_u8 m raw_name =? 46) && (read_u8 m (raw_name + 1) =? 47) then raw_name + 2 else raw_name.

(** The body of the loop: the entry at [cursor] is added; the result is the next
    cursor. *)
Definition load_entry (cursor : Z) : M vfs Z :=
  m <- gets vmem ;;
  let size := tar_parse_octal m (cursor + tar_size_offset) tar_size_length in
  let blocks := u32 (size + TAR_BLOCK_SIZE - 1) / TAR_BLOCK_SIZE in
  let data := u32 (cursor + TAR_BLOCK_SIZE) in
  modify (fun s =>
    if (Z.of_nat (length s.(files)) <? VFS_MAX_FILES) && negb (read_u8 m (cursor + tar_typeflag_offset) =? 53)
    then mk_vfs s.(vmem) (s.(files) ++ [mk_vfs_node (normalize_name m cursor) data size])
    else s) ;;;
  ret (u32 (cursor + u32 (TAR_BLOCK_SIZE + u32 (blocks * TAR_BLOCK_SIZE)))).

Fixpoint load_loop (fuel : nat) (cursor limit : Z) : M vfs unit :=
  m <- gets vmem ;;
  if negb (u32 (cursor + TAR_BLOCK_SIZE) <=? limit) || tar_block_is_zero m cursor then ret tt
  else match fuel with
       | O => fun _ => Spin
       | S fuel' => next <- load_entry cursor ;; load_loop fuel' next limit
       end.

(** Every entry of a well-formed archive takes at least a block. *)
Definition load_fuel (cursor limit : Z) : nat := Z.to_nat ((limit - cursor) / TAR_BLOCK_SIZE + 1).

Definition vfs_load_initrd_module (module_start module_end : Z) : M vfs unit :=
  cursor <- paging_phys_to_virt module_start ;;
  limit <- paging_phys_to_virt module_end ;;
  load_loop (load_fuel cursor limit) cursor limit.

Definition vfs_init (bi : bootinfo) : M vfs unit :=
  modify (fun s => mk_vfs s.(vmem) []) ;;;
  if bootinfo_module_count bi =? 0 then ret tt
  else
    module <- reading bi (bootinfo_module_at 0) ;;
    match module with
    | None => ret tt
    | Some m => vfs_load_initrd_module m.(mod_start) m.(mod_end)
    end.

(** ** Using the files *)

Definition vfs_file_count : M vfs Z := gets (fun s => Z.of_nat (length s.(files))).

Definition vfs_get_file (index : Z) : M vfs (option vfs_node) :=
  gets (fun s => if Z.of_nat (length s.(files)) <=? index then None else s.(files) !! Z.to_nat index).

(** Running a string function on the memory. *)
Definition on_memory {A} (f : M memory A) : M vfs A :=
  fun s => match f s.(vmem) with
           | Done a m => Done a (mk_vfs m s.(files))
           | Panic msg m => Panic msg (mk_vfs m s.(files))
           | Fault => Fault
           | Spin => Spin
           end.

(** [fuel] bounds the steps of [strcmp]. *)
Fixpoint open_loop (fuel : nat) (path : Z) (l : list vfs_node) : M vfs (option vfs_node) :=
  match l with
  | [] => ret None
  | node :: l' =>
      c <- on_memory (strcmp fuel node.(node_name) path) ;;
      if c =? 0 then ret (Some node) else open_loop fuel path l'
  end.

Definition vfs_open (fuel : nat) (path : Z) : M vfs (option vfs_node) :=
  fs <- gets files ;;
  open_loop fuel path fs.

Definition vfs_read (node : vfs_node) (offset buffer size : Z) : M vfs Z :=
  if node.(node_size) <=? offset then ret 0
  else
    let remaining := node.(node_size) - offset in
    let size := if remaining <? size then remaining else size in
    on_memory (memcpy buffer (node.(node_data) + offset) size) ;;;
    ret size.

(** ** Octal numbers *)

(** The [n] octal digits of [v], most significant first. *)
Fixpoint octal_digits (n : nat) (v : Z) : list Z :=
  match n with
  | O => []
  | S n' => octal_digits n' (v / 8) ++ [48 + v mod 8]
  end.

(** Memory holds [l] at [p]. *)
Fixpoint bytes_at (m : memory) (p : Z) (l : list Z) : Prop :=
  match l with
  | [] => True
  | c :: l' => read_u8 m p = c /\ bytes_at m (p + 1) l'
  end.

Lemma octal_digits_length n v : length (octal_digits n v) = n.
Proof. revert v. induction n as [|n IH]; intros v; [done|]. simpl. rewrite length_app, IH. simpl. lia. Qed.

Lemma bytes_at_app m p l1 l2 :
  bytes_at m p (l1 ++ l2) <-> bytes_at m p l1 /\ bytes_at m (p + Z.of_nat (length l1)) l2.
Proof.
  revert p. induction l1 as [|c l1 IH]; intros p; cbn [app bytes_at length].
  - rewrite Z.add_0_r. tauto.
  - rewrite IH. replace (p + Z.of_nat (S (length l1))) with (p + 1 + Z.of_nat (length l1)) by lia. tauto.
Qed.

(** Parsing digits, then whatever follows. *)
Lemma octal_loop_digits m n rest : forall v acc p,
  0 <= v < 8 ^ Z.of_nat n -> 0 <= acc -> acc * 8 ^ Z.of_nat n + v < 2 ^ 32 ->
  bytes_at m p (octal_digits n v) ->
  octal_loop m p (n + rest) acc = octal_loop m (p + Z.of_nat n) rest (acc * 8 ^ Z.of_nat n + v).
Proof.
  intros v acc p Hv Hacc Hlt Hb. revert p acc v rest Hv Hacc Hlt Hb.
  induction n as [|n IH]; intros p acc v rest Hv Hacc Hlt Hb.
  { simpl in *. f_equal; lia. }
  assert (Hpow : 8 ^ Z.of_nat (S n) = 8 * 8 ^ Z.of_nat n) by (rewrite Nat2Z.inj_succ, Z.pow_succ_r; lia).
  pose proof (Z.pow_pos_nonneg 8 (Z.of_nat n) ltac:(lia) ltac:(lia)).
  pose proof (Z.div_mod v 8 ltac:(lia)) as Hdm. pose proof (Z.mod_pos_bound v 8 ltac:(lia)) as Hmod.
  cbn [octal_digits] in Hb. apply bytes_at_app in Hb as [Hb1 [Hb2 _]]. rewrite octal_digits_length in Hb2.
  rewrite Hpow in *. replace (S n + rest)%nat with (n + S rest)%nat by lia.
  rewrite (IH p acc (v / 8) (S rest)); [|split; [apply Z.div_pos; lia|apply Z.div_lt_upper_bound; lia]|done| |done].
  2: { assert (v / 8 <= v) by (apply Z.div_le_upper_bound; lia). nia. }
  cbn [octal_loop]. rewrite Hb2. replace (48 + v mod 8 =? 0) with false by lia.
  replace ((48 + v mod 8 <? 48) || (55 <? 48 + v mod 8)) with false by lia.
  rewrite Z.shiftl_mul_pow2 by lia. change (2 ^ 3) with 8.
  set (a := acc * 8 ^ Z.of_nat n + v / 8). assert (Ha : a * 8 + v mod 8 = acc * (8 * 8 ^ Z.of_nat n) + v) by (unfold a; lia).
  assert (0 <= a) by (unfold a; assert (0 <= v / 8) by (apply Z.div_pos; lia); nia).
  rewrite (wrap_small 32 (a * 8)) by (unfold fits; lia).
  rewrite wrap_small by (unfold fits; lia). f_equal; lia.
Qed.

(** The octal digits of any 32-bit number, as tar writes them, terminated by a NUL,
    parse back to it. *)
Lemma tar_octal_parse m text v :
  0 <= v < 2 ^ 32 -> bytes_at m text (octal_digits 11 v ++ [0]) ->
  tar_parse_octal m text tar_size_length = v.
Proof.
  intros Hv Hb. apply bytes_at_app in Hb as [Hb [H0 _]]. rewrite octal_digits_length in H0.
  unfold tar_parse_octal, tar_size_length. change 12%nat with (11 + 1)%nat.
  assert (2 ^ 32 < 8 ^ Z.of_nat 11) by (vm_compute; done).
  rewrite (octal_loop_digits m 11 1 v 0); [|lia|lia|lia|done].
  cbn [octal_loop]. by rewrite H0.
Qed.

(** The header block of an archive whose one file has 2 bytes, at
    physical address 0x1000. *)
Definition tiny_archive : memory := fun x =>
  if x =? 0xC0001000 then 65
  else if (0xC000107C <=? x) && (x <? 0xC0001087) then nth (Z.to_nat (x - 0xC000107C)) (octal_digits 11 2) 0
  else if x =? 0xC0001200 then 104 else if x =? 0xC0001201 then 105 else 0.

(** ** Loading *)

(** The size of the contents, in whole blocks. *)
Definition padded (size : Z) : Z := (size + TAR_BLOCK_SIZE - 1) / TAR_BLOCK_SIZE * TAR_BLOCK_SIZE.

(** An entry of an archive as tar lays it out: its name, the size of its contents,
    and its type flag (the character 5, code 53, marks a directory). *)
Record tar_entry : Type := mk_tar_entry {
  te_name : list Z;
  te_size : Z;
  te_type : Z
}.

(** The header of an entry at [c]: its name, which is not empty, its size as eleven
    octal digits, each followed by a NUL, and its type. *)
Record tar_header_at (m : memory) (c : Z) (e : tar_entry) : Prop := {
  th_name : cstr m c e.(te_name);
  th_length : (0 < length e.(te_name) < 100)%nat;
  th_size : bytes_at m (c + 124) (octal_digits 11 e.(te_size) ++ [0]);
  th_type : read_u8 m (c + 156) = e.(te_type)
}.

(** An archive between [c] and [limit] with the given entries: each header is
    followed by the contents, padded to whole blocks, and a block of zeros or less
    than a block is left at the end. *)
Fixpoint archive (m : memory) (c limit : Z) (es : list tar_entry) : Prop :=
  match es with
  | [] => limit < c + 512 \/ forall i, 0 <= i < 512 -> read_u8 m (c + i) = 0
  | e :: es' =>
      tar_header_at m c e /\ 0 <= e.(te_size) /\ c + 512 + padded e.(te_size) <= limit /\
      archive m (c + 512 + padded e.(te_size)) limit es'
  end.

(** How much of a name is not shown: a leading "./". *)
Definition hidden (name : list Z) : Z := if decide (take 2 name = [46; 47]) then 2 else 0.

(** The files it holds: where their names and contents are. *)
Fixpoint archive_files (c : Z) (es : list tar_entry) : list vfs_node :=
  match es with
  | [] => []
  | e :: es' =>
      (if decide (e.(te_type) = 53) then [] else [mk_vfs_node (c + hidden e.(te_name)) (c + 512) e.(te_size)]) ++
      archive_files (c + 512 + padded e.(te_size)) es'
  end.

(** Their names, without the leading "./". *)
Definition file_names (es : list tar_entry) : list (list Z) :=
  map (fun e => drop (Z.to_nat (hidden e.(te_name))) e.(te_name)) (filter (fun e => e.(te_type) <> 53) es).

Lemma hidden_cases name : hidden name = 0 \/ exists l, name = 46 :: 47 :: l /\ hidden name = 2.
Proof.
  unfold hidden. case_decide as H; [right|by left]. destruct name as [|a [|b l]]; [done|done|].
  injection H as -> ->. by exists l.
Qed.

(** The header as the code reads it. *)
Lemma cstr_first m p l : cstr m p l -> l <> [] -> read_u8 m p <> 0.
Proof. destruct l as [|c l]; [done|]. intros (-> & H & _) _. exact H. Qed.

Lemma header_not_zero m c e : tar_header_at m c e -> tar_block_is_zero m c = false.
Proof.
  intros [H1 H2 _ _]. unfold tar_block_is_zero. rewrite (seqZ_cons 0 TAR_BLOCK_SIZE) by done. cbn [forallb].
  rewrite Z.add_0_r. assert (read_u8 m c <> 0) by (apply (cstr_first m c (te_name e)); [done|by destruct (te_name e); simpl in *; [lia|]]).
  by replace (read_u8 m c =? 0) with false by lia.
Qed.

Lemma zero_block m c : (forall i, 0 <= i < 512 -> read_u8 m (c + i) = 0) -> tar_block_is_zero m c = true.
Proof.
  intros H. unfold tar_block_is_zero, TAR_BLOCK_SIZE. apply forallb_forall. intros i Hi. apply list_elem_of_In, elem_of_seqZ in Hi.
  apply Z.eqb_eq, H. lia.
Qed.

Lemma header_name m c e : tar_header_at m c e -> normalize_name m c = c + hidden e.(te_name).
Proof.
  intros [H1 H2 _ _]. unfold normalize_name. destruct (te_name e) as [|a l]; [simpl in H2; lia|]. destruct H1 as (-> & Ha & Hl).
  destruct (hidden_cases (a :: l)) as [Hh|(l' & [= -> ->] & Hh)]; rewrite Hh.
  - destruct (Z.eqb_spec a 46) as [->|]; [|simpl; lia]. destruct l as [|b l].
    + cbn [cstr] in Hl. rewrite Hl. simpl. lia.
    + destruct Hl as (-> & Hb & _). destruct (Z.eqb_spec b 47) as [->|]; [by destruct l|simpl; lia].
  - destruct Hl as (-> & _). done.
Qed.

Lemma named_entry m c e : tar_header_at m c e -> cstr m (c + hidden e.(te_name)) (drop (Z.to_nat (hidden e.(te_name))) e.(te_name)).
Proof.
  intros [H1 _ _ _]. destruct (hidden_cases (te_name e)) as [->|(l & Hl & ->)]; [by rewrite Z.add_0_r|].
  rewrite Hl in *. destruct H1 as (_ & _ & _ & _ & H). by replace (c + 2) with (c + 1 + 1) by lia.
Qed.

(** The name of [node] is [l]. *)
Definition named (m : memory) (node : vfs_node) (l : list Z) : Prop := cstr m node.(node_name) l.

Lemma archive_named m limit es : forall c,
  archive m c limit es -> Forall2 (named m) (archive_files c es) (file_names es).
Proof.
  induction es as [|e es IH]; intros c Ha; [constructor|]. destruct Ha as (Hh & _ & _ & Ha). unfold file_names in *.
  cbn [archive_files]. rewrite filter_cons. destruct (decide (te_type e = 53)) as [Et|Et].
  - rewrite decide_False by (intros Hn; by apply Hn). simpl. by apply IH.
  - rewrite decide_True by done. simpl. constructor; [by apply named_entry|by apply IH].
Qed.

Lemma padded_bounds size : 0 <= size -> size <= padded size < size + TAR_BLOCK_SIZE /\ 0 <= padded size.
Proof.
  intros H. unfold padded, TAR_BLOCK_SIZE. pose proof (Z.div_mod (size + 512 - 1) 512 ltac:(lia)).
  pose proof (Z.mod_pos_bound (size + 512 - 1) 512 ltac:(lia)). lia.
Qed.

(** One entry: the cursor moves to the next header, without wrapping around. *)
Lemma load_entry_run s c limit size dir :
  limit + TAR_BLOCK_SIZE < 2 ^ 32 -> 0 <= c -> 0 <= size ->
  tar_parse_octal s.(vmem) (c + tar_size_offset) tar_size_length = size ->
  (read_u8 s.(vmem) (c + tar_typeflag_offset) =? 53) = dir ->
  c + TAR_BLOCK_SIZE + padded size <= limit ->
  load_entry c s = Done (c + TAR_BLOCK_SIZE + padded size)
    (mk_vfs s.(vmem) (if (Z.of_nat (length s.(files)) <? VFS_MAX_FILES) && negb dir
       then s.(files) ++ [mk_vfs_node (normalize_name s.(vmem) c) (c + TAR_BLOCK_SIZE) size] else s.(files))).
Proof.
  intros Hl Hc Hsz Hs Hd Hfit. pose proof (padded_bounds size Hsz) as Hp. unfold load_entry. run. rewrite Hs, Hd.
  unfold TAR_BLOCK_SIZE in *. rewrite (wrap_small 32 (size + 512 - 1)) by word_lia.
  change ((size + 512 - 1) / 512 * 512) with (padded size).
  rewrite (wrap_small 32 (padded size)) by word_lia. rewrite (wrap_small 32 (512 + padded size)) by word_lia.
  rewrite (wrap_small 32 (c + 512)) by word_lia. rewrite (wrap_small 32 (c + (512 + padded size))) by word_lia.
  replace (c + (512 + padded size)) with (c + 512 + padded size) by lia.
  destruct s as [mm fs]. simpl. by destruct (_ && _).
Qed.

Lemma take_snoc_full (l : list vfs_node) x r :
  take 32 ((if (Z.of_nat (length l) <? VFS_MAX_FILES) then l ++ [x] else l) ++ r) = take 32 (l ++ x :: r).
Proof.
  unfold VFS_MAX_FILES. destruct (Z.ltb_spec (Z.of_nat (length l)) 32).
  - by rewrite <- app_assoc.
  - by rewrite !take_app_le by lia.
Qed.

(** The same for the entry the header describes. *)
Lemma load_entry_header s c limit e :
  limit + TAR_BLOCK_SIZE < 2 ^ 32 -> 0 <= c -> 0 <= e.(te_size) -> tar_header_at s.(vmem) c e ->
  c + 512 + padded e.(te_size) <= limit ->
  load_entry c s = Done (c + 512 + padded e.(te_size))
    (mk_vfs s.(vmem) (if (Z.of_nat (length s.(files)) <? VFS_MAX_FILES) && negb (e.(te_type) =? 53)
       then s.(files) ++ [mk_vfs_node (c + hidden e.(te_name)) (c + 512) e.(te_size)] else s.(files))).
Proof.
  intros Hl Hc Hsz Hh Hfit. pose proof (padded_bounds _ Hsz) as Hp. rewrite <- (header_name _ _ _ Hh).
  apply (load_entry_run s c limit); try done.
  - apply tar_octal_parse; [unfold TAR_BLOCK_SIZE in *; lia|apply Hh].
  - unfold tar_typeflag_offset. by rewrite (th_type _ _ _ Hh).
Qed.

Lemma load_loop_run limit es : forall fuel c s,
  limit + TAR_BLOCK_SIZE < 2 ^ 32 -> 0 <= c <= limit -> archive s.(vmem) c limit es ->
  (length s.(files) <= 32)%nat -> (length es <= fuel)%nat ->
  load_loop fuel c limit s = Done tt (mk_vfs s.(vmem) (take 32 (s.(files) ++ archive_files c es))).
Proof.
  induction es as [|e es IH]; intros fuel c s Hl Hc Ha Hlen Hf.
  - assert (Hstop : negb (u32 (c + TAR_BLOCK_SIZE) <=? limit) || tar_block_is_zero s.(vmem) c = true).
    { cbn [archive] in Ha. unfold TAR_BLOCK_SIZE in *. rewrite wrap_small by word_lia. destruct Ha as [Ha|Ha]; [apply orb_true_iff; left; lia|].
      by rewrite (zero_block _ _ Ha), orb_true_r. }
    replace (mk_vfs s.(vmem) (take 32 (s.(files) ++ archive_files c []))) with s
      by (destruct s; simpl; rewrite app_nil_r, take_ge by done; done).
    destruct fuel; cbn [load_loop]; run; by rewrite Hstop.
  - destruct Ha as (Hh & Hsz & Hfit & Ha). destruct fuel as [|fuel]; [simpl in Hf; lia|].
    pose proof (padded_bounds _ Hsz) as Hp.
    cbn [load_loop]. run. rewrite (header_not_zero _ _ _ Hh), orb_false_r.
    replace (negb (u32 (c + TAR_BLOCK_SIZE) <=? limit)) with false
      by (symmetry; apply negb_false_iff; unfold TAR_BLOCK_SIZE in *; rewrite wrap_small by word_lia; lia).
    rewrite (run_bind_done _ _ _ _ _ (load_entry_header s c limit e Hl (proj1 Hc) Hsz Hh Hfit)). rewrite IH; simpl.
    + f_equal. f_equal. destruct (decide (te_type e = 53)) as [->|Et]; simpl; [by rewrite andb_false_r|].
      replace (te_type e =? 53) with false by lia. rewrite andb_true_r. apply take_snoc_full.
    + done.
    + lia.
    + done.
    + unfold VFS_MAX_FILES. destruct (Z.ltb_spec (Z.of_nat (length s.(files))) 32); simpl; [|lia].
      destruct (negb _); simpl; [|lia]. rewrite length_app. simpl. lia.
    + simpl in Hf. lia.
Qed.

(** There are no more entries than blocks. *)
Lemma archive_blocks m limit es : forall c,
  0 <= c <= limit -> archive m c limit es -> Z.of_nat (length es) * TAR_BLOCK_SIZE <= limit - c.
Proof.
  induction es as [|e es IH]; intros c Hc Ha; [simpl; lia|].
  destruct Ha as (_ & Hsz & Hfit & Ha). pose proof (padded_bounds _ Hsz) as Hp.
  specialize (IH (c + 512 + padded (te_size e)) ltac:(lia) Ha). unfold TAR_BLOCK_SIZE in *. cbn [length]. lia.
Qed.

Lemma vfs_load_run s start end_ es :
  start <= end_ < KERNEL_DIRECT_MAP_LIMIT_PHYS -> 0 <= start -> s.(files) = [] ->
  archive s.(vmem) (KERNEL_VMA + start) (KERNEL_VMA + end_) es ->
  vfs_load_initrd_module start end_ s =
    Done tt (mk_vfs s.(vmem) (take 32 (archive_files (KERNEL_VMA + start) es))).
Proof.
  intros He H0 Hf Ha. unfold vfs_load_initrd_module, paging_phys_to_virt, KERNEL_DIRECT_MAP_LIMIT_PHYS, KERNEL_VMA in *.
  replace (0x10000000 <=? start) with false by lia. replace (0x10000000 <=? end_) with false by lia. run.
  rewrite !wrap_small by word_lia. erewrite load_loop_run.
  - by rewrite Hf.
  - unfold TAR_BLOCK_SIZE. lia.
  - lia.
  - done.
  - rewrite Hf. simpl. lia.
  - pose proof (archive_blocks s.(vmem) (0xC0000000 + end_) es (0xC0000000 + start) ltac:(lia) Ha) as Hb. unfold load_fuel, TAR_BLOCK_SIZE in *.
    assert (Z.of_nat (length es) <= (0xC0000000 + end_ - (0xC0000000 + start)) / 512) by (apply Z.div_le_lower_bound; lia). lia.
Qed.

(** C39: loading a well-formed archive (each entry a header with a NUL-terminated
    name, its size in octal digits and a type, then its contents in whole blocks, and
    zeros or nothing at the end) ends and lists its files: the entries that are not
    directories, in order, the first 32 of them, each under its name without a
    leading "./", with its size and a pointer to its contents in place. *)
Theorem vfs_load_correct s start end_ es :
  start <= end_ < KERNEL_DIRECT_MAP_LIMIT_PHYS -> 0 <= start -> s.(files) = [] ->
  archive s.(vmem) (KERNEL_VMA + start) (KERNEL_VMA + end_) es ->
  let fs := take 32 (archive_files (KERNEL_VMA + start) es) in
  vfs_load_initrd_module start end_ s = Done tt (mk_vfs s.(vmem) fs) /\
  Forall2 (named s.(vmem)) fs (take 32 (file_names es)).
Proof.
  intros He H0 Hf Ha fs. split; [by apply vfs_load_run|]. apply Forall2_take. by eapply archive_named.
Qed.

(** An archive of the file "./A", which holds "hi", and the directory "d/". *)
Definition small_archive : memory := fun x =>
  nth (Z.to_nat (x - 0xC0001000))
    ([46; 47; 65] ++ repeat 0 121 ++ octal_digits 11 2 ++ repeat 0 21 ++ [48] ++ repeat 0 355 ++ [104; 105] ++ repeat 0 510 ++
     [100; 47] ++ repeat 0 122 ++ octal_digits 11 0 ++ repeat 0 21 ++ [53] ++ repeat 0 355) 0.

Lemma vfs_load_correct_witness :
  vfs_load_initrd_module 0x1000 0x1600 (mk_vfs small_archive []) =
    Done tt (mk_vfs small_archive [mk_vfs_node 0xC0001002 0xC0001200 2]) /\
  Forall2 (named small_archive) [mk_vfs_node 0xC0001002 0xC0001200 2] [[65]].
Proof.
  apply (vfs_load_correct (mk_vfs small_archive []) 0x1000 0x1600 [mk_tar_entry [46; 47; 65] 2 48; mk_tar_entry [100; 47] 0 53]).
  - by vm_compute.
  - lia.
  - done.
  - split; [split; [by vm_compute|simpl; lia|by vm_compute|by vm_compute]|]. split; [by vm_compute|]. split; [by vm_compute|].
    split; [split; [by vm_compute|simpl; lia|by vm_compute|by vm_compute]|]. split; [by vm_compute|]. split; [by vm_compute|].
    left. by vm_compute.
Defined.

(** ** Opening and reading *)

Lemma open_loop_run fuel path l s fs names :
  cstr s.(vmem) path l -> Forall2 (named s.(vmem)) fs names ->
  Forall (fun n => (length n < fuel)%nat) names ->
  open_loop fuel path fs s = Done (fst <$> List.find (fun p => bool_decide (snd p = l)) (combine fs names)) s.
Proof.
  intros Hp Hn Hf. induction Hn as [|node n fs names Hnode Hn IH]; [done|].
  inversion Hf as [|? ? Hlen Hf']; subst. cbn [open_loop].
  assert (Hrun : on_memory (strcmp fuel node.(node_name) path) s = Done (lex_diff n l) s).
  { unfold on_memory. rewrite (strcmp_run _ _ n l) by done. by destruct s. }
  rewrite (run_bind_done _ _ _ _ _ Hrun).
  pose proof (lex_diff_zero n l (cstr_nonzero _ _ _ Hnode) (cstr_nonzero _ _ _ Hp)) as Hz.
  cbn [combine List.find snd]. case_bool_decide as He.
  - by replace (lex_diff n l =? 0) with true by (symmetry; apply Z.eqb_eq; tauto).
  - replace (lex_diff n l =? 0) with false by (symmetry; apply Z.eqb_neq; tauto). by apply IH.
Qed.

(** Opening a path finds the first file of that name, and fails when there is
    none, and changes nothing; the loaded names and the path are terminated strings,
    the names shorter than the bound. *)
Theorem vfs_open_correct s path l names fuel :
  cstr s.(vmem) path l -> Forall2 (named s.(vmem)) s.(files) names ->
  Forall (fun n => (length n < fuel)%nat) names ->
  vfs_open fuel path s = Done (fst <$> List.find (fun p => bool_decide (snd p = l)) (combine s.(files) names)) s.
Proof. intros Hp Hn Hf. unfold vfs_open. run. by apply open_loop_run. Qed.

(** Two files, "A" and (in the contents of the first) "hi". *)
Definition tiny_files : list vfs_node :=
  [mk_vfs_node 0xC0001000 0xC0001200 2; mk_vfs_node 0xC0001200 0xC0001200 1].

Lemma vfs_open_correct_witness :
  vfs_open 10 0xC0001200 (mk_vfs tiny_archive tiny_files) =
    Done (Some (mk_vfs_node 0xC0001200 0xC0001200 1)) (mk_vfs tiny_archive tiny_files).
Proof.
  apply (vfs_open_correct (mk_vfs tiny_archive tiny_files) 0xC0001200 [104; 105] [[65]; [104; 105]] 10).
  - by vm_compute.
  - repeat constructor; by vm_compute.
  - repeat constructor; simpl; lia.
Defined.

(** Reading copies the part of the file that is there: past the end nothing is
    read; otherwise the shorter of the request and the rest of the file is copied to
    the buffer from the offset, no other byte changes, and the count is returned. *)
Theorem vfs_read_correct s node offset buffer size :
  0 <= offset -> 0 <= size ->
  (let n := Z.min size (node.(node_size) - offset) in
   buffer <= node.(node_data) + offset \/ node.(node_data) + offset + n <= buffer) ->
  exists m', vfs_read node offset buffer size s =
      Done (Z.max 0 (Z.min size (node.(node_size) - offset))) (mk_vfs m' s.(files)) /\
    copied s.(vmem) buffer (node.(node_data) + offset) (Z.max 0 (Z.min size (node.(node_size) - offset))) m'.
Proof.
  intros Ho Hs Hd. cbv zeta in Hd. unfold vfs_read. destruct (Z.leb_spec node.(node_size) offset) as [Hle|Hlt].
  - exists s.(vmem). rewrite Z.max_l by lia. split; [by destruct s|]. intros x.
    by replace ((buffer <=? x) && (x <? buffer + 0)) with false by lia.
  - replace (if node.(node_size) - offset <? size then node.(node_size) - offset else size)
      with (Z.min size (node.(node_size) - offset)) by (destruct (Z.ltb_spec (node.(node_size) - offset) size); lia).
    set (n := Z.min size (node.(node_size) - offset)) in *. rewrite Z.max_r by lia.
    assert (H : wp (memcpy buffer (node.(node_data) + offset) n)
                  (fun _ m' => copied s.(vmem) buffer (node.(node_data) + offset) n m') s.(vmem))
      by (apply memcpy_spec; [lia|done|done]).
    apply wp_Done in H as (r & m' & Hrun & Hc). exists m'. split; [|done].
    unfold on_memory, bind. by rewrite Hrun.
Qed.

Lemma vfs_read_correct_witness :
  exists m', vfs_read (mk_vfs_node 0xC0001000 0xC0001200 2) 1 0xC0002000 10 (mk_vfs tiny_archive []) =
      Done 1 (mk_vfs m' []) /\
    copied tiny_archive 0xC0002000 0xC0001201 1 m'.
Proof.
  apply (vfs_read_correct (mk_vfs tiny_archive []) (mk_vfs_node 0xC0001000 0xC0001200 2) 1 0xC0002000 10); simpl; lia.
Defined.

(** ** A malformed archive *)

Lemma load_entry_stuck s c :
  0 <= c < 2 ^ 32 -> tar_parse_octal s.(vmem) (c + tar_size_offset) tar_size_length = 0xFFFFFE00 ->
  exists fs, load_entry c s = Done c (mk_vfs s.(vmem) fs).
Proof.
  intros Hc Hs. unfold load_entry. run. rewrite Hs. destruct s as [m fs]. simpl.
  replace (u32 (TAR_BLOCK_SIZE + u32 (u32 (0xFFFFFE00 + TAR_BLOCK_SIZE - 1) / TAR_BLOCK_SIZE * TAR_BLOCK_SIZE)))
    with 0 by (by vm_compute).
  rewrite Z.add_0_r, wrap_small by word_lia. destruct (_ && _); by eexists.
Qed.

(** A header whose size field is 37777777000 (octal) makes the loader run for
    ever: the step to the next header, 512 + 0xFFFFFE00, is zero in 32 bits, so no
    number of rounds is enough. *)
Theorem vfs_load_spins fuel c limit s :
  0 <= c < 2 ^ 32 -> u32 (c + TAR_BLOCK_SIZE) <= limit ->
  tar_block_is_zero s.(vmem) c = false ->
  tar_parse_octal s.(vmem) (c + tar_size_offset) tar_size_length = 0xFFFFFE00 ->
  load_loop fuel c limit s = Spin.
Proof.
  intros Hc Hl Hz Hs. revert s Hz Hs. induction fuel as [|fuel IH]; intros s Hz Hs; cbn [load_loop]; run; rewrite Hz.
  all: replace (negb (u32 (c + TAR_BLOCK_SIZE) <=? limit) || false) with false by lia.
  - done.
  - destruct (load_entry_stuck s c Hc Hs) as (fs & He). rewrite (run_bind_done _ _ _ _ _ He). by apply IH.
Qed.

(** An archive of one header with that size field. *)
Definition spinning_archive : memory := fun x =>
  if (0xC000107C <=? x) && (x <? 0xC0001087) then nth (Z.to_nat (x - 0xC000107C)) (octal_digits 11 0xFFFFFE00) 0 else 0.

Lemma vfs_load_spins_witness :
  vfs_load_initrd_module 0x1000 0x1600 (mk_vfs spinning_archive []) = Spin.
Proof. apply (vfs_load_spins _ 0xC0001000 0xC0001600 (mk_vfs spinning_archive [])); by vm_compute. Defined.
