(* ===== verification/Sync.v ===== *)
(** Synchronisation: kernel/kernel/sync.c.

    Reference counts are plain functions of the counter, since each operation is
    one atomic instruction.  The spin lock, the condition variable and the mutex
    are a machine: every access to shared memory is a step, any task may take the
    next step, and a task that is inside one of the functions carries a program
    counter with the function's local variables. *)
From S2P Require Import Prelude SchedData.
From Stdlib Require Import ZArith Lia.
From stdpp Require Import relations.
Open Scope Z_scope.

(** ** Atomic instructions *)

Definition UINT32_MAX : Z := 0xFFFFFFFF.

(** [lock xadd]: the new value, stored and returned. *)
Definition atomic_xadd_u32 (target delta : Z) : Z := u32 (target + delta).
Definition atomic_add_u32 (target value : Z) : Z := atomic_xadd_u32 target value.
Definition atomic_sub_u32 (target value : Z) : Z := atomic_xadd_u32 target (- value).

(** [xchg] with 1: the new value, and whether the old one was 0. *)
Definition atomic_try_lock_u32 (target : Z) : Z * bool := (1, target =? 0).

(** ** Reference counts *)

(** A NULL pointer is [None]; the state is the counter. *)
Definition kref_init (refcount : option unit) (initial_value : Z) : M Z unit :=
  match refcount with None => ret tt | Some _ => modify (fun _ => initial_value) end.

Definition kref_get (refcount : option unit) : M Z unit :=
  match refcount with
  | None => ret tt
  | Some _ =>
      modify (fun v => atomic_add_u32 v 1) ;;;
      new_value <- gets id ;;
      if new_value =? 0 then panic "kref_get overflow" else ret tt
  end.

Definition kref_put (refcount : option unit) : M Z bool :=
  match refcount with
  | None => ret false
  | Some _ =>
      modify (fun v => atomic_sub_u32 v 1) ;;;
      new_value <- gets id ;;
      if new_value =? UINT32_MAX then panic "kref_put underflow" else ret (new_value =? 0)
  end.

Definition kref_read (refcount : option unit) : M Z Z :=
  match refcount with None => ret 0 | Some _ => gets id end.

(** An object: its counter, whether it has a release function, and how often that
    was called. *)
Record kobject : Type := mk_kobject {
  refcount : Z;
  has_release : bool;
  released : nat
}.

(** A counter operation on the object's counter. *)
Definition on_refcount {A} (f : M Z A) : M kobject A :=
  fun o => match f o.(refcount) with
           | Done a v => Done a (mk_kobject v o.(has_release) o.(released))
           | Panic msg v => Panic msg (mk_kobject v o.(has_release) o.(released))
           | Fault => Fault
           | Spin => Spin
           end.

Definition kobject_init (object : option unit) (release : bool) : M kobject unit :=
  match object with
  | None => ret tt
  | Some _ =>
      on_refcount (kref_init (Some tt) 1) ;;;
      modify (fun o => mk_kobject o.(refcount) release o.(released))
  end.

Definition kobject_get (object : option unit) : M kobject unit :=
  match object with None => ret tt | Some _ => on_refcount (kref_get (Some tt)) end.

Definition kobject_put (object : option unit) : M kobject unit :=
  match object with
  | None => ret tt
  | Some _ =>
      last <- on_refcount (kref_put (Some tt)) ;;
      if negb last then ret tt
      else
        has <- gets has_release ;;
        if has : bool then modify (fun o => mk_kobject o.(refcount) o.(has_release) (S o.(released))) else ret tt
  end.

Definition kobject_refcount (object : option unit) : M kobject Z :=
  match object with None => ret 0 | Some _ => on_refcount (kref_read (Some tt)) end.

(** ** Spin locks and interrupts *)

(** One processor's view of a spin lock: its value, and the flags register. *)
Record spin_cpu : Type := mk_spin_cpu {
  spin_value : Z;
  eflags : Z
}.

Definition irq_save : M spin_cpu Z :=
  flags <- gets eflags ;;
  modify (fun s => mk_spin_cpu s.(spin_value) (cli s.(eflags))) ;;;
  ret flags.

Definition irq_restore (flags : Z) : M spin_cpu unit :=
  if interrupts_on flags then modify (fun s => mk_spin_cpu s.(spin_value) (sti s.(eflags)))
  else ret tt.

Definition kspinlock_init (lock : option unit) : M spin_cpu unit :=
  match lock with None => ret tt | Some _ => modify (fun s => mk_spin_cpu 0 s.(eflags)) end.

(** On its own a processor gets a free lock at once and waits for a taken one for
    ever; the machine below has the other processors. *)
Definition kspin_lock (lock : option unit) : M spin_cpu unit :=
  match lock with
  | None => ret tt
  | Some _ => fun s =>
      let '(v, ok) := atomic_try_lock_u32 s.(spin_value) in
      if ok : bool then Done tt (mk_spin_cpu v s.(eflags)) else Spin
  end.

Definition kspin_unlock (lock : option unit) : M spin_cpu unit :=
  match lock with None => ret tt | Some _ => modify (fun s => mk_spin_cpu 0 s.(eflags)) end.

Definition kspin_lock_irqsave (lock : option unit) : M spin_cpu Z :=
  irq_state <- irq_save ;;
  kspin_lock lock ;;;
  ret irq_state.

Definition kspin_unlock_irqrestore (lock : option unit) (irq_state : Z) : M spin_cpu unit :=
  kspin_unlock lock ;;;
  irq_restore irq_state.

(** ** The shared state of a mutex *)

Definition KWAIT_FOREVER : Z := SCHEDULER_WAIT_FOREVER.

Record kmutex : Type := mk_mutex {
  lock_value : Z;
  waiter_count : Z;
  sequence : Z;
  locked : bool;
  owner_task_id : Z
}.

Definition set_lock_value v m := mk_mutex v m.(waiter_count) m.(sequence) m.(locked) m.(owner_task_id).
Definition set_waiter_count v m := mk_mutex m.(lock_value) v m.(sequence) m.(locked) m.(owner_task_id).
Definition set_sequence v m := mk_mutex m.(lock_value) m.(waiter_count) v m.(locked) m.(owner_task_id).
Definition set_locked v m := mk_mutex m.(lock_value) m.(waiter_count) m.(sequence) v m.(owner_task_id).
Definition set_owner v m := mk_mutex m.(lock_value) m.(waiter_count) m.(sequence) m.(locked) v.

Definition kwait_queue_init : kmutex -> kmutex := set_waiter_count 0.
Definition kcondition_init (m : kmutex) : kmutex := set_sequence 0 (kwait_queue_init m).
Definition kmutex_init (m : kmutex) : kmutex :=
  set_owner 0 (set_locked false (kcondition_init (set_lock_value 0 m))).

(** [kspin_unlock] and the fields that the readers return. *)
Definition release_spin : kmutex -> kmutex := set_lock_value 0.
Definition kmutex_is_locked (m : option kmutex) : bool := match m with None => false | Some m => m.(locked) end.
Definition kmutex_owner_task (m : option kmutex) : Z := match m with None => 0 | Some m => m.(owner_task_id) end.
Definition kwait_waiter_count (m : option kmutex) : Z := match m with None => 0 | Some m => m.(waiter_count) end.

(** A step of a function goes on inside it, returns, or panics.  [LockTimedOut] is
    the panic of [kmutex_lock], with a NULL pointer or not. *)
Inductive panic_reason : Type :=
| WaiterCountUnderflow
| TryLockRecursion
| LockRecursion
| LockTimedOut (null : bool)
| UnlockUnlocked
| UnlockOwnerMismatch.
Inductive next (P R : Type) : Type :=
| Go (p : P)
| Return (r : R)
| Die (why : panic_reason).
Arguments Go {P R} p.
Arguments Return {P R} r.
Arguments Die {P R} why.

(** What sync.c uses of the scheduler: a wait channel.  Tasks are blocked on it by
    [scheduler_wait_channel] and leave it by [scheduler_wake_channel] or by a
    timeout. *)
Class WaitChannel (Ch : Type) : Type := {
  ch_empty : Ch;
  ch_block : nat -> Ch -> Ch;
  ch_wake_one : Ch -> Ch;
  ch_wake_all : Ch -> Ch;
  ch_expire : nat -> Ch -> Ch;
  ch_blocked : nat -> Ch -> bool
}.

(** The scheduler's channels are FIFO queues. *)
#[export] Instance fifo_channel : WaitChannel (list nat) := {|
  ch_empty := [];
  ch_block := fun t l => l ++ [t];
  ch_wake_one := fun l => tail l;
  ch_wake_all := fun _ => [];
  ch_expire := fun t l => filter (fun x => x <> t) l;
  ch_blocked := fun t l => bool_decide (t ∈ l)
|}.

Section Machine.
Context {Ch : Type} `{WaitChannel Ch}.
(** The identifier of each task. *)
Variable tid : nat -> Z.

(** The mutex, the channel of its condition and the scheduler's clock. *)
Record world : Type := mk_world {
  mutex : kmutex;
  channel : Ch;
  ticks : Z
}.
Definition on_mutex (f : kmutex -> kmutex) (w : world) : world := mk_world (f w.(mutex)) w.(channel) w.(ticks).
Definition on_channel (f : Ch -> Ch) (w : world) : world := mk_world w.(mutex) (f w.(channel)) w.(ticks).

(** What happens besides the code: a task calls a function ([null]: with a NULL
    pointer), goes on, or its wait times out. *)
Inductive choice : Type :=
| CallTryLock (null : bool)
| CallLock (null : bool)
| CallLockTimeout (null : bool) (timeout_ticks : Z)
| CallUnlock (null : bool)
| Continue
| Expire.

(** *** kspin_lock *)

Inductive spin_pc : Type := SpinTry | SpinPause.

Definition spin_step (p : spin_pc) (w : world) : world * next spin_pc unit :=
  match p with
  | SpinTry =>
      let '(v, ok) := atomic_try_lock_u32 w.(mutex).(lock_value) in
      (on_mutex (set_lock_value v) w, if ok : bool then Return tt else Go SpinPause)
  | SpinPause =>
      (w, if negb (w.(mutex).(lock_value) =? 0) then Go SpinPause else Go SpinTry)
  end.

(** *** kwait_wait, on the queue of the mutex *)

Inductive wait_pc : Type :=
| WaitEnter
| WaitChannelCall
| WaitBlocked
| WaitLeave (woke : bool).

(** [None]: the task is blocked and cannot go on. *)
Definition wait_step (me : nat) (timeout_ticks : Z) (c : choice) (p : wait_pc) (w : world)
    : option (world * next wait_pc bool) :=
  match p with
  | WaitEnter =>
      Some (on_mutex (fun m => set_waiter_count (atomic_add_u32 m.(waiter_count) 1) m) w, Go WaitChannelCall)
  | WaitChannelCall =>
      if timeout_ticks =? 0 then Some (w, Go (WaitLeave false))
      else Some (on_channel (ch_block me) w, Go WaitBlocked)
  | WaitBlocked =>
      match c with
      | Expire =>
          if ch_blocked me w.(channel) && negb (timeout_ticks =? KWAIT_FOREVER)
          then Some (on_channel (ch_expire me) w, Go (WaitLeave false)) else None
      | _ => if ch_blocked me w.(channel) then None else Some (w, Go (WaitLeave true))
      end
  | WaitLeave woke =>
      let after := atomic_sub_u32 w.(mutex).(waiter_count) 1 in
      Some (on_mutex (set_waiter_count after) w,
            if after =? UINT32_MAX then Die WaiterCountUnderflow else Return woke)
  end.

(** *** kcondition_wait, on the condition and the spin lock of the mutex *)

Inductive cond_pc : Type :=
| CondObserve
| CondRelease (observed_sequence : Z)
| CondCheck (observed_sequence : Z)
| CondWait (observed_sequence : Z) (p : wait_pc)
| CondRecheck (observed_sequence : Z)
| CondAcquire (signaled : bool) (p : spin_pc).

Definition cond_step (me : nat) (timeout_ticks : Z) (c : choice) (p : cond_pc) (w : world)
    : option (world * next cond_pc bool) :=
  match p with
  | CondObserve => Some (w, Go (CondRelease w.(mutex).(sequence)))
  | CondRelease observed => Some (on_mutex release_spin w, Go (CondCheck observed))
  | CondCheck observed =>
      Some (w, if negb (w.(mutex).(sequence) =? observed) then Go (CondAcquire true SpinTry)
               else Go (CondWait observed WaitEnter))
  | CondWait observed p' =>
      match wait_step me timeout_ticks c p' w with
      | None => None
      | Some (w', Go p'') => Some (w', Go (CondWait observed p''))
      | Some (w', Return woke) =>
          Some (w', if negb woke then Go (CondRecheck observed) else Go (CondCheck observed))
      | Some (w', Die why) => Some (w', Die why)
      end
  | CondRecheck observed =>
      Some (w, Go (CondAcquire (negb (w.(mutex).(sequence) =? observed)) SpinTry))
  | CondAcquire signaled p' =>
      let '(w', n) := spin_step p' w in
      Some (w', match n with Go p'' => Go (CondAcquire signaled p'') | Return _ => Return signaled | Die why => Die why end)
  end.

(** *** kmutex_try_lock *)

Inductive try_pc : Type :=
| TrySpin (p : spin_pc)
| TryTest
| TryOwner
| TryRecursion
| TryBusy
| TrySetLocked
| TrySetOwner
| TryUnlock.

Definition try_step (me : nat) (p : try_pc) (w : world) : world * next try_pc bool :=
  let m := w.(mutex) in
  match p with
  | TrySpin p' =>
      let '(w', n) := spin_step p' w in
      (w', match n with Go p'' => Go (TrySpin p'') | Return _ => Go TryTest | Die why => Die why end)
  | TryTest => (w, if m.(locked) then Go TryOwner else Go TrySetLocked)
  | TryOwner => (w, if m.(owner_task_id) =? tid me then Go TryRecursion else Go TryBusy)
  | TryRecursion => (on_mutex release_spin w, Die TryLockRecursion)
  | TryBusy => (on_mutex release_spin w, Return false)
  | TrySetLocked => (on_mutex (set_locked true) w, Go TrySetOwner)
  | TrySetOwner => (on_mutex (set_owner (tid me)) w, Go TryUnlock)
  | TryUnlock => (on_mutex release_spin w, Return true)
  end.

(** *** kmutex_lock_timeout *)

Inductive lock_pc : Type :=
| LockStart
| LockSpin (start_tick : Z) (p : spin_pc)
| LockTest (start_tick : Z)
| LockOwner (start_tick : Z)
| LockRecurse
| LockElapsed (start_tick : Z)
| LockExpired
| LockWait (start_tick wait_ticks : Z) (p : cond_pc)
| LockRetest (start_tick : Z) (signaled : bool)
| LockGiveUp
| LockSetLocked
| LockSetOwner
| LockUnlock.

Definition lock_step (me : nat) (timeout_ticks : Z) (c : choice) (p : lock_pc) (w : world)
    : option (world * next lock_pc bool) :=
  let m := w.(mutex) in
  match p with
  | LockStart => Some (w, Go (LockSpin w.(ticks) SpinTry))
  | LockSpin start p' =>
      let '(w', n) := spin_step p' w in
      Some (w', match n with Go p'' => Go (LockSpin start p'') | Return _ => Go (LockTest start) | Die why => Die why end)
  | LockTest start => Some (w, if m.(locked) then Go (LockOwner start) else Go LockSetLocked)
  | LockOwner start =>
      Some (w, if m.(owner_task_id) =? tid me then Go LockRecurse
               else if negb (timeout_ticks =? KWAIT_FOREVER) then Go (LockElapsed start)
               else Go (LockWait start KWAIT_FOREVER CondObserve))
  | LockRecurse => Some (on_mutex release_spin w, Die LockRecursion)
  | LockElapsed start =>
      let elapsed := u32 (w.(ticks) - start) in
      Some (w, if timeout_ticks <=? elapsed then Go LockExpired
               else Go (LockWait start (timeout_ticks - elapsed) CondObserve))
  | LockExpired => Some (on_mutex release_spin w, Return false)
  | LockWait start wait_ticks p' =>
      match cond_step me wait_ticks c p' w with
      | None => None
      | Some (w', Go p'') => Some (w', Go (LockWait start wait_ticks p''))
      | Some (w', Return signaled) =>
          Some (w', if negb signaled && negb (timeout_ticks =? KWAIT_FOREVER)
                    then Go (LockRetest start signaled) else Go (LockTest start))
      | Some (w', Die why) => Some (w', Die why)
      end
  | LockRetest start signaled => Some (w, if m.(locked) then Go LockGiveUp else Go (LockTest start))
  | LockGiveUp => Some (on_mutex release_spin w, Return false)
  | LockSetLocked => Some (on_mutex (set_locked true) w, Go LockSetOwner)
  | LockSetOwner => Some (on_mutex (set_owner (tid me)) w, Go LockUnlock)
  | LockUnlock => Some (on_mutex release_spin w, Return true)
  end.

(** *** kmutex_unlock *)

Inductive unlock_pc : Type :=
| UnlockSpin (p : spin_pc)
| UnlockTest
| UnlockNotLocked
| UnlockOwner
| UnlockMismatch
| UnlockClearOwner
| UnlockClearLocked
| UnlockSignal
| UnlockWake
| UnlockUnlock.

Definition kwait_wake_one (w : world) : world := on_channel ch_wake_one w.
Definition kwait_wake_all (w : world) : world := on_channel ch_wake_all w.

(** [kcondition_signal] is two accesses, the sequence number and the channel, which
    are two steps of [unlock_step]. *)
Definition signal_sequence (m : kmutex) : kmutex := set_sequence (atomic_add_u32 m.(sequence) 1) m.

Definition kcondition_signal (w : world) : world := kwait_wake_one (on_mutex signal_sequence w).
Definition kcondition_broadcast (w : world) : world := kwait_wake_all (on_mutex signal_sequence w).

Definition unlock_step (me : nat) (p : unlock_pc) (w : world) : world * next unlock_pc unit :=
  let m := w.(mutex) in
  match p with
  | UnlockSpin p' =>
      let '(w', n) := spin_step p' w in
      (w', match n with Go p'' => Go (UnlockSpin p'') | Return _ => Go UnlockTest | Die why => Die why end)
  | UnlockTest => (w, if negb m.(locked) then Go UnlockNotLocked else Go UnlockOwner)
  | UnlockNotLocked => (on_mutex release_spin w, Die UnlockUnlocked)
  | UnlockOwner => (w, if negb (m.(owner_task_id) =? tid me) then Go UnlockMismatch else Go UnlockClearOwner)
  | UnlockMismatch => (on_mutex release_spin w, Die UnlockOwnerMismatch)
  | UnlockClearOwner => (on_mutex (set_owner 0) w, Go UnlockClearLocked)
  | UnlockClearLocked => (on_mutex (set_locked false) w, Go UnlockSignal)
  | UnlockSignal => (on_mutex signal_sequence w, Go UnlockWake)
  | UnlockWake => (kwait_wake_one w, Go UnlockUnlock)
  | UnlockUnlock => (on_mutex release_spin w, Return tt)
  end.

(** *** A task *)

(** Where a task is.  [holds] remembers whether its last call to return was a
    successful lock, and is what the client knows.  [must]: the call came from
    [kmutex_lock], which panics when the lock is not taken. *)
Inductive pc : Type :=
| Outside (holds : bool)
| InTryLock (holds : bool) (p : try_pc)
| InLock (holds must : bool) (timeout_ticks : Z) (p : lock_pc)
| InUnlock (holds : bool) (p : unlock_pc)
| Panicked (holds : bool) (why : panic_reason).

(** A function that is called with a NULL pointer returns at once; [kmutex_lock]
    takes the false of [kmutex_lock_timeout] for a timeout and panics. *)
Definition call (c : choice) (holds : bool) : option pc :=
  match c with
  | CallTryLock null => Some (if null : bool then Outside holds else InTryLock holds (TrySpin SpinTry))
  | CallLock null => Some (if null : bool then Panicked holds (LockTimedOut true) else InLock holds true KWAIT_FOREVER LockStart)
  | CallLockTimeout null t => Some (if null : bool then Outside holds else InLock holds false t LockStart)
  | CallUnlock null => Some (if null : bool then Outside holds else InUnlock holds (UnlockSpin SpinTry))
  | Continue | Expire => None
  end.

Definition task_step (me : nat) (c : choice) (p : pc) (w : world) : option (world * pc) :=
  match p with
  | Outside holds => match call c holds with Some p' => Some (w, p') | None => None end
  | InTryLock holds p' =>
      let '(w', n) := try_step me p' w in
      Some (w', match n with
                | Go p'' => InTryLock holds p''
                | Return got => Outside (holds || got)
                | Die why => Panicked holds why
                end)
  | InLock holds must t p' =>
      match lock_step me t c p' w with
      | None => None
      | Some (w', Go p'') => Some (w', InLock holds must t p'')
      | Some (w', Return got) =>
          Some (w', if must && negb got then Panicked holds (LockTimedOut false) else Outside (holds || got))
      | Some (w', Die why) => Some (w', Panicked holds why)
      end
  | InUnlock holds p' =>
      let '(w', n) := unlock_step me p' w in
      Some (w', match n with
                | Go p'' => InUnlock holds p''
                | Return _ => Outside false
                | Die why => Panicked holds why
                end)
  | Panicked _ _ => None
  end.

(** *** The system: any task steps, and the clock ticks. *)

Record config : Type := mk_config {
  shared : world;
  tasks_at : list pc
}.

Inductive sys_step : config -> config -> Prop :=
| sys_task w ts i p c w' p' :
    ts !! i = Some p -> task_step i c p w = Some (w', p') ->
    sys_step (mk_config w ts) (mk_config w' (<[i := p']> ts))
| sys_tick w ts :
    sys_step (mk_config w ts) (mk_config (mk_world w.(mutex) w.(channel) (u32 (w.(ticks) + 1))) ts).

(** [n] tasks, outside, around an initialised mutex. *)
Definition start (n : nat) (now : Z) (m : kmutex) : config :=
  mk_config (mk_world (kmutex_init m) ch_empty now) (replicate n (Outside false)).

Definition reachable (n : nat) (c : config) : Prop := exists now m, rtc sys_step (start n now m) c.
End Machine.
