(* ===== verification/SyncSpec.v ===== *)
(** The mutex of sync.c is correct under every interleaving: mutual exclusion, the
    accounting of waiters and the panics, by invariants over the reachable
    configurations; and the reference counts. *)
From S2P Require Import Prelude SchedData Sync.
From Stdlib Require Import ZArith Lia.
From stdpp Require Import relations.
Open Scope Z_scope.

(** ** Where a task stands *)

Definition spin_cond (p : cond_pc) : bool :=
  match p with CondObserve | CondRelease _ => true | _ => false end.

(** The task has the spin lock. *)
Definition in_spin (p : pc) : bool :=
  match p with
  | Outside _ | Panicked _ _ => false
  | InTryLock _ p => match p with TrySpin _ => false | _ => true end
  | InLock _ _ _ p => match p with LockStart | LockSpin _ _ => false | LockWait _ _ p => spin_cond p | _ => true end
  | InUnlock _ p => match p with UnlockSpin _ => false | _ => true end
  end.

(** The mutex is taken by the task. *)
Definition owns (p : pc) : bool :=
  match p with
  | Outside h | Panicked h _ => h
  | InTryLock h p => match p with TrySetOwner | TryUnlock => true | _ => h end
  | InLock h _ _ p => match p with LockSetOwner | LockUnlock => true | _ => h end
  | InUnlock h p => match p with UnlockSignal | UnlockWake | UnlockUnlock => false | _ => h end
  end.

(** Between the writes of [locked] and [owner_task_id]. *)
Definition window (p : pc) : bool :=
  match p with
  | InTryLock _ TrySetOwner | InLock _ _ _ LockSetOwner | InUnlock _ UnlockClearLocked => true
  | _ => false
  end.

(** Inside [kwait_wait], counted. *)
Definition in_wait (p : pc) : bool :=
  match p with
  | InLock _ _ _ (LockWait _ _ (CondWait _ p)) => match p with WaitEnter => false | _ => true end
  | _ => false
  end.

(** What a task knows where it stands. *)
Definition knows (m : kmutex) (p : pc) : Prop :=
  match p with
  | Outside _ => True
  | InTryLock h p =>
      match p with
      | TryOwner => m.(locked) = true
      | TryRecursion => h = true
      | TrySetLocked => m.(locked) = false
      | _ => True
      end
  | InLock h must t p =>
      (must = true -> t = KWAIT_FOREVER) /\
      match p with
      | LockOwner _ => m.(locked) = true
      | LockRecurse => h = true
      | LockSetLocked => m.(locked) = false
      | LockElapsed _ | LockExpired | LockRetest _ _ | LockGiveUp => t <> KWAIT_FOREVER
      | _ => True
      end
  | InUnlock h p =>
      match p with
      | UnlockOwner => m.(locked) = true
      | UnlockNotLocked | UnlockMismatch => h = false
      | UnlockClearOwner | UnlockClearLocked => h = true
      | _ => True
      end
  | Panicked h why =>
      match why with
      | WaiterCountUnderflow => False
      | TryLockRecursion | LockRecursion => h = true
      | LockTimedOut null => null = true
      | UnlockUnlocked | UnlockOwnerMismatch => h = false
      end
  end.

(** ** The kinds of step *)

Inductive effect (id : Z) (m m' : kmutex) (p p' : pc) : Prop :=
| Same : in_spin p' = in_spin p -> owns p' = owns p -> window p = false -> window p' = false ->
    m'.(lock_value) = m.(lock_value) -> m'.(locked) = m.(locked) -> m'.(owner_task_id) = m.(owner_task_id) ->
    effect id m m' p p'
| Acquired : in_spin p' = true -> owns p' = owns p -> window p = false -> window p' = false ->
    m.(lock_value) = 0 -> m'.(lock_value) = 1 -> m'.(locked) = m.(locked) -> m'.(owner_task_id) = m.(owner_task_id) ->
    effect id m m' p p'
| Released : in_spin p = true -> in_spin p' = false -> owns p' = owns p -> window p = false -> window p' = false ->
    m'.(lock_value) = 0 -> m'.(locked) = m.(locked) -> m'.(owner_task_id) = m.(owner_task_id) ->
    effect id m m' p p'
| Took : in_spin p = true -> in_spin p' = true -> owns p' = true -> window p' = true ->
    m'.(lock_value) = m.(lock_value) -> m.(locked) = false -> m'.(locked) = true ->
    m'.(owner_task_id) = m.(owner_task_id) -> effect id m m' p p'
| Signed : in_spin p = true -> in_spin p' = true -> owns p = true -> owns p' = true -> window p' = false ->
    m'.(lock_value) = m.(lock_value) -> m'.(locked) = m.(locked) -> m'.(owner_task_id) = id -> effect id m m' p p'
| Unsigned : in_spin p = true -> in_spin p' = true -> owns p = true -> owns p' = true -> window p' = true ->
    m'.(lock_value) = m.(lock_value) -> m'.(locked) = m.(locked) -> effect id m m' p p'
| Dropped : in_spin p = true -> in_spin p' = true -> owns p = true -> owns p' = false ->
    m'.(lock_value) = m.(lock_value) -> m'.(locked) = false -> effect id m m' p p'.

(** Finds the kind of a step. *)
Ltac effect_kind :=
  let go := (simpl; rewrite ?orb_false_r, ?orb_true_r; first [done | congruence | tauto]) in
  first [ solve [apply Same; go] | solve [apply Released; go] | solve [apply Took; go]
        | solve [apply Signed; go] | solve [apply Unsigned; go] | solve [apply Dropped; go]
        | solve [apply Acquired; go] ].

(** A goal that is a disjunction of equations. *)
Ltac by_cases :=
  first [ congruence | split; congruence | left; by_cases | right; by_cases ].

Section Invariant.
Context {Ch : Type} `{WaitChannel Ch}.
Variable tid : nat -> Z.
Context (tid_inj : Inj (=) (=) tid).

Lemma spin_step_effect (q : spin_pc) (w w' : world (Ch := Ch)) n :
  (w.(mutex).(lock_value) = 0 \/ w.(mutex).(lock_value) = 1) -> spin_step q w = (w', n) ->
  (exists q', n = Go q' /\ w' = w) \/
  (n = Return tt /\ w.(mutex).(lock_value) = 0 /\ w' = on_mutex (set_lock_value 1) w).
Proof.
  intros Hv Hs. destruct q; simpl in Hs.
  - destruct (Z.eqb_spec w.(mutex).(lock_value) 0) as [H0|H0]; injection Hs as <- <-.
    + right. done.
    + left. exists SpinPause. split; [done|]. destruct w as [[lv wc sq lk ow] ch tk]. simpl in *. unfold on_mutex. simpl.
      unfold set_lock_value. simpl. do 2 f_equal. lia.
  - destruct (negb _); injection Hs as <- <-; left; eauto.
Qed.

Lemma wait_step_keeps me t c q (w w' : world (Ch := Ch)) n :
  wait_step me t c q w = Some (w', n) ->
  w'.(mutex).(lock_value) = w.(mutex).(lock_value) /\ w'.(mutex).(locked) = w.(mutex).(locked) /\
  w'.(mutex).(owner_task_id) = w.(mutex).(owner_task_id).
Proof.
  intros Hs. destruct q; simpl in Hs; repeat case_match; try discriminate; injection Hs as <- <-; done.
Qed.

Lemma cond_wait_effect me h must t start wt c q (w w' : world (Ch := Ch)) p' :
  (w.(mutex).(lock_value) = 0 \/ w.(mutex).(lock_value) = 1) ->
  task_step tid me c (InLock h must t (LockWait start wt q)) w = Some (w', p') ->
  effect (tid me) w.(mutex) w'.(mutex) (InLock h must t (LockWait start wt q)) p'.
Proof.
  intros Hv Hs. destruct q as [|o|o|o q|o|sg q]; simpl in Hs.
  - injection Hs as <- <-. effect_kind.
  - injection Hs as <- <-. effect_kind.
  - destruct (negb _); injection Hs as <- <-; effect_kind.
  - destruct (wait_step me wt c q w) as [[w1 n]|] eqn:E; [|done]. apply wait_step_keeps in E as (E1 & E2 & E3).
    destruct n as [q'|[]|]; injection Hs as <- <-; effect_kind.
  - injection Hs as <- <-. effect_kind.
  - destruct (spin_step q w) as [w1 n] eqn:E.
    apply spin_step_effect in E as [(q' & -> & ->)|(-> & H0 & ->)]; [| |done].
    + injection Hs as <- <-. effect_kind.
    + destruct (_ && _); injection Hs as <- <-; effect_kind.
Qed.

Lemma task_step_effect me c p (w : world (Ch := Ch)) w' p' :
  (w.(mutex).(lock_value) = 0 \/ w.(mutex).(lock_value) = 1) -> knows w.(mutex) p ->
  (owns p = true -> w.(mutex).(locked) = true) ->
  task_step tid me c p w = Some (w', p') -> effect (tid me) w.(mutex) w'.(mutex) p p'.
Proof.
  intros Hv Hk Ho Hs. destruct p as [h|h q|h must t q|h q|h why]; [| |destruct q as [| | | | | | |? ? q| | | | |]| |done].
  10: { by eapply cond_wait_effect. }
  all: try (destruct q); simpl in Hs, Hk, Ho.
  all: try (destruct (spin_step _ w) as [w1 n] eqn:E;
            apply spin_step_effect in E as [(q' & -> & ->)|(-> & H0 & ->)]; [| |done]; injection Hs as <- <-; effect_kind).
  all: try destruct c; try destruct null; try destruct must.
  all: repeat case_match; simplify_eq; try effect_kind.
  all: simpl in *; simplify_eq; effect_kind.
Qed.

(** ** The knowledge of the task that stepped *)

Lemma spin_step_no_panic q (w w' : world (Ch := Ch)) why : spin_step q w <> (w', Die why).
Proof. destruct q; simpl; case_match; congruence. Qed.

Lemma cond_wait_knows me h must t start wt c q (w w' : world (Ch := Ch)) p' :
  let p := InLock h must t (LockWait start wt q) in
  knows w.(mutex) p -> (in_wait p = true -> atomic_sub_u32 w.(mutex).(waiter_count) 1 <> UINT32_MAX) ->
  task_step tid me c p w = Some (w', p') -> knows w'.(mutex) p'.
Proof.
  intros p [Hm _] Hwait Hs. subst p. destruct q as [|o|o|o q|o|sg q]; simpl in Hs.
  - by injection Hs as <- <-.
  - by injection Hs as <- <-.
  - by destruct (negb _); injection Hs as <- <-.
  - simpl in Hwait. destruct q; simpl in Hs; repeat case_match; simplify_eq; simpl; try done.
    apply Hwait; [done|by apply Z.eqb_eq].
  - by injection Hs as <- <-.
  - destruct (spin_step q w) as [w1 n] eqn:E. destruct n; simpl in Hs.
    + by injection Hs as <- <-.
    + destruct (_ && _) eqn:Eb; injection Hs as <- <-; simpl; [|done]. z_bools. done.
    + by apply spin_step_no_panic in E.
Qed.

Lemma task_step_knows me c p (w : world (Ch := Ch)) w' p' :
  knows w.(mutex) p -> (owns p = true -> w.(mutex).(locked) = true) ->
  (in_spin p = true -> w.(mutex).(locked) = true -> w.(mutex).(owner_task_id) = tid me -> owns p = true) ->
  (owns p = true -> window p = false -> w.(mutex).(owner_task_id) = tid me) ->
  (in_wait p = true -> atomic_sub_u32 w.(mutex).(waiter_count) 1 <> UINT32_MAX) ->
  task_step tid me c p w = Some (w', p') -> knows w'.(mutex) p'.
Proof.
  intros Hk Ho Hmine Hown Hwait Hs. destruct p as [h|h q|h must t q|h q|h why]; [| |destruct q as [| | | | | | |? ? q| | | | |]| |done].
  10: { by eapply cond_wait_knows. }
  all: clear Hwait.
  1: { destruct c; simpl in Hs; try discriminate; injection Hs as <- <-; destruct null; done. }
  all: try (destruct q); simpl in Hs, Hk, Ho, Hmine, Hown.
  all: try (destruct (spin_step _ w) as [w1 n] eqn:E; destruct n; [| |by apply spin_step_no_panic in E];
            simpl in Hs; injection Hs as <- <-; simpl; tauto).
  all: repeat case_match; simplify_eq; simpl in *; z_bools.
  all: first [done | destruct h; first [done | intuition congruence]].
Qed.

(** ** The invariant *)

Lemma knows_stable (m m' : kmutex) q :
  (in_spin q = true -> m'.(locked) = m.(locked)) -> knows m q -> knows m' q.
Proof.
  intros Hl. destruct q as [h|h q|h must t q|h q|h why]; simpl in *; try done; destruct q; simpl in *; try done;
    rewrite Hl; done.
Qed.

Lemma window_in_spin q : window q = true -> in_spin q = true.
Proof. destruct q as [|? []|? ? ? []|? []|]; done. Qed.

(** How many tasks are inside [kwait_wait]. *)
Fixpoint waiting (ts : list pc) : Z :=
  match ts with [] => 0 | p :: ts' => (if in_wait p then 1 else 0) + waiting ts' end.

Lemma waiting_bounds ts : 0 <= waiting ts <= Z.of_nat (length ts).
Proof. induction ts as [|p ts IH]; cbn [waiting length]; [lia|]. destruct (in_wait p); lia. Qed.

Lemma waiting_insert ts i p q :
  ts !! i = Some p ->
  waiting (<[i := q]> ts) = waiting ts - (if in_wait p then 1 else 0) + (if in_wait q then 1 else 0).
Proof.
  revert i. induction ts as [|x ts IH]; intros [|i] Hi; simpl in *; try done.
  - injection Hi as ->. lia.
  - rewrite (IH i) by done. lia.
Qed.

Lemma waiting_pos ts i p : ts !! i = Some p -> in_wait p = true -> 1 <= waiting ts.
Proof.
  revert i. induction ts as [|x ts IH]; intros [|i] Hi Hw; simpl in *; try done; pose proof (waiting_bounds ts).
  - injection Hi as ->. rewrite Hw. lia.
  - specialize (IH i Hi Hw). destruct (in_wait x); lia.
Qed.

Record inv (c : config (Ch := Ch)) : Prop := {
  inv_value : c.(shared).(mutex).(lock_value) = 0 \/ c.(shared).(mutex).(lock_value) = 1;
  inv_free i p : c.(shared).(mutex).(lock_value) = 0 -> c.(tasks_at) !! i = Some p -> in_spin p = false;
  inv_spin i j p q : c.(tasks_at) !! i = Some p -> c.(tasks_at) !! j = Some q ->
    in_spin p = true -> in_spin q = true -> i = j;
  inv_locked i p : c.(tasks_at) !! i = Some p -> owns p = true -> c.(shared).(mutex).(locked) = true;
  inv_owner : c.(shared).(mutex).(locked) = true -> exists i p, c.(tasks_at) !! i = Some p /\ owns p = true;
  inv_unique i j p q : c.(tasks_at) !! i = Some p -> c.(tasks_at) !! j = Some q ->
    owns p = true -> owns q = true -> i = j;
  inv_tid i p : c.(tasks_at) !! i = Some p -> owns p = true -> window p = false ->
    c.(shared).(mutex).(owner_task_id) = tid i;
  inv_knows i p : c.(tasks_at) !! i = Some p -> knows c.(shared).(mutex) p;
  inv_waiting : c.(shared).(mutex).(waiter_count) = u32 (waiting c.(tasks_at))
}.

(** A task with the spin lock that finds its own number in the mutex owns it. *)
Lemma inv_mine c i p :
  inv c -> c.(tasks_at) !! i = Some p -> in_spin p = true -> c.(shared).(mutex).(locked) = true ->
  c.(shared).(mutex).(owner_task_id) = tid i -> owns p = true.
Proof.
  intros Hi Hp Hs Hl Ho. destruct (inv_owner c Hi Hl) as (j & q & Hq & Hown).
  destruct (decide (i = j)) as [<-|Hne]; [congruence|].
  destruct (window q) eqn:Hw.
  - exfalso. apply Hne. eapply (inv_spin c Hi i j p q); [done|done|done|by apply window_in_spin].
  - rewrite (inv_tid c Hi j q Hq Hown Hw) in Ho. by apply (inj tid) in Ho.
Qed.

(** Looking up a task after one of them moved. *)
Lemma lookup_step (ts : list pc) i p' j q :
  <[i := p']> ts !! j = Some q -> (j = i /\ q = p') \/ (j <> i /\ ts !! j = Some q).
Proof. intros Hj. apply list_lookup_insert_Some in Hj as [(-> & -> & _)|[Hne Hj]]; auto. Qed.



Lemma task_step_waiting me c p (w : world (Ch := Ch)) w' p' :
  task_step tid me c p w = Some (w', p') ->
  (in_wait p' = in_wait p /\ w'.(mutex).(waiter_count) = w.(mutex).(waiter_count)) \/
  (in_wait p = false /\ in_wait p' = true /\ w'.(mutex).(waiter_count) = u32 (w.(mutex).(waiter_count) + 1)) \/
  (in_wait p = true /\ in_wait p' = false /\ w'.(mutex).(waiter_count) = u32 (w.(mutex).(waiter_count) - 1)).
Proof.
  assert (Hspin : forall q (w1 : world (Ch := Ch)) n, spin_step q w = (w1, n) -> w1.(mutex).(waiter_count) = w.(mutex).(waiter_count)).
  { intros [] w1 n; simpl; intros E; by injection E as <- <-. }
  intros Hs. destruct p as [h|h q|h must t q|h q|h why]; [| |destruct q as [| | | | | | |? ? []| | | | |]| |done].
  1: { destruct c; simpl in Hs; try discriminate; injection Hs as <- <-; left; by destruct null. }
  all: try (destruct q); simpl in Hs.
  all: try (destruct (spin_step _ w) as [w1 n] eqn:E; apply Hspin in E; destruct n; simpl in Hs;
            repeat case_match; simplify_eq; by left).
  all: try match goal with q : wait_pc |- _ => destruct q; simpl in Hs end.
  all: repeat case_match; simplify_eq; simpl; auto.
Qed.

(** What the invariant says of one task, as alternatives, and of two tasks. *)
Lemma inv_one c i p :
  inv c -> c.(tasks_at) !! i = Some p ->
  (in_spin p = false \/ c.(shared).(mutex).(lock_value) = 1) /\
  (owns p = false \/ c.(shared).(mutex).(locked) = true) /\
  (owns p = false \/ window p = true \/ c.(shared).(mutex).(owner_task_id) = tid i).
Proof.
  intros Hi Hp. split; [|split].
  - destruct (inv_value c Hi) as [H0|H1]; [left; by eapply inv_free|by right].
  - destruct (owns p) eqn:Ho; [right; by eapply inv_locked|by left].
  - destruct (owns p) eqn:Ho; [|by left]. destruct (window p) eqn:Hw; [auto|]. right. right. by eapply inv_tid.
Qed.

Lemma inv_two c i j p q :
  inv c -> i <> j -> c.(tasks_at) !! i = Some p -> c.(tasks_at) !! j = Some q ->
  (in_spin p = false \/ in_spin q = false) /\ (owns p = false \/ owns q = false).
Proof.
  intros Hi Hne Hp Hq. split.
  - destruct (in_spin p) eqn:E1; [|by left]. destruct (in_spin q) eqn:E2; [|by right].
    destruct Hne. by eapply (inv_spin c Hi i j).
  - destruct (owns p) eqn:E1; [|by left]. destruct (owns q) eqn:E2; [|by right].
    destruct Hne. by eapply (inv_unique c Hi i j).
Qed.

(** Two tasks after a step of one of them. *)
Lemma effect_two c i j p q p' m' :
  inv c -> i <> j -> c.(tasks_at) !! i = Some p -> c.(tasks_at) !! j = Some q ->
  effect (tid i) c.(shared).(mutex) m' p p' ->
  (in_spin q = false \/ (m'.(lock_value) = 1 /\ m'.(locked) = c.(shared).(mutex).(locked))) /\
  (in_spin p' = false \/ in_spin q = false) /\ (owns p' = false \/ owns q = false) /\
  (owns q = false \/ (m'.(locked) = true /\ m'.(owner_task_id) = c.(shared).(mutex).(owner_task_id))).
Proof.
  intros Hi Hne Hp Hq Heff. pose proof (inv_one c j q Hi Hq) as (B1 & B2 & _).
  pose proof (inv_two c i j p q Hi Hne Hp Hq) as [C1 C2].
  destruct Heff; destruct B1, B2, C1, C2; (split; [|split; [|split]]); by_cases.
Qed.

(** The task that stepped. *)
Lemma effect_one c i p p' m' :
  inv c -> c.(tasks_at) !! i = Some p -> effect (tid i) c.(shared).(mutex) m' p p' ->
  (m'.(lock_value) = 0 \/ m'.(lock_value) = 1) /\ (in_spin p' = false \/ m'.(lock_value) = 1) /\
  (owns p' = false \/ m'.(locked) = true) /\
  (owns p' = false \/ window p' = true \/ m'.(owner_task_id) = tid i) /\
  (owns p' = true \/ m'.(locked) = false \/ (owns p = false /\ m'.(locked) = c.(shared).(mutex).(locked))).
Proof.
  intros Hi Hp Heff. pose proof (inv_one c i p Hi Hp) as (A1 & A2 & A3). pose proof (inv_value c Hi) as Hv.
  destruct Heff; destruct A1, A2; (split; [|split; [|split; [|split]]]); try by_cases.
  all: destruct (owns p) eqn:Hop; try by_cases.
  all: destruct Hv; try by_cases; destruct A3 as [|[|]]; by_cases.
Qed.

Lemma inv_task_knows c i p k w' p' :
  inv c -> Z.of_nat (length c.(tasks_at)) < 2 ^ 32 -> c.(tasks_at) !! i = Some p ->
  task_step tid i k p c.(shared) = Some (w', p') -> knows w'.(mutex) p'.
Proof.
  intros Hi Hlen Hp Hs. eapply task_step_knows; [by eapply inv_knows| | | | |done].
  - by eapply inv_locked.
  - by eapply inv_mine.
  - by eapply inv_tid.
  - intros Hw. rewrite (inv_waiting c Hi). pose proof (waiting_pos _ _ _ Hp Hw). pose proof (waiting_bounds c.(tasks_at)).
    unfold atomic_sub_u32, atomic_xadd_u32, UINT32_MAX. rewrite (wrap_small 32 (waiting _)) by word_lia.
    rewrite wrap_small by word_lia. word_lia.
Qed.

Lemma inv_task_waiting c i p k w' p' :
  inv c -> Z.of_nat (length c.(tasks_at)) < 2 ^ 32 -> c.(tasks_at) !! i = Some p ->
  task_step tid i k p c.(shared) = Some (w', p') ->
  w'.(mutex).(waiter_count) = u32 (waiting (<[i := p']> c.(tasks_at))).
Proof.
  intros Hi Hlen Hp Hs. rewrite (waiting_insert _ _ p) by done. pose proof (waiting_bounds c.(tasks_at)).
  pose proof (inv_waiting c Hi) as Hw. rewrite wrap_small in Hw by word_lia.
  apply task_step_waiting in Hs as [[E1 E2]|[(E1 & E2 & E3)|(E1 & E2 & E3)]].
  - rewrite E1, E2, Hw. rewrite wrap_small; [lia|]. word_lia.
  - rewrite E1, E2, E3, Hw. f_equal. lia.
  - rewrite E1, E2, E3, Hw. f_equal. lia.
Qed.

Lemma inv_task c i p k w' p' :
  inv c -> Z.of_nat (length c.(tasks_at)) < 2 ^ 32 -> c.(tasks_at) !! i = Some p ->
  task_step tid i k p c.(shared) = Some (w', p') -> inv (mk_config w' (<[i := p']> c.(tasks_at))).
Proof.
  intros Hi Hlen Hp Hs.
  pose proof (task_step_effect i k p _ _ _ (inv_value c Hi) (inv_knows c Hi i p Hp) (inv_locked c Hi i p Hp) Hs) as Heff.
  pose proof (effect_one c i p p' w'.(mutex) Hi Hp Heff) as (O1 & O2 & O3 & O4 & O5).
  assert (Htwo := fun j q Hne Hq => effect_two c i j p q p' w'.(mutex) Hi Hne Hp Hq Heff).
  constructor; simpl.
  - done.
  - intros j q H0 [[-> ->]|[Hne Hq]]%lookup_step; [intuition congruence|].
    destruct (Htwo j q ltac:(done) Hq) as (T1 & _). intuition congruence.
  - intros j1 j2 q1 q2 [[-> ->]|[Hn1 Hq1]]%lookup_step [[-> ->]|[Hn2 Hq2]]%lookup_step Hs1 Hs2; [done| | |by eapply inv_spin].
    + destruct (Htwo j2 q2 ltac:(done) Hq2). intuition congruence.
    + destruct (Htwo j1 q1 ltac:(done) Hq1). intuition congruence.
  - intros j q [[-> ->]|[Hne Hq]]%lookup_step Hown; [intuition congruence|].
    destruct (Htwo j q ltac:(done) Hq). intuition congruence.
  - intros Hlock. assert (Hself : <[i := p']> c.(tasks_at) !! i = Some p')
      by (apply list_lookup_insert_eq; by eapply lookup_lt_Some).
    destruct O5 as [O5|[O5|[Hop O5]]]; [by exists i, p'|congruence|].
    destruct (inv_owner c Hi ltac:(congruence)) as (j & q & Hq & Hown). exists j, q. split; [|done].
    rewrite list_lookup_insert_ne; [done|]. intros ->. congruence.
  - intros j1 j2 q1 q2 [[-> ->]|[Hn1 Hq1]]%lookup_step [[-> ->]|[Hn2 Hq2]]%lookup_step Hs1 Hs2; [done| | |by eapply inv_unique].
    + destruct (Htwo j2 q2 ltac:(done) Hq2). intuition congruence.
    + destruct (Htwo j1 q1 ltac:(done) Hq1). intuition congruence.
  - intros j q [[-> ->]|[Hne Hq]]%lookup_step Hown Hw; [intuition congruence|].
    destruct (Htwo j q ltac:(done) Hq) as (_ & _ & _ & T). pose proof (inv_tid c Hi j q Hq Hown Hw). intuition congruence.
  - intros j q [[-> ->]|[Hne Hq]]%lookup_step; [by eapply inv_task_knows|].
    destruct (Htwo j q ltac:(done) Hq) as (T & _). eapply knows_stable; [|by eapply inv_knows]. intuition congruence.
  - by eapply inv_task_waiting.
Qed.
Lemma inv_tick c : inv c ->
  inv (mk_config (mk_world c.(shared).(mutex) c.(shared).(channel) (u32 (c.(shared).(ticks) + 1))) c.(tasks_at)).
Proof. intros []. by constructor. Qed.

Lemma waiting_replicate n : waiting (replicate n (Outside false)) = 0.
Proof. by induction n. Qed.

Lemma inv_start n now m : inv (start n now m).
Proof.
  constructor; simpl; try done; try (by left); try (intros *; rewrite !lookup_replicate; naive_solver).
  by rewrite waiting_replicate.
Qed.

(** Every reachable configuration has as many tasks as the first and satisfies the
    invariant. *)
Lemma reachable_inv n c :
  Z.of_nat n < 2 ^ 32 -> reachable tid n c -> length c.(tasks_at) = n /\ inv c.
Proof.
  intros Hn (now & m & Hr). remember (start n now m) as c0 eqn:E0.
  assert (H0 : length c0.(tasks_at) = n /\ inv c0) by (subst c0; split; [apply length_replicate|apply inv_start]).
  clear E0. induction Hr as [|c1 c2 c3 Hs Hr IH]; [done|]. apply IH. clear IH Hr. destruct H0 as [Hl Hi].
  inversion Hs as [w ts i p k w' p' Hp Ht|w ts]; subst; simpl in *.
  - rewrite length_insert. split; [done|]. by apply (inv_task (mk_config w ts) i p k).
  - split; [done|]. apply (inv_tick (mk_config w ts) Hi).
Qed.
End Invariant.

(** ** What the mutex guarantees *)

(** C7: mutual exclusion.  Whatever the tasks do - also unlocking a mutex they do
    not hold, or passing NULL - and however their accesses to memory interleave, at
    most one task is between a successful lock and its unlock, and the mutex names
    it as the owner. *)
Theorem kmutex_mutual_exclusion {Ch} `{WaitChannel Ch} (tid : nat -> Z) `{!Inj (=) (=) tid} n (c : config (Ch := Ch)) i j :
  Z.of_nat n < 2 ^ 32 -> reachable tid n c ->
  c.(tasks_at) !! i = Some (Outside true) -> c.(tasks_at) !! j = Some (Outside true) ->
  i = j /\ c.(shared).(mutex).(locked) = true /\ c.(shared).(mutex).(owner_task_id) = tid i.
Proof.
  intros Hn Hr Hi Hj. destruct (reachable_inv tid _ n c Hn Hr) as [_ Hinv]. split; [|split].
  - by eapply (inv_unique tid c Hinv i j).
  - by eapply (inv_locked tid c Hinv i).
  - by eapply (inv_tid tid c Hinv i).
Qed.

(** A task dies in the mutex functions only through its own mistake: by
    locking a mutex it holds, unlocking one it does not hold, or locking a NULL
    pointer.  In particular the count of waiters never underflows and a lock without
    a timeout never fails. *)
Theorem kmutex_panics_only_on_misuse {Ch} `{WaitChannel Ch} (tid : nat -> Z) `{!Inj (=) (=) tid} n (c : config (Ch := Ch)) i h why :
  Z.of_nat n < 2 ^ 32 -> reachable tid n c -> c.(tasks_at) !! i = Some (Panicked h why) ->
  match why with
  | TryLockRecursion | LockRecursion => h = true
  | UnlockUnlocked | UnlockOwnerMismatch => h = false
  | LockTimedOut null => null = true
  | WaiterCountUnderflow => False
  end.
Proof. intros Hn Hr Hi. destruct (reachable_inv tid _ n c Hn Hr) as [_ Hinv]. apply (inv_knows tid c Hinv i _ Hi). Qed.

(** ** Runs *)

(** A schedule: which task steps next, and with which choice. *)
Fixpoint run_schedule {Ch} `{WaitChannel Ch} (tid : nat -> Z) (l : list (nat * choice)) (c : config (Ch := Ch)) : option config :=
  match l with
  | [] => Some c
  | (i, k) :: l' =>
      match c.(tasks_at) !! i with
      | None => None
      | Some p =>
          match task_step tid i k p c.(shared) with
          | None => None
          | Some (w', p') => run_schedule tid l' (mk_config w' (<[i := p']> c.(tasks_at)))
          end
      end
  end.

Lemma run_schedule_reachable {Ch} `{WaitChannel Ch} tid n now m l (c : config (Ch := Ch)) :
  run_schedule tid l (start n now m) = Some c -> reachable tid n c.
Proof.
  intros Hr. exists now, m. revert Hr. generalize (start (Ch := Ch) n now m) as c0.
  induction l as [|[i k] l IH]; intros [w ts] Hr; simpl in Hr; [by injection Hr as <-|].
  destruct (ts !! i) as [p|] eqn:Hp; [|done]. destruct (task_step tid i k p w) as [[w' p']|] eqn:Ht; [|done].
  eapply rtc_l; [by econstructor|]. by apply IH.
Qed.

(** Tasks are numbered from 1. *)
Definition task_number (i : nat) : Z := Z.of_nat i + 1.
#[export] Instance task_number_inj : Inj (=) (=) task_number.
Proof. intros i j Hij. unfold task_number in Hij. lia. Qed.

Definition zero_mutex : kmutex := mk_mutex 0 0 0 false 0.

(** Task [i] goes on [n] times. *)
Definition goes (i n : nat) : list (nat * choice) := replicate n (i, Continue).

(** Task 0 locks; task 1 tries and fails. *)
Definition one_holder : option (config (Ch := list nat)) :=
  run_schedule task_number ((0%nat, CallLock false) :: goes 0 6 ++ (1%nat, CallTryLock false) :: goes 1 4) (start 2 0 zero_mutex).

Definition one_holder_config : config (Ch := list nat) :=
  mk_config (mk_world (mk_mutex 0 0 0 true 1) [] 0) [Outside true; Outside false].

Lemma kmutex_mutual_exclusion_witness :
  (0 = 0)%nat /\ one_holder_config.(shared).(mutex).(locked) = true /\
  one_holder_config.(shared).(mutex).(owner_task_id) = task_number 0.
Proof.
  apply (kmutex_mutual_exclusion task_number 2 one_holder_config 0 0); [lia| |done|done].
  apply (run_schedule_reachable _ _ 0 zero_mutex
    ((0%nat, CallLock false) :: goes 0 6 ++ (1%nat, CallTryLock false) :: goes 1 4)). by vm_compute.
Defined.

(** Task 0 locks twice. *)
Definition recursion_config : config (Ch := list nat) :=
  mk_config (mk_world (mk_mutex 0 0 0 true 1) [] 0) [Panicked true LockRecursion].

Lemma kmutex_panics_only_on_misuse_witness :
  exists h, recursion_config.(tasks_at) !! 0%nat = Some (Panicked h LockRecursion) /\ h = true.
Proof.
  exists true. split; [done|].
  apply (kmutex_panics_only_on_misuse task_number 1 recursion_config 0 true LockRecursion); [lia| |done].
  apply (run_schedule_reachable _ _ 0 zero_mutex
    ((0%nat, CallLock false) :: goes 0 6 ++ (0%nat, CallLock false) :: goes 0 5)). by vm_compute.
Defined.

(** C40: a wakeup can be lost.  [kcondition_wait] checks the sequence number and
    then blocks, without the spin lock; an unlock in between wakes nobody.  Here the
    mutex is free and its last holder is gone, yet task 1, which asked for it without
    a timeout, is blocked and has no step left. *)
Theorem kmutex_lost_wakeup :
  exists c : config (Ch := list nat),
    reachable task_number 2 c /\ c.(shared).(mutex).(locked) = false /\
    c.(tasks_at) = [Outside false; InLock false true KWAIT_FOREVER (LockWait 0 KWAIT_FOREVER (CondWait 0 WaitBlocked))] /\
    forall k p, c.(tasks_at) !! 1%nat = Some p -> task_step task_number 1 k p c.(shared) = None.
Proof.
  exists (mk_config (mk_world (mk_mutex 0 1 1 false 0) [1%nat] 0)
            [Outside false; InLock false true KWAIT_FOREVER (LockWait 0 KWAIT_FOREVER (CondWait 0 WaitBlocked))]).
  split; [|split; [done|split; [done|]]].
  - apply (run_schedule_reachable _ _ 0 zero_mutex
      ((0%nat, CallLock false) :: goes 0 6 ++ (1%nat, CallLock false) :: goes 1 7 ++
       (0%nat, CallUnlock false) :: goes 0 8 ++ goes 1 2)). by vm_compute.
  - intros k p Hp. injection Hp as <-. by destruct k.
Qed.

(** ** Reference counts *)

(** A get or a put. *)
Inductive kref_op : Type := Get | Put.

(** Every holder gets before it uses and puts once: the running count, which never
    drops below zero or exceeds 32 bits. *)
Fixpoint balanced (l : list kref_op) (v : Z) : Prop :=
  match l with
  | [] => True
  | Get :: l' => 0 < v /\ v + 1 < 2 ^ 32 /\ balanced l' (v + 1)
  | Put :: l' => 0 < v /\ balanced l' (v - 1)
  end.

Fixpoint net (l : list kref_op) : Z :=
  match l with [] => 0 | Get :: l' => 1 + net l' | Put :: l' => net l' - 1 end.

Definition kobject_op (o : kref_op) : M kobject unit :=
  match o with Get => kobject_get (Some tt) | Put => kobject_put (Some tt) end.

Lemma kobject_get_run o :
  0 <= o.(refcount) -> o.(refcount) + 1 < 2 ^ 32 ->
  kobject_get (Some tt) o = Done tt (mk_kobject (o.(refcount) + 1) o.(has_release) o.(released)).
Proof.
  intros H0 H1. unfold kobject_get, on_refcount, kref_get, atomic_add_u32, atomic_xadd_u32. run. unfold id.
  rewrite wrap_small by word_lia. by replace (o.(refcount) + 1 =? 0) with false by lia.
Qed.

Lemma kobject_put_run o :
  0 < o.(refcount) < 2 ^ 32 ->
  kobject_put (Some tt) o = Done tt (mk_kobject (o.(refcount) - 1) o.(has_release)
    (if (o.(refcount) =? 1) && o.(has_release) then S o.(released) else o.(released))).
Proof.
  intros H0. unfold kobject_put.
  assert (Hput : on_refcount (kref_put (Some tt)) o = Done (o.(refcount) =? 1) (mk_kobject (o.(refcount) - 1) o.(has_release) o.(released))).
  { unfold on_refcount, kref_put, atomic_sub_u32, atomic_xadd_u32, UINT32_MAX. run. unfold id.
    rewrite wrap_small by word_lia. replace (o.(refcount) + - (1) =? 4294967295) with false by word_lia. run.
    replace (o.(refcount) + - (1) =? 0) with (o.(refcount) =? 1) by lia. done. }
  rewrite (run_bind_done _ _ _ _ _ Hput). destruct (o.(refcount) =? 1); simpl; [|done]. run. simpl.
  by destruct (o.(has_release)).
Qed.

Lemma kobject_ops_run r l : forall v o,
  0 <= v < 2 ^ 32 -> balanced l v -> o.(refcount) = v -> o.(has_release) = r ->
  o.(released) = (if (v =? 0) && r then 1%nat else O) ->
  exists o', foreach l kobject_op o = Done tt o' /\ o'.(refcount) = v + net l /\
    o'.(released) = if (v + net l =? 0) && r then 1%nat else O.
Proof.
  induction l as [|[] l IH]; intros v o Hv Hb Ho Hr Hrel; cbn [foreach kobject_op net balanced] in *.
  - exists o. rewrite Z.add_0_r. done.
  - destruct Hb as (H0 & H1 & Hb). rewrite (run_bind_done _ _ _ _ _ (kobject_get_run o ltac:(lia) ltac:(lia))), Ho.
    destruct (IH (v + 1) (mk_kobject (v + 1) o.(has_release) o.(released)) ltac:(lia) Hb) as (o' & Hrun & Hc & He); [done|done| |].
    { simpl. rewrite Hrel. replace (v =? 0) with false by lia. by replace (v + 1 =? 0) with false by lia. }
    exists o'. rewrite Hrun. replace (v + (1 + net l)) with (v + 1 + net l) by lia. done.
  - destruct Hb as (H0 & Hb). rewrite (run_bind_done _ _ _ _ _ (kobject_put_run o ltac:(lia))), Ho.
    destruct (IH (v - 1) (mk_kobject (v - 1) o.(has_release)
      (if (v =? 1) && o.(has_release) then S o.(released) else o.(released))) ltac:(lia) Hb)
      as (o' & Hrun & Hc & He); [done|done| |].
    { simpl. rewrite Hr, Hrel. replace (v =? 0) with false by lia. by replace (v - 1 =? 0) with (v =? 1) by lia. }
    exists o'. rewrite Hrun. replace (v + (net l - 1)) with (v - 1 + net l) by lia. done.
Qed.

(** Counting is exact and the release is called once.  From [kobject_init],
    any sequence of gets and puts that never touches a dead object (and keeps the
    count in 32 bits) ends without a panic, with the count 1 + gets - puts; the
    release function has been called exactly once if the count is zero, and not
    before. *)
Theorem kobject_lifecycle l r o :
  balanced l 1 -> o.(released) = O ->
  exists o', bind (kobject_init (Some tt) r) (fun _ => foreach l kobject_op) o = Done tt o' /\
    o'.(refcount) = 1 + net l /\ o'.(released) = if (1 + net l =? 0) && r then 1%nat else O.
Proof.
  intros Hb Hr. unfold kobject_init, on_refcount, kref_init. run. simpl.
  set (o1 := mk_kobject 1 r o.(released)).
  destruct (kobject_ops_run r l 1 o1 ltac:(lia) Hb) as (o' & Hrun & Hc & He); [done|done|done|]. exists o'. done.
Qed.

Lemma kobject_lifecycle_witness :
  exists o', bind (kobject_init (Some tt) true) (fun _ => foreach [Get; Put; Put] kobject_op) (mk_kobject 7 false 0) = Done tt o' /\
    o'.(refcount) = 1 + net [Get; Put; Put] /\ o'.(released) = if (1 + net [Get; Put; Put] =? 0) && true then 1%nat else O.
Proof. apply kobject_lifecycle; [simpl; lia|done]. Defined.
