(* ===== verification/PagingData.v ===== *)
(** The state of paging: kernel/kernel/paging.c.

    Page tables live in physical memory, which is a function from addresses to
    bytes.  The frame allocator and the tree of kernel mappings are the components
    of Pmm.v and Vma.v.  Address spaces are referred to by their index in
    [paging_spaces]; [None] is a NULL pointer. *)
From S2P Require Import Prelude Bootinfo Pmm Vma.
From Stdlib Require Import ZArith Lia.
Open Scope Z_scope.

Definition PAGING_USER_BASE : Z := 0x400000.
Definition PAGING_USER_LIMIT : Z := KERNEL_VMA.
Definition KERNEL_DYNAMIC_BASE : Z := 0xF0000000.
Definition KERNEL_DYNAMIC_LIMIT : Z := 0xFFC00000.

Definition PAGE_PRESENT : Z := 0x001.
Definition PAGE_WRITABLE : Z := 0x002.
Definition PAGE_USER : Z := 0x004.
Definition PAGING_MAX_SPACES : Z := 32.

Inductive paging_runtime_mode : Type := PAGING_MODE_LEGACY | PAGING_MODE_PAE.
#[export] Instance paging_runtime_mode_eq : EqDecision paging_runtime_mode.
Proof. solve_decision. Defined.

Record paging_space : Type := mk_space {
  in_use : bool;
  root_physical : Z;
  preferred_numa_node : Z
}.

(** The instructions that drop cached translations, in the order executed (the
    latest first). *)
Inductive tlb_op : Type :=
| Invlpg (virtual_addr : Z)
| Reload_cr3 (root : Z).

(** Where the linker put the static tables and the sections, and the stack pointer
    and processor feature that [paging_init] finds. *)
Record kernel_image : Type := mk_image {
  boot_page_table_pool : Z;
  boot_page_table_pool_end : Z;
  pae_pdpt : Z;
  pae_identity_page_directory : Z;
  pae_identity_page_tables : Z;
  pae_kernel_page_directory : Z;
  pae_direct_map_page_tables : Z;
  pae_dynamic_page_tables : Z;
  i386_pae_trampoline : Z;
  text_start : Z;
  text_end : Z;
  rodata_start : Z;
  rodata_end : Z;
  boot_stack : Z;
  cpu_has_pae : bool
}.

(** The static variables of paging.c, physical memory, the allocators it calls and
    the register CR3. *)
Record paging : Type := mk_paging {
  phys : memory;
  frames : pmm;
  vma_nodes : vma_pool;
  kernel_vma_tree : vma_tree;
  pae_supported : bool;
  pae_ready : bool;
  pae_active : bool;
  paging_mode : paging_runtime_mode;
  paging_spaces : list paging_space;
  kernel_space : option Z;
  current_space : option Z;
  legacy_table_backed_by_pmm : Z -> bool;
  legacy_early_table_count : Z;
  legacy_next_early_table : Z;
  cr3 : Z;
  tlb_log : list tlb_op
}.

Definition set_phys (v : memory) (s : paging) : paging :=
  mk_paging v (s.(frames)) (s.(vma_nodes)) (s.(kernel_vma_tree)) (s.(pae_supported)) (s.(pae_ready)) (s.(pae_active)) (s.(paging_mode)) (s.(paging_spaces)) (s.(kernel_space)) (s.(current_space)) (s.(legacy_table_backed_by_pmm)) (s.(legacy_early_table_count)) (s.(legacy_next_early_table)) (s.(cr3)) (s.(tlb_log)).
Definition set_frames (v : pmm) (s : paging) : paging :=
  mk_paging (s.(phys)) v (s.(vma_nodes)) (s.(kernel_vma_tree)) (s.(pae_supported)) (s.(pae_ready)) (s.(pae_active)) (s.(paging_mode)) (s.(paging_spaces)) (s.(kernel_space)) (s.(current_space)) (s.(legacy_table_backed_by_pmm)) (s.(legacy_early_table_count)) (s.(legacy_next_early_table)) (s.(cr3)) (s.(tlb_log)).
Definition set_vma_nodes (v : vma_pool) (s : paging) : paging :=
  mk_paging (s.(phys)) (s.(frames)) v (s.(kernel_vma_tree)) (s.(pae_supported)) (s.(pae_ready)) (s.(pae_active)) (s.(paging_mode)) (s.(paging_spaces)) (s.(kernel_space)) (s.(current_space)) (s.(legacy_table_backed_by_pmm)) (s.(legacy_early_table_count)) (s.(legacy_next_early_table)) (s.(cr3)) (s.(tlb_log)).
Definition set_kernel_vma_tree (v : vma_tree) (s : paging) : paging :=
  mk_paging (s.(phys)) (s.(frames)) (s.(vma_nodes)) v (s.(pae_supported)) (s.(pae_ready)) (s.(pae_active)) (s.(paging_mode)) (s.(paging_spaces)) (s.(kernel_space)) (s.(current_space)) (s.(legacy_table_backed_by_pmm)) (s.(legacy_early_table_count)) (s.(legacy_next_early_table)) (s.(cr3)) (s.(tlb_log)).
Definition set_pae_supported (v : bool) (s : paging) : paging :=
  mk_paging (s.(phys)) (s.(frames)) (s.(vma_nodes)) (s.(kernel_vma_tree)) v (s.(pae_ready)) (s.(pae_active)) (s.(paging_mode)) (s.(paging_spaces)) (s.(kernel_space)) (s.(current_space)) (s.(legacy_table_backed_by_pmm)) (s.(legacy_early_table_count)) (s.(legacy_next_early_table)) (s.(cr3)) (s.(tlb_log)).
Definition set_pae_ready (v : bool) (s : paging) : paging :=
  mk_paging (s.(phys)) (s.(frames)) (s.(vma_nodes)) (s.(kernel_vma_tree)) (s.(pae_supported)) v (s.(pae_active)) (s.(paging_mode)) (s.(paging_spaces)) (s.(kernel_space)) (s.(current_space)) (s.(legacy_table_backed_by_pmm)) (s.(legacy_early_table_count)) (s.(legacy_next_early_table)) (s.(cr3)) (s.(tlb_log)).
Definition set_pae_active (v : bool) (s : paging) : paging :=
  mk_paging (s.(phys)) (s.(frames)) (s.(vma_nodes)) (s.(kernel_vma_tree)) (s.(pae_supported)) (s.(pae_ready)) v (s.(paging_mode)) (s.(paging_spaces)) (s.(kernel_space)) (s.(current_space)) (s.(legacy_table_backed_by_pmm)) (s.(legacy_early_table_count)) (s.(legacy_next_early_table)) (s.(cr3)) (s.(tlb_log)).
Definition set_paging_mode (v : paging_runtime_mode) (s : paging) : paging :=
  mk_paging (s.(phys)) (s.(frames)) (s.(vma_nodes)) (s.(kernel_vma_tree)) (s.(pae_supported)) (s.(pae_ready)) (s.(pae_active)) v (s.(paging_spaces)) (s.(kernel_space)) (s.(current_space)) (s.(legacy_table_backed_by_pmm)) (s.(legacy_early_table_count)) (s.(legacy_next_early_table)) (s.(cr3)) (s.(tlb_log)).
Definition set_paging_spaces (v : list paging_space) (s : paging) : paging :=
  mk_paging (s.(phys)) (s.(frames)) (s.(vma_nodes)) (s.(kernel_vma_tree)) (s.(pae_supported)) (s.(pae_ready)) (s.(pae_active)) (s.(paging_mode)) v (s.(kernel_space)) (s.(current_space)) (s.(legacy_table_backed_by_pmm)) (s.(legacy_early_table_count)) (s.(legacy_next_early_table)) (s.(cr3)) (s.(tlb_log)).
Definition set_kernel_space (v : option Z) (s : paging) : paging :=
  mk_paging (s.(phys)) (s.(frames)) (s.(vma_nodes)) (s.(kernel_vma_tree)) (s.(pae_supported)) (s.(pae_ready)) (s.(pae_active)) (s.(paging_mode)) (s.(paging_spaces)) v (s.(current_space)) (s.(legacy_table_backed_by_pmm)) (s.(legacy_early_table_count)) (s.(legacy_next_early_table)) (s.(cr3)) (s.(tlb_log)).
Definition set_current_space (v : option Z) (s : paging) : paging :=
  mk_paging (s.(phys)) (s.(frames)) (s.(vma_nodes)) (s.(kernel_vma_tree)) (s.(pae_supported)) (s.(pae_ready)) (s.(pae_active)) (s.(paging_mode)) (s.(paging_spaces)) (s.(kernel_space)) v (s.(legacy_table_backed_by_pmm)) (s.(legacy_early_table_count)) (s.(legacy_next_early_table)) (s.(cr3)) (s.(tlb_log)).
Definition set_legacy_table_backed_by_pmm (v : Z -> bool) (s : paging) : paging :=
  mk_paging (s.(phys)) (s.(frames)) (s.(vma_nodes)) (s.(kernel_vma_tree)) (s.(pae_supported)) (s.(pae_ready)) (s.(pae_active)) (s.(paging_mode)) (s.(paging_spaces)) (s.(kernel_space)) (s.(current_space)) v (s.(legacy_early_table_count)) (s.(legacy_next_early_table)) (s.(cr3)) (s.(tlb_log)).
Definition set_legacy_early_table_count (v : Z) (s : paging) : paging :=
  mk_paging (s.(phys)) (s.(frames)) (s.(vma_nodes)) (s.(kernel_vma_tree)) (s.(pae_supported)) (s.(pae_ready)) (s.(pae_active)) (s.(paging_mode)) (s.(paging_spaces)) (s.(kernel_space)) (s.(current_space)) (s.(legacy_table_backed_by_pmm)) v (s.(legacy_next_early_table)) (s.(cr3)) (s.(tlb_log)).
Definition set_legacy_next_early_table (v : Z) (s : paging) : paging :=
  mk_paging (s.(phys)) (s.(frames)) (s.(vma_nodes)) (s.(kernel_vma_tree)) (s.(pae_supported)) (s.(pae_ready)) (s.(pae_active)) (s.(paging_mode)) (s.(paging_spaces)) (s.(kernel_space)) (s.(current_space)) (s.(legacy_table_backed_by_pmm)) (s.(legacy_early_table_count)) v (s.(cr3)) (s.(tlb_log)).
Definition set_cr3 (v : Z) (s : paging) : paging :=
  mk_paging (s.(phys)) (s.(frames)) (s.(vma_nodes)) (s.(kernel_vma_tree)) (s.(pae_supported)) (s.(pae_ready)) (s.(pae_active)) (s.(paging_mode)) (s.(paging_spaces)) (s.(kernel_space)) (s.(current_space)) (s.(legacy_table_backed_by_pmm)) (s.(legacy_early_table_count)) (s.(legacy_next_early_table)) v (s.(tlb_log)).
Definition set_tlb_log (v : list tlb_op) (s : paging) : paging :=
  mk_paging (s.(phys)) (s.(frames)) (s.(vma_nodes)) (s.(kernel_vma_tree)) (s.(pae_supported)) (s.(pae_ready)) (s.(pae_active)) (s.(paging_mode)) (s.(paging_spaces)) (s.(kernel_space)) (s.(current_space)) (s.(legacy_table_backed_by_pmm)) (s.(legacy_early_table_count)) (s.(legacy_next_early_table)) (s.(cr3)) v.

Definition upd_phys (f : memory -> memory) (s : paging) : paging := set_phys (f s.(phys)) s.

(** ** Components *)

Definition on_pmm {A} (m : M pmm A) : M paging A :=
  fun s => match m s.(frames) with
           | Done a p => Done a (set_frames p s)
           | Panic msg p => Panic msg (set_frames p s)
           | Fault => Fault
           | Spin => Spin
           end.

Definition on_vma_nodes {A} (m : M vma_pool A) : M paging A :=
  fun s => match m s.(vma_nodes) with
           | Done a p => Done a (set_vma_nodes p s)
           | Panic msg p => Panic msg (set_vma_nodes p s)
           | Fault => Fault
           | Spin => Spin
           end.

Definition space_at (i : Z) : M paging paging_space :=
  l <- gets paging_spaces ;;
  of_option (l !! Z.to_nat i).

Definition space_update (i : Z) (v : paging_space) : M paging unit :=
  modify (fun s => set_paging_spaces (<[Z.to_nat i := v]> s.(paging_spaces)) s).

Definition paging_invalidate_page (virtual_addr : Z) : M paging unit :=
  modify (fun s => set_tlb_log (Invlpg virtual_addr :: s.(tlb_log)) s).

(** [x86_write_cr3]. *)
Definition write_cr3 (v : Z) : M paging unit :=
  modify (fun s => set_tlb_log (Reload_cr3 v :: s.(tlb_log)) (set_cr3 v s)).

Definition paging_flush_tlb : M paging unit :=
  c <- gets cr3 ;;
  write_cr3 c.

(** ** Dereferencing a pointer to a table *)

Definition LEGACY_PT_RECURSIVE_BASE : Z := 0xFFC00000.
Definition LEGACY_PD_RECURSIVE_BASE : Z := 0xFFFFF000.

(** Tables are reached through the direct map, which is linear, or through the
    recursive entry of the legacy page directory: there the processor takes the
    directory itself for the page table, so page [i] of the window is the table of
    directory entry [i], and the last page is the directory. *)
Definition pointer_phys (s : paging) (p : Z) : Z :=
  let root := Z.land s.(cr3) 0xFFFFF000 in
  if p <? LEGACY_PT_RECURSIVE_BASE then p - KERNEL_VMA
  else if LEGACY_PD_RECURSIVE_BASE <=? p then root + (p - LEGACY_PD_RECURSIVE_BASE)
  else
    let pde := read_u32 s.(phys) (root + 4 * ((p - LEGACY_PT_RECURSIVE_BASE) / PAGE_SIZE)) in
    Z.land pde 0xFFFFF000 + (p mod PAGE_SIZE).

(** Element [i] of an array of 32-bit (64-bit) entries at [p]. *)
Definition load32 (p i : Z) : M paging Z := gets (fun s => read_u32 s.(phys) (pointer_phys s (p + 4 * i))).
Definition store32 (p i v : Z) : M paging unit :=
  modify (fun s => upd_phys (fun m => write_u32 m (pointer_phys s (p + 4 * i)) v) s).
Definition load64 (p i : Z) : M paging Z := gets (fun s => read_u64 s.(phys) (pointer_phys s (p + 8 * i))).
Definition store64 (p i v : Z) : M paging unit :=
  modify (fun s => upd_phys (fun m => write_u64 m (pointer_phys s (p + 8 * i)) v) s).

Definition align_down_u32 (value alignment : Z) : Z := Z.land value (u32 (Z.lnot (alignment - 1))).
Definition align_up_u32 (value alignment : Z) : Z :=
  Z.land (u32 (value + alignment - 1)) (u32 (Z.lnot (alignment - 1))).

Definition paging_address_is_user (virtual_addr : Z) : bool :=
  (PAGING_USER_BASE <=? virtual_addr) && (virtual_addr <? PAGING_USER_LIMIT).
Definition paging_address_is_kernel (virtual_addr : Z) : bool := KERNEL_VMA <=? virtual_addr.

(** ** Space records *)

Definition paging_allocate_space_record : M paging (option Z) :=
  for_range 0 PAGING_MAX_SPACES (fun i =>
    sp <- space_at i ;;
    if sp.(in_use) then ret None
    else
      space_update i (mk_space true 0 PMM_NUMA_NODE_ANY) ;;;
      ret (Some i)).

Definition paging_release_space_record (space : Z) : M paging unit :=
  space_update space (mk_space false 0 PMM_NUMA_NODE_ANY).
