(* ===== verification/PagingTables.v ===== *)
(** Page tables of the kernel: the legacy two-level tables and the PAE three-level
    tables of kernel/kernel/paging.c, and the direct map. *)
From S2P Require Import Prelude Bootinfo Pmm Vma PagingData.
From Stdlib Require Import ZArith Lia.
Open Scope Z_scope.

Section Tables.
Context (img : kernel_image).

(** ** Legacy 32-bit paging *)

Definition LEGACY_PDE_ENTRIES : Z := 1024.
Definition LEGACY_PTE_ENTRIES : Z := 1024.
Definition LEGACY_RECURSIVE_PDE_INDEX : Z := 1023.

Definition legacy_recursive_page_directory : Z := LEGACY_PD_RECURSIVE_BASE.

Definition legacy_directory_index_of (virtual_addr : Z) : Z := Z.shiftr virtual_addr 22.
Definition legacy_table_index_of (virtual_addr : Z) : Z := Z.land (Z.shiftr virtual_addr 12) 0x3FF.
Definition legacy_page_table_from_directory_index (directory_index : Z) : Z :=
  u32 (LEGACY_PT_RECURSIVE_BASE + directory_index * PAGE_SIZE).

(** The frame and whether the frame allocator gave it. *)
Definition legacy_alloc_page_table_frame : M paging (option (Z * bool)) :=
  ready <- on_pmm pmm_is_initialized ;;
  if ready : bool then
    f <- on_pmm (pmm_alloc_frame true) ;;
    match f with
    | None => ret None
    | Some physical => ret (Some (physical, true))
    end
  else
    next <- gets legacy_next_early_table ;;
    count <- gets legacy_early_table_count ;;
    if count <=? next then ret None
    else
      let table_virtual := img.(boot_page_table_pool) + 4 * (next * LEGACY_PTE_ENTRIES) in
      modify (set_legacy_next_early_table (u32 (next + 1))) ;;;
      ret (Some (u32 (table_virtual - KERNEL_VMA), false)).

Definition legacy_get_page_table (virtual_addr : Z) (create : bool) (page_flags : Z) : M paging (option Z) :=
  let dir := legacy_directory_index_of virtual_addr in
  if dir =? LEGACY_RECURSIVE_PDE_INDEX then ret None
  else
    pde <- load32 legacy_recursive_page_directory dir ;;
    if Z.land pde PAGE_PRESENT =? 0 then
      if negb create then ret None
      else
        r <- legacy_alloc_page_table_frame ;;
        match r with
        | None => ret None
        | Some (table_physical, backed_by_pmm) =>
            store32 legacy_recursive_page_directory dir
              (Z.lor (Z.lor (Z.lor (Z.land table_physical 0xFFFFF000) PAGE_PRESENT) PAGE_WRITABLE)
                     (Z.land page_flags PAGE_USER)) ;;;
            modify (fun s => set_legacy_table_backed_by_pmm
              (fun d => if d =? dir then backed_by_pmm else s.(legacy_table_backed_by_pmm) d) s) ;;;
            paging_flush_tlb ;;;
            let table := legacy_page_table_from_directory_index dir in
            for_each 0 LEGACY_PTE_ENTRIES (fun i => store32 table i 0) ;;;
            ret (Some table)
        end
    else
      (if negb (Z.land page_flags PAGE_USER =? 0) && (Z.land pde PAGE_USER =? 0) then
         store32 legacy_recursive_page_directory dir (Z.lor (Z.lor pde PAGE_USER) PAGE_WRITABLE) ;;;
         paging_flush_tlb
       else ret tt) ;;;
      ret (Some (legacy_page_table_from_directory_index dir)).

Definition legacy_translate_address (virtual_addr : Z) : M paging (option Z) :=
  let dir := legacy_directory_index_of virtual_addr in
  pde <- load32 legacy_recursive_page_directory dir ;;
  if Z.land pde PAGE_PRESENT =? 0 then ret None
  else if negb (Z.land pde 0x080 =? 0) then
    ret (Some (Z.lor (Z.land pde 0xFFC00000) (Z.land virtual_addr 0x003FFFFF)))
  else
    let table := legacy_page_table_from_directory_index dir in
    pte <- load32 table (legacy_table_index_of virtual_addr) ;;
    if Z.land pte PAGE_PRESENT =? 0 then ret None
    else ret (Some (Z.lor (Z.land pte 0xFFFFF000) (Z.land virtual_addr 0xFFF))).

Definition legacy_is_page_table_empty (directory_index : Z) : M paging bool :=
  let table := legacy_page_table_from_directory_index directory_index in
  r <- for_range 0 LEGACY_PTE_ENTRIES (fun i =>
    e <- load32 table i ;;
    ret (if negb (Z.land e PAGE_PRESENT =? 0) then Some tt else None)) ;;
  ret (match r with Some _ => false | None => true end).

Definition legacy_map_page (address physical_addr flags : Z) : M paging bool :=
  if negb (Z.land address 0xFFF =? 0) || negb (Z.land physical_addr 0xFFF =? 0) then ret false
  else if legacy_directory_index_of address =? LEGACY_RECURSIVE_PDE_INDEX then ret false
  else
    t <- legacy_get_page_table address true flags ;;
    match t with
    | None => ret false
    | Some table =>
        store32 table (legacy_table_index_of address)
          (Z.lor (Z.lor (Z.land physical_addr 0xFFFFF000) (Z.land flags 0x0FFF)) PAGE_PRESENT) ;;;
        paging_invalidate_page address ;;;
        ret true
    end.

Definition legacy_unmap_page (address : Z) : M paging unit :=
  let dir := legacy_directory_index_of address in
  if dir =? LEGACY_RECURSIVE_PDE_INDEX then ret tt
  else
    t <- legacy_get_page_table address false 0 ;;
    match t with
    | None => ret tt
    | Some table =>
        let index := legacy_table_index_of address in
        e <- load32 table index ;;
        if Z.land e PAGE_PRESENT =? 0 then ret tt
        else
          store32 table index 0 ;;;
          paging_invalidate_page address ;;;
          backed <- gets (fun s => s.(legacy_table_backed_by_pmm) dir) ;;
          ready <- on_pmm pmm_is_initialized ;;
          if negb backed || negb ready then ret tt
          else
            empty <- legacy_is_page_table_empty dir ;;
            if negb empty then ret tt
            else
              pde <- load32 legacy_recursive_page_directory dir ;;
              let table_physical := Z.land pde 0xFFFFF000 in
              store32 legacy_recursive_page_directory dir 0 ;;;
              modify (fun s => set_legacy_table_backed_by_pmm
                (fun d => if d =? dir then false else s.(legacy_table_backed_by_pmm) d) s) ;;;
              paging_flush_tlb ;;;
              on_pmm (pmm_free_frame table_physical)
    end.

Definition legacy_is_mapped (address : Z) : M paging bool :=
  t <- legacy_get_page_table address false 0 ;;
  match t with
  | None => ret false
  | Some table =>
      e <- load32 table (legacy_table_index_of address) ;;
      ret (negb (Z.land e PAGE_PRESENT =? 0))
  end.

(** The pages of [start, end), rounded outwards: the loop of the two protect
    functions. *)
Definition for_pages (start end_ : Z) (body : Z -> M paging unit) : M paging unit :=
  if end_ <=? start then ret tt
  else
    let aligned_start := align_down_u32 start PAGE_SIZE in
    let aligned_end := align_up_u32 end_ PAGE_SIZE in
    for_each 0 ((aligned_end - aligned_start + PAGE_SIZE - 1) / PAGE_SIZE)
      (fun i => body (aligned_start + i * PAGE_SIZE)).

Definition legacy_protect_range (start end_ : Z) : M paging unit :=
  for_pages start end_ (fun address =>
    t <- legacy_get_page_table address false 0 ;;
    match t with
    | None => ret tt
    | Some table =>
        let index := legacy_table_index_of address in
        e <- load32 table index ;;
        if Z.land e PAGE_PRESENT =? 0 then ret tt
        else
          store32 table index (Z.land e (u32 (Z.lnot PAGE_WRITABLE))) ;;;
          paging_invalidate_page address
    end).

(** ** PAE paging *)

Definition PAE_PDPT_ENTRIES : Z := 4.
Definition PAE_PDE_ENTRIES : Z := 512.
Definition PAE_PTE_ENTRIES : Z := 512.
Definition PAE_PDPT_ENTRY_LOW : Z := 0.
Definition PAE_PDPT_ENTRY_KERNEL : Z := 3.
Definition PAE_DIRECT_MAP_PDE_COUNT : Z := KERNEL_DIRECT_MAP_LIMIT_PHYS / (PAE_PTE_ENTRIES * PAGE_SIZE).
Definition PAE_DYNAMIC_PDE_START : Z := (KERNEL_DYNAMIC_BASE - KERNEL_VMA) / (PAE_PTE_ENTRIES * PAGE_SIZE).
Definition PAE_DYNAMIC_PDE_END : Z := (KERNEL_DYNAMIC_LIMIT - KERNEL_VMA) / (PAE_PTE_ENTRIES * PAGE_SIZE).
Definition PAE_DYNAMIC_PDE_COUNT : Z := PAE_DYNAMIC_PDE_END - PAE_DYNAMIC_PDE_START.

Definition PAE_ENTRY_PRESENT : Z := 0x001.
Definition PAE_ENTRY_WRITABLE : Z := 0x002.
Definition PAE_ENTRY_USER : Z := 0x004.
Definition PAE_ENTRY_PAGE_SIZE : Z := 0x080.
Definition PAE_ENTRY_ADDR_MASK : Z := 0x00000000FFFFF000.

Definition pae_make_entry (physical flags : Z) : Z := Z.lor (Z.land physical PAE_ENTRY_ADDR_MASK) flags.

Definition kernel_pointer_to_physical (address : Z) : M paging Z :=
  if address <? KERNEL_VMA then panic "kernel symbol is outside higher-half mapping"
  else ret (address - KERNEL_VMA).

Definition pae_pdpt_index_of (virtual_addr : Z) : Z := Z.shiftr virtual_addr 30.
Definition pae_directory_index_of (virtual_addr : Z) : Z := Z.land (Z.shiftr virtual_addr 21) 0x1FF.
Definition pae_table_index_of (virtual_addr : Z) : Z := Z.land (Z.shiftr virtual_addr 12) 0x1FF.

Definition pae_address_is_dynamic (virtual_addr : Z) : bool :=
  (KERNEL_DYNAMIC_BASE <=? virtual_addr) && (virtual_addr <? KERNEL_DYNAMIC_LIMIT).
Definition pae_directory_is_dynamic (directory_index : Z) : bool :=
  (PAE_DYNAMIC_PDE_START <=? directory_index) && (directory_index <? PAE_DYNAMIC_PDE_END).

(** Table [i] of an array of page tables. *)
Definition table_at (tables i : Z) : Z := tables + 8 * (i * PAE_PTE_ENTRIES).

Definition pae_page_table_for_directory (directory_index : Z) : option Z :=
  if directory_index <? PAE_DIRECT_MAP_PDE_COUNT
  then Some (table_at img.(pae_direct_map_page_tables) directory_index)
  else if pae_directory_is_dynamic directory_index
  then Some (table_at img.(pae_dynamic_page_tables) (directory_index - PAE_DYNAMIC_PDE_START))
  else None.

Definition pae_table_has_present_entries (table entry_count : Z) : M paging bool :=
  r <- for_range 0 entry_count (fun i =>
    e <- load64 table i ;;
    ret (if negb (Z.land e PAE_ENTRY_PRESENT =? 0) then Some tt else None)) ;;
  ret (match r with Some _ => true | None => false end).

Definition pae_is_page_table_empty (directory_index : Z) : M paging bool :=
  match pae_page_table_for_directory directory_index with
  | None => ret true
  | Some table =>
      r <- for_range 0 PAE_PTE_ENTRIES (fun i =>
        e <- load64 table i ;;
        ret (if negb (Z.land e PAE_ENTRY_PRESENT =? 0) then Some tt else None)) ;;
      ret (match r with Some _ => false | None => true end)
  end.

Definition pae_prepare_bootstrap_tables : M paging unit :=
  let rw := Z.lor PAE_ENTRY_PRESENT PAE_ENTRY_WRITABLE in
  for_each 0 PAE_PDPT_ENTRIES (fun i => store64 img.(pae_pdpt) i 0) ;;;
  for_each 0 PAE_PDE_ENTRIES (fun pde => store64 img.(pae_identity_page_directory) pde 0) ;;;
  for_each 0 PAE_PDE_ENTRIES (fun pde => store64 img.(pae_kernel_page_directory) pde 0) ;;;
  for_each 0 PAE_DIRECT_MAP_PDE_COUNT (fun pde =>
    for_each 0 PAE_PTE_ENTRIES (fun pte => store64 (table_at img.(pae_direct_map_page_tables) pde) pte 0)) ;;;
  for_each 0 PAE_DYNAMIC_PDE_COUNT (fun pde =>
    for_each 0 PAE_PTE_ENTRIES (fun pte => store64 (table_at img.(pae_dynamic_page_tables) pde) pte 0)) ;;;
  for_each 0 2 (fun table =>
    for_each 0 PAE_PTE_ENTRIES (fun entry =>
      let physical := u32 (u32 (table * PAE_PTE_ENTRIES + entry) * PAGE_SIZE) in
      store64 (table_at img.(pae_identity_page_tables) table) entry (pae_make_entry physical rw)) ;;;
    t <- kernel_pointer_to_physical (table_at img.(pae_identity_page_tables) table) ;;
    store64 img.(pae_identity_page_directory) table (pae_make_entry t rw)) ;;;
  for_each 0 PAE_DIRECT_MAP_PDE_COUNT (fun pde =>
    let table := table_at img.(pae_direct_map_page_tables) pde in
    t <- kernel_pointer_to_physical table ;;
    store64 img.(pae_kernel_page_directory) pde (pae_make_entry t rw) ;;;
    let base_physical := u32 (u32 (pde * PAE_PTE_ENTRIES) * PAGE_SIZE) in
    for_each 0 PAE_PTE_ENTRIES (fun pte =>
      let physical := u32 (base_physical + u32 (pte * PAGE_SIZE)) in
      store64 table pte (pae_make_entry physical rw))) ;;;
  d <- kernel_pointer_to_physical img.(pae_identity_page_directory) ;;
  store64 img.(pae_pdpt) PAE_PDPT_ENTRY_LOW (pae_make_entry d PAE_ENTRY_PRESENT) ;;;
  k <- kernel_pointer_to_physical img.(pae_kernel_page_directory) ;;
  store64 img.(pae_pdpt) PAE_PDPT_ENTRY_KERNEL (pae_make_entry k PAE_ENTRY_PRESENT).

(** The trampoline (arch/i386/pae_switch.S) turns PAE on and loads CR3. *)
Definition pae_activate_runtime : M paging unit :=
  pdpt_physical <- kernel_pointer_to_physical img.(pae_pdpt) ;;
  if img.(i386_pae_trampoline) <? KERNEL_VMA then panic "PAE trampoline is outside higher-half mapping"
  else
    let trampoline_physical := img.(i386_pae_trampoline) - KERNEL_VMA in
    if img.(boot_stack) <? KERNEL_VMA then panic "unexpected stack outside higher-half during PAE switch"
    else
      let low_stack := img.(boot_stack) - KERNEL_VMA in
      if BOOTSTRAP_WINDOW_SIZE <=? low_stack
      then panic "PAE switch stack is outside identity-mapped bootstrap window"
      else if BOOTSTRAP_WINDOW_SIZE <=? trampoline_physical
      then panic "PAE trampoline is outside identity-mapped bootstrap window"
      else write_cr3 pdpt_physical.

Definition pae_translate_address (virtual_addr : Z) : M paging (option Z) :=
  let pdpt_index := pae_pdpt_index_of virtual_addr in
  let directory_index := pae_directory_index_of virtual_addr in
  let table_index := pae_table_index_of virtual_addr in
  pdpte <- load64 img.(pae_pdpt) pdpt_index ;;
  if Z.land pdpte PAE_ENTRY_PRESENT =? 0 then ret None
  else if pdpt_index =? PAE_PDPT_ENTRY_KERNEL then
    pde <- load64 img.(pae_kernel_page_directory) directory_index ;;
    if Z.land pde PAE_ENTRY_PRESENT =? 0 then ret None
    else if negb (Z.land pde PAE_ENTRY_PAGE_SIZE =? 0) then
      ret (Some (Z.lor (Z.land pde 0x00000000FFE00000) (Z.land virtual_addr 0x001FFFFF)))
    else
      match pae_page_table_for_directory directory_index with
      | None => ret None
      | Some table =>
          pte <- load64 table table_index ;;
          if Z.land pte PAE_ENTRY_PRESENT =? 0 then ret None
          else ret (Some (Z.lor (Z.land pte PAE_ENTRY_ADDR_MASK) (Z.land virtual_addr 0xFFF)))
      end
  else if pdpt_index =? PAE_PDPT_ENTRY_LOW then
    if 2 <=? directory_index then ret None
    else
      pde <- load64 img.(pae_identity_page_directory) directory_index ;;
      if Z.land pde PAE_ENTRY_PRESENT =? 0 then ret None
      else
        pte <- load64 (table_at img.(pae_identity_page_tables) directory_index) table_index ;;
        if Z.land pte PAE_ENTRY_PRESENT =? 0 then ret None
        else ret (Some (Z.lor (Z.land pte PAE_ENTRY_ADDR_MASK) (Z.land virtual_addr 0xFFF)))
  else ret None.

Definition pae_map_page (address physical_addr flags : Z) : M paging bool :=
  let directory_index := pae_directory_index_of address in
  let table_index := pae_table_index_of address in
  if negb (Z.land address 0xFFF =? 0) || negb (Z.land physical_addr 0xFFF =? 0) then ret false
  else if negb (pae_address_is_dynamic address) || negb (pae_pdpt_index_of address =? PAE_PDPT_ENTRY_KERNEL)
  then ret false
  else if negb (pae_directory_is_dynamic directory_index) then ret false
  else
    match pae_page_table_for_directory directory_index with
    | None => ret false
    | Some table =>
        pde <- load64 img.(pae_kernel_page_directory) directory_index ;;
        (if Z.land pde PAE_ENTRY_PRESENT =? 0 then
           for_each 0 PAE_PTE_ENTRIES (fun i => store64 table i 0) ;;;
           t <- kernel_pointer_to_physical table ;;
           store64 img.(pae_kernel_page_directory) directory_index
             (pae_make_entry t (Z.lor (Z.lor PAE_ENTRY_PRESENT PAE_ENTRY_WRITABLE)
                (if negb (Z.land flags PAGE_USER =? 0) then PAE_ENTRY_USER else 0)))
         else if negb (Z.land flags PAGE_USER =? 0) && (Z.land pde PAE_ENTRY_USER =? 0) then
           store64 img.(pae_kernel_page_directory) directory_index (Z.lor (Z.lor pde PAE_ENTRY_USER) PAE_ENTRY_WRITABLE)
         else ret tt) ;;;
        store64 table table_index (pae_make_entry physical_addr (Z.lor PAE_ENTRY_PRESENT (Z.land flags 0x0FFF))) ;;;
        paging_invalidate_page address ;;;
        ret true
    end.

Definition pae_unmap_page (address : Z) : M paging unit :=
  if negb (pae_address_is_dynamic address) || negb (pae_pdpt_index_of address =? PAE_PDPT_ENTRY_KERNEL)
  then ret tt
  else
    let directory_index := pae_directory_index_of address in
    let table_index := pae_table_index_of address in
    if negb (pae_directory_is_dynamic directory_index) then ret tt
    else
      match pae_page_table_for_directory directory_index with
      | None => ret tt
      | Some table =>
          pde <- load64 img.(pae_kernel_page_directory) directory_index ;;
          if Z.land pde PAE_ENTRY_PRESENT =? 0 then ret tt
          else
            pte <- load64 table table_index ;;
            if Z.land pte PAE_ENTRY_PRESENT =? 0 then ret tt
            else
              store64 table table_index 0 ;;;
              paging_invalidate_page address ;;;
              empty <- pae_is_page_table_empty directory_index ;;
              if negb empty then ret tt
              else store64 img.(pae_kernel_page_directory) directory_index 0
      end.

Definition pae_is_mapped (virtual_addr : Z) : M paging bool :=
  r <- pae_translate_address virtual_addr ;;
  ret (match r with Some _ => true | None => false end).

Definition pae_protect_range (start end_ : Z) : M paging unit :=
  for_pages start end_ (fun address =>
    if negb (pae_pdpt_index_of address =? PAE_PDPT_ENTRY_KERNEL) then ret tt
    else
      let directory_index := pae_directory_index_of address in
      let table_index := pae_table_index_of address in
      pde <- load64 img.(pae_kernel_page_directory) directory_index ;;
      if Z.land pde PAE_ENTRY_PRESENT =? 0 then ret tt
      else
        match pae_page_table_for_directory directory_index with
        | None => ret tt
        | Some table =>
            pte <- load64 table table_index ;;
            if Z.land pte PAE_ENTRY_PRESENT =? 0 then ret tt
            else
              store64 table table_index (Z.land pte (u64 (Z.lnot PAE_ENTRY_WRITABLE))) ;;;
              paging_invalidate_page address
        end).

(** ** The direct map *)

Definition paging_phys_to_virt (physical : Z) : M paging Z :=
  if KERNEL_DIRECT_MAP_LIMIT_PHYS <=? physical
  then panic "physical address exceeds direct-map aperture"
  else
    let virtual_addr := u32 (KERNEL_VMA + physical) in
    let virtual_page := align_down_u32 virtual_addr PAGE_SIZE in
    let physical_page := align_down_u32 physical PAGE_SIZE in
    mode <- gets paging_mode ;;
    (match mode with
     | PAGING_MODE_LEGACY =>
         mapped <- legacy_is_mapped virtual_page ;;
         if negb mapped then
           ok <- legacy_map_page virtual_page physical_page PAGE_WRITABLE ;;
           if negb ok then panic "failed to map physical page into direct map" else ret tt
         else ret tt
     | PAGING_MODE_PAE =>
         mapped <- pae_is_mapped virtual_page ;;
         if negb mapped then panic "PAE direct map is missing virtual page" else ret tt
     end) ;;;
    ret virtual_addr.
End Tables.
