(* ===== verification/Paging.v ===== *)
(** Address spaces and the paging interface: the rest of kernel/kernel/paging.c. *)
From S2P Require Import Prelude Bootinfo Pmm Vma PagingData PagingTables.
From Stdlib Require Import ZArith Lia.
Open Scope Z_scope.

Section Spaces.
Context (img : kernel_image).

(** The pointer comparison [space == current_space]. *)
Definition is_current (space : Z) : M paging bool :=
  cur <- gets current_space ;;
  ret (bool_decide (cur = Some space)).

(** ** Legacy spaces *)

Definition legacy_space_page_directory (space : Z) : M paging Z :=
  sp <- space_at space ;;
  paging_phys_to_virt img (Z.land sp.(root_physical) 0xFFFFF000).

Definition legacy_page_table_from_pde (pde : Z) : M paging Z := paging_phys_to_virt img (Z.land pde 0xFFFFF000).

Definition legacy_translate_address_in_space (space virtual_addr : Z) : M paging (option Z) :=
  directory <- legacy_space_page_directory space ;;
  pde <- load32 directory (legacy_directory_index_of virtual_addr) ;;
  if Z.land pde PAGE_PRESENT =? 0 then ret None
  else if negb (Z.land pde 0x080 =? 0) then
    ret (Some (Z.lor (Z.land pde 0xFFC00000) (Z.land virtual_addr 0x003FFFFF)))
  else
    table <- legacy_page_table_from_pde pde ;;
    pte <- load32 table (legacy_table_index_of virtual_addr) ;;
    if Z.land pte PAGE_PRESENT =? 0 then ret None
    else ret (Some (Z.lor (Z.land pte 0xFFFFF000) (Z.land virtual_addr 0xFFF))).

Definition legacy_map_user_page_in_space (space virtual_addr physical_addr flags : Z) : M paging bool :=
  let directory_index := legacy_directory_index_of virtual_addr in
  let table_index := legacy_table_index_of virtual_addr in
  directory <- legacy_space_page_directory space ;;
  pde <- load32 directory directory_index ;;
  t <- (if Z.land pde PAGE_PRESENT =? 0 then
          sp <- space_at space ;;
          f <- on_pmm (pmm_alloc_frame_on_node sp.(preferred_numa_node) true) ;;
          match f with
          | None => ret None
          | Some table_physical =>
              table <- paging_phys_to_virt img table_physical ;;
              for_each 0 LEGACY_PTE_ENTRIES (fun i => store32 table i 0) ;;;
              let pde := Z.lor (Z.lor (Z.lor (Z.land table_physical 0xFFFFF000) PAGE_PRESENT) PAGE_WRITABLE) PAGE_USER in
              store32 directory directory_index pde ;;;
              ret (Some table)
          end
        else
          pde <- (if Z.land pde PAGE_USER =? 0 then
                    let pde := Z.lor pde (Z.lor PAGE_USER PAGE_WRITABLE) in
                    store32 directory directory_index pde ;;; ret pde
                  else ret pde) ;;
          table <- legacy_page_table_from_pde pde ;;
          ret (Some table)) ;;
  match t with
  | None => ret false
  | Some table =>
      store32 table table_index
        (Z.lor (Z.lor (Z.lor (Z.land physical_addr 0xFFFFF000) PAGE_PRESENT) PAGE_USER) (Z.land flags 0x0FFF)) ;;;
      cur <- is_current space ;;
      (if cur : bool then paging_invalidate_page virtual_addr else ret tt) ;;;
      ret true
  end.

Definition legacy_unmap_user_page_in_space (space virtual_addr : Z) : M paging unit :=
  let directory_index := legacy_directory_index_of virtual_addr in
  let table_index := legacy_table_index_of virtual_addr in
  directory <- legacy_space_page_directory space ;;
  pde <- load32 directory directory_index ;;
  if Z.land pde PAGE_PRESENT =? 0 then ret tt
  else
    table <- legacy_page_table_from_pde pde ;;
    pte <- load32 table table_index ;;
    if Z.land pte PAGE_PRESENT =? 0 then ret tt
    else
      store32 table table_index 0 ;;;
      cur <- is_current space ;;
      (if cur : bool then paging_invalidate_page virtual_addr else ret tt) ;;;
      r <- for_range 0 LEGACY_PTE_ENTRIES (fun i =>
        e <- load32 table i ;;
        ret (if negb (Z.land e PAGE_PRESENT =? 0) then Some tt else None)) ;;
      match r with
      | Some _ => ret tt
      | None =>
          store32 directory directory_index 0 ;;;
          (if cur : bool then paging_flush_tlb else ret tt) ;;;
          on_pmm (pmm_free_frame (Z.land pde 0xFFFFF000))
      end.

(** ** PAE spaces *)

Definition pae_space_pdpt (space : Z) : M paging Z :=
  sp <- space_at space ;;
  paging_phys_to_virt img (Z.land sp.(root_physical) 0xFFFFF000).

Definition pae_entry_pointer (entry : Z) : M paging Z :=
  paging_phys_to_virt img (u32 (Z.land entry PAE_ENTRY_ADDR_MASK)).

Definition pae_translate_address_in_space (space virtual_addr : Z) : M paging (option Z) :=
  let pdpt_index := pae_pdpt_index_of virtual_addr in
  let directory_index := pae_directory_index_of virtual_addr in
  let table_index := pae_table_index_of virtual_addr in
  pdpt <- pae_space_pdpt space ;;
  pdpte <- load64 pdpt pdpt_index ;;
  if Z.land pdpte PAE_ENTRY_PRESENT =? 0 then ret None
  else
    directory <- pae_entry_pointer pdpte ;;
    pde <- load64 directory directory_index ;;
    if Z.land pde PAE_ENTRY_PRESENT =? 0 then ret None
    else if negb (Z.land pde PAE_ENTRY_PAGE_SIZE =? 0) then
      ret (Some (Z.lor (Z.land pde 0x00000000FFE00000) (Z.land virtual_addr 0x001FFFFF)))
    else
      table <- pae_entry_pointer pde ;;
      pte <- load64 table table_index ;;
      if Z.land pte PAE_ENTRY_PRESENT =? 0 then ret None
      else ret (Some (Z.lor (Z.land pte PAE_ENTRY_ADDR_MASK) (Z.land virtual_addr 0xFFF))).

(** The entry [index] of [table], made present: the next table, newly allocated and
    cleared when there was none, and user accessible.  Both levels of
    [pae_map_user_page_in_space] do this. *)
Definition pae_descend (space table index entries : Z) : M paging (option Z) :=
  let rwu := Z.lor (Z.lor PAE_ENTRY_PRESENT PAE_ENTRY_WRITABLE) PAE_ENTRY_USER in
  entry <- load64 table index ;;
  if Z.land entry PAE_ENTRY_PRESENT =? 0 then
    sp <- space_at space ;;
    f <- on_pmm (pmm_alloc_frame_on_node sp.(preferred_numa_node) true) ;;
    match f with
    | None => ret None
    | Some physical =>
        next <- paging_phys_to_virt img physical ;;
        for_each 0 entries (fun i => store64 next i 0) ;;;
        store64 table index (pae_make_entry physical rwu) ;;;
        ret (Some next)
    end
  else
    entry <- (if Z.land entry PAE_ENTRY_USER =? 0 then
                let entry := Z.lor entry (Z.lor PAE_ENTRY_USER PAE_ENTRY_WRITABLE) in
                store64 table index entry ;;; ret entry
              else ret entry) ;;
    next <- pae_entry_pointer entry ;;
    ret (Some next).

Definition pae_map_user_page_in_space (space virtual_addr physical_addr flags : Z) : M paging bool :=
  let pdpt_index := pae_pdpt_index_of virtual_addr in
  let directory_index := pae_directory_index_of virtual_addr in
  let table_index := pae_table_index_of virtual_addr in
  pdpt <- pae_space_pdpt space ;;
  d <- pae_descend space pdpt pdpt_index PAE_PDE_ENTRIES ;;
  match d with
  | None => ret false
  | Some directory =>
      t <- pae_descend space directory directory_index PAE_PTE_ENTRIES ;;
      match t with
      | None => ret false
      | Some table =>
          store64 table table_index
            (pae_make_entry physical_addr
               (Z.lor (Z.lor PAE_ENTRY_PRESENT PAE_ENTRY_USER) (Z.land flags 0x0FFF))) ;;;
          cur <- is_current space ;;
          (if cur : bool then paging_invalidate_page virtual_addr else ret tt) ;;;
          ret true
      end
  end.

Definition pae_unmap_user_page_in_space (space virtual_addr : Z) : M paging unit :=
  let pdpt_index := pae_pdpt_index_of virtual_addr in
  let directory_index := pae_directory_index_of virtual_addr in
  let table_index := pae_table_index_of virtual_addr in
  pdpt <- pae_space_pdpt space ;;
  pdpte <- load64 pdpt pdpt_index ;;
  if Z.land pdpte PAE_ENTRY_PRESENT =? 0 then ret tt
  else
    directory <- pae_entry_pointer pdpte ;;
    pde <- load64 directory directory_index ;;
    if (Z.land pde PAE_ENTRY_PRESENT =? 0) || negb (Z.land pde PAE_ENTRY_PAGE_SIZE =? 0) then ret tt
    else
      table <- pae_entry_pointer pde ;;
      pte <- load64 table table_index ;;
      if Z.land pte PAE_ENTRY_PRESENT =? 0 then ret tt
      else
        store64 table table_index 0 ;;;
        cur <- is_current space ;;
        (if cur : bool then paging_invalidate_page virtual_addr else ret tt) ;;;
        present <- pae_table_has_present_entries table PAE_PTE_ENTRIES ;;
        if present : bool then ret tt
        else
          store64 directory directory_index 0 ;;;
          on_pmm (pmm_free_frame (u32 (Z.land pde PAE_ENTRY_ADDR_MASK))) ;;;
          present <- pae_table_has_present_entries directory PAE_PDE_ENTRIES ;;
          if present : bool then ret tt
          else
            store64 pdpt pdpt_index 0 ;;;
            on_pmm (pmm_free_frame (u32 (Z.land pdpte PAE_ENTRY_ADDR_MASK))) ;;;
            cur <- is_current space ;;
            if cur : bool then paging_flush_tlb else ret tt.

(** ** Translation and initialisation *)

Definition paging_translate_address (virtual_addr : Z) : M paging (option Z) :=
  cur <- gets current_space ;;
  mode <- gets paging_mode ;;
  match cur, mode with
  | Some space, PAGING_MODE_PAE => pae_translate_address_in_space space virtual_addr
  | Some space, PAGING_MODE_LEGACY => legacy_translate_address_in_space space virtual_addr
  | None, PAGING_MODE_PAE => pae_translate_address img virtual_addr
  | None, PAGING_MODE_LEGACY => legacy_translate_address virtual_addr
  end.

Definition paging_apply_kernel_protections : M paging unit :=
  mode <- gets paging_mode ;;
  match mode with
  | PAGING_MODE_PAE =>
      pae_protect_range img img.(text_start) img.(text_end) ;;;
      pae_protect_range img img.(rodata_start) img.(rodata_end)
  | PAGING_MODE_LEGACY =>
      legacy_protect_range img img.(text_start) img.(text_end) ;;;
      legacy_protect_range img img.(rodata_start) img.(rodata_end)
  end.

Definition paging_init : M paging unit :=
  modify (set_legacy_early_table_count
    (u32 ((img.(boot_page_table_pool_end) - img.(boot_page_table_pool)) / PAGE_SIZE))) ;;;
  modify (set_legacy_next_early_table 0) ;;;
  modify (set_legacy_table_backed_by_pmm (fun _ => false)) ;;;
  for_each 0 PAGING_MAX_SPACES (fun i =>
    sp <- space_at i ;;
    space_update i (mk_space false sp.(root_physical) sp.(preferred_numa_node))) ;;;
  modify (set_kernel_space None) ;;;
  modify (set_current_space None) ;;;
  modify (set_kernel_vma_tree vma_tree_init) ;;;
  modify (set_pae_supported img.(cpu_has_pae)) ;;;
  modify (set_pae_ready false) ;;;
  modify (set_pae_active false) ;;;
  modify (set_paging_mode PAGING_MODE_LEGACY) ;;;
  (if img.(cpu_has_pae) then
     pae_prepare_bootstrap_tables img ;;;
     pae_activate_runtime img ;;;
     modify (set_paging_mode PAGING_MODE_PAE) ;;;
     modify (set_pae_active true) ;;;
     modify (set_pae_ready true)
   else ret tt) ;;;
  root <- gets cr3 ;;
  space_update 0 (mk_space true (Z.land root 0xFFFFF000) PMM_NUMA_NODE_ANY) ;;;
  modify (set_kernel_space (Some 0)) ;;;
  modify (set_current_space (Some 0)) ;;;
  paging_apply_kernel_protections.

(** Every 4 MB from [lo] to [hi]. *)
Definition prepare_tables (lo hi : Z) : M paging unit :=
  let step := LEGACY_PTE_ENTRIES * PAGE_SIZE in
  for_each 0 ((hi - lo) / step) (fun i =>
    legacy_get_page_table img (lo + i * step) true PAGE_WRITABLE ;;; ret tt).

Definition paging_finalize_bootstrap : M paging unit :=
  ready <- on_pmm pmm_is_initialized ;;
  if negb ready then ret tt
  else
    mode <- gets paging_mode ;;
    match mode with
    | PAGING_MODE_PAE => ret tt
    | PAGING_MODE_LEGACY =>
        prepare_tables KERNEL_VMA (KERNEL_VMA + KERNEL_DIRECT_MAP_LIMIT_PHYS) ;;;
        prepare_tables KERNEL_DYNAMIC_BASE KERNEL_DYNAMIC_LIMIT ;;;
        paging_flush_tlb
    end.

Definition paging_pae_supported : M paging bool := gets pae_supported.
Definition paging_pae_ready : M paging bool := gets pae_ready.
Definition paging_mode_name : M paging string :=
  a <- gets pae_active ;;
  ret (if a : bool then "PAE 32-bit paging" else "legacy 32-bit paging").

Definition paging_virt_to_phys (virtual_addr : Z) : M paging Z :=
  r <- paging_translate_address virtual_addr ;;
  match r with
  | None => panic "paging_virt_to_phys on unmapped address"
  | Some physical => ret physical
  end.

Definition paging_window_end_phys : Z := BOOTSTRAP_WINDOW_SIZE.

(** ** Kernel pages *)

Definition paging_map_page (address physical_addr flags : Z) : M paging bool :=
  if negb (paging_address_is_kernel address) then ret false
  else if negb (Z.land flags PAGE_USER =? 0) then ret false
  else
    mode <- gets paging_mode ;;
    match mode with
    | PAGING_MODE_PAE => pae_map_page img address physical_addr flags
    | PAGING_MODE_LEGACY => legacy_map_page img address physical_addr flags
    end.

Definition paging_unmap_page (address : Z) : M paging unit :=
  if negb (paging_address_is_kernel address) then ret tt
  else
    mode <- gets paging_mode ;;
    match mode with
    | PAGING_MODE_PAE => pae_unmap_page img address
    | PAGING_MODE_LEGACY => legacy_unmap_page img address
    end.

Definition paging_is_mapped (address : Z) : M paging bool :=
  mode <- gets paging_mode ;;
  match mode with
  | PAGING_MODE_PAE => pae_is_mapped img address
  | PAGING_MODE_LEGACY => legacy_is_mapped img address
  end.

(** ** Spaces *)

Definition paging_kernel_space : M paging (option Z) := gets kernel_space.
Definition paging_current_space : M paging (option Z) := gets current_space.

Definition paging_space_root_physical (space : option Z) : M paging Z :=
  match space with
  | None => ret 0
  | Some i => sp <- space_at i ;; ret sp.(root_physical)
  end.

Definition paging_switch_space (space : option Z) : M paging unit :=
  match space with
  | None => ret tt
  | Some i =>
      sp <- space_at i ;;
      cur <- is_current i ;;
      if negb sp.(in_use) || cur then ret tt
      else
        modify (set_current_space (Some i)) ;;;
        write_cr3 (Z.land sp.(root_physical) 0xFFFFF000)
  end.

(** The record of a new space whose root is [physical]; the frame goes back when
    there is none. *)
Definition register_space (physical node : Z) : M paging (option Z) :=
  r <- paging_allocate_space_record ;;
  match r with
  | None => on_pmm (pmm_free_frame physical) ;;; ret None
  | Some space =>
      space_update space (mk_space true (Z.land physical 0xFFFFF000) node) ;;;
      ret (Some space)
  end.

Definition legacy_create_process_space (node : Z) : M paging (option Z) :=
  f <- on_pmm (pmm_alloc_frame_on_node node true) ;;
  match f with
  | None => ret None
  | Some directory_physical =>
      directory <- paging_phys_to_virt img (Z.land directory_physical 0xFFFFF000) ;;
      for_each 0 LEGACY_PDE_ENTRIES (fun i => store32 directory i 0) ;;;
      k <- gets kernel_space ;;
      k <- of_option k ;;
      kernel_directory <- legacy_space_page_directory k ;;
      for_each (legacy_directory_index_of KERNEL_VMA) LEGACY_RECURSIVE_PDE_INDEX (fun i =>
        e <- load32 kernel_directory i ;;
        store32 directory i e) ;;;
      store32 directory LEGACY_RECURSIVE_PDE_INDEX
        (Z.lor (Z.lor (Z.land directory_physical 0xFFFFF000) PAGE_PRESENT) PAGE_WRITABLE) ;;;
      register_space directory_physical node
  end.

Definition pae_create_process_space (node : Z) : M paging (option Z) :=
  f <- on_pmm (pmm_alloc_frame_on_node node true) ;;
  match f with
  | None => ret None
  | Some pdpt_physical =>
      pdpt <- paging_phys_to_virt img (Z.land pdpt_physical 0xFFFFF000) ;;
      for_each 0 PAE_PTE_ENTRIES (fun i => store64 pdpt i 0) ;;;
      k <- kernel_pointer_to_physical img.(pae_kernel_page_directory) ;;
      store64 pdpt PAE_PDPT_ENTRY_KERNEL (pae_make_entry k PAE_ENTRY_PRESENT) ;;;
      register_space pdpt_physical node
  end.

Definition paging_create_process_space_on_node (node : Z) : M paging (option Z) :=
  ready <- on_pmm pmm_is_initialized ;;
  k <- gets kernel_space ;;
  if negb ready then ret None
  else
    match k with
    | None => ret None
    | Some _ =>
        mode <- gets paging_mode ;;
        match mode with
        | PAGING_MODE_PAE => pae_create_process_space node
        | PAGING_MODE_LEGACY => legacy_create_process_space node
        end
    end.

Definition paging_create_process_space : M paging (option Z) :=
  paging_create_process_space_on_node PMM_NUMA_NODE_ANY.

Definition legacy_destroy_process_space (space : Z) : M paging unit :=
  directory <- legacy_space_page_directory space ;;
  for_each 0 (legacy_directory_index_of KERNEL_VMA) (fun dir =>
    pde <- load32 directory dir ;;
    if Z.land pde PAGE_PRESENT =? 0 then ret tt
    else
      table <- legacy_page_table_from_pde pde ;;
      for_each 0 LEGACY_PTE_ENTRIES (fun idx =>
        pte <- load32 table idx ;;
        if Z.land pte PAGE_PRESENT =? 0 then ret tt
        else on_pmm (pmm_free_frame (Z.land pte 0xFFFFF000))) ;;;
      on_pmm (pmm_free_frame (Z.land pde 0xFFFFF000))) ;;;
  sp <- space_at space ;;
  on_pmm (pmm_free_frame (Z.land sp.(root_physical) 0xFFFFF000)).

Definition pae_destroy_process_space (space : Z) : M paging unit :=
  pdpt <- pae_space_pdpt space ;;
  for_each 0 PAE_PDPT_ENTRY_KERNEL (fun pdpt_index =>
    pdpte <- load64 pdpt pdpt_index ;;
    if Z.land pdpte PAE_ENTRY_PRESENT =? 0 then ret tt
    else
      directory <- pae_entry_pointer pdpte ;;
      for_each 0 PAE_PDE_ENTRIES (fun pde_index =>
        pde <- load64 directory pde_index ;;
        if (Z.land pde PAE_ENTRY_PRESENT =? 0) || negb (Z.land pde PAE_ENTRY_PAGE_SIZE =? 0) then ret tt
        else
          table <- pae_entry_pointer pde ;;
          for_each 0 PAE_PTE_ENTRIES (fun pte_index =>
            pte <- load64 table pte_index ;;
            if Z.land pte PAE_ENTRY_PRESENT =? 0 then ret tt
            else on_pmm (pmm_free_frame (u32 (Z.land pte PAE_ENTRY_ADDR_MASK)))) ;;;
          on_pmm (pmm_free_frame (u32 (Z.land pde PAE_ENTRY_ADDR_MASK)))) ;;;
      on_pmm (pmm_free_frame (u32 (Z.land pdpte PAE_ENTRY_ADDR_MASK)))) ;;;
  sp <- space_at space ;;
  on_pmm (pmm_free_frame (Z.land sp.(root_physical) 0xFFFFF000)).

Definition paging_destroy_process_space (space : option Z) : M paging unit :=
  match space with
  | None => ret tt
  | Some i =>
      sp <- space_at i ;;
      k <- gets kernel_space ;;
      if negb sp.(in_use) || bool_decide (k = Some i) then ret tt
      else
        cur <- is_current i ;;
        (if cur : bool then paging_switch_space k else ret tt) ;;;
        mode <- gets paging_mode ;;
        (match mode with
         | PAGING_MODE_PAE => pae_destroy_process_space i
         | PAGING_MODE_LEGACY => legacy_destroy_process_space i
         end) ;;;
        paging_release_space_record i
  end.

(** The out pointer is [out]: [false] for NULL. *)
Definition paging_lookup_physical (space : option Z) (address : Z) (out : bool) : M paging (option Z) :=
  match space with
  | None => ret None
  | Some i =>
      if negb out then ret None
      else
        mode <- gets paging_mode ;;
        match mode with
        | PAGING_MODE_PAE => pae_translate_address_in_space i address
        | PAGING_MODE_LEGACY => legacy_translate_address_in_space i address
        end
  end.

Definition paging_map_user_page (space : option Z) (address physical_addr flags : Z) : M paging bool :=
  match space with
  | None => ret false
  | Some i =>
      sp <- space_at i ;;
      if negb sp.(in_use) then ret false
      else if negb (paging_address_is_user address) then ret false
      else if negb (Z.land address 0xFFF =? 0) || negb (Z.land physical_addr 0xFFF =? 0) then ret false
      else
        mode <- gets paging_mode ;;
        match mode with
        | PAGING_MODE_PAE => pae_map_user_page_in_space i address physical_addr (Z.lor flags PAGE_USER)
        | PAGING_MODE_LEGACY => legacy_map_user_page_in_space i address physical_addr (Z.lor flags PAGE_USER)
        end
  end.

Definition paging_unmap_user_page (space : option Z) (address : Z) : M paging unit :=
  match space with
  | None => ret tt
  | Some i =>
      sp <- space_at i ;;
      if negb sp.(in_use) then ret tt
      else if negb (paging_address_is_user address) then ret tt
      else
        mode <- gets paging_mode ;;
        match mode with
        | PAGING_MODE_PAE => pae_unmap_user_page_in_space i address
        | PAGING_MODE_LEGACY => legacy_unmap_user_page_in_space i address
        end
  end.

(** ** Runs of kernel pages *)

(** [inl]: the number of mapped pages after page [i]; [inr]: the same when an
    allocation failed, for the rollback. *)
Definition alloc_page (base_virtual node i mapped_pages : Z) : M paging (Z + Z) :=
  f <- on_pmm (pmm_alloc_frame_on_node node true) ;;
  match f with
  | None => ret (inr mapped_pages)
  | Some frame =>
      let virtual_page := u32 (base_virtual + u32 (i * PAGE_SIZE)) in
      ok <- paging_map_page virtual_page frame PAGE_WRITABLE ;;
      if negb ok then on_pmm (pmm_free_frame frame) ;;; ret (inr mapped_pages)
      else ret (inl (u32 (mapped_pages + 1)))
  end.

(** Frees and unmaps page [i] of the run. *)
Definition release_page (base_virtual i : Z) : M paging unit :=
  let virtual_page := u32 (base_virtual + u32 (i * PAGE_SIZE)) in
  frame <- paging_translate_address virtual_page ;;
  match frame with
  | None => ret tt
  | Some frame =>
      on_pmm (pmm_free_frame frame) ;;;
      paging_unmap_page virtual_page
  end.

Definition rollback (base_virtual mapped_pages : Z) : M paging unit :=
  for_each 0 mapped_pages (fun j => release_page base_virtual (mapped_pages - 1 - j)).

Definition paging_alloc_pages_on_node (page_count node : Z) : M paging (option Z) :=
  ready <- on_pmm pmm_is_initialized ;;
  if (page_count =? 0) || negb ready then ret None
  else
    let span := u64 (page_count * PAGE_SIZE) in
    if (span =? 0) || (KERNEL_DYNAMIC_LIMIT - KERNEL_DYNAMIC_BASE <? span) then ret None
    else
      tree <- gets kernel_vma_tree ;;
      match vma_tree_find_gap tree KERNEL_DYNAMIC_BASE KERNEL_DYNAMIC_LIMIT (u32 span) PAGE_SIZE with
      | None => ret None
      | Some base_virtual =>
          r <- for_acc 0 page_count 0 (alloc_page base_virtual node) ;;
          match r with
          | inr mapped_pages => rollback base_virtual mapped_pages ;;; ret None
          | inl mapped_pages =>
              tree <- gets kernel_vma_tree ;;
              ins <- on_vma_nodes (vma_tree_insert tree base_virtual (u32 (base_virtual + u32 span)) 0) ;;
              modify (set_kernel_vma_tree (fst ins)) ;;;
              if negb (snd ins) then rollback base_virtual mapped_pages ;;; ret None
              else ret (Some base_virtual)
          end
      end.

Definition paging_alloc_pages (page_count : Z) : M paging (option Z) :=
  paging_alloc_pages_on_node page_count PMM_NUMA_NODE_ANY.

(** [base = 0] is NULL. *)
Definition paging_free_pages (base_virtual page_count : Z) : M paging unit :=
  if (base_virtual =? 0) || (page_count =? 0) then ret tt
  else
    let end_virtual_64 := u64 (base_virtual + u64 (page_count * PAGE_SIZE)) in
    if 0xFFFFFFFF <? end_virtual_64 then ret tt
    else
      let end_virtual := u32 end_virtual_64 in
      tree <- gets kernel_vma_tree ;;
      rm <- on_vma_nodes (vma_tree_remove tree base_virtual end_virtual) ;;
      modify (set_kernel_vma_tree (fst rm)) ;;;
      for_each 0 page_count (release_page base_virtual).
End Spaces.
