(* ===== verification/PagingFacts.v ===== *)
(** PAE page tables of the kernel: what they translate, and what the writes of
    PagingTables.v do to the translation. *)
From S2P Require Import Prelude Bootinfo Pmm Vma PagingData PagingTables Paging.
From Stdlib Require Import ZArith Lia.
Open Scope Z_scope.

(** ** Entries and indices *)

Definition present (e : Z) : bool := negb (Z.land e PAE_ENTRY_PRESENT =? 0).
Definition entry_addr (e : Z) : Z := Z.land e PAE_ENTRY_ADDR_MASK.
Definition large (e : Z) : bool := negb (Z.land e PAE_ENTRY_PAGE_SIZE =? 0).

(** A page address: below 4 GB and aligned. *)
Definition page_addr (a : Z) : Prop := fits 32 a /\ a mod PAGE_SIZE = 0.

Lemma land_testbit e k : 0 <= k -> (Z.land e (2 ^ k) =? 0) = negb (Z.testbit e k).
Proof. intros Hk. rewrite <- (land_pow2_testbit e k Hk), Z.shiftl_1_l. by rewrite negb_involutive. Qed.

Lemma present_bit e : present e = Z.testbit e 0.
Proof. unfold present. change PAE_ENTRY_PRESENT with (2 ^ 0). by rewrite land_testbit, negb_involutive by lia. Qed.

Lemma large_bit e : large e = Z.testbit e 7.
Proof. unfold large. change PAE_ENTRY_PAGE_SIZE with (2 ^ 7). by rewrite land_testbit, negb_involutive by lia. Qed.

(** The address mask selects bits 12 to 31. *)
Lemma addr_mask_bits n : Z.testbit PAE_ENTRY_ADDR_MASK n = (12 <=? n) && (n <? 32).
Proof.
  change PAE_ENTRY_ADDR_MASK with (Z.shiftl (Z.ones 20) 12).
  destruct (Z.lt_ge_cases n 0); [rewrite Z.testbit_neg_r by done; lia|].
  rewrite Z.shiftl_spec by done. destruct (Z.lt_ge_cases n 12); [rewrite Z.testbit_neg_r by lia; lia|].
  destruct (Z.lt_ge_cases n 32); [rewrite Z.ones_spec_low by lia; lia|rewrite Z.ones_spec_high by lia; lia].
Qed.

Lemma page_addr_bits a n : page_addr a -> n < 12 -> Z.testbit a n = false.
Proof.
  intros [Ha Hm] Hn. destruct (Z.lt_ge_cases n 0); [by rewrite Z.testbit_neg_r|].
  rewrite <- (Z.mod_pow2_bits_low a 12 n) by lia. change (2 ^ 12) with PAGE_SIZE. by rewrite Hm, Z.bits_0.
Qed.

Lemma page_addr_mask a : page_addr a -> Z.land a PAE_ENTRY_ADDR_MASK = a.
Proof.
  intros Hp. apply Z.bits_inj'. intros n Hn. rewrite Z.land_spec, addr_mask_bits.
  destruct (Z.lt_ge_cases n 12); [rewrite (page_addr_bits a n) by done; done|].
  destruct (Z.lt_ge_cases n 32); [replace ((12 <=? n) && (n <? 32)) with true by lia; by rewrite andb_true_r|].
  rewrite (fits_bits_high 32 a n) by (done || apply Hp || lia). done.
Qed.

Lemma entry_addr_page e : page_addr (entry_addr e).
Proof.
  unfold entry_addr. split.
  - split; [apply Z.land_nonneg; by right|].
    destruct (Z.eq_dec (Z.land e PAE_ENTRY_ADDR_MASK) 0) as [->|Hne]; [lia|].
    assert (0 <= Z.land e PAE_ENTRY_ADDR_MASK) by (apply Z.land_nonneg; by right).
    apply Z.log2_lt_pow2; [lia|]. destruct (Z.lt_ge_cases (Z.log2 (Z.land e PAE_ENTRY_ADDR_MASK)) 32) as [|Hge]; [done|].
    pose proof (Z.bit_log2 (Z.land e PAE_ENTRY_ADDR_MASK) ltac:(lia)) as Hb.
    rewrite Z.land_spec, addr_mask_bits in Hb. apply andb_true_iff in Hb as [_ Hb]. lia.
  - change PAGE_SIZE with (2 ^ 12). rewrite <- Z.land_ones by lia. apply Z.bits_inj'. intros n Hn.
    rewrite !Z.land_spec, addr_mask_bits, Z.bits_0. destruct (Z.lt_ge_cases n 12).
    + replace ((12 <=? n) && (n <? 32)) with false by lia. by rewrite andb_false_r.
    + rewrite Z.ones_spec_high by lia. by rewrite andb_false_r.
Qed.

(** A made entry: its address, and its flags below bit 12. *)
Lemma make_entry_bits a flags n :
  page_addr a -> 0 <= flags < 2 ^ 12 -> 0 <= n ->
  Z.testbit (pae_make_entry a flags) n = if n <? 12 then Z.testbit flags n else Z.testbit a n.
Proof.
  intros Ha Hf Hn. unfold pae_make_entry. rewrite (page_addr_mask a Ha), Z.lor_spec.
  destruct (Z.ltb_spec n 12); [by rewrite (page_addr_bits a n) by done|].
  by rewrite (fits_bits_high 12 flags n), orb_false_r by (done || lia).
Qed.

Lemma make_entry_addr a flags : page_addr a -> 0 <= flags < 2 ^ 12 -> entry_addr (pae_make_entry a flags) = a.
Proof.
  intros Ha Hf. apply Z.bits_inj'. intros n Hn. unfold entry_addr.
  rewrite Z.land_spec, make_entry_bits, addr_mask_bits by done.
  destruct (Z.ltb_spec n 12); [rewrite (page_addr_bits a n) by done; by replace ((12 <=? n) && (n <? 32)) with false by lia; rewrite andb_false_r|].
  destruct (Z.lt_ge_cases n 32); [by replace ((12 <=? n) && (n <? 32)) with true by lia; rewrite andb_true_r|].
  rewrite (fits_bits_high 32 a n) by (done || apply Ha || lia). done.
Qed.

Lemma make_entry_fits a flags : page_addr a -> 0 <= flags < 2 ^ 12 -> fits 64 (pae_make_entry a flags).
Proof.
  intros Ha Hf. pose proof Ha as [Ha32 _]. unfold pae_make_entry. rewrite page_addr_mask by done.
  assert (Z.lor a flags = a + flags) as ->; [|word_lia]. symmetry.
  rewrite <- Z.lxor_lor, <- Z.add_nocarry_lxor; [done| |].
  all: apply Z.bits_inj'; intros n Hn; rewrite Z.land_spec, Z.bits_0; destruct (Z.lt_ge_cases n 12);
    [by rewrite (page_addr_bits a n) by done|by rewrite (fits_bits_high 12 flags n), andb_false_r by (done || lia)].
Qed.

(** The indices of an address, as quotients. *)
Lemma pdpt_index_div v : pae_pdpt_index_of v = v / 2 ^ 30.
Proof. apply Z.shiftr_div_pow2. lia. Qed.
Lemma directory_index_div v : pae_directory_index_of v = v / 2 ^ 21 mod 512.
Proof. unfold pae_directory_index_of. change 0x1FF with (Z.ones 9). by rewrite Z.land_ones, Z.shiftr_div_pow2 by lia. Qed.
Lemma table_index_div v : pae_table_index_of v = v / 2 ^ 12 mod 512.
Proof. unfold pae_table_index_of. change 0x1FF with (Z.ones 9). by rewrite Z.land_ones, Z.shiftr_div_pow2 by lia. Qed.
Lemma offset_mod v : Z.land v 0xFFF = v mod PAGE_SIZE.
Proof. change 0xFFF with (Z.ones 12). by rewrite Z.land_ones by lia. Qed.

Create Rewrite HintDb index.
#[export] Hint Rewrite pdpt_index_div directory_index_div table_index_div offset_mod : index.

(** The page of an address, and the directory slots of the two kernel areas. *)
Definition page_of (v : Z) : Z := v / PAGE_SIZE.
Definition in_dynamic (v : Z) : Prop := KERNEL_DYNAMIC_BASE <= v < KERNEL_DYNAMIC_LIMIT.

Lemma dynamic_pdpt_index v : in_dynamic v -> pae_pdpt_index_of v = 3.
Proof.
  intros Hv. rewrite pdpt_index_div. unfold in_dynamic, KERNEL_DYNAMIC_BASE, KERNEL_DYNAMIC_LIMIT in Hv.
  change (2 ^ 30) with 0x40000000. symmetry. apply (Z.div_unique v 0x40000000 3 (v - 0xC0000000)); lia.
Qed.

Lemma dynamic_directory_index v :
  in_dynamic v -> pae_directory_index_of v = (v - KERNEL_VMA) / 2 ^ 21 /\ 384 <= pae_directory_index_of v < 510.
Proof.
  intros Hv. rewrite directory_index_div. unfold in_dynamic, KERNEL_DYNAMIC_BASE, KERNEL_DYNAMIC_LIMIT, KERNEL_VMA in *.
  change (2 ^ 21) with 0x200000. pose proof (Z.div_mod v 0x200000 ltac:(lia)). pose proof (Z.mod_pos_bound v 0x200000 ltac:(lia)).
  set (q := v / 0x200000) in *. assert (1920 <= q < 2046) by lia.
  assert (q mod 512 = q - 1536) as -> by (symmetry; apply (Z.mod_unique q 512 3); lia).
  split; [|lia]. apply (Z.div_unique (v - 0xC0000000) 0x200000 (q - 1536) (v mod 0x200000)); lia.
Qed.

(** An address of the kernel's gigabyte is determined by its indices and offset. *)
Lemma kernel_page_indices v w :
  KERNEL_VMA <= v < 2 ^ 32 -> KERNEL_VMA <= w < 2 ^ 32 ->
  pae_directory_index_of v = pae_directory_index_of w -> pae_table_index_of v = pae_table_index_of w ->
  page_of v = page_of w.
Proof.
  intros Hv Hw Hd Ht. autorewrite with index in *. unfold page_of, PAGE_SIZE, KERNEL_VMA in *.
  change (2 ^ 12) with 0x1000 in *. change (2 ^ 21) with (0x1000 * 512) in *. rewrite <- !Z.div_div in Hd by lia.
  set (a := v / 0x1000) in *. set (b := w / 0x1000) in *.
  assert (0xC0000 <= a < 0x100000) by (split; [apply Z.div_le_lower_bound|apply Z.div_lt_upper_bound]; lia).
  assert (0xC0000 <= b < 0x100000) by (split; [apply Z.div_le_lower_bound|apply Z.div_lt_upper_bound]; lia).
  clearbody a b. pose proof (Z.div_mod a 512 ltac:(lia)). pose proof (Z.div_mod b 512 ltac:(lia)).
  pose proof (Z.mod_pos_bound a 512 ltac:(lia)). pose proof (Z.mod_pos_bound b 512 ltac:(lia)).
  assert (1536 <= a / 512 < 2048) by lia. assert (1536 <= b / 512 < 2048) by lia.
  assert (a / 512 mod 512 = a / 512 - 1536) by (symmetry; apply (Z.mod_unique (a / 512) 512 3); lia).
  assert (b / 512 mod 512 = b / 512 - 1536) by (symmetry; apply (Z.mod_unique (b / 512) 512 3); lia).
  lia.
Qed.

Lemma same_page_indices v w :
  page_of v = page_of w -> pae_directory_index_of v = pae_directory_index_of w /\ pae_table_index_of v = pae_table_index_of w.
Proof.
  intros H. autorewrite with index. unfold page_of, PAGE_SIZE in H. change (2 ^ 12) with 0x1000.
  change (2 ^ 21) with (0x1000 * 512). rewrite <- !Z.div_div by lia. by rewrite H.
Qed.

Lemma table_index_bounds v : 0 <= pae_table_index_of v < 512.
Proof. rewrite table_index_div. by apply Z.mod_pos_bound. Qed.
Lemma directory_index_bounds v : 0 <= pae_directory_index_of v < 512.
Proof. rewrite directory_index_div. by apply Z.mod_pos_bound. Qed.

(** ** The kernel image *)

(** Physical address of a static table. *)
Definition pa (virt : Z) : Z := virt - KERNEL_VMA.

(** The static tables are in the direct map, aligned as declared and disjoint. *)
Record image_ok (img : kernel_image) : Prop := {
  ok_pdpt : 0 <= pa img.(pae_pdpt) /\ pa img.(pae_pdpt) + 32 <= KERNEL_DIRECT_MAP_LIMIT_PHYS;
  ok_kernel_dir : 0 <= pa img.(pae_kernel_page_directory) /\
    pa img.(pae_kernel_page_directory) + 0x1000 <= KERNEL_DIRECT_MAP_LIMIT_PHYS /\
    pa img.(pae_kernel_page_directory) mod PAGE_SIZE = 0;
  ok_direct : 0 <= pa img.(pae_direct_map_page_tables) /\
    pa img.(pae_direct_map_page_tables) + 0x80000 <= KERNEL_DIRECT_MAP_LIMIT_PHYS /\
    pa img.(pae_direct_map_page_tables) mod PAGE_SIZE = 0;
  ok_dynamic : 0 <= pa img.(pae_dynamic_page_tables) /\
    pa img.(pae_dynamic_page_tables) + 0x7E000 <= KERNEL_DIRECT_MAP_LIMIT_PHYS /\
    pa img.(pae_dynamic_page_tables) mod PAGE_SIZE = 0;
  ok_dir_direct : pa img.(pae_kernel_page_directory) + 0x1000 <= pa img.(pae_direct_map_page_tables) \/
    pa img.(pae_direct_map_page_tables) + 0x80000 <= pa img.(pae_kernel_page_directory);
  ok_dir_dynamic : pa img.(pae_kernel_page_directory) + 0x1000 <= pa img.(pae_dynamic_page_tables) \/
    pa img.(pae_dynamic_page_tables) + 0x7E000 <= pa img.(pae_kernel_page_directory);
  ok_direct_dynamic : pa img.(pae_direct_map_page_tables) + 0x80000 <= pa img.(pae_dynamic_page_tables) \/
    pa img.(pae_dynamic_page_tables) + 0x7E000 <= pa img.(pae_direct_map_page_tables);
  ok_pdpt_dir : pa img.(pae_pdpt) + 32 <= pa img.(pae_kernel_page_directory) \/
    pa img.(pae_kernel_page_directory) + 0x1000 <= pa img.(pae_pdpt);
  ok_pdpt_direct : pa img.(pae_pdpt) + 32 <= pa img.(pae_direct_map_page_tables) \/
    pa img.(pae_direct_map_page_tables) + 0x80000 <= pa img.(pae_pdpt);
  ok_pdpt_dynamic : pa img.(pae_pdpt) + 32 <= pa img.(pae_dynamic_page_tables) \/
    pa img.(pae_dynamic_page_tables) + 0x7E000 <= pa img.(pae_pdpt)
}.

(** ** Memory *)

(** [m'] agrees with [m] on the [n] bytes at [lo]. *)
Definition agree (lo n : Z) (m m' : memory) : Prop := forall x, lo <= x < lo + n -> m' x = m x.

Lemma agree_refl lo n m : agree lo n m m.
Proof. done. Qed.
Lemma agree_trans lo n m1 m2 m3 : agree lo n m1 m2 -> agree lo n m2 m3 -> agree lo n m1 m3.
Proof. intros H1 H2 x Hx. by rewrite H2, H1. Qed.

Lemma agree_read64 lo n m m' p : agree lo n m m' -> lo <= p -> p + 8 <= lo + n -> read_u64 m' p = read_u64 m p.
Proof.
  intros Ha H1 H2. unfold read_u64, read_u32, read_u16, read_u8. by rewrite !Ha by lia.
Qed.

Lemma agree_write lo n k m p v : p + k <= lo \/ lo + n <= p -> agree lo n m (write_bytes k m p v).
Proof. intros H x Hx. unfold write_bytes. by replace ((p <=? x) && (x <? p + k)) with false by lia. Qed.

Lemma write_u64_out m p v x : x < p \/ p + 8 <= x -> write_u64 m p v x = m x.
Proof. intros H. unfold write_u64, write_bytes. by replace ((p <=? x) && (x <? p + 8)) with false by lia. Qed.

(** A pointer of the direct map. *)
Lemma pointer_direct s p : p < LEGACY_PT_RECURSIVE_BASE -> pointer_phys s p = pa p.
Proof. intros H. unfold pointer_phys. by replace (p <? LEGACY_PT_RECURSIVE_BASE) with true by lia. Qed.

(** Filling a table. *)
Lemma fill64 (p n : Z) (v : Z -> Z) s (Q : unit -> paging -> Prop) :
  0 <= n -> p + 8 * n <= LEGACY_PT_RECURSIVE_BASE -> (forall i, 0 <= i < n -> fits 64 (v i)) ->
  (forall m', (forall x, x < pa p \/ pa p + 8 * n <= x -> m' x = s.(phys) x) ->
              (forall i, 0 <= i < n -> read_u64 m' (pa p + 8 * i) = v i) -> Q tt (set_phys m' s)) ->
  wp (for_each 0 n (fun i => store64 p i (v i))) Q s.
Proof.
  intros Hn Hp Hv HQ.
  apply (wp_for_each _ _ _ (fun i s' => exists m', s' = set_phys m' s /\
    (forall x, x < pa p \/ pa p + 8 * n <= x -> m' x = s.(phys) x) /\
    (forall k, 0 <= k < i -> read_u64 m' (pa p + 8 * k) = v k))); [done| | |].
  - exists s.(phys). split; [by destruct s|]. split; [done|]. intros; lia.
  - intros i s' Hi (m' & -> & Hout & Hin). unfold store64. apply wp_modify.
    rewrite pointer_direct by lia. exists (write_u64 m' (pa (p + 8 * i)) (v i)).
    replace (pa (p + 8 * i)) with (pa p + 8 * i) by (unfold pa; lia).
    split; [done|]. split.
    + intros x Hx. unfold write_u64, write_bytes.
      replace ((pa p + 8 * i <=? x) && (x <? pa p + 8 * i + 8)) with false by lia. by apply Hout.
    + intros k Hk. destruct (Z.eq_dec k i) as [->|Hne]; [apply read_u64_same, Hv; lia|].
      unfold write_u64. rewrite read_u64_other by lia. apply Hin. lia.
  - intros s' (m' & -> & Hout & Hin). by apply HQ.
Qed.

(** ** The kernel's tables *)

Section Kernel.
Context (img : kernel_image) (Himg : image_ok img).

Definition kernel_dir : Z := pa img.(pae_kernel_page_directory).
Definition direct_table (d : Z) : Z := pa img.(pae_direct_map_page_tables) + 0x1000 * d.
Definition dynamic_table (d : Z) : Z := pa img.(pae_dynamic_page_tables) + 0x1000 * (d - 384).
Definition dir_entry (m : memory) (d : Z) : Z := read_u64 m (kernel_dir + 8 * d).

(** The direct map is complete, and a present directory entry of the dynamic area
    points to its own table. *)
Record kernel_tables (m : memory) : Prop := {
  kt_root : present (read_u64 m (pa img.(pae_pdpt) + 8 * 3)) = true;
  kt_direct_dir d : 0 <= d < 128 -> present (dir_entry m d) = true /\ large (dir_entry m d) = false /\
    entry_addr (dir_entry m d) = direct_table d;
  kt_direct d j : 0 <= d < 128 -> 0 <= j < 512 ->
    present (read_u64 m (direct_table d + 8 * j)) = true /\
    entry_addr (read_u64 m (direct_table d + 8 * j)) = (d * 512 + j) * PAGE_SIZE;
  kt_dynamic d : 384 <= d < 510 -> present (dir_entry m d) = true ->
    large (dir_entry m d) = false /\ entry_addr (dir_entry m d) = dynamic_table d
}.

(** The frame of a page of the dynamic area. *)
Definition kernel_frame (m : memory) (v : Z) : option Z :=
  let e := read_u64 m (dynamic_table (pae_directory_index_of v) + 8 * pae_table_index_of v) in
  if present (dir_entry m (pae_directory_index_of v)) && present e then Some (entry_addr e) else None.

(** Where a memory has to agree for the kernel's translations to be the same. *)
Record same_kernel (m m' : memory) : Prop := {
  sk_pdpt : agree (pa img.(pae_pdpt)) 32 m m';
  sk_dir : agree kernel_dir 0x1000 m m';
  sk_direct : agree (pa img.(pae_direct_map_page_tables)) 0x80000 m m';
  sk_dynamic : agree (pa img.(pae_dynamic_page_tables)) 0x7E000 m m'
}.

Lemma kernel_tables_same m m' : same_kernel m m' -> kernel_tables m -> kernel_tables m'.
Proof.
  intros [H1 H2 H3 _] [K1 K2 K3 K4]. assert (Hd : forall d, 0 <= d < 512 -> dir_entry m' d = dir_entry m d)
    by (intros d Hd; apply (agree_read64 _ _ _ _ _ H2); lia).
  split.
  - rewrite (agree_read64 _ _ _ _ _ H1) by lia. done.
  - intros d Hd'. rewrite Hd by lia. auto.
  - intros d j Hd' Hj. rewrite (agree_read64 _ _ _ _ _ H3) by (unfold direct_table; lia). auto.
  - intros d Hd'. rewrite Hd by lia. auto.
Qed.

Lemma kernel_frame_same m m' v : same_kernel m m' -> in_dynamic v -> kernel_frame m' v = kernel_frame m v.
Proof.
  intros [_ H2 _ H4] Hv. destruct (dynamic_directory_index v Hv) as [_ Hd]. pose proof (table_index_bounds v).
  unfold kernel_frame, dir_entry. rewrite (agree_read64 _ _ _ _ _ H2) by lia.
  by rewrite (agree_read64 _ _ _ _ _ H4) by (unfold dynamic_table; lia).
Qed.

(** *** Translation *)

Lemma load64_run p i s : p + 8 * i < LEGACY_PT_RECURSIVE_BASE -> load64 p i s = Done (read_u64 s.(phys) (pa p + 8 * i)) s.
Proof.
  intros H. unfold load64. unfold gets. rewrite pointer_direct by done.
  by replace (pa (p + 8 * i)) with (pa p + 8 * i) by (unfold pa; lia).
Qed.

Lemma store64_run p i v s :
  p + 8 * i < LEGACY_PT_RECURSIVE_BASE -> store64 p i v s = Done tt (set_phys (write_u64 s.(phys) (pa p + 8 * i) v) s).
Proof.
  intros H. unfold store64, modify, upd_phys. rewrite pointer_direct by done.
  by replace (pa (p + 8 * i)) with (pa p + 8 * i) by (unfold pa; lia).
Qed.

Lemma entry_or_offset a off : page_addr a -> 0 <= off < PAGE_SIZE -> Z.lor a off = a + off.
Proof.
  intros Ha Ho. rewrite <- Z.lxor_lor, <- Z.add_nocarry_lxor; [done| |].
  all: apply Z.bits_inj'; intros n Hn; rewrite Z.land_spec, Z.bits_0; destruct (Z.lt_ge_cases n 12);
    [by rewrite (page_addr_bits a n) by done|
     by rewrite (fits_bits_high 12 off n), andb_false_r by (done || (unfold fits, PAGE_SIZE in *; lia))].
Qed.

Lemma direct_indices p :
  0 <= p < KERNEL_DIRECT_MAP_LIMIT_PHYS ->
  pae_pdpt_index_of (KERNEL_VMA + p) = 3 /\ pae_directory_index_of (KERNEL_VMA + p) = p / 2 ^ 21 /\
  0 <= p / 2 ^ 21 < 128 /\ pae_table_index_of (KERNEL_VMA + p) = p / 2 ^ 12 mod 512 /\
  (p / 2 ^ 21 * 512 + p / 2 ^ 12 mod 512) * PAGE_SIZE + p mod PAGE_SIZE = p.
Proof.
  intros Hp. autorewrite with index. unfold KERNEL_DIRECT_MAP_LIMIT_PHYS, KERNEL_VMA, PAGE_SIZE in *.
  change (2 ^ 30) with 0x40000000. change (2 ^ 21) with 0x200000. change (2 ^ 12) with 0x1000.
  pose proof (Z.div_mod p 0x200000 ltac:(lia)). pose proof (Z.mod_pos_bound p 0x200000 ltac:(lia)).
  pose proof (Z.div_mod p 0x1000 ltac:(lia)). pose proof (Z.mod_pos_bound p 0x1000 ltac:(lia)).
  assert (Hq : p / 0x1000 / 512 = p / 0x200000) by (by rewrite Z.div_div by lia).
  pose proof (Z.div_mod (p / 0x1000) 512 ltac:(lia)).
  split; [symmetry; apply (Z.div_unique _ _ 3 p); lia|]. split; [|split; [lia|split; [|lia]]].
  - replace (0xC0000000 + p) with (p + 1536 * 0x200000) by lia. rewrite Z.div_add by lia.
    symmetry. apply (Z.mod_unique _ _ 3); lia.
  - replace (0xC0000000 + p) with (p + 1536 * 512 * 0x1000) by lia. rewrite Z.div_add by lia.
    by rewrite Z.mod_add by lia.
Qed.

(** Takes the branch of a decided test. *)
Ltac decided := cbn [negb andb orb]; cbv iota.

(** Arithmetic with the addresses of the image. *)
Ltac image_lia :=
  pose proof (ok_pdpt img Himg); pose proof (ok_kernel_dir img Himg);
  pose proof (ok_direct img Himg); pose proof (ok_dynamic img Himg);
  unfold dynamic_table, direct_table, kernel_dir, table_at, PAE_PTE_ENTRIES, PAE_PDE_ENTRIES, PAE_DYNAMIC_PDE_START,
    KERNEL_DYNAMIC_BASE, KERNEL_DYNAMIC_LIMIT, PAE_PDPT_ENTRY_KERNEL,
    pa, KERNEL_VMA, LEGACY_PT_RECURSIVE_BASE, KERNEL_DIRECT_MAP_LIMIT_PHYS, PAGE_SIZE in *; lia.

Ltac load_step :=
  match goal with
  | |- context [bind (load64 ?p ?i) ?k ?s] =>
      rewrite (run_bind_done (load64 p i) k s _ _ (load64_run p i s ltac:(image_lia)))
  end; cbv beta.

Lemma not_present e : (Z.land e PAE_ENTRY_PRESENT =? 0) = negb (present e).
Proof. unfold present. by rewrite negb_involutive. Qed.

Lemma pae_translate_direct p s :
  kernel_tables s.(phys) -> 0 <= p < KERNEL_DIRECT_MAP_LIMIT_PHYS ->
  pae_translate_address img (KERNEL_VMA + p) s = Done (Some p) s.
Proof.
  intros K Hp. destruct (direct_indices p Hp) as (E1 & E2 & Hd & E3 & E4).
  unfold pae_translate_address. rewrite E1, E2, E3.
  assert (Hj : 0 <= p / 2 ^ 12 mod 512 < 512) by (by apply Z.mod_pos_bound).
  load_step. rewrite not_present, (kt_root _ K). decided.
  change (3 =? PAE_PDPT_ENTRY_KERNEL) with true. cbv iota. load_step. change (pa img.(pae_kernel_page_directory)) with kernel_dir.
  change (read_u64 _ (kernel_dir + 8 * (p / 2 ^ 21))) with (dir_entry s.(phys) (p / 2 ^ 21)).
  destruct (kt_direct_dir _ K (p / 2 ^ 21) Hd) as (P1 & P2 & P3). rewrite not_present, P1.
  unfold large in P2. rewrite P2. decided. unfold pae_page_table_for_directory.
  change PAE_DIRECT_MAP_PDE_COUNT with 128. replace (p / 2 ^ 21 <? 128) with true by lia.
  load_step. replace (pa (table_at _ _)) with (direct_table (p / 2 ^ 21)) by image_lia.
  destruct (kt_direct _ K (p / 2 ^ 21) (p / 2 ^ 12 mod 512) Hd Hj) as (Q1 & Q2). rewrite not_present, Q1.
  decided. rewrite offset_mod. change (Z.land ?e PAE_ENTRY_ADDR_MASK) with (entry_addr e).
  rewrite entry_or_offset by (apply entry_addr_page || by apply Z.mod_pos_bound). rewrite Q2.
  replace ((KERNEL_VMA + p) mod PAGE_SIZE) with (p mod PAGE_SIZE); [by rewrite E4|].
  symmetry. change KERNEL_VMA with (0xC0000 * PAGE_SIZE). rewrite Z.add_comm. by apply Z.mod_add.
Qed.

Lemma page_mod_offset v : v mod PAGE_SIZE = v - page_of v * PAGE_SIZE.
Proof. unfold page_of. pose proof (Z.div_mod v PAGE_SIZE ltac:(done)). lia. Qed.

(** The table of a directory slot of the dynamic area. *)
Lemma dynamic_page_table d :
  384 <= d < 510 ->
  pae_directory_is_dynamic d = true /\
  exists t, pae_page_table_for_directory img d = Some t /\ pa t = dynamic_table d /\ t + 0x1000 <= LEGACY_PT_RECURSIVE_BASE /\
    KERNEL_VMA <= t.
Proof.
  intros Hd. unfold pae_page_table_for_directory, pae_directory_is_dynamic.
  change PAE_DIRECT_MAP_PDE_COUNT with 128. change PAE_DYNAMIC_PDE_START with 384. change PAE_DYNAMIC_PDE_END with 510.
  replace (d <? 128) with false by lia. replace ((384 <=? d) && (d <? 510)) with true by lia.
  split; [done|]. eexists. split; [done|]. change PAE_DYNAMIC_PDE_START with 384. image_lia.
Qed.

Lemma dynamic_table_page d : 384 <= d < 510 -> page_addr (dynamic_table d).
Proof.
  intros Hd. destruct (ok_dynamic img Himg) as (H0 & H1 & Hm). split; [unfold fits; image_lia|].
  unfold dynamic_table. replace (0x1000 * (d - 384)) with ((d - 384) * PAGE_SIZE) by (unfold PAGE_SIZE; lia).
  by rewrite Z.mod_add.
Qed.

(** The frame and the offset. *)
Definition translation (m : memory) (v : Z) : option Z := (fun f => f + v mod PAGE_SIZE) <$> kernel_frame m v.

Lemma pae_translate_dynamic v s :
  kernel_tables s.(phys) -> in_dynamic v -> pae_translate_address img v s = Done (translation s.(phys) v) s.
Proof.
  intros K Hv. destruct (dynamic_directory_index v Hv) as [_ Hd]. pose proof (table_index_bounds v) as Hj.
  unfold pae_translate_address, translation, kernel_frame. rewrite (dynamic_pdpt_index v Hv).
  load_step. rewrite not_present, (kt_root _ K). decided.
  change (3 =? PAE_PDPT_ENTRY_KERNEL) with true. cbv iota. load_step.
  change (read_u64 _ (pa img.(pae_kernel_page_directory) + 8 * ?d)) with (dir_entry s.(phys) d). rewrite not_present.
  destruct (present (dir_entry s.(phys) (pae_directory_index_of v))) eqn:Hp; decided; [|done].
  destruct (kt_dynamic _ K _ Hd Hp) as [Hl Ha]. change (negb (Z.land ?e PAE_ENTRY_PAGE_SIZE =? 0)) with (large e).
  rewrite Hl. cbv iota. destruct (dynamic_page_table _ Hd) as (_ & t & -> & Ht & Hb & _). load_step.
  rewrite not_present, Ht. destruct (present (read_u64 _ (dynamic_table _ + _))); decided; [|done].
  simpl. rewrite offset_mod. unfold ret. do 2 f_equal. apply entry_or_offset; [apply entry_addr_page|by apply Z.mod_pos_bound].
Qed.

(** ** The promise of the direct map *)

Lemma align_down_page a : fits 32 a -> align_down_u32 a PAGE_SIZE = page_of a * PAGE_SIZE.
Proof. intros Ha. unfold align_down_u32, PAGE_SIZE. apply (land_mask 32 12); [lia|done]. Qed.

Lemma phys_to_virt_run p s :
  kernel_tables s.(phys) -> s.(paging_mode) = PAGING_MODE_PAE -> 0 <= p < KERNEL_DIRECT_MAP_LIMIT_PHYS ->
  paging_phys_to_virt img p s = Done (KERNEL_VMA + p) s.
Proof.
  intros K Hm Hp. unfold paging_phys_to_virt. unfold KERNEL_DIRECT_MAP_LIMIT_PHYS in Hp.
  replace (KERNEL_DIRECT_MAP_LIMIT_PHYS <=? p) with false by (unfold KERNEL_DIRECT_MAP_LIMIT_PHYS; lia).
  rewrite wrap_small by (unfold KERNEL_VMA; word_lia). run. rewrite Hm.
  rewrite align_down_page by (unfold KERNEL_VMA; word_lia).
  assert (Hpage : page_of (KERNEL_VMA + p) * PAGE_SIZE = KERNEL_VMA + p / PAGE_SIZE * PAGE_SIZE).
  { unfold page_of. change KERNEL_VMA with (0xC0000 * PAGE_SIZE). rewrite Z.div_add_l by done. lia. }
  rewrite Hpage. pose proof (Z.div_mod p PAGE_SIZE ltac:(done)). pose proof (Z.mod_pos_bound p PAGE_SIZE ltac:(done)).
  assert (Htr := pae_translate_direct (p / PAGE_SIZE * PAGE_SIZE) s K).
  unfold pae_is_mapped. run.
  erewrite run_bind_done by (apply Htr; unfold KERNEL_DIRECT_MAP_LIMIT_PHYS, PAGE_SIZE in *; lia).
  run. decided. by run.
Qed.

(** ** Changing one page *)

Definition dyn_pte (m : memory) (d j : Z) : Z := read_u64 m (dynamic_table d + 8 * j).

(** [m'] translates the page of [va] to [new] and every other page of the dynamic
    area as [m] does; only the kernel's directory and the dynamic tables differ. *)
Record remapped (m m' : memory) (va : Z) (new : option Z) : Prop := {
  rm_tables : kernel_tables m';
  rm_frame v : in_dynamic v -> kernel_frame m' v = if page_of v =? page_of va then new else kernel_frame m v;
  rm_outside x : ~ (kernel_dir <= x < kernel_dir + 0x1000) ->
    ~ (pa img.(pae_dynamic_page_tables) <= x < pa img.(pae_dynamic_page_tables) + 0x7E000) -> m' x = m x
}.

(** It is enough to look at one directory slot. *)
Lemma remapped_intro m m' va new :
  let d := pae_directory_index_of va in
  kernel_tables m -> in_dynamic va ->
  (forall x, ~ (kernel_dir <= x < kernel_dir + 0x1000) ->
    ~ (pa img.(pae_dynamic_page_tables) <= x < pa img.(pae_dynamic_page_tables) + 0x7E000) -> m' x = m x) ->
  (forall d', 0 <= d' < 512 -> d' <> d -> dir_entry m' d' = dir_entry m d') ->
  (forall d' j, 384 <= d' < 510 -> 0 <= j < 512 -> d' <> d -> dyn_pte m' d' j = dyn_pte m d' j) ->
  (present (dir_entry m' d) = true -> large (dir_entry m' d) = false /\ entry_addr (dir_entry m' d) = dynamic_table d) ->
  (forall j, 0 <= j < 512 ->
    (if present (dir_entry m' d) && present (dyn_pte m' d j) then Some (entry_addr (dyn_pte m' d j)) else None) =
    if j =? pae_table_index_of va then new
    else if present (dir_entry m d) && present (dyn_pte m d j) then Some (entry_addr (dyn_pte m d j)) else None) ->
  remapped m m' va new.
Proof.
  intros d K Hva Hout Hdir Hpte Hslot Hj. destruct (dynamic_directory_index va Hva) as [_ Hd]. fold d in Hd.
  pose proof (ok_dir_direct img Himg). pose proof (ok_direct_dynamic img Himg). pose proof (ok_pdpt_dir img Himg).
  pose proof (ok_pdpt_dynamic img Himg).
  split; [split| |done].
  - rewrite (agree_read64 (pa img.(pae_pdpt)) 32 m m') by (lia || (intros x Hx; apply Hout; image_lia)). apply K.
  - intros d' Hd'. rewrite Hdir by lia. by apply K.
  - intros d' j' Hd' Hj'. rewrite (agree_read64 (direct_table d' + 8 * j') 8 m m') by (lia || (intros x Hx; apply Hout; image_lia)).
    by apply K.
  - intros d' Hd' Hp. destruct (Z.eq_dec d' d) as [->|Hne]; [auto|]. rewrite Hdir in * by lia. by apply K.
  - intros v Hv. destruct (dynamic_directory_index v Hv) as [_ Hdv]. pose proof (table_index_bounds v) as Hjv.
    unfold kernel_frame. fold (dyn_pte m (pae_directory_index_of v) (pae_table_index_of v)).
    fold (dyn_pte m' (pae_directory_index_of v) (pae_table_index_of v)).
    destruct (Z.eqb_spec (page_of v) (page_of va)) as [He|He].
    + apply same_page_indices in He as [E1 E2]. rewrite E1, E2. fold d. rewrite Hj by apply table_index_bounds.
      by rewrite Z.eqb_refl.
    + destruct (Z.eq_dec (pae_directory_index_of v) d) as [E1|E1].
      * rewrite E1, Hj by done. destruct (Z.eqb_spec (pae_table_index_of v) (pae_table_index_of va)) as [E2|E2]; [|done].
        exfalso. apply He, kernel_page_indices; [| |done|done].
        all: unfold in_dynamic, KERNEL_DYNAMIC_BASE, KERNEL_DYNAMIC_LIMIT, KERNEL_VMA in *; lia.
      * by rewrite Hdir, Hpte by lia.
Qed.

(** Writes to the two kinds of entry, seen through the two views. *)
Lemma dir_write_dir m d e d' :
  0 <= d < 512 -> 0 <= d' < 512 -> fits 64 e ->
  dir_entry (write_u64 m (kernel_dir + 8 * d) e) d' = if d' =? d then e else dir_entry m d'.
Proof.
  intros Hd Hd' He. unfold dir_entry. destruct (Z.eqb_spec d' d) as [->|Hne]; [by apply read_u64_same|].
  apply read_u64_other. lia.
Qed.

Lemma dir_write_pte m d j e d' :
  384 <= d < 510 -> 0 <= j < 512 -> 0 <= d' < 512 -> dir_entry (write_u64 m (dynamic_table d + 8 * j) e) d' = dir_entry m d'.
Proof. intros Hd Hj Hd'. apply read_u64_other. pose proof (ok_dir_dynamic img Himg). image_lia. Qed.

Lemma pte_write_dir m d e d' j' :
  0 <= d < 512 -> 384 <= d' < 510 -> 0 <= j' < 512 -> dyn_pte (write_u64 m (kernel_dir + 8 * d) e) d' j' = dyn_pte m d' j'.
Proof. intros Hd Hd' Hj'. apply read_u64_other. pose proof (ok_dir_dynamic img Himg). image_lia. Qed.

Lemma pte_write_pte m d j e d' j' :
  384 <= d < 510 -> 0 <= j < 512 -> 384 <= d' < 510 -> 0 <= j' < 512 -> fits 64 e ->
  dyn_pte (write_u64 m (dynamic_table d + 8 * j) e) d' j' = if (d' =? d) && (j' =? j) then e else dyn_pte m d' j'.
Proof.
  intros Hd Hj Hd' Hj' He. unfold dyn_pte.
  destruct (Z.eqb_spec d' d) as [->|Hne]; [destruct (Z.eqb_spec j' j) as [->|Hne]|]; decided.
  - by apply read_u64_same.
  - apply read_u64_other. lia.
  - apply read_u64_other. unfold dynamic_table. lia.
Qed.

Lemma flags_bound flags : 0 <= Z.lor PAE_ENTRY_PRESENT (Z.land flags 0xFFF) < 2 ^ 12.
Proof.
  assert (H : Z.land flags 0xFFF = flags mod 2 ^ 12) by (change 0xFFF with (Z.ones 12); by rewrite Z.land_ones by lia).
  pose proof (Z.mod_pos_bound flags (2 ^ 12) ltac:(lia)). rewrite H. split; [apply Z.lor_nonneg; split; [done|lia]|].
  destruct (Z.eq_dec (Z.lor PAE_ENTRY_PRESENT (flags mod 2 ^ 12)) 0) as [->|]; [lia|].
  apply Z.log2_lt_pow2; [assert (0 <= Z.lor PAE_ENTRY_PRESENT (flags mod 2 ^ 12)) by (apply Z.lor_nonneg; split; [done|lia]); lia|].
  rewrite Z.log2_lor by (done || lia). change (Z.log2 PAE_ENTRY_PRESENT) with 0.
  apply Z.max_lub_lt; [lia|]. destruct (Z.eq_dec (flags mod 2 ^ 12) 0) as [->|]; [simpl; lia|].
  apply Z.log2_lt_pow2; lia.
Qed.

Lemma make_entry_present a flags :
  page_addr a -> 0 <= flags < 2 ^ 12 -> present (pae_make_entry a flags) = Z.testbit flags 0.
Proof. intros Ha Hf. by rewrite present_bit, make_entry_bits by (done || lia). Qed.

Lemma make_entry_large a flags :
  page_addr a -> 0 <= flags < 2 ^ 12 -> large (pae_make_entry a flags) = Z.testbit flags 7.
Proof. intros Ha Hf. by rewrite large_bit, make_entry_bits by (done || lia). Qed.

Lemma page_of_page a : page_addr a -> (Z.land a 0xFFF =? 0) = true.
Proof. intros [_ H]. rewrite offset_mod, H. done. Qed.

(** Only memory and the log of invalidations changed. *)
Definition touched (s s' : paging) : Prop := exists m log, s' = set_tlb_log log (set_phys m s).

Lemma touched_refl s : touched s s.
Proof. exists s.(phys), s.(tlb_log). by destruct s. Qed.
Lemma touched_trans s1 s2 s3 : touched s1 s2 -> touched s2 s3 -> touched s1 s3.
Proof. intros (m1 & l1 & ->) (m2 & l2 & ->). by exists m2, l2. Qed.

Ltac store_step :=
  cbv beta; match goal with
  | |- wp (bind (store64 ?p ?i ?v) _) _ ?s => apply wp_bind; eapply (Done_wp _ _ s); [apply (store64_run p i v s); image_lia|]
  | |- wp (store64 ?p ?i ?v) _ ?s => eapply (Done_wp _ _ s); [apply (store64_run p i v s); image_lia|]
  end.
Ltac load_wp :=
  cbv beta; match goal with
  | |- wp (bind (load64 ?p ?i) _) _ ?s => apply wp_bind; eapply (Done_wp _ _ s); [apply (load64_run p i s); image_lia|]
  end.

Lemma pae_map_page_spec va f flags s :
  kernel_tables s.(phys) -> in_dynamic va -> page_addr va -> page_addr f -> Z.land flags PAGE_USER = 0 ->
  wp (pae_map_page img va f flags)
    (fun r s' => r = true /\ touched s s' /\ remapped s.(phys) s'.(phys) va (Some f)) s.
Proof.
  intros K Hv Hva Hf Hu. destruct (dynamic_directory_index va Hv) as [_ Hd]. pose proof (table_index_bounds va) as Hj.
  unfold pae_map_page. rewrite (page_of_page va Hva), (page_of_page f Hf). decided.
  replace (pae_address_is_dynamic va) with true by (unfold pae_address_is_dynamic, in_dynamic in *; lia).
  rewrite (dynamic_pdpt_index va Hv). change (3 =? PAE_PDPT_ENTRY_KERNEL) with true. decided.
  destruct (dynamic_page_table _ Hd) as (-> & t & -> & Ht & Hb & Hk). decided.
  load_wp.
  change (read_u64 _ (pa img.(pae_kernel_page_directory) + 8 * ?d)) with (dir_entry s.(phys) d).
  rewrite not_present, Hu. change (0 =? 0) with true. decided. set (d := pae_directory_index_of va) in *.
  set (j := pae_table_index_of va) in *. set (e := pae_make_entry f _).
  assert (He : fits 64 e) by (apply make_entry_fits; [done|apply flags_bound]).
  assert (Pe : present e = true).
  { unfold e. rewrite make_entry_present by (done || apply flags_bound). by rewrite Z.lor_spec. }
  assert (Ae : entry_addr e = f) by (apply make_entry_addr; [done|apply flags_bound]).
  destruct (present (dir_entry s.(phys) d)) eqn:Hp; decided.
  - apply wp_bind, wp_ret. store_step. cbv beta. unfold paging_invalidate_page. do 3 wp_step. split; [done|]. split; [by eexists _, _|]. simpl.
    rewrite Ht. apply remapped_intro; [done|done| | | | |]; fold d j.
    + intros x H1 H2. apply write_u64_out. image_lia.
    + intros d' Hd' _. by apply dir_write_pte.
    + intros d' j' Hd' Hj' Hne. rewrite pte_write_pte by (done || lia). by replace (d' =? d) with false by lia.
    + rewrite dir_write_pte by (done || lia). by apply K.
    + intros j' Hj'. rewrite dir_write_pte, pte_write_pte, Hp, Z.eqb_refl by (done || lia). decided.
      destruct (Z.eqb_spec j' j); [by rewrite Pe, Ae|done].
  - apply wp_bind, wp_bind. change PAE_PTE_ENTRIES with 512. apply fill64; [lia|image_lia|done|].
    intros m1 Hout Hzero. unfold kernel_pointer_to_physical. replace (t <? KERNEL_VMA) with false by lia.
    do 2 wp_step. change (t - KERNEL_VMA) with (pa t). rewrite Ht in *. fold d in Ht, Hout, Hzero.
    set (de := pae_make_entry (dynamic_table d) _).
    assert (Hde : fits 64 de) by (by apply make_entry_fits; [by apply dynamic_table_page|]).
    store_step. store_step. cbv beta. unfold paging_invalidate_page. do 3 wp_step. split; [done|]. split; [by eexists _, _|]. simpl.
    rewrite Ht. fold kernel_dir.
    assert (Hz : forall j', 0 <= j' < 512 -> dyn_pte m1 d j' = 0) by done.
    assert (Hd1 : forall d', 0 <= d' < 512 -> dir_entry m1 d' = dir_entry s.(phys) d').
    { intros d' Hd'. apply (agree_read64 (kernel_dir + 8 * d') 8); [|lia|lia]. intros x Hx. apply Hout.
      pose proof (ok_dir_dynamic img Himg). image_lia. }
    apply remapped_intro; [done|done| | | | |]; fold d j.
    + intros x H1 H2. rewrite !write_u64_out by image_lia. apply Hout. image_lia.
    + intros d' Hd' Hne. rewrite dir_write_pte, dir_write_dir by (done || lia).
      replace (d' =? d) with false by lia. by apply Hd1.
    + intros d' j' Hd' Hj' Hne. rewrite pte_write_pte, pte_write_dir by (done || lia).
      replace (d' =? d) with false by lia. decided. apply (agree_read64 (dynamic_table d' + 8 * j') 8); [|lia|lia].
      intros x Hx. apply Hout. unfold dynamic_table in *. lia.
    + intros _. rewrite dir_write_pte, dir_write_dir, Z.eqb_refl by (done || lia). unfold de.
      rewrite make_entry_large, make_entry_addr by (done || by apply dynamic_table_page). done.
    + intros j' Hj'. rewrite dir_write_pte, dir_write_dir, pte_write_pte, pte_write_dir, Z.eqb_refl, Hp by (done || lia).
      decided. unfold de at 1. rewrite make_entry_present by (done || by apply dynamic_table_page). simpl Z.testbit.
      destruct (Z.eqb_spec j' j); decided; [by rewrite Pe, Ae|]. by rewrite Hz.
Qed.

Lemma kernel_frame_page m v w : page_of v = page_of w -> kernel_frame m v = kernel_frame m w.
Proof. intros H. apply same_page_indices in H as [E1 E2]. unfold kernel_frame. by rewrite E1, E2. Qed.

Lemma remapped_same m va : kernel_tables m -> remapped m m va (kernel_frame m va).
Proof.
  intros K. split; [done| |done]. intros v Hv. destruct (Z.eqb_spec (page_of v) (page_of va)) as [He|]; [|done].
  by apply kernel_frame_page.
Qed.

(** A scan for a present entry. *)
Lemma scan_present t n s (Q : option unit -> paging -> Prop) :
  0 <= n -> t + 8 * n <= LEGACY_PT_RECURSIVE_BASE ->
  (forall i, 0 <= i < n -> present (read_u64 s.(phys) (pa t + 8 * i)) = true -> Q (Some tt) s) ->
  ((forall i, 0 <= i < n -> present (read_u64 s.(phys) (pa t + 8 * i)) = false) -> Q None s) ->
  wp (for_range 0 n (fun i => e <- load64 t i ;; ret (if negb (Z.land e PAE_ENTRY_PRESENT =? 0) then Some tt else None))) Q s.
Proof.
  intros Hn Ht Hsome Hnone.
  apply (wp_for _ _ _ (fun i s' => s' = s /\ forall k, 0 <= k < i -> present (read_u64 s.(phys) (pa t + 8 * k)) = false)); [done| | |].
  - split; [done|]. intros; lia.
  - intros i s' Hi [-> Hk]. apply wp_bind. eapply Done_wp; [apply load64_run; lia|]. apply wp_ret.
    fold (present (read_u64 s.(phys) (pa t + 8 * i))).
    destruct (present (read_u64 s.(phys) (pa t + 8 * i))) eqn:E; [by eapply Hsome|]. split; [done|].
    intros k Hk'. destruct (Z.eq_dec k i) as [->|]; [done|]. apply Hk. lia.
  - intros s' [-> Hk]. by apply Hnone.
Qed.

Lemma pae_unmap_page_spec va s :
  kernel_tables s.(phys) -> in_dynamic va ->
  wp (pae_unmap_page img va) (fun _ s' => touched s s' /\ remapped s.(phys) s'.(phys) va None) s.
Proof.
  intros K Hv. destruct (dynamic_directory_index va Hv) as [_ Hd]. pose proof (table_index_bounds va) as Hj.
  unfold pae_unmap_page.
  replace (pae_address_is_dynamic va) with true by (unfold pae_address_is_dynamic, in_dynamic in *; lia).
  rewrite (dynamic_pdpt_index va Hv). change (3 =? PAE_PDPT_ENTRY_KERNEL) with true. decided. cbv zeta.
  destruct (dynamic_page_table _ Hd) as (-> & t & Et & Ht & Hb & Hk). rewrite Et. decided. load_wp.
  change (read_u64 _ (pa img.(pae_kernel_page_directory) + 8 * ?d)) with (dir_entry s.(phys) d). rewrite not_present.
  pose proof (remapped_same s.(phys) va K) as Hsame. unfold kernel_frame in Hsame.
  set (d := pae_directory_index_of va) in *. set (j := pae_table_index_of va) in *.
  destruct (present (dir_entry s.(phys) d)) eqn:Hp; decided; [|by apply wp_ret; split; [apply touched_refl|]].
  load_wp. rewrite not_present, Ht.
  destruct (present (read_u64 s.(phys) (dynamic_table d + 8 * j))) eqn:Hq; decided; [|by apply wp_ret; split; [apply touched_refl|]].
  store_step. cbv beta. unfold paging_invalidate_page. wp_step. wp_step. rewrite Ht.
  set (m1 := write_u64 s.(phys) (dynamic_table d + 8 * j) 0).
  assert (H1 : remapped s.(phys) m1 va None).
  { apply remapped_intro; [done|done| | | | |]; fold d j; unfold m1.
    - intros x H1 H2. apply write_u64_out. image_lia.
    - intros d' Hd' _. by apply dir_write_pte.
    - intros d' j' Hd' Hj' Hne. rewrite pte_write_pte by (done || lia). by replace (d' =? d) with false by lia.
    - rewrite dir_write_pte by (done || lia). by apply K.
    - intros j' Hj'. rewrite dir_write_pte, pte_write_pte, Hp, Z.eqb_refl by (done || lia). decided.
      by destruct (Z.eqb_spec j' j). }
  unfold pae_is_page_table_empty. fold d. rewrite Et. wp_step. wp_step. change PAE_PTE_ENTRIES with 512.
  apply scan_present; [lia|image_lia| |].
  { intros i Hi Hpi. wp_step. decided. wp_step. split; [by eexists _, _|done]. }
  simpl phys. rewrite Ht. intros Hempty. wp_step. decided. store_step. cbv beta.
  split; [by eexists _, _|]. simpl. fold kernel_dir.
  apply remapped_intro; [done|done| | | | |]; fold d j.
  - intros x H2 H3. rewrite write_u64_out by image_lia. apply (rm_outside _ _ _ _ H1); done.
  - intros d' Hd' Hne. rewrite dir_write_dir by (done || lia). replace (d' =? d) with false by lia.
    by apply dir_write_pte.
  - intros d' j' Hd' Hj' Hne. rewrite pte_write_dir by lia. unfold m1. rewrite pte_write_pte by (done || lia).
    by replace (d' =? d) with false by lia.
  - rewrite dir_write_dir, Z.eqb_refl by (done || lia). done.
  - intros j' Hj'. rewrite dir_write_dir, pte_write_dir, Z.eqb_refl, Hp by (done || lia). decided.
    change (present 0) with false. decided. destruct (Z.eqb_spec j' j) as [|Hne]; [done|].
    specialize (Hempty j' Hj'). fold (dyn_pte m1 d j') in Hempty. unfold m1 in Hempty.
    rewrite pte_write_pte, Z.eqb_refl in Hempty by (done || lia). replace (j' =? j) with false in Hempty by lia.
    cbn [andb] in Hempty. cbv iota in Hempty. by rewrite Hempty.
Qed.
End Kernel.

(** The tactics of the section, for any image in the context. *)
Ltac image_lia :=
  match goal with
  | H : image_ok ?img |- _ =>
      pose proof (ok_pdpt img H); pose proof (ok_kernel_dir img H);
      pose proof (ok_direct img H); pose proof (ok_dynamic img H)
  end;
  unfold dynamic_table, direct_table, kernel_dir, table_at, PAE_PTE_ENTRIES, PAE_PDE_ENTRIES, PAE_DYNAMIC_PDE_START,
    KERNEL_DYNAMIC_BASE, KERNEL_DYNAMIC_LIMIT, PAE_PDPT_ENTRY_KERNEL,
    pa, KERNEL_VMA, LEGACY_PT_RECURSIVE_BASE, KERNEL_DIRECT_MAP_LIMIT_PHYS, PAGE_SIZE in *; lia.
Ltac load_step :=
  match goal with
  | |- context [bind (load64 ?p ?i) ?k ?s] =>
      rewrite (run_bind_done (load64 p i) k s _ _ (load64_run p i s ltac:(image_lia)))
  end; cbv beta.
Ltac decided := cbn [negb andb orb]; cbv iota.
