(* ===== verification/PagingAlloc.v ===== *)
(** Runs of kernel pages (PAE): [paging_alloc_pages] and [paging_free_pages] over
    the frame allocator, the page tables and the tree of mappings. *)
From S2P Require Import Prelude Bootinfo Pmm PmmFacts PmmAlloc PmmSpec Vma VmaFacts VmaSpec.
From S2P Require Import PagingData PagingTables Paging PagingFacts.
From Stdlib Require Import ZArith Lia.
From stdpp Require Import sets.
Open Scope Z_scope.

(** ** Translation in the current space *)

Section Alloc.
Context (img : kernel_image) (Himg : image_ok img).

(** The current space shares the kernel's directory, and its root is not one of the
    tables that mapping a page writes. *)
Record shares_kernel (s : paging) (root : Z) : Prop := {
  shk_range : 0 <= root /\ root + 32 <= KERNEL_DIRECT_MAP_LIMIT_PHYS;
  shk_entry : present (read_u64 s.(phys) (root + 8 * 3)) = true /\
    entry_addr (read_u64 s.(phys) (root + 8 * 3)) = kernel_dir img;
  shk_dir : root + 32 <= kernel_dir img \/ kernel_dir img + 0x1000 <= root;
  shk_dynamic : root + 32 <= pa img.(pae_dynamic_page_tables) \/ pa img.(pae_dynamic_page_tables) + 0x7E000 <= root
}.

Definition current_ok (s : paging) : Prop :=
  exists i sp, s.(current_space) = Some i /\ s.(paging_spaces) !! Z.to_nat i = Some sp /\
    shares_kernel s (Z.land sp.(root_physical) 0xFFFFF000).

Lemma pa_virt p : pa (KERNEL_VMA + p) = p.
Proof. unfold pa. lia. Qed.

Lemma entry_pointer_run e a s :
  kernel_tables img s.(phys) -> s.(paging_mode) = PAGING_MODE_PAE -> entry_addr e = a ->
  0 <= a < KERNEL_DIRECT_MAP_LIMIT_PHYS -> pae_entry_pointer img e s = Done (KERNEL_VMA + a) s.
Proof.
  intros K Hm <- Ha. unfold pae_entry_pointer. fold (entry_addr e).
  rewrite wrap_small by (apply entry_addr_page). by apply phys_to_virt_run.
Qed.

Lemma translate_run v s :
  kernel_tables img s.(phys) -> s.(paging_mode) = PAGING_MODE_PAE -> current_ok s -> in_dynamic v ->
  paging_translate_address img v s = Done (translation img s.(phys) v) s.
Proof.
  intros K Hm (i & sp & Hi & Hsp & Hsh) Hv. destruct (dynamic_directory_index v Hv) as [_ Hd].
  pose proof (table_index_bounds v) as Hj. destruct Hsh as [Hr [He1 He2] _ _].
  unfold paging_translate_address. run. rewrite Hi, Hm.
  unfold pae_translate_address_in_space, pae_space_pdpt, space_at. run. rewrite Hsp. cbn [of_option]. run.
  set (r := Z.land sp.(root_physical) 0xFFFFF000) in *.
  rewrite (run_bind_done _ _ _ _ _ (phys_to_virt_run img Himg r s K Hm ltac:(image_lia))).
  rewrite (dynamic_pdpt_index v Hv). load_step.
  rewrite pa_virt, not_present, He1. decided.
  rewrite (run_bind_done _ _ _ _ _ (entry_pointer_run _ (kernel_dir img) s K Hm He2 ltac:(image_lia))).
  load_step. rewrite pa_virt, not_present. unfold translation, kernel_frame. fold (dir_entry img s.(phys) (pae_directory_index_of v)).
  destruct (present (dir_entry img s.(phys) (pae_directory_index_of v))) eqn:Hp; decided; [|done].
  destruct (kt_dynamic img _ K _ Hd Hp) as [Hl Ha]. fold (large (dir_entry img s.(phys) (pae_directory_index_of v))).
  rewrite Hl. decided.
  rewrite (run_bind_done _ _ _ _ _ (entry_pointer_run _ _ s K Hm Ha ltac:(image_lia))).
  load_step. rewrite pa_virt, not_present. destruct (present (read_u64 _ (dynamic_table _ _ + _))); decided; [|done].
  simpl. rewrite offset_mod. unfold ret. do 2 f_equal. apply entry_or_offset; [apply entry_addr_page|by apply Z.mod_pos_bound].
Qed.

(** ** One page *)

(** Everything but memory, the log and the frames is as before. *)
Definition only_pages (s s' : paging) : Prop :=
  exists m log p, s' = set_frames p (set_tlb_log log (set_phys m s)).

Lemma only_pages_refl s : only_pages s s.
Proof. exists s.(phys), s.(tlb_log), s.(frames). by destruct s. Qed.
Lemma only_pages_trans s1 s2 s3 : only_pages s1 s2 -> only_pages s2 s3 -> only_pages s1 s3.
Proof. intros (m1 & l1 & p1 & ->) (m2 & l2 & p2 & ->). by exists m2, l2, p2. Qed.
Lemma only_pages_touched s s' : touched s s' -> only_pages s s'.
Proof. intros (m & l & ->). exists m, l, s.(frames). by destruct s. Qed.
Lemma only_pages_frames s p : only_pages s (set_frames p s).
Proof. exists s.(phys), s.(tlb_log), p. by destruct s. Qed.

(** [m'] differs from [m] only in the kernel's directory and dynamic tables. *)
Definition outside_same (m m' : memory) : Prop :=
  forall x, ~ (kernel_dir img <= x < kernel_dir img + 0x1000) ->
    ~ (pa img.(pae_dynamic_page_tables) <= x < pa img.(pae_dynamic_page_tables) + 0x7E000) -> m' x = m x.

(** What an operation on runs of pages leaves alone: the rest of memory and the spaces. *)
Definition same_rest (s s' : paging) : Prop :=
  outside_same s.(phys) s'.(phys) /\ s'.(current_space) = s.(current_space) /\ s'.(paging_spaces) = s.(paging_spaces).

Lemma same_rest_refl s : same_rest s s.
Proof. by repeat split. Qed.
Lemma same_rest_only s s' : only_pages s s' -> outside_same s.(phys) s'.(phys) -> same_rest s s'.
Proof. intros (m & l & p & ->) Hout. by repeat split. Qed.

Lemma current_ok_outside s s' :
  only_pages s s' -> outside_same s.(phys) s'.(phys) -> current_ok s -> current_ok s'.
Proof.
  intros (m & l & p & ->) Hout (i & sp & Hi & Hsp & [H1 H2 H3 H4]). exists i, sp. split; [done|]. split; [done|].
  set (r := Z.land sp.(root_physical) 0xFFFFF000) in *. simpl in *.
  assert (He : read_u64 m (r + 8 * 3) = read_u64 s.(phys) (r + 8 * 3)).
  { apply (agree_read64 r 32); [|lia|lia]. intros x Hx. apply Hout; lia. }
  split; [done|simpl; by rewrite He|done|done].
Qed.

(** What the operations of this file need of a state, and keep. *)
Record pages_ok (s : paging) : Prop := {
  pok_mode : s.(paging_mode) = PAGING_MODE_PAE;
  pok_tables : kernel_tables img s.(phys);
  pok_current : current_ok s;
  pok_pmm : pmm_ready s.(frames)
}.

Lemma pages_ok_step s s' :
  pages_ok s -> only_pages s s' -> kernel_tables img s'.(phys) -> outside_same s.(phys) s'.(phys) -> pmm_ready s'.(frames) ->
  pages_ok s'.
Proof.
  intros [] Ho K Hout Hp. split; [|done|by eapply current_ok_outside|done].
  destruct Ho as (m & l & p & ->). done.
Qed.

Lemma pages_ok_vma t p s : pages_ok s -> pages_ok (set_kernel_vma_tree t (set_vma_nodes p s)).
Proof.
  intros [H1 H2 (i & sp & H3 & H4 & []) H5]. split; [done|done| |done]. exists i, sp. split; [done|]. split; [done|]. by split.
Qed.

Lemma on_pmm_wp {A} (m : M pmm A) (Q : A -> paging -> Prop) s :
  wp m (fun a p => Q a (set_frames p s)) s.(frames) -> wp (on_pmm m) Q s.
Proof. unfold wp, on_pmm. by destruct (m s.(frames)). Qed.

(** Page [i] of a run. *)
Lemma run_page base i :
  page_addr base -> 0 <= i -> base + i * PAGE_SIZE < 2 ^ 32 ->
  u32 (base + u32 (i * PAGE_SIZE)) = base + i * PAGE_SIZE /\ page_addr (base + i * PAGE_SIZE).
Proof.
  intros [Hb Hm] Hi Hlt. unfold PAGE_SIZE in *. rewrite (wrap_small 32 (i * _)) by word_lia. rewrite wrap_small by word_lia.
  split; [done|]. split; [word_lia|]. unfold PAGE_SIZE. by rewrite Z.mod_add by lia.
Qed.

Lemma frame_page f : 0 <= f < 2 ^ 20 -> page_addr (f * PAGE_SIZE).
Proof. intros Hf. split; [unfold PAGE_SIZE; change (2 ^ 20) with 0x100000 in *; word_lia|by apply Z.mod_mul]. Qed.

Lemma frame_of_page a : page_addr a -> a / PAGE_SIZE * PAGE_SIZE = a.
Proof. intros [_ Hm]. pose proof (Z.div_mod a PAGE_SIZE ltac:(done)). lia. Qed.

(** Mapping a fresh frame. *)
Lemma alloc_page_spec base node i s :
  pages_ok s -> s.(frames).(initialized) = true -> 0 <= node -> page_addr base -> 0 <= i < 2 ^ 32 - 1 ->
  in_dynamic (base + i * PAGE_SIZE) ->
  wp (alloc_page img base node i i) (fun r s' => match r with
    | inl k => k = i + 1 /\ pages_ok s' /\ only_pages s s' /\
        exists f, took s.(frames) s'.(frames) f 1 /\
          remapped img s.(phys) s'.(phys) (base + i * PAGE_SIZE) (Some (f * PAGE_SIZE))
    | inr k => k = i /\ s' = s /\ forall f, 0 <= f < s.(frames).(total_frames) -> frame_used s.(frames) f = true
    end) s.
Proof.
  intros [Hm K Hc Hp] Hinit Hnode Hb Hi Hv. unfold alloc_page. wp_step. apply on_pmm_wp.
  eapply wp_mono; [by apply alloc_frame_on_node_spec|]. intros r p' [Hp' Hr]. destruct r as [a|].
  2: { destruct Hr as [-> Hfull]. apply wp_ret. split; [done|]. split; [by destruct s|done]. }
  destruct Hr as (f & -> & T & _).
  assert (Hlt : base + i * PAGE_SIZE < 2 ^ 32) by (unfold in_dynamic, KERNEL_DYNAMIC_LIMIT in Hv; word_lia).
  destruct (run_page base i Hb ltac:(lia) Hlt) as [-> Hpage]. cbv zeta. set (va := base + i * PAGE_SIZE) in *.
  assert (Hf : page_addr (f * PAGE_SIZE)).
  { apply frame_page. destruct (took_range _ _ _ _ T). pose proof (lay_total _ (wf_layout _ (ready_wf _ Hp))). lia. }
  wp_step. unfold paging_map_page, paging_address_is_kernel.
  replace (KERNEL_VMA <=? va) with true by (unfold in_dynamic, KERNEL_DYNAMIC_BASE, KERNEL_VMA in *; lia).
  decided. change (Z.land PAGE_WRITABLE PAGE_USER =? 0) with true. decided. wp_step. wp_step.
  change (paging_mode (set_frames p' s)) with s.(paging_mode). rewrite Hm.
  eapply wp_mono; [by apply (pae_map_page_spec img Himg va (f * PAGE_SIZE) PAGE_WRITABLE (set_frames p' s))|].
  intros ok s' (-> & Ht & Hrm). decided. wp_step. rewrite wrap_small by word_lia. split; [done|].
  assert (Hop : only_pages s s') by (eapply only_pages_trans; [apply only_pages_frames|by apply only_pages_touched]).
  assert (Hfr : s'.(frames) = p') by (by destruct Ht as (m & l & ->)).
  split; [|split; [done|exists f; by rewrite Hfr]].
  eapply pages_ok_step; [by split|done|by eapply rm_tables|exact (rm_outside _ _ _ _ _ Hrm)|by rewrite Hfr].
Qed.

(** Unmapping a page and freeing its frame. *)
Lemma release_page_spec base i s :
  pages_ok s -> page_addr base -> 0 <= i -> in_dynamic (base + i * PAGE_SIZE) ->
  wp (release_page img base i) (fun _ s' => pages_ok s' /\ only_pages s s' /\
    match kernel_frame img s.(phys) (base + i * PAGE_SIZE) with
    | None => s' = s
    | Some a => changed false s.(frames) s'.(frames) (fun g => g =? a / PAGE_SIZE) /\
        remapped img s.(phys) s'.(phys) (base + i * PAGE_SIZE) None
    end) s.
Proof.
  intros Hok Hb Hi Hv. pose proof Hok as [Hm K Hc Hp]. unfold release_page.
  assert (Hlt : base + i * PAGE_SIZE < 2 ^ 32) by (unfold in_dynamic, KERNEL_DYNAMIC_LIMIT in Hv; word_lia).
  destruct (run_page base i Hb Hi Hlt) as [-> Hpage]. cbv zeta. set (va := base + i * PAGE_SIZE) in *.
  wp_step. eapply Done_wp; [by apply translate_run|]. unfold translation.
  replace (va mod PAGE_SIZE) with 0 by (symmetry; apply Hpage).
  destruct (kernel_frame img s.(phys) va) as [a|] eqn:Ea; simpl.
  2: { apply wp_ret. split; [done|]. split; [apply only_pages_refl|done]. }
  rewrite Z.add_0_r. assert (Ha : page_addr a).
  { unfold kernel_frame in Ea. destruct (_ && _); [|done]. injection Ea as <-. apply entry_addr_page. }
  wp_step. apply on_pmm_wp. eapply wp_mono; [apply (free_frame_spec s.(frames) a Hp); apply Ha|].
  intros _ p' (Hp' & Hch & _). cbv beta. unfold paging_unmap_page, paging_address_is_kernel.
  replace (KERNEL_VMA <=? va) with true by (unfold in_dynamic, KERNEL_DYNAMIC_BASE, KERNEL_VMA in *; lia).
  decided. wp_step. wp_step. change (paging_mode (set_frames p' s)) with s.(paging_mode). rewrite Hm.
  eapply wp_mono; [by apply (pae_unmap_page_spec img Himg va (set_frames p' s))|]. intros _ s' (Ht & Hrm).
  assert (Hop : only_pages s s') by (eapply only_pages_trans; [apply only_pages_frames|by apply only_pages_touched]).
  assert (Hfr : s'.(frames) = p') by (by destruct Ht as (m & l & ->)).
  split; [|split; [done|by rewrite Hfr]].
  eapply pages_ok_step; [done|done|by eapply rm_tables|exact (rm_outside _ _ _ _ _ Hrm)|by rewrite Hfr].
Qed.

(** ** Runs of pages *)

(** The page of [v], counted from [base]. *)
Definition page_index (base v : Z) : Z := page_of v - page_of base.

(** [s'] is [s] with the frames [fs] (by number) taken and mapped from [base] on. *)
Record grown (base : Z) (s s' : paging) (fs : list Z) : Prop := {
  gr_ok : pages_ok s';
  gr_only : only_pages s s';
  gr_shape : same_shape s.(frames) s'.(frames);
  gr_outside : outside_same s.(phys) s'.(phys);
  gr_frame v : in_dynamic v -> kernel_frame img s'.(phys) v =
    if (0 <=? page_index base v) && (page_index base v <? Z.of_nat (length fs))
    then (fun f => f * PAGE_SIZE) <$> fs !! Z.to_nat (page_index base v)
    else kernel_frame img s.(phys) v;
  gr_used g : 0 <= g < s.(frames).(total_frames) ->
    frame_used s'.(frames) g = bool_decide (g ∈ fs) || frame_used s.(frames) g;
  gr_fresh f : f ∈ fs -> 0 <= f < s.(frames).(total_frames) /\ frame_used s.(frames) f = false;
  gr_nodup : NoDup fs
}.

Lemma grown_nil base s : pages_ok s -> grown base s s [].
Proof.
  intros H. split; try done.
  - apply only_pages_refl.
  - intros v Hv. cbn [length].
    destruct (Z.leb_spec 0 (page_index base v)), (Z.ltb_spec (page_index base v) (Z.of_nat 0)); (done || lia).
  - intros f Hf. by apply not_elem_of_nil in Hf.
  - constructor.
Qed.

Lemma page_of_run base i : page_addr base -> page_of (base + i * PAGE_SIZE) = page_of base + i.
Proof. intros _. unfold page_of. by apply Z.div_add. Qed.

Lemma outside_trans m1 m2 m3 : outside_same m1 m2 -> outside_same m2 m3 -> outside_same m1 m3.
Proof. intros H1 H2 x Hx Hy. rewrite H2, H1 by done. done. Qed.

Lemma same_shape_init s s' : same_shape s s' -> s.(initialized) = true -> s'.(initialized) = true.
Proof. intros []; congruence. Qed.

Lemma grown_snoc base s s1 s2 fs f :
  page_addr base -> grown base s s1 fs -> pages_ok s2 -> only_pages s1 s2 -> took s1.(frames) s2.(frames) f 1 ->
  remapped img s1.(phys) s2.(phys) (base + Z.of_nat (length fs) * PAGE_SIZE) (Some (f * PAGE_SIZE)) ->
  grown base s s2 (fs ++ [f]).
Proof.
  intros Hb [] Hok Ho T Hrm. destruct (took_range _ _ _ _ T) as [Hf0 Hf1]. pose proof (sh_total _ _ gr_shape0) as Ht.
  assert (Hfree : frame_used s1.(frames) f = false) by (apply (took_free _ _ _ _ T); lia).
  rewrite gr_used0 in Hfree by lia. apply orb_false_iff in Hfree as [Hnf Hfree]. apply bool_decide_eq_false in Hnf.
  split; try done.
  - by eapply only_pages_trans.
  - etransitivity; [done|apply T].
  - eapply outside_trans; [done|]. exact (rm_outside _ _ _ _ _ Hrm).
  - intros v Hv. rewrite (rm_frame _ _ _ _ _ Hrm v Hv), page_of_run, gr_frame0 by done.
    rewrite length_app, Nat2Z.inj_add. change (Z.of_nat (length [f])) with 1. unfold page_index.
    pose proof (Nat2Z.is_nonneg (length fs)).
    destruct (Z.eqb_spec (page_of v) (page_of base + Z.of_nat (length fs))) as [->|Hne].
    + replace ((0 <=? _) && _) with true by lia.
      replace (Z.to_nat _) with (length fs + 0)%nat by lia. by rewrite lookup_app_r, Nat.add_sub' by lia.
    + destruct ((0 <=? page_of v - page_of base) && (page_of v - page_of base <? Z.of_nat (length fs))) eqn:E.
      * replace ((0 <=? _) && (_ <? Z.of_nat (length fs) + 1)) with true by lia. by rewrite lookup_app_l by lia.
      * by replace ((0 <=? _) && (_ <? Z.of_nat (length fs) + 1)) with false by lia.
  - intros g Hg. rewrite (took_used _ _ _ _ T), gr_used0 by lia.
    rewrite (bool_decide_ext (g ∈ fs ++ [f]) (g ∈ fs \/ g = f)) by set_solver.
    destruct (Z.eq_dec g f) as [->|Hne].
    + replace ((f <=? f) && (f <? f + 1)) with true by lia. rewrite (bool_decide_eq_true_2 (f ∈ fs \/ f = f)) by auto. done.
    + replace ((f <=? g) && (g <? f + 1)) with false by lia. decided. f_equal. apply bool_decide_ext. naive_solver.
  - intros g Hg. apply elem_of_app in Hg as [Hg|Hg%list_elem_of_singleton]; [auto|]. subst g. split; [lia|done].
  - apply NoDup_app. split; [done|]. split; [|by apply NoDup_singleton]. intros x Hx ->%list_elem_of_singleton. done.
Qed.

Lemma grown_unsnoc base s s1 s2 fs f :
  page_addr base -> in_dynamic (base + Z.of_nat (length fs) * PAGE_SIZE) ->
  grown base s s1 (fs ++ [f]) ->
  kernel_frame img s.(phys) (base + Z.of_nat (length fs) * PAGE_SIZE) = None ->
  pages_ok s2 -> only_pages s1 s2 -> changed false s1.(frames) s2.(frames) (fun g => g =? f) ->
  remapped img s1.(phys) s2.(phys) (base + Z.of_nat (length fs) * PAGE_SIZE) None ->
  grown base s s2 fs.
Proof.
  intros Hb Hdyn [] Hnone Hok Ho [Hch _ Hsh] Hrm. pose proof (sh_total _ _ gr_shape0) as Ht.
  apply NoDup_app in gr_nodup0 as (Hnd & Hdis & _).
  split; try done.
  - by eapply only_pages_trans.
  - by etransitivity.
  - eapply outside_trans; [done|]. exact (rm_outside _ _ _ _ _ Hrm).
  - intros v Hv. rewrite (rm_frame _ _ _ _ _ Hrm v Hv), page_of_run, gr_frame0 by done.
    rewrite length_app, Nat2Z.inj_add. change (Z.of_nat (length [f])) with 1. unfold page_index.
    pose proof (Nat2Z.is_nonneg (length fs)).
    destruct (Z.eqb_spec (page_of v) (page_of base + Z.of_nat (length fs))) as [He|Hne].
    + replace ((0 <=? _) && _) with false by lia. rewrite (kernel_frame_page img _ v (base + Z.of_nat (length fs) * PAGE_SIZE)); [done|].
      by rewrite page_of_run.
    + destruct ((0 <=? page_of v - page_of base) && (page_of v - page_of base <? Z.of_nat (length fs))) eqn:E.
      * replace ((0 <=? _) && (_ <? Z.of_nat (length fs) + 1)) with true by lia. by rewrite lookup_app_l by lia.
      * by replace ((0 <=? _) && (_ <? Z.of_nat (length fs) + 1)) with false by lia.
  - intros g Hg. rewrite Hch, gr_used0 by lia.
    destruct (Z.eqb_spec g f) as [->|Hne].
    + destruct (gr_fresh0 f) as [_ ->]; [set_solver|]. rewrite bool_decide_eq_false_2; [done|].
      intros Hin. apply (Hdis f Hin). set_solver.
    + f_equal. apply bool_decide_ext. set_solver.
  - intros g Hg. apply gr_fresh0. set_solver.
Qed.

(** The loop of [paging_alloc_pages_on_node]. *)
Lemma alloc_loop_spec base node n s :
  pages_ok s -> s.(frames).(initialized) = true -> 0 <= node -> page_addr base -> 0 <= n < 2 ^ 32 ->
  (forall i, 0 <= i < n -> in_dynamic (base + i * PAGE_SIZE)) ->
  wp (for_acc 0 n 0 (alloc_page img base node)) (fun r s' => exists fs, grown base s s' fs /\ match r with
    | inl k => k = n /\ Z.of_nat (length fs) = n
    | inr k => k = Z.of_nat (length fs) /\ k < n /\
        forall f, 0 <= f < s.(frames).(total_frames) -> frame_used s'.(frames) f = true
    end) s.
Proof.
  intros Hok Hinit Hnode Hb Hn Hdyn.
  apply (wp_for_acc _ _ _ _ (fun i k s' => k = i /\ exists fs, Z.of_nat (length fs) = i /\ grown base s s' fs)); [lia| | |].
  - split; [done|]. exists []. split; [done|by apply grown_nil].
  - intros i k s1 Hi (-> & fs & Hl & G). pose proof (gr_shape _ _ _ _ G) as Hsh.
    eapply wp_mono; [apply alloc_page_spec; [apply G|by eapply same_shape_init|done|done|lia|by apply Hdyn]|].
    intros [k'|k'] s2 Hr.
    + destruct Hr as (-> & Hok2 & Ho & f & T & Hrm). split; [done|]. exists (fs ++ [f]). rewrite length_app. simpl.
      split; [lia|]. eapply grown_snoc; [done|done|done|done|done|by rewrite Hl].
    + destruct Hr as (-> & -> & Hfull). exists fs. split; [done|]. split; [lia|]. split; [lia|].
      intros f Hf. apply Hfull. by rewrite (sh_total _ _ Hsh).
  - intros k s' (-> & fs & Hl & G). by exists fs.
Qed.

(** Rolling back gives the frames and the translations back. *)
Lemma rollback_spec base s s1 fs :
  page_addr base -> (forall i, 0 <= i < Z.of_nat (length fs) -> in_dynamic (base + i * PAGE_SIZE) /\
    kernel_frame img s.(phys) (base + i * PAGE_SIZE) = None) ->
  grown base s s1 fs -> wp (rollback img base (Z.of_nat (length fs))) (fun _ s2 => grown base s s2 []) s1.
Proof.
  intros Hb Hdyn G. unfold rollback. set (k := Z.of_nat (length fs)) in *.
  apply (wp_for_each _ _ _ (fun j s' => exists fs', Z.of_nat (length fs') = k - j /\ grown base s s' fs')); [lia| | |].
  - exists fs. split; [lia|done].
  - intros j s' Hj (fs' & Hl & G'). destruct fs' as [|f fs' _] using rev_ind; [simpl in Hl; lia|].
    rewrite length_app, Nat2Z.inj_add in Hl. change (Z.of_nat (length [f])) with 1 in Hl.
    replace (k - 1 - j) with (Z.of_nat (length fs')) by lia.
    destruct (Hdyn (Z.of_nat (length fs'))) as [Hd Hnone]; [lia|].
    assert (Hfr : kernel_frame img s'.(phys) (base + Z.of_nat (length fs') * PAGE_SIZE) = Some (f * PAGE_SIZE)).
    { rewrite (gr_frame _ _ _ _ G') by done. unfold page_index. rewrite page_of_run, length_app, Nat2Z.inj_add by done.
      change (Z.of_nat (length [f])) with 1. replace (page_of base + Z.of_nat (length fs') - page_of base) with (Z.of_nat (length fs')) by lia.
      pose proof (Nat2Z.is_nonneg (length fs')). replace ((0 <=? _) && _) with true by lia.
      by rewrite Nat2Z.id, lookup_app_r, Nat.sub_diag by lia. }
    eapply wp_mono; [apply release_page_spec; [apply G'|done|lia|done]|]. rewrite Hfr.
    intros _ s2 (Hok2 & Ho & Hch & Hrm). rewrite Z.div_mul in Hch by done.
    exists fs'. split; [lia|]. by eapply grown_unsnoc.
  - intros s' (fs' & Hl & G'). destruct fs'; [done|simpl in Hl; lia].
Qed.

(** ** The invariant of the kernel's pages *)

(** Every mapped page of the dynamic area has a frame of its own, in use, and the
    tree of mappings lists exactly the mapped pages. *)
Record kernel_pages (s : paging) : Prop := {
  kp_ok : pages_ok s;
  kp_init : s.(frames).(initialized) = true;
  kp_vma : vma_wf s.(vma_nodes) s.(kernel_vma_tree);
  kp_pool : s.(vma_nodes).(pool_initialized) = true \/ s.(kernel_vma_tree).(root) = Null;
  kp_used v a : in_dynamic v -> kernel_frame img s.(phys) v = Some a ->
    a / PAGE_SIZE < s.(frames).(total_frames) /\ frame_used s.(frames) (a / PAGE_SIZE) = true;
  kp_inj v w a : in_dynamic v -> in_dynamic w ->
    kernel_frame img s.(phys) v = Some a -> kernel_frame img s.(phys) w = Some a -> page_of v = page_of w;
  kp_mapped v : in_dynamic v ->
    (kernel_frame img s.(phys) v <> None <-> exists i, i ∈ intervals s.(kernel_vma_tree).(root) /\ i.1.1 <= v < i.1.2);
  kp_range i : i ∈ intervals s.(kernel_vma_tree).(root) ->
    KERNEL_DYNAMIC_BASE <= i.1.1 /\ i.1.2 <= KERNEL_DYNAMIC_LIMIT /\ page_addr i.1.1 /\ page_addr i.1.2
}.

(** An operation that takes no frame and maps no page. *)
Record unchanged_pages (s s' : paging) : Prop := {
  up_frame v : in_dynamic v -> kernel_frame img s'.(phys) v = kernel_frame img s.(phys) v;
  up_used g : 0 <= g < s.(frames).(total_frames) -> frame_used s'.(frames) g = frame_used s.(frames) g;
  up_total : s'.(frames).(total_frames) = s.(frames).(total_frames);
  up_tree : s'.(kernel_vma_tree) = s.(kernel_vma_tree);
  up_rest : same_rest s s'
}.

Lemma grown_nil_unchanged base s s' : grown base s s' [] -> unchanged_pages s s'.
Proof.
  intros G. split.
  - intros v Hv. rewrite (gr_frame _ _ _ _ G) by done. cbn [length].
    destruct (Z.leb_spec 0 (page_index base v)), (Z.ltb_spec (page_index base v) (Z.of_nat 0)); (done || lia).
  - intros g Hg. by rewrite (gr_used _ _ _ _ G).
  - apply (sh_total _ _ (gr_shape _ _ _ _ G)).
  - destruct (gr_only _ _ _ _ G) as (m & l & p & ->). done.
  - apply same_rest_only; apply G.
Qed.

Lemma kernel_pages_unchanged s s' :
  kernel_pages s -> pages_ok s' -> unchanged_pages s s' -> s'.(frames).(initialized) = true ->
  vma_wf s'.(vma_nodes) s'.(kernel_vma_tree) ->
  (s'.(vma_nodes).(pool_initialized) = true \/ s'.(kernel_vma_tree).(root) = Null) -> kernel_pages s'.
Proof.
  intros [] Hok [Hf Hu Ht Htree _] Hi Hv Hp. split; try done.
  - intros v a Hd Ha. rewrite Hf in Ha by done. destruct (kp_used0 v a Hd Ha) as [H1 H2]. rewrite Ht.
    split; [done|]. rewrite Hu; [done|]. split; [|done]. apply Z.div_pos; [|done].
    unfold kernel_frame in Ha. destruct (_ && _); [|done]. injection Ha as <-. apply entry_addr_page.
  - intros v w a Hd Hd' H1 H2. rewrite Hf in H1, H2 by done. by eapply kp_inj0.
  - intros v Hd. rewrite Hf, Htree by done. auto.
  - rewrite Htree. auto.
Qed.

Lemma frame_addr_nonneg m v a : kernel_frame img m v = Some a -> 0 <= a / PAGE_SIZE.
Proof.
  unfold kernel_frame. destruct (_ && _); [|done]. intros [= <-]. apply Z.div_pos; [|done]. apply entry_addr_page.
Qed.

(** The run's pages in the tree and in memory. *)
Lemma in_run base n v :
  page_addr base -> (base <= v < base + n * PAGE_SIZE <-> 0 <= page_index base v < n).
Proof.
  intros [_ Hm]. unfold page_index, page_of. pose proof (Z.div_mod v PAGE_SIZE ltac:(done)).
  pose proof (Z.mod_pos_bound v PAGE_SIZE ltac:(done)). pose proof (Z.div_mod base PAGE_SIZE ltac:(done)).
  rewrite Hm in *. unfold PAGE_SIZE in *. lia.
Qed.

Lemma grown_lookup base s s' fs v f :
  grown base s s' fs -> in_dynamic v -> 0 <= page_index base v -> fs !! Z.to_nat (page_index base v) = Some f ->
  kernel_frame img s'.(phys) v = Some (f * PAGE_SIZE).
Proof.
  intros G Hv H0 Hf. rewrite (gr_frame _ _ _ _ G v Hv). pose proof (lookup_lt_Some _ _ _ Hf).
  replace ((0 <=? _) && _) with true by lia. by rewrite Hf.
Qed.

(** A translated page of the grown state is a new one or an old one. *)
Lemma grown_inv base s s' fs v a :
  grown base s s' fs -> in_dynamic v -> kernel_frame img s'.(phys) v = Some a ->
  (exists f, 0 <= page_index base v /\ fs !! Z.to_nat (page_index base v) = Some f /\ a = f * PAGE_SIZE) \/
  (~ 0 <= page_index base v < Z.of_nat (length fs) /\ kernel_frame img s.(phys) v = Some a).
Proof.
  intros G Hv. rewrite (gr_frame _ _ _ _ G v Hv).
  destruct (Z.leb_spec 0 (page_index base v)), (Z.ltb_spec (page_index base v) (Z.of_nat (length fs))); decided.
  2-4: right; split; [lia|done].
  destruct (fs !! Z.to_nat (page_index base v)) as [f|] eqn:E; [|done]. simpl. intros [= <-]. left. by exists f.
Qed.

Lemma kernel_pages_grown base s s1 fs t' p' l1 l2 :
  kernel_pages s -> grown base s s1 fs -> page_addr base -> page_addr (base + Z.of_nat (length fs) * PAGE_SIZE) ->
  KERNEL_DYNAMIC_BASE <= base -> base + Z.of_nat (length fs) * PAGE_SIZE <= KERNEL_DYNAMIC_LIMIT ->
  intervals s.(kernel_vma_tree).(root) = l1 ++ l2 ->
  intervals t'.(root) = l1 ++ (base, base + Z.of_nat (length fs) * PAGE_SIZE, 0) :: l2 ->
  vma_wf p' t' -> p'.(pool_initialized) = true ->
  kernel_pages (set_kernel_vma_tree t' (set_vma_nodes p' s1)).
Proof.
  intros KP G Hb He Hlo Hhi Hl Hl' Hw Hpi. set (n := Z.of_nat (length fs)) in *. pose proof (gr_shape _ _ _ _ G) as Hsh.
  pose proof (sh_total _ _ Hsh) as Ht. simpl.
  assert (Hels : forall i, i ∈ intervals t'.(root) <-> i = (base, base + n * PAGE_SIZE, 0) \/ i ∈ intervals s.(kernel_vma_tree).(root))
    by (intros i; rewrite Hl, Hl'; set_solver).
  split; simpl.
  - apply pages_ok_vma, G.
  - eapply same_shape_init; [done|apply KP].
  - done.
  - by left.
  - intros v a Hv Ha. rewrite Ht. destruct (grown_inv _ _ _ _ _ _ G Hv Ha) as [(f & H0 & Hf & ->)|[_ Ha']].
    + rewrite Z.div_mul by done. assert (Hin : f ∈ fs) by (by eapply list_elem_of_lookup_2).
      destruct (gr_fresh _ _ _ _ G f Hin). split; [lia|]. rewrite (gr_used _ _ _ _ G) by done.
      by rewrite bool_decide_eq_true_2.
    + destruct (kp_used s KP v a Hv Ha') as [H1 H2]. split; [done|].
      rewrite (gr_used _ _ _ _ G), H2, orb_true_r by (split; [by eapply frame_addr_nonneg|done]). done.
  - intros v w a Hv Hv' Ha Ha'.
    destruct (grown_inv _ _ _ _ _ _ G Hv Ha) as [(f & H0 & Hf & ->)|[_ Hold]], (grown_inv _ _ _ _ _ _ G Hv' Ha') as [(f' & H0' & Hf' & E)|[_ Hold']].
    + assert (f' = f) as -> by (unfold PAGE_SIZE in E; lia).
      pose proof (NoDup_lookup _ _ _ _ (gr_nodup _ _ _ _ G) Hf Hf'). unfold page_index in *. lia.
    + exfalso. destruct (kp_used s KP w _ Hv' Hold') as [_ H2]. rewrite Z.div_mul in H2 by done.
      destruct (gr_fresh _ _ _ _ G f) as [_ H3]; [by eapply list_elem_of_lookup_2|congruence].
    + subst a. exfalso. destruct (kp_used s KP v _ Hv Hold) as [_ H2]. rewrite Z.div_mul in H2 by done.
      destruct (gr_fresh _ _ _ _ G f') as [_ H3]; [by eapply list_elem_of_lookup_2|congruence].
    + by eapply (kp_inj s KP).
  - intros v Hv. pose proof (in_run base n v Hb) as Hrun. pose proof (kp_mapped s KP v Hv) as Hold. split.
    + intros Hne. destruct (kernel_frame img s1.(phys) v) as [a|] eqn:Ea; [|done].
      destruct (grown_inv _ _ _ _ _ _ G Hv Ea) as [(f & H0 & Hf & ->)|[_ Ha']].
      * exists (base, base + n * PAGE_SIZE, 0). split; [apply Hels; auto|]. simpl. apply Hrun.
        apply lookup_lt_Some in Hf. lia.
      * destruct Hold as [Hold _]. destruct Hold as (i & Hi & Hiv); [congruence|]. exists i. split; [apply Hels; auto|done].
    + intros (i & Hi & Hiv). apply Hels in Hi as [->|Hi].
      * simpl in Hiv. apply Hrun in Hiv. destruct (lookup_lt_is_Some_2 fs (Z.to_nat (page_index base v))) as [f Hf]; [lia|].
        by rewrite (grown_lookup _ _ _ _ v f G Hv (proj1 Hiv) Hf).
      * assert (Hne : kernel_frame img s.(phys) v <> None) by (apply Hold; by exists i).
        rewrite (gr_frame _ _ _ _ G v Hv). destruct (_ && _) eqn:E; [|done].
        destruct (lookup_lt_is_Some_2 fs (Z.to_nat (page_index base v))) as [f ->]; [lia|done].
  - intros i [->|Hi]%Hels; [by simpl|]. by apply (kp_range s KP).
Qed.
End Alloc.
