(* ===== verification/PagingSpec.v ===== *)
(** Paging as the kernel sees it (PAE): the direct map, and runs of pages. *)
From S2P Require Import Prelude Bootinfo Pmm PmmFacts PmmAlloc PmmSpec Vma VmaFacts VmaSpec.
From S2P Require Import PagingData PagingTables Paging PagingFacts PagingAlloc.
From Stdlib Require Import ZArith Lia.
From stdpp Require Import sets.
Open Scope Z_scope.

Section Spec.
Context (img : kernel_image) (Himg : image_ok img).

Lemma on_vma_nodes_done {A} (m : M vma_pool A) s a p :
  m s.(vma_nodes) = Done a p -> on_vma_nodes m s = Done a (set_vma_nodes p s).
Proof. unfold on_vma_nodes. by intros ->. Qed.

(** A non-empty interval makes the pool ready. *)
Lemma vma_tree_insert_ready t start end_ flags p r p' :
  start < end_ -> vma_tree_insert t start end_ flags p = Done r p' -> p'.(pool_initialized) = true.
Proof.
  intros Hlt. unfold vma_tree_insert. replace (end_ <=? start) with false by lia. unfold node_alloc. run.
  rewrite (run_bind_done _ _ _ _ _ (node_pool_init_run p)). run. simpl free_nodes.
  destruct (pool_slots p) as [|slot rest]; run; [by intros [= _ <-]|].
  unfold of_option. destruct (node_insert _ _) as [[r' b]|]; run; [|done].
  destruct b; simpl; by intros [= _ <-].
Qed.

(** The unmapped pages of a gap of the tree. *)
Lemma gap_unmapped s base len v :
  kernel_pages img s -> gap_ok (intervals s.(kernel_vma_tree).(root)) KERNEL_DYNAMIC_BASE KERNEL_DYNAMIC_LIMIT len PAGE_SIZE base ->
  base <= v < base + len -> in_dynamic v /\ kernel_frame img s.(phys) v = None.
Proof.
  intros KP (H1 & H2 & _ & Hdis) Hv. assert (Hd : in_dynamic v) by (unfold in_dynamic; lia). split; [done|].
  destruct (kernel_frame img s.(phys) v) eqn:E; [|done]. exfalso.
  destruct (proj1 (kp_mapped img s KP v Hd)) as (i & Hi & Hiv); [congruence|]. destruct (Hdis i Hi); lia.
Qed.

(** Too few frames are free. *)
Definition out_of_frames (s : paging) (n : Z) : Prop :=
  exists l, Z.of_nat (length l) < n /\
    forall g, 0 <= g < s.(frames).(total_frames) -> frame_used s.(frames) g = false -> g ∈ l.

(** What the run [base, base + n pages) of new frames [fs] looks like. *)
Record run_added (s s' : paging) (base n : Z) (fs : list Z) : Prop := {
  ra_base : page_addr base /\ KERNEL_DYNAMIC_BASE <= base /\ base + n * PAGE_SIZE <= KERNEL_DYNAMIC_LIMIT;
  ra_length : Z.of_nat (length fs) = n;
  ra_nodup : NoDup fs;
  ra_fresh f : f ∈ fs -> 0 <= f < s.(frames).(total_frames) /\ frame_used s.(frames) f = false;
  ra_gap v : base <= v < base + n * PAGE_SIZE -> kernel_frame img s.(phys) v = None;
  ra_total : s'.(frames).(total_frames) = s.(frames).(total_frames);
  ra_used g : 0 <= g < s.(frames).(total_frames) -> frame_used s'.(frames) g = bool_decide (g ∈ fs) || frame_used s.(frames) g;
  ra_new v f : base <= v < base + n * PAGE_SIZE -> fs !! Z.to_nat (page_index base v) = Some f ->
    paging_translate_address img v s' = Done (Some (f * PAGE_SIZE + v mod PAGE_SIZE)) s';
  ra_old v : in_dynamic v -> ~ base <= v < base + n * PAGE_SIZE ->
    paging_translate_address img v s' = Done (translation img s.(phys) v) s';
  ra_tree : exists l1 l2, intervals s.(kernel_vma_tree).(root) = l1 ++ l2 /\
    intervals s'.(kernel_vma_tree).(root) = l1 ++ (base, base + n * PAGE_SIZE, 0) :: l2;
  ra_rest : same_rest img s s'
}.

Lemma grown_run_added base s s1 s2 fs l1 l2 :
  grown img base s s1 fs -> page_addr base -> KERNEL_DYNAMIC_BASE <= base ->
  base + Z.of_nat (length fs) * PAGE_SIZE <= KERNEL_DYNAMIC_LIMIT ->
  (forall v, base <= v < base + Z.of_nat (length fs) * PAGE_SIZE -> kernel_frame img s.(phys) v = None) ->
  pages_ok img s2 -> s2.(phys) = s1.(phys) -> s2.(frames) = s1.(frames) -> same_rest img s s2 ->
  intervals s.(kernel_vma_tree).(root) = l1 ++ l2 ->
  intervals s2.(kernel_vma_tree).(root) = l1 ++ (base, base + Z.of_nat (length fs) * PAGE_SIZE, 0) :: l2 ->
  run_added s s2 base (Z.of_nat (length fs)) fs.
Proof.
  intros G Hb Hlo Hhi Hgap [Hm K Hc Hp] Ep Ef Hrest E1 E2. split; [done|done|apply G|apply G|done| | | | |by exists l1, l2|done].
  - rewrite Ef. apply (sh_total _ _ (gr_shape _ _ _ _ _ G)).
  - intros g Hg. rewrite Ef. by apply (gr_used _ _ _ _ _ G).
  - intros v f Hv Hf. assert (Hd : in_dynamic v) by (unfold in_dynamic; lia). apply in_run in Hv; [|done].
    rewrite (translate_run img Himg v s2 K Hm Hc Hd). unfold translation. rewrite Ep.
    by rewrite (grown_lookup img _ _ _ _ v f G Hd (proj1 Hv) Hf).
  - intros v Hd Hv. rewrite (in_run base _ v Hb) in Hv.
    rewrite (translate_run img Himg v s2 K Hm Hc Hd). unfold translation. rewrite Ep, (gr_frame _ _ _ _ _ G v Hd).
    pose proof (Nat2Z.is_nonneg (length fs)). by replace ((0 <=? page_index base v) && _) with false by lia.
Qed.

(** Every page of the gap that was found is free to map. *)
Lemma gap_pages s base n i :
  kernel_pages img s -> gap_ok (intervals s.(kernel_vma_tree).(root)) KERNEL_DYNAMIC_BASE KERNEL_DYNAMIC_LIMIT (n * PAGE_SIZE) PAGE_SIZE base ->
  0 <= i < n -> in_dynamic (base + i * PAGE_SIZE) /\ kernel_frame img s.(phys) (base + i * PAGE_SIZE) = None.
Proof. intros KP G Hi. eapply gap_unmapped; [done|done|]. unfold PAGE_SIZE. lia. Qed.

Lemma gap_page_addr l n base :
  gap_ok l KERNEL_DYNAMIC_BASE KERNEL_DYNAMIC_LIMIT (n * PAGE_SIZE) PAGE_SIZE base -> 0 <= n ->
  page_addr base /\ page_addr (base + n * PAGE_SIZE).
Proof.
  intros (H1 & H2 & Hdiv & _) Hn. unfold KERNEL_DYNAMIC_BASE, KERNEL_DYNAMIC_LIMIT, PAGE_SIZE in *.
  assert (base mod 0x1000 = 0) by (by apply Z.mod_divide).
  split; (split; [word_lia|]); unfold PAGE_SIZE; [done|by rewrite Z.mod_add by lia].
Qed.

(** When the loop stopped early, the frames it took were all there were. *)
Lemma stopped_out_of_frames base s s1 fs n :
  grown img base s s1 fs -> Z.of_nat (length fs) < n ->
  (forall f, 0 <= f < s.(frames).(total_frames) -> frame_used s1.(frames) f = true) -> out_of_frames s n.
Proof.
  intros G Hl Hfull. exists fs. split; [done|]. intros g Hg Hfree. specialize (Hfull g Hg).
  rewrite (gr_used _ _ _ _ _ G g Hg), Hfree, orb_false_r in Hfull. by apply bool_decide_eq_true in Hfull.
Qed.

(** The tree and its nodes play no part in mapping pages. *)
Lemma grown_vma base s s1 fs t p :
  grown img base s s1 fs ->
  grown img base (set_kernel_vma_tree t (set_vma_nodes p s)) (set_kernel_vma_tree t (set_vma_nodes p s1)) fs.
Proof.
  intros []. split; try done; [by apply pages_ok_vma|].
  destruct gr_only as (m & log & q & ->). by exists m, log, q.
Qed.

(** Undoing a run gives the state's pages back. *)
Lemma rollback_unchanged base s s1 fs p :
  kernel_pages img s -> page_addr base ->
  (forall i, 0 <= i < Z.of_nat (length fs) -> in_dynamic (base + i * PAGE_SIZE) /\
    kernel_frame img s.(phys) (base + i * PAGE_SIZE) = None) ->
  grown img base s s1 fs -> vma_wf p s.(kernel_vma_tree) ->
  (p.(pool_initialized) = true \/ s.(kernel_vma_tree).(root) = Null) ->
  wp (rollback img base (Z.of_nat (length fs)))
     (fun _ s' => kernel_pages img s' /\ unchanged_pages img s s')
     (set_kernel_vma_tree s.(kernel_vma_tree) (set_vma_nodes p s1)).
Proof.
  intros KP Hb Hdyn G Hw Hp. eapply wp_mono; [by eapply (rollback_spec img Himg), (grown_vma _ s)|].
  intros [] s2 G2. pose proof (grown_nil_unchanged img _ _ _ G2) as U.
  assert (U' : unchanged_pages img s s2) by (by destruct U).
  split; [|done]. pose proof (gr_only _ _ _ _ _ G2) as (m & log & q & E).
  eapply kernel_pages_unchanged; [done|apply G2|done|..]; [|by rewrite E..].
  eapply same_shape_init; [apply G2|apply KP].
Qed.

Lemma alloc_pages_spec n node s :
  kernel_pages img s -> 0 <= n < 2 ^ 32 -> 0 <= node ->
  wp (paging_alloc_pages_on_node img n node) (fun r s' => kernel_pages img s' /\ match r with
    | Some base => exists fs, run_added s s' base n fs
    | None => unchanged_pages img s s' /\
        (n = 0 \/ out_of_frames s n \/ pool_slots s.(vma_nodes) = [] \/
         forall base, ~ gap_ok (intervals s.(kernel_vma_tree).(root)) KERNEL_DYNAMIC_BASE KERNEL_DYNAMIC_LIMIT
                          (n * PAGE_SIZE) PAGE_SIZE base)
    end) s.
Proof.
  intros KP Hn Hnode. unfold paging_alloc_pages_on_node. wp_step. apply on_pmm_wp. unfold pmm_is_initialized. apply wp_gets.
  rewrite (kp_init img s KP). replace (set_frames s.(frames) s) with s by (by destruct s).
  assert (Hself : unchanged_pages img s s) by (split; try done; apply same_rest_refl).
  destruct (Z.eqb_spec n 0) as [Hn0|Hn0]; decided; [apply wp_ret; auto|].
  rewrite (wrap_small 64 (n * PAGE_SIZE)) by (unfold PAGE_SIZE; word_lia).
  destruct (Z.ltb_spec (KERNEL_DYNAMIC_LIMIT - KERNEL_DYNAMIC_BASE) (n * PAGE_SIZE)) as [Hbig|Hbig].
  { rewrite orb_true_r. apply wp_ret. split; [done|]. split; [done|]. do 3 right. intros base (H1 & H2 & _). lia. }
  replace (n * PAGE_SIZE =? 0) with false by (unfold PAGE_SIZE; lia). decided. wp_step. wp_step.
  assert (Hlen : 0 < n * PAGE_SIZE < 2 ^ 32)
    by (unfold PAGE_SIZE, KERNEL_DYNAMIC_BASE, KERNEL_DYNAMIC_LIMIT in *; word_lia).
  rewrite (wrap_small 32 (n * PAGE_SIZE)) by word_lia.
  pose proof (vma_tree_find_gap_spec s.(vma_nodes) s.(kernel_vma_tree) KERNEL_DYNAMIC_BASE KERNEL_DYNAMIC_LIMIT (n * PAGE_SIZE) 12
    (kp_vma img s KP) ltac:(done) ltac:(done) ltac:(done) ltac:(lia) ltac:(lia) ltac:(lia)) as Hgap.
  change (2 ^ 12) with PAGE_SIZE in Hgap.
  destruct (vma_tree_find_gap _ _ _ _ _) as [base|]; [|apply wp_ret; auto 6].
  destruct Hgap as [G _]. destruct (gap_page_addr _ n base G ltac:(lia)) as [Hb He].
  assert (Hpages : forall i, 0 <= i < n -> in_dynamic (base + i * PAGE_SIZE) /\ kernel_frame img s.(phys) (base + i * PAGE_SIZE) = None)
    by (intros i Hi; by apply (gap_pages s base n)).
  wp_step. eapply wp_mono; [apply (alloc_loop_spec img Himg base node n s); try done; [apply KP..|by intros i Hi; apply Hpages]|].
  assert (Hpool : forall s1 fs, grown img base s s1 fs ->
    s1 = set_kernel_vma_tree s.(kernel_vma_tree) (set_vma_nodes s.(vma_nodes) s1)).
  { intros s1 fs Gr. destruct (gr_only _ _ _ _ _ Gr) as (m & log & q & ->). by destruct s. }
  intros [k|k] s1 (fs & Gr & Hk).
  - destruct Hk as [-> Hk]. wp_step. wp_step.
    replace s1.(kernel_vma_tree) with s.(kernel_vma_tree) by (by rewrite (Hpool s1 fs Gr)).
    rewrite wrap_small by (destruct He; word_lia). pose proof G as (G1 & G2 & _ & G4).
    destruct (vma_tree_insert_spec s.(vma_nodes) s.(kernel_vma_tree) base (base + n * PAGE_SIZE) 0 (kp_vma img s KP)
      (proj1 Hb) (proj1 He)) as (t' & b & p' & Hins & Hw' & Hb' & Hres).
    pose proof (vma_tree_insert_ready _ _ _ _ _ _ _ (Z.lt_add_pos_r _ _ (proj1 Hlen)) Hins) as Hpi.
    wp_step. eapply Done_wp; [apply on_vma_nodes_done; by rewrite (Hpool s1 fs Gr)|]. wp_step. wp_step. simpl fst. simpl snd.
    subst n. destruct b; decided.
    + destruct Hres as (l1 & l2 & E1 & E2). apply wp_ret.
      assert (KP' : kernel_pages img (set_kernel_vma_tree t' (set_vma_nodes p' s1))) by (by eapply kernel_pages_grown).
      split; [done|]. exists fs. eapply grown_run_added; try done; [|apply KP'|exact (same_rest_only img _ _ (gr_only _ _ _ _ _ Gr) (gr_outside _ _ _ _ _ Gr))].
      intros v Hv. by apply (gap_unmapped s base _ v KP G).
    + destruct Hres as [-> Hps]. wp_step. eapply wp_mono; [by apply (rollback_unchanged base s s1 fs p'); auto|].
      intros [] s2 [KP2 U]. apply wp_ret. split; [done|]. split; [done|]. do 2 right. left.
      destruct (pool_slots s.(vma_nodes)); [done|]. destruct Hb' as [_ Hb']. discriminate Hb'. auto with lia.
  - destruct Hk as (-> & Hlt & Hfull). rewrite (Hpool s1 fs Gr). wp_step.
    eapply wp_mono; [apply (rollback_unchanged base s s1 fs); [done|done| |done|apply KP..]|].
    { intros i Hi. apply Hpages. lia. }
    intros [] s2 [KP2 U]. apply wp_ret. split; [done|]. split; [done|]. right. left. by eapply stopped_out_of_frames.
Qed.
End Spec.
