(* ===== verification/PagingFree.v ===== *)
(** Releasing runs of kernel pages (PAE), and what allocating and releasing a run
    amount to together. *)
From S2P Require Import Prelude Bootinfo Pmm PmmFacts PmmAlloc PmmSpec Vma VmaFacts VmaSpec.
From S2P Require Import PagingData PagingTables Paging PagingFacts PagingAlloc PagingSpec.
From Stdlib Require Import ZArith Lia Bool.
From stdpp Require Import sets.
Open Scope Z_scope.

Section Free.
Context (img : kernel_image) (Himg : image_ok img).

(** Frame [g] backs one of the first [k] pages from [base] on. *)
Definition backs (s : paging) (base k g : Z) : Prop :=
  exists i, 0 <= i < k /\ kernel_frame img s.(phys) (base + i * PAGE_SIZE) = Some (g * PAGE_SIZE).

(** [s'] is [s] without the first [k] pages from [base] on, their frames free. *)
Record shrunk (base k : Z) (s s' : paging) : Prop := {
  sk_ok : pages_ok img s';
  sk_only : only_pages s s';
  sk_outside : outside_same img s.(phys) s'.(phys);
  sk_shape : same_shape s.(frames) s'.(frames);
  sk_frame v : in_dynamic v -> kernel_frame img s'.(phys) v =
    if (0 <=? page_index base v) && (page_index base v <? k) then None else kernel_frame img s.(phys) v;
  sk_used g : 0 <= g < s.(frames).(total_frames) ->
    (frame_used s'.(frames) g = true <-> frame_used s.(frames) g = true /\ ~ backs s base k g)
}.

Lemma shrunk_nil base s : pages_ok img s -> shrunk base 0 s s.
Proof.
  intros H. split; [done|apply only_pages_refl|done|done| |].
  - intros v _. by destruct (Z.leb_spec 0 (page_index base v)), (Z.ltb_spec (page_index base v) 0); try lia.
  - intros g _. split; [|by intros []]. intros Hg. split; [done|]. intros (i & Hi & _). lia.
Qed.

Lemma frame_addr_page m v a : kernel_frame img m v = Some a -> page_addr a.
Proof. unfold kernel_frame. destruct (_ && _); [|done]. intros [= <-]. apply entry_addr_page. Qed.

Lemma page_index_run base i : page_addr base -> page_index base (base + i * PAGE_SIZE) = i.
Proof. intros Hb. unfold page_index. rewrite page_of_run by done. lia. Qed.

Lemma shrunk_step base k s s1 s2 a :
  page_addr base -> 0 <= k -> in_dynamic (base + k * PAGE_SIZE) -> shrunk base k s s1 ->
  kernel_frame img s.(phys) (base + k * PAGE_SIZE) = Some a ->
  pages_ok img s2 -> only_pages s1 s2 -> changed false s1.(frames) s2.(frames) (fun g => g =? a / PAGE_SIZE) ->
  remapped img s1.(phys) s2.(phys) (base + k * PAGE_SIZE) None -> shrunk base (k + 1) s s2.
Proof.
  intros Hb Hk Hd [] Ha Hok Ho [Hch _ Hsh] Hrm. pose proof (sh_total _ _ sk_shape0) as Ht.
  pose proof (frame_of_page _ (frame_addr_page _ _ _ Ha)) as Hfa.
  split; [done|by eapply only_pages_trans|eapply outside_trans; [done|exact (rm_outside _ _ _ _ _ Hrm)]|by etransitivity| |].
  - intros v Hv. rewrite (rm_frame _ _ _ _ _ Hrm v Hv), page_of_run, sk_frame0 by done. unfold page_index.
    destruct (Z.eqb_spec (page_of v) (page_of base + k)).
    + by replace ((0 <=? _) && _) with true by lia.
    + replace (page_of v - page_of base <? k + 1) with (page_of v - page_of base <? k); [done|].
      destruct (Z.ltb_spec (page_of v - page_of base) k), (Z.ltb_spec (page_of v - page_of base) (k + 1)); lia.
  - intros g Hg. rewrite Hch by lia. destruct (Z.eqb_spec g (a / PAGE_SIZE)) as [->|Hne].
    + split; [done|]. intros [_ Hnot]. destruct Hnot. exists k. split; [lia|]. by rewrite Hfa.
    + rewrite sk_used0 by done. split; intros [Hu Hnot]; (split; [done|]); intros (i & Hi & Hf); apply Hnot.
      * exists i. split; [|done]. destruct (Z.eq_dec i k) as [->|]; [|lia]. exfalso.
        rewrite Ha in Hf. injection Hf as ->. by rewrite Z.div_mul in Hne by done.
      * exists i. split; [lia|done].
Qed.

(** The loop of [paging_free_pages]. *)
Lemma release_loop_spec base n s :
  pages_ok img s -> page_addr base -> 0 <= n ->
  (forall i, 0 <= i < n -> in_dynamic (base + i * PAGE_SIZE) /\ kernel_frame img s.(phys) (base + i * PAGE_SIZE) <> None) ->
  wp (for_each 0 n (release_page img base)) (fun _ s' => shrunk base n s s') s.
Proof.
  intros Hok Hb Hn Hrun. apply (wp_for_each _ _ _ (fun k s' => shrunk base k s s')); [done|by apply shrunk_nil| |done].
  intros k s1 Hk Sh. destruct (Hrun k Hk) as [Hd Hm].
  destruct (kernel_frame img s.(phys) (base + k * PAGE_SIZE)) as [a|] eqn:Ea; [|done].
  assert (Ha : kernel_frame img s1.(phys) (base + k * PAGE_SIZE) = Some a).
  { rewrite (sk_frame _ _ _ _ Sh), page_index_run, Z.ltb_irrefl, andb_false_r by done. done. }
  eapply wp_mono; [apply (release_page_spec img Himg); [apply Sh|done|lia|done]|]. rewrite Ha.
  intros [] s2 (Hok2 & Ho & Hch & Hrm). eapply shrunk_step; [done|lia|done|done|done|done|done|done|done].
Qed.

Lemma vma_tree_remove_ready t start end_ p r p' :
  vma_wf p t -> vma_tree_remove t start end_ p = Done r p' -> p'.(pool_initialized) = p.(pool_initialized).
Proof.
  intros W. unfold vma_tree_remove. pose proof (wf_height p t W).
  destruct (node_remove_spec t.(root) start end_ 0 (2 ^ 32 - 1) p) as (r' & b & p1 & Hrun & Hpost); [apply W|apply W|lia|].
  rewrite (run_bind_done _ _ _ _ _ Hrun). intros [= _ <-].
  destruct b; [by destruct Hpost as (_ & _ & _ & _ & slot & -> & _)|by destruct Hpost as (_ & -> & _)].
Qed.

(** What is left when a run has been released and its interval removed. *)
Lemma kernel_pages_shrunk base n f l1 l2 s s1 t' p' :
  kernel_pages img s -> page_addr base -> 0 <= n ->
  intervals s.(kernel_vma_tree).(root) = l1 ++ (base, base + n * PAGE_SIZE, f) :: l2 ->
  intervals t'.(root) = l1 ++ l2 -> vma_wf p' t' -> p'.(pool_initialized) = true ->
  shrunk base n (set_kernel_vma_tree t' (set_vma_nodes p' s)) s1 -> kernel_pages img s1.
Proof.
  intros KP Hb Hn E E' Hw Hpi [Hok (m & log & q & Es) _ Hsh Hf Hu]. simpl in *. pose proof (sh_total _ _ Hsh) as Ht.
  destruct (bst_split _ _ _ _ _ _ _ _ (wf_bst _ _ (kp_vma img s KP)) E) as (Hlt & Hl1 & Hl2).
  assert (Hout : forall v, in_dynamic v -> kernel_frame img s1.(phys) v =
    if decide (base <= v < base + n * PAGE_SIZE) then None else kernel_frame img s.(phys) v).
  { intros v Hv. rewrite Hf by done. pose proof (in_run base n v Hb).
    destruct (decide _), (Z.leb_spec 0 (page_index base v)), (Z.ltb_spec (page_index base v) n); simpl; (done || lia). }
  assert (Htree : s1.(kernel_vma_tree) = t') by (by rewrite Es).
  assert (Hnodes : s1.(vma_nodes) = p') by (by rewrite Es).
  split; rewrite ?Htree, ?Hnodes.
  - done.
  - by eapply same_shape_init, (kp_init img s KP).
  - done.
  - by left.
  - intros v a Hv Ha. rewrite Hout in Ha by done. destruct (decide _) as [|Hnr]; [done|].
    destruct (kp_used img s KP v a Hv Ha) as [H1 H2]. rewrite Ht. split; [done|].
    apply Hu; [split; [by eapply frame_addr_nonneg|done]|]. split; [done|]. intros (i & Hi & Hb').
    rewrite (frame_of_page _ (frame_addr_page _ _ _ Ha)) in Hb'. simpl in Hb'. apply Hnr, in_run; [done|].
    assert (Hd : in_dynamic (base + i * PAGE_SIZE)).
    { destruct (kp_range img s KP (base, base + n * PAGE_SIZE, f)) as (? & ? & _); [rewrite E; set_solver|]. simpl in *.
      unfold in_dynamic, PAGE_SIZE in *. lia. }
    pose proof (kp_inj img s KP _ _ _ Hd Hv Hb' Ha) as Hp. rewrite page_of_run in Hp by done. unfold page_index. lia.
  - intros v w a Hv Hv' Ha Ha'. rewrite Hout in Ha, Ha' by done.
    destruct (decide _), (decide _); try done. by eapply (kp_inj img s KP).
  - intros v Hv. rewrite Hout by done. pose proof (kp_mapped img s KP v Hv) as [Hm1 Hm2]. rewrite E in Hm1, Hm2. rewrite E'.
    destruct (decide _) as [Hin|Hnin].
    + split; [done|]. intros (i & [Hi|Hi]%elem_of_app & Hiv); [apply Hl1 in Hi|apply Hl2 in Hi]; lia.
    + split.
      * intros Hne. destruct (Hm1 Hne) as (i & Hi & Hiv). exists i. split; [|done].
        apply elem_of_app in Hi as [Hi|[->|Hi]%elem_of_cons]; [set_solver| |set_solver]. simpl in Hiv. lia.
      * intros (i & Hi & Hiv). apply Hm2. exists i. split; [set_solver|done].
  - intros i Hi. apply (kp_range img s KP). rewrite E' in Hi. rewrite E. set_solver.
Qed.

(** What [paging_free_pages] does to a run that the tree lists. *)
Record run_removed (s s' : paging) (base n : Z) : Prop := {
  rr_old v : in_dynamic v -> ~ base <= v < base + n * PAGE_SIZE ->
    kernel_frame img s'.(phys) v = kernel_frame img s.(phys) v;
  rr_gone v : base <= v < base + n * PAGE_SIZE -> kernel_frame img s'.(phys) v = None;
  rr_used g : 0 <= g < s.(frames).(total_frames) ->
    (frame_used s'.(frames) g = true <-> frame_used s.(frames) g = true /\ ~ backs s base n g);
  rr_total : s'.(frames).(total_frames) = s.(frames).(total_frames);
  rr_tree : exists l1 f l2, intervals s.(kernel_vma_tree).(root) = l1 ++ (base, base + n * PAGE_SIZE, f) :: l2 /\
    intervals s'.(kernel_vma_tree).(root) = l1 ++ l2;
  rr_rest : same_rest img s s'
}.

Lemma free_pages_spec base n s :
  kernel_pages img s -> 0 <= n -> has_interval s.(kernel_vma_tree).(root) base (base + n * PAGE_SIZE) ->
  wp (paging_free_pages img base n) (fun _ s' => kernel_pages img s' /\ run_removed s s' base n) s.
Proof.
  intros KP Hn (f & Hin). destruct (kp_range img s KP _ Hin) as (Hlo & Hhi & Hb & He). simpl in *.
  destruct (bst_bounds _ _ _ _ _ _ (wf_bst _ _ (kp_vma img s KP)) Hin) as (_ & Hlt & _).
  unfold paging_free_pages. unfold KERNEL_DYNAMIC_BASE, KERNEL_DYNAMIC_LIMIT in Hlo, Hhi.
  assert (Hn0 : 0 < n) by (unfold PAGE_SIZE in Hlt; lia).
  replace ((base =? 0) || (n =? 0)) with false by lia. decided. cbv zeta.
  rewrite (wrap_small 64 (n * PAGE_SIZE)) by (unfold PAGE_SIZE in *; word_lia).
  rewrite (wrap_small 64) by (unfold PAGE_SIZE in *; word_lia).
  replace (0xFFFFFFFF <? base + n * PAGE_SIZE) with false by lia. decided. wp_step. wp_step.
  rewrite wrap_small by (destruct He; word_lia).
  destruct (kp_pool img s KP) as [Hpi|Hnull]; [|rewrite Hnull in Hin; by apply not_elem_of_nil in Hin].
  destruct (vma_tree_remove_spec _ _ base (base + n * PAGE_SIZE) (kp_vma img s KP) Hpi)
    as (t' & b & p' & Hrm & Hw & Hb' & Hres).
  destruct b; [|discriminate (proj2 Hb' (ex_intro _ f Hin))].
  destruct Hres as [(l1 & f' & l2 & E & E') Hslot].
  assert (Hpi' : p'.(pool_initialized) = true) by (by rewrite (vma_tree_remove_ready _ _ _ _ _ _ (kp_vma img s KP) Hrm)).
  wp_step. eapply Done_wp; [by apply on_vma_nodes_done|]. wp_step. wp_step. simpl fst.
  set (s0 := set_kernel_vma_tree t' (set_vma_nodes p' s)).
  assert (Hrun : forall v, base <= v < base + n * PAGE_SIZE -> in_dynamic v /\ kernel_frame img s.(phys) v <> None).
  { intros v Hv. assert (Hd : in_dynamic v) by (unfold in_dynamic, KERNEL_DYNAMIC_BASE, KERNEL_DYNAMIC_LIMIT; lia).
    split; [done|]. apply (kp_mapped img s KP v Hd). by exists (base, base + n * PAGE_SIZE, f). }
  eapply wp_mono; [apply (release_loop_spec base n s0); [apply pages_ok_vma, KP|done|lia|]|].
  { intros i Hi. apply Hrun. unfold PAGE_SIZE. lia. }
  intros [] s1 Sh. assert (KP1 : kernel_pages img s1) by (by eapply (kernel_pages_shrunk base n f' l1 l2 s)).
  split; [done|]. destruct Sh as [_ Ho Hout Hsh Hf Hu]. pose proof (same_rest_only img _ _ Ho Hout) as Hrest. destruct Ho as (m & log & q & Es). split; [..|exact Hrest].
  - intros v Hv Hnv. rewrite (in_run base n v Hb) in Hnv. rewrite Hf by done.
    destruct (Z.leb_spec 0 (page_index base v)), (Z.ltb_spec (page_index base v) n); (done || lia).
  - intros v Hv. rewrite Hf by (by apply Hrun). apply in_run in Hv; [|done]. by replace ((0 <=? _) && _) with true by lia.
  - exact Hu.
  - apply (sh_total _ _ Hsh).
  - exists l1, f', l2. by rewrite Es.
Qed.

(** ** Allocating and releasing *)

Lemma split_unique {A} (l1 l2 l1' l2' : list A) x y :
  l1 ++ x :: l2 = l1' ++ y :: l2' -> (l1 = l1' /\ x = y /\ l2 = l2') \/ x ∈ l1' \/ y ∈ l1.
Proof.
  revert l1'. induction l1 as [|a l1 IH]; intros [|b l1']; simpl; intros [= E1 E2].
  - auto.
  - subst. right. left. set_solver.
  - subst. right. right. set_solver.
  - subst. destruct (IH _ E2) as [(-> & ? & ?)|[?|?]]; [auto|right; left; set_solver|right; right; set_solver].
Qed.

Lemma translate_frame v a s :
  pages_ok img s -> in_dynamic v -> paging_translate_address img v s = Done ((fun f => f + v mod PAGE_SIZE) <$> a) s ->
  kernel_frame img s.(phys) v = a.
Proof.
  intros [Hm K Hc _] Hv. rewrite (translate_run img Himg v s K Hm Hc Hv). unfold translation. intros [= E].
  destruct (kernel_frame img s.(phys) v), a; simpl in E; try done. f_equal. injection E. lia.
Qed.

(** The frames that a new run added are the ones that back it. *)
Lemma run_added_backs s s1 base n fs g :
  pages_ok img s1 -> run_added img s s1 base n fs -> (backs s1 base n g <-> g ∈ fs).
Proof.
  intros Hok R. destruct (ra_base _ _ _ _ _ _ R) as (Hb & Hlo & Hhi). pose proof (ra_length _ _ _ _ _ _ R) as Hl.
  assert (Hfr : forall i f, 0 <= i < n -> fs !! Z.to_nat i = Some f ->
    kernel_frame img s1.(phys) (base + i * PAGE_SIZE) = Some (f * PAGE_SIZE)).
  { intros i f Hi Hf. assert (Hin : base <= base + i * PAGE_SIZE < base + n * PAGE_SIZE) by (unfold PAGE_SIZE; lia).
    apply translate_frame; [done|unfold in_dynamic; lia|].
    eapply (ra_new _ _ _ _ _ _ R); [done|]. by rewrite page_index_run. }
  split.
  - intros (i & Hi & Hg). destruct (lookup_lt_is_Some_2 fs (Z.to_nat i)) as [f Hf]; [lia|].
    rewrite (Hfr i f Hi Hf) in Hg. injection Hg as Hg. assert (f = g) as -> by (unfold PAGE_SIZE in Hg; lia).
    by eapply list_elem_of_lookup_2.
  - intros [k Hk]%list_elem_of_lookup_1. pose proof (lookup_lt_Some _ _ _ Hk). exists (Z.of_nat k). split; [lia|].
    apply Hfr; [lia|by rewrite Nat2Z.id].
Qed.

Lemma alloc_free_spec s s1 base n fs :
  kernel_pages img s -> kernel_pages img s1 -> 0 <= n -> run_added img s s1 base n fs ->
  wp (paging_free_pages img base n) (fun _ s2 => kernel_pages img s2 /\
    (forall v, in_dynamic v -> kernel_frame img s2.(phys) v = kernel_frame img s.(phys) v) /\
    (forall g, 0 <= g < s.(frames).(total_frames) -> frame_used s2.(frames) g = frame_used s.(frames) g) /\
    intervals s2.(kernel_vma_tree).(root) = intervals s.(kernel_vma_tree).(root)) s1.
Proof.
  intros KP KP1 Hn R. destruct (ra_tree _ _ _ _ _ _ R) as (l1 & l2 & E & E1).
  assert (Hin : (base, base + n * PAGE_SIZE, 0) ∈ intervals s1.(kernel_vma_tree).(root)) by (rewrite E1; set_solver).
  eapply wp_mono; [apply free_pages_spec; [done|done|by exists 0]|]. intros [] s2 [KP2 R2]. split; [done|]. split; [|split].
  - intros v Hv. destruct (decide (base <= v < base + n * PAGE_SIZE)) as [Hr|Hr].
    + by rewrite (rr_gone _ _ _ _ R2), (ra_gap _ _ _ _ _ _ R).
    + rewrite (rr_old _ _ _ _ R2) by done. apply translate_frame; [apply KP1|done|by apply (ra_old _ _ _ _ _ _ R)].
  - intros g Hg. apply eq_true_iff_eq. rewrite (rr_used _ _ _ _ R2 g) by (by rewrite (ra_total _ _ _ _ _ _ R)).
    rewrite (run_added_backs s s1 base n fs g) by (done || apply KP1). rewrite (ra_used _ _ _ _ _ _ R g Hg).
    destruct (decide (g ∈ fs)) as [Hf|Hf].
    + destruct (ra_fresh _ _ _ _ _ _ R g Hf) as [_ ->]. naive_solver.
    + rewrite bool_decide_eq_false_2 by done. naive_solver.
  - destruct (rr_tree _ _ _ _ R2) as (k1 & f & k2 & E2 & ->). rewrite E.
    pose proof (wf_bst _ _ (kp_vma img s1 KP1)) as Hbst.
    destruct (bst_split _ _ _ _ _ _ _ _ Hbst E1) as (Hlt & Hl1 & _). destruct (bst_split _ _ _ _ _ _ _ _ Hbst E2) as (_ & Hk1 & _).
    rewrite E1 in E2. destruct (split_unique _ _ _ _ _ _ E2) as [(-> & _ & ->)|[Hx|Hx]]; [done| |].
    + apply Hk1 in Hx. simpl in Hx. lia.
    + apply Hl1 in Hx. simpl in Hx. lia.
Qed.
End Free.
