(* ===== verification/PagingBoot.v ===== *)
(** [paging_init] on a processor with PAE: the tables it builds. *)
From S2P Require Import Prelude Bootinfo Pmm PmmFacts PmmAlloc PmmSpec Vma VmaFacts VmaSpec.
From S2P Require Import PagingData PagingTables Paging PagingFacts PagingAlloc.
From Stdlib Require Import ZArith Lia.
From stdpp Require Import sets.
Open Scope Z_scope.

(** [a, a + m) and [b, b + n) have no address in common. *)
Definition apart (a m b n : Z) : Prop := a + m <= b \/ b + n <= a.

(** The rest of the image that start-up needs: the identity map's tables, the page
    directory pointer table at the start of a page, and the code it runs and
    protects inside the windows.  The source aligns that table to 32 bytes only, while
    the root of a space is CR3 without its low twelve bits: with the table anywhere else
    in a page the walks read another table, so [bok_pdpt] is what the code relies on. *)
Record boot_image_ok (img : kernel_image) : Prop := {
  bok_image : image_ok img;
  bok_pdpt : pa img.(pae_pdpt) mod PAGE_SIZE = 0;
  bok_idir : 0 <= pa img.(pae_identity_page_directory) /\
    pa img.(pae_identity_page_directory) + 0x1000 <= KERNEL_DIRECT_MAP_LIMIT_PHYS /\
    pa img.(pae_identity_page_directory) mod PAGE_SIZE = 0;
  bok_itables : 0 <= pa img.(pae_identity_page_tables) /\
    pa img.(pae_identity_page_tables) + 0x2000 <= KERNEL_DIRECT_MAP_LIMIT_PHYS /\
    pa img.(pae_identity_page_tables) mod PAGE_SIZE = 0;
  bok_idir_itables : apart (pa img.(pae_identity_page_directory)) 0x1000 (pa img.(pae_identity_page_tables)) 0x2000;
  bok_idir_pdpt : apart (pa img.(pae_identity_page_directory)) 0x1000 (pa img.(pae_pdpt)) 32;
  bok_idir_dir : apart (pa img.(pae_identity_page_directory)) 0x1000 (pa img.(pae_kernel_page_directory)) 0x1000;
  bok_idir_direct : apart (pa img.(pae_identity_page_directory)) 0x1000 (pa img.(pae_direct_map_page_tables)) 0x80000;
  bok_idir_dynamic : apart (pa img.(pae_identity_page_directory)) 0x1000 (pa img.(pae_dynamic_page_tables)) 0x7E000;
  bok_itables_pdpt : apart (pa img.(pae_identity_page_tables)) 0x2000 (pa img.(pae_pdpt)) 32;
  bok_itables_dir : apart (pa img.(pae_identity_page_tables)) 0x2000 (pa img.(pae_kernel_page_directory)) 0x1000;
  bok_itables_direct : apart (pa img.(pae_identity_page_tables)) 0x2000 (pa img.(pae_direct_map_page_tables)) 0x80000;
  bok_itables_dynamic : apart (pa img.(pae_identity_page_tables)) 0x2000 (pa img.(pae_dynamic_page_tables)) 0x7E000;
  bok_trampoline : 0 <= pa img.(i386_pae_trampoline) < BOOTSTRAP_WINDOW_SIZE;
  bok_stack : 0 <= pa img.(boot_stack) < BOOTSTRAP_WINDOW_SIZE;
  bok_text : 0 <= pa img.(text_start) /\ pa img.(text_end) <= KERNEL_DIRECT_MAP_LIMIT_PHYS;
  bok_rodata : 0 <= pa img.(rodata_start) /\ pa img.(rodata_end) <= KERNEL_DIRECT_MAP_LIMIT_PHYS;
  bok_pae : img.(cpu_has_pae) = true
}.

(** ** Tables of entries *)

(** The [n] entries at physical address [base]. *)
Definition entries (m : memory) (base n : Z) (f : Z -> Z) : Prop :=
  forall i, 0 <= i < n -> read_u64 m (base + 8 * i) = f i.

(** [m'] differs from [m] only in the [n] bytes at [lo]. *)
Definition only_in (lo n : Z) (m m' : memory) : Prop := forall x, x < lo \/ lo + n <= x -> m' x = m x.

Lemma entries_only_in lo k m m' base n f :
  only_in lo k m m' -> apart lo k base (8 * n) -> entries m base n f -> entries m' base n f.
Proof.
  intros Ho Ha He i Hi. rewrite <- He by done. apply (agree_read64 base (8 * n)); [|lia|lia].
  intros x Hx. apply Ho. unfold apart in Ha. lia.
Qed.

Lemma only_in_trans lo n m1 m2 m3 : only_in lo n m1 m2 -> only_in lo n m2 m3 -> only_in lo n m1 m3.
Proof. intros H1 H2 x Hx. by rewrite H2, H1. Qed.

Lemma only_in_sub lo n lo' n' m m' : only_in lo n m m' -> lo' <= lo -> lo + n <= lo' + n' -> only_in lo' n' m m'.
Proof. intros H H1 H2 x Hx. apply H. lia. Qed.

Lemma entries_ext m base n f g : (forall i, 0 <= i < n -> f i = g i) -> entries m base n f -> entries m base n g.
Proof. intros H He i Hi. by rewrite He, H. Qed.

(** Filling a table of [n] entries. *)
Lemma fill_entries p n v s :
  0 <= n -> p + 8 * n <= LEGACY_PT_RECURSIVE_BASE -> (forall i, 0 <= i < n -> fits 64 (v i)) ->
  wp (for_each 0 n (fun i => store64 p i (v i)))
     (fun _ s' => exists m', s' = set_phys m' s /\ only_in (pa p) (8 * n) s.(phys) m' /\ entries m' (pa p) n v) s.
Proof. intros Hn Hp Hv. apply fill64; [done..|]. intros m' Hout Hin. by exists m'. Qed.

(** Filling [n] consecutive page tables. *)
Lemma fill_tables p n (v : Z -> Z -> Z) s :
  0 <= n -> p + 0x1000 * n <= LEGACY_PT_RECURSIVE_BASE ->
  (forall t e, 0 <= t < n -> 0 <= e < 512 -> fits 64 (v t e)) ->
  wp (for_each 0 n (fun t => for_each 0 PAE_PTE_ENTRIES (fun e => store64 (table_at p t) e (v t e))))
     (fun _ s' => exists m', s' = set_phys m' s /\ only_in (pa p) (0x1000 * n) s.(phys) m' /\
        forall t, 0 <= t < n -> entries m' (pa p + 0x1000 * t) 512 (v t)) s.
Proof.
  intros Hn Hp Hv. apply (wp_for_each _ _ _ (fun k s' => exists m', s' = set_phys m' s /\ only_in (pa p) (0x1000 * n) s.(phys) m' /\
    forall t, 0 <= t < k -> entries m' (pa p + 0x1000 * t) 512 (v t))); [done| | |].
  - exists s.(phys). split; [by destruct s|]. split; [done|]. intros; lia.
  - intros k s' Hk (m' & -> & Ho & He). assert (Hpa : pa (table_at p k) = pa p + 0x1000 * k)
      by (unfold pa, table_at, PAE_PTE_ENTRIES; lia).
    eapply wp_mono; [apply (fill_entries _ _ (v k)); [done|unfold table_at, PAE_PTE_ENTRIES; lia|auto]|].
    intros [] s2 (m2 & -> & Ho2 & He2). rewrite Hpa in *. change PAE_PTE_ENTRIES with 512 in *. simpl in Ho2.
    exists m2. split; [done|]. split.
    + eapply only_in_trans; [done|]. eapply only_in_sub; [done|lia|lia].
    + intros t Ht. destruct (Z.eq_dec t k) as [->|Hne]; [done|].
      eapply entries_only_in; [done|unfold apart; lia|]. apply He. lia.
  - intros s' (m' & -> & H). by exists m'.
Qed.

(** Setting one entry of a table. *)
Lemma store_entry p n f i v s :
  0 <= i < n -> p + 8 * n <= LEGACY_PT_RECURSIVE_BASE -> fits 64 v -> entries s.(phys) (pa p) n f ->
  wp (store64 p i v) (fun _ s' => exists m', s' = set_phys m' s /\ only_in (pa p) (8 * n) s.(phys) m' /\
    entries m' (pa p) n (fun k => if k =? i then v else f k)) s.
Proof.
  intros Hi Hp Hv He. eapply Done_wp; [apply store64_run; lia|]. eexists. split; [done|]. split.
  - intros x Hx. apply write_u64_out. lia.
  - intros k Hk. destruct (Z.eqb_spec k i) as [->|Hne]; [by apply read_u64_same|].
    unfold write_u64. rewrite read_u64_other by lia. by apply He.
Qed.

Lemma symbol_physical p s : KERNEL_VMA <= p -> kernel_pointer_to_physical p s = Done (pa p) s.
Proof. intros Hp. unfold kernel_pointer_to_physical. by replace (p <? KERNEL_VMA) with false by lia. Qed.

(** Memory outside the regions [R] is the same. *)
Definition tables_kept (R : list (Z * Z)) (m m' : memory) : Prop :=
  forall x, Forall (fun r => x < r.1 \/ r.1 + r.2 <= x) R -> m' x = m x.

Lemma kept_refl R m : tables_kept R m m.
Proof. by intros x _. Qed.
Lemma kept_trans R m1 m2 m3 : tables_kept R m1 m2 -> tables_kept R m2 m3 -> tables_kept R m1 m3.
Proof. intros H1 H2 x Hr. by rewrite H2, H1. Qed.
Lemma kept_in R lo n m m' : only_in lo n m m' -> (lo, n) ∈ R -> tables_kept R m m'.
Proof. intros Ho Hin x Hr. rewrite Forall_forall in Hr. apply Ho. exact (Hr _ Hin). Qed.
Lemma kept_sub R R' m m' : R ⊆ R' -> tables_kept R m m' -> tables_kept R' m m'.
Proof. intros Hs H x Hr. apply H. rewrite Forall_forall in *. auto. Qed.

(** So are the tables there. *)
Lemma kept_entries R m m' base n f :
  tables_kept R m m' -> Forall (fun r => apart r.1 r.2 base (8 * n)) R -> entries m base n f -> entries m' base n f.
Proof.
  intros Hk Hr He i Hi. rewrite <- He by done. unfold read_u64, read_u32, read_u16, read_u8. rewrite Forall_forall in Hr.
  repeat (rewrite Hk; [|apply Forall_forall; intros r Hin; specialize (Hr r Hin); unfold apart in Hr; clear -Hr Hi; lia]). done.
Qed.

(** ** The bootstrap tables *)

Section Boot.
Context (img : kernel_image) (Hboot : boot_image_ok img).
Let Himg : image_ok img := bok_image img Hboot.

Definition idir : Z := pa img.(pae_identity_page_directory).
Definition itable (t : Z) : Z := pa img.(pae_identity_page_tables) + 0x1000 * t.
Definition rw_entry (physical : Z) : Z := pae_make_entry physical (Z.lor PAE_ENTRY_PRESENT PAE_ENTRY_WRITABLE).

(** Bounds of the image's tables. *)
Ltac range_lia :=
  pose proof (bok_idir img Hboot); pose proof (bok_itables img Hboot); unfold idir, itable, PAE_PDPT_ENTRIES in *; image_lia.

(** Two tables are apart, by one of the facts on the image. *)
Ltac apart_by H :=
  pose proof H; unfold apart, idir, itable, kernel_dir, direct_table, dynamic_table, PAE_PDE_ENTRIES, PAE_PDPT_ENTRIES in *; lia.
Ltac apart_lia :=
  first
  [ apart_by (bok_idir_itables img Hboot) | apart_by (bok_idir_pdpt img Hboot) | apart_by (bok_idir_dir img Hboot)
  | apart_by (bok_idir_direct img Hboot) | apart_by (bok_idir_dynamic img Hboot) | apart_by (bok_itables_pdpt img Hboot)
  | apart_by (bok_itables_dir img Hboot) | apart_by (bok_itables_direct img Hboot)
  | apart_by (bok_itables_dynamic img Hboot) | apart_by (ok_dir_direct img Himg) | apart_by (ok_dir_dynamic img Himg)
  | apart_by (ok_direct_dynamic img Himg) | apart_by (ok_pdpt_dir img Himg) | apart_by (ok_pdpt_direct img Himg)
  | apart_by (ok_pdpt_dynamic img Himg) ].

Ltac apart_all := repeat (apply Forall_cons_2; [simpl fst; simpl snd; apart_lia|]); apply Forall_nil_2.

(** The direct map's entries, by page number. *)
Definition direct_map (m : memory) (f : Z -> Z) : Prop :=
  forall d, 0 <= d < 128 -> entries m (direct_table img d) 512 (fun j => f (d * 512 + j)).

(** The tables that [pae_prepare_bootstrap_tables] builds. *)
Record boot_tables (m : memory) : Prop := {
  bt_pdpt : entries m (pa img.(pae_pdpt)) 4 (fun i =>
    if i =? 0 then pae_make_entry idir PAE_ENTRY_PRESENT
    else if i =? 3 then pae_make_entry (kernel_dir img) PAE_ENTRY_PRESENT else 0);
  bt_idir : entries m idir 512 (fun i => if i <? 2 then rw_entry (itable i) else 0);
  bt_itable t : 0 <= t < 2 -> entries m (itable t) 512 (fun i => rw_entry ((t * 512 + i) * PAGE_SIZE));
  bt_dir : entries m (kernel_dir img) 512 (fun d => if d <? 128 then rw_entry (direct_table img d) else 0);
  bt_direct : direct_map m (fun q => rw_entry (q * PAGE_SIZE))
}.

Lemma page_multiple k : 0 <= k < 2 ^ 20 -> page_addr (k * PAGE_SIZE).
Proof. apply frame_page. Qed.

Lemma rw_entry_fits a : page_addr a -> fits 64 (rw_entry a).
Proof. intros Ha. by apply make_entry_fits. Qed.

Lemma page_offset b k : page_addr b -> fits 32 (b + 0x1000 * k) -> page_addr (b + 0x1000 * k).
Proof.
  intros [_ Hm] Hf. split; [done|]. replace (0x1000 * k) with (k * PAGE_SIZE) by (unfold PAGE_SIZE; lia). by rewrite Z.mod_add.
Qed.

Lemma itable_page t : 0 <= t < 2 -> page_addr (itable t).
Proof.
  intros Ht. destruct (bok_itables img Hboot) as (? & ? & ?).
  apply (page_offset (pa img.(pae_identity_page_tables))); [split; [|done]|]; unfold fits, itable in *; image_lia.
Qed.
Lemma direct_table_page d : 0 <= d < 128 -> page_addr (direct_table img d).
Proof.
  intros Hd. destruct (ok_direct img Himg) as (? & ? & ?).
  apply (page_offset (pa img.(pae_direct_map_page_tables))); [split; [|done]|]; unfold fits, itable in *; image_lia.
Qed.

(** The static tables. *)
Definition image_tables : list (Z * Z) :=
  [(pa img.(pae_pdpt), 32); (idir, 0x1000); (pa img.(pae_identity_page_tables), 0x2000); (kernel_dir img, 0x1000);
   (pa img.(pae_direct_map_page_tables), 0x80000); (pa img.(pae_dynamic_page_tables), 0x7E000)].

Lemma clear_spec (k : M paging unit) (Q : unit -> paging -> Prop) s :
  (forall m', tables_kept image_tables s.(phys) m' -> entries m' (pa img.(pae_pdpt)) 4 (fun _ => 0) -> entries m' idir 512 (fun _ => 0) ->
     entries m' (kernel_dir img) 512 (fun _ => 0) -> wp k Q (set_phys m' s)) ->
  wp (for_each 0 PAE_PDPT_ENTRIES (fun i => store64 img.(pae_pdpt) i 0) ;;;
      for_each 0 PAE_PDE_ENTRIES (fun pde => store64 img.(pae_identity_page_directory) pde 0) ;;;
      for_each 0 PAE_PDE_ENTRIES (fun pde => store64 img.(pae_kernel_page_directory) pde 0) ;;;
      for_each 0 PAE_DIRECT_MAP_PDE_COUNT (fun pde =>
        for_each 0 PAE_PTE_ENTRIES (fun pte => store64 (table_at img.(pae_direct_map_page_tables) pde) pte 0)) ;;;
      for_each 0 PAE_DYNAMIC_PDE_COUNT (fun pde =>
        for_each 0 PAE_PTE_ENTRIES (fun pte => store64 (table_at img.(pae_dynamic_page_tables) pde) pte 0)) ;;; k) Q s.
Proof.
  intros Hk.
  wp_step. eapply wp_mono; [apply (fill_entries _ _ (fun _ => 0)); [done|range_lia|done]|]. intros [] ? (m1 & -> & O1 & E1).
  wp_step. eapply wp_mono; [apply (fill_entries _ _ (fun _ => 0)); [done|range_lia|done]|]. intros [] ? (m2 & -> & O2 & E2).
  wp_step. eapply wp_mono; [apply (fill_entries _ _ (fun _ => 0)); [done|range_lia|done]|]. intros [] ? (m3 & -> & O3 & E3).
  wp_step. eapply wp_mono; [apply (fill_tables _ _ (fun _ _ => 0)); [done|change PAE_DIRECT_MAP_PDE_COUNT with 128; range_lia|done]|].
  intros [] ? (m4 & -> & O4 & _).
  wp_step. eapply wp_mono; [apply (fill_tables _ _ (fun _ _ => 0)); [done|change PAE_DYNAMIC_PDE_COUNT with 126; range_lia|done]|].
  intros [] ? (m5 & -> & O5 & _).
  change PAE_DIRECT_MAP_PDE_COUNT with 128 in *. change PAE_DYNAMIC_PDE_COUNT with 126 in *. simpl in *.
  apply (Hk m5).
  - unfold image_tables. eapply kept_trans; [eapply kept_in; [exact O1|set_solver]|]. eapply kept_trans; [eapply kept_in; [exact O2|set_solver]|].
    eapply kept_trans; [eapply kept_in; [exact O3|set_solver]|]. eapply kept_trans; [eapply kept_in; [exact O4|set_solver]|].
    eapply kept_in; [exact O5|set_solver].
  - do 4 (eapply entries_only_in; [done|apart_lia|]). exact E1.
  - do 3 (eapply entries_only_in; [done|apart_lia|]). exact E2.
  - do 2 (eapply entries_only_in; [done|apart_lia|]). exact E3.
Qed.

(** The identity map of the first 4 MB. *)
Lemma identity_spec s :
  entries s.(phys) idir 512 (fun _ => 0) ->
  wp (for_each 0 2 (fun table =>
        for_each 0 PAE_PTE_ENTRIES (fun entry =>
          let physical := u32 (u32 (table * PAE_PTE_ENTRIES + entry) * PAGE_SIZE) in
          store64 (table_at img.(pae_identity_page_tables) table) entry (rw_entry physical)) ;;;
        t <- kernel_pointer_to_physical (table_at img.(pae_identity_page_tables) table) ;;
        store64 img.(pae_identity_page_directory) table (rw_entry t)))
     (fun _ s' => exists m', s' = set_phys m' s /\
        tables_kept [(idir, 0x1000); (pa img.(pae_identity_page_tables), 0x2000)] s.(phys) m' /\
        entries m' idir 512 (fun i => if i <? 2 then rw_entry (itable i) else 0) /\
        forall t, 0 <= t < 2 -> entries m' (itable t) 512 (fun i => rw_entry ((t * 512 + i) * PAGE_SIZE))) s.
Proof.
  intros E0. apply (wp_for_each _ _ _ (fun k s' => exists m', s' = set_phys m' s /\
    tables_kept [(idir, 0x1000); (pa img.(pae_identity_page_tables), 0x2000)] s.(phys) m' /\
    entries m' idir 512 (fun i => if i <? k then rw_entry (itable i) else 0) /\
    forall t, 0 <= t < k -> entries m' (itable t) 512 (fun i => rw_entry ((t * 512 + i) * PAGE_SIZE)))); [done| | |].
  - exists s.(phys). split; [by destruct s|]. split; [apply kept_refl|]. split; [|intros; lia].
    eapply entries_ext; [|done]. intros i Hi. by replace (i <? 0) with false by lia.
  - intros k ? Hk (m1 & -> & K1 & D1 & T1). assert (Hpa : pa (table_at img.(pae_identity_page_tables) k) = itable k) by range_lia.
    assert (Hphys : forall e, 0 <= e < 512 -> u32 (u32 (k * PAE_PTE_ENTRIES + e) * PAGE_SIZE) = (k * 512 + e) * PAGE_SIZE).
    { intros e He. unfold PAE_PTE_ENTRIES, PAGE_SIZE. rewrite (wrap_small 32 (k * 512 + e)) by word_lia.
      by rewrite wrap_small by word_lia. }
    wp_step. eapply wp_mono; [apply (fill_entries (table_at img.(pae_identity_page_tables) k) PAE_PTE_ENTRIES
      (fun e => rw_entry (u32 (u32 (k * PAE_PTE_ENTRIES + e) * PAGE_SIZE)))); [done|range_lia|]|].
    { intros e He. rewrite Hphys by done. apply rw_entry_fits, page_multiple. change (2 ^ 20) with 0x100000. change PAE_PTE_ENTRIES with 512 in He. lia. }
    intros [] ? (m2 & -> & O2 & E2). rewrite Hpa in O2, E2. change PAE_PTE_ENTRIES with 512 in O2. simpl in O2.
    wp_step. eapply Done_wp; [apply symbol_physical; range_lia|]. rewrite Hpa.
    eapply wp_mono; [apply (store_entry _ 512 (fun i => if i <? k then rw_entry (itable i) else 0)); [lia|range_lia| |]|].
    { by apply rw_entry_fits, itable_page. }
    { eapply entries_only_in; [exact O2|apart_lia|exact D1]. }
    intros [] ? (m3 & -> & O3 & E3). simpl in O3. exists m3. split; [done|]. split; [|split].
    + eapply kept_trans; [done|]. eapply kept_trans; [|eapply kept_in; [exact O3|set_solver]].
      eapply kept_in; [|by apply list_elem_of_further, list_elem_of_here]. eapply only_in_sub; [exact O2|range_lia|range_lia].
    + eapply entries_ext; [|exact E3]. intros i Hi. cbv beta.
      destruct (Z.eqb_spec i k) as [->|Hne]; [by replace (k <? k + 1) with true by lia|].
      by replace (i <? k + 1) with (i <? k) by lia.
    + intros t Ht. eapply entries_only_in; [exact O3|apart_lia|]. destruct (Z.eq_dec t k) as [->|Hne].
      * eapply entries_ext; [|exact E2]. intros e He. cbv beta. by rewrite Hphys.
      * eapply entries_only_in; [exact O2|apart_lia|]. apply T1. lia.
  - intros s' (m' & -> & H). by exists m'.
Qed.

(** The direct map. *)
Lemma direct_spec s :
  entries s.(phys) (kernel_dir img) 512 (fun _ => 0) ->
  wp (for_each 0 PAE_DIRECT_MAP_PDE_COUNT (fun pde =>
        let table := table_at img.(pae_direct_map_page_tables) pde in
        t <- kernel_pointer_to_physical table ;;
        store64 img.(pae_kernel_page_directory) pde (rw_entry t) ;;;
        let base_physical := u32 (u32 (pde * PAE_PTE_ENTRIES) * PAGE_SIZE) in
        for_each 0 PAE_PTE_ENTRIES (fun pte =>
          let physical := u32 (base_physical + u32 (pte * PAGE_SIZE)) in
          store64 table pte (rw_entry physical))))
     (fun _ s' => exists m', s' = set_phys m' s /\
        tables_kept [(kernel_dir img, 0x1000); (pa img.(pae_direct_map_page_tables), 0x80000)] s.(phys) m' /\
        entries m' (kernel_dir img) 512 (fun d => if d <? 128 then rw_entry (direct_table img d) else 0) /\
        forall d, 0 <= d < 128 -> entries m' (direct_table img d) 512 (fun j => rw_entry ((d * 512 + j) * PAGE_SIZE))) s.
Proof.
  intros E0. apply (wp_for_each _ _ _ (fun k s' => exists m', s' = set_phys m' s /\
    tables_kept [(kernel_dir img, 0x1000); (pa img.(pae_direct_map_page_tables), 0x80000)] s.(phys) m' /\
    entries m' (kernel_dir img) 512 (fun d => if d <? k then rw_entry (direct_table img d) else 0) /\
    forall d, 0 <= d < k -> entries m' (direct_table img d) 512 (fun j => rw_entry ((d * 512 + j) * PAGE_SIZE)))); [done| | |].
  - exists s.(phys). split; [by destruct s|]. split; [apply kept_refl|]. split; [|intros; lia].
    eapply entries_ext; [|done]. intros i Hi. by replace (i <? 0) with false by lia.
  - change PAE_DIRECT_MAP_PDE_COUNT with 128. intros k ? Hk (m1 & -> & K1 & D1 & T1).
    assert (Hpa : pa (table_at img.(pae_direct_map_page_tables) k) = direct_table img k) by range_lia.
    assert (Hphys : forall e, 0 <= e < 512 ->
      u32 (u32 (u32 (k * PAE_PTE_ENTRIES) * PAGE_SIZE) + u32 (e * PAGE_SIZE)) = (k * 512 + e) * PAGE_SIZE).
    { intros e He. unfold PAE_PTE_ENTRIES, PAGE_SIZE. rewrite (wrap_small 32 (k * 512)) by word_lia.
      rewrite (wrap_small 32 (k * 512 * _)), (wrap_small 32 (e * _)) by word_lia. rewrite wrap_small by word_lia. lia. }
    cbv zeta. wp_step. eapply Done_wp; [apply symbol_physical; range_lia|]. rewrite Hpa.
    wp_step. eapply wp_mono; [apply (store_entry _ 512 (fun d => if d <? k then rw_entry (direct_table img d) else 0)); [lia|range_lia| |exact D1]|].
    { by apply rw_entry_fits, direct_table_page. }
    intros [] ? (m2 & -> & O2 & E2). simpl in O2.
    eapply wp_mono; [apply (fill_entries (table_at img.(pae_direct_map_page_tables) k) PAE_PTE_ENTRIES
      (fun e => rw_entry (u32 (u32 (u32 (k * PAE_PTE_ENTRIES) * PAGE_SIZE) + u32 (e * PAGE_SIZE))))); [done|range_lia|]|].
    { intros e He. rewrite Hphys by done. apply rw_entry_fits, page_multiple. change (2 ^ 20) with 0x100000. change PAE_PTE_ENTRIES with 512 in He. lia. }
    intros [] ? (m3 & -> & O3 & E3). rewrite Hpa in O3, E3. change PAE_PTE_ENTRIES with 512 in O3. simpl in O3.
    exists m3. split; [done|]. split; [|split].
    + eapply kept_trans; [done|]. eapply kept_trans; [eapply kept_in; [exact O2|set_solver]|].
      eapply kept_in; [|by apply list_elem_of_further, list_elem_of_here]. eapply only_in_sub; [exact O3|range_lia|range_lia].
    + eapply entries_only_in; [exact O3|apart_lia|]. eapply entries_ext; [|exact E2]. intros i Hi. cbv beta.
      destruct (Z.eqb_spec i k) as [->|Hne]; [by replace (k <? k + 1) with true by lia|].
      by replace (i <? k + 1) with (i <? k) by lia.
    + intros d Hd. destruct (Z.eq_dec d k) as [->|Hne].
      * eapply entries_ext; [|exact E3]. intros e He. cbv beta. by rewrite Hphys.
      * eapply entries_only_in; [exact O3|unfold apart, direct_table; lia|].
        eapply entries_only_in; [exact O2|apart_lia|]. apply T1. lia.
  - intros s' (m' & -> & H). by exists m'.
Qed.

Lemma boot_tables_spec s :
  wp (pae_prepare_bootstrap_tables img) (fun _ s' => exists m', s' = set_phys m' s /\ tables_kept image_tables s.(phys) m' /\ boot_tables m') s.
Proof.
  assert (Hid : page_addr idir).
  { destruct (bok_idir img Hboot) as (? & ? & ?). split; [|done]. unfold fits, idir in *. range_lia. }
  assert (Hkd : page_addr (kernel_dir img)).
  { destruct (ok_kernel_dir img Himg) as (? & ? & ?). split; [|done]. unfold fits in *. range_lia. }
  apply clear_spec. intros m0 K0 P0 I0 D0.
  wp_step. eapply wp_mono; [by apply identity_spec|]. intros [] ? (m1 & -> & K1 & I1 & T1).
  wp_step. eapply wp_mono; [apply direct_spec; eapply kept_entries; [exact K1| |done]; apart_all|].
  intros [] ? (m2 & -> & K2 & D2 & F2). simpl in K1, K2.
  wp_step. eapply Done_wp; [apply symbol_physical; range_lia|].
  wp_step. eapply wp_mono; [apply (store_entry _ 4 (fun _ => 0)); [done|range_lia|by apply make_entry_fits|]|].
  { eapply kept_entries; [exact K2|apart_all|]. eapply kept_entries; [exact K1|apart_all|done]. }
  intros [] ? (m3 & -> & O3 & P3).
  wp_step. eapply Done_wp; [apply symbol_physical; range_lia|].
  eapply wp_mono; [eapply (store_entry _ 4); [done|range_lia|by apply make_entry_fits|exact P3]|].
  intros [] ? (m4 & -> & O4 & P4). simpl in O3, O4. exists m4. split; [done|]. split.
  { unfold image_tables. eapply kept_trans; [exact K0|]. eapply kept_trans; [eapply kept_sub; [|exact K1]; set_solver|].
    eapply kept_trans; [eapply kept_sub; [|exact K2]; set_solver|].
    eapply kept_trans; [eapply kept_in; [exact O3|set_solver]|]. eapply kept_in; [exact O4|set_solver]. }
  assert (Hkeep : forall base n f, apart (pa img.(pae_pdpt)) 32 base (8 * n) -> entries m2 base n f -> entries m4 base n f).
  { intros base n f Ha He. do 2 (eapply entries_only_in; [done|done|]). done. }
  split.
  - eapply entries_ext; [|exact P4]. intros i Hi. cbv beta. unfold PAE_PDPT_ENTRY_LOW, PAE_PDPT_ENTRY_KERNEL.
    destruct (Z.eqb_spec i 3) as [->|]; [done|]. by destruct (i =? 0).
  - apply Hkeep; [apart_lia|]. eapply kept_entries; [exact K2|apart_all|done].
  - intros t Ht. apply Hkeep; [apart_lia|]. eapply kept_entries; [exact K2|apart_all|auto].
  - apply Hkeep; [apart_lia|done].
  - intros d Hd. apply Hkeep; [apart_lia|auto].
Qed.

(** ** Write protection *)

(** Page [q] of physical memory holds a byte of the section [start, end_). *)
Definition section_page (start end_ q : Z) : bool :=
  (start <? end_) && (pa start / PAGE_SIZE <=? q) && (q <? (pa end_ + PAGE_SIZE - 1) / PAGE_SIZE).

Definition read_only (e : Z) : Z := Z.land e (u64 (Z.lnot PAE_ENTRY_WRITABLE)).
Definition protect (start end_ : Z) (f : Z -> Z) (q : Z) : Z := if section_page start end_ q then read_only (f q) else f q.

Lemma direct_map_store q v f s :
  0 <= q < 0x10000 -> fits 64 v -> direct_map s.(phys) f ->
  wp (store64 (table_at img.(pae_direct_map_page_tables) (q / 512)) (q mod 512) v)
     (fun _ s' => exists m', s' = set_phys m' s /\ only_in (pa img.(pae_direct_map_page_tables)) 0x80000 s.(phys) m' /\
        direct_map m' (fun q' => if q' =? q then v else f q')) s.
Proof.
  intros Hq Hv Hf. assert (Hd : 0 <= q / 512 < 128) by (split; [by apply Z.div_pos; lia|apply Z.div_lt_upper_bound; lia]).
  pose proof (Z.mod_pos_bound q 512 ltac:(lia)) as Hj. pose proof (Z.div_mod q 512 ltac:(lia)) as Hdm.
  assert (Hpa : pa (table_at img.(pae_direct_map_page_tables) (q / 512)) = direct_table img (q / 512)) by range_lia.
  eapply wp_mono; [apply (store_entry _ 512 (fun j => f (q / 512 * 512 + j))); [done|range_lia|done|rewrite Hpa; by apply Hf]|].
  rewrite Hpa. intros [] ? (m' & -> & O & E). exists m'. split; [done|]. split; [eapply only_in_sub; [done|range_lia|range_lia]|].
  intros d Hd'. destruct (Z.eq_dec d (q / 512)) as [->|Hne].
  - eapply entries_ext; [|exact E]. intros j Hj'. cbv beta.
    destruct (Z.eqb_spec j (q mod 512)), (Z.eqb_spec (q / 512 * 512 + j) q); (done || lia).
  - eapply entries_only_in; [exact O|unfold apart, direct_table; lia|]. eapply entries_ext; [|by apply Hf].
    intros j Hj'. cbv beta. by replace (d * 512 + j =? q) with false by lia.
Qed.

(** What the protection relies on and tables_kept. *)
Definition dir_present (m : memory) : Prop := forall d, 0 <= d < 128 -> present (dir_entry img m d) = true.

Lemma dir_present_only m m' :
  only_in (pa img.(pae_direct_map_page_tables)) 0x80000 m m' -> dir_present m -> dir_present m'.
Proof.
  intros O H d Hd. rewrite <- (H d Hd). f_equal. apply (agree_read64 (kernel_dir img) 0x1000); [|lia|lia].
  intros x Hx. apply O. pose proof (ok_dir_direct img Himg). unfold kernel_dir in *. lia.
Qed.

Lemma read_only_bits e n : 0 <= n < 64 -> Z.testbit (read_only e) n = Z.testbit e n && negb (n =? 1).
Proof.
  intros Hn. unfold read_only. rewrite Z.land_spec. f_equal. unfold wrap. rewrite Z.mod_pow2_bits_low by lia.
  rewrite Z.lnot_spec by lia. f_equal. change PAE_ENTRY_WRITABLE with (2 ^ 1). rewrite Z.pow2_bits_eqb by lia. apply Z.eqb_sym.
Qed.

Lemma read_only_fits e : fits 64 (read_only e).
Proof.
  unfold read_only. change (u64 (Z.lnot PAE_ENTRY_WRITABLE)) with (Z.land 0xFFFFFFFFFFFFFFFD (Z.ones 64)).
  rewrite Z.land_assoc, Z.land_ones by lia. apply Z.mod_pos_bound. lia.
Qed.

Lemma read_only_present e : present (read_only e) = present e.
Proof. rewrite !present_bit, read_only_bits by lia. by rewrite andb_true_r. Qed.

Lemma read_only_addr e : entry_addr (read_only e) = entry_addr e.
Proof.
  apply Z.bits_inj'. intros n Hn. unfold entry_addr. rewrite !Z.land_spec, addr_mask_bits.
  destruct ((12 <=? n) && (n <? 32)) eqn:E; [|by rewrite !andb_false_r].
  rewrite read_only_bits by lia. replace (n =? 1) with false by lia. by rewrite !andb_true_r.
Qed.

(** One page of [pae_protect_range]. *)
Definition protect_page (address : Z) : M paging unit :=
  if negb (pae_pdpt_index_of address =? PAE_PDPT_ENTRY_KERNEL) then ret tt
  else
    let directory_index := pae_directory_index_of address in
    let table_index := pae_table_index_of address in
    pde <- load64 img.(pae_kernel_page_directory) directory_index ;;
    if Z.land pde PAE_ENTRY_PRESENT =? 0 then ret tt
    else
      match pae_page_table_for_directory img directory_index with
      | None => ret tt
      | Some table =>
          pte <- load64 table table_index ;;
          if Z.land pte PAE_ENTRY_PRESENT =? 0 then ret tt
          else
            store64 table table_index (Z.land pte (u64 (Z.lnot PAE_ENTRY_WRITABLE))) ;;;
            paging_invalidate_page address
      end.

Lemma protect_page_spec q f s :
  0 <= q < 0x10000 -> dir_present s.(phys) -> direct_map s.(phys) f -> present (f q) = true ->
  wp (protect_page (KERNEL_VMA + q * PAGE_SIZE)) (fun _ s' => touched s s' /\
    only_in (pa img.(pae_direct_map_page_tables)) 0x80000 s.(phys) s'.(phys) /\
    direct_map s'.(phys) (fun q' => if q' =? q then read_only (f q) else f q')) s.
Proof.
  intros Hq Hdir Hf Hp.
  destruct (direct_indices (q * PAGE_SIZE)) as (E1 & E2 & Hd & E3 & _).
  { unfold PAGE_SIZE, KERNEL_DIRECT_MAP_LIMIT_PHYS. lia. }
  assert (Hq1 : q * PAGE_SIZE / 2 ^ 21 = q / 512).
  { change (2 ^ 21) with (512 * PAGE_SIZE). by rewrite Z.div_mul_cancel_r. }
  assert (Hq2 : q * PAGE_SIZE / 2 ^ 12 = q) by (by apply Z.div_mul).
  rewrite Hq1 in *. rewrite Hq2 in *. pose proof (Z.mod_pos_bound q 512 ltac:(lia)) as Hj.
  pose proof (Z.div_mod q 512 ltac:(lia)) as Hdm.
  unfold protect_page. rewrite E1, E2, E3. change (3 =? PAE_PDPT_ENTRY_KERNEL) with true. decided.
  wp_step. eapply Done_wp; [apply load64_run; range_lia|]. fold (kernel_dir img). fold (dir_entry img s.(phys) (q / 512)).
  rewrite not_present, (Hdir _ Hd). decided.
  unfold pae_page_table_for_directory. change PAE_DIRECT_MAP_PDE_COUNT with 128. replace (q / 512 <? 128) with true by lia.
  wp_step. eapply Done_wp; [apply load64_run; range_lia|].
  replace (pa (table_at _ _)) with (direct_table img (q / 512)) by range_lia.
  rewrite (Hf _ Hd _ Hj). replace (q / 512 * 512 + q mod 512) with q by lia. rewrite not_present, Hp. decided.
  wp_step. eapply wp_mono; [apply (direct_map_store q (read_only (f q)) f); [done|apply read_only_fits|done]|].
  intros [] ? (m' & -> & O & D). unfold paging_invalidate_page. apply wp_modify.
  split; [by exists m', (Invlpg (KERNEL_VMA + q * PAGE_SIZE) :: s.(tlb_log))|done].
Qed.

(** A section inside the direct map. *)
Definition in_direct (start end_ : Z) : Prop := 0 <= pa start /\ pa end_ <= KERNEL_DIRECT_MAP_LIMIT_PHYS.

Lemma protect_range_spec start end_ f s :
  in_direct start end_ -> dir_present s.(phys) -> direct_map s.(phys) f ->
  (forall q, 0 <= q < 0x10000 -> present (f q) = true) ->
  wp (pae_protect_range img start end_) (fun _ s' => touched s s' /\
    only_in (pa img.(pae_direct_map_page_tables)) 0x80000 s.(phys) s'.(phys) /\
    direct_map s'.(phys) (protect start end_ f)) s.
Proof.
  intros [H0 H1] Hdir Hf Hp. change (pae_protect_range img start end_) with (for_pages start end_ protect_page). unfold for_pages.
  destruct (Z.leb_spec end_ start) as [Hle|Hlt].
  { apply wp_ret. split; [apply touched_refl|]. split; [done|]. intros d Hd. eapply entries_ext; [|by apply Hf].
    intros j Hj. cbv beta. unfold protect, section_page. by replace (start <? end_) with false by lia. }
  set (q0 := pa start / PAGE_SIZE). set (q1 := (pa end_ + PAGE_SIZE - 1) / PAGE_SIZE).
  unfold KERNEL_DIRECT_MAP_LIMIT_PHYS in H1.
  assert (Hs : align_down_u32 start PAGE_SIZE = KERNEL_VMA + q0 * PAGE_SIZE).
  { rewrite align_down_page by (unfold pa, KERNEL_VMA in *; word_lia). unfold page_of, q0, pa.
    replace start with (start - KERNEL_VMA + 0xC0000 * PAGE_SIZE) at 1 by (unfold KERNEL_VMA, PAGE_SIZE; lia).
    rewrite Z.div_add by done. unfold KERNEL_VMA, PAGE_SIZE. lia. }
  assert (He : align_up_u32 end_ PAGE_SIZE = KERNEL_VMA + q1 * PAGE_SIZE).
  { unfold align_up_u32. rewrite wrap_small by (unfold pa, KERNEL_VMA, PAGE_SIZE in *; word_lia).
    fold (align_down_u32 (end_ + PAGE_SIZE - 1) PAGE_SIZE).
    rewrite align_down_page by (unfold pa, KERNEL_VMA, PAGE_SIZE in *; word_lia). unfold page_of, q1, pa.
    replace (end_ + PAGE_SIZE - 1) with (end_ - KERNEL_VMA + PAGE_SIZE - 1 + 0xC0000 * PAGE_SIZE) by (unfold KERNEL_VMA, PAGE_SIZE; lia).
    rewrite Z.div_add by done. unfold KERNEL_VMA, PAGE_SIZE. lia. }
  rewrite Hs, He. cbv zeta.
  replace ((_ + PAGE_SIZE - 1) / PAGE_SIZE) with (q1 - q0).
  2: { apply (Z.div_unique _ _ _ (PAGE_SIZE - 1)); unfold PAGE_SIZE; lia. }
  assert (Hq : 0 <= q0 /\ q0 <= q1 /\ q1 <= 0x10000).
  { unfold q0, q1, PAGE_SIZE in *. pose proof (Z.div_pos (pa start) 0x1000 ltac:(done) ltac:(lia)).
    assert ((pa start) / 0x1000 <= (pa end_ + 0x1000 - 1) / 0x1000) by (apply Z.div_le_mono; unfold pa; lia).
    assert ((pa end_ + 0x1000 - 1) / 0x1000 < 0x10001) by (apply Z.div_lt_upper_bound; lia). lia. }
  apply (wp_for_each _ _ _ (fun i s' => touched s s' /\
    only_in (pa img.(pae_direct_map_page_tables)) 0x80000 s.(phys) s'.(phys) /\
    direct_map s'.(phys) (fun q => if (q0 <=? q) && (q <? q0 + i) then read_only (f q) else f q))); [lia| | |].
  - split; [apply touched_refl|]. split; [done|]. intros d Hd. eapply entries_ext; [|by apply Hf]. intros j Hj. cbv beta.
    by destruct (Z.leb_spec q0 (d * 512 + j)), (Z.ltb_spec (d * 512 + j) (q0 + 0)); try lia.
  - intros i s1 Hi (T1 & O1 & D1). replace (KERNEL_VMA + q0 * PAGE_SIZE + i * PAGE_SIZE) with (KERNEL_VMA + (q0 + i) * PAGE_SIZE) by lia.
    eapply wp_mono; [eapply protect_page_spec; [lia|by eapply dir_present_only|exact D1|]|].
    { cbv beta. replace ((q0 <=? q0 + i) && (q0 + i <? q0 + i)) with false by lia. apply Hp. lia. }
    intros [] s2 (T2 & O2 & D2). split; [by eapply touched_trans|]. split; [by eapply only_in_trans|].
    intros d Hd. eapply entries_ext; [|by apply D2]. intros j Hj. cbv beta.
    destruct (Z.eqb_spec (d * 512 + j) (q0 + i)) as [->|Hne].
    + replace ((q0 <=? q0 + i) && (q0 + i <? q0 + i)) with false by lia.
      by replace ((q0 <=? q0 + i) && (q0 + i <? q0 + (i + 1))) with true by lia.
    + by replace (d * 512 + j <? q0 + (i + 1)) with (d * 512 + j <? q0 + i) by lia.
  - intros s1 (T1 & O1 & D1). split; [done|]. split; [done|]. intros d Hd. eapply entries_ext; [|by apply D1].
    intros j Hj. cbv beta. unfold protect, section_page. fold q0 q1. replace (start <? end_) with true by lia.
    by replace (q0 + (q1 - q0)) with q1 by lia.
Qed.

(** ** [paging_init] *)

Definition boot_entry (q : Z) : Z :=
  protect img.(rodata_start) img.(rodata_end) (protect img.(text_start) img.(text_end) (fun q => rw_entry (q * PAGE_SIZE))) q.

(** Memory after [paging_init]. *)
Record init_tables (m : memory) : Prop := {
  it_pdpt : entries m (pa img.(pae_pdpt)) 4 (fun i =>
    if i =? 0 then pae_make_entry idir PAE_ENTRY_PRESENT
    else if i =? 3 then pae_make_entry (kernel_dir img) PAE_ENTRY_PRESENT else 0);
  it_idir : entries m idir 512 (fun i => if i <? 2 then rw_entry (itable i) else 0);
  it_itable t : 0 <= t < 2 -> entries m (itable t) 512 (fun i => rw_entry ((t * 512 + i) * PAGE_SIZE));
  it_dir : entries m (kernel_dir img) 512 (fun d => if d <? 128 then rw_entry (direct_table img d) else 0);
  it_direct : direct_map m boot_entry
}.

(** The state after [paging_init]. *)
Record initialised (s s' : paging) : Prop := {
  in_tables : init_tables s'.(phys);
  in_kept : tables_kept image_tables s.(phys) s'.(phys);
  in_mode : s'.(paging_mode) = PAGING_MODE_PAE;
  in_flags : s'.(pae_active) = true /\ s'.(pae_ready) = true /\ s'.(pae_supported) = true;
  in_space : s'.(current_space) = Some 0 /\ s'.(kernel_space) = Some 0;
  in_root : s'.(paging_spaces) !! 0%nat = Some (mk_space true (pa img.(pae_pdpt)) PMM_NUMA_NODE_ANY) /\
    s'.(cr3) = pa img.(pae_pdpt);
  in_others i sp : i <> 0%nat -> s'.(paging_spaces) !! i = Some sp -> sp.(in_use) = false;
  in_tree : s'.(kernel_vma_tree) = vma_tree_init;
  in_rest : s'.(frames) = s.(frames) /\ s'.(vma_nodes) = s.(vma_nodes)
}.

Lemma rw_entry_present a : page_addr a -> present (rw_entry a) = true.
Proof. intros Ha. rewrite present_bit. unfold rw_entry. rewrite make_entry_bits by (done || lia). done. Qed.

Lemma boot_dir_present m : entries m (kernel_dir img) 512 (fun d => if d <? 128 then rw_entry (direct_table img d) else 0) -> dir_present m.
Proof.
  intros He d Hd. unfold dir_entry. rewrite He by lia. replace (d <? 128) with true by lia.
  by apply rw_entry_present, direct_table_page.
Qed.

Lemma protect_present start end_ f q : present (f q) = true -> present (protect start end_ f q) = true.
Proof. intros H. unfold protect. destruct (section_page _ _ _); [by rewrite read_only_present|done]. Qed.

Lemma boot_page_present q : 0 <= q < 0x10000 -> present (rw_entry (q * PAGE_SIZE)) = true.
Proof. intros Hq. apply rw_entry_present, page_multiple. change (2 ^ 20) with 0x100000. lia. Qed.

Lemma release_spaces s :
  length s.(paging_spaces) = Z.to_nat PAGING_MAX_SPACES ->
  wp (for_each 0 PAGING_MAX_SPACES (fun i =>
        sp <- space_at i ;;
        space_update i (mk_space false sp.(root_physical) sp.(preferred_numa_node))))
     (fun _ s' => exists l, s' = set_paging_spaces l s /\ length l = Z.to_nat PAGING_MAX_SPACES /\
        forall i sp, l !! i = Some sp -> sp.(in_use) = false) s.
Proof.
  intros Hl. apply (wp_for_each _ _ _ (fun k s' => exists l, s' = set_paging_spaces l s /\ length l = Z.to_nat PAGING_MAX_SPACES /\
    forall i sp, Z.of_nat i < k -> l !! i = Some sp -> sp.(in_use) = false)); [done| | |].
  - exists s.(paging_spaces). split; [by destruct s|]. split; [done|]. intros; lia.
  - intros k ? Hk (l & -> & Hlen & Hu). destruct (lookup_lt_is_Some_2 l (Z.to_nat k)) as [sp Hsp]; [lia|].
    unfold space_at, space_update. wp_step. wp_step. wp_step. eapply wp_of_option; [exact Hsp|]. wp_step.
    eexists. split; [done|]. simpl. rewrite length_insert. split; [done|]. intros i sp' Hi.
    rewrite list_lookup_insert by lia. destruct (decide _) as [[<- _]|Hne]; [by intros [= <-]|].
    apply Hu. destruct (decide (Z.to_nat k = i)) as [<-|]; [|lia]. destruct Hne. lia.
  - intros s' (l & -> & Hlen & Hu). exists l. split; [done|]. split; [done|]. intros i sp Hi.
    apply (Hu i sp); [|done]. apply lookup_lt_Some in Hi. rewrite Hlen in Hi. unfold PAGING_MAX_SPACES in *. lia.
Qed.

Lemma pdpt_root : Z.land (pa img.(pae_pdpt)) 0xFFFFF000 = pa img.(pae_pdpt).
Proof.
  apply page_addr_mask. split; [|apply (bok_pdpt img Hboot)]. pose proof (ok_pdpt img Himg).
  unfold fits, KERNEL_DIRECT_MAP_LIMIT_PHYS in *. lia.
Qed.

Lemma activate_run s :
  pae_activate_runtime img s =
    Done tt (set_tlb_log (Reload_cr3 (pa img.(pae_pdpt)) :: s.(tlb_log)) (set_cr3 (pa img.(pae_pdpt)) s)).
Proof.
  unfold pae_activate_runtime. rewrite (run_bind_done _ _ _ _ _ (symbol_physical img.(pae_pdpt) s ltac:(range_lia))).
  pose proof (bok_trampoline img Hboot). pose proof (bok_stack img Hboot).
  replace (i386_pae_trampoline img <? KERNEL_VMA) with false by (unfold pa in *; lia).
  replace (boot_stack img <? KERNEL_VMA) with false by (unfold pa in *; lia).
  replace (BOOTSTRAP_WINDOW_SIZE <=? boot_stack img - KERNEL_VMA) with false by (unfold pa in *; lia).
  by replace (BOOTSTRAP_WINDOW_SIZE <=? i386_pae_trampoline img - KERNEL_VMA) with false by (unfold pa in *; lia).
Qed.

(** The tables after the protection of the two sections. *)
Lemma protections_spec s :
  boot_tables s.(phys) -> s.(paging_mode) = PAGING_MODE_PAE ->
  wp (paging_apply_kernel_protections img) (fun _ s' => touched s s' /\ tables_kept image_tables s.(phys) s'.(phys) /\ init_tables s'.(phys)) s.
Proof.
  intros [P I T D F] Hm. unfold paging_apply_kernel_protections. wp_step. wp_step. rewrite Hm.
  pose proof (boot_dir_present _ D) as Hdir.
  wp_step. eapply wp_mono; [apply protect_range_spec; [apply (bok_text img Hboot)|done|exact F|apply boot_page_present]|].
  intros [] s1 (T1 & O1 & F1).
  eapply wp_mono; [eapply protect_range_spec; [apply (bok_rodata img Hboot)|by eapply dir_present_only|exact F1|]|].
  { intros q Hq. by apply protect_present, boot_page_present. }
  intros [] s2 (T2 & O2 & F2). split; [by eapply touched_trans|]. pose proof (only_in_trans _ _ _ _ _ O1 O2) as O.
  split; [eapply kept_in; [exact O|unfold image_tables; set_solver]|].
  split; [..|exact F2]; intros; (eapply entries_only_in; [exact O|apart_lia|auto]).
Qed.

Lemma paging_init_spec s :
  length s.(paging_spaces) = Z.to_nat PAGING_MAX_SPACES ->
  wp (paging_init img) (fun _ s' => initialised s s') s.
Proof.
  intros Hl. unfold paging_init. do 6 wp_step.
  wp_step. eapply wp_mono; [by apply release_spaces|]. intros [] ? (l & -> & Hlen & Hfree).
  do 14 wp_step. rewrite (bok_pae img Hboot). cbv iota.
  wp_step. wp_step. eapply wp_mono; [apply boot_tables_spec|]. intros [] ? (m & -> & KB & B).
  wp_step. eapply Done_wp; [apply activate_run|]. do 5 wp_step.
  wp_step. wp_step. wp_step. unfold space_update. wp_step. do 4 wp_step. simpl cr3. rewrite pdpt_root.
  eapply wp_mono; [by apply protections_spec|]. intros [] s' [(m' & log & ->) [K' T']].
  split; try done; simpl in *.
  - by eapply kept_trans.
  - split; [|done]. by rewrite list_lookup_insert_eq by (rewrite Hlen; unfold PAGING_MAX_SPACES; lia).
  - intros i sp Hi. rewrite list_lookup_insert_ne by done. apply Hfree.
Qed.
End Boot.
