(* ===== verification/PagingProps.v ===== *)
(** What paging promises the rest of the kernel: the address space that
    [paging_init] sets up, the direct map, and runs of kernel pages. *)
From S2P Require Import Prelude Bootinfo Pmm PmmFacts PmmAlloc PmmSpec Vma VmaFacts VmaSpec.
From S2P Require Import PagingData PagingTables Paging PagingFacts PagingAlloc PagingSpec PagingFree PagingBoot.
From Stdlib Require Import ZArith Lia.
From stdpp Require Import sets.
Open Scope Z_scope.

Section Props.
Context (img : kernel_image) (Hboot : boot_image_ok img).
Let Himg : image_ok img := bok_image img Hboot.

(** ** The entries that start-up writes *)

Lemma rw_flags : 0 <= Z.lor PAE_ENTRY_PRESENT PAE_ENTRY_WRITABLE < 2 ^ 12.
Proof. done. Qed.

Lemma rw_entry_addr a : page_addr a -> entry_addr (rw_entry a) = a.
Proof. intros Ha. by apply make_entry_addr. Qed.

Lemma rw_entry_large a : page_addr a -> large (rw_entry a) = false.
Proof. intros Ha. rewrite large_bit. unfold rw_entry. by rewrite make_entry_bits by (done || lia). Qed.

Lemma boot_entry_facts q : 0 <= q < 0x10000 ->
  present (boot_entry img q) = true /\ entry_addr (boot_entry img q) = q * PAGE_SIZE.
Proof.
  intros Hq. assert (Hp : page_addr (q * PAGE_SIZE)) by (apply page_multiple; change (2 ^ 20) with 0x100000; lia).
  split; [by apply protect_present, protect_present, boot_page_present|].
  unfold boot_entry, protect. destruct (section_page _ _ q), (section_page _ _ q); rewrite ?read_only_addr; by apply rw_entry_addr.
Qed.

(** A page of the direct map is writable unless it holds code or constants. *)
Lemma boot_entry_writable q : 0 <= q < 0x10000 ->
  Z.testbit (boot_entry img q) 1 =
    negb (section_page img.(text_start) img.(text_end) q || section_page img.(rodata_start) img.(rodata_end) q).
Proof.
  intros Hq. assert (Hp : page_addr (q * PAGE_SIZE)) by (apply page_multiple; change (2 ^ 20) with 0x100000; lia).
  assert (Hw : Z.testbit (rw_entry (q * PAGE_SIZE)) 1 = true) by (unfold rw_entry; by rewrite make_entry_bits by (done || lia)).
  unfold boot_entry, protect. destruct (section_page img.(text_start) _ q), (section_page img.(rodata_start) _ q);
    rewrite ?read_only_bits by lia; rewrite ?Hw; done.
Qed.

Lemma kernel_dir_page : page_addr (kernel_dir img).
Proof.
  destruct (ok_kernel_dir img Himg) as (? & ? & ?). split; [|done].
  unfold fits, kernel_dir, KERNEL_DIRECT_MAP_LIMIT_PHYS in *. lia.
Qed.

Lemma idir_page : page_addr (idir img).
Proof.
  destruct (bok_idir img Hboot) as (? & ? & ?). split; [|done]. unfold fits, idir, KERNEL_DIRECT_MAP_LIMIT_PHYS in *. lia.
Qed.

Lemma pointer_entry a : page_addr a ->
  present (pae_make_entry a PAE_ENTRY_PRESENT) = true /\ entry_addr (pae_make_entry a PAE_ENTRY_PRESENT) = a.
Proof. intros Ha. split; [rewrite present_bit; by rewrite make_entry_bits by (done || lia)|by apply make_entry_addr]. Qed.

Lemma init_kernel_tables m : init_tables img m -> kernel_tables img m.
Proof.
  intros [P _ _ D F]. split.
  - rewrite (P 3) by lia. apply pointer_entry, kernel_dir_page.
  - intros d Hd. unfold dir_entry. rewrite D by lia. replace (d <? 128) with true by lia.
    pose proof (direct_table_page img Hboot d Hd). split; [by apply rw_entry_present|]. split; [by apply rw_entry_large|by apply rw_entry_addr].
  - intros d j Hd Hj. rewrite (F d Hd j Hj). apply boot_entry_facts. lia.
  - intros d Hd. unfold dir_entry. rewrite D by lia. by replace (d <? 128) with false by lia.
Qed.

Lemma init_no_frames m v : init_tables img m -> in_dynamic v -> kernel_frame img m v = None.
Proof.
  intros [_ _ _ D _] Hv. destruct (dynamic_directory_index v Hv) as [_ Hd]. unfold kernel_frame, dir_entry.
  rewrite D by lia. by replace (pae_directory_index_of v <? 128) with false by lia.
Qed.

Lemma init_current s s' : initialised img s s' -> current_ok img s'.
Proof.
  intros I. exists 0, (mk_space true (pa img.(pae_pdpt)) PMM_NUMA_NODE_ANY).
  destruct (in_space _ _ _ I) as [-> _]. destruct (in_root _ _ _ I) as [Hr _]. split; [done|]. split; [done|].
  simpl. rewrite (pdpt_root img Hboot). split; [apply (ok_pdpt img Himg)| |apply (ok_pdpt_dir img Himg)|apply (ok_pdpt_dynamic img Himg)].
  rewrite (it_pdpt _ _ (in_tables _ _ _ I) 3) by lia. apply pointer_entry, kernel_dir_page.
Qed.

(** After start-up the kernel's pages are in order, and there are none. *)
Lemma init_kernel_pages s s' :
  initialised img s s' -> pmm_ready s.(frames) -> s.(frames).(initialized) = true -> vma_wf s.(vma_nodes) vma_tree_init ->
  kernel_pages img s'.
Proof.
  intros I Hp Hi Hv. destruct (in_rest _ _ _ I) as [Hf Hn]. pose proof (in_tables _ _ _ I) as T.
  split; rewrite ?(in_tree _ _ _ I), ?Hf, ?Hn; try done.
  - split; [apply I|by apply init_kernel_tables|by eapply init_current|by rewrite Hf].
  - by right.
  - intros v a Hd. by rewrite init_no_frames.
  - intros v w a Hd Hd'. by rewrite init_no_frames.
  - intros v Hd. rewrite init_no_frames by done. split; [done|]. intros (i & Hi' & _). by apply not_elem_of_nil in Hi'.
  - intros i Hi'. by apply not_elem_of_nil in Hi'.
Qed.

(** ** Walking the tables of the current space *)

Lemma space_walk v s i sp pdpte pde pte d t :
  kernel_tables img s.(phys) -> s.(paging_mode) = PAGING_MODE_PAE ->
  s.(current_space) = Some i -> s.(paging_spaces) !! Z.to_nat i = Some sp ->
  let r := Z.land sp.(root_physical) 0xFFFFF000 in
  0 <= r /\ r + 32 <= KERNEL_DIRECT_MAP_LIMIT_PHYS -> 0 <= pae_pdpt_index_of v < 4 ->
  read_u64 s.(phys) (r + 8 * pae_pdpt_index_of v) = pdpte -> present pdpte = true -> entry_addr pdpte = d ->
  0 <= d /\ d + 0x1000 <= KERNEL_DIRECT_MAP_LIMIT_PHYS ->
  read_u64 s.(phys) (d + 8 * pae_directory_index_of v) = pde -> present pde = true -> large pde = false -> entry_addr pde = t ->
  0 <= t /\ t + 0x1000 <= KERNEL_DIRECT_MAP_LIMIT_PHYS ->
  read_u64 s.(phys) (t + 8 * pae_table_index_of v) = pte -> present pte = true ->
  paging_translate_address img v s = Done (Some (entry_addr pte + v mod PAGE_SIZE)) s.
Proof.
  intros K Hm Hi Hsp r Hr Hx E1 P1 A1 Hd E2 P2 L2 A2 Ht E3 P3.
  pose proof (directory_index_bounds v). pose proof (table_index_bounds v).
  unfold paging_translate_address. run. rewrite Hi, Hm.
  unfold pae_translate_address_in_space, pae_space_pdpt, space_at. run. rewrite Hsp. cbn [of_option]. run. fold r.
  rewrite (run_bind_done _ _ _ _ _ (phys_to_virt_run img Himg r s K Hm ltac:(lia))).
  load_step. rewrite pa_virt, E1, not_present, P1. decided.
  rewrite (run_bind_done _ _ _ _ _ (entry_pointer_run img Himg _ d s K Hm A1 ltac:(lia))).
  load_step. rewrite pa_virt, E2, not_present, P2. fold (large pde). rewrite L2. decided.
  rewrite (run_bind_done _ _ _ _ _ (entry_pointer_run img Himg _ t s K Hm A2 ltac:(lia))).
  load_step. rewrite pa_virt, E3, not_present, P3. decided. unfold ret. rewrite offset_mod. do 2 f_equal.
  apply entry_or_offset; [apply entry_addr_page|by apply Z.mod_pos_bound].
Qed.

(** The indices of an address of the identity map. *)
Lemma identity_indices p :
  0 <= p < BOOTSTRAP_WINDOW_SIZE ->
  pae_pdpt_index_of p = 0 /\ pae_directory_index_of p = p / 2 ^ 21 /\ 0 <= p / 2 ^ 21 < 2 /\
  pae_table_index_of p = p / 2 ^ 12 mod 512 /\
  (p / 2 ^ 21 * 512 + p / 2 ^ 12 mod 512) * PAGE_SIZE + p mod PAGE_SIZE = p.
Proof.
  intros Hp. unfold BOOTSTRAP_WINDOW_SIZE in Hp. autorewrite with index. unfold PAGE_SIZE.
  change (2 ^ 30) with 0x40000000. change (2 ^ 21) with 0x200000. change (2 ^ 12) with 0x1000.
  pose proof (Z.div_mod p 0x200000 ltac:(lia)). pose proof (Z.mod_pos_bound p 0x200000 ltac:(lia)).
  pose proof (Z.div_mod p 0x1000 ltac:(lia)). pose proof (Z.mod_pos_bound p 0x1000 ltac:(lia)).
  assert (Hq : p / 0x1000 / 512 = p / 0x200000) by (by rewrite Z.div_div by lia).
  pose proof (Z.div_mod (p / 0x1000) 512 ltac:(lia)).
  split; [apply Z.div_small; lia|]. split; [apply Z.mod_small; lia|]. split; [lia|]. split; [done|lia].
Qed.

Lemma init_translate_direct s s' p :
  initialised img s s' -> 0 <= p < KERNEL_DIRECT_MAP_LIMIT_PHYS ->
  paging_translate_address img (KERNEL_VMA + p) s' = Done (Some p) s'.
Proof.
  intros I Hp. pose proof (in_tables _ _ _ I) as T. pose proof (init_kernel_tables _ T) as K.
  destruct (direct_indices p Hp) as (E1 & E2 & Hd & E3 & E4). destruct (in_root _ _ _ I) as [Hr _].
  assert (Hj : 0 <= p / 2 ^ 12 mod 512 < 512) by (by apply Z.mod_pos_bound).
  destruct (pointer_entry _ kernel_dir_page) as [P1 A1]. pose proof (direct_table_page img Hboot _ Hd) as Ht.
  destruct (boot_entry_facts (p / 2 ^ 21 * 512 + p / 2 ^ 12 mod 512)) as [P3 A3]; [lia|].
  rewrite (space_walk _ s' 0 _ (pae_make_entry (kernel_dir img) PAE_ENTRY_PRESENT) (rw_entry (direct_table img (p / 2 ^ 21)))
    (boot_entry img (p / 2 ^ 21 * 512 + p / 2 ^ 12 mod 512)) (kernel_dir img) (direct_table img (p / 2 ^ 21))
    K (in_mode _ _ _ I) (proj1 (in_space _ _ _ I)) Hr);
    simpl root_physical; rewrite ?(pdpt_root img Hboot), ?E1, ?E2, ?E3; try done.
  - rewrite A3. replace ((KERNEL_VMA + p) mod PAGE_SIZE) with (p mod PAGE_SIZE); [by rewrite E4|].
    symmetry. change KERNEL_VMA with (0xC0000 * PAGE_SIZE). rewrite Z.add_comm. by apply Z.mod_add.
  - apply (ok_pdpt img Himg).
  - apply (it_pdpt _ _ T 3). lia.
  - image_lia.
  - rewrite (it_dir _ _ T) by lia. by replace (p / 2 ^ 21 <? 128) with true by lia.
  - by apply rw_entry_present.
  - by apply rw_entry_large.
  - by apply rw_entry_addr.
  - image_lia.
  - by apply (it_direct _ _ T).
Qed.

Lemma init_translate_identity s s' p :
  initialised img s s' -> 0 <= p < BOOTSTRAP_WINDOW_SIZE ->
  paging_translate_address img p s' = Done (Some p) s'.
Proof.
  intros I Hp. pose proof (in_tables _ _ _ I) as T. pose proof (init_kernel_tables _ T) as K.
  destruct (identity_indices p Hp) as (E1 & E2 & Hd & E3 & E4). destruct (in_root _ _ _ I) as [Hr _].
  assert (Hj : 0 <= p / 2 ^ 12 mod 512 < 512) by (by apply Z.mod_pos_bound).
  destruct (pointer_entry _ idir_page) as [P1 A1]. pose proof (itable_page img Hboot _ Hd) as Ht.
  pose proof (bok_idir img Hboot). pose proof (bok_itables img Hboot).
  set (q := p / 2 ^ 21 * 512 + p / 2 ^ 12 mod 512) in *.
  assert (Hq : page_addr (q * PAGE_SIZE)) by (apply page_multiple; change (2 ^ 20) with 0x100000; lia).
  rewrite (space_walk _ s' 0 _ (pae_make_entry (idir img) PAE_ENTRY_PRESENT) (rw_entry (itable img (p / 2 ^ 21)))
    (rw_entry (q * PAGE_SIZE)) (idir img) (itable img (p / 2 ^ 21))
    K (in_mode _ _ _ I) (proj1 (in_space _ _ _ I)) Hr);
    simpl root_physical; rewrite ?(pdpt_root img Hboot), ?E1, ?E2, ?E3; try done.
  - by rewrite rw_entry_addr, E4.
  - apply (ok_pdpt img Himg).
  - apply (it_pdpt _ _ T 0). lia.
  - unfold idir. lia.
  - rewrite (it_idir _ _ T) by lia. by replace (p / 2 ^ 21 <? 2) with true by lia.
  - by apply rw_entry_present.
  - by apply rw_entry_large.
  - by apply rw_entry_addr.
  - unfold itable. lia.
  - by apply (it_itable _ _ T).
  - by apply rw_entry_present.
Qed.
End Props.

(** ** The properties *)

(** C11: [paging_init] on a processor with PAE never panics, provided the linker put the
    page directory pointer table at the start of a page (the source only asks for 32
    bytes).  Afterwards the current space translates every address of the 256 MB direct
    map to the physical address below it, maps nothing in the dynamic area, and lets the
    kernel write exactly the pages of the direct map that hold no code and no constants.
    The identity map of the first 4 MB is still there: nothing takes it away, unlike what
    the README and the architecture notes say. *)
Theorem paging_init_correct img s :
  boot_image_ok img -> length s.(paging_spaces) = Z.to_nat PAGING_MAX_SPACES ->
  exists s', paging_init img s = Done tt s' /\
    (forall p, 0 <= p < KERNEL_DIRECT_MAP_LIMIT_PHYS -> paging_translate_address img (KERNEL_VMA + p) s' = Done (Some p) s') /\
    (forall p, 0 <= p < BOOTSTRAP_WINDOW_SIZE -> paging_translate_address img p s' = Done (Some p) s') /\
    (forall v, in_dynamic v -> paging_translate_address img v s' = Done None s') /\
    (forall q, 0 <= q < 0x10000 ->
       Z.testbit (read_u64 s'.(phys) (direct_table img (q / 512) + 8 * (q mod 512))) 1 =
       negb (section_page img.(text_start) img.(text_end) q || section_page img.(rodata_start) img.(rodata_end) q)) /\
    s'.(frames) = s.(frames) /\ s'.(kernel_vma_tree) = vma_tree_init.
Proof.
  intros Hb Hl. destruct (wp_Done _ _ _ (paging_init_spec img Hb s Hl)) as ([] & s' & Hrun & I).
  exists s'. split; [done|]. split; [intros p; by eapply init_translate_direct|].
  split; [intros p; by eapply init_translate_identity|]. pose proof (in_tables _ _ _ I) as T. split; [|split].
  - intros v Hv. rewrite (translate_run img (bok_image img Hb) v s' (init_kernel_tables img Hb _ T) (in_mode _ _ _ I)
      (init_current img Hb _ _ I) Hv). unfold translation. by rewrite init_no_frames.
  - intros q Hq. assert (Hd : 0 <= q / 512 < 128) by (split; [by apply Z.div_pos; lia|apply Z.div_lt_upper_bound; lia]).
    rewrite (it_direct _ _ T _ Hd) by (apply Z.mod_pos_bound; lia).
    rewrite Z.mul_comm, <- Z.div_mod by lia. by apply boot_entry_writable.
  - split; [apply (in_rest _ _ _ I)|apply (in_tree _ _ _ I)].
Qed.

(** C35: once the direct map is in place, [paging_phys_to_virt] of paging.c is the
    function that the memory manager, the boot information and the file system are
    verified against: for every address it returns or panics alike. *)
Theorem paging_phys_to_virt_refines img p s :
  image_ok img -> kernel_tables img s.(phys) -> s.(paging_mode) = PAGING_MODE_PAE -> fits 32 p ->
  PagingTables.paging_phys_to_virt img p s = Prelude.paging_phys_to_virt p s.
Proof.
  intros Hi K Hm Hp. unfold Prelude.paging_phys_to_virt. destruct (Z.leb_spec KERNEL_DIRECT_MAP_LIMIT_PHYS p) as [Hle|Hlt].
  - unfold PagingTables.paging_phys_to_virt. by replace (KERNEL_DIRECT_MAP_LIMIT_PHYS <=? p) with true by lia.
  - rewrite phys_to_virt_run by (done || (unfold fits in Hp; lia)). rewrite wrap_small; [done|].
    unfold KERNEL_DIRECT_MAP_LIMIT_PHYS, KERNEL_VMA in *. word_lia.
Qed.

(** C3: [paging_alloc_pages_on_node] always returns and keeps the kernel's pages in
    order.  A run it returns lies in the dynamic area where nothing was mapped; its
    pages translate to that many distinct frames that were free and are now in use,
    every other address translates as before, no other frame changes, and the tree
    of mappings has gained the run.  It fails only for no pages, too few free frames,
    a full tree or no large enough gap, and then every translation and frame is as it
    was. *)
Theorem paging_alloc_pages_correct img n node s :
  image_ok img -> kernel_pages img s -> 0 <= n < 2 ^ 32 -> 0 <= node ->
  exists r s', paging_alloc_pages_on_node img n node s = Done r s' /\ kernel_pages img s' /\
    match r with
    | Some base => exists fs, run_added img s s' base n fs
    | None => unchanged_pages img s s' /\
        (n = 0 \/ out_of_frames s n \/ pool_slots s.(vma_nodes) = [] \/
         forall base, ~ gap_ok (intervals s.(kernel_vma_tree).(root)) KERNEL_DYNAMIC_BASE KERNEL_DYNAMIC_LIMIT
                          (n * PAGE_SIZE) PAGE_SIZE base)
    end.
Proof. intros Hi KP Hn Hnode. by apply wp_Done, alloc_pages_spec. Qed.

(** [paging_free_pages] of a run that the tree lists never fails: its pages
    translate to nothing, exactly the frames behind them become free, the other
    pages and frames are as they were, and the tree has lost the run. *)
Theorem paging_free_pages_correct img base n s :
  image_ok img -> kernel_pages img s -> 0 <= n ->
  has_interval s.(kernel_vma_tree).(root) base (base + n * PAGE_SIZE) ->
  exists s', paging_free_pages img base n s = Done tt s' /\ kernel_pages img s' /\ run_removed img s s' base n.
Proof.
  intros Hi KP Hn Hin. destruct (wp_Done _ _ _ (free_pages_spec img Hi base n s KP Hn Hin)) as ([] & s' & Hrun & H).
  by exists s'.
Qed.

(** C36: releasing a run right after allocating it gives back every translation of
    the dynamic area, every frame and the tree of mappings. *)
Theorem paging_alloc_free_roundtrip img n node base s s1 :
  image_ok img -> kernel_pages img s -> 0 <= n < 2 ^ 32 -> 0 <= node ->
  paging_alloc_pages_on_node img n node s = Done (Some base) s1 ->
  exists s2, paging_free_pages img base n s1 = Done tt s2 /\ kernel_pages img s2 /\
    (forall v, in_dynamic v -> paging_translate_address img v s2 = Done (translation img s.(phys) v) s2) /\
    (forall g, 0 <= g < s.(frames).(total_frames) -> frame_used s2.(frames) g = frame_used s.(frames) g) /\
    intervals s2.(kernel_vma_tree).(root) = intervals s.(kernel_vma_tree).(root).
Proof.
  intros Hi KP Hn Hnode Hrun. destruct (wp_Done _ _ _ (alloc_pages_spec img Hi n node s KP Hn Hnode)) as (r & s' & E & KP1 & Hr).
  rewrite Hrun in E. injection E as <- <-. destruct Hr as [fs R].
  destruct (wp_Done _ _ _ (alloc_free_spec img Hi s s1 base n fs KP KP1 (proj1 Hn) R)) as ([] & s2 & Hfree & KP2 & Hf & Hu & Ht).
  exists s2. split; [done|]. split; [done|]. split; [|by split]. intros v Hv. destruct (kp_ok img s2 KP2) as [Hm K Hc _].
  rewrite (translate_run img Hi v s2 K Hm Hc Hv). unfold translation. by rewrite Hf.
Qed.

(** ** A machine that the properties apply to *)

(** A kernel linked at 1 MB, and a machine before [paging_init]. *)
Definition sample_image : kernel_image :=
  mk_image 0xC0300000 0xC0302000 0xC0200000 0xC0201000 0xC0202000 0xC0204000 0xC0205000 0xC0285000
    0xC0101000 0xC0100000 0xC0120000 0xC0121800 0xC0128400 0xC0151000 true.

Lemma sample_boot_image : boot_image_ok sample_image.
Proof. split; try split; repeat split; unfold apart; try (vm_compute; done); try (vm_compute; by left); vm_compute; by right. Qed.

Definition cold_paging : paging :=
  mk_paging (fun _ => 0) small_pmm (mk_pool [] false) vma_tree_init false false false PAGING_MODE_LEGACY
    (replicate 32 (mk_space false 0 0)) None None (fun _ => false) 0 0 0x300000 [].

(** The machine after [paging_init]. *)
Definition booted (s : paging) : Prop :=
  paging_init sample_image cold_paging = Done tt s.

Lemma cold_vma_wf : vma_wf (mk_pool [] false) vma_tree_init.
Proof.
  split; [done|done| | |done]; change (slots _ ++ _) with all_slots; unfold all_slots.
  - rewrite reverse_Permutation. apply NoDup_seqZ.
  - intros x. rewrite reverse_Permutation, elem_of_seqZ. lia.
Qed.

Lemma booted_pages : exists s, booted s /\ kernel_pages sample_image s /\ s.(frames) = small_pmm /\
  s.(vma_nodes) = mk_pool [] false /\ s.(kernel_vma_tree) = vma_tree_init.
Proof.
  destruct (wp_Done _ _ _ (paging_init_spec sample_image sample_boot_image cold_paging ltac:(done))) as ([] & s & Hrun & I).
  destruct (in_rest _ _ _ I) as [Hf Hn]. exists s. split; [done|]. split; [|split; [done|split; [done|apply I]]].
  eapply init_kernel_pages; [apply sample_boot_image|exact I|apply small_ready|done|apply cold_vma_wf].
Qed.

(** One page can be had on that machine. *)
Lemma booted_alloc s :
  booted s -> kernel_pages sample_image s -> s.(frames) = small_pmm -> s.(vma_nodes) = mk_pool [] false ->
  s.(kernel_vma_tree) = vma_tree_init ->
  exists base s1, paging_alloc_pages_on_node sample_image 1 0 s = Done (Some base) s1.
Proof.
  intros _ KP Hf Hn Ht.
  destruct (wp_Done _ _ _ (alloc_pages_spec sample_image (bok_image _ sample_boot_image) 1 0 s KP ltac:(lia) ltac:(lia)))
    as ([base|] & s1 & Hrun & _ & Hr); [by exists base, s1|]. exfalso.
  destruct Hr as [_ [?|[(l & Hl & Hall)|[Hp|Hgap]]]].
  - lia.
  - rewrite Hf in Hall. assert (H : 0 ∈ l) by (by apply Hall). destruct l; [by apply not_elem_of_nil in H|simpl in Hl; lia].
  - rewrite Hn in Hp. change (pool_slots _) with all_slots in Hp.
    assert (H : 0 ∈ all_slots) by (unfold all_slots; rewrite reverse_Permutation, elem_of_seqZ; unfold VMA_MAX_NODES; lia).
    rewrite Hp in H. by apply not_elem_of_nil in H.
  - apply (Hgap KERNEL_DYNAMIC_BASE). rewrite Ht. split; [done|]. split; [done|]. split; [by exists 0xF0000|].
    intros i Hi. by apply not_elem_of_nil in Hi.
Qed.

(** *** Witnesses *)

Lemma paging_init_correct_witness :
  exists s', booted s' /\ paging_translate_address sample_image 0xC0ABC123 s' = Done (Some 0xABC123) s'.
Proof.
  destruct (paging_init_correct sample_image cold_paging sample_boot_image ltac:(reflexivity)) as (s' & Hrun & Hd & _).
  exists s'. split; [exact Hrun|]. apply (Hd 0xABC123). unfold KERNEL_DIRECT_MAP_LIMIT_PHYS. lia.
Defined.

Lemma paging_phys_to_virt_refines_witness :
  exists s, booted s /\ PagingTables.paging_phys_to_virt sample_image 0x123456 s = Prelude.paging_phys_to_virt 0x123456 s.
Proof.
  destruct booted_pages as (s & Hb & KP & _). exists s. split; [exact Hb|]. destruct (kp_ok _ _ KP) as [Hm K _ _].
  apply (paging_phys_to_virt_refines sample_image 0x123456 s (bok_image _ sample_boot_image) K Hm). word_lia.
Defined.

Lemma paging_alloc_pages_correct_witness :
  exists s, booted s /\ exists r s', paging_alloc_pages_on_node sample_image 1 0 s = Done r s' /\ kernel_pages sample_image s'.
Proof.
  destruct booted_pages as (s & Hb & KP & _). exists s. split; [exact Hb|].
  destruct (paging_alloc_pages_correct sample_image 1 0 s (bok_image _ sample_boot_image) KP ltac:(lia) ltac:(lia))
    as (r & s' & Hrun & KP' & _).
  exists r, s'. split; [exact Hrun|exact KP'].
Defined.

Lemma paging_free_pages_correct_witness :
  exists s base s', kernel_pages sample_image s /\ paging_free_pages sample_image base 1 s = Done tt s' /\
    run_removed sample_image s s' base 1.
Proof.
  destruct booted_pages as (s & Hb & KP & Hf & Hn & Ht). pose proof (bok_image _ sample_boot_image) as Hi.
  destruct (booted_alloc s Hb KP Hf Hn Ht) as (base & s1 & Hrun).
  destruct (wp_Done _ _ _ (alloc_pages_spec sample_image Hi 1 0 s KP ltac:(lia) ltac:(lia))) as (r & s' & E & KP1 & Hr).
  rewrite Hrun in E. injection E as <- <-. destruct Hr as [fs R]. destruct (ra_tree _ _ _ _ _ _ R) as (l1 & l2 & _ & E1).
  destruct (paging_free_pages_correct sample_image base 1 s1 Hi KP1 ltac:(lia)) as (s2 & Hfree & _ & R2).
  { exists 0. rewrite E1. apply elem_of_app. right. apply list_elem_of_here. }
  exists s1, base, s2. split; [exact KP1|]. split; [exact Hfree|exact R2].
Defined.

Lemma paging_alloc_free_roundtrip_witness :
  exists s base s1 s2, booted s /\ paging_alloc_pages_on_node sample_image 1 0 s = Done (Some base) s1 /\
    paging_free_pages sample_image base 1 s1 = Done tt s2 /\ kernel_pages sample_image s2.
Proof.
  destruct booted_pages as (s & Hb & KP & Hf & Hn & Ht). destruct (booted_alloc s Hb KP Hf Hn Ht) as (base & s1 & Hrun).
  destruct (paging_alloc_free_roundtrip sample_image 1 0 base s s1 (bok_image _ sample_boot_image) KP ltac:(lia) ltac:(lia) Hrun)
    as (s2 & Hfree & KP2 & _).
  exists s, base, s1, s2. split; [exact Hb|]. split; [exact Hrun|]. split; [exact Hfree|exact KP2].
Defined.
