(* ===== verification/Heap.v ===== *)
(** The kernel heap: kernel/kernel/heap.c.

    Small objects are slots of one-page slabs, one cache per size; large ones get
    pages of their own.  The headers of objects live in the pages, which [PageStore]
    provides: runs of pages, and their bytes.  The records of slabs are the elements of a
    static array and are referred to by index; in an object's header they appear as
    addresses. *)
From S2P Require Import Prelude PagingData.
From Stdlib Require Import ZArith Lia.
Open Scope Z_scope.

(** ** What the heap needs of paging *)

(** A run of pages: its first address and its length in pages. *)
Definition run_has (r : Z * Z) (v : Z) : Prop := r.1 <= v < r.1 + r.2 * PAGE_SIZE.
Definition run_has_b (v : Z) (r : Z * Z) : bool := (r.1 <=? v) && (v <? r.1 + r.2 * PAGE_SIZE).
Definition in_runs (l : list (Z * Z)) (v : Z) : Prop := exists r, r ∈ l /\ run_has r v.
Definition runs_apart (r r' : Z * Z) : Prop :=
  r.1 + r.2 * PAGE_SIZE <= r'.1 \/ r'.1 + r'.2 * PAGE_SIZE <= r.1.

(** [page_ok] is the invariant of the provider and [page_runs] the allocated runs. *)
Class PageStore (P : Type) : Type := {
  page_ok : P -> Prop;
  page_runs : P -> list (Z * Z);
  page_byte : P -> memory;
  page_set : Z -> Z -> P -> P;
  pages_alloc : Z -> M P (option Z);
  pages_free : Z -> Z -> M P unit;
  page_runs_range p r : page_ok p -> r ∈ page_runs p ->
    KERNEL_DYNAMIC_BASE <= r.1 /\ r.1 + r.2 * PAGE_SIZE <= KERNEL_DYNAMIC_LIMIT /\ 0 < r.2 /\ r.1 mod PAGE_SIZE = 0;
  page_runs_apart p l1 r l2 r' : page_ok p -> page_runs p = l1 ++ r :: l2 -> r' ∈ l1 ++ l2 -> runs_apart r r';
  page_set_ok p v x : page_ok p -> in_runs (page_runs p) v -> page_ok (page_set v x p);
  page_set_runs p v x : page_runs (page_set v x p) = page_runs p;
  page_set_byte p v x w : page_ok p -> in_runs (page_runs p) v -> in_runs (page_runs p) w ->
    page_byte (page_set v x p) w = if w =? v then x else page_byte p w;
  pages_alloc_spec p n : page_ok p -> 0 <= n < 2 ^ 32 ->
    wp (pages_alloc n) (fun r p' => page_ok p' /\
      (forall v, in_runs (page_runs p) v -> page_byte p' v = page_byte p v) /\
      match r with
      | Some b => exists l1 l2, page_runs p = l1 ++ l2 /\ page_runs p' = l1 ++ (b, n) :: l2
      | None => page_runs p' = page_runs p
      end) p;
  pages_free_spec p b n : page_ok p -> (b, n) ∈ page_runs p ->
    wp (pages_free b n) (fun _ p' => page_ok p' /\
      (exists l1 l2, page_runs p = l1 ++ (b, n) :: l2 /\ page_runs p' = l1 ++ l2) /\
      forall v, in_runs (page_runs p') v -> page_byte p' v = page_byte p v) p
}.

(** ** Data *)

Definition SLAB_CACHE_COUNT : Z := 9.
Definition HEAP_MAX_SLABS : Z := 256.
Definition HEAP_SLAB_MAGIC : Z := 0x534C4142.
Definition HEAP_LARGE_MAGIC : Z := 0x4C415247.

Record slab : Type := mk_slab {
  cache : option Z;
  page_base : Z;
  free_list : Z;
  in_use : Z;
  capacity : Z;
  next : option Z
}.

Record slab_cache : Type := mk_cache {
  object_size : Z;
  slot_size : Z;
  partial : option Z;
  full : option Z;
  empty : option Z
}.

Section Heap.
Context {P : Type} `{PageStore P}.
(** The address of [slab_metadata_pool]. *)
Context (slab_pool_addr : Z).

Record heap : Type := mk_heap {
  slab_caches : list slab_cache;
  slab_metadata_pool : list slab;
  slab_metadata_free_list : option Z;
  heap_ready : bool;
  heap_begin : Z;
  heap_limit : Z;
  pages : P
}.

Definition set_slab_caches v h := mk_heap v h.(slab_metadata_pool) h.(slab_metadata_free_list) h.(heap_ready) h.(heap_begin) h.(heap_limit) h.(pages).
Definition set_slab_metadata_pool v h := mk_heap h.(slab_caches) v h.(slab_metadata_free_list) h.(heap_ready) h.(heap_begin) h.(heap_limit) h.(pages).
Definition set_slab_metadata_free_list v h := mk_heap h.(slab_caches) h.(slab_metadata_pool) v h.(heap_ready) h.(heap_begin) h.(heap_limit) h.(pages).
Definition set_heap_ready v h := mk_heap h.(slab_caches) h.(slab_metadata_pool) h.(slab_metadata_free_list) v h.(heap_begin) h.(heap_limit) h.(pages).
Definition set_heap_bounds b l h := mk_heap h.(slab_caches) h.(slab_metadata_pool) h.(slab_metadata_free_list) h.(heap_ready) b l h.(pages).
Definition set_pages v h := mk_heap h.(slab_caches) h.(slab_metadata_pool) h.(slab_metadata_free_list) h.(heap_ready) h.(heap_begin) h.(heap_limit) v.

Definition on_pages {A} (m : M P A) : M heap A :=
  fun h => match m h.(pages) with
           | Done a p => Done a (set_pages p h)
           | Panic msg p => Panic msg (set_pages p h)
           | Fault => Fault
           | Spin => Spin
           end.

(** Dereferencing a pointer to an object's header or to a block: these lie in the
    dynamic area, where only the pages of runs are mapped; other addresses fault. *)
Definition mapped (p : P) (v : Z) : bool := existsb (run_has_b v) (page_runs p).

Definition load32 (v : Z) : M heap Z :=
  p <- gets pages ;;
  if mapped p v && mapped p (v + 1) && mapped p (v + 2) && mapped p (v + 3) then ret (read_u32 (page_byte p) v) else fault.

Definition store8 (v x : Z) : M heap unit :=
  p <- gets pages ;;
  if mapped p v then modify (set_pages (page_set v (u8 x) p)) else fault.

Definition store32 (v x : Z) : M heap unit :=
  store8 v x ;;;
  store8 (v + 1) (Z.shiftr x 8) ;;;
  store8 (v + 2) (Z.shiftr x 16) ;;;
  store8 (v + 3) (Z.shiftr x 24).

Definition slab_at (i : Z) : M heap slab :=
  l <- gets slab_metadata_pool ;; of_option (l !! Z.to_nat i).
Definition slab_update (i : Z) (f : slab -> slab) : M heap unit :=
  modify (fun h => set_slab_metadata_pool (alter f (Z.to_nat i) h.(slab_metadata_pool)) h).
Definition cache_at (i : Z) : M heap slab_cache :=
  l <- gets slab_caches ;; of_option (l !! Z.to_nat i).
Definition cache_update (i : Z) (f : slab_cache -> slab_cache) : M heap unit :=
  modify (fun h => set_slab_caches (alter f (Z.to_nat i) h.(slab_caches)) h).

Definition set_next v s := mk_slab s.(cache) s.(page_base) s.(free_list) s.(in_use) s.(capacity) v.
Definition set_free_list v s := mk_slab s.(cache) s.(page_base) v s.(in_use) s.(capacity) s.(next).
Definition set_in_use v s := mk_slab s.(cache) s.(page_base) s.(free_list) v s.(capacity) s.(next).

(** The pointer to a slab record, and back; [slab] fields of headers are only followed
    into the pool. *)
Definition sizeof_slab : Z := 20.
Definition slab_pointer (i : Z) : Z := slab_pool_addr + sizeof_slab * i.
Definition slab_of_pointer (p : Z) : option Z :=
  let i := (p - slab_pool_addr) / sizeof_slab in
  if (slab_pointer i =? p) && (0 <=? i) && (i <? HEAP_MAX_SLABS) then Some i else None.

(** ** Lists of slabs *)

(** The three list heads of a cache. *)
Inductive slab_list : Type := PartialList | FullList | EmptyList.
Definition list_head (k : slab_list) (c : slab_cache) : option Z :=
  match k with PartialList => c.(partial) | FullList => c.(full) | EmptyList => c.(empty) end.
Definition set_list_head (k : slab_list) (v : option Z) (c : slab_cache) : slab_cache :=
  match k with
  | PartialList => mk_cache c.(object_size) c.(slot_size) v c.(full) c.(empty)
  | FullList => mk_cache c.(object_size) c.(slot_size) c.(partial) v c.(empty)
  | EmptyList => mk_cache c.(object_size) c.(slot_size) c.(partial) c.(full) v
  end.

Definition align_up_size (value alignment : Z) : Z :=
  Z.land (u32 (value + alignment - 1)) (u32 (Z.lnot (alignment - 1))).

Definition slab_list_push (c : Z) (k : slab_list) (s : Z) : M heap unit :=
  k0 <- cache_at c ;;
  slab_update s (set_next (list_head k k0)) ;;;
  cache_update c (set_list_head k (Some s)).

(** [cursor] is the address of the head ([None]) or of the [next] of a slab. *)
Fixpoint slab_list_remove_from (fuel : nat) (c : Z) (k : slab_list) (cursor : option Z) (s : Z) : M heap unit :=
  match fuel with
  | O => fun _ => Spin
  | S fuel' =>
      here <- (match cursor with
               | None => k0 <- cache_at c ;; ret (list_head k k0)
               | Some i => r <- slab_at i ;; ret r.(next)
               end) ;;
      match here with
      | None => ret tt
      | Some i =>
          if i =? s then
            r <- slab_at s ;;
            (match cursor with
             | None => cache_update c (set_list_head k r.(next))
             | Some j => slab_update j (set_next r.(next))
             end) ;;;
            slab_update s (set_next None)
          else slab_list_remove_from fuel' c k (Some i) s
      end
  end.

(** One step per record of the pool, and one to see the end. *)
Definition remove_fuel : nat := Z.to_nat (HEAP_MAX_SLABS + 1).
Definition slab_list_remove (c : Z) (k : slab_list) (s : Z) : M heap unit :=
  slab_list_remove_from remove_fuel c k None s.

Definition slab_metadata_alloc : M heap (option Z) :=
  f <- gets slab_metadata_free_list ;;
  match f with
  | None => ret None
  | Some s =>
      r <- slab_at s ;;
      modify (set_slab_metadata_free_list r.(next)) ;;;
      slab_update s (set_next None) ;;;
      ret (Some s)
  end.

Definition slab_metadata_free (s : Z) : M heap unit :=
  f <- gets slab_metadata_free_list ;;
  slab_update s (set_next f) ;;;
  modify (set_slab_metadata_free_list (Some s)).

Definition slab_cache_for_size (size : Z) : M heap (option Z) :=
  for_range 0 SLAB_CACHE_COUNT (fun i =>
    c <- cache_at i ;;
    ret (if size <=? c.(object_size) then Some i else None)).

(** ** Slabs *)

Definition sizeof_object_header : Z := 16.

(** One object of a new slab. *)
Definition slab_add_object (s object : Z) : M heap unit :=
  store32 object HEAP_SLAB_MAGIC ;;;
  store32 (u32 (object + 4)) (slab_pointer s) ;;;
  store32 (u32 (object + 12)) 0 ;;;
  r <- slab_at s ;;
  store32 (u32 (object + 8)) r.(free_list) ;;;
  slab_update s (set_free_list object).

Definition slab_create (c : Z) : M heap (option Z) :=
  page <- on_pages (pages_alloc 1) ;;
  match page with
  | None => ret None
  | Some page =>
      s <- slab_metadata_alloc ;;
      match s with
      | None => on_pages (pages_free page 1) ;;; ret None
      | Some s =>
          k <- cache_at c ;;
          let capacity := PAGE_SIZE / k.(slot_size) in
          if capacity =? 0 then
            slab_metadata_free s ;;;
            on_pages (pages_free page 1) ;;;
            ret None
          else
            slab_update s (fun _ => mk_slab (Some c) page 0 0 (u16 capacity) None) ;;;
            for_each 0 capacity (fun i => slab_add_object s (u32 (page + u32 (i * k.(slot_size))))) ;;;
            ret (Some s)
      end
  end.

Definition slab_destroy (s : Z) : M heap unit :=
  r <- slab_at s ;;
  on_pages (pages_free r.(page_base) 1) ;;;
  slab_metadata_free s.

(** The slab to allocate from, at the head of [partial]. *)
Definition slab_for_cache (c : Z) : M heap (option Z) :=
  k <- cache_at c ;;
  match k.(partial) with
  | Some s => ret (Some s)
  | None =>
      s <- (match k.(empty) with
            | Some s => slab_list_remove c EmptyList s ;;; ret (Some s)
            | None => slab_create c
            end) ;;
      match s with
      | None => ret None
      | Some s => slab_list_push c PartialList s ;;; ret (Some s)
      end
  end.

Definition slab_alloc_from_cache (c : Z) : M heap Z :=
  s <- slab_for_cache c ;;
  match s with
  | None => ret 0
  | Some s =>
      r <- slab_at s ;;
      let object := r.(free_list) in
      if object =? 0 then ret 0
      else
        nxt <- load32 (u32 (object + 8)) ;;
        slab_update s (set_free_list nxt) ;;;
        r <- slab_at s ;;
        slab_update s (set_in_use (u16 (r.(in_use) + 1))) ;;;
        store32 (u32 (object + 8)) 0 ;;;
        (if nxt =? 0 then
           slab_list_remove c PartialList s ;;;
           slab_list_push c FullList s
         else ret tt) ;;;
        ret (u32 (object + sizeof_object_header))
  end.

Definition slab_free_pointer (ptr : Z) : M heap bool :=
  let object := u32 (ptr - sizeof_object_header) in
  magic <- load32 object ;;
  if negb (magic =? HEAP_SLAB_MAGIC) then ret false
  else
    sp <- load32 (u32 (object + 4)) ;;
    if sp =? 0 then ret false
    else
      s <- of_option (slab_of_pointer sp) ;;
      r <- slab_at s ;;
      let was_full := r.(free_list) =? 0 in
      store32 (u32 (object + 8)) r.(free_list) ;;;
      slab_update s (set_free_list object) ;;;
      if r.(in_use) =? 0 then panic "double free detected for slab object"
      else
        slab_update s (set_in_use (r.(in_use) - 1)) ;;;
        if r.(in_use) - 1 =? 0 then
          c <- of_option r.(cache) ;;
          slab_list_remove c (if was_full then FullList else PartialList) s ;;;
          k <- cache_at c ;;
          (match k.(empty) with
           | None => slab_list_push c EmptyList s
           | Some _ => slab_destroy s
           end) ;;;
          ret true
        else
          (if was_full then
             c <- of_option r.(cache) ;;
             slab_list_remove c FullList s ;;;
             slab_list_push c PartialList s
           else ret tt) ;;;
          ret true.

Definition sizeof_large_header : Z := 8.

Definition allocate_large (size : Z) : M heap Z :=
  let total := u32 (size + sizeof_large_header) in
  let page_count := align_up_size total PAGE_SIZE / PAGE_SIZE in
  a <- on_pages (pages_alloc page_count) ;;
  match a with
  | None => ret 0
  | Some header =>
      store32 header HEAP_LARGE_MAGIC ;;;
      store32 (u32 (header + 4)) page_count ;;;
      ret (u32 (header + sizeof_large_header))
  end.

(** ** The interface *)

Definition object_sizes : list Z := [8; 16; 32; 64; 128; 256; 512; 1024; 2048].

Definition heap_init : M heap unit :=
  for_each 0 (HEAP_MAX_SLABS - 1) (fun i => slab_update i (set_next (Some (i + 1)))) ;;;
  slab_update (HEAP_MAX_SLABS - 1) (set_next None) ;;;
  modify (set_slab_metadata_free_list (Some 0)) ;;;
  for_each 0 SLAB_CACHE_COUNT (fun i =>
    size <- of_option (object_sizes !! Z.to_nat i) ;;
    cache_update i (fun _ => mk_cache size (align_up_size (sizeof_object_header + size) 8) None None None)) ;;;
  modify (set_heap_bounds KERNEL_DYNAMIC_BASE KERNEL_DYNAMIC_LIMIT) ;;;
  modify (set_heap_ready true).

Definition kmalloc (size : Z) : M heap Z :=
  ready <- gets heap_ready ;;
  if negb ready then panic "kmalloc before heap_init"
  else
    let size := if size =? 0 then 1 else size in
    c <- slab_cache_for_size size ;;
    a <- (match c with Some c => slab_alloc_from_cache c | None => allocate_large size end) ;;
    if a =? 0 then panic "kmalloc exhausted heap resources" else ret a.

(** [memset] on the new object. *)
Definition kzalloc (size : Z) : M heap Z :=
  ptr <- kmalloc size ;;
  for_each 0 size (fun i => store8 (u32 (ptr + i)) 0) ;;;
  ret ptr.

Definition kfree (ptr : Z) : M heap unit :=
  if ptr =? 0 then ret tt
  else
    freed <- slab_free_pointer ptr ;;
    if freed : bool then ret tt
    else
      let header := u32 (ptr - sizeof_large_header) in
      magic <- load32 header ;;
      if negb (magic =? HEAP_LARGE_MAGIC) then panic "kfree on unknown pointer"
      else
        n <- load32 (u32 (header + 4)) ;;
        on_pages (pages_free header n).

Definition heap_start : M heap Z := gets heap_begin.
Definition heap_end : M heap Z := gets heap_limit.
End Heap.

#[export] Instance slab_list_eq : EqDecision slab_list.
Proof. solve_decision. Defined.
