(* ===== verification/HeapFacts.v ===== *)
(** The heap's building blocks: words in pages, lists of slabs threaded through their
    records, and the layout of a slab's page. *)
From S2P Require Import Prelude PagingData Heap.
From Stdlib Require Import ZArith Lia.
From stdpp Require Import sets.
Open Scope Z_scope.

(** ** Runs *)

Lemma run_has_b_spec v r : run_has_b v r = true <-> run_has r v.
Proof. unfold run_has_b, run_has. lia. Qed.

Lemma runs_same {P} `{PageStore P} p r r' v :
  page_ok p -> r ∈ page_runs p -> r' ∈ page_runs p -> run_has r v -> run_has r' v -> r = r'.
Proof.
  intros Hok [l1 [l2 E]]%list_elem_of_split Hr' Hv Hv'. pose proof Hr' as Hin. rewrite E in Hr'.
  apply elem_of_app in Hr' as [Hr'|[->|Hr']%elem_of_cons]; [|done|].
  all: pose proof (page_runs_apart p l1 r l2 r' Hok E ltac:(set_solver)) as Ha; unfold runs_apart, run_has in *; lia.
Qed.

(** Two runs with the same first page are the same run. *)
Lemma runs_base {P} `{PageStore P} p b n n' :
  page_ok p -> (b, n) ∈ page_runs p -> (b, n') ∈ page_runs p -> n = n'.
Proof.
  intros Hok H1 H2. destruct (page_runs_range p _ Hok H1) as (_ & _ & Hn & _). destruct (page_runs_range p _ Hok H2) as (_ & _ & Hn' & _).
  simpl in *. assert (E : (b, n) = (b, n')); [|congruence].
  apply (runs_same p _ _ b Hok H1 H2); unfold run_has, PAGE_SIZE; simpl; lia.
Qed.

Lemma run_member (l : list (Z * Z)) r v : r ∈ l -> run_has r v -> in_runs l v.
Proof. intros Hr Hv. by exists r. Qed.

(** ** Words *)

Section Words.
Context {P : Type} `{PageStore P}.
Implicit Types (p : P) (h : heap (P := P)).

Lemma mapped_spec p v : mapped p v = true <-> in_runs (page_runs p) v.
Proof.
  unfold mapped. rewrite existsb_exists. split.
  - intros (r & Hr & Hv). exists r. rewrite <- list_elem_of_In in Hr. by apply run_has_b_spec in Hv.
  - intros (r & Hr & Hv). exists r. rewrite <- list_elem_of_In. by rewrite run_has_b_spec.
Qed.

(** The [n] bytes at [v] are in one run. *)
Definition bytes_in p (v n : Z) : Prop := exists r, r ∈ page_runs p /\ r.1 <= v /\ v + n <= r.1 + r.2 * PAGE_SIZE.

Lemma bytes_in_runs p v n x : bytes_in p v n -> v <= x < v + n -> in_runs (page_runs p) x.
Proof. intros (r & Hr & H1 & H2) Hx. apply (run_member _ r); [done|]. unfold run_has. lia. Qed.

Lemma load32_done v h : bytes_in h.(pages) v 4 -> load32 v h = Done (read_u32 (page_byte h.(pages)) v) h.
Proof.
  intros Hb. unfold load32. run.
  rewrite !(proj2 (mapped_spec h.(pages) _)) by (eapply bytes_in_runs; [done|lia]). done.
Qed.

(** [p'] is [p] after a write of the [n] low bytes of [x] at [v]. *)
Record written p p' (n v x : Z) : Prop := {
  wr_ok : page_ok p';
  wr_runs : page_runs p' = page_runs p;
  wr_bytes w : in_runs (page_runs p) w -> page_byte p' w = write_bytes n (page_byte p) v x w
}.

Lemma store8_written p v x : page_ok p -> in_runs (page_runs p) v -> written p (page_set v (u8 x) p) 1 v x.
Proof.
  intros Hok Hv. split; [by apply page_set_ok|apply page_set_runs|]. intros w Hw. rewrite page_set_byte by done.
  unfold write_bytes. destruct (Z.eqb_spec w v) as [->|Hne].
  - replace ((v <=? v) && (v <? v + 1)) with true by lia. by rewrite Z.sub_diag.
  - by replace ((v <=? w) && (w <? v + 1)) with false by lia.
Qed.

Lemma written_grow p p1 p2 n v x : 0 <= n ->
  written p p1 n v x -> written p1 p2 1 (v + n) (Z.shiftr x (8 * n)) -> written p p2 (n + 1) v x.
Proof.
  intros Hn [O1 R1 B1] [O2 R2 B2]. split; [done|congruence|]. intros w Hw. rewrite B2 by congruence.
  unfold write_bytes. destruct ((v + n <=? w) && (w <? v + n + 1)) eqn:E.
  - replace ((v <=? w) && (w <? v + (n + 1))) with true by lia. replace (w - (v + n)) with 0 by lia.
    rewrite Z.mul_0_r, Z.shiftr_0_r. by replace (w - v) with n by lia.
  - rewrite B1 by done. unfold write_bytes. by replace (w <? v + (n + 1)) with (w <? v + n) by lia.
Qed.

Lemma store8_done v x h : in_runs (page_runs h.(pages)) v -> store8 v x h = Done tt (set_pages (page_set v (u8 x) h.(pages)) h).
Proof. intros Hv. unfold store8. run. by rewrite (proj2 (mapped_spec _ _) Hv). Qed.

Lemma store32_done v x h :
  page_ok h.(pages) -> bytes_in h.(pages) v 4 ->
  exists p', store32 v x h = Done tt (set_pages p' h) /\ written h.(pages) p' 4 v x.
Proof.
  intros Hok Hb. set (p := h.(pages)). pose proof (bytes_in_runs p v 4) as Hin.
  set (p1 := page_set v (u8 x) p). set (p2 := page_set (v + 1) (u8 (Z.shiftr x 8)) p1).
  set (p3 := page_set (v + 2) (u8 (Z.shiftr x 16)) p2). set (p4 := page_set (v + 3) (u8 (Z.shiftr x 24)) p3).
  assert (W1 : written p p1 1 v x) by (apply store8_written; [done|apply Hin; [done|lia]]).
  assert (W2 : written p p2 2 v x).
  { apply (written_grow p p1 p2 1); [lia|done|]. apply store8_written; [apply W1|]. rewrite (wr_runs _ _ _ _ _ W1). apply Hin; [done|lia]. }
  assert (W3 : written p p3 3 v x).
  { apply (written_grow p p2 p3 2); [lia|done|]. apply store8_written; [apply W2|]. rewrite (wr_runs _ _ _ _ _ W2). apply Hin; [done|lia]. }
  assert (W4 : written p p4 4 v x).
  { apply (written_grow p p3 p4 3); [lia|done|]. apply store8_written; [apply W3|]. rewrite (wr_runs _ _ _ _ _ W3). apply Hin; [done|lia]. }
  exists p4. split; [|done]. unfold store32.
  rewrite (run_bind_done _ _ _ _ _ (store8_done v x h ltac:(apply Hin; [done|lia]))). fold p p1.
  erewrite run_bind_done by (apply store8_done; simpl; rewrite (wr_runs _ _ _ _ _ W1); apply Hin; [done|lia]).
  erewrite run_bind_done by (apply store8_done; simpl; fold p2; rewrite (wr_runs _ _ _ _ _ W2); apply Hin; [done|lia]).
  rewrite store8_done by (simpl; fold p2 p3; rewrite (wr_runs _ _ _ _ _ W3); apply Hin; [done|lia]). done.
Qed.

(** What a word write leaves behind. *)
Lemma written_other p p' n v x w : written p p' n v x -> bytes_in p w 4 -> w + 4 <= v \/ v + n <= w ->
  read_u32 (page_byte p') w = read_u32 (page_byte p) w.
Proof.
  intros W Hb Ha. rewrite <- (read_u32_other n (page_byte p) v x w) by lia.
  unfold read_u32, read_u16, read_u8. by rewrite !(wr_bytes _ _ _ _ _ W) by (eapply bytes_in_runs; [done|lia]).
Qed.

Lemma written_same p p' v x : written p p' 4 v x -> bytes_in p v 4 -> fits 32 x -> read_u32 (page_byte p') v = x.
Proof.
  intros W Hb Hx. rewrite <- (read_u32_same (page_byte p) v x) by done. unfold write_u32.
  unfold read_u32, read_u16, read_u8. by rewrite !(wr_bytes _ _ _ _ _ W) by (eapply bytes_in_runs; [done|lia]).
Qed.

Lemma written_byte p p' n v x w : written p p' n v x -> in_runs (page_runs p) w -> w < v \/ v + n <= w ->
  page_byte p' w = page_byte p w.
Proof.
  intros W Hw Ha. rewrite (wr_bytes _ _ _ _ _ W w Hw). unfold write_bytes.
  by replace ((v <=? w) && (w <? v + n)) with false by lia.
Qed.
End Words.

(** ** Lists of slabs *)

(** The list that starts at [head]. *)
Fixpoint linked (pool : list slab) (head : option Z) (l : list Z) : Prop :=
  match l with
  | [] => head = None
  | x :: l' => head = Some x /\ 0 <= x /\ exists r, pool !! Z.to_nat x = Some r /\ linked pool r.(next) l'
  end.

Lemma linked_bounds pool head l x : linked pool head l -> x ∈ l -> 0 <= x < Z.of_nat (length pool).
Proof.
  revert head. induction l as [|y l IH]; intros head; simpl; [intros _ Hx; by apply not_elem_of_nil in Hx|].
  intros (_ & H0 & r & Hr & Hl) [->|Hx]%elem_of_cons; [|by eapply IH]. apply lookup_lt_Some in Hr. lia.
Qed.

Lemma linked_alter_other pool head l x f : 0 <= x -> x ∉ l -> linked pool head l -> linked (alter f (Z.to_nat x) pool) head l.
Proof.
  intros Hx. revert head. induction l as [|y l IH]; intros head; simpl; [done|]. intros Hn (-> & H0 & r & Hr & Hl).
  split; [done|]. split; [done|]. exists r. split; [|apply IH; [set_solver|done]].
  rewrite list_lookup_alter_ne; [done|]. intros E. apply Hn. assert (x = y) as -> by lia. set_solver.
Qed.

Lemma linked_alter_data pool head l x f :
  (forall r, (f r).(next) = r.(next)) -> linked pool head l -> linked (alter f x pool) head l.
Proof.
  intros Hf. revert head. induction l as [|y l IH]; intros head; simpl; [done|]. intros (-> & H0 & r & Hr & Hl).
  split; [done|]. split; [done|]. destruct (decide (x = Z.to_nat y)) as [->|Hne].
  - exists (f r). rewrite list_lookup_alter_eq, Hr. split; [done|]. rewrite Hf. auto.
  - exists r. rewrite list_lookup_alter_ne by done. auto.
Qed.

Lemma linked_push pool head l x :
  0 <= x < Z.of_nat (length pool) -> x ∉ l -> linked pool head l ->
  linked (alter (set_next head) (Z.to_nat x) pool) (Some x) (x :: l).
Proof.
  intros Hx Hn Hl. split; [done|]. split; [lia|]. destruct (lookup_lt_is_Some_2 pool (Z.to_nat x)) as [r Hr]; [lia|].
  exists (set_next head r). rewrite list_lookup_alter_eq, Hr. split; [done|]. apply linked_alter_other; [lia|done|done].
Qed.

(** What the operations on lists keep: everything but [next]. *)
Definition same_data (pool pool' : list slab) : Prop := map (set_next None) pool' = map (set_next None) pool.

Lemma same_data_alter pool x v : same_data pool (alter (set_next v) x pool).
Proof.
  unfold same_data. apply list_eq. intros i. rewrite !list_lookup_fmap.
  destruct (decide (x = i)) as [->|Hne]; [|by rewrite list_lookup_alter_ne]. rewrite list_lookup_alter_eq. by destruct (pool !! i).
Qed.

Lemma same_data_trans p1 p2 p3 : same_data p1 p2 -> same_data p2 p3 -> same_data p1 p3.
Proof. unfold same_data. congruence. Qed.

Lemma same_data_length p1 p2 : same_data p1 p2 -> length p2 = length p1.
Proof. intros E. apply (f_equal length) in E. by rewrite !length_map in E. Qed.

Lemma same_data_lookup p1 p2 i r : same_data p1 p2 -> p1 !! i = Some r -> exists v, p2 !! i = Some (set_next v r).
Proof.
  intros E Hr. apply (f_equal (.!! i)) in E. rewrite !list_lookup_fmap, Hr in E. destruct (p2 !! i) as [r2|]; [|done].
  exists r2.(next). simpl in E. injection E as E1 E2 E3 E4 E5. destruct r, r2. simpl in *. by subst.
Qed.

Lemma linked_nodup_bound pool head l : linked pool head l -> NoDup l -> Z.of_nat (length l) <= Z.of_nat (length pool).
Proof.
  intros Hl Hd. enough (length l <= length (seqZ 0 (Z.of_nat (length pool))))%nat as E by (rewrite length_seqZ in E; lia).
  apply submseteq_length, NoDup_submseteq; [done|]. intros x Hx. apply elem_of_seqZ. pose proof (linked_bounds _ _ _ _ Hl Hx). lia.
Qed.

Section Lists.
Context {P : Type} `{PageStore P}.
Implicit Types (h : heap (P := P)).

(** The head of list [k] of cache [c], and the list. *)
Definition cache_list h (c : Z) (k : slab_list) (l : list Z) : Prop :=
  exists kc, h.(slab_caches) !! Z.to_nat c = Some kc /\ linked h.(slab_metadata_pool) (list_head k kc) l.

(** What [slab_list_push] and [slab_list_remove] on list [k] of cache [c] keep. *)
Record relisted (c : Z) (k : slab_list) h h' : Prop := {
  rl_data : same_data h.(slab_metadata_pool) h'.(slab_metadata_pool);
  rl_caches : exists v, h'.(slab_caches) = alter (set_list_head k v) (Z.to_nat c) h.(slab_caches);
  rl_free : h'.(slab_metadata_free_list) = h.(slab_metadata_free_list);
  rl_ready : h'.(heap_ready) = h.(heap_ready);
  rl_pages : h'.(pages) = h.(pages)
}.

Lemma list_head_set k k' v kc : list_head k (set_list_head k' v kc) = if decide (k = k') then v else list_head k kc.
Proof. by destruct k, k'. Qed.

(** A list that the operation does not touch. *)
Definition other_lists h h' (c : Z) (k : slab_list) (s : Z) : Prop :=
  (forall c' k' l, 0 <= c' -> (c', k') <> (c, k) -> s ∉ l -> cache_list h c' k' l -> cache_list h' c' k' l) /\
  (forall l, s ∉ l -> linked h.(slab_metadata_pool) h.(slab_metadata_free_list) l ->
     linked h'.(slab_metadata_pool) h'.(slab_metadata_free_list) l).

Lemma slab_push_spec c k s l h :
  0 <= c -> 0 <= s < Z.of_nat (length h.(slab_metadata_pool)) -> s ∉ l -> cache_list h c k l ->
  wp (slab_list_push c k s) (fun _ h' => relisted c k h h' /\ cache_list h' c k (s :: l) /\ other_lists h h' c k s) h.
Proof.
  intros Hc Hs Hn (kc & Hkc & Hl). unfold slab_list_push, cache_at, slab_update, cache_update.
  wp_step. wp_step. wp_step. eapply wp_of_option; [exact Hkc|]. do 3 wp_step. split; [|split; [|split]].
  - split; simpl; [apply same_data_alter|by exists (Some s)|done..].
  - exists (set_list_head k (Some s) kc). simpl. rewrite list_lookup_alter_eq, Hkc. split; [done|].
    rewrite list_head_set. rewrite decide_True by done. by apply linked_push.
  - intros c' k' l' Hc' Hne Hn' (kc' & Hkc' & Hl'). unfold cache_list. simpl.
    destruct (decide (Z.to_nat c = Z.to_nat c')) as [E|E].
    + assert (c = c') as <- by lia. rewrite list_lookup_alter_eq, Hkc'. exists (set_list_head k (Some s) kc'). split; [done|].
      rewrite list_head_set, decide_False by congruence. apply linked_alter_other; [lia|done|done].
    + exists kc'. rewrite list_lookup_alter_ne by done. split; [done|]. apply linked_alter_other; [lia|done|done].
  - intros l' Hn' Hl'. simpl. apply linked_alter_other; [lia|done|done].
Qed.

Lemma last_default {A} (l : list A) i a b : List.last (i :: l) a = List.last (i :: l) b.
Proof. revert i. induction l as [|y l IH]; intros i; [done|]. exact (IH y). Qed.

Lemma last_cons_default {A} (l : list A) i j : List.last (i :: l) j = List.last l i.
Proof. destruct l as [|y l]; [done|]. apply (last_default l y). Qed.

(** Walking to the element before [s]. *)
Lemma remove_from_run fuel c k j s l1 l2 r rj h :
  (length l1 < fuel)%nat -> NoDup (j :: l1 ++ s :: l2) -> 0 <= j ->
  h.(slab_metadata_pool) !! Z.to_nat j = Some rj -> linked h.(slab_metadata_pool) rj.(next) (l1 ++ s :: l2) ->
  h.(slab_metadata_pool) !! Z.to_nat s = Some r ->
  slab_list_remove_from fuel c k (Some j) s h = Done tt (set_slab_metadata_pool
    (alter (set_next None) (Z.to_nat s) (alter (set_next r.(next)) (Z.to_nat (List.last l1 j)) h.(slab_metadata_pool))) h).
Proof.
  revert fuel j rj. induction l1 as [|i l1 IH]; intros [|fuel] j rj Hf Hd Hj Hrj Hl Hr; simpl in Hf; try lia.
  - destruct Hl as (Hn & _). simpl. unfold slab_at. run. rewrite Hrj. simpl. run. rewrite Hn, Z.eqb_refl. run. rewrite Hr. simpl. run. done.
  - destruct Hl as (Hn & Hi & ri & Hri & Hl). cbn [slab_list_remove_from]. unfold slab_at. run. rewrite Hrj. simpl of_option. run. rewrite Hn.
    apply NoDup_cons in Hd as [Hnj Hd]. assert (Hne : i <> s).
    { intros ->. simpl in Hd. apply NoDup_cons in Hd as [Hd _]. set_solver. }
    rewrite (proj2 (Z.eqb_neq i s) Hne). rewrite (IH fuel i ri); [|lia|done|done|done|done|done].
    by rewrite last_cons_default.
Qed.

(** Unlinking [s] after [x]. *)
Lemma linked_unlink pool head l1 x s l2 r :
  NoDup (l1 ++ x :: s :: l2) -> pool !! Z.to_nat s = Some r -> linked pool head (l1 ++ x :: s :: l2) ->
  linked (alter (set_next None) (Z.to_nat s) (alter (set_next r.(next)) (Z.to_nat x) pool)) head (l1 ++ x :: l2).
Proof.
  intros Hd Hr. revert head. induction l1 as [|y l1 IH]; intros head; simpl.
  - intros (-> & Hx & rx & Hrx & Hs & H0 & r' & Hr' & Hl). rewrite Hr in Hr'. injection Hr' as <-.
    simpl in Hd. apply NoDup_cons in Hd as [Hx' Hd]. apply NoDup_cons in Hd as [Hs' _].
    split; [done|]. split; [done|]. exists (set_next r.(next) rx). split.
    + rewrite list_lookup_alter_ne by (assert (x <> s) by set_solver; lia). by rewrite list_lookup_alter_eq, Hrx.
    + simpl. apply linked_alter_other; [done|done|]. apply linked_alter_other; [done|set_solver|done].
  - intros (-> & Hy & ry & Hry & Hl). simpl in Hd. apply NoDup_cons in Hd as [Hy' Hd].
    split; [done|]. split; [done|]. exists ry. split; [|by apply IH].
    assert (Hx : forall z, z ∈ l1 ++ x :: s :: l2 -> 0 <= z) by (intros z Hz; by apply (linked_bounds _ _ _ z Hl)).
    rewrite !list_lookup_alter_ne; [done| |]; [pose proof (Hx x ltac:(set_solver)); assert (y <> x) by set_solver; lia|
      pose proof (Hx s ltac:(set_solver)); assert (y <> s) by set_solver; lia].
Qed.

Lemma slab_remove_spec c k s l1 l2 h :
  0 <= c -> Z.of_nat (length h.(slab_metadata_pool)) = HEAP_MAX_SLABS -> NoDup (l1 ++ s :: l2) -> cache_list h c k (l1 ++ s :: l2) ->
  wp (slab_list_remove c k s) (fun _ h' => relisted c k h h' /\ cache_list h' c k (l1 ++ l2) /\
    (forall c' k' l, 0 <= c' -> (c', k') <> (c, k) -> (forall x, x ∈ l -> x ∉ l1 ++ s :: l2) -> cache_list h c' k' l -> cache_list h' c' k' l) /\
    (forall l, (forall x, x ∈ l -> x ∉ l1 ++ s :: l2) -> linked h.(slab_metadata_pool) h.(slab_metadata_free_list) l ->
       linked h'.(slab_metadata_pool) h'.(slab_metadata_free_list) l)) h.
Proof.
  intros Hc Hlen Hd (kc & Hkc & Hl). pose proof (linked_bounds _ _ _ s Hl ltac:(set_solver)) as Hs.
  destruct (lookup_lt_is_Some_2 h.(slab_metadata_pool) (Z.to_nat s)) as [r Hr]; [lia|].
  assert (Hf : exists f, remove_fuel = S f /\ Z.of_nat f = HEAP_MAX_SLABS) by (exists 256%nat; by split).
  destruct Hf as (f & Ef & Hf). destruct l1 as [|i l1].
  - assert (Hrun : slab_list_remove c k s h = Done tt (set_slab_metadata_pool (alter (set_next None) (Z.to_nat s) h.(slab_metadata_pool))
      (set_slab_caches (alter (set_list_head k r.(next)) (Z.to_nat c) h.(slab_caches)) h))).
    { unfold slab_list_remove. rewrite Ef. cbn [slab_list_remove_from]. unfold cache_at, slab_at. run.
      rewrite Hkc. simpl of_option. run. destruct Hl as (-> & _). rewrite Z.eqb_refl. run. rewrite Hr. simpl of_option. run. done. }
    eapply Done_wp; [exact Hrun|]. destruct Hl as (Hhd & H0 & r' & Hr' & Hl). rewrite Hr in Hr'. injection Hr' as <-.
    simpl in Hd. apply NoDup_cons in Hd as [Hs' _]. split; [|split; [|split]].
    + split; simpl; [apply same_data_alter|by exists r.(next)|done..].
    + exists (set_list_head k r.(next) kc). simpl. rewrite list_lookup_alter_eq, Hkc. split; [done|].
      rewrite list_head_set, decide_True by done. by apply linked_alter_other.
    + intros c' k' l Hc' Hne Hl' (kc' & Hkc' & Hll). unfold cache_list. simpl. assert (s ∉ l) by (intros X; apply Hl' in X; set_solver).
      destruct (decide (Z.to_nat c = Z.to_nat c')) as [E|E].
      * assert (c = c') as <- by lia. rewrite list_lookup_alter_eq, Hkc'. eexists. split; [done|].
        rewrite list_head_set, decide_False by congruence. by apply linked_alter_other.
      * exists kc'. rewrite list_lookup_alter_ne by done. split; [done|]. by apply linked_alter_other.
    + intros l Hl' Hll. simpl. apply linked_alter_other; [done| |done]. intros X. apply Hl' in X. set_solver.
  - pose proof Hl as (Hhd & Hi & ri & Hri & Hl'). pose proof (linked_nodup_bound _ _ _ Hl Hd) as Hb.
    rewrite length_app in Hb. simpl in Hb.
    set (x := List.last l1 i). assert (Hx : exists l0, i :: l1 = l0 ++ [x]).
    { exists (removelast (i :: l1)). unfold x. rewrite <- (last_cons_default l1 i i). by apply app_removelast_last. }
    destruct Hx as [l0 Hx].
    assert (Hrun : slab_list_remove c k s h = Done tt (set_slab_metadata_pool
      (alter (set_next None) (Z.to_nat s) (alter (set_next r.(next)) (Z.to_nat x) h.(slab_metadata_pool))) h)).
    { unfold slab_list_remove. rewrite Ef. cbn [slab_list_remove_from]. unfold cache_at. run.
      rewrite Hkc. simpl of_option. run. rewrite Hhd. assert (Hne : i <> s).
      { intros ->. simpl in Hd. apply NoDup_cons in Hd as [Hd _]. set_solver. }
      rewrite (proj2 (Z.eqb_neq i s) Hne). apply (remove_from_run _ _ _ _ _ _ l2 _ ri); try done. lia. }
    assert (E : (i :: l1) ++ s :: l2 = l0 ++ x :: s :: l2) by (rewrite Hx, <- app_assoc; done).
    assert (Hxin : x ∈ (i :: l1) ++ s :: l2) by (rewrite E; set_solver).
    pose proof (linked_bounds _ _ _ x Hl Hxin) as Hx0.
    eapply Done_wp; [exact Hrun|]. split; [|split; [|split]].
    + split; simpl; [eapply same_data_trans; apply same_data_alter| |done..].
      exists (list_head k kc). apply list_eq. intros m. destruct (decide (Z.to_nat c = m)) as [<-|]; [|by rewrite list_lookup_alter_ne]. rewrite list_lookup_alter_eq, Hkc. simpl. f_equal. by destruct k, kc.
    + exists kc. split; [done|]. unfold set_slab_metadata_pool. cbn [slab_metadata_pool]. rewrite Hx, <- app_assoc. apply linked_unlink; [by rewrite <- E|done|by rewrite <- E].
    + intros c' k' l Hc' Hne Hll (kc' & Hkc' & Hl2). exists kc'. split; [done|]. simpl.
      apply linked_alter_other; [lia|intros X; apply Hll in X; set_solver|].
      apply linked_alter_other; [lia|intros X; by apply Hll in X|done].
    + intros l Hll Hl2. simpl. apply linked_alter_other; [lia|intros X; apply Hll in X; set_solver|].
      apply linked_alter_other; [lia|intros X; by apply Hll in X|done].
Qed.
End Lists.
