(* ===== verification/HeapInv.v ===== *)
(** The invariant of the heap, and the blocks that its clients hold. *)
From S2P Require Import Prelude PagingData Heap HeapFacts.
From Stdlib Require Import ZArith Lia.
From stdpp Require Import sets.
Open Scope Z_scope.

(** ** The layout of a slab's page *)

(** Cache [c] serves objects of [8 * 2 ^ c] bytes. *)
Definition osize (c : Z) : Z := 8 * 2 ^ c.
Definition slot (c : Z) : Z := 16 + osize c.
Definition slots_per_page (c : Z) : Z := PAGE_SIZE / slot c.
Definition is_slot (b c a : Z) : Prop := exists j, 0 <= j < slots_per_page c /\ a = b + j * slot c.

Definition is_cache (c : Z) : Prop := 0 <= c < SLAB_CACHE_COUNT.

Lemma cache_cases c : is_cache c -> c ∈ [0; 1; 2; 3; 4; 5; 6; 7; 8].
Proof. unfold is_cache, SLAB_CACHE_COUNT. intros Hc. assert (c = 0 \/ c = 1 \/ c = 2 \/ c = 3 \/ c = 4 \/ c = 5 \/ c = 6 \/ c = 7 \/ c = 8) by lia. set_solver. Qed.

(** The constants of a cache. *)
Lemma cache_layout c : is_cache c ->
  8 <= osize c <= 2048 /\ slot c = 16 + osize c /\ slot c mod 8 = 0 /\ 0 < slots_per_page c <= 170 /\
  slots_per_page c * slot c <= PAGE_SIZE /\ object_sizes !! Z.to_nat c = Some (osize c) /\
  align_up_size (sizeof_object_header + osize c) 8 = slot c.
Proof.
  intros Hc%cache_cases. unfold slots_per_page, PAGE_SIZE.
  repeat (apply elem_of_cons in Hc as [->|Hc]; [vm_compute; repeat split; done|]). by apply not_elem_of_nil in Hc.
Qed.

Lemma slot_bounds b c a : is_cache c -> is_slot b c a -> b <= a /\ a + slot c <= b + PAGE_SIZE /\ a mod 8 = b mod 8.
Proof.
  intros Hc (j & Hj & ->). destruct (cache_layout c Hc) as (Ho & Hs & Hm & Hn & Hp & _).
  assert ((j + 1) * slot c <= slots_per_page c * slot c) by (apply Z.mul_le_mono_nonneg_r; lia).
  split; [nia|]. split; [lia|]. rewrite Z.add_mod by lia. rewrite Z.mul_mod, Hm, Z.mul_0_r by lia. by rewrite Z.mod_0_l, Z.add_0_r, Z.mod_mod by lia.
Qed.

Lemma slot_apart b c a a' : is_cache c -> is_slot b c a -> is_slot b c a' -> a <> a' -> a + slot c <= a' \/ a' + slot c <= a.
Proof.
  intros Hc (j & Hj & ->) (j' & Hj' & ->) Hne. destruct (cache_layout c Hc) as (Ho & Hs & _).
  destruct (Z.lt_trichotomy j j') as [Hlt|[->|Hlt]]; [left|done|right]; nia.
Qed.

Definition slot_list (b c : Z) : list Z := (fun j => b + j * slot c) <$> seqZ 0 (slots_per_page c).

Lemma slot_list_elem b c a : a ∈ slot_list b c <-> is_slot b c a.
Proof.
  unfold slot_list, is_slot. rewrite list_elem_of_fmap. split.
  - intros (j & -> & Hj). apply elem_of_seqZ in Hj. exists j. split; [lia|done].
  - intros (j & Hj & ->). exists j. split; [done|]. apply elem_of_seqZ. lia.
Qed.

(** At most as many different slots as the page holds. *)
Lemma slots_count b c F : is_cache c -> NoDup F -> (forall a, a ∈ F -> is_slot b c a) -> Z.of_nat (length F) <= slots_per_page c.
Proof.
  intros Hc Hd Hs. destruct (cache_layout c Hc) as (_ & _ & _ & Hn & _).
  enough (length F <= length (slot_list b c))%nat as E by (unfold slot_list in E; rewrite length_fmap, length_seqZ in E; lia).
  apply submseteq_length, NoDup_submseteq; [done|]. intros a Ha. apply slot_list_elem. auto.
Qed.

(** ** Slabs *)

(** The free objects, linked through the third word of their headers. *)
Fixpoint free_chain (m : memory) (head : Z) (F : list Z) : Prop :=
  match F with
  | [] => head = 0
  | a :: F' => head = a /\ free_chain m (read_u32 m (a + 8)) F'
  end.

Lemma free_chain_same m m' head F :
  (forall a, a ∈ F -> read_u32 m' (a + 8) = read_u32 m (a + 8)) -> free_chain m head F -> free_chain m' head F.
Proof.
  revert head. induction F as [|a F IH]; intros head; simpl; [done|]. intros Hs [-> Hc]. split; [done|].
  rewrite Hs by set_solver. apply IH; [intros; apply Hs; set_solver|done].
Qed.

Section Inv.
Context {P : Type} `{PageStore P} (slab_pool_addr : Z).
Implicit Types (p : P) (h : heap (P := P)).
Local Abbreviation slab_pointer := (slab_pointer slab_pool_addr).

(** Slab [i] of cache [c] with record [r] and free objects [F]. *)
Record slab_ok p (i c : Z) (r : slab) (F : list Z) : Prop := {
  so_cache : r.(cache) = Some c;
  so_run : (r.(page_base), 1) ∈ page_runs p;
  so_capacity : r.(capacity) = slots_per_page c;
  so_use : r.(in_use) = slots_per_page c - Z.of_nat (length F);
  so_nodup : NoDup F;
  so_slots a : a ∈ F -> is_slot r.(page_base) c a;
  so_chain : free_chain (page_byte p) r.(free_list) F;
  so_headers a : is_slot r.(page_base) c a ->
    read_u32 (page_byte p) a = HEAP_SLAB_MAGIC /\ read_u32 (page_byte p) (a + 4) = slab_pointer i
}.

Definition kind_ok (k : slab_list) (c : Z) (F : list Z) : Prop :=
  match k with PartialList => F <> [] | FullList => F = [] | EmptyList => Z.of_nat (length F) = slots_per_page c end.

Lemma slab_ok_next p i c r F v : slab_ok p i c r F -> slab_ok p i c (set_next v r) F.
Proof. intros []. by split. Qed.

(** A change of memory that leaves the slab's page alone. *)
Lemma slab_ok_frame p p' i c r F :
  is_cache c -> slab_ok p i c r F -> (r.(page_base), 1) ∈ page_runs p' ->
  (forall v, r.(page_base) <= v < r.(page_base) + PAGE_SIZE -> page_byte p' v = page_byte p v) -> slab_ok p' i c r F.
Proof.
  intros Hc [] Hr Hb. assert (Hw : forall a o, is_slot r.(page_base) c a -> 0 <= o <= 12 -> read_u32 (page_byte p') (a + o) = read_u32 (page_byte p) (a + o)).
  { intros a o Ha Ho. destruct (slot_bounds _ _ _ Hc Ha) as (H1 & H2 & _). destruct (cache_layout c Hc) as (? & ? & _).
    unfold read_u32, read_u16, read_u8. by rewrite !Hb by lia. }
  split; try done.
  - eapply free_chain_same; [|done]. intros a Ha. apply Hw; [auto|lia].
  - intros a Ha. rewrite <- (Z.add_0_r a) at 1. rewrite !Hw by (done || lia). rewrite Z.add_0_r. auto.
Qed.

(** ** The heap *)

(** Which slabs there are: the cache that a record serves, its page and its free
    objects; the lists of the caches and of the unused records; the large allocations. *)
Record ghost : Type := mk_ghost {
  owner : Z -> option Z;
  base_of : Z -> Z;
  free_of : Z -> list Z;
  lists : Z -> slab_list -> list Z;
  unused : list Z;
  large : list (Z * Z)
}.

Record heap_core (g : ghost) (h : heap) : Prop := {
  hc_ready : h.(heap_ready) = true;
  hc_pages : page_ok h.(pages);
  hc_pool : Z.of_nat (length h.(slab_metadata_pool)) = HEAP_MAX_SLABS;
  hc_sizes c : is_cache c -> exists kc, h.(slab_caches) !! Z.to_nat c = Some kc /\ kc.(object_size) = osize c /\ kc.(slot_size) = slot c;
  hc_lists c k : is_cache c -> cache_list h c k (g.(lists) c k);
  hc_unused : linked h.(slab_metadata_pool) h.(slab_metadata_free_list) g.(unused);
  hc_nodup c k : is_cache c -> NoDup (g.(lists) c k);
  hc_unused_nodup : NoDup g.(unused);
  hc_listed c k i : is_cache c -> i ∈ g.(lists) c k -> g.(owner) i = Some c;
  hc_once c k k' i : is_cache c -> i ∈ g.(lists) c k -> i ∈ g.(lists) c k' -> k = k';
  hc_spare i : i ∈ g.(unused) -> g.(owner) i = None;
  hc_slab i c : g.(owner) i = Some c -> is_cache c /\ 0 <= i < HEAP_MAX_SLABS /\
    exists r, h.(slab_metadata_pool) !! Z.to_nat i = Some r /\ r.(page_base) = g.(base_of) i /\
      slab_ok h.(pages) i c r (g.(free_of) i);
  hc_bases i j c c' : g.(owner) i = Some c -> g.(owner) j = Some c' -> g.(base_of) i = g.(base_of) j -> i = j;
  hc_large b n : (b, n) ∈ g.(large) -> (b, n) ∈ page_runs h.(pages) /\
    read_u32 (page_byte h.(pages)) b = HEAP_LARGE_MAGIC /\ read_u32 (page_byte h.(pages)) (b + 4) = n;
  hc_large_bases b n i c : (b, n) ∈ g.(large) -> g.(owner) i = Some c -> g.(base_of) i <> b
}.

(** Every slab is on the list for its number of free objects. *)
Definition sorted_out (g : ghost) : Prop :=
  forall i c, g.(owner) i = Some c -> exists k, i ∈ g.(lists) c k /\ kind_ok k c (g.(free_of) i).

Record heap_inv (g : ghost) (h : heap) : Prop := {
  hi_core : heap_core g h;
  hi_sorted : sorted_out g
}.

(** The blocks that clients hold: address and size. *)
Definition slab_block (g : ghost) (q len : Z) : Prop :=
  exists i c a, g.(owner) i = Some c /\ is_slot (g.(base_of) i) c a /\ (a ∉ g.(free_of) i) /\ q = a + 16 /\ len = osize c.
Definition large_block (g : ghost) (q len : Z) : Prop :=
  exists b n, (b, n) ∈ g.(large) /\ q = b + 8 /\ len = n * PAGE_SIZE - 8.
Definition held (g : ghost) (q len : Z) : Prop := slab_block g q len \/ large_block g q len.

(** *** Blocks and runs *)

Lemma owner_run g h i c : heap_core g h -> g.(owner) i = Some c -> (g.(base_of) i, 1) ∈ page_runs h.(pages).
Proof. intros HC Ho. destruct (hc_slab g h HC i c Ho) as (_ & _ & r & _ & <- & S). apply S. Qed.

Lemma page_mod8 b : b mod PAGE_SIZE = 0 -> b mod 8 = 0.
Proof.
  unfold PAGE_SIZE. intros [z ->]%Z.mod_divide; [|lia]. replace (z * 4096) with (z * 512 * 8) by lia. by rewrite Z.mod_mul.
Qed.

Lemma runs_differ_apart p r r' : page_ok p -> r ∈ page_runs p -> r' ∈ page_runs p -> r <> r' -> runs_apart r r'.
Proof.
  intros Hok [l1 [l2 E]]%list_elem_of_split Hr' Hne. apply (page_runs_apart p l1 r l2); [done|done|]. rewrite E in Hr'. set_solver.
Qed.

(** Each block lies in one of the runs of the heap. *)
Lemma block_run g h q len : heap_core g h -> held g q len ->
  exists r, r ∈ page_runs h.(pages) /\ r.1 + 8 <= q /\ q + len <= r.1 + r.2 * PAGE_SIZE /\ 0 < len /\ q mod 8 = 0.
Proof.
  intros HC [(i & c & a & Ho & Ha & _ & -> & ->)|(b & n & Hl & -> & ->)].
  - destruct (hc_slab g h HC i c Ho) as (Hc & _). destruct (slot_bounds _ _ _ Hc Ha) as (H1 & H2 & H3).
    destruct (cache_layout c Hc) as (Ho' & Hs & _). pose proof (owner_run g h i c HC Ho) as Hr.
    exists (g.(base_of) i, 1). destruct (page_runs_range _ _ (hc_pages g h HC) Hr) as (_ & _ & _ & Hm%page_mod8).
    simpl in *. split; [done|]. split; [lia|]. split; [lia|]. split; [lia|].
    replace (a + 16) with (a + 2 * 8) by lia. by rewrite Z.mod_add, H3 by lia.
  - destruct (hc_large g h HC b n Hl) as (Hr & _). exists (b, n).
    destruct (page_runs_range _ _ (hc_pages g h HC) Hr) as (_ & _ & Hn & Hm%page_mod8). simpl in *.
    split; [done|]. split; [lia|]. split; [lia|]. split; [unfold PAGE_SIZE; lia|].
    replace (b + 8) with (b + 1 * 8) by lia. by rewrite Z.mod_add, Hm by lia.
Qed.

(** Blocks of one slab's page, and of different runs. *)
Lemma blocks_apart g h q len q' len' : heap_core g h -> held g q len -> held g q' len' -> (q, len) <> (q', len') ->
  q + len <= q' \/ q' + len' <= q.
Proof.
  intros HC B B' Hne.
  assert (Hruns : forall r r', r ∈ page_runs h.(pages) -> r' ∈ page_runs h.(pages) -> r <> r' ->
    r.1 <= q -> q + len <= r.1 + r.2 * PAGE_SIZE -> r'.1 <= q' -> q' + len' <= r'.1 + r'.2 * PAGE_SIZE ->
    q + len <= q' \/ q' + len' <= q).
  { intros r r' Hr Hr' Hd H1 H2 H3 H4. destruct (runs_differ_apart _ _ _ (hc_pages g h HC) Hr Hr' Hd); [left|right]; lia. }
  assert (Hslab : forall i c a, g.(owner) i = Some c -> is_slot (g.(base_of) i) c a ->
    is_cache c /\ g.(base_of) i <= a + 16 /\ a + 16 + osize c <= g.(base_of) i + 1 * PAGE_SIZE).
  { intros i c a Ho Ha. destruct (hc_slab g h HC i c Ho) as (Hc & _). destruct (slot_bounds _ _ _ Hc Ha) as (H1 & H2 & _).
    destruct (cache_layout c Hc) as (Ho' & Hs & _). split; [done|]. lia. }
  destruct B as [(i & c & a & Ho & Ha & _ & -> & ->)|(b & n & Hl & -> & ->)], B' as [(j & c' & a' & Ho' & Ha' & _ & -> & ->)|(b' & n' & Hl' & -> & ->)].
  - destruct (Hslab _ _ _ Ho Ha) as (Hc & H1 & H2). destruct (Hslab _ _ _ Ho' Ha') as (Hc' & H3 & H4).
    destruct (decide (i = j)) as [<-|Hij].
    + rewrite Ho in Ho'. injection Ho' as <-. destruct (cache_layout c Hc) as (_ & Hs & _).
      destruct (slot_apart _ _ _ _ Hc Ha Ha') as [|]; [intros ->; congruence|lia|lia].
    + apply (Hruns (g.(base_of) i, 1) (g.(base_of) j, 1)); simpl; try lia; [by eapply owner_run..|].
      intros [= E]. by apply Hij, (hc_bases g h HC i j c c').
  - destruct (Hslab _ _ _ Ho Ha) as (Hc & H1 & H2). destruct (hc_large g h HC _ _ Hl') as (Hr & _).
    apply (Hruns (g.(base_of) i, 1) (b', n')); simpl; try lia; [by eapply owner_run|done|].
    intros [= E _]. by apply (hc_large_bases g h HC b' n' i c Hl' Ho).
  - destruct (Hslab _ _ _ Ho' Ha') as (Hc & H1 & H2). destruct (hc_large g h HC _ _ Hl) as (Hr & _).
    apply (Hruns (b, n) (g.(base_of) j, 1)); simpl; try lia; [done|by eapply owner_run|].
    intros [= E _]. by apply (hc_large_bases g h HC b n j c' Hl Ho').
  - destruct (hc_large g h HC _ _ Hl) as (Hr & _). destruct (hc_large g h HC _ _ Hl') as (Hr' & _).
    apply (Hruns (b, n) (b', n')); simpl; try lia; [done|done|]. intros [= -> ->]. congruence.
Qed.

(** No block holds a byte of a header. *)
Lemma slot_header_apart g h i c a q len : heap_core g h -> g.(owner) i = Some c -> is_slot (g.(base_of) i) c a -> held g q len ->
  a + 16 <= q \/ q + len <= a.
Proof.
  intros HC Ho Ha B. destruct (hc_slab g h HC i c Ho) as (Hc & _). destruct (slot_bounds _ _ _ Hc Ha) as (H1 & H2 & _).
  destruct (cache_layout c Hc) as (Ho' & Hs & _). pose proof (owner_run g h i c HC Ho) as Hr.
  destruct B as [(j & c' & a' & Hj & Ha' & _ & -> & ->)|(b & n & Hl & -> & ->)].
  - destruct (hc_slab g h HC j c' Hj) as (Hc' & _). destruct (slot_bounds _ _ _ Hc' Ha') as (H3 & H4 & _).
    destruct (cache_layout c' Hc') as (Ho'' & Hs' & _). destruct (decide (i = j)) as [<-|Hij].
    + rewrite Ho in Hj. injection Hj as <-. destruct (decide (a = a')) as [->|Hne]; [lia|].
      destruct (slot_apart _ _ _ _ Hc Ha Ha' Hne); lia.
    + assert (Hd : (g.(base_of) i, 1) <> (g.(base_of) j, 1)) by (intros [= E]; by apply Hij, (hc_bases g h HC i j c c')).
      destruct (runs_differ_apart _ _ _ (hc_pages g h HC) Hr (owner_run g h j c' HC Hj) Hd); simpl in *; lia.
  - destruct (hc_large g h HC _ _ Hl) as (Hr' & _).
    assert (Hd : (g.(base_of) i, 1) <> (b, n)) by (intros [= E _]; by apply (hc_large_bases g h HC b n i c Hl Ho)).
    destruct (runs_differ_apart _ _ _ (hc_pages g h HC) Hr Hr' Hd); simpl in *; lia.
Qed.

Lemma large_header_apart g h b n q len : heap_core g h -> (b, n) ∈ g.(large) -> held g q len -> b + 8 <= q \/ q + len <= b.
Proof.
  intros HC Hl B. destruct (hc_large g h HC _ _ Hl) as (Hr & _).
  destruct (page_runs_range _ _ (hc_pages g h HC) Hr) as (_ & _ & Hn & _). simpl in Hn.
  destruct B as [(j & c' & a' & Hj & Ha' & _ & -> & ->)|(b' & n' & Hl' & -> & ->)].
  - destruct (hc_slab g h HC j c' Hj) as (Hc' & _). destruct (slot_bounds _ _ _ Hc' Ha') as (H3 & H4 & _).
    destruct (cache_layout c' Hc') as (Ho'' & Hs' & _).
    assert (Hd : (b, n) <> (g.(base_of) j, 1)) by (intros [= E _]; by apply (hc_large_bases g h HC b n j c' Hl Hj)).
    destruct (runs_differ_apart _ _ _ (hc_pages g h HC) Hr (owner_run g h j c' HC Hj) Hd); unfold PAGE_SIZE in *; simpl in *; lia.
  - destruct (decide ((b, n) = (b', n'))) as [[= -> ->]|Hd]; [lia|]. destruct (hc_large g h HC _ _ Hl') as (Hr' & _).
    destruct (page_runs_range _ _ (hc_pages g h HC) Hr') as (_ & _ & Hn' & _). simpl in Hn'.
    destruct (runs_differ_apart _ _ _ (hc_pages g h HC) Hr Hr' Hd); unfold PAGE_SIZE in *; simpl in *; lia.
Qed.

Lemma page_run_has b v : b <= v < b + PAGE_SIZE -> run_has (b, 1) v.
Proof. unfold run_has. simpl. lia. Qed.

(** *** Changes of memory *)

(** The header words of the slab's page are the same. *)
Lemma slab_ok_words p p' i c r F :
  slab_ok p i c r F -> (r.(page_base), 1) ∈ page_runs p' ->
  (forall a o, is_slot r.(page_base) c a -> o ∈ [0; 4; 8] -> read_u32 (page_byte p') (a + o) = read_u32 (page_byte p) (a + o)) ->
  slab_ok p' i c r F.
Proof.
  intros [] Hr Hw. split; try done.
  - eapply free_chain_same; [|done]. intros a Ha. apply Hw; [auto|set_solver].
  - intros a Ha. rewrite <- (Z.add_0_r a) at 1. rewrite !Hw by (done || set_solver). rewrite Z.add_0_r. auto.
Qed.

(** Memory changes that keep the runs of the heap and all its headers. *)
Lemma core_pages g h p' :
  heap_core g h -> page_ok p' ->
  (forall i c, g.(owner) i = Some c -> (g.(base_of) i, 1) ∈ page_runs p' /\
     forall a o, is_slot (g.(base_of) i) c a -> o ∈ [0; 4; 8] ->
       read_u32 (page_byte p') (a + o) = read_u32 (page_byte h.(pages)) (a + o)) ->
  (forall b n, (b, n) ∈ g.(large) -> (b, n) ∈ page_runs p' /\
     forall o, o ∈ [0; 4] -> read_u32 (page_byte p') (b + o) = read_u32 (page_byte h.(pages)) (b + o)) ->
  heap_core g (set_pages p' h).
Proof.
  intros HC Hok Hs Hl. destruct HC. split; try done.
  - intros i c Ho. destruct (hc_slab0 i c Ho) as (Hc & Hi & r & Hr & Hb & S). split; [done|]. split; [done|].
    exists r. split; [done|]. split; [done|]. destruct (Hs i c Ho) as [H1 H2]. rewrite <- Hb in H1, H2. by eapply slab_ok_words.
  - intros b n Hbn. destruct (hc_large0 b n Hbn) as (_ & H1 & H2). destruct (Hl b n Hbn) as [H3 H4]. split; [done|].
    pose proof (H4 0 ltac:(set_solver)) as H5. rewrite Z.add_0_r in H5. simpl. rewrite H5, H1. split; [done|]. rewrite (H4 4) by set_solver. done.
Qed.

Lemma slot_word g h i c a o : heap_core g h -> g.(owner) i = Some c -> is_slot (g.(base_of) i) c a -> 0 <= o <= 12 ->
  bytes_in h.(pages) (a + o) 4.
Proof.
  intros HC Ho Ha Hn. destruct (hc_slab g h HC i c Ho) as (Hc & _). destruct (slot_bounds _ _ _ Hc Ha) as (H1 & H2 & _).
  destruct (cache_layout c Hc) as (Ho' & Hs & _). exists (g.(base_of) i, 1). split; [by eapply owner_run|]. simpl. lia.
Qed.

Lemma large_word g h b n o : heap_core g h -> (b, n) ∈ g.(large) -> 0 <= o <= 4 -> bytes_in h.(pages) (b + o) 4.
Proof.
  intros HC Hl Ho. destruct (hc_large g h HC _ _ Hl) as (Hr & _). exists (b, n). split; [done|].
  destruct (page_runs_range _ _ (hc_pages g h HC) Hr) as (_ & _ & Hn & _). simpl in *. unfold PAGE_SIZE. lia.
Qed.

Lemma word_offsets o : o ∈ [0; 4; 8] -> 0 <= o <= 8.
Proof. set_unfold. lia. Qed.
Lemma large_offsets o : o ∈ [0; 4] -> 0 <= o <= 4.
Proof. set_unfold. lia. Qed.

(** A write inside a block keeps the heap in order. *)
Lemma core_write g h p' n v x q len :
  heap_core g h -> held g q len -> q <= v -> v + n <= q + len -> written h.(pages) p' n v x -> heap_core g (set_pages p' h).
Proof.
  intros HC B H1 H2 W. pose proof (wr_runs _ _ _ _ _ W) as Hr. apply core_pages; [done|apply W| |].
  - intros i c Ho. rewrite Hr. split; [by eapply owner_run|]. intros a o Ha Hoff%word_offsets.
    eapply written_other; [done|eapply slot_word; [done|done|done|lia]|].
    destruct (slot_header_apart g h i c a q len HC Ho Ha B); lia.
  - intros b m Hl. rewrite Hr. split; [by apply (hc_large g h HC)|]. intros o Hoff%large_offsets.
    eapply written_other; [done|by eapply large_word|]. destruct (large_header_apart g h b m q len HC Hl B); lia.
Qed.
End Inv.
