(* ===== verification/HeapOps.v ===== *)
(** The heap's internal operations and its invariant: lists, slabs, objects. *)
From S2P Require Import Prelude PagingData Heap HeapFacts HeapInv.
From Stdlib Require Import ZArith Lia.
From stdpp Require Import sets.
Open Scope Z_scope.

Section Ops.
Context {P : Type} `{PageStore P} (slab_pool_addr : Z).
Implicit Types (p : P) (h : heap (P := P)).
Local Abbreviation heap_core := (heap_core slab_pool_addr).
Local Abbreviation slab_ok := (slab_ok slab_pool_addr).

(** ** Lists *)

Definition with_list (g : ghost) (c : Z) (k : slab_list) (l : list Z) : ghost :=
  mk_ghost g.(owner) g.(base_of) g.(free_of) (fun c' k' => if decide ((c', k') = (c, k)) then l else g.(lists) c' k') g.(unused) g.(large).

Lemma with_list_same g c k l : (with_list g c k l).(lists) c k = l.
Proof. simpl. by rewrite decide_True. Qed.
Lemma with_list_other g c k l c' k' : (c', k') <> (c, k) -> (with_list g c k l).(lists) c' k' = g.(lists) c' k'.
Proof. intros Hne. simpl. by rewrite decide_False. Qed.

(** What list operations leave alone. *)
Definition same_memory h h' : Prop := h'.(pages) = h.(pages).

Lemma core_relisted g h h' c k l' :
  heap_core g h -> is_cache c -> relisted c k h h' -> cache_list h' c k l' ->
  (forall c' k', is_cache c' -> (c', k') <> (c, k) -> cache_list h' c' k' (g.(lists) c' k')) ->
  linked h'.(slab_metadata_pool) h'.(slab_metadata_free_list) g.(unused) ->
  NoDup l' -> (forall i, i ∈ l' -> g.(owner) i = Some c) -> (forall i k', i ∈ l' -> k' <> k -> i ∉ g.(lists) c k') ->
  heap_core (with_list g c k l') h'.
Proof.
  intros HC Hc [Hd [v Hca] Hfr Hre Hpa] Hl Hothers Hun Hnd Hown Honce. destruct HC. split; simpl.
  - congruence.
  - congruence.
  - by rewrite (same_data_length _ _ Hd).
  - intros c' Hc'. destruct (hc_sizes c' Hc') as (kc & Hkc & H1 & H2). rewrite Hca.
    destruct (decide (Z.to_nat c = Z.to_nat c')) as [E|E].
    + exists (set_list_head k v kc). rewrite E, list_lookup_alter_eq, Hkc. split; [done|]. by destruct k.
    + exists kc. by rewrite list_lookup_alter_ne.
  - intros c' k' Hc'. destruct (decide _) as [[= -> ->]|Hne]; [done|by apply Hothers].
  - done.
  - intros c' k' Hc'. destruct (decide _); auto.
  - done.
  - intros c' k' i Hc'. destruct (decide _) as [[= -> ->]|]; eauto.
  - intros c' k1 k2 i Hc' H1 H2. destruct (decide (c' = c)) as [->|Hne].
    + destruct (decide (k1 = k)) as [->|N1], (decide (k2 = k)) as [->|N2]; [done| | |].
      * rewrite decide_True in H1 by done. rewrite decide_False in H2 by congruence. by destruct (Honce i k2 H1 N2).
      * rewrite decide_True in H2 by done. rewrite decide_False in H1 by congruence. by destruct (Honce i k1 H2 N1).
      * rewrite decide_False in H1 by congruence. rewrite decide_False in H2 by congruence. by eapply hc_once.
    + rewrite decide_False in H1 by congruence. rewrite decide_False in H2 by congruence. by eapply hc_once.
  - done.
  - intros i c' Ho. destruct (hc_slab i c' Ho) as (Hc' & Hi & r & Hr & Hb & S). split; [done|]. split; [done|].
    destruct (same_data_lookup _ _ _ _ Hd Hr) as [w Hw]. exists (set_next w r). split; [done|]. split; [done|].
    rewrite Hpa. by apply slab_ok_next.
  - done.
  - rewrite Hpa. done.
  - done.
Qed.

Lemma core_remove g h c k s l1 l2 :
  heap_core g h -> is_cache c -> g.(lists) c k = l1 ++ s :: l2 ->
  wp (slab_list_remove c k s) (fun _ h' => heap_core (with_list g c k (l1 ++ l2)) h' /\ same_memory h h') h.
Proof.
  intros HC Hc E. pose proof (hc_nodup _ g h HC c k Hc) as Hnd. pose proof (hc_lists _ g h HC c k Hc) as Hl. rewrite E in Hnd, Hl.
  eapply wp_mono; [apply (slab_remove_spec c k s l1 l2); [apply Hc|apply HC|done|done]|].
  intros [] h' (R & Hl' & Hother & Hun). split; [|apply R].
  assert (Hsub : forall i, i ∈ l1 ++ l2 -> i ∈ g.(lists) c k) by (intros i Hi; rewrite E; set_solver).
  apply (core_relisted g h); [done|done|done|done| | | | |].
  - intros c' k' Hc' Hne. apply Hother; [apply Hc'|done| |by apply HC]. intros x Hx Hx'. rewrite <- E in Hx'.
    pose proof (hc_listed _ g h HC c' k' x Hc' Hx) as O1. pose proof (hc_listed _ g h HC c k x Hc Hx') as O2.
    rewrite O1 in O2. injection O2 as ->. pose proof (hc_once _ g h HC c k' k x Hc Hx Hx'). congruence.
  - apply Hun; [|apply HC]. intros x Hx Hx'. rewrite <- E in Hx'. pose proof (hc_spare _ g h HC x Hx).
    pose proof (hc_listed _ g h HC c k x Hc Hx'). congruence.
  - apply NoDup_app in Hnd as (N1 & N2 & N3). apply NoDup_cons in N3 as [_ N3]. apply NoDup_app. split; [done|]. split; [|done]. set_solver.
  - intros i Hi. by eapply (hc_listed _ g h HC), Hsub.
  - intros i k' Hi Hk Hi'. apply Hk. by eapply (hc_once _ g h HC c k' k i Hc Hi'), Hsub.
Qed.

Lemma core_push g h c k s :
  heap_core g h -> is_cache c -> g.(owner) s = Some c -> (forall k', s ∉ g.(lists) c k') ->
  wp (slab_list_push c k s) (fun _ h' => heap_core (with_list g c k (s :: g.(lists) c k)) h' /\ same_memory h h') h.
Proof.
  intros HC Hc Ho Hn. destruct (hc_slab _ g h HC s c Ho) as (_ & Hs & _). rewrite <- (hc_pool _ g h HC) in Hs.
  eapply wp_mono; [apply (slab_push_spec c k s (g.(lists) c k)); [apply Hc|done|apply Hn|by apply HC]|].
  intros [] h' (R & Hl' & Hother & Hun). split; [|apply R].
  apply (core_relisted g h); [done|done|done|done| | | | |].
  - intros c' k' Hc' Hne. apply Hother; [apply Hc'|done| |by apply HC]. intros Hx.
    pose proof (hc_listed _ g h HC c' k' s Hc' Hx) as O1. rewrite Ho in O1. injection O1 as ->. by apply (Hn k').
  - apply Hun; [|apply HC]. intros Hx. pose proof (hc_spare _ g h HC s Hx). congruence.
  - apply NoDup_cons. split; [apply Hn|by apply HC].
  - intros i [->|Hi]%elem_of_cons; [done|by eapply (hc_listed _ g h HC)].
  - intros i k' [->|Hi]%elem_of_cons Hk; [done|]. intros Hi'. apply Hk. by apply (hc_once _ g h HC c k' k i Hc).
Qed.

(** ** Records *)

Definition with_unused (g : ghost) (u : list Z) : ghost :=
  mk_ghost g.(owner) g.(base_of) g.(free_of) g.(lists) u g.(large).

(** Slab [s] serves cache [c]: its page is [b] and its free objects are [F]. *)
Definition with_slab (g : ghost) (s : Z) (o : option Z) (b : Z) (F : list Z) : ghost :=
  mk_ghost (fun i => if decide (i = s) then o else g.(owner) i) (fun i => if decide (i = s) then b else g.(base_of) i)
    (fun i => if decide (i = s) then F else g.(free_of) i) g.(lists) g.(unused) g.(large).

Lemma not_listed g h s c k : heap_core g h -> is_cache c -> g.(owner) s = None -> s ∉ g.(lists) c k.
Proof. intros HC Hc Ho Hin. pose proof (hc_listed _ g h HC c k s Hc Hin). congruence. Qed.

(** A record that no list holds. *)
Lemma core_alter_spare g h s f :
  heap_core g h -> 0 <= s -> g.(owner) s = None -> s ∉ g.(unused) ->
  heap_core g (set_slab_metadata_pool (alter f (Z.to_nat s) h.(slab_metadata_pool)) h).
Proof.
  intros HC Hs Ho Hu. pose proof (fun c k Hc => not_listed g h s c k HC Hc Ho) as Hn. destruct HC. split; simpl; try done.
  - by rewrite length_alter.
  - intros c k Hc. destruct (hc_lists c k Hc) as (kc & Hkc & Hl). exists kc. split; [done|]. simpl.
    apply linked_alter_other; [done|by apply Hn|done].
  - apply linked_alter_other; done.
  - intros i c Hi. destruct (hc_slab i c Hi) as (Hc & Hb & r & Hr & Hrest). split; [done|]. split; [done|]. exists r.
    rewrite list_lookup_alter_ne; [done|]. intros E. assert (i = s) as -> by lia. congruence.
Qed.

Lemma core_metadata_alloc g h :
  heap_core g h ->
  wp slab_metadata_alloc (fun r h' => same_memory h h' /\ match r with
    | None => h' = h /\ g.(unused) = []
    | Some s => exists u, g.(unused) = s :: u /\ heap_core (with_unused g u) h' /\
        0 <= s < HEAP_MAX_SLABS /\ g.(owner) s = None /\ s ∉ u
    end) h.
Proof.
  intros HC. unfold slab_metadata_alloc, slab_at, slab_update. wp_step. wp_step. pose proof (hc_unused _ g h HC) as Hl.
  destruct h.(slab_metadata_free_list) as [s|] eqn:Ef; [|apply wp_ret; destruct g.(unused); [done|by destruct Hl]].
  destruct g.(unused) as [|s' u] eqn:Eu; [done|]. destruct Hl as ([= <-] & Hs & r & Hr & Hl).
  pose proof (hc_unused_nodup _ g h HC) as Hnd. rewrite Eu in Hnd. apply NoDup_cons in Hnd as [Hsu Hu].
  assert (Ho : g.(owner) s = None) by (apply (hc_spare _ g h HC); rewrite Eu; set_solver).
  assert (Hb : 0 <= s < HEAP_MAX_SLABS) by (rewrite <- (hc_pool _ g h HC); apply lookup_lt_Some in Hr; lia).
  wp_step. wp_step. wp_step. eapply wp_of_option; [exact Hr|]. do 5 wp_step. split; [done|]. exists u. split; [done|]. split; [|done].
  apply (core_alter_spare (with_unused g u) (set_slab_metadata_free_list r.(next) h)); [|done|done|done].
  destruct HC. split; try done; simpl.
  intros i Hi. apply hc_spare. rewrite Eu. set_solver.
Qed.

Lemma core_metadata_free g h s :
  heap_core g h -> 0 <= s < HEAP_MAX_SLABS -> g.(owner) s = None -> s ∉ g.(unused) ->
  wp (slab_metadata_free s) (fun _ h' => heap_core (with_unused g (s :: g.(unused))) h' /\ same_memory h h') h.
Proof.
  intros HC Hs Ho Hu. unfold slab_metadata_free, slab_update. do 5 wp_step. split; [|done].
  assert (HC' := core_alter_spare g h s (set_next h.(slab_metadata_free_list)) HC (proj1 Hs) Ho Hu).
  destruct HC'. split; try done; simpl in *.
  - apply linked_push; [by rewrite (HeapInv.hc_pool _ g h HC)|done|apply HC].
  - by apply NoDup_cons.
  - intros i [->|Hi]%elem_of_cons; auto.
Qed.

(** A slab joins the heap. *)
Lemma core_adopt g h s c r F :
  heap_core g h -> is_cache c -> 0 <= s < HEAP_MAX_SLABS -> g.(owner) s = None -> s ∉ g.(unused) ->
  h.(slab_metadata_pool) !! Z.to_nat s = Some r -> slab_ok h.(pages) s c r F ->
  (forall i c', g.(owner) i = Some c' -> g.(base_of) i <> r.(page_base)) ->
  (forall b n, (b, n) ∈ g.(large) -> b <> r.(page_base)) ->
  heap_core (with_slab g s (Some c) r.(page_base) F) h.
Proof.
  intros HC Hc Hs Ho Hu Hr S Hb Hl. pose proof (fun c k Hc => not_listed g h s c k HC Hc Ho) as Hn. destruct HC.
  split; try done; simpl.
  - intros c' k i Hc' Hi. destruct (decide (i = s)) as [->|]; [by apply Hn in Hi|eauto].
  - intros i Hi. destruct (decide (i = s)) as [->|]; [done|auto].
  - intros i c'. destruct (decide (i = s)) as [->|]; [|auto]. intros [= <-]. split; [done|]. split; [done|]. by exists r.
  - intros i j c1 c2. destruct (decide (i = s)) as [->|], (decide (j = s)) as [->|]; [done| | |by apply hc_bases].
    + intros _ H2 E. by apply Hb in H2.
    + intros H1 _ E. by apply Hb in H1.
  - intros b n i c' Hbn. destruct (decide (i = s)) as [->|]; [|by apply (hc_large_bases b n)]. intros _ E. by apply (Hl b n).
Qed.

(** A slab leaves the heap. *)
Lemma core_disown g h s :
  heap_core g h -> (forall c k, is_cache c -> s ∉ g.(lists) c k) -> heap_core (with_slab g s None 0 []) h.
Proof.
  intros HC Hn. destruct HC. split; try done; simpl.
  - intros c' k i Hc' Hi. destruct (decide (i = s)) as [->|]; [by apply Hn in Hi|eauto].
  - intros i Hi. destruct (decide (i = s)); auto.
  - intros i c'. destruct (decide (i = s)) as [->|]; [done|auto].
  - intros i j c1 c2. destruct (decide (i = s)), (decide (j = s)); try done. by apply hc_bases.
  - intros b n i c' Hbn. destruct (decide (i = s)); [done|]. by apply (hc_large_bases b n).
Qed.

(** ** Memory *)

(** [p'] differs from [p] only in the [n] bytes at [lo]. *)
Record changed_only p p' (lo n : Z) : Prop := {
  co_ok : page_ok p';
  co_runs : page_runs p' = page_runs p;
  co_bytes w : in_runs (page_runs p) w -> w < lo \/ lo + n <= w -> page_byte p' w = page_byte p w
}.

Lemma changed_refl p lo n : page_ok p -> changed_only p p lo n.
Proof. intros Hok. by split. Qed.

Lemma changed_trans p1 p2 p3 lo n : changed_only p1 p2 lo n -> changed_only p2 p3 lo n -> changed_only p1 p3 lo n.
Proof. intros [O1 R1 B1] [O2 R2 B2]. split; [done|congruence|]. intros w Hw Ha. rewrite B2, B1 by (done || congruence). done. Qed.

Lemma changed_sub p p' lo n lo' n' : changed_only p p' lo n -> lo' <= lo -> lo + n <= lo' + n' -> changed_only p p' lo' n'.
Proof. intros [O R B] H1 H2. split; [done|done|]. intros w Hw Ha. apply B; [done|lia]. Qed.

Lemma written_changed p p' n v x : written p p' n v x -> changed_only p p' v n.
Proof. intros W. split; [apply W|apply W|]. intros w Hw Ha. by eapply written_byte. Qed.

Lemma changed_word p p' lo n w : changed_only p p' lo n -> bytes_in p w 4 -> w + 4 <= lo \/ lo + n <= w ->
  read_u32 (page_byte p') w = read_u32 (page_byte p) w.
Proof.
  intros [_ _ B] Hb Ha. unfold read_u32, read_u16, read_u8. by rewrite !B by (lia || (eapply bytes_in_runs; [done|lia])).
Qed.

(** The run [r] is none of the heap's. *)
Definition foreign (g : ghost) (b : Z) : Prop :=
  (forall i c, g.(owner) i = Some c -> g.(base_of) i <> b) /\ (forall b' n, (b', n) ∈ g.(large) -> b' <> b).

(** Bytes of such a run do not matter to the heap. *)
Lemma core_foreign g h p' b n lo m :
  heap_core g h -> (b, n) ∈ page_runs h.(pages) -> foreign g b -> changed_only h.(pages) p' lo m ->
  b <= lo -> lo + m <= b + n * PAGE_SIZE -> heap_core g (set_pages p' h).
Proof.
  intros HC Hr [F1 F2] Hch H1 H2. pose proof (co_runs _ _ _ _ Hch) as Hruns.
  assert (Hap : forall r, r ∈ page_runs h.(pages) -> r.1 <> b -> forall w, r.1 <= w -> w + 4 <= r.1 + r.2 * PAGE_SIZE -> w + 4 <= lo \/ lo + m <= w).
  { intros r Hr' Hne w Hw1 Hw2. assert (Hd : r <> (b, n)) by (intros ->; done).
    destruct (runs_differ_apart _ _ _ (hc_pages _ g h HC) Hr' Hr Hd); simpl in *; [left|right]; lia. }
  apply core_pages; [done|apply Hch| |].
  - intros i c Ho. rewrite Hruns. pose proof (owner_run _ g h i c HC Ho) as Hri. split; [done|]. intros a o Ha Hoff%word_offsets.
    destruct (hc_slab _ g h HC i c Ho) as (Hc & _). destruct (slot_bounds _ _ _ Hc Ha) as (S1 & S2 & _). destruct (cache_layout c Hc) as (? & ? & _).
    eapply changed_word; [done|eapply slot_word; [done|done|done|lia]|]. apply (Hap _ Hri); [by eapply F1|simpl; lia|simpl; lia].
  - intros b' n' Hl. rewrite Hruns. destruct (hc_large _ g h HC b' n' Hl) as (Hrl & _). split; [done|]. intros o Hoff%large_offsets.
    destruct (page_runs_range _ _ (hc_pages _ g h HC) Hrl) as (_ & _ & Hn & _). simpl in Hn.
    eapply changed_word; [done|by eapply large_word|]. apply (Hap _ Hrl); [by eapply F2|simpl; lia|simpl; unfold PAGE_SIZE; lia].
Qed.

(** Blocks keep their contents under such changes. *)
Lemma foreign_block g h p' b n lo m q len x :
  heap_core g h -> (b, n) ∈ page_runs h.(pages) -> foreign g b -> changed_only h.(pages) p' lo m ->
  b <= lo -> lo + m <= b + n * PAGE_SIZE -> held g q len -> q <= x < q + len -> page_byte p' x = page_byte h.(pages) x.
Proof.
  intros HC Hr [F1 F2] Hch H1 H2 B Hx.
  assert (Hap : forall r, r ∈ page_runs h.(pages) -> r.1 <> b -> run_has r x -> page_byte p' x = page_byte h.(pages) x).
  { intros r Hr' Hne Hrx. apply (co_bytes _ _ _ _ Hch); [by exists r|]. assert (Hd : r <> (b, n)) by (intros ->; done).
    destruct (runs_differ_apart _ _ _ (hc_pages _ g h HC) Hr' Hr Hd); unfold run_has in *; simpl in *; lia. }
  destruct B as [(i & c & a & Ho & Ha & _ & -> & ->)|(b' & n' & Hl & -> & ->)].
  - destruct (hc_slab _ g h HC i c Ho) as (Hc & _). destruct (slot_bounds _ _ _ Hc Ha) as (S1 & S2 & _). destruct (cache_layout c Hc) as (? & ? & _).
    apply (Hap (g.(base_of) i, 1)); [by eapply owner_run|by eapply F1|]. apply page_run_has. lia.
  - destruct (hc_large _ g h HC b' n' Hl) as (Hrl & _). apply (Hap (b', n')); [done|by eapply F2|]. unfold run_has. simpl. lia.
Qed.
End Ops.
