(* ===== verification/HeapSlab.v ===== *)
(** Slabs: creating and destroying them, taking and returning objects. *)
From S2P Require Import Prelude PagingData Heap HeapFacts HeapInv HeapOps.
From Stdlib Require Import ZArith Lia.
From stdpp Require Import sets.
Open Scope Z_scope.

Lemma run_fits {P} `{PageStore P} (p : P) b n v : page_ok p -> (b, n) ∈ page_runs p -> b <= v <= b + n * PAGE_SIZE -> fits 32 v /\ 0 < v.
Proof.
  intros Hok Hr Hv. destruct (page_runs_range p _ Hok Hr) as (H1 & H2 & _). simpl in *.
  unfold KERNEL_DYNAMIC_BASE, KERNEL_DYNAMIC_LIMIT in *. word_lia.
Qed.

Section Slab.
Context {P : Type} `{PageStore P} (slab_pool_addr : Z).
(** The pool of records is somewhere in the address space. *)
Context (Hpool : 0 < slab_pool_addr /\ slab_pool_addr + sizeof_slab * HEAP_MAX_SLABS <= 2 ^ 32).
Implicit Types (p : P) (h : heap (P := P)).
Local Abbreviation heap_core := (heap_core slab_pool_addr).
Local Abbreviation slab_ok := (slab_ok slab_pool_addr).
Local Abbreviation slab_pointer := (slab_pointer slab_pool_addr).

Lemma slab_pointer_fits i : 0 <= i < HEAP_MAX_SLABS -> fits 32 (slab_pointer i) /\ slab_pointer i <> 0.
Proof. unfold Heap.slab_pointer, sizeof_slab, HEAP_MAX_SLABS, fits in *. lia. Qed.

Lemma slab_of_slab_pointer i : 0 <= i < HEAP_MAX_SLABS -> slab_of_pointer slab_pool_addr (slab_pointer i) = Some i.
Proof.
  intros Hi. unfold slab_of_pointer, Heap.slab_pointer, sizeof_slab, HEAP_MAX_SLABS in *.
  replace ((slab_pool_addr + 20 * i - slab_pool_addr) / 20) with i.
  - by replace ((_ =? _) && _ && _) with true by lia.
  - replace (slab_pool_addr + 20 * i - slab_pool_addr) with (i * 20) by lia. by rewrite Z.div_mul.
Qed.

Lemma magic_fits : fits 32 HEAP_SLAB_MAGIC /\ fits 32 HEAP_LARGE_MAGIC.
Proof. unfold fits, HEAP_SLAB_MAGIC, HEAP_LARGE_MAGIC. lia. Qed.

(** ** A new object *)

Lemma add_object_spec g h s r b a :
  heap_core g h -> 0 <= s < HEAP_MAX_SLABS -> g.(owner) s = None -> s ∉ g.(unused) ->
  h.(slab_metadata_pool) !! Z.to_nat s = Some r -> fits 32 r.(free_list) ->
  (b, 1) ∈ page_runs h.(pages) -> foreign g b -> b <= a -> a + 16 <= b + PAGE_SIZE ->
  wp (slab_add_object slab_pool_addr s a) (fun _ h' => heap_core g h' /\ changed_only h.(pages) h'.(pages) a 16 /\
    h'.(slab_metadata_pool) !! Z.to_nat s = Some (set_free_list a r) /\
    read_u32 (page_byte h'.(pages)) a = HEAP_SLAB_MAGIC /\ read_u32 (page_byte h'.(pages)) (a + 4) = slab_pointer s /\
    read_u32 (page_byte h'.(pages)) (a + 8) = r.(free_list)) h.
Proof.
  intros HC Hs Ho Hu Hr Hfl Hb Hfor H1 H2. unfold slab_add_object. pose proof (hc_pages _ g h HC) as Hok.
  assert (Hu32 : forall o, 0 <= o <= 12 -> u32 (a + o) = a + o).
  { intros o Hoff. apply wrap_small. apply (run_fits _ b 1 (a + o) Hok Hb). lia. }
  assert (Hin : forall p o, page_runs p = page_runs h.(pages) -> 0 <= o <= 12 -> bytes_in p (a + o) 4).
  { intros p o E Hoff. exists (b, 1). rewrite E. split; [done|]. simpl. lia. }
  assert (Hin0 : bytes_in h.(pages) a 4) by (rewrite <- (Z.add_0_r a); apply Hin; [done|lia]).
  rewrite !Hu32 by lia. destruct magic_fits as [Hmf _]. destruct (slab_pointer_fits s Hs) as [Hpf _].
  destruct (store32_done a HEAP_SLAB_MAGIC h Hok Hin0) as (p1 & R1 & W1). wp_step. eapply Done_wp; [exact R1|].
  assert (E1 := wr_runs _ _ _ _ _ W1).
  destruct (store32_done (a + 4) (slab_pointer s) (set_pages p1 h) (wr_ok _ _ _ _ _ W1) (Hin p1 4 E1 ltac:(lia))) as (p2 & R2 & W2).
  wp_step. eapply Done_wp; [exact R2|]. simpl in W2. assert (E2 : page_runs p2 = page_runs h.(pages)) by (rewrite (wr_runs _ _ _ _ _ W2); done).
  destruct (store32_done (a + 12) 0 (set_pages p2 h) (wr_ok _ _ _ _ _ W2) (Hin p2 12 E2 ltac:(lia))) as (p3 & R3 & W3).
  wp_step. eapply Done_wp; [exact R3|]. simpl in W3. assert (E3 : page_runs p3 = page_runs h.(pages)) by (rewrite (wr_runs _ _ _ _ _ W3); done).
  unfold slab_at. wp_step. wp_step. wp_step. eapply wp_of_option; [exact Hr|].
  destruct (store32_done (a + 8) r.(free_list) (set_pages p3 h) (wr_ok _ _ _ _ _ W3) (Hin p3 8 E3 ltac:(lia))) as (p4 & R4 & W4).
  wp_step. eapply Done_wp; [exact R4|]. simpl in W4. unfold slab_update. wp_step.
  assert (Hch : changed_only h.(pages) p4 a 16).
  { eapply changed_trans; [eapply changed_sub; [by eapply written_changed|lia|lia]|].
    eapply changed_trans; [eapply changed_sub; [by eapply written_changed|lia|lia]|].
    eapply changed_trans; [eapply changed_sub; [by eapply written_changed|lia|lia]|].
    eapply changed_sub; [by eapply written_changed|lia|lia]. }
  split; [|split; [done|split; [|split; [|split]]]].
  - apply (core_alter_spare _ g (set_pages p4 h)); [|lia|done|done]. eapply core_foreign; [done|done|done|done|lia|lia].
  - simpl. by rewrite list_lookup_alter_eq, Hr.
  - simpl. rewrite (written_other _ _ _ _ _ a W4), (written_other _ _ _ _ _ a W3), (written_other _ _ _ _ _ a W2) by
      (lia || (rewrite <- (Z.add_0_r a); apply Hin; [done|lia])). by apply (written_same _ _ _ _ W1).
  - simpl. rewrite (written_other _ _ _ _ _ (a + 4) W4), (written_other _ _ _ _ _ (a + 4) W3) by (lia || (apply Hin; [done|lia])).
    apply (written_same _ _ _ _ W2); [apply Hin; [done|lia]|done].
  - simpl. apply (written_same _ _ _ _ W4); [apply Hin; [done|lia]|done].
Qed.

(** The first [j] objects of a page, the last one first. *)
Definition objects (b c j : Z) : list Z := reverse ((fun i => b + i * slot c) <$> seqZ 0 j).

Lemma objects_succ b c j : 0 <= j -> objects b c (j + 1) = (b + j * slot c) :: objects b c j.
Proof.
  intros Hj. unfold objects. rewrite seqZ_app by lia. simpl. rewrite fmap_app, reverse_app. simpl. by rewrite Z.add_0_l.
Qed.

Lemma objects_elem b c j a : a ∈ objects b c j <-> exists i, 0 <= i < j /\ a = b + i * slot c.
Proof.
  unfold objects. rewrite elem_of_reverse, list_elem_of_fmap. split.
  - intros (i & -> & Hi%elem_of_seqZ). exists i. split; [lia|done].
  - intros (i & Hi & ->). exists i. split; [done|]. apply elem_of_seqZ. lia.
Qed.

Lemma objects_nodup b c j : is_cache c -> NoDup (objects b c j).
Proof.
  intros Hc. unfold objects. rewrite reverse_Permutation. apply NoDup_fmap_2; [|apply NoDup_seqZ].
  intros x y E. destruct (cache_layout c Hc) as (? & ? & _). nia.
Qed.

Lemma objects_length b c j : 0 <= j -> Z.of_nat (length (objects b c j)) = j.
Proof. intros Hj. unfold objects. rewrite length_reverse, length_fmap, length_seqZ. lia. Qed.

Lemma chain_head m head F : free_chain m head F -> head = default 0 (list.head F).
Proof. destruct F; [done|]. by intros [-> _]. Qed.

(** All the objects of a new page. *)
Lemma fill_spec g h s c b :
  heap_core g h -> is_cache c -> 0 <= s < HEAP_MAX_SLABS -> g.(owner) s = None -> s ∉ g.(unused) ->
  h.(slab_metadata_pool) !! Z.to_nat s = Some (mk_slab (Some c) b 0 0 (slots_per_page c) None) ->
  (b, 1) ∈ page_runs h.(pages) -> foreign g b ->
  wp (for_each 0 (slots_per_page c) (fun i => slab_add_object slab_pool_addr s (u32 (b + u32 (i * slot c)))))
    (fun _ h' => heap_core g h' /\ changed_only h.(pages) h'.(pages) b PAGE_SIZE /\ exists r,
       h'.(slab_metadata_pool) !! Z.to_nat s = Some r /\ r.(page_base) = b /\
       slab_ok h'.(pages) s c r (objects b c (slots_per_page c))) h.
Proof.
  intros HC Hc Hs Ho Hu Hr Hb Hfor. destruct (cache_layout c Hc) as (Hos & Hsl & _ & Hn & Hp & _).
  set (n := slots_per_page c) in *. pose proof (hc_pages _ g h HC) as Hok.
  apply (wp_for_each _ _ _ (fun j h' => heap_core g h' /\ changed_only h.(pages) h'.(pages) b PAGE_SIZE /\ exists fl,
    h'.(slab_metadata_pool) !! Z.to_nat s = Some (mk_slab (Some c) b fl 0 n None) /\
    free_chain (page_byte h'.(pages)) fl (objects b c j) /\
    forall i, 0 <= i < j -> read_u32 (page_byte h'.(pages)) (b + i * slot c) = HEAP_SLAB_MAGIC /\
      read_u32 (page_byte h'.(pages)) (b + i * slot c + 4) = slab_pointer s)); [lia| | |].
  - split; [done|]. split; [by apply changed_refl|]. exists 0. split; [done|]. split; [done|]. intros; lia.
  - intros j h1 Hj (HC1 & Hch & fl & Hr1 & Hc1 & Hh1). pose proof (co_runs _ _ _ _ Hch) as Hruns.
    assert (Hjs : (j + 1) * slot c <= n * slot c) by (apply Z.mul_le_mono_nonneg_r; lia).
    assert (Hfa : b + j * slot c + 16 <= b + PAGE_SIZE) by lia.
    assert (Hua : u32 (b + u32 (j * slot c)) = b + j * slot c).
    { rewrite (wrap_small 32 (j * _)) by (unfold PAGE_SIZE in *; word_lia). apply wrap_small, (run_fits _ b 1 _ Hok Hb). lia. }
    rewrite Hua. assert (Hfl : fits 32 fl).
    { rewrite (chain_head _ _ _ Hc1). destruct (objects b c j) as [|a l] eqn:Eo; [unfold fits; simpl; lia|]. simpl.
      assert (Ha : a ∈ objects b c j) by (rewrite Eo; set_solver). apply objects_elem in Ha as (i & Hi & ->).
      assert ((i + 1) * slot c <= n * slot c) by (apply Z.mul_le_mono_nonneg_r; lia). apply (run_fits _ b 1 _ Hok Hb). lia. }
    eapply wp_mono; [eapply (add_object_spec g h1 s _ b (b + j * slot c)); try done; [by rewrite Hruns|lia]|].
    simpl. intros [] h2 (HC2 & Hch2 & Hr2 & M1 & M2 & M3). split; [done|].
    split; [eapply changed_trans; [done|]; eapply changed_sub; [done|lia|unfold PAGE_SIZE in *; lia]|].
    exists (b + j * slot c). split; [done|].
    assert (Hword : forall i o, 0 <= i < j -> 0 <= o <= 8 ->
      read_u32 (page_byte h2.(pages)) (b + i * slot c + o) = read_u32 (page_byte h1.(pages)) (b + i * slot c + o)).
    { intros i o Hi Hoff. eapply changed_word; [done| |left; nia].
      exists (b, 1). rewrite Hruns. split; [done|]. simpl. nia. }
    split.
    + rewrite objects_succ by lia. split; [done|]. rewrite M3. eapply free_chain_same; [|done].
      intros a (i & Hi & ->)%objects_elem. apply Hword; [done|lia].
    + intros i Hi. destruct (Z.eq_dec i j) as [->|Hne]; [done|].
      rewrite <- (Z.add_0_r (b + i * slot c)) at 1. rewrite !Hword by lia. rewrite Z.add_0_r. apply Hh1. lia.
  - intros h1 (HC1 & Hch & fl & Hr1 & Hc1 & Hh1). split; [done|]. split; [done|]. eexists. split; [done|]. split; [done|].
    split; simpl; try done.
    + rewrite (co_runs _ _ _ _ Hch). done.
    + rewrite objects_length by lia. lia.
    + by apply objects_nodup.
    + intros a Ha. by apply objects_elem in Ha.
    + intros a (i & Hi & ->). by apply Hh1.
Qed.

(** ** Pages come and go *)

(** The contents of the blocks that clients hold are the same. *)
Definition held_kept (g : ghost) h h' : Prop :=
  forall q len x, held g q len -> q <= x < q + len -> page_byte h'.(pages) x = page_byte h.(pages) x.

Lemma held_kept_refl g h : held_kept g h h.
Proof. done. Qed.
Lemma held_kept_trans g h1 h2 h3 : held_kept g h1 h2 -> held_kept g h2 h3 -> held_kept g h1 h3.
Proof. intros K1 K2 q len x Hb Hx. rewrite (K2 q len x), (K1 q len x) by done. done. Qed.
Lemma held_kept_memory g h h' : same_memory h h' -> held_kept g h h'.
Proof. intros E q len x _ _. by rewrite E. Qed.
Lemma held_kept_l g h1 h2 h3 : same_memory h1 h2 -> held_kept g h2 h3 -> held_kept g h1 h3.
Proof. intros E K q len x Hb Hx. rewrite (K q len x Hb Hx). by rewrite E. Qed.
Lemma held_kept_r g h1 h2 h3 : held_kept g h1 h2 -> same_memory h2 h3 -> held_kept g h1 h3.
Proof. intros K E q len x Hb Hx. rewrite <- (K q len x Hb Hx). by rewrite E. Qed.

(** The heap's runs are still there, with the same bytes. *)
Lemma core_same g h p' :
  heap_core g h -> page_ok p' ->
  (forall i c, g.(owner) i = Some c -> (g.(base_of) i, 1) ∈ page_runs p') ->
  (forall b n, (b, n) ∈ g.(large) -> (b, n) ∈ page_runs p') ->
  (forall v, in_runs (page_runs h.(pages)) v -> in_runs (page_runs p') v -> page_byte p' v = page_byte h.(pages) v) ->
  heap_core g (set_pages p' h) /\ held_kept g h (set_pages p' h).
Proof.
  intros HC Hok Hs Hl Hb. assert (Hw : forall r w, r ∈ page_runs h.(pages) -> r ∈ page_runs p' -> r.1 <= w -> w + 4 <= r.1 + r.2 * PAGE_SIZE ->
    read_u32 (page_byte p') w = read_u32 (page_byte h.(pages)) w).
  { intros r w R1 R2 H1 H2. unfold read_u32, read_u16, read_u8.
    rewrite !Hb by (exists r; split; [done|unfold run_has; lia]). done. }
  split.
  - apply core_pages; [done|done| |].
    + intros i c Ho. split; [by eapply Hs|]. intros a o Ha Hoff%word_offsets.
      destruct (hc_slab _ g h HC i c Ho) as (Hc & _). destruct (slot_bounds _ _ _ Hc Ha) as (S1 & S2 & _). destruct (cache_layout c Hc) as (? & ? & _).
      apply (Hw (g.(base_of) i, 1)); [by eapply owner_run|by eapply Hs|simpl; lia|simpl; lia].
    + intros b n Hbn. split; [auto|]. intros o Hoff%large_offsets. destruct (hc_large _ g h HC b n Hbn) as (Hr & _).
      destruct (page_runs_range _ _ (hc_pages _ g h HC) Hr) as (_ & _ & Hn & _). simpl in Hn.
      apply (Hw (b, n)); [done|auto|simpl; lia|unfold PAGE_SIZE; simpl; lia].
  - intros q len x B Hx. simpl. assert (Hr : exists r, r ∈ page_runs h.(pages) /\ r ∈ page_runs p' /\ run_has r x); [|destruct Hr as (r & R1 & R2 & R3); apply Hb; by exists r].
    destruct B as [(i & c & a & Ho & Ha & _ & -> & ->)|(b & n & Hbn & -> & ->)].
    + destruct (hc_slab _ g h HC i c Ho) as (Hc & _). destruct (slot_bounds _ _ _ Hc Ha) as (S1 & S2 & _). destruct (cache_layout c Hc) as (? & ? & _).
      exists (g.(base_of) i, 1). split; [by eapply owner_run|]. split; [by eapply Hs|]. apply page_run_has. lia.
    + exists (b, n). split; [by apply (hc_large _ g h HC)|]. split; [auto|]. unfold run_has. simpl. lia.
Qed.

Lemma on_pages_wp {A} (m : M P A) (Q : A -> heap -> Prop) h :
  wp m (fun a p => Q a (set_pages p h)) h.(pages) -> wp (on_pages m) Q h.
Proof. unfold wp, on_pages. by destruct (m h.(pages)). Qed.

(** Paging has no run of [n] pages. *)
Definition no_pages (n : Z) h : Prop := exists p', pages_alloc n h.(pages) = Done None p'.

Lemma core_alloc g h n :
  heap_core g h -> 0 <= n < 2 ^ 32 ->
  wp (on_pages (pages_alloc n)) (fun r h' => heap_core g h' /\ held_kept g h h' /\
    (exists p', h' = set_pages p' h) /\
    match r with
    | Some b => (b, n) ∈ page_runs h'.(pages) /\ foreign g b /\
        (forall r, r ∈ page_runs h.(pages) -> r ∈ page_runs h'.(pages) /\ r.1 <> b)
    | None => no_pages n h
    end) h.
Proof.
  intros HC Hn. apply on_pages_wp. destruct (wp_Done _ _ _ (pages_alloc_spec h.(pages) n (hc_pages _ g h HC) Hn)) as (r & p' & Hrun & Hok & Hb & Hr).
  eapply Done_wp; [exact Hrun|].
  assert (Hsub : forall x, x ∈ page_runs h.(pages) -> x ∈ page_runs p').
  { intros x Hx. destruct r as [b|]; [|by rewrite Hr]. destruct Hr as (l1 & l2 & E1 & E2). rewrite E2. rewrite E1 in Hx. set_solver. }
  destruct (core_same g h p') as [HC' K]; [done|done| | | |].
  - intros i c Ho. by eapply Hsub, owner_run.
  - intros b m Hl. apply Hsub. by apply (hc_large _ g h HC).
  - intros v Hv _. auto.
  - split; [done|]. split; [done|]. split; [by exists p'|]. destruct r as [b|]; [|by exists p']. destruct Hr as (l1 & l2 & E1 & E2). simpl.
    assert (Hin : (b, n) ∈ page_runs p') by (rewrite E2; set_solver).
    assert (Hnew : forall r, r ∈ page_runs h.(pages) -> r.1 <> b).
    { intros r Hr E. destruct (page_runs_range _ _ Hok (Hsub r Hr)) as (_ & _ & Hn1 & _).
      destruct (page_runs_range _ _ Hok Hin) as (_ & _ & Hn2 & _). rewrite E1 in Hr.
      pose proof (page_runs_apart p' l1 (b, n) l2 r Hok E2 Hr) as Ha. unfold runs_apart, PAGE_SIZE in *. simpl in *. lia. }
    split; [done|]. split; [|auto]. split.
    + intros i c Ho E. apply (Hnew (g.(base_of) i, 1)); [by eapply owner_run|done].
    + intros b' m Hl E. apply (Hnew (b', m)); [by apply (hc_large _ g h HC)|done].
Qed.

Lemma core_free g h b n :
  heap_core g h -> (b, n) ∈ page_runs h.(pages) -> foreign g b ->
  wp (on_pages (pages_free b n)) (fun _ h' => heap_core g h' /\ held_kept g h h' /\ exists p', h' = set_pages p' h) h.
Proof.
  intros HC Hr [F1 F2]. apply on_pages_wp. eapply wp_mono; [apply pages_free_spec; [apply HC|done]|].
  intros [] p' (Hok & (l1 & l2 & E1 & E2) & Hb).
  assert (Hsub : forall x, x ∈ page_runs h.(pages) -> x.1 <> b -> x ∈ page_runs p').
  { intros x Hx Hne. rewrite E2. rewrite E1 in Hx. apply elem_of_app in Hx as [Hx|[->|Hx]%elem_of_cons]; [set_solver|done|set_solver]. }
  destruct (core_same g h p') as [HC' K]; [done|done| | | |by split; [|split; [|exists p']]].
  - intros i c Ho. apply Hsub; [by eapply owner_run|by eapply F1].
  - intros b' m Hl. apply Hsub; [by apply (hc_large _ g h HC)|by eapply F2].
  - auto.
Qed.

(** ** Creating a slab *)

Lemma cache_at_done g h c : heap_core g h -> is_cache c ->
  exists kc, cache_at c h = Done kc h /\ kc.(slot_size) = slot c /\ kc.(object_size) = osize c /\
    (forall k, linked h.(slab_metadata_pool) (list_head k kc) (g.(lists) c k)).
Proof.
  intros HC Hc. destruct (hc_sizes _ g h HC c Hc) as (kc & Hkc & H1 & H2). exists kc. unfold cache_at. run. rewrite Hkc.
  split; [done|]. split; [done|]. split; [done|]. intros k. destruct (hc_lists _ g h HC c k Hc) as (kc' & Hkc' & Hl). congruence.
Qed.

Lemma slab_create_spec g h c :
  heap_core g h -> is_cache c ->
  wp (slab_create slab_pool_addr c) (fun r h' => held_kept g h h' /\ match r with
    | None => heap_core g h' /\ (no_pages 1 h \/ g.(unused) = [])
    | Some s => exists u b, g.(unused) = s :: u /\ g.(owner) s = None /\
        heap_core (with_slab (with_unused g u) s (Some c) b (objects b c (slots_per_page c))) h'
    end) h.
Proof.
  intros HC Hc. unfold slab_create. destruct (cache_layout c Hc) as (_ & _ & _ & Hn & _).
  wp_step. eapply wp_mono; [apply (core_alloc g h 1 HC); lia|]. intros [b|] h1 (HC1 & K1 & _ & Hb); [|apply wp_ret; auto].
  destruct Hb as (Hb & Hfor & _). wp_step. eapply wp_mono; [by apply core_metadata_alloc|]. intros [s|] h2 [M2 Hs].
  2: { destruct Hs as [-> Hempty]. wp_step. eapply wp_mono; [by apply core_free|]. intros [] h3 (HC3 & K3 & _). apply wp_ret.
       split; [by eapply held_kept_trans|auto]. }
  destruct Hs as (u & Eu & HC2 & Hs & Ho & Hu). set (g2 := with_unused g u) in *.
  destruct (cache_at_done g2 h2 c HC2 Hc) as (kc & Hkc & Hss & _). wp_step. eapply Done_wp; [exact Hkc|]. rewrite Hss.
  fold (slots_per_page c). replace (slots_per_page c =? 0) with false by lia. rewrite (wrap_small 16) by (unfold fits; lia).
  unfold slab_update. wp_step. wp_step.
  set (h3 := set_slab_metadata_pool _ h2).
  assert (HC3 : heap_core g2 h3) by (apply core_alter_spare; [done|lia|done|done]).
  assert (Hr3 : h3.(slab_metadata_pool) !! Z.to_nat s = Some (mk_slab (Some c) b 0 0 (slots_per_page c) None)).
  { simpl. rewrite list_lookup_alter_eq. destruct (lookup_lt_is_Some_2 h2.(slab_metadata_pool) (Z.to_nat s)) as [r ->]; [|done].
    pose proof (hc_pool _ g2 h2 HC2). lia. }
  assert (Hm3 : h3.(pages) = h1.(pages)) by exact M2.
  wp_step. eapply wp_mono; [apply (fill_spec g2 h3 s c b); try done; by rewrite Hm3|].
  intros [] h4 (HC4 & Hch & r & Hr & Hbase & S). apply wp_ret. split.
  - intros q len x B Hx. rewrite <- (K1 q len x B Hx), <- Hm3.
    apply (foreign_block slab_pool_addr g2 h3 h4.(pages) b 1 b PAGE_SIZE q len); try done; by rewrite Hm3.
  - exists u, b. split; [done|]. split; [done|]. rewrite <- Hbase. apply (core_adopt slab_pool_addr g2 h4 s c r); try done.
    + by rewrite Hbase.
    + intros i c' Hi. rewrite Hbase. exact (proj1 Hfor i c' Hi).
    + intros b' m Hl. rewrite Hbase. exact (proj2 Hfor b' m Hl).
Qed.

(** ** A slab to allocate from *)

(** [g'] has the same blocks as [g]. *)
Definition same_held (g g' : ghost) : Prop := forall q len, held g' q len <-> held g q len.

Lemma same_held_list g c k l : same_held g (with_list g c k l).
Proof. done. Qed.
Lemma same_held_trans g1 g2 g3 : same_held g1 g2 -> same_held g2 g3 -> same_held g1 g3.
Proof. intros H1 H2 q len. by rewrite (H2 q len), (H1 q len). Qed.
Lemma held_kept_same g g' h h' : same_held g g' -> held_kept g' h h' -> held_kept g h h'.
Proof. intros Hs K q len x B Hx. by apply (K q len x); [apply Hs|]. Qed.

(** A new slab has no object in use. *)
Lemma same_held_new g u s c b :
  g.(owner) s = None -> same_held g (with_slab (with_unused g u) s (Some c) b (objects b c (slots_per_page c))).
Proof.
  intros Ho q len. unfold held, slab_block, large_block. simpl. split; (intros [Hb|?]; [left|by right]).
  - destruct Hb as (i & c' & a & Hi & Ha & Hf & -> & ->). destruct (decide (i = s)) as [->|Hne].
    + injection Hi as <-. exfalso. apply Hf, objects_elem. exact Ha.
    + by exists i, c', a.
  - destruct Hb as (i & c' & a & Hi & Ha & Hf & -> & ->). exists i, c', a.
    destruct (decide (i = s)) as [->|Hne]; [congruence|]. done.
Qed.

(** Everything but slab [s] is where it belongs. *)
Definition sorted_but (g : ghost) (s : Z) : Prop :=
  forall i c, i <> s -> g.(owner) i = Some c -> exists k, i ∈ g.(lists) c k /\ kind_ok k c (g.(free_of) i).

(** Cache [c] has no object left and cannot get a new slab. *)
Definition no_slab (g : ghost) h (c : Z) : Prop :=
  g.(lists) c PartialList = [] /\ g.(lists) c EmptyList = [] /\ (no_pages 1 h \/ g.(unused) = []).

Lemma slab_for_cache_spec g h c :
  heap_inv slab_pool_addr g h -> is_cache c ->
  wp (slab_for_cache slab_pool_addr c) (fun r h' => held_kept g h h' /\ match r with
    | None => heap_inv slab_pool_addr g h' /\ no_slab g h c
    | Some s => exists g' l, heap_inv slab_pool_addr g' h' /\ same_held g g' /\ g'.(lists) c PartialList = s :: l
    end) h.
Proof.
  intros [HC Hsort] Hc. unfold slab_for_cache. destruct (cache_at_done g h c HC Hc) as (kc & Hkc & _ & _ & Hlists).
  wp_step. eapply Done_wp; [exact Hkc|]. pose proof (Hlists PartialList) as Hp. simpl in Hp.
  destruct kc.(partial) as [s|] eqn:Ep.
  { apply wp_ret. split; [done|]. destruct (g.(lists) c PartialList) as [|s' l] eqn:El; [done|]. destruct Hp as ([= <-] & _).
    by exists g, l. }
  assert (Enil : g.(lists) c PartialList = []) by (destruct (g.(lists) c PartialList); [done|by destruct Hp]).
  pose proof (Hlists EmptyList) as He. simpl in He. destruct kc.(Heap.empty) as [s|] eqn:Ee.
  - destruct (g.(lists) c EmptyList) as [|s' l] eqn:El; [done|]. destruct He as ([= <-] & _).
    assert (Hin : s ∈ g.(lists) c EmptyList) by (rewrite El; set_solver).
    pose proof (hc_listed _ g h HC c EmptyList s Hc Hin) as Ho.
    wp_step. wp_step. eapply wp_mono; [by apply (core_remove slab_pool_addr g h c EmptyList s [] l)|]. intros [] h1 [HC1 M1]. apply wp_ret.
    set (g1 := with_list g c EmptyList ([] ++ l)) in *.
    assert (Hnot : forall k, s ∉ g1.(lists) c k).
    { intros k Hk. destruct (decide (k = EmptyList)) as [->|Hne].
      - unfold g1 in Hk. rewrite with_list_same in Hk. pose proof (hc_nodup _ g h HC c EmptyList Hc) as Hnd. rewrite El in Hnd.
        apply NoDup_cons in Hnd as [Hnd _]. done.
      - unfold g1 in Hk. rewrite with_list_other in Hk by congruence. apply Hne. by apply (hc_once _ g h HC c k EmptyList s). }
    wp_step. eapply wp_mono; [by apply (core_push slab_pool_addr g1 h1 c PartialList s)|]. intros [] h2 [HC2 M2]. apply wp_ret.
    split; [by eapply held_kept_l, held_kept_memory|].
    exists (with_list g1 c PartialList (s :: g1.(lists) c PartialList)), (g1.(lists) c PartialList). split; [|by rewrite with_list_same].
    split; [done|]. intros i c' Hi. simpl in Hi. destruct (decide (i = s)) as [->|Hne].
    + rewrite Ho in Hi. injection Hi as <-. exists PartialList. rewrite with_list_same. split; [set_solver|].
      destruct (Hsort s c Ho) as (k & Hk & Hkind). rewrite (hc_once _ g h HC c k EmptyList s Hc Hk Hin) in Hkind. simpl in *.
      destruct (cache_layout c Hc) as (_ & _ & _ & Hn & _). destruct (g.(free_of) s); [simpl in Hkind; lia|done].
    + destruct (Hsort i c' Hi) as (k & Hk & Hkind). exists k. split; [|done].
      destruct (decide ((c', k) = (c, PartialList))) as [E|N1]; [injection E as -> ->; rewrite Enil in Hk; set_solver|].
      rewrite with_list_other by done. destruct (decide ((c', k) = (c, EmptyList))) as [E|N2].
      * injection E as -> ->. unfold g1. rewrite with_list_same. rewrite El in Hk. set_solver.
      * unfold g1. by rewrite with_list_other.
  - wp_step. eapply wp_mono; [by apply slab_create_spec|]. intros [s|] h1 [K1 Hs].
    2: { apply wp_ret. split; [done|]. destruct Hs as [HC1 Hno]. split; [done|]. split; [done|]. split; [|done].
         destruct (g.(lists) c EmptyList); [done|by destruct He]. }
    destruct Hs as (u & b & Eu & Ho & HC1). set (g1 := with_slab _ _ _ _ _) in *.
    assert (Hnot : forall k, s ∉ g1.(lists) c k) by (intros k; by apply (not_listed slab_pool_addr g h s c k)).
    wp_step. eapply wp_mono; [apply (core_push slab_pool_addr g1 h1 c PartialList s HC1 Hc); [simpl; by rewrite decide_True|done]|].
    intros [] h2 [HC2 M2]. apply wp_ret. split; [by eapply held_kept_r|].
    exists (with_list g1 c PartialList (s :: g1.(lists) c PartialList)), (g1.(lists) c PartialList). split; [|split; [by apply same_held_new|by rewrite with_list_same]].
    split; [done|]. intros i c' Hi. simpl in Hi. destruct (decide (i = s)) as [->|Hne].
    + injection Hi as <-. exists PartialList. rewrite with_list_same. split; [set_solver|]. simpl. rewrite decide_True by done.
      destruct (cache_layout c Hc) as (_ & _ & _ & Hn & _). intros E. apply (f_equal length) in E.
      pose proof (objects_length b c (slots_per_page c) ltac:(lia)) as El. rewrite E in El. simpl in El. lia.
    + destruct (Hsort i c' Hi) as (k & Hk & Hkind). exists k. split; [|simpl; by rewrite decide_False].
      destruct (decide ((c', k) = (c, PartialList))) as [E|N1]; [injection E as -> ->; rewrite Enil in Hk; set_solver|].
      by rewrite with_list_other.
Qed.
End Slab.
