(* ===== verification/HeapObject.v ===== *)
(** Objects: taking one from a slab and giving it back. *)
From S2P Require Import Prelude PagingData Heap HeapFacts HeapInv HeapOps HeapSlab.
From Stdlib Require Import ZArith Lia.
From stdpp Require Import sets.
Open Scope Z_scope.

Section Object.
Context {P : Type} `{PageStore P} (slab_pool_addr : Z).
Context (Hpool : 0 < slab_pool_addr /\ slab_pool_addr + sizeof_slab * HEAP_MAX_SLABS <= 2 ^ 32).
Implicit Types (p : P) (h : heap (P := P)).
Local Abbreviation heap_core := (heap_core slab_pool_addr).
Local Abbreviation slab_ok := (slab_ok slab_pool_addr).
Local Abbreviation slab_pointer := (slab_pointer slab_pool_addr).

(** A slab's record and the link of one of its objects change. *)
Lemma core_set_slab g h s c a f r p' F :
  heap_core g h -> g.(owner) s = Some c -> is_slot (g.(base_of) s) c a ->
  h.(slab_metadata_pool) !! Z.to_nat s = Some r -> (forall r, (f r).(next) = r.(next)) -> (f r).(page_base) = g.(base_of) s ->
  changed_only h.(pages) p' (a + 8) 4 -> slab_ok p' s c (f r) F ->
  heap_core (with_slab g s (Some c) (g.(base_of) s) F)
    (set_slab_metadata_pool (alter f (Z.to_nat s) h.(slab_metadata_pool)) (set_pages p' h)).
Proof.
  intros HC Ho Ha Hr Hf Hbase Hch Hs. pose proof (co_runs _ _ _ _ Hch) as Hruns. destruct (hc_slab _ g h HC s c Ho) as (Hc & Hs0 & _).
  destruct (slot_bounds _ _ _ Hc Ha) as (B1 & B2 & _). destruct (cache_layout c Hc) as (? & ? & _).
  pose proof (owner_run _ g h s c HC Ho) as Hrun.
  assert (Hap : forall r', r' ∈ page_runs h.(pages) -> r'.1 <> g.(base_of) s -> forall w, r'.1 <= w -> w + 4 <= r'.1 + r'.2 * PAGE_SIZE ->
    read_u32 (page_byte p') w = read_u32 (page_byte h.(pages)) w).
  { intros r' Hr' Hne w W1 W2. eapply changed_word; [done|by exists r'|].
    assert (Hd : r' <> (g.(base_of) s, 1)) by (intros ->; done).
    destruct (runs_differ_apart _ _ _ (hc_pages _ g h HC) Hr' Hrun Hd); simpl in *; lia. }
  pose proof HC as HC0. destruct HC. split; simpl; try done.
  - apply Hch.
  - by rewrite length_alter.
  - intros c' k Hc'. destruct (hc_lists c' k Hc') as (kc & Hkc & Hl). exists kc. split; [done|]. simpl. by apply linked_alter_data.
  - by apply linked_alter_data.
  - intros c' k i Hc' Hi. destruct (decide (i = s)) as [->|]; [|eauto]. rewrite <- Ho. eauto.
  - intros i Hi. destruct (decide (i = s)) as [->|]; [|eauto]. rewrite hc_spare in Ho by done. done.
  - intros i c' Hi. destruct (decide (i = s)) as [->|Hne].
    + injection Hi as <-. split; [done|]. split; [done|]. exists (f r). rewrite list_lookup_alter_eq, Hr. done.
    + destruct (hc_slab i c' Hi) as (Hc' & Hi0 & ri & Hri & Hb & Sk). split; [done|]. split; [done|]. exists ri.
      rewrite list_lookup_alter_ne by lia. split; [done|]. split; [done|].
      pose proof (owner_run _ g h i c' HC0 Hi) as Hruni.
      eapply slab_ok_words; [done|rewrite Hruns, Hb; done|]. intros a' o Ha' Hoff%word_offsets. rewrite Hb in Ha'.
      destruct (slot_bounds _ _ _ Hc' Ha') as (B3 & B4 & _). destruct (cache_layout c' Hc') as (? & ? & _).
      apply (Hap _ Hruni); simpl; [|lia|lia]. intros E. by apply Hne, (hc_bases i s c' c).
  - intros i j c1 c2. destruct (decide (i = s)) as [->|], (decide (j = s)) as [->|]; [done| | |by apply hc_bases].
    + intros [= <-] O2 E. by apply (hc_bases s j c c2).
    + intros O1 [= <-] E. by apply (hc_bases i s c1 c).
  - intros b n Hbn. destruct (hc_large b n Hbn) as (Hrl & M1 & M2). rewrite Hruns. split; [done|].
    destruct (page_runs_range _ _ hc_pages Hrl) as (_ & _ & Hn & _). simpl in Hn.
    rewrite <- M1, <- M2 at 1. split; apply (Hap _ Hrl); simpl; try (unfold PAGE_SIZE; lia);
      intros E; by apply (hc_large_bases b n s c Hbn Ho).
  - intros b n i c' Hbn. destruct (decide (i = s)) as [->|]; [|by apply (hc_large_bases b n)]. intros _. by apply (hc_large_bases b n s c).
Qed.

(** The blocks when the free objects of slab [s] change. *)
Lemma held_with_slab g s c F q len :
  g.(owner) s = Some c ->
  held (with_slab g s (Some c) (g.(base_of) s) F) q len <->
  (exists a, is_slot (g.(base_of) s) c a /\ (a ∉ F) /\ q = a + 16 /\ len = osize c) \/
  (exists i c' a, i <> s /\ g.(owner) i = Some c' /\ is_slot (g.(base_of) i) c' a /\ (a ∉ g.(free_of) i) /\ q = a + 16 /\ len = osize c') \/
  large_block g q len.
Proof.
  intros Ho. unfold held, slab_block. simpl. split.
  - intros [(i & c' & a & Hi & Ha & Hf & -> & ->)|Hl]; [|by right; right]. destruct (decide (i = s)) as [->|Hne].
    + injection Hi as <-. left. by exists a.
    + right. left. by exists i, c', a.
  - intros [(a & Ha & Hf & -> & ->)|[(i & c' & a & Hne & Hi & Ha & Hf & -> & ->)|Hl]]; [left|left|by right].
    + exists s, c, a. by rewrite !decide_True.
    + exists i, c', a. by rewrite !decide_False.
Qed.

Lemma with_slab_same g s c : g.(owner) s = Some c ->
  forall q len, held (with_slab g s (Some c) (g.(base_of) s) (g.(free_of) s)) q len <-> held g q len.
Proof.
  intros Ho q len. unfold held, slab_block. simpl. split; (intros [(i & c' & a & Hi & Ha & Hf & -> & ->)|Hl]; [left|by right]); exists i, c', a.
  - destruct (decide (i = s)) as [->|Hne]; [|done]. by injection Hi as <-.
  - destruct (decide (i = s)) as [->|Hne]; [|done]. rewrite Ho in Hi. by injection Hi as <-.
Qed.

(** ** Moving a slab between lists *)

Lemma sorted_relisted g c s k k' F l1 l2 b :
  sorted_out g -> g.(owner) s = Some c -> g.(lists) c k = l1 ++ s :: l2 -> k' <> k -> kind_ok k' c F ->
  let g1 := with_list (with_slab g s (Some c) b F) c k (l1 ++ l2) in
  sorted_out (with_list g1 c k' (s :: g1.(lists) c k')).
Proof.
  intros Hsort Ho El Hk Hkind g1 i c' Hi. simpl in Hi. destruct (decide (i = s)) as [->|Hne].
  - injection Hi as <-. exists k'. rewrite with_list_same. split; [set_solver|]. simpl. by rewrite decide_True.
  - destruct (Hsort i c' Hi) as (k0 & Hin & Hk0). exists k0. split; [|simpl; by rewrite decide_False].
    assert (Hin1 : i ∈ g1.(lists) c' k0).
    { unfold g1. destruct (decide ((c', k0) = (c, k))) as [E|Hd]; [|by rewrite with_list_other]. injection E as -> ->.
      rewrite with_list_same. rewrite El in Hin. set_solver. }
    destruct (decide ((c', k0) = (c, k'))) as [E|Hd]; [|by rewrite with_list_other]. injection E as -> ->.
    rewrite with_list_same. set_solver.
Qed.

Lemma sorted_stay g c s k F b :
  sorted_out g -> g.(owner) s = Some c -> s ∈ g.(lists) c k -> kind_ok k c F -> sorted_out (with_slab g s (Some c) b F).
Proof.
  intros Hsort Ho Hin Hkind i c' Hi. simpl in *. destruct (decide (i = s)) as [->|Hne].
  - injection Hi as <-. by exists k.
  - by apply Hsort.
Qed.

(** From list [k] to list [k'] of its cache. *)
Lemma move_spec g h c s k k' F b l1 l2 :
  heap_core (with_slab g s (Some c) b F) h -> sorted_out g -> is_cache c -> g.(owner) s = Some c ->
  g.(lists) c k = l1 ++ s :: l2 -> k' <> k -> kind_ok k' c F ->
  wp (slab_list_remove c k s ;;; slab_list_push c k' s)
    (fun _ h' => same_memory h h' /\ exists g', heap_inv slab_pool_addr g' h' /\ same_held (with_slab g s (Some c) b F) g') h.
Proof.
  intros HC Hsort Hc Ho El Hk Hkind. set (g0 := with_slab g s (Some c) b F) in *.
  assert (Ho0 : g0.(owner) s = Some c) by (simpl; by rewrite decide_True).
  wp_step. eapply wp_mono; [by apply (core_remove slab_pool_addr g0 h c k s l1 l2)|]. intros [] h1 [HC1 M1].
  set (g1 := with_list g0 c k (l1 ++ l2)) in *.
  assert (Hnot : forall k0, s ∉ g1.(lists) c k0).
  { intros k0 Hin. destruct (decide (k0 = k)) as [->|Hne].
    - unfold g1 in Hin. rewrite with_list_same in Hin. pose proof (hc_nodup _ g0 h HC c k Hc) as Hnd. simpl in Hnd. rewrite El in Hnd.
      apply NoDup_app in Hnd as (_ & N1 & N2). apply NoDup_cons in N2 as [N2 _]. set_solver.
    - unfold g1 in Hin. rewrite with_list_other in Hin by congruence. apply Hne.
      apply (hc_once _ g0 h HC c k0 k s Hc Hin). simpl. rewrite El. set_solver. }
  eapply wp_mono; [by apply (core_push slab_pool_addr g1 h1 c k' s)|]. intros [] h2 [HC2 M2].
  split; [unfold same_memory in *; congruence|]. eexists. split; [split; [exact HC2|]|done]. by apply sorted_relisted.
Qed.

Lemma listed_split g c k s : s ∈ g.(lists) c k -> exists l1 l2, g.(lists) c k = l1 ++ s :: l2.
Proof. apply list_elem_of_split. Qed.

(** ** Taking an object *)

(** The link of one object is written: the other header words of the page stay. *)
Lemma link_written p p' s c r F a x a' o :
  is_cache c -> slab_ok p s c r F -> is_slot r.(page_base) c a -> written p p' 4 (a + 8) x ->
  is_slot r.(page_base) c a' -> o ∈ [0; 4; 8] -> (a', o) <> (a, 8) ->
  read_u32 (page_byte p') (a' + o) = read_u32 (page_byte p) (a' + o).
Proof.
  intros Hc Sk Ha W Ha' Hoff Hne. destruct (slot_bounds _ _ _ Hc Ha) as (B1 & B2 & _). destruct (slot_bounds _ _ _ Hc Ha') as (B3 & B4 & _).
  destruct (cache_layout c Hc) as (? & ? & _). pose proof (word_offsets o Hoff). eapply written_other; [done| |].
  - exists (r.(page_base), 1). split; [apply Sk|]. simpl. lia.
  - destruct (decide (a' = a)) as [->|Hd].
    + assert (o = 0 \/ o = 4) as [->| ->] by (apply elem_of_cons in Hoff as [|Hoff]; [auto|]; apply elem_of_cons in Hoff as [|Hoff]; [auto|];
        apply list_elem_of_singleton in Hoff; subst; done); lia.
    + destruct (slot_apart _ _ _ _ Hc Ha Ha'); [done|lia|lia].
Qed.

Lemma headers_written p p' s c r F a x :
  is_cache c -> slab_ok p s c r F -> is_slot r.(page_base) c a -> written p p' 4 (a + 8) x ->
  forall a', is_slot r.(page_base) c a' -> read_u32 (page_byte p') a' = HEAP_SLAB_MAGIC /\ read_u32 (page_byte p') (a' + 4) = slab_pointer s.
Proof.
  intros Hc Sk Ha W a' Ha'. destruct (so_headers _ _ _ _ _ _ Sk a' Ha') as [M1 M2]. rewrite <- M1, <- M2. split.
  - rewrite <- (Z.add_0_r a'). eapply (link_written p p' s c r F a); try done; set_solver.
  - eapply (link_written p p' s c r F a); try done; set_solver.
Qed.

(** The slab when its first free object is taken. *)
Lemma slab_ok_pop p p' s c r a F :
  is_cache c -> slab_ok p s c r (a :: F) -> written p p' 4 (a + 8) 0 ->
  slab_ok p' s c (set_in_use (r.(in_use) + 1) (set_free_list (read_u32 (page_byte p) (a + 8)) r)) F.
Proof.
  intros Hc Sk W. pose proof (so_slots _ _ _ _ _ _ Sk a ltac:(set_solver)) as Ha.
  destruct (so_chain _ _ _ _ _ _ Sk) as [_ Hch]. pose proof (so_nodup _ _ _ _ _ _ Sk) as Hnd. apply NoDup_cons in Hnd as [Hna Hnd].
  pose proof (headers_written p p' s c r _ a 0 Hc Sk Ha W) as Hh. pose proof (wr_runs _ _ _ _ _ W) as Hr.
  pose proof (so_slots _ _ _ _ _ _ Sk) as Hsl. pose proof (so_use _ _ _ _ _ _ Sk) as Hu. simpl in Hu.
  split; simpl; try apply Sk; try done.
  - rewrite Hr. apply Sk.
  - lia.
  - intros a' Ha'. apply Hsl. set_solver.
  - eapply free_chain_same; [|done]. intros a' Ha'. eapply (link_written p p' s c r (a :: F) a); try done; [apply Hsl; set_solver|set_solver|].
    intros [= ->]. done.
Qed.

(** The slab when an object is returned. *)
Lemma slab_ok_unpop p p' s c r a F :
  is_cache c -> slab_ok p s c r F -> is_slot r.(page_base) c a -> a ∉ F -> fits 32 r.(free_list) ->
  written p p' 4 (a + 8) r.(free_list) -> slab_ok p' s c (set_in_use (r.(in_use) - 1) (set_free_list a r)) (a :: F).
Proof.
  intros Hc Sk Ha Hna Hfl W. destruct (slot_bounds _ _ _ Hc Ha) as (B1 & B2 & _). destruct (cache_layout c Hc) as (? & ? & _).
  pose proof (headers_written p p' s c r _ a _ Hc Sk Ha W) as Hh. pose proof (wr_runs _ _ _ _ _ W) as Hr.
  pose proof (so_slots _ _ _ _ _ _ Sk) as Hsl. pose proof (so_use _ _ _ _ _ _ Sk) as Hu.
  split; simpl; try apply Sk; try done.
  - rewrite Hr. apply Sk.
  - lia.
  - apply NoDup_cons. split; [done|apply Sk].
  - intros a' [->|Ha']%elem_of_cons; auto.
  - split; [done|]. rewrite (written_same _ _ _ _ W); [|exists (r.(page_base), 1); split; [apply Sk|simpl; lia]|done].
    eapply free_chain_same; [|apply Sk]. intros a' Ha'. eapply (link_written p p' s c r F a); try done; [auto|set_solver|].
    intros [= ->]. done.
Qed.

(** Changes of a link leave the blocks alone. *)
Lemma link_held g h s c a p' :
  heap_core g h -> g.(owner) s = Some c -> is_slot (g.(base_of) s) c a -> changed_only h.(pages) p' (a + 8) 4 ->
  held_kept g h (set_pages p' h).
Proof.
  intros HC Ho Ha Hch q len x B Hx. simpl. destruct (block_run _ g h q len HC B) as (r & Hr & B1 & B2 & _).
  apply (co_bytes _ _ _ _ Hch); [exists r; split; [done|unfold run_has; lia]|].
  destruct (slot_header_apart _ g h s c a q len HC Ho Ha B); lia.
Qed.

Lemma alter_alter (f f' : slab -> slab) i (l : list slab) : alter f' i (alter f i l) = alter (fun r => f' (f r)) i l.
Proof.
  apply list_eq. intros j. destruct (decide (i = j)) as [->|]; [|by rewrite !list_lookup_alter_ne]. rewrite !list_lookup_alter_eq. by destruct (l !! j).
Qed.

(** What the first free object of a slab is, in memory. *)
Lemma slab_facts g h s c : heap_core g h -> g.(owner) s = Some c -> exists r, h.(slab_metadata_pool) !! Z.to_nat s = Some r /\
  r.(page_base) = g.(base_of) s /\ slab_ok h.(pages) s c r (g.(free_of) s) /\ is_cache c /\ 0 <= s < HEAP_MAX_SLABS.
Proof. intros HC Ho. destruct (hc_slab _ g h HC s c Ho) as (Hc & Hs & r & Hr & Hb & Sk). by exists r. Qed.

Lemma slot_fits g h s c a o : heap_core g h -> g.(owner) s = Some c -> is_slot (g.(base_of) s) c a -> 0 <= o <= 16 ->
  u32 (a + o) = a + o /\ a <> 0 /\ fits 32 a.
Proof.
  intros HC Ho Ha Hoff. destruct (hc_slab _ g h HC s c Ho) as (Hc & _). destruct (slot_bounds _ _ _ Hc Ha) as (B1 & B2 & _).
  destruct (cache_layout c Hc) as (? & ? & _). pose proof (owner_run _ g h s c HC Ho) as Hr.
  pose proof (fun v => run_fits h.(pages) _ _ v (hc_pages _ g h HC) Hr) as Hf.
  destruct (Hf a ltac:(lia)) as [F1 F2]. destruct (Hf (a + o) ltac:(lia)) as [F3 _]. split; [by apply wrap_small|]. split; [lia|done].
Qed.

(** An object's address determines its slab, and is not that of a large block. *)
Lemma slot_owner g h i s c' c a :
  heap_core g h -> g.(owner) i = Some c' -> g.(owner) s = Some c -> is_slot (g.(base_of) i) c' a -> is_slot (g.(base_of) s) c a -> i = s.
Proof.
  intros HC Hi Ho Ha' Ha. destruct (hc_slab _ g h HC s c Ho) as (Hc & _). destruct (hc_slab _ g h HC i c' Hi) as (Hc' & _).
  destruct (slot_bounds _ _ _ Hc Ha) as (B1 & B2 & _). destruct (cache_layout c Hc) as (? & ? & _).
  destruct (slot_bounds _ _ _ Hc' Ha') as (B3 & B4 & _). destruct (cache_layout c' Hc') as (? & ? & _).
  apply (hc_bases _ g h HC i s c' c Hi Ho). assert (E : (g.(base_of) i, 1) = (g.(base_of) s, 1)); [|congruence].
  apply (runs_same h.(pages) _ _ a (hc_pages _ g h HC)); [by eapply owner_run..|apply page_run_has; lia|apply page_run_has; lia].
Qed.

Lemma large_slot g h b n s c a :
  heap_core g h -> (b, n) ∈ g.(large) -> g.(owner) s = Some c -> is_slot (g.(base_of) s) c a -> b + 8 <> a + 16.
Proof.
  intros HC Hl Ho Ha E. destruct (hc_slab _ g h HC s c Ho) as (Hc & _). destruct (slot_bounds _ _ _ Hc Ha) as (B1 & B2 & _).
  destruct (cache_layout c Hc) as (? & ? & _). destruct (hc_large _ g h HC b n Hl) as (Hrl & _). pose proof (hc_pages _ g h HC) as Hok.
  destruct (page_runs_range _ _ Hok Hrl) as (_ & _ & Hn & _). simpl in Hn.
  apply (hc_large_bases _ g h HC b n s c Hl Ho). assert (E2 : (b, n) = (g.(base_of) s, 1)); [|congruence].
  apply (runs_same h.(pages) _ _ (a + 16) Hok); [done|by eapply owner_run|unfold run_has, PAGE_SIZE; simpl; lia|apply page_run_has; lia].
Qed.

(** A block at a slot's object is that slot's. *)
Lemma held_slot g h s c a len :
  heap_core g h -> g.(owner) s = Some c -> is_slot (g.(base_of) s) c a -> held g (a + 16) len -> (a ∉ g.(free_of) s) /\ len = osize c.
Proof.
  intros HC Ho Ha [(i & c' & a' & Hi & Ha' & Hf & E & ->)|(b & n & Hl & E & _)].
  - assert (a' = a) as -> by lia. assert (i = s) as -> by (by apply (slot_owner g h i s c' c a)).
    rewrite Ho in Hi. injection Hi as <-. done.
  - by destruct (large_slot g h b n s c a HC Hl Ho Ha).
Qed.

(** Taking an object adds its block. *)
Lemma held_pop g s c a F : g.(owner) s = Some c -> g.(free_of) s = a :: F -> NoDup (a :: F) -> is_slot (g.(base_of) s) c a ->
  forall q len, held (with_slab g s (Some c) (g.(base_of) s) F) q len <-> held g q len \/ (q = a + 16 /\ len = osize c).
Proof.
  intros Ho EF Hnd Ha q len. apply NoDup_cons in Hnd as [Hna _]. unfold held, slab_block. simpl. split.
  - intros [(i & c' & a' & Hi & Ha' & Hf & -> & ->)|Hl]; [|by left; right]. destruct (decide (i = s)) as [->|Hne].
    + injection Hi as <-. destruct (decide (a' = a)) as [->|Hd]; [by right|]. left. left. exists s, c, a'. rewrite EF.
      split; [done|]. split; [done|]. split; [set_solver|done].
    + left. left. by exists i, c', a'.
  - intros [[(i & c' & a' & Hi & Ha' & Hf & -> & ->)|Hl]|[-> ->]]; [left|by right|left].
    + exists i, c', a'. destruct (decide (i = s)) as [->|Hne]; [|done]. rewrite Ho in Hi. injection Hi as <-. rewrite EF in Hf.
      split; [done|]. split; [done|]. split; [set_solver|done].
    + exists s, c, a. by rewrite !decide_True.
Qed.

(** *** [slab_alloc_from_cache] *)

Lemma take_spec g h c s l :
  heap_inv slab_pool_addr g h -> is_cache c -> g.(lists) c PartialList = s :: l ->
  wp (r <- slab_at s ;;
      let object := r.(free_list) in
      if object =? 0 then ret 0
      else
        nxt <- load32 (u32 (object + 8)) ;;
        slab_update s (set_free_list nxt) ;;;
        r <- slab_at s ;;
        slab_update s (set_in_use (u16 (r.(in_use) + 1))) ;;;
        store32 (u32 (object + 8)) 0 ;;;
        (if nxt =? 0 then
           slab_list_remove c PartialList s ;;;
           slab_list_push c FullList s
         else ret tt) ;;;
        ret (u32 (object + sizeof_object_header)))
    (fun q h' => held_kept g h h' /\ exists g' a, heap_inv slab_pool_addr g' h' /\ q = a + 16 /\ fits 32 q /\
       ~ held g q (osize c) /\ (forall q' len, held g' q' len <-> held g q' len \/ (q' = q /\ len = osize c))) h.
Proof.
  intros [HC Hsort] Hc El. assert (Hin : s ∈ g.(lists) c PartialList) by (rewrite El; set_solver).
  pose proof (hc_listed _ g h HC c PartialList s Hc Hin) as Ho.
  destruct (slab_facts g h s c HC Ho) as (r & Hr & Hbase & Sk & _ & Hs).
  destruct (Hsort s c Ho) as (k & Hk & Hkind). rewrite (hc_once _ g h HC c k PartialList s Hc Hk Hin) in Hkind. simpl in Hkind.
  destruct (g.(free_of) s) as [|a F] eqn:EF; [done|]. pose proof (so_slots _ _ _ _ _ _ Sk a ltac:(set_solver)) as Ha.
  destruct (so_chain _ _ _ _ _ _ Sk) as [Hhead Hchain]. pose proof Ha as Ha'. rewrite Hbase in Ha'.
  destruct (slot_fits g h s c a 8 HC Ho Ha' ltac:(lia)) as (U8 & Hnz & Hfa). destruct (slot_fits g h s c a 16 HC Ho Ha' ltac:(lia)) as (U16 & _).
  pose proof (slot_word _ g h s c a 8 HC Ho Ha' ltac:(lia)) as Hw. pose proof (so_use _ _ _ _ _ _ Sk) as Huse. simpl in Huse.
  destruct (cache_layout c Hc) as (_ & _ & _ & Hn & _). set (nxt := read_u32 (page_byte h.(pages)) (a + 8)) in *.
  set (f := fun r0 => set_in_use (u16 (r.(in_use) + 1)) (set_free_list nxt r0)).
  set (h1 := set_slab_metadata_pool (alter f (Z.to_nat s) h.(slab_metadata_pool)) h).
  destruct (store32_done (a + 8) 0 h1 (hc_pages _ g h HC) Hw) as (p' & Hst & W).
  set (h2 := set_pages p' h1) in *.
  assert (Hfr : f r = set_in_use (r.(in_use) + 1) (set_free_list nxt r)).
  { unfold f. pose proof (slots_count _ c _ Hc (so_nodup _ _ _ _ _ _ Sk) (so_slots _ _ _ _ _ _ Sk)) as Hcount. simpl in Hcount.
    by rewrite wrap_small by (unfold fits; lia). }
  assert (Hch : changed_only h.(pages) p' (a + 8) 4) by (by eapply written_changed).
  assert (HC2 : heap_core (with_slab g s (Some c) (g.(base_of) s) F) h2).
  { apply (core_set_slab g h s c a f r p'); rewrite ?Hfr; try done. by apply slab_ok_pop. }
  assert (Hnx : (nxt =? 0) = bool_decide (F = [])).
  { rewrite (chain_head _ _ _ Hchain). destruct F as [|a2 F2]; [done|]. simpl. 
    apply Z.eqb_neq. apply (slot_fits g h s c a2 0 HC Ho); [|lia]. rewrite <- Hbase. apply (so_slots _ _ _ _ _ _ Sk). set_solver. }
  (* the straight-line part *)
  unfold slab_at, slab_update. wp_step. wp_step. wp_step. eapply wp_of_option; [exact Hr|]. cbv zeta.
  rewrite Hhead, (proj2 (Z.eqb_neq a 0) Hnz), U8. cbv iota. wp_step. eapply Done_wp; [by apply load32_done|]. fold nxt.
  wp_step. wp_step. wp_step. wp_step. wp_step. eapply wp_of_option; [simpl; by rewrite list_lookup_alter_eq, Hr|]. wp_step. wp_step. simpl.
  rewrite alter_alter. change (set_slab_metadata_pool _ (set_slab_metadata_pool _ h)) with h1.
  wp_step. eapply Done_wp; [exact Hst|].
  assert (Hkept : held_kept g h h2) by (apply (link_held g h s c a p'); done).
  pose proof (held_pop g s c a F Ho EF (so_nodup _ _ _ _ _ _ Sk) Ha') as Hheld.
  assert (Hnew : ~ held g (a + 16) (osize c)).
  { intros B. destruct (held_slot g h s c a _ HC Ho Ha' B) as [Hf _]. rewrite EF in Hf. set_solver. }
  assert (Hend : forall h' g', held_kept g h h' -> heap_inv slab_pool_addr g' h' ->
    same_held (with_slab g s (Some c) (g.(base_of) s) F) g' ->
    wp (ret (u32 (a + sizeof_object_header))) (fun q h' => held_kept g h h' /\ exists g' a, heap_inv slab_pool_addr g' h' /\ q = a + 16 /\ fits 32 q /\
       ~ held g q (osize c) /\ (forall q' len, held g' q' len <-> held g q' len \/ (q' = q /\ len = osize c))) h').
  { intros h' g' K HI Hsame. apply wp_ret. change sizeof_object_header with 16. rewrite U16. split; [done|]. exists g', a.
    split; [done|]. split; [done|]. split; [rewrite <- U16; by apply wrap_fits|]. split; [done|]. intros q' len. rewrite (Hsame q' len). apply Hheld. }
  rewrite Hnx. wp_step. case_bool_decide as HF.
  - subst F. eapply wp_mono; [eapply (move_spec g h2 c s PartialList FullList [] (g.(base_of) s) [] l); done|].
    intros [] h3 (M & g' & HI & Hsame). eapply Hend; [by eapply held_kept_r|done|done].
  - apply wp_ret. eapply Hend; [done| |done]. split; [done|]. by apply (sorted_stay g c s PartialList).
Qed.

Lemma slab_alloc_spec g h c :
  heap_inv slab_pool_addr g h -> is_cache c ->
  wp (slab_alloc_from_cache slab_pool_addr c) (fun q h' => held_kept g h h' /\
    ((q = 0 /\ heap_inv slab_pool_addr g h' /\ no_slab g h c) \/
     exists g', heap_inv slab_pool_addr g' h' /\ 0 < q < 2 ^ 32 /\ ~ held g q (osize c) /\
       (forall q' len, held g' q' len <-> held g q' len \/ (q' = q /\ len = osize c)))) h.
Proof.
  intros HI Hc. unfold slab_alloc_from_cache. wp_step. eapply wp_mono; [by apply slab_for_cache_spec|].
  intros [s|] h1 [K1 Hr]; [|apply wp_ret; auto]. destruct Hr as (g1 & l & HI1 & Hsame & El).
  eapply wp_mono; [by apply (take_spec g1 h1 c s l)|]. intros q h2 (K2 & g2 & a & HI2 & Hq & Hf & Hnew & Hheld).
  split; [eapply held_kept_trans; [done|by eapply held_kept_same]|]. right. exists g2. split; [done|].
  split; [|split; [by rewrite <- (Hsame q _)|]].
  - destruct (block_run _ g2 h2 q (osize c) (hi_core _ _ _ HI2)) as (r & Hr & B1 & _); [apply Hheld; auto|].
    destruct (page_runs_range _ _ (hc_pages _ _ _ (hi_core _ _ _ HI2)) Hr) as (H1 & _). unfold KERNEL_DYNAMIC_BASE, fits in *. lia.
  - intros q' len. by rewrite (Hheld q' len), (Hsame q' len).
Qed.
End Object.
