(* ===== verification/HeapFree.v ===== *)
(** Objects come back: [slab_free_pointer] on an object that is in use. *)
From S2P Require Import Prelude PagingData Heap HeapFacts HeapInv HeapOps HeapSlab HeapObject.
From Stdlib Require Import ZArith Lia.
From stdpp Require Import sets.
Open Scope Z_scope.

(** A slab whose free objects are all its slots. *)
Lemma every_slot_free b c F a : is_cache c -> NoDup F -> (forall a, a ∈ F -> is_slot b c a) -> Z.of_nat (length F) = slots_per_page c ->
  is_slot b c a -> a ∈ F.
Proof.
  intros Hc Hd Hs Hn Ha. destruct (decide (a ∈ F)) as [|Hna]; [done|].
  assert (Z.of_nat (length (a :: F)) <= slots_per_page c); [|simpl in *; lia]. apply (slots_count b c); [done|by apply NoDup_cons|].
  intros a' [->|Ha']%elem_of_cons; auto.
Qed.

Section Free.
Context {P : Type} `{PageStore P} (slab_pool_addr : Z).
Context (Hpool : 0 < slab_pool_addr /\ slab_pool_addr + sizeof_slab * HEAP_MAX_SLABS <= 2 ^ 32).
Implicit Types (p : P) (h : heap (P := P)).
Local Abbreviation heap_core := (heap_core slab_pool_addr).
Local Abbreviation heap_inv := (heap_inv slab_pool_addr).

(** Returning an object removes its block. *)
Lemma held_unpop g h s c a : heap_core g h -> g.(owner) s = Some c -> is_slot (g.(base_of) s) c a -> (a ∉ g.(free_of) s) ->
  forall q len, held (with_slab g s (Some c) (g.(base_of) s) (a :: g.(free_of) s)) q len <-> held g q len /\ q <> a + 16.
Proof.
  intros HC Ho Ha Hf q len. split.
  - intros B. assert (B0 : held g q len).
    { apply held_with_slab in B; [|done]. destruct B as [(a' & Ha' & Hf' & -> & ->)|[(i & c' & a' & _ & B)|Hl]]; [left|left|by right].
      - exists s, c, a'. set_solver.
      - by exists i, c', a'. }
    split; [done|]. intros ->. apply held_with_slab in B; [|done]. destruct (held_slot slab_pool_addr g h s c a len HC Ho Ha B0) as [_ ->].
    destruct B as [(a' & Ha' & Hf' & E & _)|[(i & c' & a' & Hne & Hi & Ha' & Hf' & E & _)|(b & n & Hl & E & _)]].
    + assert (a' = a) as -> by lia. set_solver.
    + assert (a' = a) as -> by lia. apply Hne. apply (slot_owner slab_pool_addr g h i s c' c a HC Hi Ho Ha' Ha).
    + apply (large_slot slab_pool_addr g h b n s c a HC Hl Ho Ha). lia.
  - intros [[(i & c' & a' & Hi & Ha' & Hf' & -> & ->)|Hl] Hne]; apply held_with_slab; try done; [|by right; right].
    destruct (decide (i = s)) as [->|Hd]; [|right; left; by exists i, c', a']. rewrite Ho in Hi. injection Hi as <-.
    left. exists a'. set_solver.
Qed.

(** After [slab_list_remove], no list holds the slab. *)
Lemma removed_unlisted g h c k s l1 l2 :
  heap_core g h -> is_cache c -> g.(owner) s = Some c -> g.(lists) c k = l1 ++ s :: l2 ->
  forall c' k', is_cache c' -> s ∉ (with_list g c k (l1 ++ l2)).(lists) c' k'.
Proof.
  intros HC Hc Ho El c' k' Hc' Hin. destruct (decide ((c', k') = (c, k))) as [E|Hne].
  - injection E as -> ->. rewrite with_list_same in Hin. pose proof (hc_nodup _ g h HC c k Hc) as Hnd. rewrite El in Hnd.
    apply NoDup_app in Hnd as (_ & N1 & N2). apply NoDup_cons in N2 as [N2 _]. set_solver.
  - rewrite with_list_other in Hin by done. pose proof (hc_listed _ g h HC c' k' s Hc' Hin) as Ho'. rewrite Ho in Ho'. injection Ho' as <-.
    apply Hne. f_equal. apply (hc_once _ g h HC c k' k s Hc Hin). rewrite El. set_solver.
Qed.

(** The blocks of a slab with no object in use do not miss it. *)
Lemma held_disown g s c : g.(owner) s = Some c -> (forall a, is_slot (g.(base_of) s) c a -> a ∈ g.(free_of) s) ->
  same_held g (with_slab g s None 0 []).
Proof.
  intros Ho Hall q len. unfold held, slab_block. simpl. split; (intros [(i & c' & a & Hi & Ha & Hf & -> & ->)|Hl]; [left|by right]); exists i, c', a.
  - by destruct (decide (i = s)).
  - destruct (decide (i = s)) as [->|]; [|done]. rewrite Ho in Hi. injection Hi as <-. by apply Hall in Ha.
Qed.

Lemma slab_destroy_spec g h s c :
  heap_core g h -> g.(owner) s = Some c -> (forall c' k, is_cache c' -> s ∉ g.(lists) c' k) ->
  (forall a, is_slot (g.(base_of) s) c a -> a ∈ g.(free_of) s) ->
  wp (slab_destroy s) (fun _ h' => held_kept g h h' /\ exists g', heap_core g' h' /\ same_held g g' /\
    (forall i, g'.(owner) i = if decide (i = s) then None else g.(owner) i) /\ g'.(lists) = g.(lists) /\
    (forall i, i <> s -> g'.(free_of) i = g.(free_of) i)) h.
Proof.
  intros HC Ho Hn Hall. destruct (slab_facts slab_pool_addr g h s c HC Ho) as (r & Hr & Hbase & Sk & Hc & Hs).
  unfold slab_destroy, slab_at. wp_step. wp_step. wp_step. eapply wp_of_option; [exact Hr|].
  pose proof (held_disown g s c Ho Hall) as Hd. set (g1 := with_slab g s None 0 []) in *.
  assert (HC1 : heap_core g1 h) by (by apply core_disown).
  assert (Hfor : foreign g1 r.(page_base)).
  { rewrite Hbase. split; simpl.
    - intros i c'. destruct (decide (i = s)) as [->|Hne]; [done|]. intros Hi E. by apply Hne, (hc_bases _ g h HC i s c' c).
    - intros b n Hl E. by apply (hc_large_bases _ g h HC b n s c). }
  wp_step. eapply wp_mono; [apply (core_free slab_pool_addr Hpool g1); [done|apply Sk|done]|]. intros [] h2 (HC2 & K2 & _).
  eapply wp_mono; [apply (core_metadata_free slab_pool_addr g1 h2 s HC2 Hs); [simpl; by rewrite decide_True|]|].
  - simpl. intros Hin. pose proof (hc_spare _ g h HC s Hin). congruence.
  - intros [] h3 [HC3 M3]. split; [eapply held_kept_r; [by eapply held_kept_same|done]|]. eexists. split; [exact HC3|]. simpl.
    split; [done|]. split; [done|]. split; [done|]. intros i Hi. by rewrite decide_False.
Qed.

(** The list of a slab that has an object in use. *)
Lemma slab_on_list g h s c a F : heap_inv g h -> g.(owner) s = Some c -> g.(free_of) s = F ->
  NoDup F -> (forall a', a' ∈ F -> is_slot (g.(base_of) s) c a') -> is_slot (g.(base_of) s) c a -> (a ∉ F) -> is_cache c ->
  s ∈ g.(lists) c (if bool_decide (F = []) then FullList else PartialList).
Proof.
  intros [HC Hsort] Ho EF Hnd Hsl Ha Hf Hc. destruct (Hsort s c Ho) as (k & Hin & Hk). rewrite EF in Hk. destruct (cache_layout c Hc) as (_ & _ & _ & Hn & _).
  assert (Hcount : Z.of_nat (length (a :: F)) <= slots_per_page c).
  { apply (slots_count (g.(base_of) s) c); [done|by apply NoDup_cons|]. intros a' [->|Ha']%elem_of_cons; auto. }
  simpl in Hcount. case_bool_decide as HF; destruct k; simpl in Hk; try done; [subst; simpl in *; lia|lia].
Qed.

(** A slab that became empty: kept if the cache has no other, destroyed otherwise. *)
Lemma emptied_spec g h s c k (a : bool) F :
  heap_core (with_slab g s (Some c) (g.(base_of) s) F) h -> sorted_out g -> is_cache c -> g.(owner) s = Some c ->
  s ∈ g.(lists) c k -> k <> EmptyList -> NoDup F -> (forall a, a ∈ F -> is_slot (g.(base_of) s) c a) ->
  Z.of_nat (length F) = slots_per_page c ->
  wp (slab_list_remove c k s ;;;
      k0 <- cache_at c ;;
      (match k0.(Heap.empty) with
       | None => slab_list_push c EmptyList s
       | Some _ => slab_destroy s
       end) ;;; ret a)
    (fun r h' => r = a /\ held_kept (with_slab g s (Some c) (g.(base_of) s) F) h h' /\
       exists g', heap_inv g' h' /\ same_held (with_slab g s (Some c) (g.(base_of) s) F) g') h.
Proof.
  intros HC Hsort Hc Ho Hin Hk Hnd Hsl Hlen. apply list_elem_of_split in Hin as (l1 & l2 & El). set (g0 := with_slab g s _ _ F) in *.
  assert (Ho0 : g0.(owner) s = Some c) by (simpl; by rewrite decide_True).
  wp_step. eapply wp_mono; [by apply (core_remove slab_pool_addr g0 h c k s l1 l2)|]. intros [] h1 [HC1 M1].
  pose proof (removed_unlisted g0 h c k s l1 l2 HC Hc Ho0 El) as Hnot. set (g1 := with_list g0 c k (l1 ++ l2)) in *.
  destruct (cache_at_done slab_pool_addr g1 h1 c HC1 Hc) as (kc & Hkc & _ & _ & Hlists). wp_step. eapply Done_wp; [exact Hkc|].
  destruct kc.(Heap.empty) as [s'|].
  - wp_step. eapply wp_mono; [apply (slab_destroy_spec g1 h1 s c HC1); [done|by intros; apply Hnot|]|].
    + simpl. rewrite !decide_True by done. intros a' Ha'. by apply (every_slot_free (g.(base_of) s) c).
    + intros [] h2 (K2 & g2 & HC2 & Hs2 & Ho2 & Hl2 & Hf2). apply wp_ret. split; [done|]. split; [by eapply held_kept_l|].
      exists g2. split; [|done]. split; [done|]. intros i c' Hi. rewrite Ho2 in Hi. destruct (decide (i = s)) as [->|Hne]; [done|].
      simpl in Hi. rewrite decide_False in Hi by done. rewrite Hl2, Hf2 by done. simpl. rewrite (decide_False (P := i = s)) by done.
      destruct (Hsort i c' Hi) as (k' & Hin & Hkind). exists k'. split; [|done].
      destruct (decide _) as [E|]; [|done]. injection E as -> ->. rewrite El in Hin. set_solver.
  - wp_step. eapply wp_mono; [apply (core_push slab_pool_addr g1 h1 c EmptyList s); [done|done|done|by intros; apply Hnot]|].
    intros [] h2 [HC2 M2]. apply wp_ret. split; [done|]. split; [eapply held_kept_memory; unfold same_memory in *; congruence|].
    eexists. split; [split; [exact HC2|]|done]. by apply (sorted_relisted slab_pool_addr Hpool).
Qed.

(** *** [slab_free_pointer] *)

Lemma slab_free_spec g h s c a :
  heap_inv g h -> g.(owner) s = Some c -> is_slot (g.(base_of) s) c a -> (a ∉ g.(free_of) s) ->
  wp (slab_free_pointer slab_pool_addr (a + 16)) (fun r h' => r = true /\ exists g', heap_inv g' h' /\ held_kept g' h h' /\
    (forall q len, held g' q len <-> held g q len /\ q <> a + 16)) h.
Proof.
  intros HI Ho Ha Hf. pose proof HI as [HC Hsort]. destruct (slab_facts slab_pool_addr g h s c HC Ho) as (r & Hr & Hbase & Sk & Hc & Hs).
  pose proof (fun o Hoff => slot_fits slab_pool_addr g h s c a o HC Ho Ha Hoff) as Hfit. pose proof (fun o Hoff => slot_word _ g h s c a o HC Ho Ha Hoff) as Hw.
  pose proof Ha as Ha'. rewrite <- Hbase in Ha'. destruct (so_headers _ _ _ _ _ _ Sk a Ha') as [M1 M2].
  destruct (slab_pointer_fits slab_pool_addr Hpool s Hs) as [_ Hpnz]. pose proof (so_use _ _ _ _ _ _ Sk) as Huse.
  set (F := g.(free_of) s) in *. destruct (cache_layout c Hc) as (_ & _ & _ & Hn & _).
  assert (Hcount : Z.of_nat (length (a :: F)) <= slots_per_page c).
  { apply (slots_count r.(page_base) c); [done|apply NoDup_cons; split; [done|apply Sk]|]. intros a' [->|Hin]%elem_of_cons; [done|by apply Sk]. }
  simpl in Hcount.
  assert (Hfull : (r.(free_list) =? 0) = bool_decide (F = []) /\ fits 32 r.(free_list)).
  { rewrite (chain_head _ _ _ (so_chain _ _ _ _ _ _ Sk)). destruct F as [|a2 F2] eqn:EF; [done|]. simpl.
    destruct (slot_fits slab_pool_addr g h s c a2 0 HC Ho) as (_ & Hnz & Hfa); [|lia|by split; [apply Z.eqb_neq|]].
    rewrite <- Hbase. apply (so_slots _ _ _ _ _ _ Sk). set_solver. }
  destruct Hfull as [Hfull Hffl].
  set (f := fun r0 => set_in_use (r.(in_use) - 1) (set_free_list a r0)).
  destruct (store32_done (a + 8) r.(free_list) h (hc_pages _ g h HC) (Hw 8 ltac:(lia))) as (p' & Hst & W).
  set (h2 := set_slab_metadata_pool (alter f (Z.to_nat s) h.(slab_metadata_pool)) (set_pages p' h)).
  assert (HC2 : heap_core (with_slab g s (Some c) (g.(base_of) s) (a :: F)) h2).
  { apply (core_set_slab slab_pool_addr g h s c a f r p'); try done; [by eapply written_changed|]. by apply (slab_ok_unpop slab_pool_addr Hpool h.(pages)). }
  assert (K2 : held_kept g h h2) by (apply (link_held slab_pool_addr g h s c a p'); try done; by eapply written_changed).
  pose proof (held_unpop g h s c a HC Ho Ha Hf) as Hheld. fold F in Hheld. set (g0 := with_slab g s (Some c) (g.(base_of) s) (a :: F)) in *.
  pose proof (slab_on_list g h s c a F HI Ho eq_refl (so_nodup _ _ _ _ _ _ Sk)) as Hlist.
  rewrite <- Hbase in Hlist. specialize (Hlist (so_slots _ _ _ _ _ _ Sk) Ha' Hf Hc).
  assert (Hend : forall (x : bool) h', x = true /\ held_kept g0 h2 h' /\ (exists g', heap_inv g' h' /\ same_held g0 g') ->
    x = true /\ exists g', heap_inv g' h' /\ held_kept g' h h' /\ (forall q len, held g' q len <-> held g q len /\ q <> a + 16)).
  { intros x h' (-> & K & g' & HI' & Hs'). split; [done|]. exists g'. split; [done|]. split.
    - intros q len y B Hy. apply Hs' in B. rewrite (K q len y B Hy). apply (K2 q len y); [|done]. by apply Hheld in B as [B _].
    - intros q len. by rewrite (Hs' q len), Hheld. }
  unfold slab_free_pointer. change sizeof_object_header with 16. replace (a + 16 - 16) with (a + 0) by lia.
  rewrite !(proj1 (Hfit 0 ltac:(lia))), Z.add_0_r. rewrite (proj1 (Hfit 4 ltac:(lia))), (proj1 (Hfit 8 ltac:(lia))).
  wp_step. eapply Done_wp; [apply load32_done; rewrite <- (Z.add_0_r a); apply Hw; lia|]. rewrite M1, Z.eqb_refl. cbn [negb].
  wp_step. eapply Done_wp; [apply load32_done, Hw; lia|]. rewrite M2, (proj2 (Z.eqb_neq _ _) Hpnz).
  wp_step. eapply wp_of_option; [by apply slab_of_slab_pointer|]. unfold slab_at at 1. wp_step. wp_step. wp_step. eapply wp_of_option; [exact Hr|].
  rewrite Hfull. wp_step. eapply Done_wp; [exact Hst|]. unfold slab_update. wp_step. wp_step.
  rewrite (proj2 (Z.eqb_neq r.(in_use) 0)) by lia. wp_step. wp_step. simpl. rewrite alter_alter.
  change (set_slab_metadata_pool _ (set_slab_metadata_pool _ (set_pages p' h))) with h2.
  destruct (r.(in_use) - 1 =? 0) eqn:E0; z_bools.
  - wp_step. eapply wp_of_option; [apply (so_cache _ _ _ _ _ _ Sk)|]. eapply wp_mono; [|exact Hend]. apply (emptied_spec g h2 s c _ true (a :: F)); try done; [by case_bool_decide|..].
    + apply NoDup_cons. split; [done|apply Sk].
    + intros a' [->|Hin]%elem_of_cons; [done|]. rewrite <- Hbase. by apply Sk.
    + simpl. lia.
  - case_bool_decide as HF; wp_step.
    + wp_step. eapply wp_of_option; [apply (so_cache _ _ _ _ _ _ Sk)|]. apply list_elem_of_split in Hlist as (l1 & l2 & El).
      eapply wp_mono; [apply (move_spec slab_pool_addr Hpool g h2 c s FullList PartialList (a :: F) (g.(base_of) s) l1 l2); done|].
      intros [] h3 (M3 & Hg'). apply wp_ret, Hend. split; [done|]. split; [by apply held_kept_memory|done].
    + apply wp_ret, wp_ret, Hend. split; [done|]. split; [done|]. exists g0. split; [|done]. split; [done|].
      by apply (sorted_stay g c s PartialList).
Qed.
End Free.
