(* ===== verification/HeapSpec.v ===== *)
(** The heap's interface against its abstract view, a set of blocks: [heap_init],
    [kmalloc], [kzalloc] and [kfree]. *)
From S2P Require Import Prelude PagingData Heap HeapFacts HeapInv HeapOps HeapSlab HeapObject HeapFree.
From Stdlib Require Import ZArith Lia.
From stdpp Require Import sets gmap.
Open Scope Z_scope.

Section Spec.
Context {P : Type} `{PageStore P} (slab_pool_addr : Z).
Context (Hpool : 0 < slab_pool_addr /\ slab_pool_addr + sizeof_slab * HEAP_MAX_SLABS <= 2 ^ 32).
Implicit Types (p : P) (h : heap (P := P)) (B : gset (Z * Z)).
Local Abbreviation heap_core := (heap_core slab_pool_addr).
Local Abbreviation heap_inv := (heap_inv slab_pool_addr).

(** ** The cache for a size *)

Lemma cache_for_size_spec g h size :
  heap_core g h -> 0 < size ->
  wp (slab_cache_for_size size) (fun r h' => h' = h /\ match r with
    | Some c => is_cache c /\ size <= osize c /\ (forall c', 0 <= c' < c -> osize c' < size)
    | None => 2048 < size
    end) h.
Proof.
  intros HC Hsz. unfold slab_cache_for_size.
  apply (wp_for _ _ _ (fun i h' => h' = h /\ forall c', 0 <= c' < i -> osize c' < size)); [unfold SLAB_CACHE_COUNT; lia| | |].
  - split; [done|]. lia.
  - intros i h' Hi [-> Hlt]. destruct (cache_at_done slab_pool_addr g h i HC Hi) as (kc & Hkc & _ & Hos & _).
    wp_step. eapply Done_wp; [exact Hkc|]. apply wp_ret. rewrite Hos. destruct (size <=? osize i) eqn:E; z_bools; [done|].
    split; [done|]. intros c' Hc'. destruct (Z.eq_dec c' i) as [->|]; [done|]. apply Hlt. lia.
  - intros h' [-> Hlt]. split; [done|]. apply (Hlt 8). unfold SLAB_CACHE_COUNT. lia.
Qed.

(** ** Large blocks *)

(** Rounding up to pages: no pages at all when it wraps around. *)
Definition large_pages (size : Z) : Z := align_up_size (u32 (size + sizeof_large_header)) PAGE_SIZE / PAGE_SIZE.

Lemma large_pages_eq size : large_pages size = u32 (size + 8 + PAGE_SIZE - 1) / PAGE_SIZE.
Proof.
  unfold large_pages, align_up_size. change sizeof_large_header with 8. change (PAGE_SIZE - 1) with (2 ^ 12 - 1).
  rewrite land_mask by (try apply wrap_fits; lia). change (2 ^ 12) with PAGE_SIZE. rewrite Z.div_mul by done. f_equal.
  unfold wrap. rewrite Zminus_mod, Zplus_mod_idemp_l, <- Zminus_mod. done.
Qed.

Lemma large_pages_range size : 0 <= large_pages size < 2 ^ 20.
Proof.
  rewrite large_pages_eq. pose proof (wrap_fits 32 (size + 8 + PAGE_SIZE - 1) ltac:(lia)) as Hf. unfold fits in *.
  unfold PAGE_SIZE in *. split; [apply Z.div_pos; lia|apply Z.div_lt_upper_bound; lia].
Qed.

(** Enough pages, or none. *)
Lemma large_pages_enough size : 0 < size <= 2 ^ 32 - 8 -> 0 < large_pages size -> size + 8 <= large_pages size * PAGE_SIZE.
Proof.
  intros Hs Hpos. rewrite large_pages_eq in *. unfold wrap in *.
  destruct (Z.lt_ge_cases (size + 8 + PAGE_SIZE - 1) (2 ^ 32)) as [Hlt|Hge].
  - rewrite Z.mod_small by (unfold PAGE_SIZE in *; lia). unfold PAGE_SIZE.
    pose proof (Z.div_mod (size + 8 + 4096 - 1) 4096 ltac:(lia)). pose proof (Z.mod_pos_bound (size + 8 + 4096 - 1) 4096 ltac:(lia)). lia.
  - rewrite <- (Z.mod_unique _ (2 ^ 32) 1 (size + 8 + PAGE_SIZE - 1 - 2 ^ 32)) in Hpos by (unfold PAGE_SIZE in *; lia).
    rewrite Z.div_small in Hpos by (unfold PAGE_SIZE in *; lia). lia.
Qed.

(** Adding the header's size wraps around. *)
Lemma large_pages_wrapped size : 2 ^ 32 - 8 < size < 2 ^ 32 -> large_pages size = 1.
Proof.
  intros Hs. rewrite large_pages_eq. unfold wrap.
  rewrite <- (Z.mod_unique _ (2 ^ 32) 1 (size + 8 + PAGE_SIZE - 1 - 2 ^ 32)) by (unfold PAGE_SIZE; lia).
  symmetry. apply (Z.div_unique _ _ _ (size + 8 - 1 - 2 ^ 32)); unfold PAGE_SIZE; lia.
Qed.

Definition with_large (g : ghost) (l : list (Z * Z)) : ghost :=
  mk_ghost g.(owner) g.(base_of) g.(free_of) g.(lists) g.(unused) l.

(** A run joins the heap as a large block. *)
Lemma core_large g h b n :
  heap_core g h -> (b, n) ∈ page_runs h.(pages) -> foreign g b ->
  read_u32 (page_byte h.(pages)) b = HEAP_LARGE_MAGIC -> read_u32 (page_byte h.(pages)) (b + 4) = n ->
  heap_core (with_large g ((b, n) :: g.(large))) h.
Proof.
  intros HC Hr [F1 F2] M1 M2. destruct HC. split; simpl; try done.
  - intros b' n' [[= -> ->]|Hl]%elem_of_cons; auto.
  - intros b' n' i c [[= -> ->]|Hl]%elem_of_cons; eauto.
Qed.

Lemma held_large g b n q len :
  held (with_large g ((b, n) :: g.(large))) q len <-> held g q len \/ (q = b + 8 /\ len = n * PAGE_SIZE - 8).
Proof.
  unfold held, large_block. simpl. split.
  - intros [Hs|(b' & n' & [[= -> ->]|Hl]%elem_of_cons & -> & ->)]; [by left; left|by right|]. left. right. by exists b', n'.
  - intros [[Hs|(b' & n' & Hl & -> & ->)]|[-> ->]]; [by left|right; exists b', n'; set_solver|right; exists b, n; set_solver].
Qed.

(** A block in a run that the heap did not have is new. *)
Lemma foreign_new g h b n q len : heap_core g h -> (b, n) ∈ page_runs h.(pages) -> foreign g b -> b <= q < b + n * PAGE_SIZE -> ~ held g q len.
Proof.
  intros HC Hr [F1 F2] Hq [(i & c & a & Ho & Ha & _ & -> & ->)|(b' & n' & Hl & -> & ->)].
  - destruct (hc_slab _ g h HC i c Ho) as (Hc & _). destruct (slot_bounds _ _ _ Hc Ha) as (S1 & S2 & _). destruct (cache_layout c Hc) as (? & ? & _).
    apply (F1 i c Ho). assert (E : (g.(base_of) i, 1) = (b, n)); [|congruence].
    apply (runs_same h.(pages) _ _ (a + 16) (hc_pages _ g h HC)); [by eapply owner_run|done|apply page_run_has; lia|unfold run_has; simpl; lia].
  - destruct (hc_large _ g h HC b' n' Hl) as (Hrl & _). apply (F2 b' n' Hl). assert (E : (b', n') = (b, n)); [|congruence].
    destruct (page_runs_range _ _ (hc_pages _ g h HC) Hrl) as (_ & _ & Hn & _). simpl in Hn.
    apply (runs_same h.(pages) _ _ (b' + 8) (hc_pages _ g h HC)); [done|done|unfold run_has, PAGE_SIZE; simpl; lia|unfold run_has; simpl; lia].
Qed.

Lemma allocate_large_spec g h size :
  heap_inv g h ->
  wp (allocate_large size) (fun q h' => held_kept g h h' /\
    ((q = 0 /\ heap_inv g h' /\ no_pages (large_pages size) h) \/
     exists g', heap_inv g' h' /\ 0 < q < 2 ^ 32 /\ 0 < large_pages size /\ ~ held g q (large_pages size * PAGE_SIZE - 8) /\
       (forall q' len', held g' q' len' <-> held g q' len' \/ (q' = q /\ len' = large_pages size * PAGE_SIZE - 8)))) h.
Proof.
  intros [HC Hsort]. pose proof (large_pages_range size) as Hn. unfold allocate_large. fold (large_pages size). set (n := large_pages size) in *.
  cbv zeta. wp_step. eapply wp_mono; [apply (core_alloc slab_pool_addr Hpool g h n HC); lia|]. intros [b|] h1 (HC1 & K1 & _ & Hb); [|apply wp_ret; split; [done|by left]].
  destruct Hb as (Hb & Hfor & _). pose proof (hc_pages _ g h1 HC1) as Hok. destruct (page_runs_range _ _ Hok Hb) as (_ & _ & Hn0 & _). simpl in Hn0.
  assert (Hfit : forall o, 0 <= o <= 8 -> u32 (b + o) = b + o /\ 0 < b + o < 2 ^ 32).
  { intros o Ho. destruct (run_fits _ b n (b + o) Hok Hb ltac:(unfold PAGE_SIZE; lia)) as [Hf Hpos]. split; [by apply wrap_small|]. unfold fits in Hf. lia. }
  assert (Hin : forall p o, page_runs p = page_runs h1.(pages) -> 0 <= o <= 4 -> bytes_in p (b + o) 4).
  { intros p o E Ho. exists (b, n). rewrite E. split; [done|]. unfold PAGE_SIZE. simpl. lia. }
  destruct (store32_done b HEAP_LARGE_MAGIC h1 Hok) as (p1 & R1 & W1); [rewrite <- (Z.add_0_r b); apply Hin; [done|lia]|].
  destruct (store32_done (b + 4) n (set_pages p1 h1) (wr_ok _ _ _ _ _ W1) (Hin p1 4 (wr_runs _ _ _ _ _ W1) ltac:(lia))) as (p2 & R2 & W2). simpl in W2.
  wp_step. eapply Done_wp; [exact R1|]. rewrite (proj1 (Hfit 4 ltac:(lia))). wp_step. eapply Done_wp; [exact R2|]. apply wp_ret.
  change sizeof_large_header with 8. rewrite (proj1 (Hfit 8 ltac:(lia))).
  assert (Hch : changed_only h1.(pages) p2 b 8).
  { eapply changed_trans; (eapply changed_sub; [by eapply written_changed|lia|lia]). }
  set (h2 := set_pages p2 h1). change (set_pages p2 (set_pages p1 h1)) with h2.
  assert (E2 : page_runs p2 = page_runs h1.(pages)) by (apply Hch).
  assert (HC2 : heap_core g h2) by (eapply (core_foreign _ g h1 p2 b n b 8); try done; unfold PAGE_SIZE; lia).
  split.
  - intros q len x B Hx. rewrite <- (K1 q len x B Hx). apply (foreign_block slab_pool_addr g h1 p2 b n b 8 q len); try done; unfold PAGE_SIZE; lia.
  - right. exists (with_large g ((b, n) :: g.(large))). split; [|split; [apply Hfit; lia|split; [lia|split]]].
    + split; [|done]. apply core_large; [done|simpl; by rewrite E2|done| |].
      * simpl. rewrite (written_other _ _ _ _ _ b W2) by (lia || (rewrite <- (Z.add_0_r b); apply Hin; [apply W1|lia])).
        apply (written_same _ _ _ _ W1); [rewrite <- (Z.add_0_r b); apply Hin; [done|lia]|apply magic_fits].
      * apply (written_same _ _ _ _ W2); [apply Hin; [apply W1|lia]|unfold fits; lia].
    + apply (foreign_new g h1 b n); try done. unfold PAGE_SIZE. lia.
    + intros q len. apply held_large.
Qed.

(** The runs after a large allocation. *)
Lemma store32_runs v x h h' : store32 v x h = Done tt h' -> page_runs h'.(pages) = page_runs h.(pages).
Proof.
  assert (H8 : forall v x h h', store8 v x h = Done tt h' -> page_runs h'.(pages) = page_runs h.(pages)).
  { intros v0 x0 h0 h1. unfold store8. run. destruct (mapped _ v0); [|done]. intros [= <-]. simpl. apply page_set_runs. }
  unfold store32, bind. destruct (store8 v x h) as [[] h1| | |] eqn:E1; try done. destruct (store8 _ _ h1) as [[] h2| | |] eqn:E2; try done.
  destruct (store8 _ _ h2) as [[] h3| | |] eqn:E3; try done. intros E4. apply H8 in E1, E2, E3, E4. congruence.
Qed.

Lemma allocate_large_runs h size q h' :
  page_ok h.(pages) -> allocate_large size h = Done q h' -> q <> 0 ->
  exists l1 l2, page_runs h.(pages) = l1 ++ l2 /\ page_runs h'.(pages) = l1 ++ (q - 8, large_pages size) :: l2.
Proof.
  intros Hok. unfold allocate_large. fold (large_pages size). pose proof (large_pages_range size) as Hn. cbv zeta.
  destruct (wp_Done _ _ _ (pages_alloc_spec h.(pages) (large_pages size) Hok ltac:(lia))) as (r & p1 & Hrun & Hok1 & _ & Hr).
  unfold bind at 1, on_pages. rewrite Hrun. destruct r as [b|]; [|by intros [= <- <-]]. destruct Hr as (l1 & l2 & E1 & E2).
  destruct (page_runs_range p1 (b, large_pages size) Hok1) as (B1 & B2 & B3 & _); [rewrite E2; set_solver|]. simpl in B1, B2, B3.
  unfold bind. destruct (store32 b _ _) as [[] h1| | |] eqn:S1; try done. destruct (store32 _ _ h1) as [[] h2| | |] eqn:S2; try done.
  intros [= <- <-] _. exists l1, l2. split; [done|]. rewrite (store32_runs _ _ _ _ S2), (store32_runs _ _ _ _ S1). simpl. rewrite E2.
  change sizeof_large_header with 8. rewrite wrap_small by (unfold KERNEL_DYNAMIC_BASE, KERNEL_DYNAMIC_LIMIT, PAGE_SIZE in *; word_lia).
  by replace (b + 8 - 8) with b by lia.
Qed.

(** ** [heap_init] *)

(** The zeroed statics, over pages that are in order. *)
Record heap_zeroed h : Prop := {
  hz_pages : page_ok h.(pages);
  hz_pool : Z.of_nat (length h.(slab_metadata_pool)) = HEAP_MAX_SLABS;
  hz_caches : Z.of_nat (length h.(slab_caches)) = SLAB_CACHE_COUNT
}.

Definition empty_ghost : ghost := mk_ghost (fun _ => None) (fun _ => 0) (fun _ => []) (fun _ _ => []) (seqZ 0 HEAP_MAX_SLABS) [].

Lemma linked_seqZ pool n lo hi :
  hi = lo + Z.of_nat n -> 0 <= lo ->
  (forall j, lo <= j < hi -> exists r, pool !! Z.to_nat j = Some r /\ r.(next) = if j + 1 =? hi then None else Some (j + 1)) ->
  linked pool (if lo =? hi then None else Some lo) (seqZ lo (hi - lo)).
Proof.
  revert lo. induction n as [|n IH]; intros lo -> Hlo Hp.
  - change (Z.of_nat 0) with 0. by rewrite Z.add_0_r, Z.sub_diag, Z.eqb_refl.
  - rewrite seqZ_cons by lia. rewrite (proj2 (Z.eqb_neq lo _)) by lia. split; [done|]. split; [done|].
    destruct (Hp lo ltac:(lia)) as (r & Hr & Hn). exists r. split; [done|]. rewrite Hn.
    replace (Z.pred (lo + Z.of_nat (S n) - lo)) with (lo + Z.of_nat (S n) - Z.succ lo) by lia. apply (IH (Z.succ lo)); [lia|lia|].
    intros j Hj. apply Hp. lia.
Qed.

Lemma heap_init_spec h : heap_zeroed h ->
  wp heap_init (fun _ h' => heap_inv empty_ghost h' /\ h'.(pages) = h.(pages) /\
    h'.(heap_begin) = KERNEL_DYNAMIC_BASE /\ h'.(heap_limit) = KERNEL_DYNAMIC_LIMIT) h.
Proof.
  intros [Hok Hpl Hcl]. unfold heap_init. wp_step.
  apply (wp_for_each _ _ _ (fun i h' => h'.(pages) = h.(pages) /\ length h'.(slab_caches) = length h.(slab_caches) /\
    length h'.(slab_metadata_pool) = length h.(slab_metadata_pool) /\
    forall j, 0 <= j < i -> exists r, h'.(slab_metadata_pool) !! Z.to_nat j = Some r /\ r.(next) = Some (j + 1))).
  - unfold HEAP_MAX_SLABS. lia.
  - split; [done|]. split; [done|]. split; [done|]. intros; lia.
  - intros i h1 Hi (E1 & E2 & E3 & Hn). unfold slab_update. wp_step. simpl. rewrite length_alter. do 3 (split; [done|]).
    intros j Hj. destruct (Z.eq_dec j i) as [->|Hne].
    + rewrite list_lookup_alter_eq. destruct (lookup_lt_is_Some_2 h1.(slab_metadata_pool) (Z.to_nat i)) as [r ->]; [lia|]. eexists. by split.
    + rewrite list_lookup_alter_ne by lia. apply Hn. lia.
  - intros h1 (E1 & E2 & E3 & Hn). unfold slab_update. wp_step. wp_step. wp_step. wp_step. wp_step.
    set (h2 := set_slab_metadata_free_list _ _).
    assert (Hlink : linked h2.(slab_metadata_pool) h2.(slab_metadata_free_list) (seqZ 0 HEAP_MAX_SLABS)).
    { change (seqZ 0 HEAP_MAX_SLABS) with (seqZ 0 (HEAP_MAX_SLABS - 0)). change (h2.(slab_metadata_free_list)) with (if 0 =? HEAP_MAX_SLABS then None else Some 0).
      apply (linked_seqZ _ 256); [done|lia|]. intros j Hj. simpl. destruct (j + 1 =? HEAP_MAX_SLABS) eqn:Ej; z_bools.
      - assert (j = HEAP_MAX_SLABS - 1) as -> by lia. rewrite list_lookup_alter_eq.
        destruct (lookup_lt_is_Some_2 h1.(slab_metadata_pool) (Z.to_nat (HEAP_MAX_SLABS - 1))) as [r ->]; [lia|]. eexists. by split.
      - rewrite list_lookup_alter_ne by (unfold HEAP_MAX_SLABS in *; lia). apply Hn. lia. }
    assert (E3' : length h2.(slab_metadata_pool) = length h.(slab_metadata_pool)) by (simpl; by rewrite length_alter).
    apply (wp_for_each _ _ _ (fun i h' => (exists l, h' = set_slab_caches l h2) /\ length h'.(slab_caches) = length h.(slab_caches) /\
      forall c, 0 <= c < i -> h'.(slab_caches) !! Z.to_nat c = Some (mk_cache (osize c) (slot c) None None None))).
    + unfold SLAB_CACHE_COUNT. lia.
    + split; [exists h2.(slab_caches); by destruct h2|]. split; [done|]. intros; lia.
    + intros i h3 Hi ([l ->] & El & Hc). destruct (cache_layout i Hi) as (_ & _ & _ & _ & _ & Hos & Hsl).
      wp_step. eapply wp_of_option; [exact Hos|]. unfold cache_update. wp_step. simpl in El |- *. rewrite Hsl, length_alter. split; [eauto|]. split; [done|].
      intros c Hcc. destruct (Z.eq_dec c i) as [->|Hne].
      * rewrite list_lookup_alter_eq. by destruct (lookup_lt_is_Some_2 l (Z.to_nat i)) as [r ->]; [lia|].
      * rewrite list_lookup_alter_ne by lia. apply Hc. lia.
    + intros h3 ([l ->] & El & Hc). wp_step. wp_step. wp_step. simpl in El, Hc. split; [|done]. split; [|done]. split; simpl; try done.
      * congruence.
      * rewrite length_alter. lia.
      * intros c Hcc. eexists. split; [by apply Hc|done].
      * intros c k Hcc. eexists. split; [by apply Hc|]. by destruct k.
      * intros. apply NoDup_nil_2.
      * apply NoDup_seqZ.
      * intros c k i _ Hi. by apply not_elem_of_nil in Hi.
      * intros c k k' i _ Hi. by apply not_elem_of_nil in Hi.
      * intros b n Hb. by apply not_elem_of_nil in Hb.
Qed.
End Spec.
