(* ===== verification/HeapApi.v ===== *)
(** The heap's interface against its abstract view, a set of blocks. *)
From S2P Require Import Prelude PagingData Heap HeapFacts HeapInv HeapOps HeapSlab HeapObject HeapFree HeapSpec.
From Stdlib Require Import ZArith Lia.
From stdpp Require Import sets gmap.
Open Scope Z_scope.

(** The size of the block that [kmalloc] returns for a request. *)
Definition block_size (size : Z) : Z :=
  match list_find (fun s => size <= s) object_sizes with
  | Some (_, s) => s
  | None => large_pages size * PAGE_SIZE - 8
  end.

Lemma object_sizes_lookup i s : object_sizes !! i = Some s -> is_cache (Z.of_nat i) /\ s = osize (Z.of_nat i).
Proof.
  intros E. assert (Hc : is_cache (Z.of_nat i)) by (apply lookup_lt_Some in E; unfold is_cache, SLAB_CACHE_COUNT; simpl in E; lia).
  split; [done|]. destruct (cache_layout _ Hc) as (_ & _ & _ & _ & _ & Hs & _). rewrite Nat2Z.id in Hs. congruence.
Qed.

(** The smallest cache that serves the size. *)
Lemma block_size_small c size : is_cache c -> size <= osize c -> (forall c', 0 <= c' < c -> osize c' < size) -> block_size size = osize c.
Proof.
  intros Hc Hs Hmin. destruct (cache_layout c Hc) as (_ & _ & _ & _ & _ & Ho & _). unfold block_size.
  replace (list_find _ object_sizes) with (Some (Z.to_nat c, osize c)); [done|]. symmetry. apply list_find_Some. split; [done|]. split; [done|].
  intros j s Hj Hlt. destruct (object_sizes_lookup j s Hj) as [_ ->]. unfold is_cache in Hc. pose proof (Hmin (Z.of_nat j) ltac:(lia)). lia.
Qed.

Lemma block_size_large size : 2048 < size -> block_size size = large_pages size * PAGE_SIZE - 8.
Proof.
  intros Hs. unfold block_size. destruct (list_find _ _) as [[i s]|] eqn:E; [|done]. apply list_find_Some in E as (E & Hle & _).
  destruct (object_sizes_lookup i s E) as [Hc ->]. destruct (cache_layout _ Hc) as (Ho & _). lia.
Qed.

Lemma block_size_enough n : 0 < n <= 2 ^ 32 - 8 -> 0 < block_size n -> n <= block_size n.
Proof.
  intros Hn. unfold block_size. destruct (list_find _ _) as [[i s]|] eqn:E; [by apply list_find_Some in E as (_ & Hle & _)|].
  intros Hpos. pose proof (large_pages_enough n Hn ltac:(unfold PAGE_SIZE in *; lia)). lia.
Qed.

(** The addition of the header's size wraps around for the largest requests. *)
Lemma block_size_wrapped size : 2 ^ 32 - 8 < size < 2 ^ 32 -> block_size size = 4088.
Proof. intros Hs. rewrite block_size_large, large_pages_wrapped by lia. done. Qed.

Section Api.
Context {P : Type} `{PageStore P} (slab_pool_addr : Z).
Context (Hpool : 0 < slab_pool_addr /\ slab_pool_addr + sizeof_slab * HEAP_MAX_SLABS <= 2 ^ 32).
Implicit Types (p : P) (h : heap (P := P)) (B : gset (Z * Z)).
Local Abbreviation heap_inv := (heap_inv slab_pool_addr).

(** The heap is in order and its clients hold the blocks [B]. *)
Definition heap_ok h B : Prop := exists g, heap_inv g h /\ forall q len, (q, len) ∈ B <-> held g q len.

(** The blocks [B] have the same contents. *)
Definition blocks_kept B h h' : Prop :=
  forall q len x, (q, len) ∈ B -> q <= x < q + len -> page_byte h'.(pages) x = page_byte h.(pages) x.

(** The request cannot be met: the size's cache has neither a free object nor the record
    and the page for a new slab, or there is no run for a large block. *)
Definition exhausted h (size : Z) : Prop :=
  if size <=? 2048 then
    exists c k, h.(slab_caches) !! c = Some k /\ k.(object_size) = block_size size /\ k.(partial) = None /\ k.(Heap.empty) = None /\
      (h.(slab_metadata_free_list) = None \/ no_pages 1 h)
  else no_pages (large_pages size) h.

Lemma held_kept_blocks g h h' B : (forall q len, (q, len) ∈ B -> held g q len) -> held_kept g h h' -> blocks_kept B h h'.
Proof. intros HB K q len x Hin Hx. apply (K q len x); [auto|done]. Qed.

Lemma linked_nil_head pool head : linked pool head [] -> head = None.
Proof. done. Qed.

Lemma no_slab_exhausted g h c size : heap_inv g h -> is_cache c -> size <= osize c -> block_size size = osize c -> no_slab g h c -> exhausted h size.
Proof.
  intros [HC _] Hc Hs Hb (Hp & He & Hno). destruct (cache_layout c Hc) as (Ho & _). unfold exhausted. replace (size <=? 2048) with true by lia.
  destruct (hc_sizes _ g h HC c Hc) as (kc & Hkc & H1 & _). exists (Z.to_nat c), kc. split; [done|]. split; [congruence|].
  destruct (hc_lists _ g h HC c PartialList Hc) as (kc1 & Hk1 & Hl1). destruct (hc_lists _ g h HC c EmptyList Hc) as (kc2 & Hk2 & Hl2).
  assert (kc1 = kc) as -> by congruence. assert (kc2 = kc) as -> by congruence. rewrite Hp in Hl1. rewrite He in Hl2.
  split; [done|]. split; [done|]. destruct Hno as [Hno|Hu]; [by right|left]. pose proof (hc_unused _ g h HC) as Hl. by rewrite Hu in Hl.
Qed.

(** ** [kmalloc] *)

(** The allocation of [kmalloc], before it looks at the result. *)
Lemma allocation_spec g h n :
  heap_inv g h -> 0 < n ->
  wp (c <- slab_cache_for_size n ;; match c with Some c => slab_alloc_from_cache slab_pool_addr c | None => allocate_large n end)
    (fun q h' => held_kept g h h' /\ ((q = 0 /\ heap_inv g h' /\ exhausted h n) \/
       exists g', heap_inv g' h' /\ 0 < q < 2 ^ 32 /\ 0 < block_size n /\ ~ held g q (block_size n) /\
         (forall q' len, held g' q' len <-> held g q' len \/ (q' = q /\ len = block_size n)))) h.
Proof.
  intros HI Hn. pose proof HI as [HC _]. wp_step. eapply wp_mono; [apply (cache_for_size_spec slab_pool_addr g h n HC); lia|]. intros [c|] h1 [-> Hc].
  - destruct Hc as (Hc & Hle & Hmin). pose proof (block_size_small c n Hc Hle Hmin) as Eb. rewrite Eb.
    eapply wp_mono; [by apply (slab_alloc_spec slab_pool_addr Hpool g h c)|]. intros q h1 (K & [(-> & HI1 & Hno)|(g' & HI1 & Hq & Hnew & Hh)]).
    + split; [done|]. left. split; [done|]. split; [done|]. by apply (no_slab_exhausted g h c).
    + split; [done|]. right. exists g'. destruct (cache_layout c Hc) as (Ho & _). by split; [|split; [|split; [lia|]]].
  - eapply wp_mono; [by apply (allocate_large_spec slab_pool_addr Hpool g h n)|]. rewrite (block_size_large n Hc).
    intros q h1 (K & [(-> & HI1 & Hno)|(g' & HI1 & Hq & Hpos & Hr)]); (split; [done|]); [left|right; exists g'; split; [done|]; split; [done|]; split; [unfold PAGE_SIZE; lia|done]].
    split; [done|]. split; [done|]. unfold exhausted. by replace (n <=? 2048) with false by lia.
Qed.

Lemma kmalloc_spec B h size :
  heap_ok h B -> 0 <= size ->
  let n := if size =? 0 then 1 else size in
  match kmalloc slab_pool_addr size h with
  | Done q h' => heap_ok h' ({[(q, block_size n)]} ∪ B) /\ 0 < block_size n /\ ((q, block_size n) ∉ B) /\ blocks_kept B h h'
  | Panic msg h' => msg = "kmalloc exhausted heap resources"%string /\ exhausted h n /\ heap_ok h' B /\ blocks_kept B h h'
  | _ => False
  end.
Proof.
  intros (g & HI & HB) Hs n. assert (Hn : 0 < n) by (unfold n; destruct (size =? 0) eqn:E; z_bools; lia).
  unfold kmalloc. pose proof HI as [HC _]. run. rewrite (hc_ready _ g h HC). cbn [negb]. fold n. cbv zeta.
  destruct (wp_Done _ _ _ (allocation_spec g h n HI Hn)) as (q & h' & Hrun & K & Hq).
  rewrite <- run_bind_bind, (run_bind_done _ _ _ _ _ Hrun). pose proof (held_kept_blocks g h h' B ltac:(intros; by apply HB) K) as KB.
  destruct Hq as [(-> & HI' & Hex)|(g' & HI' & Hq & Hle & Hnew & Hh)].
  - rewrite Z.eqb_refl, run_panic. split; [done|]. split; [done|]. split; [by exists g|done].
  - rewrite (proj2 (Z.eqb_neq q 0)) by lia. rewrite run_ret. split; [|split; [done|split; [by rewrite HB|done]]].
    exists g'. split; [done|]. intros q' len. rewrite Hh, elem_of_union, elem_of_singleton, HB. naive_solver.
Qed.

(** The run of a large block. *)
Lemma kmalloc_large_runs h B size q h' :
  heap_ok h B -> 2048 < size -> kmalloc slab_pool_addr size h = Done q h' ->
  exists l1 l2, page_runs h.(pages) = l1 ++ l2 /\ page_runs h'.(pages) = l1 ++ (q - 8, large_pages size) :: l2.
Proof.
  intros (g & [HC _] & _) Hs. unfold kmalloc. run. rewrite (hc_ready _ g h HC). cbn [negb]. rewrite (proj2 (Z.eqb_neq size 0)) by lia. cbv zeta.
  destruct (wp_Done _ _ _ (cache_for_size_spec slab_pool_addr g h size HC ltac:(lia))) as (r & h1 & Hrun & -> & Hr).
  rewrite (run_bind_done _ _ _ _ _ Hrun). destruct r as [c|].
  { destruct Hr as (Hc & Hle & _). destruct (cache_layout c Hc) as (Ho & _). lia. }
  unfold bind. destruct (allocate_large size h) as [q1 h1| | |] eqn:Ea; try done. destruct (q1 =? 0) eqn:E0; [done|]. z_bools. intros [= <- <-].
  by apply (allocate_large_runs slab_pool_addr Hpool h size q1 h1 (hc_pages _ g h HC)).
Qed.

(** ** The blocks *)

Lemma block_place h B q len : heap_ok h B -> (q, len) ∈ B ->
  KERNEL_DYNAMIC_BASE < q /\ q + len <= KERNEL_DYNAMIC_LIMIT /\ 0 < len /\ q mod 8 = 0 /\ bytes_in h.(pages) q len.
Proof.
  intros (g & [HC _] & HB) Hin. apply HB in Hin. destruct (block_run _ g h q len HC Hin) as (r & Hr & H1 & H2 & H3 & H4).
  destruct (page_runs_range _ _ (hc_pages _ g h HC) Hr) as (H5 & H6 & _). split; [lia|]. split; [lia|]. split; [done|]. split; [done|].
  exists r. split; [done|]. lia.
Qed.

Lemma block_disjoint h B q len q' len' : heap_ok h B -> (q, len) ∈ B -> (q', len') ∈ B -> (q, len) <> (q', len') -> q + len <= q' \/ q' + len' <= q.
Proof. intros (g & [HC _] & HB) H1%HB H2%HB Hne. by apply (blocks_apart slab_pool_addr g h). Qed.

(** One block per address. *)
Lemma block_unique h B q len len' : heap_ok h B -> (q, len) ∈ B -> (q, len') ∈ B -> len = len'.
Proof.
  intros HO H1 H2. destruct (decide (len = len')) as [|Hne]; [done|]. destruct (block_place h B q len HO H1) as (_ & _ & P1 & _).
  destruct (block_place h B q len' HO H2) as (_ & _ & P2 & _). destruct (block_disjoint h B q len q len' HO H1 H2); [congruence|lia|lia].
Qed.

(** A client's write inside a block. *)
Lemma client_write_spec h B q len v x : heap_ok h B -> (q, len) ∈ B -> q <= v < q + len ->
  wp (store8 v x) (fun _ h' => heap_ok h' B /\ page_byte h'.(pages) v = u8 x /\
    forall w, in_runs (page_runs h.(pages)) w -> w <> v -> page_byte h'.(pages) w = page_byte h.(pages) w) h.
Proof.
  intros HO Hin Hv. destruct (block_place h B q len HO Hin) as (_ & _ & _ & _ & Hb). destruct HO as (g & [HC Hsort] & HB).
  pose proof (hc_pages _ g h HC) as Hok. assert (Hrv : in_runs (page_runs h.(pages)) v) by (by eapply bytes_in_runs).
  eapply Done_wp; [by apply store8_done|]. simpl. split; [|split].
  - exists g. split; [|done]. split; [|done]. apply (core_write slab_pool_addr g h _ 1 v x q len); [done|by apply HB|lia|lia|by apply store8_written].
  - rewrite page_set_byte by done. by rewrite Z.eqb_refl.
  - intros w Hw Hne. rewrite page_set_byte by done. by rewrite (proj2 (Z.eqb_neq w v)).
Qed.

(** ** [kfree] *)

(** Removing a block by its address. *)
Lemma removed_ok g g' h h' B q len : heap_ok h B -> (forall q len, (q, len) ∈ B <-> held g q len) -> (q, len) ∈ B ->
  heap_inv g' h' -> (forall q' len', held g' q' len' <-> held g q' len' /\ q' <> q) -> heap_ok h' (B ∖ {[(q, len)]}).
Proof.
  intros HO HB Hin HI' Hh. exists g'. split; [done|]. intros q' len'. rewrite Hh, elem_of_difference, elem_of_singleton, <- HB. split.
  - intros [Hin' Hne]. split; [done|]. intros ->. apply Hne. f_equal. by apply (block_unique h B q len' len).
  - intros [Hin' Hne]. split; [done|]. congruence.
Qed.

Lemma kfree_small_spec h B q len : heap_ok h B -> (q, len) ∈ B -> len <= 2048 ->
  wp (kfree slab_pool_addr q) (fun _ h' => heap_ok h' (B ∖ {[(q, len)]}) /\ blocks_kept (B ∖ {[(q, len)]}) h h') h.
Proof.
  intros HO Hin Hlen. destruct (block_place h B q len HO Hin) as (Hq & _). pose proof HO as (g & HI & HB). pose proof Hin as Hheld. apply HB in Hheld.
  destruct Hheld as [(i & c & a & Ho & Ha & Hf & -> & ->)|(b & n & Hl & -> & ->)].
  - unfold kfree. unfold KERNEL_DYNAMIC_BASE in Hq. rewrite (proj2 (Z.eqb_neq _ 0)) by lia. wp_step.
    eapply wp_mono; [by apply (slab_free_spec slab_pool_addr Hpool g h i c a)|]. intros r h' (-> & g' & HI' & K & Hh). apply wp_ret.
    pose proof (removed_ok g g' h h' B _ _ HO HB Hin HI' Hh) as HO'. split; [done|]. apply (held_kept_blocks g'); [|done].
    intros q' len'. rewrite elem_of_difference, elem_of_singleton. intros [Hin' Hne]. apply Hh. split; [by apply HB|].
    intros ->. apply Hne. f_equal. by apply (block_unique h B (a + 16) len' (osize c)).
  - exfalso. destruct HI as [HC _]. destruct (hc_large _ g h HC b n Hl) as (Hr & _).
    destruct (page_runs_range _ _ (hc_pages _ g h HC) Hr) as (_ & _ & Hn & _). unfold PAGE_SIZE in *. simpl in *. lia.
Qed.

(** The large allocations but one. *)
Lemma core_unlarge g h b n : heap_core slab_pool_addr g h -> heap_core slab_pool_addr (with_large g (filter (fun r => r <> (b, n)) g.(large))) h.
Proof.
  intros HC. destruct HC. split; simpl; try done.
  - intros b' n' [_ Hl]%list_elem_of_filter. auto.
  - intros b' n' i c [_ Hl]%list_elem_of_filter. eauto.
Qed.

Lemma held_unlarge g h b n : heap_core slab_pool_addr g h -> (b, n) ∈ g.(large) ->
  forall q len, held (with_large g (filter (fun r => r <> (b, n)) g.(large))) q len <-> held g q len /\ q <> b + 8.
Proof.
  intros HC Hl q len. unfold held, large_block. simpl. split.
  - intros [Hs|(b' & n' & [Hne Hl']%list_elem_of_filter & -> & ->)].
    + split; [by left|]. destruct Hs as (i & c & a & Ho & Ha & _ & -> & _). intros E. by apply (large_slot slab_pool_addr g h b n i c a).
    + split; [right; by exists b', n'|]. intros E. assert (b' = b) as -> by lia. apply Hne. f_equal.
      destruct (hc_large _ g h HC _ _ Hl) as (Hr & _). destruct (hc_large _ g h HC _ _ Hl') as (Hr' & _). by apply (runs_base h.(pages) b n' n (hc_pages _ g h HC)).
  - intros [[Hs|(b' & n' & Hl' & -> & ->)] Hne]; [by left|right]. exists b', n'. rewrite list_elem_of_filter. split; [|done]. split; [|done].
    intros [= -> ->]. done.
Qed.

(** A large block's header is at the start of its run: 16 bytes below the block is the
    page before. *)
Lemma large_facts h B q len : heap_ok h B -> (q, len) ∈ B -> 2048 < len -> exists g b n, heap_inv g h /\
  (forall q len, (q, len) ∈ B <-> held g q len) /\ (b, n) ∈ g.(large) /\ q = b + 8 /\ KERNEL_DYNAMIC_BASE <= b < KERNEL_DYNAMIC_LIMIT /\ b mod PAGE_SIZE = 0.
Proof.
  intros (g & HI & HB) Hin Hlen. apply HB in Hin as Hh. exists g. destruct Hh as [(i & c & a & Ho & _ & _ & _ & ->)|(b & n & Hl & -> & ->)].
  - destruct (hc_slab _ g h (hi_core _ _ _ HI) i c Ho) as (Hc & _). destruct (cache_layout c Hc) as (Hle & _). lia.
  - exists b, n. destruct (hc_large _ g h (hi_core _ _ _ HI) b n Hl) as (Hr & _).
    destruct (page_runs_range _ _ (hc_pages _ g h (hi_core _ _ _ HI)) Hr) as (H1 & H2 & H3 & H4). simpl in *.
    split; [done|]. split; [done|]. split; [done|]. split; [done|]. split; [unfold PAGE_SIZE in *; lia|done].
Qed.

Lemma below_header b : KERNEL_DYNAMIC_BASE <= b < KERNEL_DYNAMIC_LIMIT -> b + 8 <> 0 /\ u32 (b + 8 - sizeof_object_header) = b - 8 /\
  u32 (b - 8 + 4) = b - 4 /\ u32 (b + 8 - sizeof_large_header) = b /\ u32 (b + 4) = b + 4.
Proof.
  unfold KERNEL_DYNAMIC_BASE, KERNEL_DYNAMIC_LIMIT, sizeof_object_header, sizeof_large_header. intros Hb.
  split; [lia|]. rewrite !wrap_small by word_lia. lia.
Qed.

Lemma kfree_large_fault h B q len : heap_ok h B -> (q, len) ∈ B -> 2048 < len -> mapped h.(pages) (q - 16) = false -> kfree slab_pool_addr q h = Fault.
Proof.
  intros HO Hin Hlen Hm. destruct (large_facts h B q len HO Hin Hlen) as (g & b & n & _ & _ & _ & -> & Hb & _).
  destruct (below_header b Hb) as (Hnz & E1 & _). unfold kfree, slab_free_pointer. rewrite (proj2 (Z.eqb_neq _ 0)) by done. rewrite E1. cbv zeta.
  run. unfold load32. run. replace (b + 8 - 16) with (b - 8) in Hm by lia. rewrite Hm. cbn [andb]. by rewrite run_bind_fault.
Qed.

(** The rest of the page before is mapped as well. *)
Lemma page_before p b : page_ok p -> b mod PAGE_SIZE = 0 -> mapped p (b - 8) = true -> bytes_in p (b - 8) 8.
Proof.
  intros Hok Hb (r & Hr & H1 & H2)%mapped_spec. exists r. split; [done|]. destruct (page_runs_range p r Hok Hr) as (_ & _ & _ & Ha).
  split; [done|]. apply Z.mod_divide in Hb as [x ->], Ha as [y Ey]; try done. rewrite Ey in *. unfold PAGE_SIZE in *. lia.
Qed.

(** What [slab_free_pointer] makes of a pointer that is not an object's. *)
Definition looks_like_object h (q : Z) : bool :=
  (read_u32 (page_byte h.(pages)) (q - 16) =? HEAP_SLAB_MAGIC) && negb (read_u32 (page_byte h.(pages)) (q - 12) =? 0).

Lemma slab_free_refuses h b : KERNEL_DYNAMIC_BASE <= b < KERNEL_DYNAMIC_LIMIT -> bytes_in h.(pages) (b - 8) 8 ->
  looks_like_object h (b + 8) = false -> slab_free_pointer slab_pool_addr (b + 8) h = Done false h.
Proof.
  intros Hb (r & Hr & H1 & H2). unfold looks_like_object. replace (b + 8 - 16) with (b - 8) by lia. replace (b + 8 - 12) with (b - 4) by lia. intros Hn.
  destruct (below_header b Hb) as (_ & E1 & E2 & _). unfold slab_free_pointer. rewrite E1. cbv zeta. rewrite E2.
  erewrite run_bind_done by (apply load32_done; exists r; split; [done|lia]).
  destruct (_ =? HEAP_SLAB_MAGIC); [|done]. cbn [negb andb] in *. erewrite run_bind_done by (apply load32_done; exists r; split; [done|lia]).
  apply negb_false_iff in Hn. by rewrite Hn.
Qed.

Lemma kfree_large_spec h B q len : heap_ok h B -> (q, len) ∈ B -> 2048 < len ->
  mapped h.(pages) (q - 16) = true -> looks_like_object h q = false ->
  wp (kfree slab_pool_addr q) (fun _ h' => heap_ok h' (B ∖ {[(q, len)]}) /\ blocks_kept (B ∖ {[(q, len)]}) h h') h.
Proof.
  intros HO Hin Hlen Hm Hlook. destruct (large_facts h B q len HO Hin Hlen) as (g & b & n & HI & HB & Hl & -> & Hb & Hba).
  destruct (below_header b Hb) as (Hnz & _ & _ & E3 & E4). pose proof HI as [HC Hsort]. pose proof (hc_pages _ g h HC) as Hok.
  replace (b + 8 - 16) with (b - 8) in Hm by lia. destruct (hc_large _ g h HC b n Hl) as (Hr & M1 & M2).
  unfold kfree. rewrite (proj2 (Z.eqb_neq _ 0)) by done. wp_step.
  eapply Done_wp; [apply slab_free_refuses; [done|by apply page_before|done]|]. cbv zeta iota. rewrite E3, E4.
  wp_step. eapply Done_wp; [apply load32_done; rewrite <- (Z.add_0_r b); eapply (large_word slab_pool_addr g h b n); [done|done|lia]|].
  rewrite M1, Z.eqb_refl. cbn [negb]. wp_step.
  eapply Done_wp; [apply load32_done; eapply (large_word slab_pool_addr g h b n); [done|done|lia]|]. rewrite M2.
  pose proof (held_unlarge g h b n HC Hl) as Hh. pose proof (core_unlarge g h b n HC) as HC1. set (g1 := with_large g _) in *.
  assert (Hfor : foreign g1 b).
  { split; simpl; [intros i c Ho E; by apply (hc_large_bases _ g h HC b n i c)|]. intros b' n' [Hne Hl']%list_elem_of_filter ->. apply Hne. f_equal.
    destruct (hc_large _ g h HC _ _ Hl') as (Hr' & _). by apply (runs_base h.(pages) b n' n Hok). }
  eapply wp_mono; [by apply (core_free slab_pool_addr Hpool g1 h b n)|]. intros [] h' (HC' & K & _).
  split; [apply (removed_ok g g1 h h' B); try done; by split|]. apply (held_kept_blocks g1); [|done].
  intros q' len'. rewrite elem_of_difference, elem_of_singleton. intros [Hin' Hne]. apply Hh. split; [by apply HB|].
  intros ->. apply Hne. f_equal. by apply (block_unique h B (b + 8) len' len).
Qed.

(** ** [kzalloc] *)

Lemma zero_spec h B q len size : heap_ok h B -> (q, len) ∈ B -> 0 <= size <= len ->
  wp (for_each 0 size (fun i => store8 (u32 (q + i)) 0)) (fun _ h' => heap_ok h' B /\
    (forall x, q <= x < q + size -> page_byte h'.(pages) x = 0) /\ page_runs h'.(pages) = page_runs h.(pages) /\
    forall x, in_runs (page_runs h.(pages)) x -> x < q \/ q + size <= x -> page_byte h'.(pages) x = page_byte h.(pages) x) h.
Proof.
  intros HO Hin Hs. destruct (block_place h B q len HO Hin) as (P1 & P2 & _ & _ & Hb).
  apply (wp_for_each _ _ _ (fun i h' => heap_ok h' B /\ (forall x, q <= x < q + i -> page_byte h'.(pages) x = 0) /\
    page_runs h'.(pages) = page_runs h.(pages) /\
    forall x, in_runs (page_runs h.(pages)) x -> x < q \/ q + i <= x -> page_byte h'.(pages) x = page_byte h.(pages) x)); [lia| | |done].
  - split; [done|]. split; [lia|]. done.
  - intros i h1 Hi (HO1 & Hz & Hr & Ho). rewrite wrap_small by (unfold KERNEL_DYNAMIC_BASE, KERNEL_DYNAMIC_LIMIT in *; word_lia).
    destruct (wp_Done _ _ _ (client_write_spec h1 B q len (q + i) 0 HO1 Hin ltac:(lia))) as ([] & h2 & Hrun & HO2 & Hv & Hother).
    eapply Done_wp; [exact Hrun|]. assert (Hrv : in_runs (page_runs h1.(pages)) (q + i)) by (rewrite Hr; eapply bytes_in_runs; [done|lia]).
    rewrite (store8_done _ _ _ Hrv) in Hrun. injection Hrun as <-. simpl in *. rewrite page_set_runs. split; [done|].
    assert (Hin1 : forall x, q <= x < q + i -> in_runs (page_runs h1.(pages)) x) by (intros x Hx; rewrite Hr; eapply bytes_in_runs; [done|lia]).
    split; [|split; [done|]].
    + intros x Hx. destruct (Z.eq_dec x (q + i)) as [->|Hne]; [done|]. rewrite Hother by (done || apply Hin1; lia). apply Hz. lia.
    + intros x Hx Ha. rewrite Hother by (lia || by rewrite Hr). apply Ho; [done|lia].
Qed.
End Api.
