(* ===== verification/HeapPaging.v ===== *)
(** Paging provides the pages of the heap: the kernel's runs of pages, seen through
    their translation, are a [PageStore]. *)
From S2P Require Import Prelude Bootinfo Pmm PmmFacts PmmAlloc PmmSpec Vma VmaFacts VmaSpec.
From S2P Require Import PagingData PagingTables Paging PagingFacts PagingAlloc PagingSpec PagingFree Heap.
From Stdlib Require Import ZArith Lia.
From stdpp Require Import sets.
Open Scope Z_scope.

Section Store.
Context (img : kernel_image) (Himg : image_ok img).
Implicit Types (s : paging).

(** ** Runs *)

Definition interval_run (i : Z * Z * Z) : Z * Z := (i.1.1, (i.1.2 - i.1.1) / PAGE_SIZE).
Definition kernel_runs s : list (Z * Z) := interval_run <$> intervals s.(kernel_vma_tree).(root).

Lemma interval_run_eq base n f : interval_run (base, base + n * PAGE_SIZE, f) = (base, n).
Proof. unfold interval_run. simpl. replace (base + n * PAGE_SIZE - base) with (n * PAGE_SIZE) by lia. by rewrite Z.div_mul. Qed.

Lemma interval_end s i : kernel_pages img s -> i ∈ intervals s.(kernel_vma_tree).(root) ->
  i.1.1 + (interval_run i).2 * PAGE_SIZE = i.1.2 /\ 0 < (interval_run i).2.
Proof.
  intros KP Hi. destruct (kp_range img s KP i Hi) as (_ & _ & [_ Hb] & [_ He]). destruct i as [[b e] f]. simpl in *.
  destruct (bst_bounds _ _ _ _ _ _ (wf_bst _ _ (kp_vma img s KP)) Hi) as (_ & Hlt & _).
  apply Z.mod_divide in Hb as [x ->], He as [y ->]; try done. replace (y * PAGE_SIZE - x * PAGE_SIZE) with ((y - x) * PAGE_SIZE) by lia.
  rewrite Z.div_mul by done. unfold PAGE_SIZE in *. lia.
Qed.

Lemma runs_range s r : kernel_pages img s -> r ∈ kernel_runs s ->
  KERNEL_DYNAMIC_BASE <= r.1 /\ r.1 + r.2 * PAGE_SIZE <= KERNEL_DYNAMIC_LIMIT /\ 0 < r.2 /\ r.1 mod PAGE_SIZE = 0.
Proof.
  intros KP (i & -> & Hi)%list_elem_of_fmap. destruct (interval_end s i KP Hi) as [He Hn].
  destruct (kp_range img s KP i Hi) as (H1 & H2 & [_ H3] & _). change (interval_run i).1 with i.1.1. rewrite He. done.
Qed.

Lemma kernel_runs_apart s l1 r l2 r' : kernel_pages img s -> kernel_runs s = l1 ++ r :: l2 -> r' ∈ l1 ++ l2 -> runs_apart r r'.
Proof.
  intros KP E Hr'. unfold kernel_runs in E. apply fmap_app_inv in E as (k1 & k2' & -> & E2 & E).
  symmetry in E2. apply fmap_cons_inv in E2 as (i & k2 & -> & -> & ->).
  assert (Hend : forall j, j ∈ k1 ++ i :: k2 -> (interval_run j).1 + (interval_run j).2 * PAGE_SIZE = j.1.2).
  { intros j Hj. apply (interval_end s j KP). by rewrite E. }
  destruct i as [[b e] f]. destruct (bst_split _ _ _ _ _ _ _ _ (wf_bst _ _ (kp_vma img s KP)) E) as (_ & Hl1 & Hl2).
  unfold runs_apart. rewrite (Hend (b, e, f)) by set_solver.
  apply elem_of_app in Hr' as [(j & -> & Hj)%list_elem_of_fmap|(j & -> & Hj)%list_elem_of_fmap].
  - right. rewrite Hend by set_solver. by apply Hl1.
  - left. by apply Hl2.
Qed.

(** A byte of a run is a byte of the dynamic area with a frame. *)
Lemma in_runs_frame s v : kernel_pages img s -> in_runs (kernel_runs s) v ->
  in_dynamic v /\ exists a, kernel_frame img s.(phys) v = Some a /\ page_addr a /\ 0 <= a / PAGE_SIZE < s.(frames).(total_frames).
Proof.
  intros KP (r & Hr & Hv). pose proof (runs_range s r KP Hr) as (H1 & H2 & _). unfold run_has in Hv.
  assert (Hd : in_dynamic v) by (unfold in_dynamic; lia). split; [done|]. apply list_elem_of_fmap in Hr as (i & -> & Hi).
  destruct (interval_end s i KP Hi) as [He _]. change (interval_run i).1 with i.1.1 in Hv. rewrite He in Hv.
  destruct (kernel_frame img s.(phys) v) as [a|] eqn:Ea; [|by destruct (proj2 (kp_mapped img s KP v Hd) (ex_intro _ i (conj Hi Hv)))].
  exists a. split; [done|]. split; [by eapply frame_addr_page|]. split; [by eapply frame_addr_nonneg|]. by apply (kp_used img s KP v).
Qed.

(** ** Frames and tables *)

(** A byte of one of the tables that translations go through. *)
Definition table_byte s (x : Z) : Prop :=
  pa img.(pae_pdpt) <= x < pa img.(pae_pdpt) + 32 \/ kernel_dir img <= x < kernel_dir img + 0x1000 \/
  pa img.(pae_direct_map_page_tables) <= x < pa img.(pae_direct_map_page_tables) + 0x80000 \/
  pa img.(pae_dynamic_page_tables) <= x < pa img.(pae_dynamic_page_tables) + 0x7E000 \/
  exists i sp, s.(current_space) = Some i /\ s.(paging_spaces) !! Z.to_nat i = Some sp /\
    Z.land sp.(root_physical) 0xFFFFF000 <= x < Z.land sp.(root_physical) 0xFFFFF000 + 32.

(** A frame that is free or backs a page of the dynamic area. *)
Definition available s (g : Z) : Prop := 0 <= g < s.(frames).(total_frames) /\
  (frame_used s.(frames) g = false \/ exists v, in_dynamic v /\ kernel_frame img s.(phys) v = Some (g * PAGE_SIZE)).

(** No such frame holds a table. *)
Definition frames_clear s : Prop :=
  forall g x, available s g -> g * PAGE_SIZE <= x < g * PAGE_SIZE + PAGE_SIZE -> ~ table_byte s x.

Lemma frames_clear_step s s' :
  frames_clear s -> same_rest img s s' -> (forall g, available s' g -> available s g) -> frames_clear s'.
Proof.
  intros Hcl (_ & Hcur & Hsp) Hav g x Hg Hx Ht. apply (Hcl g x (Hav g Hg) Hx). unfold table_byte in *. by rewrite <- Hcur, <- Hsp.
Qed.

(** The physical address of a byte of a run. *)
Definition byte_addr s (v : Z) : option Z := (fun a => a + v mod PAGE_SIZE) <$> kernel_frame img s.(phys) v.
Definition kernel_byte s (v : Z) : Z := match byte_addr s v with Some a => s.(phys) a | None => 0 end.
Definition set_kernel_byte (v x : Z) s : paging :=
  match byte_addr s v with
  | Some a => set_phys (fun y => if y =? a then x else s.(phys) y) s
  | None => s
  end.

Lemma byte_addr_clear s v : kernel_pages img s -> frames_clear s -> in_runs (kernel_runs s) v ->
  exists a, byte_addr s v = Some a /\ ~ table_byte s a.
Proof.
  intros KP Hcl Hv. destruct (in_runs_frame s v KP Hv) as (Hd & a & Ha & Hpa & Hg). unfold byte_addr. rewrite Ha. eexists. split; [done|].
  pose proof (Z.mod_pos_bound v PAGE_SIZE ltac:(done)). apply (Hcl (a / PAGE_SIZE)).
  - split; [done|]. right. exists v. split; [done|]. by rewrite (frame_of_page _ Hpa).
  - rewrite (frame_of_page _ Hpa). lia.
Qed.

(** Different bytes of runs are in different places. *)
Lemma byte_addr_inj s v w a : kernel_pages img s -> in_runs (kernel_runs s) v -> in_runs (kernel_runs s) w ->
  byte_addr s v = Some a -> byte_addr s w = Some a -> v = w.
Proof.
  intros KP Hv Hw. destruct (in_runs_frame s v KP Hv) as (Hd & b & Hb & Hpb & _). destruct (in_runs_frame s w KP Hw) as (Hd' & c & Hc & Hpc & _).
  unfold byte_addr. rewrite Hb, Hc. simpl. intros [= E1] [= E2].
  pose proof (Z.mod_pos_bound v PAGE_SIZE ltac:(done)). pose proof (Z.mod_pos_bound w PAGE_SIZE ltac:(done)).
  pose proof (frame_of_page _ Hpb) as F1. pose proof (frame_of_page _ Hpc) as F2.
  assert (b = c) as -> by (unfold PAGE_SIZE in *; lia). pose proof (kp_inj img s KP v w c Hd Hd' Hb Hc) as Hp.
  pose proof (Z.div_mod v PAGE_SIZE ltac:(done)). pose proof (Z.div_mod w PAGE_SIZE ltac:(done)). unfold page_of in Hp. lia.
Qed.

(** ** Writing a byte *)

Lemma poke_same s a x : ~ table_byte s a -> same_kernel img s.(phys) (fun y => if y =? a then x else s.(phys) y).
Proof.
  intros Hn. unfold table_byte in Hn. split; intros y Hy; (rewrite (proj2 (Z.eqb_neq y a)); [done|]); intros ->; apply Hn; tauto.
Qed.

Lemma poke_pages s a x : kernel_pages img s -> ~ table_byte s a ->
  kernel_pages img (set_phys (fun y => if y =? a then x else s.(phys) y) s).
Proof.
  intros KP Hn. pose proof (poke_same s a x Hn) as Hs. assert (Hf := fun v => kernel_frame_same img _ _ v Hs). destruct KP.
  split; simpl; try done.
  - destruct kp_ok as [Hm K (i & sp & Hi & Hsp & [R1 R2 R3 R4]) Hp]. split; [done|by eapply kernel_tables_same| |done].
    exists i, sp. split; [done|]. split; [done|]. split; [done| |done|done]. simpl.
    rewrite (agree_read64 (Z.land sp.(root_physical) 0xFFFFF000) 32 s.(phys)); [done| |lia|lia]. intros y Hy.
    rewrite (proj2 (Z.eqb_neq y a)); [done|]. intros ->. apply Hn. do 4 right. by exists i, sp.
  - intros v b Hd. rewrite Hf by done. by apply kp_used.
  - intros v w b Hd Hd'. rewrite !Hf by done. by apply kp_inj.
  - intros v Hd. rewrite Hf by done. by apply kp_mapped.
Qed.

Definition store_ok s : Prop := kernel_pages img s /\ frames_clear s.

Lemma set_byte_ok s v x : store_ok s -> in_runs (kernel_runs s) v -> store_ok (set_kernel_byte v x s).
Proof.
  intros [KP Hcl] Hv. destruct (byte_addr_clear s v KP Hcl Hv) as (a & Ha & Hn). unfold set_kernel_byte. rewrite Ha.
  split; [by apply poke_pages|]. intros g y [Hg Hav] Hy Ht. apply (Hcl g y); [|done|exact Ht]. split; [done|]. simpl in Hav.
  destruct Hav as [Hu|(w & Hd & Hw)]; [by left|right]. exists w. split; [done|].
  by rewrite (kernel_frame_same img _ _ w (poke_same s a x Hn)) in Hw.
Qed.

Lemma set_byte_runs s v x : kernel_runs (set_kernel_byte v x s) = kernel_runs s.
Proof. unfold set_kernel_byte. by destruct (byte_addr s v). Qed.

Lemma set_byte_byte s v x w : store_ok s -> in_runs (kernel_runs s) v -> in_runs (kernel_runs s) w ->
  kernel_byte (set_kernel_byte v x s) w = if w =? v then x else kernel_byte s w.
Proof.
  intros [KP Hcl] Hv Hw. destruct (byte_addr_clear s v KP Hcl Hv) as (a & Ha & Hn). destruct (byte_addr_clear s w KP Hcl Hw) as (b & Hb & _).
  destruct (in_runs_frame s w KP Hw) as (Hd & _).
  assert (Hb' : byte_addr (set_kernel_byte v x s) w = Some b).
  { unfold set_kernel_byte. rewrite Ha. unfold byte_addr in *. simpl. by rewrite (kernel_frame_same img _ _ w (poke_same s a x Hn)). }
  unfold kernel_byte. rewrite Hb', Hb. unfold set_kernel_byte. rewrite Ha. simpl. destruct (Z.eqb_spec w v) as [->|Hne].
  - replace b with a by congruence. by rewrite Z.eqb_refl.
  - rewrite (proj2 (Z.eqb_neq b a)); [done|]. intros ->. apply Hne. by apply (byte_addr_inj s w v a).
Qed.

(** ** Allocating and releasing *)

(** What an operation on runs keeps of the bytes. *)
Lemma kept_byte s s' v : store_ok s -> same_rest img s s' -> in_runs (kernel_runs s) v ->
  kernel_frame img s'.(phys) v = kernel_frame img s.(phys) v -> kernel_byte s' v = kernel_byte s v.
Proof.
  intros [KP Hcl] (Hout & _) Hv Hf. destruct (byte_addr_clear s v KP Hcl Hv) as (a & Ha & Hn). unfold kernel_byte, byte_addr in *.
  rewrite Hf, Ha. apply Hout; intros Hx; apply Hn; unfold table_byte; tauto.
Qed.

Lemma alloc_store_spec s n : store_ok s -> 0 <= n < 2 ^ 32 ->
  wp (paging_alloc_pages img n) (fun r s' => store_ok s' /\
    (forall v, in_runs (kernel_runs s) v -> kernel_byte s' v = kernel_byte s v) /\
    match r with
    | Some b => exists l1 l2, kernel_runs s = l1 ++ l2 /\ kernel_runs s' = l1 ++ (b, n) :: l2
    | None => kernel_runs s' = kernel_runs s
    end) s.
Proof.
  intros [KP Hcl] Hn. eapply wp_mono; [apply (alloc_pages_spec img Himg n PMM_NUMA_NODE_ANY s KP Hn); done|]. intros [b|] s' [KP' Hr].
  - destruct Hr as [fs R]. pose proof (ra_rest _ _ _ _ _ _ R) as Hrest. destruct (ra_base _ _ _ _ _ _ R) as (Hb & Hlo & Hhi).
    assert (Hold : forall v, in_dynamic v -> ~ b <= v < b + n * PAGE_SIZE -> kernel_frame img s'.(phys) v = kernel_frame img s.(phys) v).
    { intros v Hd Hv. apply (translate_frame img Himg); [apply KP'|done|by apply (ra_old _ _ _ _ _ _ R)]. }
    split; [split; [done|]|split].
    + apply (frames_clear_step s s' Hcl Hrest). intros g [Hg Hav]. rewrite (ra_total _ _ _ _ _ _ R) in Hg. split; [done|].
      destruct Hav as [Hu|(v & Hd & Hv)].
      * rewrite (ra_used _ _ _ _ _ _ R g Hg) in Hu. apply orb_false_iff in Hu as [_ Hu]. by left.
      * destruct (decide (b <= v < b + n * PAGE_SIZE)) as [Hin|Hout]; [|right; exists v; by rewrite Hold in Hv].
        left. apply (ra_fresh _ _ _ _ _ _ R). apply (run_added_backs img Himg s s' b n fs g); [apply KP'|done|].
        apply in_run in Hin; [|done]. exists (page_index b v). split; [done|]. rewrite <- Hv. apply kernel_frame_page.
        rewrite page_of_run by done. unfold page_index. lia.
    + intros v Hv. apply (kept_byte s s' v); [done|done|done|]. destruct (in_runs_frame s v KP Hv) as (Hd & a & Ha & _).
      apply Hold; [done|]. intros Hin. rewrite (ra_gap _ _ _ _ _ _ R v Hin) in Ha. done.
    + destruct (ra_tree _ _ _ _ _ _ R) as (l1 & l2 & E1 & E2). exists (interval_run <$> l1), (interval_run <$> l2).
      unfold kernel_runs. rewrite E1, E2, !fmap_app, fmap_cons, interval_run_eq. done.
  - destruct Hr as [[Hf Hu Ht Htree Hrest] _]. split; [split; [done|]|split].
    + apply (frames_clear_step s s' Hcl Hrest). intros g [Hg Hav]. rewrite Ht in Hg. split; [done|]. rewrite Hu in Hav by done.
      destruct Hav as [Hav|(v & Hd & Hv)]; [by left|right]. exists v. by rewrite Hf in Hv.
    + intros v Hv. destruct (in_runs_frame s v KP Hv) as (Hd & _). apply (kept_byte s s' v); auto. by split.
    + unfold kernel_runs. by rewrite Htree.
Qed.

Lemma free_store_spec s b n : store_ok s -> (b, n) ∈ kernel_runs s ->
  wp (paging_free_pages img b n) (fun _ s' => store_ok s' /\
    (exists l1 l2, kernel_runs s = l1 ++ (b, n) :: l2 /\ kernel_runs s' = l1 ++ l2) /\
    forall v, in_runs (kernel_runs s') v -> kernel_byte s' v = kernel_byte s v) s.
Proof.
  intros [KP Hcl] Hr. apply list_elem_of_fmap in Hr as (i & E & Hi). destruct (interval_end s i KP Hi) as [He Hn]. rewrite <- E in He, Hn.
  simpl in He, Hn. assert (Eb : i.1.1 = b) by (unfold interval_run in E; congruence). rewrite Eb in He.
  eapply wp_mono; [apply (free_pages_spec img Himg b n s KP); [lia|]|].
  { exists i.2. rewrite He, <- Eb. by destruct i as [[? ?] ?]. }
  intros [] s' [KP' R]. pose proof (rr_rest _ _ _ _ _ R) as Hrest. split; [split; [done|]|split].
  - apply (frames_clear_step s s' Hcl Hrest). intros g [Hg Hav]. rewrite (rr_total _ _ _ _ _ R) in Hg. split; [done|].
    destruct (kp_range img s KP i Hi) as (Hlo & Hhi & _). rewrite Eb in Hlo. destruct Hav as [Hu|(v & Hd & Hv)].
    + destruct (frame_used s.(frames) g) eqn:Eu; [right|by left]. pose proof (rr_used _ _ _ _ _ R g Hg) as Hiff. rewrite Hu, Eu in Hiff.
      destruct (decide (Exists (fun j => kernel_frame img s.(phys) (b + j * PAGE_SIZE) = Some (g * PAGE_SIZE)) (seqZ 0 n))) as [Hex|Hnex].
      * apply Exists_exists in Hex as (j & Hj%elem_of_seqZ & Hk). exists (b + j * PAGE_SIZE). split; [|done]. unfold in_dynamic, PAGE_SIZE in *. lia.
      * exfalso. destruct Hiff as [_ Hiff]. discriminate Hiff. split; [done|]. intros (j & Hj & Hk). apply Hnex, Exists_exists. exists j. split; [|done].
        apply elem_of_seqZ. lia.
    + destruct (decide (b <= v < b + n * PAGE_SIZE)) as [Hin|Hout]; [by rewrite (rr_gone _ _ _ _ _ R v Hin) in Hv|].
      right. exists v. by rewrite (rr_old _ _ _ _ _ R v Hd Hout) in Hv.
  - destruct (rr_tree _ _ _ _ _ R) as (l1 & f & l2 & E1 & E2). exists (interval_run <$> l1), (interval_run <$> l2).
    unfold kernel_runs. by rewrite E1, E2, !fmap_app, fmap_cons, interval_run_eq.
  - intros v Hv. destruct (in_runs_frame s' v KP' Hv) as (Hd & a & Ha & _).
    assert (Hout : ~ b <= v < b + n * PAGE_SIZE) by (intros Hin; by rewrite (rr_gone _ _ _ _ _ R v Hin) in Ha).
    apply (kept_byte s s' v); [done|done| |by apply (rr_old _ _ _ _ _ R)]. destruct Hv as (r & Hr & Hv). exists r. split; [|done].
    destruct (rr_tree _ _ _ _ _ R) as (l1 & f & l2 & E1 & E2). unfold kernel_runs in *. rewrite E1. rewrite E2 in Hr. set_solver.
Qed.

(** ** The provider *)

Definition paging_store : PageStore paging := {|
  page_ok := store_ok;
  page_runs := kernel_runs;
  page_byte := kernel_byte;
  page_set := set_kernel_byte;
  pages_alloc := paging_alloc_pages img;
  pages_free := paging_free_pages img;
  page_runs_range p r Hok := runs_range p r (proj1 Hok);
  page_runs_apart p l1 r l2 r' Hok := kernel_runs_apart p l1 r l2 r' (proj1 Hok);
  page_set_ok := set_byte_ok;
  page_set_runs := set_byte_runs;
  page_set_byte := set_byte_byte;
  pages_alloc_spec := alloc_store_spec;
  pages_free_spec := free_store_spec
|}.
End Store.
