(* ===== verification/HeapProps.v ===== *)
(** What the heap promises the rest of the kernel, over any provider of pages and over
    paging. *)
From S2P Require Import Prelude Bootinfo Pmm PmmFacts PmmAlloc PmmSpec Vma VmaFacts VmaSpec.
From S2P Require Import PagingData PagingTables Paging PagingFacts PagingAlloc PagingSpec PagingFree PagingBoot PagingProps.
From S2P Require Import Heap HeapFacts HeapInv HeapOps HeapSlab HeapObject HeapFree HeapSpec HeapApi HeapPaging.
From Stdlib Require Import ZArith Lia.
From stdpp Require Import sets gmap.
Open Scope Z_scope.

(** The pool of records is somewhere in the address space. *)
Definition pool_placed (slab_pool_addr : Z) : Prop :=
  0 < slab_pool_addr /\ slab_pool_addr + sizeof_slab * HEAP_MAX_SLABS <= 2 ^ 32.

Section Reachable.
Context {P : Type} `{PageStore P} (slab_pool_addr : Z).

(** The states that clients of the heap can bring about, with the blocks they hold.  One
    call is left out: [kfree] of a large block (more than 2048 bytes) when the 16 bytes
    below its page look like the header of an object.  heap.c takes such a block for an
    object (slab_free_pointer reads the header before it knows the kind of the block),
    and these bytes can belong to a client, who can write them: the slab that they name
    would be corrupted. *)
Inductive heap_reachable : heap (P := P) -> gset (Z * Z) -> Prop :=
  | reach_init h h' :
      heap_zeroed h -> heap_init h = Done tt h' -> heap_reachable h' ∅
  | reach_kmalloc h B size q h' :
      heap_reachable h B -> 0 <= size < 2 ^ 32 -> kmalloc slab_pool_addr size h = Done q h' ->
      heap_reachable h' ({[(q, block_size (if size =? 0 then 1 else size))]} ∪ B)
  | reach_kfree h B q len h' :
      heap_reachable h B -> (q, len) ∈ B -> len <= 2048 \/ looks_like_object h q = false ->
      kfree slab_pool_addr q h = Done tt h' -> heap_reachable h' (B ∖ {[(q, len)]})
  | reach_write h B q len v x h' :
      heap_reachable h B -> (q, len) ∈ B -> q <= v < q + len -> store8 v x h = Done tt h' -> heap_reachable h' B.

Lemma reachable_ok h B : pool_placed slab_pool_addr -> heap_reachable h B -> heap_ok slab_pool_addr h B.
Proof.
  intros Hpool R. induction R as [h h' Hz Hrun|h B size q h' R IH Hs Hrun|h B q len h' R IH Hin Hl Hrun|h B q len v x h' R IH Hin Hv Hrun].
  - destruct (wp_Done _ _ _ (heap_init_spec slab_pool_addr h Hz)) as ([] & h1 & E & HI & _). rewrite Hrun in E. injection E as <-.
    exists empty_ghost. split; [done|]. intros q len. split; [set_solver|]. intros [(i & c & a & Ho & _)|(b & n & Hl & _)]; [done|].
    by apply not_elem_of_nil in Hl.
  - pose proof (kmalloc_spec slab_pool_addr Hpool B h size IH ltac:(lia)) as K. cbv zeta in K. rewrite Hrun in K. apply K.
  - destruct (Z.le_gt_cases len 2048) as [Hle|Hgt].
    + destruct (wp_Done _ _ _ (kfree_small_spec slab_pool_addr Hpool h B q len IH Hin Hle)) as ([] & h1 & E & HO & _). congruence.
    + destruct Hl as [|Hl]; [lia|]. destruct (mapped h.(pages) (q - 16)) eqn:Em.
      * destruct (wp_Done _ _ _ (kfree_large_spec slab_pool_addr Hpool h B q len IH Hin ltac:(lia) Em Hl)) as ([] & h1 & E & HO & _). congruence.
      * rewrite (kfree_large_fault slab_pool_addr Hpool h B q len IH Hin ltac:(lia) Em) in Hrun. done.
  - destruct (wp_Done _ _ _ (client_write_spec slab_pool_addr h B q len v x IH Hin Hv)) as ([] & h1 & E & HO & _). congruence.
Qed.
End Reachable.

(** ** Over paging *)

(** Where a byte of a held block is. *)
Lemma held_byte img (Himg : image_ok img) slab_pool_addr h B q len x :
  let store := paging_store img Himg in
  heap_ok slab_pool_addr h B -> (q, len) ∈ B -> q <= x < q + len ->
  exists a, in_runs (kernel_runs h.(pages)) x /\ byte_addr img h.(pages) x = Some a /\
    paging_translate_address img x h.(pages) = Done (Some a) h.(pages) /\
    frame_used h.(pages).(frames) (a / PAGE_SIZE) = true /\ ~ table_byte img h.(pages) a.
Proof.
  intros store HO Hin Hx. destruct (block_place slab_pool_addr h B q len HO Hin) as (_ & _ & _ & _ & Hb).
  assert (Hr : in_runs (kernel_runs h.(pages)) x) by (by apply (bytes_in_runs h.(pages) q len x Hb)).
  destruct HO as (g & [HC _] & _). destruct (hc_pages _ g h HC) as [KP Hcl].
  destruct (byte_addr_clear img h.(pages) x KP Hcl Hr) as (a & Ha & Hn). destruct (in_runs_frame img h.(pages) x KP Hr) as (Hd & f & Hf & Hpf & _).
  exists a. split; [done|]. split; [done|]. destruct (kp_ok _ _ KP) as [Hm K Hc _].
  rewrite (translate_run img Himg x h.(pages) K Hm Hc Hd). unfold translation, byte_addr in *. rewrite Ha. split; [done|]. split; [|done].
  rewrite Hf in Ha. injection Ha as <-. pose proof (Z.mod_pos_bound x PAGE_SIZE ltac:(done)). rewrite <- (frame_of_page _ Hpf), Z.add_comm, Z.div_add, Z.div_small by (done || lia).
  by apply (kp_used _ _ KP x f).
Qed.

(** ** The properties *)

(** C16: in every state that clients can bring about with [kmalloc], [kfree] and writes
    to their own blocks, as long as no large block is freed while the 16 bytes below its
    page look like an object's header (which [heap_reachable] leaves out), the blocks
    they hold are disjoint, aligned to 8 bytes, inside the kernel's dynamic area and
    entirely mapped, and the heap's structures are in order. *)
Theorem heap_blocks_disjoint {P} `{PageStore P} slab_pool_addr (h : heap (P := P)) B :
  pool_placed slab_pool_addr -> heap_reachable slab_pool_addr h B ->
  heap_ok slab_pool_addr h B /\
  (forall q len, (q, len) ∈ B -> KERNEL_DYNAMIC_BASE < q /\ q + len <= KERNEL_DYNAMIC_LIMIT /\ 0 < len /\ q mod 8 = 0 /\
     forall x, q <= x < q + len -> mapped h.(pages) x = true) /\
  (forall q len q' len', (q, len) ∈ B -> (q', len') ∈ B -> (q, len) <> (q', len') -> q + len <= q' \/ q' + len' <= q).
Proof.
  intros Hpool R. pose proof (reachable_ok slab_pool_addr h B Hpool R) as HO. split; [done|]. split.
  - intros q len Hin. destruct (block_place slab_pool_addr h B q len HO Hin) as (H1 & H2 & H3 & H4 & H5). do 4 (split; [done|]).
    intros x Hx. apply mapped_spec. by eapply bytes_in_runs.
  - intros. by eapply block_disjoint.
Qed.

(** C5: for a size of at most 2^32 - 8 bytes ([kmalloc_size_wraps] is about the rest),
    [kmalloc] either returns a new block of at least the requested size, which
    meets no block that is held, or panics, and that only when the size's cache has
    neither an object nor the means for a new slab, or no run of pages is left.  The
    contents of all held blocks stay. *)
Theorem kmalloc_correct {P} `{PageStore P} slab_pool_addr (h : heap (P := P)) B size :
  pool_placed slab_pool_addr -> heap_ok slab_pool_addr h B -> 0 <= size <= 2 ^ 32 - 8 ->
  let n := if size =? 0 then 1 else size in
  match kmalloc slab_pool_addr size h with
  | Done q h' => heap_ok slab_pool_addr h' ({[(q, block_size n)]} ∪ B) /\ size <= block_size n /\
      (forall q' len, (q', len) ∈ B -> q + block_size n <= q' \/ q' + len <= q) /\ blocks_kept B h h'
  | Panic msg h' => msg = "kmalloc exhausted heap resources"%string /\ exhausted h n /\ heap_ok slab_pool_addr h' B /\ blocks_kept B h h'
  | _ => False
  end.
Proof.
  intros Hpool HO Hs n. pose proof (kmalloc_spec slab_pool_addr Hpool B h size HO ltac:(lia)) as K. cbv zeta in K. fold n in K.
  destruct (kmalloc slab_pool_addr size h) as [q h'|msg h'| |]; [|done|done|done]. destruct K as (HO' & Hpos & Hnew & Hk).
  assert (Hn : 0 < n <= 2 ^ 32 - 8 /\ size <= n) by (unfold n; destruct (size =? 0) eqn:E; z_bools; lia).
  pose proof (block_size_enough n (proj1 Hn) Hpos). split; [done|]. split; [lia|]. split; [|done]. intros q' len Hin.
  eapply (block_disjoint slab_pool_addr h' _ q (block_size n) q' len HO'); [set_solver|set_solver|]. intros [= <- <-]. done.
Qed.

(** [kzalloc] returns what [kmalloc] does with the requested bytes set to zero. *)
Theorem kzalloc_correct {P} `{PageStore P} slab_pool_addr (h : heap (P := P)) B size :
  pool_placed slab_pool_addr -> heap_ok slab_pool_addr h B -> 0 <= size <= 2 ^ 32 - 8 ->
  let n := if size =? 0 then 1 else size in
  match kzalloc slab_pool_addr size h with
  | Done q h' => heap_ok slab_pool_addr h' ({[(q, block_size n)]} ∪ B) /\ size <= block_size n /\
      (forall x, q <= x < q + size -> page_byte h'.(pages) x = 0) /\ blocks_kept B h h'
  | Panic msg h' => msg = "kmalloc exhausted heap resources"%string /\ exhausted h n
  | _ => False
  end.
Proof.
  intros Hpool HO Hs n. pose proof (kmalloc_spec slab_pool_addr Hpool B h size HO ltac:(lia)) as K. cbv zeta in K. fold n in K.
  unfold kzalloc. unfold bind at 1. destruct (kmalloc slab_pool_addr size h) as [q h1|msg h1| |]; [|by destruct K as (? & ? & _)|done|done].
  destruct K as (HO1 & Hpos & Hnew & Hk).
  assert (Hn : 0 < n <= 2 ^ 32 - 8 /\ size <= n) by (unfold n; destruct (size =? 0) eqn:E; z_bools; lia).
  pose proof (block_size_enough n (proj1 Hn) Hpos) as Hle.
  destruct (wp_Done _ _ _ (zero_spec slab_pool_addr Hpool h1 _ q (block_size n) size HO1 ltac:(set_solver) ltac:(lia))) as ([] & h2 & Hrun & HO2 & Hz & _ & Hrest).
  rewrite (run_bind_done _ _ _ _ _ Hrun), run_ret. split; [done|]. split; [lia|]. split; [done|].
  intros q' len x Hin Hx. rewrite <- (Hk q' len x Hin Hx). apply Hrest.
  - destruct (block_place slab_pool_addr h1 _ q' len HO1 ltac:(set_solver)) as (_ & _ & _ & _ & Hb). by eapply bytes_in_runs.
  - destruct (block_disjoint slab_pool_addr h1 _ q (block_size n) q' len HO1 ltac:(set_solver) ltac:(set_solver)); [|lia|lia]. intros [= <- <-]. done.
Qed.

(** C17: [kfree] of a block that came from a cache always returns: that block is gone, all
    others are held as before with their contents. *)
Theorem kfree_correct {P} `{PageStore P} slab_pool_addr (h : heap (P := P)) B q len :
  pool_placed slab_pool_addr -> heap_ok slab_pool_addr h B -> (q, len) ∈ B -> len <= 2048 ->
  exists h', kfree slab_pool_addr q h = Done tt h' /\ heap_ok slab_pool_addr h' (B ∖ {[(q, len)]}) /\ blocks_kept (B ∖ {[(q, len)]}) h h'.
Proof.
  intros Hpool HO Hin Hle. destruct (wp_Done _ _ _ (kfree_small_spec slab_pool_addr Hpool h B q len HO Hin Hle)) as ([] & h' & Hrun & Hr). by exists h'.
Qed.

(** [kfree] of a large block reads the 8 bytes below its first page.  When nothing is
    mapped there the read is a page fault; otherwise, when these bytes do not look like
    an object's header, the block is released and the others stay. *)
Theorem kfree_large_reads_below {P} `{PageStore P} slab_pool_addr (h : heap (P := P)) B q len :
  pool_placed slab_pool_addr -> heap_ok slab_pool_addr h B -> (q, len) ∈ B -> 2048 < len ->
  (mapped h.(pages) (q - 16) = false -> kfree slab_pool_addr q h = Fault) /\
  (mapped h.(pages) (q - 16) = true -> looks_like_object h q = false ->
     exists h', kfree slab_pool_addr q h = Done tt h' /\ heap_ok slab_pool_addr h' (B ∖ {[(q, len)]}) /\ blocks_kept (B ∖ {[(q, len)]}) h h').
Proof.
  intros Hpool HO Hin Hgt. split; [by apply (kfree_large_fault slab_pool_addr Hpool h B q len)|]. intros Hm Hl.
  destruct (wp_Done _ _ _ (kfree_large_spec slab_pool_addr Hpool h B q len HO Hin Hgt Hm Hl)) as ([] & h' & Hrun & Hr). by exists h'.
Qed.

(** For the seven largest sizes the addition of the header's size wraps around:
    [kmalloc] answers a request for nearly 4 GB with a block of 4088 bytes. *)
Theorem kmalloc_size_wraps {P} `{PageStore P} slab_pool_addr (h : heap (P := P)) B size :
  pool_placed slab_pool_addr -> heap_ok slab_pool_addr h B -> 2 ^ 32 - 8 < size < 2 ^ 32 ->
  match kmalloc slab_pool_addr size h with
  | Done q h' => heap_ok slab_pool_addr h' ({[(q, 4088)]} ∪ B)
  | Panic msg h' => no_pages 1 h
  | _ => False
  end.
Proof.
  intros Hpool HO Hs. pose proof (kmalloc_spec slab_pool_addr Hpool B h size HO ltac:(lia)) as K. cbv zeta in K.
  rewrite (proj2 (Z.eqb_neq size 0)) in K by lia. rewrite (block_size_wrapped size Hs) in K.
  destruct (kmalloc slab_pool_addr size h) as [q h'|msg h'| |]; [by destruct K|destruct K as (_ & Hex & _)|done|done].
  unfold exhausted in Hex. rewrite (proj2 (Z.leb_gt size 2048)), large_pages_wrapped in Hex by lia. done.
Qed.

(** C18: over paging, in the states of [heap_reachable] (which leaves out frees of a large
    block while the bytes below its page look like an object's header), any two bytes of
    held blocks translate to different bytes of physical memory, in frames that are in
    use, and to no byte of a page table. *)
Theorem heap_memory_isolated img (Himg : image_ok img) slab_pool_addr h B q len q' len' x y :
  let store := paging_store img Himg in
  pool_placed slab_pool_addr -> heap_reachable slab_pool_addr h B ->
  (q, len) ∈ B -> q <= x < q + len -> (q', len') ∈ B -> q' <= y < q' + len' -> x <> y ->
  exists a b, paging_translate_address img x h.(pages) = Done (Some a) h.(pages) /\
    paging_translate_address img y h.(pages) = Done (Some b) h.(pages) /\ a <> b /\
    frame_used h.(pages).(frames) (a / PAGE_SIZE) = true /\ ~ table_byte img h.(pages) a /\
    frame_used h.(pages).(frames) (b / PAGE_SIZE) = true /\ ~ table_byte img h.(pages) b.
Proof.
  intros store Hpool R Hin Hx Hin' Hy Hne. pose proof (reachable_ok slab_pool_addr h B Hpool R) as HO.
  destruct (held_byte img Himg slab_pool_addr h B q len x HO Hin Hx) as (a & Rx & Ax & Tx & Ux & Nx).
  destruct (held_byte img Himg slab_pool_addr h B q' len' y HO Hin' Hy) as (b & Ry & Ay & Ty & Uy & Ny).
  exists a, b. split; [done|]. split; [done|]. split; [|done]. intros ->. apply Hne.
  destruct HO as (g & [HC _] & _). destruct (hc_pages _ g h HC) as [KP _]. by apply (byte_addr_inj img h.(pages) x y b).
Qed.

(** ** A machine that the properties apply to *)

(** The heap's statics at start-up. *)
Definition cold_heap (s : paging) : heap :=
  mk_heap (replicate 9 (mk_cache 0 0 None None None)) (replicate 256 (mk_slab None 0 0 0 0 None)) None false 0 0 s.
Definition sample_pool : Z := 0xC0160000.

Lemma sample_pool_placed : pool_placed sample_pool.
Proof. by vm_compute. Qed.

#[local] Instance sample_store : PageStore paging := paging_store sample_image (bok_image _ sample_boot_image).

(** The frames of the machine of [booted] are far from its tables. *)
Lemma booted_clear s s0 : initialised sample_image s0 s -> s.(frames) = small_pmm -> frames_clear sample_image s.
Proof.
  intros I Hf g x [Hg _] Hx Ht. rewrite Hf in Hg. change (total_frames small_pmm) with 8 in Hg.
  assert (Hlow : 0 <= x < 0x8000) by (unfold PAGE_SIZE in Hx; lia).
  assert (Hlo : 0x8000 <= pa sample_image.(pae_pdpt) /\ 0x8000 <= kernel_dir sample_image /\ 0x8000 <= pa sample_image.(pae_direct_map_page_tables) /\
    0x8000 <= pa sample_image.(pae_dynamic_page_tables) /\ 0x8000 <= Z.land (pa sample_image.(pae_pdpt)) 0xFFFFF000) by (by vm_compute).
  destruct Ht as [Ht|[Ht|[Ht|[Ht|(i & sp & Hi & Hsp & Ht)]]]]; [lia..|].
  destruct (in_space _ _ _ I) as [Hc _]. destruct (in_root _ _ _ I) as [Hr _]. rewrite Hi in Hc. injection Hc as ->.
  change (Z.to_nat 0) with O in Hsp. rewrite Hr in Hsp. assert (Er : sp.(root_physical) = pa sample_image.(pae_pdpt)) by (apply (f_equal (fun o => match o with Some z => z.(root_physical) | None => 0 end)) in Hsp; done). rewrite Er in Ht. lia.
Qed.

(** The heap after [heap_init] on that machine. *)
Definition started (h : heap) : Prop := exists s, booted s /\ heap_init (cold_heap s) = Done tt h.

Lemma heap_starts : exists h, started h /\ heap_reachable sample_pool h ∅ /\ heap_inv sample_pool empty_ghost h /\
  kernel_pages sample_image h.(pages) /\ h.(pages).(frames) = small_pmm /\ h.(pages).(vma_nodes) = mk_pool [] false /\
  h.(pages).(kernel_vma_tree) = vma_tree_init.
Proof.
  destruct (wp_Done _ _ _ (paging_init_spec sample_image sample_boot_image cold_paging ltac:(done))) as ([] & s & Hrun & I).
  destruct (in_rest _ _ _ I) as [Hf Hn].
  assert (KP : kernel_pages sample_image s).
  { eapply init_kernel_pages; [apply sample_boot_image|exact I|apply small_ready|done|apply cold_vma_wf]. }
  assert (Hz : heap_zeroed (cold_heap s)) by (split; [split; [done|by eapply booted_clear]|done|done]).
  destruct (wp_Done _ _ _ (heap_init_spec sample_pool (cold_heap s) Hz)) as ([] & h & Hinit & HI & Hp & _). simpl in Hp.
  exists h. split; [exists s; split; [exact Hrun|exact Hinit]|]. split; [exact (reach_init sample_pool (cold_heap s) h Hz Hinit)|]. rewrite Hp. split; [done|]. split; [done|]. split; [done|]. split; [done|apply I].
Qed.

(** Two pages can be had on that machine. *)
Lemma sample_pages h n : kernel_pages sample_image h.(pages) -> h.(pages).(frames) = small_pmm -> h.(pages).(vma_nodes) = mk_pool [] false ->
  h.(pages).(kernel_vma_tree) = vma_tree_init -> 1 <= n <= 2 -> ~ no_pages n h.
Proof.
  intros KP Hf Hn Ht Hle [s' Hrun]. pose proof (bok_image _ sample_boot_image) as Hi.
  destruct (wp_Done _ _ _ (alloc_pages_spec sample_image Hi n PMM_NUMA_NODE_ANY h.(pages) KP ltac:(lia) ltac:(done))) as (r & s1 & E & _ & Hr).
  change (pages_alloc n h.(pages)) with (paging_alloc_pages_on_node sample_image n PMM_NUMA_NODE_ANY h.(pages)) in Hrun.
  rewrite Hrun in E. injection E as <- <-. destruct Hr as [_ [?|[(l & Hl & Hall)|[Hp|Hgap]]]].
  - lia.
  - rewrite Hf in Hall. assert (H0 : 0 ∈ l) by (by apply Hall). assert (H1 : 1 ∈ l) by (by apply Hall).
    destruct l as [|a [|b l]]; simpl in Hl; [by apply not_elem_of_nil in H0| |lia].
    apply list_elem_of_singleton in H0, H1. lia.
  - rewrite Hn in Hp. change (pool_slots _) with all_slots in Hp.
    assert (H : 0 ∈ all_slots) by (unfold all_slots; rewrite reverse_Permutation, elem_of_seqZ; unfold VMA_MAX_NODES; lia).
    rewrite Hp in H. by apply not_elem_of_nil in H.
  - apply (Hgap KERNEL_DYNAMIC_BASE). rewrite Ht. split; [done|]. split; [unfold KERNEL_DYNAMIC_BASE, KERNEL_DYNAMIC_LIMIT, PAGE_SIZE; lia|]. split; [by exists 0xF0000|].
    intros i Hi'. by apply not_elem_of_nil in Hi'.
Qed.

Lemma sample_not_exhausted h n : heap_inv sample_pool empty_ghost h -> ~ no_pages 1 h -> ~ no_pages 2 h -> 0 < n <= 8184 -> ~ exhausted h n.
Proof.
  intros [HC _] H1 H2 Hn Hex. unfold exhausted in Hex. destruct (n <=? 2048) eqn:E; z_bools.
  - destruct Hex as (_ & _ & _ & _ & _ & _ & [Hfl|Hno]); [|done]. pose proof (hc_unused _ _ h HC) as Hl. rewrite Hfl in Hl.
    change (unused empty_ghost) with (0 :: seqZ 1 255) in Hl. by destruct Hl.
  - assert (Hp : large_pages n = 1 \/ large_pages n = 2); [|destruct Hp as [Hp|Hp]; by rewrite Hp in Hex].
    rewrite large_pages_eq, wrap_small by (unfold PAGE_SIZE; word_lia). unfold PAGE_SIZE.
    pose proof (Z.div_mod (n + 8 + 4096 - 1) 4096 ltac:(lia)). pose proof (Z.mod_pos_bound (n + 8 + 4096 - 1) 4096 ltac:(lia)). lia.
Qed.

(** A state with one block. *)
Lemma sample_block size : 0 < size <= 8176 -> exists h q h', started h /\ h.(pages).(kernel_vma_tree) = vma_tree_init /\
  heap_ok sample_pool h ∅ /\ kmalloc sample_pool size h = Done q h' /\ heap_reachable sample_pool h' ({[(q, block_size size)]} ∪ ∅).
Proof.
  intros Hs. destruct heap_starts as (h & Hst & R & HI & KP & Hf & Hn & Ht).
  pose proof (reachable_ok sample_pool h ∅ sample_pool_placed R) as HO.
  pose proof (kmalloc_spec sample_pool sample_pool_placed ∅ h size HO ltac:(lia)) as K. cbv zeta in K.
  destruct (kmalloc sample_pool size h) as [q h'|msg h'| |] eqn:E; [|exfalso|done|done].
  - exists h, q, h'. do 4 (split; [done|]). pose proof (reach_kmalloc sample_pool h ∅ size q h' R ltac:(lia) E) as R'.
    by rewrite (proj2 (Z.eqb_neq size 0)) in R' by lia.
  - destruct K as (_ & Hex & _). rewrite (proj2 (Z.eqb_neq size 0)) in Hex by lia.
    apply (sample_not_exhausted h size HI); [apply sample_pages; (done || lia)..|lia|done].
Qed.

(** *** Witnesses *)

Lemma heap_blocks_disjoint_witness : exists h q, heap_reachable sample_pool h ({[(q, 128)]} ∪ ∅) /\ q mod 8 = 0 /\
  forall x, q <= x < q + 128 -> mapped h.(pages) x = true.
Proof.
  destruct (sample_block 100 ltac:(lia)) as (_ & q & h & _ & _ & _ & _ & R). change (block_size 100) with 128 in R. exists h, q. split; [exact R|].
  destruct (heap_blocks_disjoint sample_pool h _ sample_pool_placed R) as (_ & Hb & _).
  destruct (Hb q 128 ltac:(set_solver)) as (_ & _ & _ & H1 & H2). split; [exact H1|exact H2].
Defined.

Lemma kmalloc_correct_witness : exists h q h', started h /\ kmalloc sample_pool 100 h = Done q h' /\ heap_ok sample_pool h' ({[(q, 128)]} ∪ ∅).
Proof.
  destruct (sample_block 100 ltac:(lia)) as (h & q & h' & Hst & _ & HO & E & _). exists h, q, h'. split; [exact Hst|]. split; [exact E|].
  pose proof (kmalloc_correct sample_pool h ∅ 100 sample_pool_placed HO ltac:(lia)) as K. cbv zeta in K. rewrite E in K. apply K.
Defined.

Lemma kzalloc_correct_witness : exists h, started h /\
  match kzalloc sample_pool 100 h with Done q h' => forall x, q <= x < q + 100 -> page_byte h'.(pages) x = 0 | Panic _ _ => exhausted h 100 | _ => False end.
Proof.
  destruct (sample_block 100 ltac:(lia)) as (h & _ & _ & Hst & _ & HO & _ & _). exists h. split; [exact Hst|].
  pose proof (kzalloc_correct sample_pool h ∅ 100 sample_pool_placed HO ltac:(lia)) as K. cbv zeta in K.
  destruct (kzalloc sample_pool 100 h); [apply K|apply K|exact K|exact K].
Defined.

Lemma kfree_correct_witness : exists h q h', heap_ok sample_pool h ({[(q, 128)]} ∪ ∅) /\ kfree sample_pool q h = Done tt h'.
Proof.
  destruct (sample_block 100 ltac:(lia)) as (_ & q & h & _ & _ & _ & _ & R). change (block_size 100) with 128 in R.
  pose proof (reachable_ok sample_pool h _ sample_pool_placed R) as HO.
  destruct (kfree_correct sample_pool h _ q 128 sample_pool_placed HO ltac:(set_solver) ltac:(lia)) as (h' & E & _).
  exists h, q, h'. split; [exact HO|exact E].
Defined.

(** The first large block of the machine cannot be returned. *)
Lemma kfree_large_reads_below_witness : exists h q, heap_reachable sample_pool h ({[(q, 8184)]} ∪ ∅) /\ kfree sample_pool q h = Fault.
Proof.
  destruct (sample_block 5000 ltac:(lia)) as (h0 & q & h & _ & Ht & HO & E & R). change (block_size 5000) with 8184 in R. exists h, q. split; [exact R|].
  pose proof (reachable_ok sample_pool h _ sample_pool_placed R) as HO'.
  destruct (kfree_large_reads_below sample_pool h _ q 8184 sample_pool_placed HO' ltac:(set_solver) ltac:(lia)) as [Hf _]. apply Hf.
  destruct (kmalloc_large_runs sample_pool sample_pool_placed h0 ∅ 5000 q h HO ltac:(lia) E) as (l1 & l2 & E1 & E2).
  assert (Hnil : page_runs h0.(pages) = []) by (change (kernel_runs h0.(pages) = []); unfold kernel_runs; rewrite Ht; reflexivity).
  rewrite Hnil in E1. symmetry in E1. apply app_nil in E1 as [-> ->]. unfold mapped. rewrite E2. simpl. unfold run_has_b. simpl. lia.
Defined.

Lemma kmalloc_size_wraps_witness : exists h q h', started h /\ kmalloc sample_pool 0xFFFFFFFC h = Done q h' /\ heap_ok sample_pool h' ({[(q, 4088)]} ∪ ∅).
Proof.
  destruct heap_starts as (h & Hst & R & _ & KP & Hf & Hn & Ht). pose proof (reachable_ok sample_pool h ∅ sample_pool_placed R) as HO.
  pose proof (kmalloc_size_wraps sample_pool h ∅ 0xFFFFFFFC sample_pool_placed HO ltac:(lia)) as K.
  destruct (kmalloc sample_pool 0xFFFFFFFC h) as [q h'|msg h'| |] eqn:E; [|exfalso|contradiction K|contradiction K].
  - exists h, q, h'. split; [exact Hst|]. split; [exact E|exact K].
  - exact (sample_pages h 1 KP Hf Hn Ht ltac:(lia) K).
Defined.

Lemma heap_memory_isolated_witness : exists h q a b, heap_reachable sample_pool h ({[(q, 128)]} ∪ ∅) /\
  paging_translate_address sample_image q h.(pages) = Done (Some a) h.(pages) /\
  paging_translate_address sample_image (q + 1) h.(pages) = Done (Some b) h.(pages) /\ a <> b.
Proof.
  destruct (sample_block 100 ltac:(lia)) as (_ & q & h & _ & _ & _ & _ & R). change (block_size 100) with 128 in R.
  destruct (heap_memory_isolated sample_image (bok_image _ sample_boot_image) sample_pool h _ q 128 q 128 q (q + 1) sample_pool_placed R
    ltac:(set_solver) ltac:(lia) ltac:(set_solver) ltac:(lia) ltac:(lia)) as (a & b & Ha & Hb & Hne & _).
  exists h, q, a, b. split; [exact R|]. split; [exact Ha|]. split; [exact Hb|exact Hne].
Defined.
