(* ===== verification/Console.v ===== *)
(** The console multiplexer: kernel/kernel/console.c.

    A driver is a record of optional functions on the devices' state [D]; its
    name is the bytes of a C string, or NULL.  [registered_drivers] and
    [active_drivers] are the used prefixes of the two arrays of four. *)
From S2P Require Import Prelude.
From Stdlib Require Import ZArith Lia Ascii String.
From stdpp Require Import strings.
Open Scope Z_scope.

Definition CONSOLE_DRIVER_CAPACITY : Z := 4.
Definition CONSOLE_NAME_BUFFER_SIZE : Z := 128.

(** ** Byte arrays

    A [char] array is the list of its bytes; storing outside it is a fault. *)

Definition array_set {St} (a : list Z) (i v : Z) : M St (list Z) :=
  if (0 <=? i) && (i <? Z.of_nat (length a)) then ret (<[Z.to_nat i := u8 v]> a) else fault.

(** The bytes of a string literal. *)
Definition bytes_of (s : string) : list Z := (fun a => Z.of_N (Ascii.N_of_ascii a)) <$> String.list_ascii_of_string s.

(** The first bytes of an array, up to [n]. *)
Lemma array_set_wp {St} (a : list Z) (i v : Z) (Q : list Z -> St -> Prop) s :
  0 <= i < Z.of_nat (length a) ->
  (forall a', length a' = length a ->
     take (Z.to_nat (i + 1)) a' = take (Z.to_nat i) a ++ [u8 v] -> Q a' s) ->
  wp (array_set a i v) Q s.
Proof.
  intros Hi HQ. unfold array_set. replace ((0 <=? i) && (i <? Z.of_nat (length a))) with true by lia.
  apply wp_ret, HQ; [by rewrite length_insert|].
  replace (Z.to_nat (i + 1)) with (S (Z.to_nat i)) by lia.
  rewrite (take_S_r _ _ (u8 v)) by (apply list_lookup_insert_eq; lia).
  by rewrite take_insert_ge by lia.
Qed.

(** ** State and operations *)

Section Console.
Context {D : Type}.

Record console_driver := mk_driver {
  drv_name : option (list Z);
  drv_init : option (D -> bool * D);
  drv_clear : option (D -> D);
  drv_putchar : option (Z -> D -> D);
  drv_write : option (list Z -> D -> D)
}.

Record console := mk_console {
  registered_drivers : list (option console_driver);
  active_drivers : list console_driver;
  active_driver_names : list Z;
  devices : D
}.

Definition set_registered (l : list (option console_driver)) (s : console) : console :=
  mk_console l (active_drivers s) (active_driver_names s) (devices s).
Definition set_active (l : list console_driver) (s : console) : console :=
  mk_console (registered_drivers s) l (active_driver_names s) (devices s).
Definition set_names (l : list Z) (s : console) : console :=
  mk_console (registered_drivers s) (active_drivers s) l (devices s).
Definition set_devices (d : D) (s : console) : console :=
  mk_console (registered_drivers s) (active_drivers s) (active_driver_names s) d.

(** A call through a driver's function pointer. *)
Definition device (f : D -> D) : M console unit := modify (fun s => set_devices (f (devices s)) s).

Definition console_driver_write (driver : option console_driver) (data : list Z) : M console unit :=
  match driver with
  | None => ret tt
  | Some d =>
      match drv_write d with
      | Some write => device (write data)
      | None =>
          match drv_putchar d with
          | None => ret tt
          | Some putchar => foreach data (fun c => device (putchar c))
          end
      end
  end.

Definition store_name (offset c : Z) : M console unit :=
  names <- gets active_driver_names ;;
  names' <- array_set names offset c ;;
  modify (set_names names').

(** The inner loop, up to the end of the name or of the buffer. *)
Fixpoint copy_name (name : list Z) (offset : Z) : M console Z :=
  match name with
  | [] => ret offset
  | c :: name' =>
      if offset + 1 <? CONSOLE_NAME_BUFFER_SIZE
      then store_name offset c ;;; copy_name name' (offset + 1)
      else ret offset
  end.

(** The loop over the active drivers; [first] is [i == 0]. *)
Fixpoint names_loop (drivers : list console_driver) (first : bool) (offset : Z) : M console Z :=
  match drivers with
  | [] => ret offset
  | d :: drivers' =>
      let name := default (bytes_of "unnamed") (drv_name d) in
      if negb first && (CONSOLE_NAME_BUFFER_SIZE <=? offset + 2) then ret offset else
      offset <- (if first then ret offset
                 else store_name offset 44 ;;; store_name (offset + 1) 32 ;;; ret (offset + 2)) ;;
      offset <- copy_name name offset ;;
      if CONSOLE_NAME_BUFFER_SIZE <=? offset + 1 then ret offset
      else names_loop drivers' false offset
  end.

(** [memcpy(active_driver_names, "unregistered", 13)] *)
Fixpoint copy_bytes (l : list Z) (offset : Z) : M console unit :=
  match l with
  | [] => ret tt
  | c :: l' => store_name offset c ;;; copy_bytes l' (offset + 1)
  end.

Definition console_refresh_driver_names : M console unit :=
  active <- gets active_drivers ;;
  match active with
  | [] => copy_bytes (bytes_of "unregistered" ++ [0]) 0
  | _ => offset <- names_loop active true 0 ;; store_name offset 0
  end.

Definition console_register_driver (driver : option console_driver) : M console unit :=
  n <- gets (fun s => Z.of_nat (length (registered_drivers s))) ;;
  match driver with
  | None => ret tt
  | Some d =>
      if CONSOLE_DRIVER_CAPACITY <=? n then ret tt
      else modify (fun s => set_registered (registered_drivers s ++ [Some d]) s)
  end.

Definition console_init_driver (driver : option console_driver) : M console unit :=
  match driver with
  | None => ret tt
  | Some d =>
      initialized <- match drv_init d with
                     | None => ret true
                     | Some init =>
                         r <- gets (fun s => init (devices s)) ;;
                         modify (set_devices (snd r)) ;;; ret (fst r)
                     end ;;
      n <- gets (fun s => Z.of_nat (length (active_drivers s))) ;;
      if negb initialized || (CONSOLE_DRIVER_CAPACITY <=? n) then ret tt
      else modify (fun s => set_active (active_drivers s ++ [d]) s)
  end.

Definition console_driver_count : M console Z := gets (fun s => Z.of_nat (length (active_drivers s))).

Definition console_initialize : M console bool :=
  modify (set_active []) ;;;
  registered <- gets registered_drivers ;;
  foreach registered console_init_driver ;;;
  console_refresh_driver_names ;;;
  n <- console_driver_count ;;
  ret (negb (n =? 0)).

Definition console_clear : M console unit :=
  active <- gets active_drivers ;;
  foreach active (fun d => match drv_clear d with Some clear => device clear | None => ret tt end).

Definition console_putchar (c : Z) : M console unit :=
  active <- gets active_drivers ;;
  foreach active (fun d => match drv_putchar d with Some putchar => device (putchar c) | None => ret tt end).

Definition console_write (data : list Z) : M console unit :=
  active <- gets active_drivers ;;
  foreach active (fun d => console_driver_write (Some d) data).

Definition console_writestring (data : option (list Z)) : M console unit :=
  match data with
  | None => ret tt
  | Some l => console_write l
  end.

Definition console_driver_name : M console (list Z) := gets active_driver_names.

(** ** The driver names *)

(** What the names are meant to be: the names of the drivers, separated by
    commas and cut off to the buffer. *)
Definition driver_names (l : list console_driver) : list (list Z) :=
  (fun d => default (bytes_of "unnamed") (drv_name d)) <$> l.

Fixpoint names_text (l : list (list Z)) : list Z :=
  match l with
  | [] => []
  | [n] => n
  | n :: l' => n ++ [44; 32] ++ names_text l'
  end.

(** A C string of bytes. *)
Definition is_text (l : list Z) : Prop := Forall (fun c => 0 < c < 256) l.

(** [text] at the start of the buffer of names, everything else as before. *)
Definition holds (text : list Z) (s0 s : console) : Prop :=
  length (active_driver_names s) = length (active_driver_names s0) /\
  take (length text) (active_driver_names s) = text /\
  s = set_names (active_driver_names s) s0.

Lemma is_text_app l1 l2 : is_text (l1 ++ l2) <-> is_text l1 /\ is_text l2.
Proof. apply Forall_app. Qed.

Lemma store_name_holds text s0 s offset c :
  offset = Z.of_nat (length text) -> 0 <= c < 256 -> holds text s0 s ->
  (length text < length (active_driver_names s0))%nat ->
  wp (store_name offset c) (fun _ s' => holds (text ++ [c]) s0 s') s.
Proof.
  intros -> Hc (Hl & Ht & Hs) Hlt. unfold store_name. do 2 wp_step.
  apply wp_bind, array_set_wp; [lia|]. intros a' Ha' Htk. apply wp_modify. repeat split; simpl.
  - lia.
  - rewrite length_app. simpl. replace (length text + 1)%nat with (Z.to_nat (Z.of_nat (length text) + 1)) by lia.
    rewrite Htk, Nat2Z.id, Ht, wrap_small; [done|]. word_lia.
  - rewrite Hs. done.
Qed.

Lemma copy_name_holds s0 name : forall text offset s,
  offset = Z.of_nat (length text) -> is_text name -> holds text s0 s ->
  length (active_driver_names s0) = 128%nat -> (length text <= 127)%nat ->
  wp (copy_name name offset)
     (fun o s' => exists k, holds (text ++ take k name) s0 s' /\ o = Z.of_nat (length (text ++ take k name)) /\
                            (length (text ++ take k name) <= 127)%nat /\
                            (take k name = name \/ length (text ++ take k name) = 127%nat)) s.
Proof.
  induction name as [|c name IH]; intros text offset s Ho Ht Hh Hlen Hle; cbn [copy_name].
  - apply wp_ret. exists O. simpl. rewrite app_nil_r. naive_solver.
  - inversion Ht as [|?? Hc Ht']; subst. unfold CONSOLE_NAME_BUFFER_SIZE. wp_step; z_bools.
    + wp_step. eapply wp_mono; [apply store_name_holds; [done|lia|done|lia]|]. intros ? s1 Hh1. cbv beta.
      eapply wp_mono; [apply (IH (text ++ [c])); [rewrite length_app; simpl; lia|done|done|done|rewrite length_app; simpl; lia]|].
      intros o s2 (k & Hk). exists (S k). simpl. rewrite <- app_assoc in Hk. simpl in Hk.
      destruct Hk as (? & ? & ? & Hk). split_and!; try done.
      destruct Hk as [Hk|]; [left; by rewrite Hk|by right].
    + apply wp_ret. exists O. simpl. rewrite app_nil_r. split_and!; [done|done|done|right; lia].
Qed.

Lemma take_is_text k l : is_text l -> is_text (take k l).
Proof. apply Forall_take. Qed.

Lemma names_text_cons n l : l <> [] -> names_text (n :: l) = n ++ [44; 32] ++ names_text l.
Proof. by destruct l. Qed.

(** The separator and the text that follow the names already written. *)
Definition names_rest (first : bool) (l : list (list Z)) : list Z :=
  match l with
  | [] => []
  | _ => (if first then [] else [44; 32]) ++ names_text l
  end.

Lemma names_rest_cons first n l :
  names_rest first (n :: l) = (if first then [] else [44; 32]) ++ n ++ names_rest false l.
Proof. unfold names_rest. destruct l; simpl; [by rewrite app_nil_r|done]. Qed.

(** The loop's contract: a prefix of the text that is left is appended, all of it
    when it fits. *)
Definition names_written (text rest : list Z) (s0 : console) (o : Z) (s : console) : Prop :=
  exists k, holds (text ++ take k rest) s0 s /\ o = Z.of_nat (length (text ++ take k rest)) /\
            (length (text ++ take k rest) <= 127)%nat /\
            ((length (text ++ rest) <= 127)%nat -> take k rest = rest).

Lemma names_written_stop text rest s0 s :
  holds text s0 s -> (length text <= 127)%nat -> ((length (text ++ rest) <= 127)%nat -> rest = []) ->
  names_written text rest s0 (Z.of_nat (length text)) s.
Proof.
  intros Hh Hl Hr. exists O. cbn [take]. rewrite app_nil_r. split_and!; try done. intros H. by rewrite (Hr H).
Qed.

Lemma names_written_extend text mid rest s0 o s :
  names_written (text ++ mid) rest s0 o s -> names_written text (mid ++ rest) s0 o s.
Proof.
  intros (k & Hh & Ho & Hl & Hr). exists (length mid + k)%nat. rewrite take_app_add, app_assoc.
  split_and!; try done. intros H. rewrite Hr; [done|]. by rewrite <- app_assoc.
Qed.

Lemma names_loop_holds s0 : length (active_driver_names s0) = 128%nat -> forall drivers first text s,
  Forall is_text (driver_names drivers) -> holds text s0 s -> (length text <= 126)%nat ->
  wp (names_loop drivers first (Z.of_nat (length text)))
     (names_written text (names_rest first (driver_names drivers)) s0) s.
Proof.
  intros H128. induction drivers as [|d drivers IH]; intros first text s Ht Hh Hl; cbn [names_loop].
  { apply wp_ret. by apply names_written_stop; [|lia|]. }
  cbv zeta. change (driver_names (d :: drivers)) with (default (bytes_of "unnamed") (drv_name d) :: driver_names drivers) in *.
  set (name := default (bytes_of "unnamed") (drv_name d)) in *. inversion Ht as [|?? Hn Ht']; subst.
  rewrite names_rest_cons. unfold CONSOLE_NAME_BUFFER_SIZE in *. wp_step; z_bools.
  { apply wp_ret, names_written_stop; [done|lia|]. destruct first; [done|]. rewrite !length_app. simpl. lia. }
  set (sep := if first then [] else [44; 32]).
  apply wp_bind. apply wp_mono with (Q := fun o s' => o = Z.of_nat (length (text ++ sep)) /\
     (length (text ++ sep) <= 127)%nat /\ holds (text ++ sep) s0 s').
  { subst sep. destruct first; [apply wp_ret; rewrite app_nil_r; split_and!; [done|lia|done]|].
    simpl in E. z_bools. destruct E as [E|E]; [done|]. z_bools.
    wp_step. eapply wp_mono; [apply (store_name_holds text s0); [done|lia|done|lia]|]. intros ? s1 Hh1. cbv beta.
    wp_step. eapply wp_mono; [apply (store_name_holds (text ++ [44]) s0); [rewrite length_app; simpl; lia|lia|done|rewrite length_app; simpl; lia]|].
    intros ? s2 Hh2. cbv beta. apply wp_ret. rewrite <- app_assoc in Hh2. rewrite length_app in *. simpl. split_and!; [lia|lia|done]. }
  intros o s1 (-> & Hl1 & Hh1). apply wp_bind.
  eapply wp_mono; [apply (copy_name_holds s0 name (text ++ sep)); [done|done|done|done|done]|].
  intros o s2 (k & Hh2 & -> & Hl2 & Hall). cbv beta. eapply wp_mono; [|intros o' s'; apply names_written_extend].
  assert (Hcase : take k name = name \/ (take k name <> name /\ length ((text ++ sep) ++ take k name) = 127%nat)).
  { destruct Hall as [|Hall]; [by left|]. destruct (decide (take k name = name)); [by left|by right]. }
  destruct Hcase as [Hk|[Hk Hfull]].
  - rewrite Hk in *. wp_step; z_bools.
    + apply wp_ret. apply names_written_extend. apply names_written_stop; [done|lia|].
      destruct (names_rest false (driver_names drivers)) eqn:E2; [done|]. rewrite length_app. simpl. lia.
    + eapply wp_mono; [apply (IH false ((text ++ sep) ++ name)); [done|done|lia]|].
      intros o' s' Hw. by apply names_written_extend.
  - replace (128 <=? Z.of_nat (length ((text ++ sep) ++ take k name)) + 1) with true by lia. apply wp_ret.
    exists k. assert (k < length name)%nat as Hlt.
    { destruct (Nat.lt_ge_cases k (length name)); [done|]. destruct Hk. by apply take_ge. }
    rewrite (take_app_le name) by lia. split_and!; [done|done|done|].
    rewrite !length_app in *. rewrite length_take in Hfull. intros Hc. exfalso. lia.
Qed.

(** ** Initialisation and output *)

(** What [console_initialize] selects: every registered driver whose [init]
    accepts, in the order of registration, with the effects of their [init]s. *)
Fixpoint select_drivers (l : list (option console_driver)) (d : D) : list console_driver * D :=
  match l with
  | [] => ([], d)
  | None :: l' => select_drivers l' d
  | Some drv :: l' =>
      let r := match drv_init drv with Some init => init d | None => (true, d) end in
      let rest := select_drivers l' (snd r) in
      (if fst r then drv :: fst rest else fst rest, snd rest)
  end.

Lemma select_drivers_length l d : (length (fst (select_drivers l d)) <= length l)%nat.
Proof.
  revert d. induction l as [|[drv|] l IH]; intros d; simpl; [done| |].
  - destruct (drv_init drv) as [init|]; simpl; [destruct (init d) as [[] d']; simpl|];
      match goal with |- context [select_drivers l ?x] => specialize (IH x) end; lia.
  - specialize (IH d). lia.
Qed.

Lemma init_drivers_run l : forall s,
  Z.of_nat (length (active_drivers s) + length l) <= CONSOLE_DRIVER_CAPACITY ->
  foreach l console_init_driver s =
  Done tt (set_devices (snd (select_drivers l (devices s)))
             (set_active (active_drivers s ++ fst (select_drivers l (devices s))) s)).
Proof.
  induction l as [|[drv|] l IH]; intros s Hc; cbn [foreach].
  - run. simpl. rewrite app_nil_r. by destruct s.
  - cbn [length] in Hc.
    set (r := match drv_init drv with Some init => init (devices s) | None => (true, devices s) end).
    assert (E : console_init_driver (Some drv) s =
      Done tt (set_devices (snd r) (if fst r then set_active (active_drivers s ++ [drv]) s else s))).
    { unfold console_init_driver, r. destruct (drv_init drv) as [init|]; run.
      - destruct (init (devices s)) as [[] d']; simpl; [|done].
        replace (CONSOLE_DRIVER_CAPACITY <=? _) with false by lia. done.
      - simpl. replace (CONSOLE_DRIVER_CAPACITY <=? _) with false by lia. run. by destruct s. }
    rewrite (run_bind_done _ _ _ _ _ E), IH; cbn [select_drivers fst snd]; fold r.
    + destruct r as [[] d']; simpl; [by rewrite <- app_assoc|done].
    + destruct (fst r); simpl; rewrite ?length_app; simpl; lia.
  - rewrite (run_bind_done _ _ _ tt s) by done. cbn [length] in Hc. rewrite IH by lia. done.
Qed.

Lemma copy_bytes_holds s0 l : forall text offset s,
  offset = Z.of_nat (length text) -> Forall (fun c => 0 <= c < 256) l -> holds text s0 s ->
  (length text + length l <= length (active_driver_names s0))%nat ->
  wp (copy_bytes l offset) (fun _ s' => holds (text ++ l) s0 s') s.
Proof.
  induction l as [|c l IH]; intros text offset s Ho Hl Hh Hle; cbn [copy_bytes].
  - apply wp_ret. by rewrite app_nil_r.
  - inversion Hl; subst. simpl in Hle. wp_step. eapply wp_mono; [apply store_name_holds; [done|lia|done|lia]|].
    intros ? s1 Hh1. cbv beta. eapply wp_mono; [apply (IH (text ++ [c])); [rewrite length_app; simpl; lia|done|done|rewrite length_app; simpl; lia]|].
    intros ? s2. by rewrite <- app_assoc.
Qed.

(** The names a reader of the buffer sees: at most 127 bytes of the names of the
    active drivers, all of them when they fit, and a terminator. *)
Definition shown_text (active : list console_driver) : list Z :=
  match active with
  | [] => bytes_of "unregistered"
  | _ => names_text (driver_names active)
  end.

Definition names_shown (active : list console_driver) (names : list Z) : Prop :=
  exists k, let text := take k (shown_text active) in
    take (S (length text)) names = text ++ [0] /\
    (length text <= 127)%nat /\
    ((length (shown_text active) <= 127)%nat -> text = shown_text active).

Lemma holds_refl s : holds [] s s.
Proof. split_and!; [done|done|by destruct s]. Qed.

Lemma refresh_names s :
  length (active_driver_names s) = 128%nat -> Forall is_text (driver_names (active_drivers s)) ->
  wp console_refresh_driver_names
     (fun _ s' => names_shown (active_drivers s) (active_driver_names s') /\
                  length (active_driver_names s') = 128%nat /\ s' = set_names (active_driver_names s') s) s.
Proof.
  intros H128 Ht. unfold console_refresh_driver_names. do 2 wp_step. destruct (active_drivers s) as [|d l] eqn:Ea.
  - eapply wp_mono; [apply (copy_bytes_holds s _ []); [done| |apply holds_refl|rewrite H128; simpl; lia]|].
    { repeat constructor; lia. }
    intros ? s' (Hl & Htk & Hs). split_and!; [|lia|done]. exists 12%nat. split_and!; [done|simpl; lia|done].
  - wp_step. eapply wp_mono; [apply (names_loop_holds s H128 (d :: l) true []); [done|apply holds_refl|simpl; lia]|].
    intros o s1 (k & Hh & -> & Hl & Hall).
    change (names_rest true (driver_names (d :: l))) with (shown_text (d :: l)) in *. rewrite !app_nil_l in *.
    eapply wp_mono; [apply (store_name_holds (take k (shown_text (d :: l))) s); [done|lia|done|lia]|].
    intros ? s2 (Hl2 & Htk2 & Hs2). split_and!; [|lia|done]. exists k. split_and!; [|exact Hl|exact Hall].
    rewrite length_app, Nat.add_1_r in Htk2. exact Htk2.
Qed.

(** Devices after the bytes [data] went to each driver of [l] in turn. *)
Definition driver_write (drv : console_driver) (data : list Z) (d : D) : D :=
  match drv_write drv, drv_putchar drv with
  | Some write, _ => write data d
  | None, Some putchar => fold_left (fun d c => putchar c d) data d
  | None, None => d
  end.

Lemma devices_foreach {A} (l : list A) (f : A -> D -> D) (body : A -> M console unit) s :
  (forall a s, body a s = Done tt (set_devices (f a (devices s)) s)) ->
  foreach l body s = Done tt (set_devices (fold_left (fun d a => f a d) l (devices s)) s).
Proof.
  intros Hb. revert s. induction l as [|a l IH]; intros s; cbn [foreach fold_left].
  - run. by destruct s.
  - rewrite (run_bind_done _ _ _ _ _ (Hb a s)), IH. done.
Qed.

Lemma console_driver_write_run drv data s :
  console_driver_write (Some drv) data s = Done tt (set_devices (driver_write drv data (devices s)) s).
Proof.
  unfold console_driver_write, driver_write. destruct (drv_write drv) as [w|]; [done|].
  destruct (drv_putchar drv) as [p|].
  - by rewrite (devices_foreach data p).
  - by destruct s.
Qed.

Lemma console_write_run data s :
  console_write data s =
  Done tt (set_devices (fold_left (fun d drv => driver_write drv data d) (active_drivers s) (devices s)) s).
Proof.
  unfold console_write. run. apply (devices_foreach _ (fun drv => driver_write drv data)).
  intros drv s'. apply console_driver_write_run.
Qed.
End Console.
Arguments console_driver : clear implicits.
Arguments console : clear implicits.

(** [console_initialize] activates exactly the registered drivers whose
    [init] succeeds (or is absent), in the order of registration, and answers
    whether there is one; afterwards [active_driver_names] is a terminated string
    inside its 128 bytes: a prefix of the drivers' names joined by commas, the
    whole of it when it has at most 127 bytes. *)
Theorem console_initialize_correct {D} (s : console D) :
  length (active_driver_names s) = 128%nat ->
  Z.of_nat (length (registered_drivers s)) <= CONSOLE_DRIVER_CAPACITY ->
  Forall is_text (driver_names (omap id (registered_drivers s))) ->
  let '(active, d) := select_drivers (registered_drivers s) (devices s) in
  exists names,
    console_initialize s =
      Done (negb (Z.of_nat (length active) =? 0)) (mk_console (registered_drivers s) active names d) /\
    length names = 128%nat /\ names_shown active names.
Proof.
  intros H128 Hcap Ht. destruct (select_drivers (registered_drivers s) (devices s)) as [active d] eqn:Es.
  assert (Hact : active = fst (select_drivers (registered_drivers s) (devices s))) by (by rewrite Es).
  assert (Hd : d = snd (select_drivers (registered_drivers s) (devices s))) by (by rewrite Es).
  pose (s1 := set_devices d (set_active active s)).
  assert (Hw : wp console_refresh_driver_names
     (fun _ s' => names_shown active (active_driver_names s') /\
                  length (active_driver_names s') = 128%nat /\ s' = set_names (active_driver_names s') s1) s1).
  { apply (refresh_names s1); [done|]. simpl. rewrite Hact. clear -Ht.
    revert Ht. generalize (devices s). induction (registered_drivers s) as [|[drv|] l IH]; intros d Ht; simpl in *; [done| |by apply IH].
    inversion Ht as [|?? H1 H2]; subst. case_match; [constructor; [done|]|]; by apply IH. }
  apply wp_Done in Hw as (u & s' & Hrun & Hsh & Hl & Hs'). exists (active_driver_names s'). split_and!; [|done|done].
  unfold console_initialize. run. rewrite (run_bind_done _ _ _ _ _ (init_drivers_run _ (set_active [] s) Hcap)). cbn -[console_refresh_driver_names console_driver_count bind].
  rewrite <- Hact, <- Hd. destruct u. rewrite (run_bind_done _ _ _ _ _ Hrun). unfold console_driver_count. run.
  by rewrite Hs'.
Qed.

(** Two drivers that log what they print; the second refuses to start. *)
Definition vga_like : console_driver (list Z) :=
  mk_driver (Some (bytes_of "vga")) (Some (fun d => (true, d))) (Some (fun _ => [])) (Some (fun c d => d ++ [c])) None.
Definition absent_uart : console_driver (list Z) :=
  mk_driver (Some (bytes_of "serial")) (Some (fun d => (false, d))) None None (Some (fun l d => d ++ l)).
Definition boot_console : console (list Z) :=
  mk_console [Some absent_uart; Some vga_like; Some (mk_driver None None None None None)] []
    (bytes_of "unregistered" ++ replicate 116 0) [].

Lemma console_initialize_correct_witness :
  exists names, console_initialize boot_console =
    Done true (mk_console (registered_drivers boot_console) [vga_like; mk_driver None None None None None] names []) /\
    length names = 128%nat /\ names_shown [vga_like; mk_driver None None None None None] names.
Proof.
  apply (console_initialize_correct boot_console); [reflexivity|vm_compute; discriminate|].
  vm_compute. repeat constructor.
Defined.
