(* ===== verification/Stdio.v ===== *)
(** Formatted output: libc/stdio/printf.c, putchar.c and puts.c.

    The state is the memory (where the format, the strings and the caller's buffer
    are), the console, and the [format_sink_t] of the call.  A [va_list] is the list
    of the 32-bit words that were passed; taking one too many is a fault, as is an
    access outside a local array.  [number_buffer] starts with whatever the stack
    held ([stack], 32 bytes).  The loops over the format and the strings take a
    bound on the steps. *)
From S2P Require Import Prelude Strings Console.
From Stdlib Require Import ZArith Lia Ascii String.
From stdpp Require Import strings.
Open Scope Z_scope.

Definition EOF : Z := -1.
Definition INT_MAX : Z := 2147483647.
Definition NULL : Z := 0.

(** The characters the code names. *)
Abbreviation c_space := 32.
Abbreviation c_hash := 35.
Abbreviation c_percent := 37.
Abbreviation c_plus := 43.
Abbreviation c_minus := 45.
Abbreviation c_0 := 48.
Abbreviation c_9 := 57.
Abbreviation c_X := 88.
Abbreviation c_c := 99.
Abbreviation c_d := 100.
Abbreviation c_i := 105.
Abbreviation c_o := 111.
Abbreviation c_p := 112.
Abbreviation c_s := 115.
Abbreviation c_u := 117.
Abbreviation c_x := 120.

Record format_sink := mk_sink {
  buffer : Z;
  capacity : Z;
  sink_length : Z;
  failed : bool
}.

(** ** Numbers *)

Definition digit_chars (upper : bool) : list Z :=
  bytes_of (if upper then "0123456789ABCDEF" else "0123456789abcdef").

Section Numbers.
Context {St : Type}.

Definition array_get (a : list Z) (i : Z) : M St Z :=
  if (0 <=? i) && (i <? Z.of_nat (List.length a)) then of_option (a !! Z.to_nat i) else fault.

(** [while (value != 0)]: the digits, lowest first. *)
Fixpoint digits_loop (fuel : nat) (digits : list Z) (base value : Z) (buf : list Z) (index : Z)
    : M St (list Z * Z) :=
  match fuel with
  | O => fun _ => Spin
  | S fuel' =>
      if value =? 0 then ret (buf, index) else
      d <- array_get digits (value mod base) ;;
      buf <- array_set buf index d ;;
      digits_loop fuel' digits base (value / base) buf (u32 (index + 1))
  end.

(** [for (left = 0, right = index - 1; left < right; left++, right--)] *)
Fixpoint reverse_loop (fuel : nat) (buf : list Z) (left right : Z) : M St (list Z) :=
  match fuel with
  | O => fun _ => Spin
  | S fuel' =>
      if negb (left <? right) then ret buf else
      tmp <- array_get buf left ;;
      r <- array_get buf right ;;
      buf <- array_set buf left r ;;
      buf <- array_set buf right tmp ;;
      reverse_loop fuel' buf (left + 1) (right - 1)
  end.

(** A 32-bit value has at most 32 digits, so 33 rounds end either loop. *)
Definition uint_to_string (value base : Z) (upper : bool) (buf : list Z) (buffer_size : Z)
    : M St (list Z * Z) :=
  if buffer_size =? 0 then ret (buf, 0) else
  if value =? 0 then (buf <- array_set buf 0 c_0 ;; ret (buf, 1)) else
  r <- digits_loop 33 (digit_chars upper) base value buf 0 ;;
  let '(buf, index) := r in
  buf <- reverse_loop 33 buf 0 (if index =? 0 then 0 else index - 1) ;;
  ret (buf, index).
End Numbers.

(** ** The sink *)

Section Stdio.
Context {D : Type}.

Record stdio := mk_stdio { io_mem : memory; io_console : console D; io_sink : format_sink }.

Definition set_mem (m : memory) (s : stdio) : stdio := mk_stdio m (io_console s) (io_sink s).
Definition set_console (c : console D) (s : stdio) : stdio := mk_stdio (io_mem s) c (io_sink s).
Definition set_sink (k : format_sink) (s : stdio) : stdio := mk_stdio (io_mem s) (io_console s) k.

(** Running a function of the string library, or of the console. *)
Definition on_mem {A} (m : M memory A) : M stdio A :=
  fun s => match m (io_mem s) with
           | Done a mem => Done a (set_mem mem s)
           | Panic msg mem => Panic msg (set_mem mem s)
           | Fault => Fault
           | Spin => Spin
           end.
Definition on_console {A} (m : M (console D) A) : M stdio A :=
  fun s => match m (io_console s) with
           | Done a c => Done a (set_console c s)
           | Panic msg c => Panic msg (set_console c s)
           | Fault => Fault
           | Spin => Spin
           end.

(** putchar.c, built for the kernel. *)
Definition putchar (ic : Z) : M stdio Z :=
  let c := u8 ic in
  on_console (console_write [c]) ;;; ret ic.

Definition sink_putc (c : Z) : M stdio unit :=
  sink <- gets io_sink ;;
  (if negb (buffer sink =? NULL) then
     if negb (capacity sink =? 0) && (u32 (sink_length sink + 1) <? capacity sink)
     then on_mem (store_byte (buffer sink + sink_length sink) c)
     else ret tt
   else
     r <- putchar (u8 c) ;;
     if r =? EOF
     then modify (set_sink (mk_sink (buffer sink) (capacity sink) (sink_length sink) true))
     else ret tt) ;;;
  sink <- gets io_sink ;;
  modify (set_sink (mk_sink (buffer sink) (capacity sink) (u32 (sink_length sink + 1)) (failed sink))).

(** The text of a conversion: an array of the call, or a string of the caller. *)
Inductive text :=
| Local (l : list Z)
| At (p : Z).

Definition text_get (t : text) (i : Z) : M stdio Z :=
  match t with
  | Local l => array_get l i
  | At p => on_mem (byte_at (p + i))
  end.

Definition sink_write (data : text) (length : Z) : M stdio unit :=
  for_each 0 length (fun i => c <- text_get data i ;; sink_putc c).

(** ** The format *)

Record flags := mk_flags {
  left_justify : bool;
  zero_pad : bool;
  alternate : bool;
  sign_char : Z
}.

Definition char_at (p : Z) : M stdio Z := on_mem (byte_at p).

Fixpoint flags_loop (fuel : nat) (format : Z) (fl : flags) : M stdio (flags * Z) :=
  match fuel with
  | O => fun _ => Spin
  | S fuel' =>
      c <- char_at format ;;
      if c =? c_minus
      then flags_loop fuel' (format + 1) (mk_flags true (zero_pad fl) (alternate fl) (sign_char fl))
      else if c =? c_0
      then flags_loop fuel' (format + 1) (mk_flags (left_justify fl) true (alternate fl) (sign_char fl))
      else if c =? c_hash
      then flags_loop fuel' (format + 1) (mk_flags (left_justify fl) (zero_pad fl) true (sign_char fl))
      else if c =? c_plus
      then flags_loop fuel' (format + 1) (mk_flags (left_justify fl) (zero_pad fl) (alternate fl) c_plus)
      else if c =? c_space
      then flags_loop fuel' (format + 1)
             (if sign_char fl =? 0
              then mk_flags (left_justify fl) (zero_pad fl) (alternate fl) c_space else fl)
      else ret (fl, format)
  end.

Fixpoint width_loop (fuel : nat) (format width : Z) : M stdio (Z * Z) :=
  match fuel with
  | O => fun _ => Spin
  | S fuel' =>
      c <- char_at format ;;
      if (c_0 <=? c) && (c <=? c_9)
      then width_loop fuel' (format + 1) (u32 (u32 (width * 10) + (c - c_0)))
      else ret (width, format)
  end.

Definition va_arg (parameters : list Z) : M stdio (Z * list Z) :=
  match parameters with
  | [] => fault
  | a :: parameters' => ret (a, parameters')
  end.

(** A 32-bit word read as [int]. *)
Definition to_int (w : Z) : Z := if w <? 2 ^ 31 then w else w - 2 ^ 32.

Definition number (stack : list Z) (value base : Z) (upper : bool) : M stdio (list Z * Z) :=
  uint_to_string value base upper stack 32.

(** The [switch]: the text, its length, the prefix and the arguments left; [None]
    is the [default] case. *)
Definition convert (fuel : nat) (stack : list Z) (fl : flags) (conversion : Z) (parameters : list Z)
    : M stdio (option (text * Z * list Z * list Z)) :=
  if conversion =? c_c then
    a <- va_arg parameters ;;
    buf <- array_set stack 0 (fst a) ;;
    ret (Some (Local buf, 1, [], snd a))
  else if conversion =? c_s then
    a <- va_arg parameters ;;
    if fst a =? NULL then ret (Some (Local (bytes_of "(null)"), 6, [], snd a))
    else n <- on_mem (strlen fuel (fst a)) ;; ret (Some (At (fst a), n, [], snd a))
  else if (conversion =? c_d) || (conversion =? c_i) then
    a <- va_arg parameters ;;
    let value := to_int (fst a) in
    let '(prefix, magnitude) :=
      if value <? 0 then ([c_minus], u32 (u32 (- (value + 1)) + 1))
      else (if negb (sign_char fl =? 0) then [sign_char fl] else [], u32 value) in
    r <- number stack magnitude 10 false ;;
    ret (Some (Local (fst r), snd r, prefix, snd a))
  else if conversion =? c_u then
    a <- va_arg parameters ;;
    r <- number stack (fst a) 10 false ;;
    ret (Some (Local (fst r), snd r, [], snd a))
  else if conversion =? c_o then
    a <- va_arg parameters ;;
    r <- number stack (fst a) 8 false ;;
    c <- array_get (fst r) 0 ;;
    ret (Some (Local (fst r), snd r, if alternate fl && negb (c =? c_0) then [c_0] else [], snd a))
  else if (conversion =? c_x) || (conversion =? c_X) then
    a <- va_arg parameters ;;
    r <- number stack (fst a) 16 (conversion =? c_X) ;;
    ret (Some (Local (fst r), snd r,
               if alternate fl && negb (fst a =? 0) then [c_0; conversion] else [], snd a))
  else if conversion =? c_p then
    a <- va_arg parameters ;;
    r <- number stack (fst a) 16 false ;;
    ret (Some (Local (fst r), snd r, [c_0; c_x], snd a))
  else ret None.

Definition pad (c padding : Z) : M stdio unit := for_each 0 padding (fun _ => sink_putc c).

(** From [total_length] to the end of the loop's body. *)
Definition emit_field (fl : flags) (width : Z) (data : text) (length : Z) (prefix : list Z) : M stdio unit :=
  let prefix_length := Z.of_nat (List.length prefix) in
  let total_length := u32 (prefix_length + length) in
  let pad_char := if zero_pad fl && negb (left_justify fl) then c_0 else c_space in
  let padding := if total_length <? width then width - total_length else 0 in
  (if negb (left_justify fl) && (pad_char =? c_space) then pad c_space padding else ret tt) ;;;
  (if negb (prefix_length =? 0) then sink_write (Local prefix) prefix_length else ret tt) ;;;
  (if negb (left_justify fl) && (pad_char =? c_0) then pad c_0 padding else ret tt) ;;;
  sink_write data length ;;;
  (if left_justify fl then pad c_space padding else ret tt).

(** One conversion, from the character after the percent sign: where the format
    goes on and the arguments left, or the early [return -1]. *)
Definition format_conversion (fuel : nat) (stack : list Z) (format : Z) (parameters : list Z)
    : M stdio (option (Z * list Z)) :=
  r <- flags_loop fuel format (mk_flags false false false 0) ;;
  let '(fl, format) := r in
  r <- width_loop fuel format 0 ;;
  let '(width, format) := r in
  conversion <- char_at format ;;
  r <- convert fuel stack fl conversion parameters ;;
  match r with
  | None => sink_putc c_percent ;;; sink_putc conversion ;;; ret (Some (format + 1, parameters))
  | Some (data, length, prefix, parameters) =>
      emit_field fl width data length prefix ;;;
      sink <- gets io_sink ;;
      ret (if failed sink then None else Some (format + 1, parameters))
  end.

(** The loop over the format; [false] is the early [return -1]. *)
Fixpoint format_loop (fuel : nat) (stack : list Z) (format : Z) (parameters : list Z) : M stdio bool :=
  match fuel with
  | O => fun _ => Spin
  | S fuel' =>
      c <- char_at format ;;
      if c =? 0 then ret true
      else if negb (c =? c_percent) then
        sink_putc c ;;; format_loop fuel' stack (format + 1) parameters
      else
        c <- char_at (format + 1) ;;
        if c =? c_percent then
          sink_putc c_percent ;;; format_loop fuel' stack (format + 2) parameters
        else
          r <- format_conversion fuel stack (format + 1) parameters ;;
          match r with
          | None => ret false
          | Some (format, parameters) => format_loop fuel' stack format parameters
          end
  end.

Definition format_string (fuel : nat) (stack : list Z) (format : Z) (parameters : list Z) : M stdio Z :=
  ok <- format_loop fuel stack format parameters ;;
  if negb ok then ret (-1) else
  sink <- gets io_sink ;;
  (if negb (buffer sink =? NULL) && negb (capacity sink =? 0) then
     let end_ := if sink_length sink <? capacity sink then sink_length sink else capacity sink - 1 in
     on_mem (store_byte (buffer sink + end_) 0)
   else ret tt) ;;;
  ret (if failed sink || (INT_MAX <? sink_length sink) then -1 else sink_length sink).

Definition vprintf (fuel : nat) (stack : list Z) (format : Z) (parameters : list Z) : M stdio Z :=
  modify (set_sink (mk_sink NULL 0 0 false)) ;;;
  format_string fuel stack format parameters.

Definition vsnprintf (fuel : nat) (stack : list Z) (buf buffer_size format : Z) (parameters : list Z) : M stdio Z :=
  modify (set_sink (mk_sink buf buffer_size 0 false)) ;;;
  format_string fuel stack format parameters.

Definition snprintf (fuel : nat) (stack : list Z) (buf buffer_size format : Z) (args : list Z) : M stdio Z :=
  vsnprintf fuel stack buf buffer_size format args.

Definition printf (fuel : nat) (stack : list Z) (format : Z) (args : list Z) : M stdio Z :=
  vprintf fuel stack format args.

(** puts.c; [fmt] is where the literal "%s\n" lies. *)
Definition puts (fuel : nat) (stack : list Z) (fmt str : Z) : M stdio Z :=
  printf fuel stack fmt [str].
End Stdio.
Arguments stdio : clear implicits.
