(* ===== verification/StdioNum.v ===== *)
(** The numbers of the formatter: what [uint_to_string] writes is the numeral of
    its argument. *)
From S2P Require Import Prelude Strings Console Stdio.
From Stdlib Require Import ZArith Lia.
Open Scope Z_scope.

(** ** Numerals *)

Definition digit (upper : bool) (d : Z) : Z := nth (Z.to_nat d) (digit_chars upper) 0.

(** The numeral of a positive number, highest digit first; empty for zero. *)
Fixpoint numeral (n : nat) (base : Z) (upper : bool) (v : Z) : list Z :=
  match n with
  | O => []
  | S n' => if v =? 0 then [] else numeral n' base upper (v / base) ++ [digit upper (v mod base)]
  end.

(** A 32-bit number in a base of at least two has at most 32 digits. *)
Definition num_text (base : Z) (upper : bool) (v : Z) : list Z :=
  if v =? 0 then [c_0] else numeral 32 base upper v.

Definition digit_value (c : Z) : Z := if c <? 58 then c - 48 else if c <? 97 then c - 55 else c - 87.

(** Reading a numeral back. *)
Definition of_digits (base : Z) (l : list Z) : Z := fold_left (fun acc c => acc * base + digit_value c) l 0.

Lemma digit_range d : 0 <= d < 16 -> d = 0 \/ d = 1 \/ d = 2 \/ d = 3 \/ d = 4 \/ d = 5 \/ d = 6 \/ d = 7 \/
  d = 8 \/ d = 9 \/ d = 10 \/ d = 11 \/ d = 12 \/ d = 13 \/ d = 14 \/ d = 15.
Proof. lia. Qed.

Lemma digit_value_digit upper d : 0 <= d < 16 -> digit_value (digit upper d) = d.
Proof. intros H. by destruct (digit_range d H) as [->|H']; [|repeat (destruct H' as [->|H']; [|]); subst]; destruct upper. Qed.

Lemma digit_byte upper d : 0 <= d < 16 -> 48 <= digit upper d < 128.
Proof.
  intros H. by destruct (digit_range d H) as [->|H']; [|repeat (destruct H' as [->|H']; [|]); subst]; destruct upper; vm_compute.
Qed.

Lemma digit_char_zero upper d : 0 <= d < 16 -> digit upper d = c_0 -> d = 0.
Proof. intros H E. rewrite <- (digit_value_digit upper d H), E. done. Qed.

Lemma digit_lookup upper d : 0 <= d < 16 -> digit_chars upper !! Z.to_nat d = Some (digit upper d).
Proof.
  intros H. unfold digit. apply nth_lookup_Some with 0 || idtac.
  by destruct (digit_range d H) as [->|H']; [|repeat (destruct H' as [->|H']; [|]); subst]; destruct upper.
Qed.

Lemma of_digits_snoc base l c : of_digits base (l ++ [c]) = of_digits base l * base + digit_value c.
Proof. unfold of_digits. by rewrite fold_left_app. Qed.

Section Base.
Variables (base : Z) (upper : bool).
Hypothesis Hbase : 2 <= base <= 16.

Lemma div_base_pow v n : 0 <= v < base ^ Z.of_nat (S n) -> 0 <= v / base < base ^ Z.of_nat n.
Proof.
  intros H. split; [apply Z.div_pos; lia|]. apply Z.div_lt_upper_bound; [lia|].
  rewrite Nat2Z.inj_succ, Z.pow_succ_r in H by lia. lia.
Qed.

(** A 32-bit number has at most 32 digits. *)
Lemma u32_base_pow v : fits 32 v -> 0 <= v < base ^ Z.of_nat 32.
Proof.
  unfold fits. intros Hv. change (Z.of_nat 32) with 32. pose proof (Z.pow_le_mono_l 2 base 32). lia.
Qed.

Lemma numeral_value n : forall v, 0 <= v < base ^ Z.of_nat n -> of_digits base (numeral n base upper v) = v.
Proof.
  induction n as [|n IH]; intros v Hv; [simpl in *; unfold of_digits; simpl; lia|]. cbn [numeral].
  destruct (Z.eqb_spec v 0) as [->|Hne]; [done|]. rewrite of_digits_snoc, IH by (by apply div_base_pow).
  pose proof (Z.mod_pos_bound v base). rewrite digit_value_digit by lia. pose proof (Z.div_mod v base). lia.
Qed.

Lemma numeral_bytes n v : 0 <= v -> Forall (fun c => 48 <= c < 128) (numeral n base upper v).
Proof.
  revert v. induction n as [|n IH]; intros v Hv; cbn [numeral]; [constructor|].
  destruct (v =? 0); [constructor|]. apply Forall_app. split; [apply IH, Z.div_pos; lia|].
  constructor; [|constructor]. apply digit_byte. pose proof (Z.mod_pos_bound v base). lia.
Qed.

Lemma numeral_digits n v : 0 <= v ->
  Forall (fun c => 0 <= digit_value c < base /\ c = digit upper (digit_value c)) (numeral n base upper v).
Proof.
  revert v. induction n as [|n IH]; intros v Hv; cbn [numeral]; [constructor|].
  destruct (v =? 0); [constructor|]. apply Forall_app. split; [apply IH, Z.div_pos; lia|].
  constructor; [|constructor]. pose proof (Z.mod_pos_bound v base). rewrite digit_value_digit by lia. split; [lia|done].
Qed.

Lemma numeral_length n v : (length (numeral n base upper v) <= n)%nat.
Proof.
  revert v. induction n as [|n IH]; intros v; cbn [numeral]; [done|]. destruct (v =? 0); [simpl; lia|].
  rewrite length_app. simpl. specialize (IH (v / base)). lia.
Qed.

(** No leading zero. *)
Lemma numeral_head n : forall v, 0 < v < base ^ Z.of_nat n ->
  exists c l, numeral n base upper v = c :: l /\ c <> c_0.
Proof.
  induction n as [|n IH]; intros v Hv; [simpl in Hv; lia|]. cbn [numeral].
  replace (v =? 0) with false by lia. pose proof (Z.mod_pos_bound v base). pose proof (Z.div_mod v base).
  destruct (Z.eq_dec (v / base) 0) as [E|E].
  - rewrite E. assert (Hz : numeral n base upper 0 = []) by (by destruct n). rewrite Hz.
    eexists _, _. split; [done|]. intros Hd. apply digit_char_zero in Hd; lia.
  - pose proof (div_base_pow v n). destruct (IH (v / base)) as (c & l & -> & Hc); [lia|]. by eexists _, _.
Qed.

Lemma numeral_more n m : forall v, 0 <= v < base ^ Z.of_nat n -> (n <= m)%nat ->
  numeral m base upper v = numeral n base upper v.
Proof.
  revert m. induction n as [|n IH]; intros m v Hv Hm.
  - simpl in Hv. replace v with 0 by lia. by destruct m.
  - destruct m as [|m]; [lia|]. cbn [numeral]. rewrite (IH m); [done|by apply div_base_pow|lia].
Qed.

(** ** The loops of [uint_to_string] *)

Context {St : Type}.

Lemma array_get_run a i v (s : St) : 0 <= i -> a !! Z.to_nat i = Some v -> array_get a i s = Done v s.
Proof.
  intros Hi H. unfold array_get. pose proof (lookup_lt_Some _ _ _ H).
  replace ((0 <=? i) && (i <? Z.of_nat (length a))) with true by lia. by rewrite H.
Qed.

Lemma array_set_run a i v (s : St) :
  0 <= i < Z.of_nat (length a) -> array_set a i v s = Done (<[Z.to_nat i := u8 v]> a) s.
Proof. intros Hi. unfold array_set. by replace ((0 <=? i) && (i <? Z.of_nat (length a))) with true by lia. Qed.

Lemma digits_loop_run n : forall fuel v buf index (s : St),
  0 <= v < base ^ Z.of_nat n -> (n < fuel)%nat -> 0 <= index -> index + Z.of_nat n <= Z.of_nat (length buf) ->
  Z.of_nat (length buf) < 2 ^ 32 ->
  exists buf', digits_loop fuel (digit_chars upper) base v buf index s =
                 Done (buf', index + Z.of_nat (length (numeral n base upper v))) s /\
    length buf' = length buf /\
    take (Z.to_nat index + length (numeral n base upper v)) buf' =
      take (Z.to_nat index) buf ++ reverse (numeral n base upper v).
Proof.
  induction n as [|n IH]; intros [|fuel] v buf index s Hv Hf Hi Hlen Hmax; try lia; cbn [digits_loop numeral].
  { simpl in Hv. replace v with 0 by lia. exists buf. cbn [Z.eqb length]. run.
    rewrite Nat.add_0_r, Z.add_0_r. split_and!; try done. cbn. by rewrite app_nil_r. }
  destruct (Z.eqb_spec v 0) as [->|Hne].
  { exists buf. run. cbn [length]. rewrite Nat.add_0_r, Z.add_0_r. split_and!; try done. cbn. by rewrite app_nil_r. }
  pose proof (Z.mod_pos_bound v base). pose proof (digit_byte upper (v mod base)).
  assert (Hget : array_get (digit_chars upper) (v mod base) s = Done (digit upper (v mod base)) s).
  { apply array_get_run; [lia|]. apply digit_lookup. lia. }
  rewrite (run_bind_done _ _ _ _ _ Hget), (run_bind_done _ _ _ _ _ (array_set_run buf index (digit upper (v mod base)) s ltac:(lia))).
  rewrite (wrap_small 32 (index + 1)) by word_lia. rewrite (wrap_small 8 (digit upper (v mod base))) by word_lia.
  destruct (IH fuel (v / base) (<[Z.to_nat index := digit upper (v mod base)]> buf) (index + 1) s) as (buf' & Hrun & Hl & Htk);
    [by apply div_base_pow|lia|lia|rewrite length_insert; lia|rewrite length_insert; lia|].
  exists buf'. rewrite Hrun, length_app, reverse_app. rewrite length_insert in Hl.
  split_and!; [f_equal; f_equal; simpl; lia|done|].
  replace (Z.to_nat (index + 1)) with (S (Z.to_nat index)) in Htk by lia.
  rewrite (take_S_r _ _ (digit upper (v mod base))), take_insert_ge in Htk by (apply list_lookup_insert_eq || lia; lia).
  cbn [length]. replace (Z.to_nat index + _)%nat with (S (Z.to_nat index) + length (numeral n base upper (v / base)))%nat by lia.
  rewrite Htk, <- app_assoc. done.
Qed.

(** The reversal: after the swaps outside [left, right] are done, the rest of the
    first [n] bytes is still in its order. *)
Definition reversed_outside (n left right : Z) (a buf : list Z) : Prop :=
  length buf = length a /\
  forall k, 0 <= k < n ->
    buf !! Z.to_nat k = a !! Z.to_nat (if (left <=? k) && (k <=? right) then k else n - 1 - k).

Lemma reverse_loop_run n a fuel : forall buf left right (s : St),
  0 <= left -> left + right = n - 1 -> n <= Z.of_nat (length a) -> right - left < 2 * Z.of_nat fuel - 1 ->
  left <= right + 1 -> Forall (fits 8) (take (Z.to_nat n) a) ->
  reversed_outside n left right a buf ->
  exists buf', reverse_loop fuel buf left right s = Done buf' s /\ length buf' = length a /\
    forall k, 0 <= k < n -> buf' !! Z.to_nat k = a !! Z.to_nat (n - 1 - k).
Proof.
  induction fuel as [|fuel IH]; intros buf left right s Hl Hsum Hn Hf Hlr Hb [Hlen Hinv]; [lia|]. cbn [reverse_loop].
  destruct (Z.ltb_spec left right) as [Hlt|Hge]; cbn [negb].
  - destruct (lookup_lt_is_Some_2 a (Z.to_nat left)) as [x Hx]; [lia|].
    destruct (lookup_lt_is_Some_2 a (Z.to_nat right)) as [y Hy]; [lia|].
    assert (Hbx : buf !! Z.to_nat left = Some x).
    { rewrite Hinv by lia. by replace ((left <=? left) && (left <=? right)) with true by lia. }
    assert (Hby : buf !! Z.to_nat right = Some y).
    { rewrite Hinv by lia. by replace ((left <=? right) && (right <=? right)) with true by lia. }
    rewrite (run_bind_done _ _ _ _ _ (array_get_run buf left x s Hl Hbx)).
    rewrite (run_bind_done _ _ _ _ _ (array_get_run buf right y s ltac:(lia) Hby)).
    rewrite (run_bind_done _ _ _ _ _ (array_set_run buf left y s ltac:(lia))).
    rewrite (run_bind_done _ _ _ _ _ (array_set_run (<[Z.to_nat left := u8 y]> buf) right x s ltac:(rewrite length_insert; lia))).
    assert (Hfit : forall k z, 0 <= k < n -> a !! Z.to_nat k = Some z -> u8 z = z).
    { intros k z Hk Hz. apply wrap_small. eapply (Forall_lookup_1 _ _ (Z.to_nat k)); [exact Hb|].
      rewrite lookup_take_lt by lia. exact Hz. }
    rewrite (Hfit left x), (Hfit right y) by (done || lia).
    apply IH; [lia|lia|lia|lia|lia|done|]. split; [by rewrite !length_insert|]. intros k Hk.
    destruct (Z.eq_dec k right) as [->|Hkr].
    { rewrite list_lookup_insert_eq by (rewrite length_insert; lia). replace (_ && _) with false by lia.
      rewrite <- Hx. do 2 f_equal. lia. }
    rewrite list_lookup_insert_ne by lia. destruct (Z.eq_dec k left) as [->|Hkl].
    { rewrite list_lookup_insert_eq by lia. replace (_ && _) with false by lia. rewrite <- Hy. do 2 f_equal. lia. }
    rewrite list_lookup_insert_ne, Hinv by lia.
    replace ((left + 1 <=? k) && (k <=? right - 1)) with ((left <=? k) && (k <=? right)) by lia. done.
  - exists buf. run. split_and!; [done|done|]. intros k Hk. rewrite Hinv by done.
    destruct ((left <=? k) && (k <=? right)) eqn:E; [|done]. do 2 f_equal. lia.
Qed.

(** The first [n] bytes end up reversed. *)
Lemma reverse_all n a (s : St) :
  (0 < n <= length a)%nat -> (n <= 32)%nat -> Forall (fits 8) (take n a) ->
  exists buf', reverse_loop 33 a 0 (Z.of_nat n - 1) s = Done buf' s /\ length buf' = length a /\
               take n buf' = reverse (take n a).
Proof.
  intros Hn H32 Hb. destruct (reverse_loop_run (Z.of_nat n) a 33 a 0 (Z.of_nat n - 1) s) as (buf' & Hrun & Hl & Hr);
    [lia|lia|lia|lia|lia|by rewrite Nat2Z.id| |].
  { split; [done|]. intros k Hk. by replace ((0 <=? k) && (k <=? Z.of_nat n - 1)) with true by lia. }
  exists buf'. split_and!; [done|done|]. apply list_eq. intros i.
  destruct (Nat.lt_ge_cases i n) as [Hi|Hi].
  - rewrite lookup_take_lt, reverse_lookup by (rewrite ?length_take; lia).
    rewrite length_take, lookup_take_lt by lia. specialize (Hr (Z.of_nat i)). rewrite Nat2Z.id in Hr. rewrite Hr by lia.
    f_equal. lia.
  - rewrite !lookup_ge_None_2; [done|rewrite length_reverse, length_take; lia|rewrite length_take; lia].
Qed.

Lemma Forall_byte_fits l : Forall (fun c => 48 <= c < 128) l -> Forall (fits 8) l.
Proof. apply Forall_impl. intros c Hc. word_lia. Qed.

(** [uint_to_string] in an array of 32 bytes, whatever it held. *)
Lemma uint_to_string_run v stack (s : St) :
  fits 32 v -> length stack = 32%nat ->
  exists buf, uint_to_string v base upper stack 32 s = Done (buf, Z.of_nat (length (num_text base upper v))) s /\
    length buf = 32%nat /\ take (length (num_text base upper v)) buf = num_text base upper v.
Proof.
  intros Hv Hst. unfold uint_to_string, num_text. cbn [Z.eqb]. destruct (Z.eqb_spec v 0) as [->|Hne].
  { rewrite (run_bind_done _ _ _ _ _ (array_set_run stack 0 c_0 s ltac:(lia))). eexists. split_and!; [done|by rewrite length_insert|].
    destruct stack; [done|]. done. }
  destruct (digits_loop_run 32 33 v stack 0 s) as (buf1 & Hd & Hl1 & Ht1); [by apply u32_base_pow|lia|lia|lia|rewrite Hst; word_lia|].
  set (text := numeral 32 base upper v) in *. pose proof (numeral_length 32 v) as Hlen. fold text in Hlen.
  assert (0 < length text)%nat as Hpos.
  { destruct (numeral_head 32 v) as (c & l & E & _); [pose proof (u32_base_pow v Hv); lia|]. fold text in E. rewrite E. simpl. lia. }
  rewrite (run_bind_done _ _ _ _ _ Hd), Z.add_0_l. replace (Z.of_nat (length text) =? 0) with false by lia.
  change (Z.to_nat 0) with O in Ht1. rewrite Nat.add_0_l, take_0, app_nil_l in Ht1.
  destruct (reverse_all (length text) buf1 s) as (buf2 & Hr & Hl2 & Ht2); [lia|lia| |].
  { rewrite Ht1. rewrite Forall_reverse. apply Forall_byte_fits, numeral_bytes. unfold fits in Hv. lia. }
  rewrite (run_bind_done _ _ _ _ _ Hr). exists buf2. split_and!; [done|lia|]. by rewrite Ht2, Ht1, reverse_involutive.
Qed.
End Base.

Lemma num_text_bytes base upper v : 2 <= base <= 16 -> 0 <= v -> Forall (fun c => 48 <= c < 128) (num_text base upper v).
Proof.
  intros Hb Hv. unfold num_text. destruct (v =? 0); [repeat constructor; lia|]. by apply numeral_bytes.
Qed.

Lemma numeral_head_u32 base upper v : 2 <= base <= 16 -> fits 32 v -> v <> 0 ->
  exists c l, numeral 32 base upper v = c :: l /\ c <> c_0.
Proof. intros Hb Hv Hne. apply numeral_head; [done|]. pose proof (u32_base_pow base Hb v Hv). lia. Qed.

Lemma num_text_length base upper v : 2 <= base <= 16 -> fits 32 v -> (0 < length (num_text base upper v) <= 32)%nat.
Proof.
  intros Hb Hv. unfold num_text. destruct (Z.eqb_spec v 0) as [|Hne]; [simpl; lia|]. split; [|apply numeral_length].
  destruct (numeral_head_u32 base upper v Hb Hv Hne) as (c & l & -> & _). simpl. lia.
Qed.

(** [uint_to_string] on a 32-bit number, in any base from 2 to 16 and a
    buffer of 32 bytes with arbitrary contents, ends without writing outside the
    buffer, and the text it leaves reads back as the number; the text has no leading
    zero unless it is the single digit 0. *)
Theorem uint_to_string_roundtrip {St} v base upper stack (s : St) :
  fits 32 v -> 2 <= base <= 16 -> length stack = 32%nat ->
  exists buf n, uint_to_string v base upper stack 32 s = Done (buf, Z.of_nat n) s /\
    length buf = 32%nat /\ (0 < n <= 32)%nat /\
    of_digits base (take n buf) = v /\
    Forall (fun c => 0 <= digit_value c < base /\ c = digit upper (digit_value c)) (take n buf) /\
    (hd_error buf = Some c_0 -> v = 0 /\ n = 1%nat).
Proof.
  intros Hv Hb Hst. destruct (uint_to_string_run base upper Hb v stack s Hv Hst) as (buf & Hrun & Hl & Ht).
  eexists buf, _. split_and!; [exact Hrun|done| | | | |]; rewrite ?Ht.
  - by apply num_text_length.
  - by apply num_text_length.
  - unfold num_text. destruct (Z.eqb_spec v 0) as [->|]; [done|]. apply numeral_value; [done|]. by apply u32_base_pow.
  - unfold num_text. destruct (Z.eqb_spec v 0); [|apply numeral_digits; [done|apply Hv]].
    constructor; [split; [change (digit_value 48) with 0; lia|by destruct upper]|constructor].
  - intros Hhd. unfold num_text in *. destruct (Z.eqb_spec v 0) as [|Hne]; [done|]. exfalso.
    destruct (numeral_head_u32 base upper v Hb Hv Hne) as (c & l & E & Hc). rewrite E in Ht.
    destruct buf; [done|]. simpl in Ht, Hhd. congruence.
Qed.

Lemma uint_to_string_roundtrip_witness :
  exists buf n, uint_to_string 48879 16 false (replicate 32 7) 32 tt = Done (buf, Z.of_nat n) tt /\
    length buf = 32%nat /\ (0 < n <= 32)%nat /\
    of_digits 16 (take n buf) = 48879 /\
    Forall (fun c => 0 <= digit_value c < 16 /\ c = digit false (digit_value c)) (take n buf) /\
    (hd_error buf = Some c_0 -> 48879 = 0 /\ n = 1%nat).
Proof. apply uint_to_string_roundtrip; [unfold fits; lia|lia|reflexivity]. Defined.
