(* ===== verification/StdioSpec.v ===== *)
(** What a format means, and that the formatter renders it: the reference syntax of
    formats, the text they stand for, and the correctness of [format_string]. *)
From S2P Require Import Prelude Strings Console Stdio StdioNum.
From Stdlib Require Import ZArith Lia.
Open Scope Z_scope.

(** ** Formats and their meaning *)

Inductive flag := FMinus | FZero | FHash | FPlus | FSpace.
#[global] Instance flag_eq_dec : EqDecision flag.
Proof. solve_decision. Defined.

Definition flag_char (f : flag) : Z :=
  match f with FMinus => c_minus | FZero => c_0 | FHash => c_hash | FPlus => c_plus | FSpace => c_space end.

(** A piece of a format: a plain character, [%%], or a conversion with its flags,
    the digits of its width and its letter. *)
Inductive directive :=
| Lit (c : Z)
| Percent
| Conv (fs : list flag) (ws : list Z) (c : Z).

Definition encode (d : directive) : list Z :=
  match d with
  | Lit c => [c]
  | Percent => [c_percent; c_percent]
  | Conv fs ws c => c_percent :: (flag_char <$> fs) ++ ((fun w => c_0 + w) <$> ws) ++ [c]
  end.
Definition encode_all (ds : list directive) : list Z := ds ≫= encode.

Definition is_flag_char (c : Z) : bool :=
  (c =? c_minus) || (c =? c_0) || (c =? c_hash) || (c =? c_plus) || (c =? c_space).
Definition is_digit_char (c : Z) : bool := (c_0 <=? c) && (c <=? c_9).

(** The pieces that read back unambiguously: a width starts with a digit other
    than 0, which would be a flag. *)
Definition directive_ok (d : directive) : Prop :=
  match d with
  | Lit c => 0 < c < 256 /\ c <> c_percent
  | Percent => True
  | Conv fs ws c =>
      0 < c < 256 /\ is_digit_char c = false /\
      Forall (fun w => 0 <= w <= 9) ws /\ hd_error ws <> Some 0 /\
      (ws = [] -> is_flag_char c = false) /\ (fs = [] -> ws = [] -> c <> c_percent)
  end.

(** An argument: a word, or a pointer to a string with its bytes. *)
Inductive arg :=
| AWord (w : Z)
| AStr (p : Z) (l : list Z).
Definition word_of (a : arg) : Z := match a with AWord w => w | AStr p _ => p end.

Section Render.
Context (fs : list flag).

Definition has (f : flag) : bool := bool_decide (f ∈ fs).
Definition sign_prefix : list Z := if has FPlus then [c_plus] else if has FSpace then [c_space] else [].

(** The prefix and the text of a conversion; [None] for a pointer to no known
    string. *)
Definition conv_body (c : Z) (a : arg) : option (list Z * list Z) :=
  let w := word_of a in
  if c =? c_c then Some ([], [u8 w])
  else if c =? c_s then
    match a with
    | AStr _ l => Some ([], l)
    | AWord w => if w =? 0 then Some ([], bytes_of "(null)") else None
    end
  else if (c =? c_d) || (c =? c_i) then
    let v := to_int w in
    Some (if v <? 0 then ([c_minus], num_text 10 false (- v)) else (sign_prefix, num_text 10 false v))
  else if c =? c_u then Some ([], num_text 10 false w)
  else if c =? c_o then Some (if has FHash && negb (w =? 0) then [c_0] else [], num_text 8 false w)
  else if (c =? c_x) || (c =? c_X) then
    Some (if has FHash && negb (w =? 0) then [c_0; c] else [], num_text 16 (c =? c_X) w)
  else Some ([c_0; c_x], num_text 16 false w).

Definition justify (width : Z) (pre text : list Z) : list Z :=
  let padding := Z.to_nat (width - Z.of_nat (length (pre ++ text))) in
  if has FMinus then pre ++ text ++ replicate padding c_space
  else if has FZero then pre ++ replicate padding c_0 ++ text
  else replicate padding c_space ++ pre ++ text.
End Render.

Definition is_conversion (c : Z) : bool :=
  (c =? c_c) || (c =? c_s) || (c =? c_d) || (c =? c_i) || (c =? c_u) || (c =? c_o) ||
  (c =? c_x) || (c =? c_X) || (c =? c_p).

Definition width_of (ws : list Z) : Z := u32 (fold_left (fun w d => w * 10 + d) ws 0).

Definition render_one (d : directive) (args : list arg) : option (list Z * list arg) :=
  match d with
  | Lit c => Some ([c], args)
  | Percent => Some ([c_percent], args)
  | Conv fs ws c =>
      if is_conversion c then
        match args with
        | [] => None
        | a :: args' =>
            '(pre, text) ← conv_body fs c a;
            Some (justify fs (width_of ws) pre text, args')
        end
      else Some ([c_percent; c], args)
  end.

(** The text a format stands for. *)
Fixpoint render (ds : list directive) (args : list arg) : option (list Z) :=
  match ds with
  | [] => Some []
  | d :: ds' =>
      '(out, args') ← render_one d args;
      rest ← render ds' args';
      Some (out ++ rest)
  end.

(** ** What the sink does with a text *)

Section Emit.
Context {D : Type}.
Implicit Types (s : stdio D) (l : list Z) (c : Z).

(** The console after one byte. *)
Definition con_byte (con : console D) c : console D :=
  set_devices (fold_left (fun d drv => driver_write drv [c] d) (active_drivers con) (devices con)) con.

Definition emit c s : stdio D :=
  let k := io_sink s in
  let s1 :=
    if negb (buffer k =? NULL) then
      if negb (capacity k =? 0) && (u32 (sink_length k + 1) <? capacity k)
      then set_mem (mem_set (io_mem s) (buffer k + sink_length k) (u8 c)) s
      else s
    else set_console (con_byte (io_console s) (u8 (u8 c))) s in
  set_sink (mk_sink (buffer k) (capacity k) (u32 (sink_length k + 1)) (failed k)) s1.
Definition emits l s : stdio D := fold_left (fun s c => emit c s) l s.

Lemma sink_putc_run c s : sink_putc c s = Done tt (emit c s).
Proof.
  unfold sink_putc, emit. run. destruct (negb (buffer (io_sink s) =? NULL)).
  - destruct (negb (capacity (io_sink s) =? 0) && _); run; [|done].
    rewrite (run_bind_done _ _ _ tt (set_mem (mem_set (io_mem s) (buffer (io_sink s) + sink_length (io_sink s)) (u8 c)) s)) by done.
    run. done.
  - run. rewrite (run_bind_done _ _ _ (u8 c) (set_console (con_byte (io_console s) (u8 (u8 c))) s)).
    + pose proof (wrap_fits 8 c ltac:(lia)). unfold EOF. replace (u8 c =? -1) with false by word_lia. run. done.
    + unfold putchar. cbv zeta. unfold bind, on_console. by rewrite console_write_run.
Qed.

Lemma emits_app l1 l2 s : emits (l1 ++ l2) s = emits l2 (emits l1 s).
Proof. apply fold_left_app. Qed.
Lemma emits_snoc l c s : emits (l ++ [c]) s = emit c (emits l s).
Proof. by rewrite emits_app. Qed.

(** An address the sink does not write. *)
Definition outside s (x : Z) : Prop :=
  buffer (io_sink s) = NULL \/ x < buffer (io_sink s) \/ buffer (io_sink s) + capacity (io_sink s) <= x.

(** Room for [n] more characters without the length wrapping. *)
Definition room s (n : Z) : Prop := 0 <= sink_length (io_sink s) /\ sink_length (io_sink s) + n < 2 ^ 32 - 1.

Lemma emit_sink c s : room s 1 ->
  io_sink (emit c s) = mk_sink (buffer (io_sink s)) (capacity (io_sink s)) (sink_length (io_sink s) + 1) (failed (io_sink s)).
Proof. intros [H1 H2]. unfold emit. simpl. by rewrite wrap_small by word_lia. Qed.

Lemma emits_sink l : forall s, room s (Z.of_nat (length l)) ->
  io_sink (emits l s) =
  mk_sink (buffer (io_sink s)) (capacity (io_sink s)) (sink_length (io_sink s) + Z.of_nat (length l)) (failed (io_sink s)).
Proof.
  induction l as [|c l IH]; intros s [H1 H2].
  - simpl. rewrite Z.add_0_r. by destruct (io_sink s).
  - cbn [length] in *. change (emits (c :: l) s) with (emits l (emit c s)).
    assert (Hc : room s 1) by (split; lia). rewrite IH; rewrite ?emit_sink by done; simpl.
    + f_equal. lia.
    + split; rewrite ?emit_sink by done; simpl; lia.
Qed.

Lemma emits_room l s n : 0 <= n -> room s (Z.of_nat (length l) + n) -> room (emits l s) n.
Proof. intros Hn [H1 H2]. unfold room. rewrite emits_sink by (split; lia). simpl. lia. Qed.

Lemma emits_outside l s x : room s (Z.of_nat (length l)) -> outside (emits l s) x <-> outside s x.
Proof. intros H. unfold outside. by rewrite emits_sink. Qed.

Lemma emit_mem c s x : room s 1 -> outside s x -> io_mem (emit c s) x = io_mem s x.
Proof.
  intros [H1 H2] Hx. unfold emit. simpl. destruct (Z.eqb_spec (buffer (io_sink s)) NULL) as [E|E]; [done|]. cbn [negb].
  rewrite wrap_small by word_lia. destruct (negb _ && _) eqn:Ec; [|done]. simpl. unfold mem_set.
  z_bools. replace (x =? _) with false; [done|]. symmetry. apply Z.eqb_neq. unfold outside in Hx. lia.
Qed.

Lemma emits_mem l x : forall s, room s (Z.of_nat (length l)) -> outside s x -> io_mem (emits l s) x = io_mem s x.
Proof.
  induction l as [|c l IH]; intros s Hr Hx; [done|]. cbn [length] in Hr. change (emits (c :: l) s) with (emits l (emit c s)).
  destruct Hr as [H1 H2]. assert (Hc : room s 1) by (split; lia).
  rewrite IH, emit_mem; [done|done|done| |].
  - change (emit c s) with (emits [c] s). apply emits_room; [lia|]. split; simpl; lia.
  - change (emit c s) with (emits [c] s). by apply emits_outside.
Qed.

(** A loop that prints [l] byte by byte. *)
Lemma for_emits (body : Z -> M (stdio D) unit) l s :
  (forall i c, l !! i = Some c ->
     body (Z.of_nat i) (emits (take i l) s) = Done tt (emit c (emits (take i l) s))) ->
  for_each 0 (Z.of_nat (length l)) body s = Done tt (emits l s).
Proof.
  intros Hb. assert (H : wp (for_each 0 (Z.of_nat (length l)) body) (fun _ s' => s' = emits l s) s).
  { apply (wp_for_each _ _ _ (fun i s' => s' = emits (take (Z.to_nat i) l) s)); [lia|done| |].
    - intros i s' Hi ->. destruct (lookup_lt_is_Some_2 l (Z.to_nat i)) as [c Hc]; [lia|].
      pose proof (Hb _ _ Hc) as Hrun. rewrite Z2Nat.id in Hrun by lia.
      eapply Done_wp; [exact Hrun|]. cbv beta. rewrite <- emits_snoc.
      replace (Z.to_nat (i + 1)) with (S (Z.to_nat i)) by lia. by rewrite (take_S_r _ _ c).
    - intros s' ->. by rewrite Nat2Z.id, firstn_all. }
  apply wp_Done in H as ([] & s' & Hrun & ->). done.
Qed.

Lemma pad_run c n s : 0 <= n -> pad c n s = Done tt (emits (replicate (Z.to_nat n) c) s).
Proof.
  intros Hn. unfold pad. replace n with (Z.of_nat (length (replicate (Z.to_nat n) c))) at 1 by (rewrite length_replicate; lia).
  apply for_emits. intros i c' Hi. apply lookup_replicate in Hi as [-> _]. apply sink_putc_run.
Qed.

Lemma write_local_run buf l s : take (length l) buf = l -> sink_write (Local buf) (Z.of_nat (length l)) s = Done tt (emits l s).
Proof.
  intros Ht. unfold sink_write. apply for_emits. intros i c Hi. cbn [text_get].
  assert (Hb : buf !! i = Some c).
  { rewrite <- Ht in Hi. rewrite lookup_take_lt in Hi; [done|]. apply lookup_lt_Some in Hi. rewrite length_take in Hi. lia. }
  rewrite (run_bind_done _ _ _ c (emits (take i l) s)); [apply sink_putc_run|]. apply array_get_run; [lia|]. by rewrite Nat2Z.id.
Qed.

(** ** Reading the format and the strings *)

(** The bytes [l] at [p]. *)
Definition chars_at (m : memory) (p : Z) l : Prop := forall i c, l !! i = Some c -> read_u8 m (p + Z.of_nat i) = c.

Lemma chars_at_cons m p c l : chars_at m p (c :: l) <-> read_u8 m p = c /\ chars_at m (p + 1) l.
Proof.
  split.
  - intros H. split; [specialize (H O c eq_refl); by rewrite Z.add_0_r in H|].
    intros i c' Hi. rewrite <- (H (S i) c' Hi). f_equal. lia.
  - intros [H1 H2] [|i] c' Hi; [simplify_eq/=; by rewrite Z.add_0_r|]. simpl in Hi. rewrite <- (H2 i c' Hi). f_equal. lia.
Qed.

Lemma chars_at_app m p l1 l2 : chars_at m p (l1 ++ l2) <-> chars_at m p l1 /\ chars_at m (p + Z.of_nat (length l1)) l2.
Proof.
  revert p. induction l1 as [|c l1 IH]; intros p; cbn [app length].
  - rewrite Z.add_0_r. split; [intros H; split; [by intros i c' Hi|done]|by intros [_ H]].
  - rewrite !chars_at_cons, IH. replace (p + 1 + Z.of_nat (length l1)) with (p + Z.of_nat (S (length l1))) by lia. tauto.
Qed.

Lemma chars_at_agree m m' p l :
  (forall x, p <= x < p + Z.of_nat (length l) -> m' x = m x) -> chars_at m p l -> chars_at m' p l.
Proof.
  intros Hm H i c Hi. rewrite <- (H i c Hi). unfold read_u8. f_equal. apply Hm. apply lookup_lt_Some in Hi. lia.
Qed.

(** A region the sink does not write keeps its bytes. *)
Definition region_outside s (p n : Z) : Prop := forall x, p <= x < p + n -> outside s x.

Lemma chars_at_emits s out p l :
  room s (Z.of_nat (length out)) -> region_outside s p (Z.of_nat (length l)) ->
  chars_at (io_mem s) p l -> chars_at (io_mem (emits out s)) p l.
Proof. intros Hr Ho. apply chars_at_agree. intros x Hx. apply emits_mem; [done|]. by apply Ho. Qed.

Lemma write_at_run p l s :
  chars_at (io_mem s) p l -> region_outside s p (Z.of_nat (length l)) -> room s (Z.of_nat (length l)) ->
  sink_write (At p) (Z.of_nat (length l)) s = Done tt (emits l s).
Proof.
  intros Hl Ho Hr. unfold sink_write. apply for_emits. intros i c Hi. cbn [text_get].
  pose proof (lookup_lt_Some _ _ _ Hi).
  assert (Hc : chars_at (io_mem (emits (take i l) s)) p l).
  { apply chars_at_emits; [|done|done]. destruct Hr. split; [done|]. rewrite length_take. lia. }
  rewrite (run_bind_done _ _ _ c (emits (take i l) s)); [apply sink_putc_run|].
  unfold on_mem, byte_at, gets. rewrite (Hc i c Hi). by destruct (emits _ _).
Qed.

Lemma char_at_run s p c l : chars_at (io_mem s) p (c :: l) -> char_at p s = Done c s.
Proof. intros [H _]%chars_at_cons. unfold char_at, on_mem, byte_at, gets. rewrite H. by destruct s. Qed.

Lemma strlen_loop_run m p : forall fuel l n,
  chars_at m (p + n) (l ++ [0]) -> Forall (fun c => c <> 0) l -> (length l < fuel)%nat ->
  strlen_loop fuel p n m = Done (n + Z.of_nat (length l)) m.
Proof.
  induction fuel as [|fuel IH]; intros l n Hm Hl Hf; [lia|]. cbn [strlen_loop]. unfold byte_at. run.
  destruct l as [|c l]; cbn [app] in Hm; apply chars_at_cons in Hm as [Hc Hm].
  - rewrite Hc. cbn [Z.eqb length]. run. by rewrite Z.add_0_r.
  - inversion Hl; subst. replace (read_u8 m (p + n) =? 0) with false by lia. rewrite <- Z.add_assoc in Hm.
    rewrite (IH l) by (done || simpl in Hf; lia). f_equal. simpl. lia.
Qed.

(** ** The loops over the format *)

Definition apply_flag (fl : flags) (f : flag) : flags :=
  match f with
  | FMinus => mk_flags true (zero_pad fl) (alternate fl) (sign_char fl)
  | FZero => mk_flags (left_justify fl) true (alternate fl) (sign_char fl)
  | FHash => mk_flags (left_justify fl) (zero_pad fl) true (sign_char fl)
  | FPlus => mk_flags (left_justify fl) (zero_pad fl) (alternate fl) c_plus
  | FSpace => if sign_char fl =? 0 then mk_flags (left_justify fl) (zero_pad fl) (alternate fl) c_space else fl
  end.

Lemma flags_loop_run s : forall fuel fs p fl c rest,
  chars_at (io_mem s) p ((flag_char <$> fs) ++ c :: rest) -> is_flag_char c = false -> (length fs < fuel)%nat ->
  flags_loop fuel p fl s = Done (fold_left apply_flag fs fl, p + Z.of_nat (length fs)) s.
Proof.
  induction fuel as [|fuel IH]; intros fs p fl c rest Hm Hc Hf; [lia|]. cbn [flags_loop].
  destruct fs as [|f fs]; cbn [fmap list_fmap app] in Hm; rewrite (run_bind_done _ _ _ _ _ (char_at_run _ _ _ _ Hm)).
  - unfold is_flag_char in Hc. z_bools. replace (c =? 45) with false by lia. replace (c =? 48) with false by lia.
    replace (c =? 35) with false by lia. replace (c =? 43) with false by lia. replace (c =? 32) with false by lia.
    cbn [length fold_left]. by rewrite Z.add_0_r.
  - cbn [length] in *. replace (p + Z.of_nat (S (length fs))) with (p + 1 + Z.of_nat (length fs)) by lia.
    apply chars_at_cons in Hm as [_ Hm]. destruct f; cbn [flag_char Z.eqb Pos.eqb fold_left apply_flag]; (apply (IH fs _ _ c rest); [done|done|lia]).
Qed.

Lemma flags_meaning fs :
  fold_left apply_flag fs (mk_flags false false false 0) =
  mk_flags (has fs FMinus) (has fs FZero) (has fs FHash) (hd 0 (sign_prefix fs)).
Proof.
  assert (H : forall fs fl, sign_char fl = 0 \/ sign_char fl = c_plus \/ sign_char fl = c_space ->
    fold_left apply_flag fs fl =
    mk_flags (has fs FMinus || left_justify fl) (has fs FZero || zero_pad fl) (has fs FHash || alternate fl)
      (if has fs FPlus then c_plus else if negb (sign_char fl =? 0) then sign_char fl else hd 0 (sign_prefix fs))).
  { clear fs. induction fs as [|f fs IH]; intros fl Hs; cbn [fold_left].
    - destruct fl as [a b c d]. simpl in *. f_equal. by destruct (Z.eqb_spec d 0).
    - rewrite IH by (destruct f; simpl; repeat case_match; auto). unfold sign_prefix, has.
      rewrite !(bool_decide_ext (_ ∈ f :: fs) _ (elem_of_cons _ _ _)), !bool_decide_or.
      destruct fl as [a b c d]; simpl in *; destruct f; simpl;
        repeat match goal with |- context [bool_decide (?x ∈ fs)] => destruct (bool_decide (x ∈ fs)) end; simpl;
        destruct Hs as [->|[->| ->]]; rewrite ?orb_true_r; done. }
  rewrite H by (by left). simpl. rewrite !orb_false_r. f_equal. unfold sign_prefix. by destruct (has fs FPlus).
Qed.

Lemma width_loop_run s : forall fuel ws p x c rest,
  chars_at (io_mem s) p (((fun w => c_0 + w) <$> ws) ++ c :: rest) -> is_digit_char c = false ->
  Forall (fun w => 0 <= w <= 9) ws -> (length ws < fuel)%nat ->
  width_loop fuel p (u32 x) s = Done (u32 (fold_left (fun w d => w * 10 + d) ws x), p + Z.of_nat (length ws)) s.
Proof.
  induction fuel as [|fuel IH]; intros ws p x c rest Hm Hc Hws Hf; [lia|]. cbn [width_loop].
  destruct ws as [|w ws]; cbn [fmap list_fmap app] in Hm; rewrite (run_bind_done _ _ _ _ _ (char_at_run _ _ _ _ Hm)).
  - unfold is_digit_char in Hc. rewrite Hc. cbn [length fold_left]. by rewrite Z.add_0_r.
  - inversion Hws; subst. replace ((48 <=? 48 + w) && (48 + w <=? 57)) with true by lia.
    apply chars_at_cons in Hm as [_ Hm]. cbn [length fold_left] in *.
    replace (u32 (u32 (u32 x * 10) + (48 + w - 48))) with (u32 (x * 10 + w)).
    + replace (p + Z.of_nat (S (length ws))) with (p + 1 + Z.of_nat (length ws)) by lia.
      apply (IH ws _ _ c rest); [done|done|done|lia].
    + unfold wrap. rewrite Zplus_mod_idemp_l. replace (48 + w - 48) with w by lia.
      by rewrite <- (Zplus_mod_idemp_l (x mod 2 ^ 32 * 10)), Zmult_mod_idemp_l, Zplus_mod_idemp_l.
Qed.

(** ** Conversions *)

(** A string argument is at its address, and the sink does not write it. *)
Definition arg_ok s (a : arg) : Prop :=
  match a with
  | AWord w => fits 32 w
  | AStr p l => 0 < p < 2 ^ 32 /\ chars_at (io_mem s) p (l ++ [0]) /\ Forall (fun c => c <> 0) l /\
                region_outside s p (Z.of_nat (length l) + 1)
  end.

Definition arg_short (fuel : nat) (a : arg) : Prop :=
  match a with AWord _ => True | AStr _ l => (length l < fuel)%nat end.

Lemma arg_word s a : arg_ok s a -> fits 32 (word_of a).
Proof. destruct a; simpl; [done|]. intros (H & _). unfold fits. lia. Qed.

Lemma arg_ok_emits s out a : room s (Z.of_nat (length out)) -> arg_ok s a -> arg_ok (emits out s) a.
Proof.
  intros Hr. destruct a as [w|p l]; simpl; [done|]. intros (Hp & Hl & Hz & Ho). split_and!; [lia|lia| |done|].
  - apply chars_at_emits; [done|rewrite length_app; simpl; by rewrite Nat2Z.inj_add|done].
  - intros x Hx. apply emits_outside; [done|]. by apply Ho.
Qed.

(** The sink prints a piece of text of a conversion. *)
Definition text_is (t : text) (l : list Z) s : Prop :=
  match t with
  | Local buf => take (length l) buf = l
  | At p => chars_at (io_mem s) p l /\ region_outside s p (Z.of_nat (length l))
  end.

Lemma sink_write_run t l s : text_is t l s -> room s (Z.of_nat (length l)) ->
  sink_write t (Z.of_nat (length l)) s = Done tt (emits l s).
Proof. destruct t; simpl; [intros H _; by apply write_local_run|intros [H1 H2] H; by apply write_at_run]. Qed.

Lemma text_is_emits t l s out : room s (Z.of_nat (length out)) -> text_is t l s -> text_is t l (emits out s).
Proof.
  intros Hr. destruct t; simpl; [done|]. intros [H1 H2]. split; [by apply chars_at_emits|].
  intros x Hx. apply emits_outside; [done|]. by apply H2.
Qed.

Lemma number_run stack v base upper s :
  fits 32 v -> 2 <= base <= 16 -> length stack = 32%nat ->
  exists buf, number stack v base upper s = Done (buf, Z.of_nat (length (num_text base upper v))) s /\
              take (length (num_text base upper v)) buf = num_text base upper v.
Proof. intros Hv Hb Hst. destruct (uint_to_string_run base upper Hb v stack s Hv Hst) as (buf & H1 & _ & H2). by exists buf. Qed.

Lemma to_int_range w : fits 32 w -> - 2 ^ 31 <= to_int w < 2 ^ 31.
Proof. intros H. unfold to_int, fits in *. destruct (Z.ltb_spec w (2 ^ 31)); lia. Qed.

Lemma num_text_first base upper v : 2 <= base <= 16 -> fits 32 v ->
  exists c l, num_text base upper v = c :: l /\ (c =? c_0) = (v =? 0).
Proof.
  intros Hb Hv. unfold num_text. destruct (Z.eqb_spec v 0) as [|Hne]; [by eexists _, _|].
  destruct (numeral_head_u32 base upper v Hb Hv Hne) as (c & l & -> & Hc). eexists _, _. split; [done|]. by apply Z.eqb_neq.
Qed.

(** The [switch] computes the prefix and the text the format asks for. *)
Lemma convert_run fuel stack fs c a args pre body s :
  length stack = 32%nat -> is_conversion c = true -> arg_ok s a -> arg_short fuel a ->
  conv_body fs c a = Some (pre, body) ->
  exists t, convert fuel stack (mk_flags (has fs FMinus) (has fs FZero) (has fs FHash) (hd 0 (sign_prefix fs)))
              c (word_of a :: args) s = Done (Some (t, Z.of_nat (length body), pre, args)) s /\ text_is t body s.
Proof.
  intros Hst Hc Ha Hf Hb. pose proof (arg_word s a Ha) as Hw. unfold convert, conv_body in *. cbn [va_arg].
  cbn [alternate sign_char]. destruct (c =? 99) eqn:E1.
  { run. cbn [fst snd]. rewrite (run_bind_done _ _ _ _ _ (array_set_run stack 0 (word_of a) s ltac:(lia))). injection Hb as <- <-.
    eexists. split; [done|]. destruct stack; done. }
  destruct (c =? 115) eqn:E2.
  { run. cbn [fst snd]. unfold NULL. destruct a as [w|p l]; cbn [word_of].
    - destruct (w =? 0); [|done]. injection Hb as <- <-. by eexists.
    - destruct Ha as (Hp & Hl & Hz & Ho). replace (p =? 0) with false by lia. injection Hb as <- <-. cbn in Hf.
      rewrite (run_bind_done _ _ _ (Z.of_nat (length l)) s); [eexists; split; [done|]|].
      + split; [by apply chars_at_app in Hl as [? _]|]. intros x Hx. apply Ho. lia.
      + unfold on_mem, strlen. rewrite (strlen_loop_run _ _ _ l 0) by (rewrite ?Z.add_0_r; done). by destruct s. }
  destruct ((c =? 100) || (c =? 105)) eqn:E3.
  { run. cbn [fst snd]. pose proof (to_int_range _ Hw) as Hr. set (v := to_int (word_of a)) in *. destruct (Z.ltb_spec v 0).
    - injection Hb as <- <-. replace (u32 (u32 (- (v + 1)) + 1)) with (- v) by (rewrite (wrap_small 32 (- (v + 1))), wrap_small by word_lia; lia).
      destruct (number_run stack (- v) 10 false s) as (buf & Hn & Ht); [word_lia|lia|done|].
      rewrite (run_bind_done _ _ _ _ _ Hn). by eexists.
    - injection Hb as <- <-. rewrite (wrap_small 32 v) by word_lia.
      destruct (number_run stack v 10 false s) as (buf & Hn & Ht); [word_lia|lia|done|].
      rewrite (run_bind_done _ _ _ _ _ Hn). exists (Local buf). split; [|done].
      unfold sign_prefix. by destruct (has fs FPlus), (has fs FSpace). }
  destruct (c =? 117) eqn:E4.
  { run. cbn [fst snd]. injection Hb as <- <-.
    destruct (number_run stack (word_of a) 10 false s) as (buf & Hn & Ht); [done|lia|done|].
    rewrite (run_bind_done _ _ _ _ _ Hn). by eexists. }
  destruct (c =? 111) eqn:E5.
  { run. cbn [fst snd]. injection Hb as <- <-.
    destruct (number_run stack (word_of a) 8 false s) as (buf & Hn & Ht); [done|lia|done|].
    rewrite (run_bind_done _ _ _ _ _ Hn). cbn [fst snd].
    destruct (num_text_first 8 false (word_of a)) as (d & l & E & Hd); [lia|done|].
    rewrite (run_bind_done _ _ _ d s); [rewrite Hd; by eexists|]. apply array_get_run; [lia|].
    rewrite E in Ht. destruct buf; [done|]. simpl in *. congruence. }
  destruct ((c =? 120) || (c =? 88)) eqn:E6.
  { run. cbn [fst snd]. injection Hb as <- <-.
    destruct (number_run stack (word_of a) 16 (c =? 88) s) as (buf & Hn & Ht); [done|lia|done|].
    rewrite (run_bind_done _ _ _ _ _ Hn). by eexists. }
  assert ((c =? 112) = true) as ->.
  { unfold is_conversion in Hc. apply orb_false_iff in E3 as [E3 E3'], E6 as [E6 E6'].
    by rewrite E1, E2, E3, E3', E4, E5, E6, E6' in Hc. }
  run. cbn [fst snd]. injection Hb as <- <-.
  destruct (number_run stack (word_of a) 16 false s) as (buf & Hn & Ht); [done|lia|done|].
  rewrite (run_bind_done _ _ _ _ _ Hn). by eexists.
Qed.

(** ** A field *)

Lemma emits_bind (m : M (stdio D) unit) {B} (k : unit -> M (stdio D) B) l s :
  m s = Done tt (emits l s) -> bind m k s = k tt (emits l s).
Proof. apply run_bind_done. Qed.

Lemma emit_field_run fs width t body pre s :
  fits 32 width -> text_is t body s -> room s (Z.of_nat (length (justify fs width pre body))) ->
  emit_field (mk_flags (has fs FMinus) (has fs FZero) (has fs FHash) (hd 0 (sign_prefix fs)))
    width t (Z.of_nat (length body)) pre s = Done tt (emits (justify fs width pre body) s).
Proof.
  intros Hw Ht Hr. unfold emit_field, justify in *. cbn [left_justify zero_pad].
  set (n := Z.to_nat (width - Z.of_nat (length (pre ++ body)))) in *.
  assert (Hlen : Z.of_nat (length pre) + Z.of_nat (length body) < 2 ^ 32 - 1).
  { destruct Hr as [Hr1 Hr2]. destruct (has fs FMinus), (has fs FZero); rewrite ?length_app in Hr2; lia. }
  rewrite (wrap_small 32) by (unfold fits; lia).
  replace (if Z.of_nat (length pre) + Z.of_nat (length body) <? width
           then width - (Z.of_nat (length pre) + Z.of_nat (length body)) else 0) with (Z.of_nat n)
    by (unfold n; rewrite length_app; destruct (Z.ltb_spec (Z.of_nat (length pre) + Z.of_nat (length body)) width); lia).
  assert (Hpad : forall c s, pad c (Z.of_nat n) s = Done tt (emits (replicate n c) s))
    by (intros c s'; rewrite pad_run by lia; by rewrite Nat2Z.id).
  assert (Hpre : forall s, (if negb (Z.of_nat (length pre) =? 0) then sink_write (Local pre) (Z.of_nat (length pre)) else ret tt) s =
                           Done tt (emits pre s)).
  { intros s'. destruct pre; [done|]. replace (negb _) with true by (simpl; lia). apply write_local_run. apply firstn_all. }
  assert (Hbody : forall l, room s (Z.of_nat (length l) + Z.of_nat (length body)) ->
                  sink_write t (Z.of_nat (length body)) (emits l s) = Done tt (emits body (emits l s))).
  { intros l Hl. apply sink_write_run; [apply text_is_emits; [destruct Hl; split; lia|done]|apply emits_room; [lia|done]]. }
  destruct (has fs FMinus); cbn [negb andb].
  - rewrite ?andb_false_r. run. rewrite (emits_bind _ _ _ _ (Hpre s)). run.
    rewrite (emits_bind _ _ _ _ (Hbody pre ltac:(destruct Hr; rewrite ?length_app in *; split; lia))).
    rewrite Hpad. by rewrite !emits_app.
  - rewrite ?andb_true_r. destruct (has fs FZero); cbn [Z.eqb Pos.eqb].
    + run. rewrite (emits_bind _ _ _ _ (Hpre s)), (emits_bind _ _ _ _ (Hpad _ _)). rewrite <- emits_app.
      rewrite (emits_bind _ _ _ _ (Hbody (pre ++ replicate n c_0) ltac:(destruct Hr; rewrite ?length_app in *; split; lia))).
      run. by rewrite !emits_app.
    + rewrite (emits_bind _ _ _ _ (Hpad _ _)), (emits_bind _ _ _ _ (Hpre _)). run. rewrite <- emits_app.
      rewrite (emits_bind _ _ _ _ (Hbody (replicate n c_space ++ pre) ltac:(destruct Hr; rewrite ?length_app in *; split; lia))).
      run. by rewrite !emits_app.
Qed.

(** ** The whole format *)

Lemma width_of_fits ws : fits 32 (width_of ws).
Proof. by apply wrap_fits. Qed.

Lemma conv_first c (fs : list flag) (ws : list Z) rest :
  directive_ok (Conv fs ws c) ->
  exists c' rest', ((fun w => c_0 + w) <$> ws) ++ c :: rest = c' :: rest' /\ is_flag_char c' = false.
Proof.
  intros (_ & _ & Hws & Hhd & Hc & _). destruct ws as [|w ws]; [eexists _, _; split; [done|auto]|].
  eexists _, _. split; [done|]. inversion Hws; subst. simpl in Hhd.
  assert (w <> 0) by congruence. unfold is_flag_char. lia.
Qed.

Lemma format_conversion_run fuel stack fs ws c rest p args args' out s :
  length stack = 32%nat -> directive_ok (Conv fs ws c) ->
  chars_at (io_mem s) p ((flag_char <$> fs) ++ ((fun w => c_0 + w) <$> ws) ++ c :: rest) ->
  (length fs + length ws < fuel)%nat -> Forall (arg_ok s) args -> Forall (arg_short fuel) args ->
  render_one (Conv fs ws c) args = Some (out, args') -> room s (Z.of_nat (length out)) -> failed (io_sink s) = false ->
  format_conversion fuel stack p (word_of <$> args) s =
  Done (Some (p + Z.of_nat (length fs) + Z.of_nat (length ws) + 1, word_of <$> args')) (emits out s).
Proof.
  intros Hst Hok Hm Hf Ha Hs Hren Hr Hfail. unfold format_conversion.
  destruct (conv_first c fs ws rest Hok) as (c' & rest' & E & Hc').
  pose proof Hm as Hm1. rewrite E in Hm1.
  rewrite (run_bind_done _ _ _ _ _ (flags_loop_run s fuel fs p _ c' rest' Hm1 Hc' ltac:(lia))).
  rewrite flags_meaning. cbv beta iota.
  apply chars_at_app in Hm as [_ Hm]. rewrite length_fmap in Hm. destruct Hok as (Hcr & Hdig & Hws & _).
  change 0 with (u32 0) at 1.
  rewrite (run_bind_done _ _ _ _ _ (width_loop_run s fuel ws _ 0 c rest Hm Hdig Hws ltac:(lia))). cbv beta iota.
  apply chars_at_app in Hm as [_ Hm]. rewrite length_fmap in Hm.
  rewrite (run_bind_done _ _ _ _ _ (char_at_run _ _ _ _ Hm)).
  cbn [render_one] in Hren. destruct (is_conversion c) eqn:Ec.
  - destruct args as [|a args]; [done|]. destruct (conv_body fs c a) as [[pre body]|] eqn:Eb; [|done]. simpl in Hren.
    injection Hren as <- <-. inversion Ha as [|?? Ha1 Ha2]; inversion Hs as [|?? Hs1 Hs2]; subst.
    destruct (convert_run fuel stack fs c a (word_of <$> args) pre body s Hst Ec Ha1 Hs1 Eb) as (t & Hcv & Ht).
    cbn [fmap list_fmap]. rewrite (run_bind_done _ _ _ _ _ Hcv). cbv beta iota.
    rewrite (emits_bind _ _ _ _ (emit_field_run fs (width_of ws) t body pre s (width_of_fits ws) Ht Hr)). run.
    rewrite emits_sink by done. simpl. by rewrite Hfail.
  - injection Hren as <- <-.
    assert (Hcv : forall fl ps, convert fuel stack fl c ps s = Done None s).
    { intros fl ps. unfold is_conversion in Ec. unfold convert.
      repeat match goal with H : (_ || _) = false |- _ => apply orb_false_iff in H as [H ?] end.
      repeat match goal with H : (c =? _) = false |- _ => rewrite H; clear H end. done. }
    rewrite (run_bind_done _ _ _ _ _ (Hcv _ _)). cbv beta iota.
    rewrite (run_bind_done _ _ _ _ _ (sink_putc_run _ _)), (run_bind_done _ _ _ _ _ (sink_putc_run _ _)). done.
Qed.

Lemma encode_length d : (1 <= length (encode d))%nat.
Proof. destruct d; simpl; lia. Qed.

Lemma room_le s n m : n <= m -> room s m -> room s n.
Proof. unfold room. lia. Qed.

Lemma format_loop_run stack : length stack = 32%nat -> forall ds fuel p args out s,
  Forall directive_ok ds -> chars_at (io_mem s) p (encode_all ds ++ [0]) ->
  region_outside s p (Z.of_nat (length (encode_all ds)) + 1) ->
  Forall (arg_ok s) args -> (length (encode_all ds) < fuel)%nat ->
  Forall (arg_short (fuel - length (encode_all ds))) args ->
  render ds args = Some out -> room s (Z.of_nat (length out)) -> failed (io_sink s) = false ->
  format_loop fuel stack p (word_of <$> args) s = Done true (emits out s).
Proof.
  intros Hst. induction ds as [|d ds IH]; intros fuel p args out s Hok Hm Hreg Ha Hf Hs Hren Hr Hfail.
  { destruct fuel as [|fuel]; [simpl in Hf; lia|]. cbn [format_loop]. simpl in Hren. injection Hren as <-.
    rewrite (run_bind_done _ _ _ _ _ (char_at_run _ _ _ _ Hm)). done. }
  inversion Hok as [|?? Hd Hds]; subst. cbn [render] in Hren.
  destruct (render_one d args) as [[o1 args']|] eqn:E1; [|done]. simpl in Hren.
  destruct (render ds args') as [o2|] eqn:E2; [|done]. simpl in Hren. injection Hren as <-.
  change (encode_all (d :: ds)) with (encode d ++ encode_all ds) in *. rewrite <- app_assoc in Hm.
  rewrite length_app in Hf, Hs, Hreg. pose proof (encode_length d) as Hd1. rewrite length_app in Hr.
  destruct fuel as [|fuel]; [lia|].
  assert (Hr1 : room s (Z.of_nat (length o1))) by (eapply room_le; [|exact Hr]; lia).
  assert (Hargs : exists k, args' = drop k args).
  { destruct d as [c| |fs ws c]; simpl in E1; [exists O; by simplify_eq..|]. destruct (is_conversion c); [|exists O; by simplify_eq].
    destruct args as [|a args]; [done|]. destruct (conv_body fs c a) as [[pre body]|]; [|done]. simpl in E1. exists 1%nat. by simplify_eq. }
  assert (Hnext : format_loop fuel stack (p + Z.of_nat (length (encode d))) (word_of <$> args') (emits o1 s) =
                  Done true (emits (o1 ++ o2) s)).
  { rewrite emits_app. apply IH; try done.
    - apply chars_at_emits; [done| |by apply chars_at_app in Hm as [_ ?]].
      intros x Hx. apply Hreg. rewrite length_app in Hx. simpl in Hx. lia.
    - intros x Hx. apply emits_outside; [done|]. apply Hreg. lia.
    - destruct Hargs as [k ->]. apply Forall_drop. eapply Forall_impl; [|exact Ha]. intros a. by apply arg_ok_emits.
    - lia.
    - destruct Hargs as [k ->]. apply Forall_drop. eapply Forall_impl; [|exact Hs]. intros [w|q l]; simpl; [done|]. lia.
    - apply emits_room; [lia|]. eapply room_le; [|exact Hr]. lia.
    - by rewrite emits_sink. }
  cbn [format_loop]. destruct d as [c| |fs ws c]; cbn [encode app length] in *.
  - rewrite (run_bind_done _ _ _ _ _ (char_at_run _ _ _ _ Hm)). destruct Hd as [Hc1 Hc2].
    replace (c =? 0) with false by lia. replace (negb (c =? 37)) with true by lia. simpl in E1. simplify_eq/=.
    rewrite (run_bind_done _ _ _ _ _ (sink_putc_run _ _)). exact Hnext.
  - rewrite (run_bind_done _ _ _ _ _ (char_at_run _ _ _ _ Hm)). cbn [Z.eqb Pos.eqb negb].
    apply chars_at_cons in Hm as [_ Hm]. rewrite (run_bind_done _ _ _ _ _ (char_at_run _ _ _ _ Hm)). cbn [Z.eqb Pos.eqb].
    simpl in E1. simplify_eq/=. rewrite (run_bind_done _ _ _ _ _ (sink_putc_run _ _)). exact Hnext.
  - rewrite (run_bind_done _ _ _ _ _ (char_at_run _ _ _ _ Hm)). cbn [Z.eqb Pos.eqb negb].
    apply chars_at_cons in Hm as [_ Hm].
    assert (Hne : exists c1 r1, ((flag_char <$> fs) ++ ((fun w => c_0 + w) <$> ws) ++ [c]) ++ encode_all ds ++ [0] = c1 :: r1 /\ c1 <> c_percent).
    { destruct Hd as (_ & _ & Hws & _ & _ & Hp). destruct fs as [|f fs]; [|eexists _, _; split; [done|by destruct f]].
      destruct ws as [|w ws]; [eexists _, _; split; [done|by apply Hp]|]. inversion Hws; subst. eexists _, _. split; [done|]. cbn. lia. }
    destruct Hne as (c1 & r1 & E & Hc1). pose proof Hm as Hm1. rewrite E in Hm1.
    rewrite (run_bind_done _ _ _ _ _ (char_at_run _ _ _ _ Hm1)). replace (c1 =? 37) with false by lia.
    rewrite <- !app_assoc in Hm. rewrite !length_app, !length_fmap in *. cbn [length] in *.
    rewrite (run_bind_done _ _ _ _ _ (format_conversion_run (S fuel) stack fs ws c (encode_all ds ++ [0]) _ args args' o1 s
      Hst Hd Hm ltac:(lia) Ha ltac:(eapply Forall_impl; [|exact Hs]; intros [w|q l]; simpl; [done|]; lia) E1 Hr1 Hfail)).
    cbv beta iota. rewrite <- Hnext. f_equal. lia.
Qed.

(** What [format_string] does after the loop: the terminator and the result. *)
Definition result_of (out : list Z) : Z := if INT_MAX <? Z.of_nat (length out) then -1 else Z.of_nat (length out).
End Emit.
