(* ===== verification/StdioProps.v ===== *)
(** The formatter's contract: [snprintf] and [printf] render the format, the
    first into a bounded buffer and the second to the console. *)
From S2P Require Import Prelude Strings Console Stdio StdioNum StdioSpec.
From Stdlib Require Import ZArith Lia.
Open Scope Z_scope.

Section Props.
Context {D : Type}.
Implicit Types (s : stdio D) (l : list Z).

(** The bytes of a bounded buffer after [out] was printed to it from position
    [n0]: only the part before the last byte of the buffer is stored. *)
Definition printed (m : memory) (buf size n0 : Z) (out : list Z) (x : Z) : Z :=
  if (buf + n0 <=? x) && (x <? buf + Z.min (n0 + Z.of_nat (length out)) (size - 1))
  then u8 (nth (Z.to_nat (x - buf - n0)) out 0) else m x.

Lemma emits_buffer l x : forall s,
  buffer (io_sink s) <> NULL -> 0 <= capacity (io_sink s) -> room s (Z.of_nat (length l)) ->
  io_mem (emits l s) x = printed (io_mem s) (buffer (io_sink s)) (capacity (io_sink s)) (sink_length (io_sink s)) l x /\
  io_console (emits l s) = io_console s.
Proof.
  induction l as [|c l IH]; intros s Hb Hcap Hr.
  { split; [|done]. unfold printed. cbn [length]. rewrite Z.add_0_r. by replace (_ && _) with false by lia. }
  cbn [length] in Hr. change (emits (c :: l) s) with (emits l (emit c s)).
  assert (Hr1 : room s 1) by (eapply room_le; [|exact Hr]; lia).
  destruct (IH (emit c s)) as [Hm Hc]; rewrite ?emit_sink by done; try done.
  { change (emit c s) with (emits [c] s). apply emits_room; [lia|]. eapply room_le; [|exact Hr]. simpl. lia. }
  rewrite Hm, Hc, emit_sink by done. cbn [buffer capacity sink_length]. destruct Hr as [Hr0 Hr'].
  unfold emit. replace (buffer (io_sink s) =? NULL) with false by lia. cbn [negb].
  rewrite wrap_small by word_lia. unfold printed. cbn [length].
  replace (sink_length (io_sink s) + 1 + Z.of_nat (length l)) with (sink_length (io_sink s) + Z.of_nat (S (length l))) by lia.
  set (b := buffer (io_sink s)) in *. set (k := capacity (io_sink s)) in *. set (n0 := sink_length (io_sink s)) in *.
  split; [|by destruct (_ && _)].
  destruct ((b + (n0 + 1) <=? x) && (x <? b + Z.min (n0 + Z.of_nat (S (length l))) (k - 1))) eqn:E.
  - replace (_ && _) with true by lia.
    
    replace (Z.to_nat (x - b - n0)) with (S (Z.to_nat (x - b - (n0 + 1)))) by lia. done.
  - destruct (negb (k =? 0) && (n0 + 1 <? k)) eqn:Ek; cbn [io_mem set_mem set_sink]; unfold mem_set.
    + destruct (Z.eqb_spec x (b + n0)) as [->|Hne].
      * z_bools. replace (b + n0 <=? b + n0) with true by lia. replace (b + n0 <? _) with true
          by (symmetry; apply Z.ltb_lt; clear E; destruct (Z.min_spec (n0 + Z.of_nat (S (length l))) (k - 1)); lia). cbn [andb]. by replace (Z.to_nat (b + n0 - b - n0)) with O by lia.
      * by replace (_ && _) with false by lia.
    + by replace (_ && _) with false by lia.
Qed.

Lemma emits_console l : forall s, buffer (io_sink s) = NULL ->
  io_mem (emits l s) = io_mem s /\ io_console (emits l s) = fold_left (fun con c => con_byte con (u8 c)) l (io_console s).
Proof.
  induction l as [|c l IH]; intros s Hb; [done|]. change (emits (c :: l) s) with (emits l (emit c s)). cbn [fold_left].
  assert (Hk : buffer (io_sink (emit c s)) = NULL) by (unfold emit; simpl; by repeat case_match).
  destruct (IH _ Hk) as [-> ->]. unfold emit. rewrite Hb. simpl. split; [done|]. do 2 f_equal.
  unfold wrap. by rewrite Z.mod_mod.
Qed.

(** [m'] is [m] with the text in the buffer, cut to fit, and a terminator. *)
Definition text_in_buffer (m : memory) (buf size : Z) (out : list Z) (m' : memory) : Prop :=
  forall x, m' x =
    let n := Z.min (Z.of_nat (length out)) (size - 1) in
    if (buf <=? x) && (x <? buf + n) then u8 (nth (Z.to_nat (x - buf)) out 0)
    else if negb (size =? 0) && (x =? buf + n) then 0 else m x.

(** What the caller of the formatter must provide: a terminated format, and for
    every string argument a terminated string, none of them in the buffer; and a
    text whose length a [size_t] can count. *)
Record format_call (fuel : nat) (s : stdio D) (ds : list directive) (fmt : Z) (args : list arg) (out : list Z) : Prop := {
  call_ok : Forall directive_ok ds;
  call_format : chars_at (io_mem s) fmt (encode_all ds ++ [0]);
  call_outside : region_outside s fmt (Z.of_nat (length (encode_all ds)) + 1);
  call_args : Forall (arg_ok s) args;
  call_fuel : (length (encode_all ds) < fuel)%nat;
  call_short : Forall (arg_short (fuel - length (encode_all ds))) args;
  call_render : render ds args = Some out;
  call_length : Z.of_nat (length out) < 2 ^ 32 - 1
}.

(** The state in which the formatter starts. *)
Definition with_sink (s : stdio D) (buf size : Z) : stdio D := set_sink (mk_sink buf size 0 false) s.

Lemma format_string_run fuel stack s buf size ds fmt args out :
  length stack = 32%nat -> format_call fuel (with_sink s buf size) ds fmt args out ->
  format_string fuel stack fmt (word_of <$> args) (with_sink s buf size) =
  Done (result_of out)
    (if negb (buf =? NULL) && negb (size =? 0)
     then set_mem (mem_set (io_mem (emits out (with_sink s buf size)))
                     (buf + Z.min (Z.of_nat (length out)) (size - 1)) 0) (emits out (with_sink s buf size))
     else emits out (with_sink s buf size)).
Proof.
  intros Hst []. assert (Hroom : room (with_sink s buf size) (Z.of_nat (length out))) by (split; simpl; lia).
  unfold format_string.
  rewrite (run_bind_done _ _ _ _ _ (format_loop_run stack Hst ds fuel fmt args out _ call_ok0 call_format0 call_outside0
    call_args0 call_fuel0 call_short0 call_render0 Hroom eq_refl)). cbn [negb]. run.
  rewrite (emits_sink _ _ Hroom). cbn [buffer capacity sink_length failed with_sink set_sink io_sink]. rewrite !Z.add_0_l.
  destruct (negb (buf =? NULL) && negb (size =? 0)) eqn:E; run; [|done].
  replace (if _ <? size then _ else _) with (Z.min (Z.of_nat (length out)) (size - 1))
    by (destruct (Z.ltb_spec (Z.of_nat (length out)) size); lia).
  done.
Qed.

Lemma vsnprintf_run fuel stack s buf size ds fmt args out :
  length stack = 32%nat -> buf <> NULL -> 0 <= size -> format_call fuel (with_sink s buf size) ds fmt args out ->
  exists s', vsnprintf fuel stack buf size fmt (word_of <$> args) s = Done (result_of out) s' /\
    text_in_buffer (io_mem s) buf size out (io_mem s') /\ io_console s' = io_console s.
Proof.
  intros Hst Hb Hsz Hcall. unfold vsnprintf. run. eexists. split; [by eapply format_string_run|].
  replace (negb (buf =? NULL)) with true by lia. cbn [andb].
  assert (Hroom : room (with_sink s buf size) (Z.of_nat (length out))) by (destruct Hcall; split; simpl; lia).
  split.
  - intros x. destruct (emits_buffer out x (with_sink s buf size)) as [Hx _]; [done|done|done|].
    cbn [with_sink set_sink io_sink buffer capacity sink_length io_mem] in Hx. cbv zeta.
    destruct (Z.eqb_spec size 0) as [->|Hne]; cbn [negb andb].
    + rewrite Hx. unfold printed. rewrite Z.add_0_r, Z.add_0_l, Z.sub_0_r. by repeat case_match.
    + cbn [set_mem io_mem]. unfold mem_set. destruct (Z.eqb_spec x (buf + Z.min (Z.of_nat (length out)) (size - 1))) as [->|Hx'].
      * by replace (_ && _) with false by lia.
      * rewrite Hx. unfold printed. rewrite Z.add_0_r, Z.add_0_l, Z.sub_0_r. done.
  - destruct (emits_buffer out 0 (with_sink s buf size)) as [_ Hc]; [done|done|done|]. by destruct (negb (size =? 0)).
Qed.
End Props.

(** ** Every format is covered *)

Lemma split_flags l : exists fs r, l = (flag_char <$> fs) ++ r /\ (forall c r', r = c :: r' -> is_flag_char c = false).
Proof.
  induction l as [|c l (fs & r & -> & Hr)]; [by exists [], []|].
  destruct (is_flag_char c) eqn:E; [|exists [], (c :: (flag_char <$> fs) ++ r); split; [done|by intros ? ? [= <- <-]]].
  assert (exists f, flag_char f = c) as [f <-]; [|by exists (f :: fs), r].
  unfold is_flag_char in E. destruct (Z.eqb_spec c 45); [by exists FMinus|]. destruct (Z.eqb_spec c 48); [by exists FZero|].
  destruct (Z.eqb_spec c 35); [by exists FHash|]. destruct (Z.eqb_spec c 43); [by exists FPlus|].
  destruct (Z.eqb_spec c 32); [by exists FSpace|]. done.
Qed.

Lemma split_digits l : exists ws r, l = ((fun w => c_0 + w) <$> ws) ++ r /\ Forall (fun w => 0 <= w <= 9) ws /\
  (forall c r', r = c :: r' -> is_digit_char c = false).
Proof.
  induction l as [|c l (ws & r & -> & Hws & Hr)]; [by exists [], []|].
  destruct (is_digit_char c) eqn:E.
  - exists ((c - 48) :: ws), r. unfold is_digit_char in E. split_and!; [cbn; f_equal; lia|constructor; [lia|done]|done].
  - eexists [], _. split_and!; [done|done|by intros ? ? [= <- <-]].
Qed.

(** A percent sign whose conversion letter is missing. *)
Definition dangling (l : list Z) : Prop :=
  exists fs ws, l = c_percent :: (flag_char <$> fs) ++ ((fun w => c_0 + w) <$> ws) /\ Forall (fun w => 0 <= w <= 9) ws.

(** Every string of bytes is the encoding of some pieces, except for a conversion
    cut off at its end. *)
Lemma every_format l : Forall (fun c => 0 < c < 256) l ->
  exists ds r, l = encode_all ds ++ r /\ Forall directive_ok ds /\ (r = [] \/ dangling r).
Proof.
  remember (length l) as n eqn:En. revert l En. induction (lt_wf n) as [n _ IH]; intros l -> Hl.
  assert (Hone : forall d r, l = encode d ++ r -> directive_ok d ->
    exists ds r', l = encode_all ds ++ r' /\ Forall directive_ok ds /\ (r' = [] \/ dangling r')).
  { intros d r E Hd. pose proof (encode_length d) as H1. pose proof Hl as Hl'. rewrite E in Hl'. apply Forall_app in Hl' as [_ Hl'].
    destruct (IH (length r)) with (l := r) as (ds & r' & -> & Hds & Hr'); [rewrite E, length_app; lia|done|done|].
    exists (d :: ds), r'. split_and!; [rewrite E; cbn; by rewrite <- app_assoc|by constructor|done]. }
  destruct l as [|c l]; [by exists [], []; eauto|]. inversion Hl as [|?? Hc Hl1]; subst.
  destruct (Z.eq_dec c c_percent) as [->|Hp]; [|by apply (Hone (Lit c) l)].
  destruct (decide (hd_error l = Some c_percent)) as [E|E]; [destruct l as [|c l]; [done|]; simplify_eq/=; by apply (Hone Percent l)|].
  destruct (split_flags l) as (fs & r1 & -> & Hfl). destruct (split_digits r1) as (ws & r2 & -> & Hws & Hdig).
  destruct r2 as [|c r2].
  { exists [], (c_percent :: (flag_char <$> fs) ++ ((fun w => c_0 + w) <$> ws) ++ []). split_and!; [done|done|].
    right. exists fs, ws. by rewrite app_nil_r. }
  apply (Hone (Conv fs ws c) r2); [cbn; by rewrite <- !app_assoc|].
  rewrite !Forall_app in Hl1. destruct Hl1 as (_ & _ & Hl1). inversion Hl1; subst. split_and!; try done; [lia|lia|by eapply Hdig| | |].
  - destruct ws as [|w ws]; [done|]. specialize (Hfl (48 + w) _ eq_refl). intros [= ->]. done.
  - intros ->. by eapply Hfl.
  - intros -> ->. cbn in E. congruence.
Qed.

(** C9: [snprintf] renders its format into a bounded buffer.  Given a format that
    encodes the directives [ds] and suitable arguments outside the buffer, it ends
    and returns the length of the whole text the directives stand for (-1 above
    INT_MAX); the buffer holds the text cut to [size - 1] bytes and a terminator; no
    byte outside the buffer changes (none at all when [size] is 0) and nothing is
    printed. *)
Theorem snprintf_correct {D} fuel stack (s : stdio D) buf size ds fmt args out :
  length stack = 32%nat -> buf <> NULL -> 0 <= size -> format_call fuel (with_sink s buf size) ds fmt args out ->
  exists s', snprintf fuel stack buf size fmt (word_of <$> args) s = Done (result_of out) s' /\
    text_in_buffer (io_mem s) buf size out (io_mem s') /\ io_console s' = io_console s.
Proof. apply vsnprintf_run. Qed.

Lemma printf_run {D} fuel stack (s : stdio D) ds fmt args out :
  length stack = 32%nat -> format_call fuel (with_sink s NULL 0) ds fmt args out ->
  exists s', printf fuel stack fmt (word_of <$> args) s = Done (result_of out) s' /\
    io_mem s' = io_mem s /\
    io_console s' = fold_left (fun con c => con_byte con (u8 c)) out (io_console s).
Proof.
  intros Hst Hcall. unfold printf, vprintf. run. eexists. split; [by apply (format_string_run fuel stack s NULL 0 ds)|].
  cbn [Z.eqb NULL negb andb]. by apply (emits_console out (with_sink s NULL 0)).
Qed.

(** [printf] prints exactly the text its format stands for: the console
    receives its bytes one by one and in order, memory is unchanged, and the length
    is returned. *)
Theorem printf_correct {D} fuel stack (s : stdio D) ds fmt args out :
  length stack = 32%nat -> format_call fuel (with_sink s NULL 0) ds fmt args out ->
  exists s', printf fuel stack fmt (word_of <$> args) s = Done (result_of out) s' /\
    io_mem s' = io_mem s /\
    io_console s' = fold_left (fun con c => con_byte con (u8 c)) out (io_console s).
Proof. apply printf_run. Qed.

(** A format that ends in a lone percent sign: the terminator is taken for the
    conversion letter, printed, and the loop goes on with the bytes behind the
    string. *)
Theorem trailing_percent_reads_on {D} fuel stack params (s : stdio D) p :
  chars_at (io_mem s) p [c_percent; 0] ->
  format_loop (S fuel) stack p params s =
  format_loop fuel stack (p + 2) params (emits [c_percent; 0] s).
Proof.
  intros Hm. cbn [format_loop]. rewrite (run_bind_done _ _ _ _ _ (char_at_run _ _ _ _ Hm)). cbn [Z.eqb Pos.eqb negb].
  apply chars_at_cons in Hm as [_ Hm]. rewrite (run_bind_done _ _ _ _ _ (char_at_run _ _ _ _ Hm)). cbn [Z.eqb Pos.eqb].
  assert (Hf : forall fl, flags_loop (S fuel) (p + 1) fl s = Done (fl, p + 1) s).
  { intros fl. cbn [flags_loop]. by rewrite (run_bind_done _ _ _ _ _ (char_at_run _ _ _ _ Hm)). }
  assert (Hw : width_loop (S fuel) (p + 1) 0 s = Done (0, p + 1) s).
  { cbn [width_loop]. by rewrite (run_bind_done _ _ _ _ _ (char_at_run _ _ _ _ Hm)). }
  assert (Hc : format_conversion (S fuel) stack (p + 1) params s = Done (Some (p + 2, params)) (emits [c_percent; 0] s)).
  { unfold format_conversion. rewrite (run_bind_done _ _ _ _ _ (Hf _)). cbv beta iota.
    rewrite (run_bind_done _ _ _ _ _ Hw). cbv beta iota. rewrite (run_bind_done _ _ _ _ _ (char_at_run _ _ _ _ Hm)).
    unfold convert. cbn [Z.eqb Pos.eqb orb]. run.
    rewrite (run_bind_done _ _ _ _ _ (sink_putc_run _ _)), (run_bind_done _ _ _ _ _ (sink_putc_run _ _)). run.
    by replace (p + 1 + 1) with (p + 2) by lia. }
  by rewrite (run_bind_done _ _ _ _ _ Hc).
Qed.

(** A memory with a few strings in it. *)
Definition place (p : Z) (l : list Z) (m : memory) : memory :=
  fun x => if (p <=? x) && (x <? p + Z.of_nat (length l)) then nth (Z.to_nat (x - p)) l 0 else m x.

Definition sample_format : list directive :=
  [Conv [FMinus; FPlus] [6] c_d; Lit 124; Conv [FHash; FZero] [1; 0] c_x; Percent; Conv [] [] c_s].
Definition sample_args : list arg := [AWord 42; AWord 48879; AStr 200 (bytes_of "dfos")].
Definition sample_text : list Z := bytes_of "+42   |0x0000beef%dfos".
Definition sample_on {D} (con : console D) : stdio D :=
  mk_stdio (place 100 (encode_all sample_format) (place 200 (bytes_of "dfos") (fun _ => 0))) con (mk_sink 0 0 0 false).
Definition sample_state : stdio (list Z) := sample_on (mk_console [] [vga_like] (replicate 128 0) []).

Ltac solve_chars := repeat (apply chars_at_cons; split; [reflexivity|]); intros ? ? ?; discriminate.

Lemma sample_call {D} (con : console D) buf size :
  buf = NULL \/ (300 <= buf /\ 0 <= size) ->
  format_call 64 (with_sink (sample_on con) buf size) sample_format 100 sample_args sample_text.
Proof.
  intros Hb. assert (Ho : forall p n, p + n <= 300 -> region_outside (with_sink (sample_on con) buf size) p n).
  { intros p n Hpn x Hx. unfold outside. cbn. lia. }
  split.
  - repeat constructor; simpl; try done; lia.
  - cbn -[chars_at]. solve_chars.
  - apply Ho. vm_compute. discriminate.
  - constructor; [unfold arg_ok; word_lia|]. constructor; [unfold arg_ok; word_lia|]. constructor; [|constructor].
    split_and!; [lia|lia|cbn -[chars_at]; solve_chars|apply (bool_decide_unpack _); vm_compute; exact I|by apply Ho].
  - vm_compute. lia.
  - repeat constructor; vm_compute; lia.
  - reflexivity.
  - vm_compute. reflexivity.
Qed.

Lemma snprintf_correct_witness :
  exists s', snprintf 64 (replicate 32 170) 300 8 100 (word_of <$> sample_args) sample_state = Done 22 s' /\
    text_in_buffer (io_mem sample_state) 300 8 sample_text (io_mem s') /\ io_console s' = io_console sample_state.
Proof.
  apply (snprintf_correct 64 (replicate 32 170) sample_state 300 8 sample_format 100 sample_args sample_text);
    [reflexivity|discriminate|lia|apply sample_call; lia].
Defined.

Lemma printf_correct_witness :
  exists s', printf 64 (replicate 32 170) 100 (word_of <$> sample_args) sample_state = Done 22 s' /\
    io_mem s' = io_mem sample_state /\
    io_console s' = fold_left (fun con c => con_byte con (u8 c)) sample_text (io_console sample_state).
Proof.
  apply (printf_correct 64 (replicate 32 170) sample_state sample_format 100 sample_args sample_text);
    [reflexivity|apply sample_call; by left].
Defined.

(** The text really reaches the device. *)
Example printf_sample :
  match printf 64 (replicate 32 170) 100 (word_of <$> sample_args) sample_state with
  | Done r s' => r = 22 /\ devices (io_console s') = sample_text
  | _ => False
  end.
Proof. vm_compute. split; reflexivity. Qed.

Lemma trailing_percent_reads_on_witness :
  let s := set_mem (place 100 [37; 0; 65; 66] (fun _ => 0)) sample_state in
  format_loop 4 (replicate 32 0) 100 [] s = format_loop 3 (replicate 32 0) 102 [] (emits [37; 0] s).
Proof. apply (trailing_percent_reads_on 3). solve_chars. Defined.
