(* ===== verification/Panic.v ===== *)
(** The panic path: kernel/kernel/panic.c.

    The log is a ring of eight records; the message of a record is formatted into
    its 160 bytes by a small formatter of its own.  A C string that the code only
    reads is its bytes ([None] for NULL); an argument of the variadic functions is a
    word or such a string. *)
From S2P Require Import Prelude Strings SchedData Sched SchedApi Console Stdio StdioNum.
From Stdlib Require Import ZArith Lia Ascii String.
From stdpp Require Import strings.
Open Scope Z_scope.

Definition PANIC_LOG_CAPACITY : Z := 8.
Definition PANIC_LOG_MESSAGE_MAX : Z := 160.
Definition PANIC_LOG_TASK_NAME_MAX : Z := 24.

Record panic_record := mk_record {
  sequence : Z;
  tick : Z;
  rec_task_id : Z;
  rec_task_name : list Z;
  message : list Z;
  truncated : bool
}.

(** The record [memset] leaves. *)
Definition zero_record : panic_record :=
  mk_record 0 0 0 (replicate (Z.to_nat PANIC_LOG_TASK_NAME_MAX) 0) (replicate (Z.to_nat PANIC_LOG_MESSAGE_MAX) 0) false.

Record panic_log := mk_log {
  panic_log_records : list panic_record;
  panic_log_next_slot : Z;
  panic_log_record_count : Z;
  panic_log_sequence : Z
}.

Definition cstring : Type := option (list Z).
Inductive panic_arg :=
| PWord (w : Z)
| PString (p : cstring).

Section Panic.
Context {D : Type}.

Record panic_world := mk_world {
  pw_log : panic_log;
  pw_eflags : Z;
  pw_console : console D;
  pw_sched : sched
}.

Definition set_log (l : panic_log) (s : panic_world) : panic_world :=
  mk_world l (pw_eflags s) (pw_console s) (pw_sched s).
Definition set_eflags (f : Z) (s : panic_world) : panic_world :=
  mk_world (pw_log s) f (pw_console s) (pw_sched s).
Definition set_pconsole (c : console D) (s : panic_world) : panic_world :=
  mk_world (pw_log s) (pw_eflags s) c (pw_sched s).

Definition with_console {A} (m : M (console D) A) : M panic_world A :=
  fun s => match m (pw_console s) with
           | Done a c => Done a (set_pconsole c s)
           | Panic msg c => Panic msg (set_pconsole c s)
           | Fault => Fault
           | Spin => Spin
           end.

(** ** Output *)

Definition panic_write_char (c : Z) : M panic_world unit := with_console (console_putchar c).

Definition panic_write_string (text : list Z) : M panic_world unit := foreach text panic_write_char.

(** The same loop on a [char] array: it stops at a terminator. *)
Fixpoint panic_write_array (a : list Z) : M panic_world unit :=
  match a with
  | [] => fault
  | c :: a' => if c =? 0 then ret tt else panic_write_char c ;;; panic_write_array a'
  end.

(** [while (index > 0) f(buffer[--index])] *)
Fixpoint digits_down {A} (n : nat) (buf : list Z) (acc : A) (f : A -> Z -> M panic_world A) : M panic_world A :=
  match n with
  | O => ret acc
  | S n' =>
      c <- array_get buf (Z.of_nat n') ;;
      acc <- f acc c ;;
      digits_down n' buf acc f
  end.

Definition panic_write_unsigned (stack : list Z) (value base : Z) (prefix : bool) : M panic_world unit :=
  (if prefix && (base =? 16) then panic_write_string (bytes_of "0x") else ret tt) ;;;
  if value =? 0 then panic_write_char c_0 else
  r <- digits_loop 33 (digit_chars false) base value stack 0 ;;
  digits_down (Z.to_nat (snd r)) (fst r) tt (fun _ c => panic_write_char c).

Definition panic_irq_save : M panic_world Z :=
  flags <- gets pw_eflags ;;
  modify (fun s => set_eflags (cli (pw_eflags s)) s) ;;;
  ret flags.

Definition panic_irq_restore (flags : Z) : M panic_world unit :=
  if negb (Z.land flags X86_EFLAGS_INTERRUPT_FLAG =? 0)
  then modify (fun s => set_eflags (sti (pw_eflags s)) s) else ret tt.

(** ** Messages *)

Record panic_format_buffer := mk_pfb {
  pf_buffer : list Z;
  pf_capacity : Z;
  pf_length : Z;
  pf_truncated : bool
}.

Definition panic_format_append_char (state : panic_format_buffer) (c : Z) : M panic_world panic_format_buffer :=
  if pf_capacity state =? 0 then ret state
  else if pf_capacity state <=? u32 (pf_length state + 1)
  then ret (mk_pfb (pf_buffer state) (pf_capacity state) (pf_length state) true)
  else
    buf <- array_set (pf_buffer state) (pf_length state) c ;;
    buf <- array_set buf (u32 (pf_length state + 1)) 0 ;;
    ret (mk_pfb buf (pf_capacity state) (u32 (pf_length state + 1)) (pf_truncated state)).

Fixpoint append_all (state : panic_format_buffer) (text : list Z) : M panic_world panic_format_buffer :=
  match text with
  | [] => ret state
  | c :: text' => state <- panic_format_append_char state c ;; append_all state text'
  end.

Definition panic_format_append_string (state : panic_format_buffer) (text : cstring) : M panic_world panic_format_buffer :=
  append_all state (default (bytes_of "(null)") text).

Definition panic_format_append_unsigned (stack : list Z) (state : panic_format_buffer) (value base : Z) (prefix : bool)
    : M panic_world panic_format_buffer :=
  state <- (if prefix && (base =? 16) then panic_format_append_string state (Some (bytes_of "0x")) else ret state) ;;
  if value =? 0 then panic_format_append_char state c_0 else
  r <- digits_loop 33 (digit_chars false) base value stack 0 ;;
  digits_down (Z.to_nat (snd r)) (fst r) state panic_format_append_char.

Definition panic_arg_word (args : list panic_arg) : M panic_world (Z * list panic_arg) :=
  match args with PWord w :: args' => ret (w, args') | _ => fault end.
Definition panic_arg_string (args : list panic_arg) : M panic_world (cstring * list panic_arg) :=
  match args with PString p :: args' => ret (p, args') | _ => fault end.

(** The loop over the format. *)
Fixpoint panic_format_loop (stack : list Z) (state : panic_format_buffer) (format : list Z) (args : list panic_arg)
    : M panic_world panic_format_buffer :=
  match format with
  | [] => ret state
  | c :: format' =>
      if negb (c =? c_percent) then
        state <- panic_format_append_char state c ;;
        panic_format_loop stack state format' args
      else
        match format' with
        | [] => panic_format_append_char state c_percent
        | d :: format'' =>
            if d =? c_s then
              a <- panic_arg_string args ;;
              state <- panic_format_append_string state (fst a) ;;
              panic_format_loop stack state format'' (snd a)
            else if d =? c_u then
              a <- panic_arg_word args ;;
              state <- panic_format_append_unsigned stack state (fst a) 10 false ;;
              panic_format_loop stack state format'' (snd a)
            else if (d =? c_x) || (d =? c_p) then
              a <- panic_arg_word args ;;
              state <- panic_format_append_unsigned stack state (fst a) 16 true ;;
              panic_format_loop stack state format'' (snd a)
            else if d =? c_percent then
              state <- panic_format_append_char state c_percent ;;
              panic_format_loop stack state format'' args
            else
              state <- panic_format_append_char state c_percent ;;
              state <- panic_format_append_char state d ;;
              panic_format_loop stack state format'' args
        end
  end.

(** The message and [*truncated_out]. *)
Definition panic_format_message (stack output : list Z) (capacity : Z) (format : cstring) (args : list panic_arg)
    : M panic_world (list Z * bool) :=
  output <- (if 0 <? capacity then array_set output 0 0 else ret output) ;;
  state <- panic_format_loop stack (mk_pfb output capacity 0 false)
             (default (bytes_of "(null panic message)") format) args ;;
  ret (pf_buffer state, pf_truncated state).

Fixpoint copy_loop (destination source : list Z) (capacity i : Z) : M panic_world (list Z * Z) :=
  match source with
  | [] => ret (destination, i)
  | c :: source' =>
      if i + 1 <? capacity then
        destination <- array_set destination i c ;;
        copy_loop destination source' capacity (i + 1)
      else ret (destination, i)
  end.

Definition panic_copy_string (destination : list Z) (capacity : Z) (source : cstring) : M panic_world (list Z) :=
  if capacity =? 0 then ret destination else
  r <- copy_loop destination (default [] source) capacity 0 ;;
  array_set (fst r) (snd r) 0.

(** ** The log *)

Definition panic_log_append (record_template : panic_record) : M panic_world unit :=
  irq_state <- panic_irq_save ;;
  l <- gets pw_log ;;
  let seq := u32 (panic_log_sequence l + 1) in
  let record := mk_record seq (tick record_template) (rec_task_id record_template) (rec_task_name record_template)
                  (message record_template) (truncated record_template) in
  (if panic_log_next_slot l <? PANIC_LOG_CAPACITY then ret tt else fault) ;;;
  modify (set_log (mk_log (<[Z.to_nat (panic_log_next_slot l) := record]> (panic_log_records l))
                     (u32 (panic_log_next_slot l + 1) mod PANIC_LOG_CAPACITY)
                     (if panic_log_record_count l <? PANIC_LOG_CAPACITY
                      then u32 (panic_log_record_count l + 1) else panic_log_record_count l) seq)) ;;;
  panic_irq_restore irq_state.

Definition panic_log_capture_v (stack : list Z) (format : cstring) (args : list panic_arg) : M panic_world unit :=
  s <- gets pw_sched ;;
  now <- reading s scheduler_ticks ;;
  id <- reading s scheduler_current_task_id ;;
  task_name <- reading s scheduler_current_task_name ;;
  name <- panic_copy_string (rec_task_name zero_record) PANIC_LOG_TASK_NAME_MAX (Some (bytes_of task_name)) ;;
  m <- panic_format_message stack (message zero_record) PANIC_LOG_MESSAGE_MAX format args ;;
  panic_log_append (mk_record 0 now id name (fst m) (snd m)).

Definition panic_log_capture (stack : list Z) (format : cstring) (args : list panic_arg) : M panic_world unit :=
  panic_log_capture_v stack format args.

Definition panic_log_count : M panic_world Z :=
  irq_state <- panic_irq_save ;;
  count <- gets (fun s => panic_log_record_count (pw_log s)) ;;
  panic_irq_restore irq_state ;;;
  ret count.

(** The record read, or [None] for [false]. *)
Definition panic_log_read (newest_index : Z) : M panic_world (option panic_record) :=
  irq_state <- panic_irq_save ;;
  l <- gets pw_log ;;
  if panic_log_record_count l <=? newest_index then panic_irq_restore irq_state ;;; ret None
  else
    let newest_slot := u32 (u32 (panic_log_next_slot l + PANIC_LOG_CAPACITY) - 1) mod PANIC_LOG_CAPACITY in
    let slot := u32 (u32 (newest_slot + PANIC_LOG_CAPACITY) - newest_index) mod PANIC_LOG_CAPACITY in
    record <- of_option (panic_log_records l !! Z.to_nat slot) ;;
    panic_irq_restore irq_state ;;;
    ret (Some record).

Definition panic_log_clear : M panic_world unit :=
  irq_state <- panic_irq_save ;;
  modify (fun s => set_log (mk_log (replicate (Z.to_nat PANIC_LOG_CAPACITY) zero_record) 0 0 0) s) ;;;
  panic_irq_restore irq_state.

(** ** [panic]

    After the message the processor halts for good: the outcome is [Panic]. *)
Definition panic_report (stack : list Z) (record : option panic_record) : M panic_world unit :=
  panic_write_string (10 :: bytes_of "KERNEL PANIC") ;;;
  match record with
  | Some r =>
      panic_write_string (bytes_of " #") ;;;
      panic_write_unsigned stack (sequence r) 10 false ;;;
      panic_write_string (bytes_of ": ") ;;;
      panic_write_array (message r) ;;;
      (if truncated r then panic_write_string (bytes_of " [truncated]") else ret tt) ;;;
      panic_write_string (10 :: bytes_of "context: tick=") ;;;
      panic_write_unsigned stack (tick r) 10 false ;;;
      panic_write_string (bytes_of " task=") ;;;
      panic_write_unsigned stack (rec_task_id r) 10 false ;;;
      panic_write_string (bytes_of " (") ;;;
      panic_write_array (rec_task_name r) ;;;
      panic_write_string (bytes_of ")")
  | None =>
      panic_write_string (bytes_of ": ") ;;;
      panic_write_string (bytes_of "unknown panic")
  end ;;;
  panic_write_string (10 :: bytes_of "System halted." ++ [10]).

Definition kernel_panic (stack : list Z) (format : cstring) (args : list panic_arg) : M panic_world Empty_set :=
  panic_log_capture_v stack format args ;;;
  modify (fun s => set_eflags (cli (pw_eflags s)) s) ;;;
  record <- panic_log_read 0 ;;
  panic_report stack record ;;;
  panic "halted".
End Panic.
Arguments panic_world : clear implicits.
