(* ===== verification/PanicSpec.v ===== *)
(** The panic log as a bounded history, the text of its messages, and what a panic
    prints. *)
From S2P Require Import Prelude Strings SchedData Sched SchedApi Console Stdio StdioNum Panic.
From Stdlib Require Import ZArith Lia.
Open Scope Z_scope.

(** ** The log *)

(** The abstract log: the last eight records, newest first, and the number of the
    last one. *)
Record history := mk_history { newest_first : list panic_record; last_sequence : Z }.

Inductive log_op :=
| LogAppend (r : panic_record)
| LogClear.

Definition stamp (q : Z) (r : panic_record) : panic_record :=
  mk_record q (tick r) (rec_task_id r) (rec_task_name r) (message r) (truncated r).

Definition history_step (h : history) (op : log_op) : history :=
  match op with
  | LogAppend r => mk_history (take 8 (stamp (u32 (last_sequence h + 1)) r :: newest_first h)) (u32 (last_sequence h + 1))
  | LogClear => mk_history [] 0
  end.

(** The ring represents the history. *)
Record rep (l : panic_log) (h : history) : Prop := {
  rep_length : length (panic_log_records l) = 8%nat;
  rep_next : 0 <= panic_log_next_slot l < 8;
  rep_count : panic_log_record_count l = Z.of_nat (length (newest_first h));
  rep_bound : (length (newest_first h) <= 8)%nat;
  rep_sequence : panic_log_sequence l = last_sequence h;
  rep_records : forall i r, newest_first h !! i = Some r ->
    panic_log_records l !! Z.to_nat ((panic_log_next_slot l - 1 - Z.of_nat i) mod 8) = Some r
}.

Section Log.
Context {D : Type}.
Implicit Types s : panic_world D.

Definition run_op (op : log_op) : M (panic_world D) unit :=
  match op with LogAppend r => panic_log_append r | LogClear => panic_log_clear end.

Lemma irq_save_run s : panic_irq_save s = Done (pw_eflags s) (set_eflags (cli (pw_eflags s)) s).
Proof. reflexivity. Qed.

Lemma irq_restore_run e s : fits 32 e -> pw_eflags s = cli e -> panic_irq_restore e s = Done tt (set_eflags e s).
Proof.
  intros He Hs. unfold panic_irq_restore. pose proof (eflags_restored e He) as Hr. unfold interrupts_on in Hr.
  destruct (negb (Z.land e X86_EFLAGS_INTERRUPT_FLAG =? 0)); unfold modify, ret; rewrite ?Hs, ?Hr; [done|].
  rewrite <- Hr, <- Hs. by destruct s.
Qed.

Lemma restore_bind {B} e (k : unit -> M (panic_world D) B) s : fits 32 e -> pw_eflags s = cli e ->
  bind (panic_irq_restore e) k s = k tt (set_eflags e s).
Proof. intros He Hs. apply run_bind_done. by apply irq_restore_run. Qed.

Lemma mod8_add_sub a b : u32 (u32 (a + 8) - b) mod 8 = (a - b) mod 8.
Proof.
  unfold wrap. change (2 ^ 32) with (8 * 2 ^ 29). rewrite Z.mod_mod_divide by (by exists (2 ^ 29)).
  rewrite Zminus_mod, Z.mod_mod_divide by (by exists (2 ^ 29)).
  rewrite <- Zminus_mod. replace (a + 8 - b) with (a - b + 1 * 8) by lia. by rewrite Z_mod_plus_full.
Qed.

Lemma append_rep l h r :
  rep l h ->
  rep (mk_log (<[Z.to_nat (panic_log_next_slot l) := stamp (u32 (panic_log_sequence l + 1)) r]> (panic_log_records l))
         (u32 (panic_log_next_slot l + 1) mod 8)
         (if panic_log_record_count l <? 8 then u32 (panic_log_record_count l + 1) else panic_log_record_count l)
         (u32 (panic_log_sequence l + 1)))
      (history_step h (LogAppend r)).
Proof.
  intros []. pose proof (Z.mod_pos_bound (u32 (panic_log_next_slot l + 1)) 8).
  assert (Hu : u32 (panic_log_next_slot l + 1) = panic_log_next_slot l + 1) by (wsmall; done).
  split; cbn [panic_log_records panic_log_next_slot panic_log_record_count panic_log_sequence history_step newest_first last_sequence].
  - by rewrite length_insert.
  - lia.
  - rewrite length_take. cbn [length]. rewrite rep_count0.
    destruct (Z.ltb_spec (Z.of_nat (length (newest_first h))) 8); [wsmall|]; lia.
  - rewrite length_take. lia.
  - by rewrite rep_sequence0.
  - intros i r' Hi. pose proof (lookup_lt_Some _ _ _ Hi) as Hlt. rewrite length_take in Hlt. rewrite lookup_take_lt in Hi by lia.
    rewrite Hu. destruct i as [|i].
    + simpl in Hi. injection Hi as <-. rewrite rep_sequence0.
      assert (E : ((panic_log_next_slot l + 1) mod 8 - 1 - Z.of_nat 0) mod 8 = panic_log_next_slot l).
      { rewrite Z.sub_0_r, Zminus_mod_idemp_l, Z.add_simpl_r. apply Z.mod_small. lia. }
      rewrite E. apply list_lookup_insert_eq. lia.
    + simpl in Hi. apply rep_records0 in Hi.
      assert (E : ((panic_log_next_slot l + 1) mod 8 - 1 - Z.of_nat (S i)) mod 8 = (panic_log_next_slot l - 1 - Z.of_nat i) mod 8).
      { rewrite <- Z.sub_add_distr, Zminus_mod_idemp_l. f_equal. lia. }
      rewrite E, list_lookup_insert_ne; [done|]. intros Heq. pose proof (Z.mod_pos_bound (panic_log_next_slot l - 1 - Z.of_nat i) 8).
      apply Z2Nat.inj in Heq; [|lia|lia]. Z.div_mod_to_equations. lia.
Qed.

Lemma clear_rep : rep (mk_log (replicate 8 zero_record) 0 0 0) (mk_history [] 0).
Proof. split; simpl; try done; lia. Qed.

Lemma run_op_spec op s h : fits 32 (pw_eflags s) -> rep (pw_log s) h ->
  exists l, run_op op s = Done tt (set_log l s) /\ rep l (history_step h op).
Proof.
  intros He Hr. destruct op as [r|]; cbn [run_op].
  - eexists. split; [|by apply append_rep]. unfold panic_log_append. rewrite (run_bind_done _ _ _ _ _ (irq_save_run s)). run.
    cbn [pw_log set_eflags]. replace (panic_log_next_slot (pw_log s) <? PANIC_LOG_CAPACITY) with true
      by (destruct Hr; unfold PANIC_LOG_CAPACITY; lia). run.
    rewrite irq_restore_run by done. by destruct s.
  - eexists. split; [|apply clear_rep]. unfold panic_log_clear. rewrite (run_bind_done _ _ _ _ _ (irq_save_run s)). run.
    rewrite irq_restore_run by done. by destruct s.
Qed.

Lemma log_count_run s h : fits 32 (pw_eflags s) -> rep (pw_log s) h ->
  panic_log_count s = Done (Z.of_nat (length (newest_first h))) s.
Proof.
  intros He Hr. unfold panic_log_count. rewrite (run_bind_done _ _ _ _ _ (irq_save_run s)). run.
  rewrite restore_bind by done. cbn. rewrite (rep_count _ _ Hr). by destruct s.
Qed.

Lemma log_read_run s h i : fits 32 (pw_eflags s) -> rep (pw_log s) h -> fits 32 i ->
  panic_log_read i s = Done (newest_first h !! Z.to_nat i) s.
Proof.
  intros He Hr Hi. unfold panic_log_read. rewrite (run_bind_done _ _ _ _ _ (irq_save_run s)). run. cbn [pw_log set_eflags].
  rewrite (rep_count _ _ Hr). unfold fits in Hi.
  destruct (Z.leb_spec (Z.of_nat (length (newest_first h))) i) as [Hge|Hlt].
  - rewrite restore_bind by done. run.
    rewrite lookup_ge_None_2 by lia. by destruct s.
  - destruct (lookup_lt_is_Some_2 (newest_first h) (Z.to_nat i)) as [r Hri]; [lia|]. rewrite Hri.
    pose proof (rep_records _ _ Hr _ _ Hri) as Hrec. rewrite Z2Nat.id in Hrec by lia. unfold PANIC_LOG_CAPACITY.
    rewrite !mod8_add_sub, Zminus_mod_idemp_l, Hrec. cbn [of_option]. run.
    rewrite restore_bind by done. run. by destruct s.
Qed.

Lemma run_ops_spec ops : forall s h, fits 32 (pw_eflags s) -> rep (pw_log s) h ->
  exists l, foreach ops run_op s = Done tt (set_log l s) /\ rep l (fold_left history_step ops h).
Proof.
  induction ops as [|op ops IH]; intros s h He Hr; cbn [foreach fold_left].
  - exists (pw_log s). split; [by destruct s|done].
  - destruct (run_op_spec op s h He Hr) as (l & Hop & Hl). rewrite (run_bind_done _ _ _ _ _ Hop).
    destruct (IH (set_log l s) (history_step h op)) as (l' & Hops & Hl'); [done|done|]. exists l'. split; [|done]. by rewrite Hops.
Qed.
End Log.

(** C15: the panic log refines a bounded history.  After any sequence of appended
    records and clears from an empty log, [panic_log_read i] returns the i-th newest
    of the last eight records appended since the last clear (and [false] beyond
    them), [panic_log_count] how many there are, each record carries its sequence
    number, and every call leaves EFLAGS as it found it. *)
Theorem panic_log_refines {D} (ops : list log_op) (s : panic_world D) :
  fits 32 (pw_eflags s) -> pw_log s = mk_log (replicate 8 zero_record) 0 0 0 ->
  exists l, foreach ops run_op s = Done tt (set_log l s) /\
    let h := newest_first (fold_left history_step ops (mk_history [] 0)) in
    panic_log_count (set_log l s) = Done (Z.of_nat (length h)) (set_log l s) /\
    forall i, fits 32 i -> panic_log_read i (set_log l s) = Done (h !! Z.to_nat i) (set_log l s).
Proof.
  intros He Hl. destruct (run_ops_spec ops s (mk_history [] 0)) as (l & Hrun & Hr); [done|rewrite Hl; apply clear_rep|].
  exists l. split; [done|]. cbv zeta. split; [by apply log_count_run|]. intros i Hi. by apply log_read_run.
Qed.

Lemma panic_log_refines_witness :
  let s := mk_world (mk_log (replicate 8 zero_record) 0 0 0) 514 boot_console cold_sched in
  exists l, foreach (replicate 11 (LogAppend zero_record)) run_op s = Done tt (set_log l s) /\
    let h := newest_first (fold_left history_step (replicate 11 (LogAppend zero_record)) (mk_history [] 0)) in
    panic_log_count (set_log l s) = Done (Z.of_nat (length h)) (set_log l s) /\
    forall i, fits 32 i -> panic_log_read i (set_log l s) = Done (h !! Z.to_nat i) (set_log l s).
Proof. apply panic_log_refines; [vm_compute; split; congruence|reflexivity]. Defined.

(** ** Messages *)

(** The text a panic format stands for; [None] when an argument is missing or of
    the wrong kind. *)
Fixpoint expand (format : list Z) (args : list panic_arg) : option (list Z) :=
  match format with
  | [] => Some []
  | c :: format' =>
      if negb (c =? c_percent) then (fun t => c :: t) <$> expand format' args
      else
        match format' with
        | [] => Some [c_percent]
        | d :: format'' =>
            if d =? c_s then
              match args with
              | PString p :: args' => (fun t => default (bytes_of "(null)") p ++ t) <$> expand format'' args'
              | _ => None
              end
            else if d =? c_u then
              match args with
              | PWord w :: args' => (fun t => num_text 10 false w ++ t) <$> expand format'' args'
              | _ => None
              end
            else if (d =? c_x) || (d =? c_p) then
              match args with
              | PWord w :: args' => (fun t => bytes_of "0x" ++ num_text 16 false w ++ t) <$> expand format'' args'
              | _ => None
              end
            else if d =? c_percent then (fun t => c_percent :: t) <$> expand format'' args
            else (fun t => [c_percent; d] ++ t) <$> expand format'' args
        end
  end.

(** A buffer of [cap] bytes that shows [text]: as much of it as fits, terminated,
    and the flag that says whether some of it is missing. *)
Record shows (cap : nat) (st : panic_format_buffer) (text : list Z) : Prop := {
  shows_cap : pf_capacity st = Z.of_nat cap;
  shows_size : length (pf_buffer st) = cap;
  shows_length : pf_length st = Z.of_nat (length (take (cap - 1) text));
  shows_text : take (S (length (take (cap - 1) text))) (pf_buffer st) = take (cap - 1) text ++ [0];
  shows_truncated : pf_truncated st = (cap - 1 <? length text)%nat
}.

Definition word_arg (a : panic_arg) : Prop := match a with PWord w => fits 32 w | PString _ => True end.
Definition bytes (l : list Z) : Prop := Forall (fits 8) l.
Definition byte_arg (a : panic_arg) : Prop := match a with PString (Some l) => bytes l | _ => True end.

Section Message.
Context {D : Type}.
Implicit Types s : panic_world D.

(** Shows [text] after the call, in the same state. *)
Definition appends (cap : nat) (m : M (panic_world D) panic_format_buffer) (text : list Z) : Prop :=
  forall s, exists st, m s = Done st s /\ shows cap st text.

Lemma append_char_shows cap st text c :
  (1 < cap < 1000)%nat -> fits 8 c -> shows cap st text -> appends cap (panic_format_append_char st c) (text ++ [c]).
Proof.
  intros Hcap Hc [] s. unfold panic_format_append_char. rewrite shows_cap0.
  replace (Z.of_nat cap =? 0) with false by lia. rewrite length_take in *.
  rewrite (wrap_small 32 (pf_length st + 1)) by word_lia.
  destruct (Z.leb_spec (Z.of_nat cap) (pf_length st + 1)).
  - eexists. split; [reflexivity|]. assert (Hl : (cap - 1 <= length text)%nat) by lia.
    assert (E : take (cap - 1) (text ++ [c]) = take (cap - 1) text) by (by rewrite take_app_le).
    split; cbn [pf_capacity pf_buffer pf_length pf_truncated]; rewrite ?E, ?length_take; try done.
    rewrite length_app. simpl. symmetry. apply Nat.ltb_lt. lia.
  - assert (Hl : (length text < cap - 1)%nat) by lia. rewrite (take_ge text) in * by lia.
    replace ((cap - 1) `min` length text)%nat with (length text) in shows_text0 by lia.
    rewrite (run_bind_done _ _ _ _ _ (array_set_run (pf_buffer st) (pf_length st) c s ltac:(lia))).
    rewrite (run_bind_done _ _ _ _ _ (array_set_run (<[Z.to_nat (pf_length st) := u8 c]> (pf_buffer st)) (pf_length st + 1) 0 s
      ltac:(rewrite length_insert; lia))).
    eexists. split; [reflexivity|]. rewrite (wrap_small 8 c) by done. change (u8 0) with 0.
    replace (Z.to_nat (pf_length st + 1)) with (S (length text)) by lia. replace (Z.to_nat (pf_length st)) with (length text) by lia.
    split; cbn [pf_capacity pf_buffer pf_length pf_truncated]; rewrite ?(take_ge (text ++ [c])) by (rewrite length_app; simpl; lia).
    + done.
    + by rewrite !length_insert.
    + rewrite length_app. simpl. lia.
    + rewrite length_app. cbn [length]. rewrite Nat.add_1_r.
      rewrite (take_S_r _ _ 0) by (apply list_lookup_insert_eq; rewrite length_insert; lia).
      rewrite take_insert_ge by lia. f_equal.
      rewrite (take_S_r _ _ c) by (apply list_lookup_insert_eq; lia). rewrite take_insert_ge by lia. f_equal.
      assert (Ht : take (length text) (take (S (length text)) (pf_buffer st)) = take (length text) (text ++ [0]))
        by (by rewrite shows_text0).
      rewrite take_take, take_app_length in Ht. by replace (length text `min` S (length text))%nat with (length text) in Ht by lia.
    + rewrite shows_truncated0, length_app. simpl. rewrite (proj2 (Nat.ltb_ge _ _)), (proj2 (Nat.ltb_ge _ _)); [done|lia|lia].
Qed.

Lemma appends_bind cap m k t1 t2 :
  appends cap m t1 -> (forall st, shows cap st t1 -> appends cap (k st) t2) -> appends cap (bind m k) t2.
Proof. intros Hm Hk s. destruct (Hm s) as (st & E & Hst). rewrite (run_bind_done _ _ _ _ _ E). by apply Hk. Qed.

Context (cap : nat) (stack : list Z).
Hypothesis Hcap : (1 < cap < 1000)%nat.
Hypothesis Hstack : length stack = 16%nat.

Lemma append_all_shows l : forall st text, bytes l -> shows cap st text -> appends cap (append_all st l) (text ++ l).
Proof.
  induction l as [|c l IH]; intros st text Hl Hst; cbn [append_all].
  - intros s. exists st. by rewrite app_nil_r.
  - inversion Hl; subst. eapply appends_bind; [by apply append_char_shows|]. intros st' Hst'.
    replace (text ++ c :: l) with ((text ++ [c]) ++ l) by (by rewrite <- app_assoc). by apply IH.
Qed.

Lemma digits_down_shows buf n : forall st text,
  (n <= length buf)%nat -> bytes (take n buf) -> shows cap st text ->
  appends cap (digits_down n buf st panic_format_append_char) (text ++ reverse (take n buf)).
Proof.
  induction n as [|n IH]; intros st text Hn Hb Hst; cbn [digits_down].
  - intros s. exists st. by rewrite take_0, app_nil_r.
  - destruct (lookup_lt_is_Some_2 buf n) as [c Hc]; [lia|]. rewrite (take_S_r _ _ _ Hc) in *.
    apply Forall_app in Hb as [Hb Hc']. inversion Hc'; subst. rewrite reverse_snoc.
    intros s. rewrite (run_bind_done _ _ _ _ _ (array_get_run buf (Z.of_nat n) c s ltac:(lia) ltac:(by rewrite Nat2Z.id))). revert s.
    eapply appends_bind; [by apply append_char_shows|]. intros st' Hst'.
    replace (text ++ c :: reverse (take n buf)) with ((text ++ [c]) ++ reverse (take n buf)) by (by rewrite <- app_assoc).
    apply IH; [lia|done|done].
Qed.

(** In base 10 or 16 a word has at most ten digits: they fit in the 16 bytes. *)
Lemma panic_digits_run base v s : base = 10 \/ base = 16 -> fits 32 v -> v <> 0 ->
  exists buf, digits_loop 33 (digit_chars false) base v stack 0 s = Done (buf, Z.of_nat (length (num_text base false v))) s /\
    (length (num_text base false v) <= length buf)%nat /\
    take (length (num_text base false v)) buf = reverse (num_text base false v).
Proof.
  clear Hcap. intros Hb Hv Hne. assert (Hb' : 2 <= base <= 16) by lia.
  assert (H10 : 0 <= v < base ^ Z.of_nat 10).
  { unfold fits in Hv. destruct Hb as [->| ->]; change (Z.of_nat 10) with 10; lia. }
  destruct (digits_loop_run base false Hb' 10 33 v stack 0 s) as (buf & Hrun & Hl & Ht); [done|lia|lia|lia|rewrite Hstack; lia|].
  assert (E : num_text base false v = numeral 10 base false v).
  { unfold num_text. replace (v =? 0) with false by lia. by apply numeral_more; [| |lia]. }
  rewrite E. exists buf. split_and!; [exact Hrun| |exact Ht]. pose proof (numeral_length base false 10 v). lia.
Qed.

Lemma append_unsigned_shows st text v base prefix :
  base = 10 \/ base = 16 -> fits 32 v -> shows cap st text ->
  appends cap (panic_format_append_unsigned stack st v base prefix)
    (text ++ (if prefix && (base =? 16) then bytes_of "0x" else []) ++ num_text base false v).
Proof.
  intros Hb Hv Hst. unfold panic_format_append_unsigned. set (pre := if prefix && (base =? 16) then bytes_of "0x" else []).
  rewrite app_assoc. apply appends_bind with (t1 := text ++ pre).
  { subst pre. destruct (prefix && (base =? 16)).
    - apply append_all_shows; [|done]. repeat constructor; unfold fits; lia.
    - intros s. exists st. by rewrite app_nil_r. }
  intros st' Hst'. destruct (Z.eqb_spec v 0) as [->|Hne]; [apply append_char_shows; [done|unfold fits; lia|done]|].
  intros s. destruct (panic_digits_run base v s Hb Hv Hne) as (buf & Hrun & Hl & Ht).
  rewrite (run_bind_done _ _ _ _ _ Hrun). cbn [fst snd]. rewrite Nat2Z.id.
  destruct (digits_down_shows buf (length (num_text base false v)) st' (text ++ pre)) with (s := s) as (st2 & E & Hs2); [done| |done|].
  { rewrite Ht. apply Forall_reverse, Forall_byte_fits, num_text_bytes; [lia|apply Hv]. }
  exists st2. split; [done|]. by rewrite Ht, reverse_involutive in Hs2.
Qed.

Lemma format_loop_shows n : forall format args st text t,
  (length format <= n)%nat -> bytes format -> Forall word_arg args -> Forall byte_arg args ->
  expand format args = Some t -> shows cap st text ->
  appends cap (panic_format_loop stack st format args) (text ++ t).
Proof.
  induction n as [|n IH]; intros format args st text t Hn Hf Hw Hb He Hst;
    (destruct format as [|c format]; [simpl in He; injection He as <-; intros s; exists st; by rewrite app_nil_r|]);
    [simpl in Hn; lia|]. cbn [length] in Hn. inversion Hf as [|?? Hc Hf']; subst.
  assert (Hrec : forall (pre t' fmt : list Z) args' (m : M (panic_world D) panic_format_buffer),
    appends cap m (text ++ pre) -> (length fmt <= n)%nat -> bytes fmt -> Forall word_arg args' -> Forall byte_arg args' ->
    expand fmt args' = Some t' ->
    appends cap (bind m (fun st => panic_format_loop stack st fmt args')) (text ++ pre ++ t')).
  { intros pre t' fmt args' m Hm Hl Hbf Hwa Hba Hex. eapply appends_bind; [exact Hm|]. intros st' Hst'. rewrite app_assoc. by apply IH. }
  cbn [panic_format_loop expand] in *. destruct (negb (c =? 37)) eqn:Ec.
  { destruct (expand format args) as [t'|] eqn:Ee; [|done]. injection He as <-.
    apply (Hrec [c] t' format args); [by apply append_char_shows|lia|done|done|done|done]. }
  assert (Hpc : forall st text, shows cap st text -> appends cap (panic_format_append_char st c_percent) (text ++ [c_percent])).
  { intros st' text' H'. apply append_char_shows; [done|unfold fits; lia|done]. }
  destruct format as [|d format]; [injection He as <-; by apply Hpc|]. cbn [length] in Hn. inversion Hf' as [|?? Hd Hf'']; subst.
  destruct (d =? 115).
  { destruct args as [|[w|p] args]; try done. inversion Hw; inversion Hb; subst. intros s. cbn [panic_arg_string]. run. cbn [fst snd]. revert s.
    destruct (expand format args) as [t'|] eqn:Ee; [|done]. injection He as <-. apply Hrec; try done; [|lia].
    apply append_all_shows; [|done]. destruct p as [l|]; [by simpl in *|]. repeat constructor; unfold fits; lia. }
  destruct (d =? 117).
  { destruct args as [|[w|p] args]; try done. inversion Hw; inversion Hb; subst. intros s. cbn [panic_arg_word]. run. cbn [fst snd]. revert s.
    destruct (expand format args) as [t'|] eqn:Ee; [|done]. injection He as <-. apply Hrec; try done; [|lia].
    by apply (append_unsigned_shows st text w 10 false); [left| |]. }
  destruct ((d =? 120) || (d =? 112)).
  { destruct args as [|[w|p] args]; try done. inversion Hw; inversion Hb; subst. intros s. cbn [panic_arg_word]. run. cbn [fst snd]. revert s.
    destruct (expand format args) as [t'|] eqn:Ee; [|done]. injection He as <-.
    apply (Hrec (bytes_of "0x" ++ num_text 16 false w)); try done; [|lia].
    by apply (append_unsigned_shows st text w 16 true); [right| |]. }
  destruct (expand format args) as [t'|] eqn:Ee; [|by destruct (d =? 37)].
  destruct (d =? 37); injection He as <-.
  { apply (Hrec [c_percent] t' format args); try done; [by apply Hpc|lia]. }
  eapply appends_bind; [by apply Hpc|]. intros st' Hst'.
  eapply appends_bind; [by apply append_char_shows|]. intros st2 Hst2.
  enough (appends cap (panic_format_loop stack st2 format args) (((text ++ [c_percent]) ++ [d]) ++ t')) as Hgoal
    by (by rewrite <- !app_assoc in Hgoal).
  apply IH; try done. lia.
Qed.

(** A [char] array that shows [text]: what fits of it, and a terminator. *)
Definition message_of (cap : nat) (text msg : list Z) : Prop :=
  length msg = cap /\ take (S (length (take (cap - 1) text))) msg = take (cap - 1) text ++ [0].

Lemma format_message_run output format args text s :
  length output = cap -> bytes (default [] format) -> Forall word_arg args -> Forall byte_arg args ->
  expand (default (bytes_of "(null panic message)") format) args = Some text ->
  exists msg, panic_format_message stack output (Z.of_nat cap) format args s = Done (msg, (cap - 1 <? length text)%nat) s /\
    message_of cap text msg.
Proof.
  intros Ho Hf Hw Hb He. unfold panic_format_message. replace (0 <? Z.of_nat cap) with true by lia.
  rewrite (run_bind_done _ _ _ _ _ (array_set_run output 0 0 s ltac:(lia))).
  set (out := <[Z.to_nat 0 := u8 0]> output).
  assert (Hst : shows cap (mk_pfb out (Z.of_nat cap) 0 false) []).
  { split; subst out; cbn [pf_capacity pf_buffer pf_length pf_truncated]; rewrite ?take_nil; simpl; try done.
    - by rewrite length_insert.
    - destruct output; [simpl in Ho; lia|done]. }
  assert (Hbf : bytes (default (bytes_of "(null panic message)") format)).
  { destruct format; [done|]. apply (bool_decide_unpack _). vm_compute. exact I. }
  destruct (format_loop_shows _ _ args _ [] text (le_n _) Hbf Hw Hb He Hst s) as (st & Hrun & []).
  rewrite (run_bind_done _ _ _ _ _ Hrun). exists (pf_buffer st). split; [|done]. unfold ret. by rewrite shows_truncated0.
Qed.
End Message.

(** [panic_format_message] never writes outside its buffer and leaves the
    terminated text its format stands for, cut to the capacity; it reports
    [truncated] exactly when part of the text is missing. *)
Theorem panic_format_message_correct {D} (cap : nat) stack output format args text (s : panic_world D) :
  (1 < cap < 1000)%nat -> length stack = 16%nat -> length output = cap ->
  bytes (default [] format) -> Forall word_arg args -> Forall byte_arg args ->
  expand (default (bytes_of "(null panic message)") format) args = Some text ->
  exists msg, panic_format_message stack output (Z.of_nat cap) format args s = Done (msg, (cap - 1 <? length text)%nat) s /\
    message_of cap text msg.
Proof. intros. by apply format_message_run. Qed.

Lemma panic_format_message_correct_witness :
  let s := mk_world (mk_log (replicate 8 zero_record) 0 0 0) 514 boot_console cold_sched in
  let text := bytes_of "bad frame 0xbeef" in
  exists msg, panic_format_message (replicate 16 9) (replicate 12 0) (Z.of_nat 12) (Some (bytes_of "bad %s %x"))
      [PString (Some (bytes_of "frame")); PWord 48879] s = Done (msg, true) s /\ message_of 12 text msg.
Proof.
  apply (panic_format_message_correct 12 (replicate 16 9) (replicate 12 0) (Some (bytes_of "bad %s %x"))
    [PString (Some (bytes_of "frame")); PWord 48879] (bytes_of "bad frame 0xbeef")); try reflexivity; [lia| | |].
  - apply (bool_decide_unpack _). vm_compute. exact I.
  - repeat constructor; simpl; unfold fits; lia.
  - repeat constructor; unfold fits; lia.
Defined.
