(* ===== verification/PanicProps.v ===== *)
(** What a panic does: it records itself in the log, prints the record and halts with
    interrupts disabled. *)
From S2P Require Import Prelude Strings SchedData Sched SchedApi Console Stdio StdioNum Panic PanicSpec.
From Stdlib Require Import ZArith Lia.
Open Scope Z_scope.

Section Panic.
Context {D : Type}.
Implicit Types s : panic_world D.

(** The console after one [console_putchar]. *)
Definition con_putchar (con : console D) (c : Z) : console D :=
  set_devices (fold_left (fun d drv => match drv_putchar drv with Some p => p c d | None => d end)
                 (active_drivers con) (devices con)) con.
Definition con_puts (con : console D) (l : list Z) : console D := fold_left con_putchar l con.

(** [m] prints [l] and changes nothing else. *)
Definition prints (m : M (panic_world D) unit) (l : list Z) : Prop :=
  forall s, m s = Done tt (set_pconsole (con_puts (pw_console s) l) s).

Lemma write_char_prints c : prints (panic_write_char c) [c].
Proof.
  intros s. unfold panic_write_char, with_console, console_putchar. run.
  rewrite (devices_foreach _ (fun drv d => match drv_putchar drv with Some p => p c d | None => d end)); [done|].
  intros drv con. destruct (drv_putchar drv); [done|]. by destruct con.
Qed.

Lemma prints_bind {B} m l (k : unit -> M (panic_world D) B) s :
  prints m l -> bind m k s = k tt (set_pconsole (con_puts (pw_console s) l) s).
Proof. intros H. by apply run_bind_done. Qed.

Lemma prints_seq m1 m2 l1 l2 : prints m1 l1 -> prints m2 l2 -> prints (m1 ;;; m2) (l1 ++ l2).
Proof.
  intros H1 H2 s. rewrite (prints_bind _ _ _ _ H1), H2. cbn. unfold con_puts. by rewrite fold_left_app.
Qed.

Lemma prints_nil : prints (ret tt) [].
Proof. intros s. by destruct s. Qed.

Lemma write_string_prints l : prints (panic_write_string l) l.
Proof.
  unfold panic_write_string. induction l as [|c l IH]; cbn [foreach]; [apply prints_nil|].
  apply (prints_seq _ _ [c] l); [apply write_char_prints|done].
Qed.

Lemma write_array_prints l a : Forall (fun c => c <> 0) l -> take (S (length l)) a = l ++ [0] -> prints (panic_write_array a) l.
Proof.
  revert a. induction l as [|c l IH]; intros [|x a] Hl Ha; try done; simpl in Ha; cbn [panic_write_array].
  - injection Ha as ->. apply prints_nil.
  - injection Ha as -> Ha. inversion Hl; subst. replace (c =? 0) with false by lia. apply (prints_seq _ _ [c] l); [apply write_char_prints|by apply IH].
Qed.

Lemma digits_down_prints buf n : (n <= length buf)%nat ->
  prints (digits_down n buf tt (fun _ c => panic_write_char c)) (reverse (take n buf)).
Proof.
  induction n as [|n IH]; intros Hn; cbn [digits_down]; [rewrite take_0; apply prints_nil|].
  destruct (lookup_lt_is_Some_2 buf n) as [c Hc]; [lia|]. rewrite (take_S_r _ _ _ Hc), reverse_snoc. intros s.
  rewrite (run_bind_done _ _ _ _ _ (array_get_run buf (Z.of_nat n) c s ltac:(lia) ltac:(by rewrite Nat2Z.id))). revert s.
  assert (H : prints (panic_write_char c ;;; digits_down n buf tt (fun _ c => panic_write_char c)) ([c] ++ reverse (take n buf))).
  { apply prints_seq; [apply write_char_prints|apply IH; lia]. }
  intros s. specialize (H s). cbn [app] in H. rewrite <- H. unfold bind. by destruct (panic_write_char c s) as [[] ?| | |].
Qed.

Lemma write_unsigned_prints stack v : length stack = 16%nat -> fits 32 v ->
  prints (panic_write_unsigned stack v 10 false) (num_text 10 false v).
Proof.
  intros Hst Hv. apply (prints_seq _ _ [] (num_text 10 false v)); [apply prints_nil|]. destruct (Z.eqb_spec v 0) as [->|Hne]; [apply write_char_prints|].
  intros s. destruct (panic_digits_run stack Hst 10 v s) as (buf & Hrun & Hl & Ht); [by left|done|done|].
  rewrite (run_bind_done _ _ _ _ _ Hrun). cbn [fst snd]. rewrite Nat2Z.id, (digits_down_prints buf _ Hl).
  by rewrite Ht, reverse_involutive.
Qed.

(** The report of a record whose arrays show [msg] and [name]. *)
Definition report_text (r : panic_record) (msg name : list Z) : list Z :=
  10 :: bytes_of "KERNEL PANIC #" ++ num_text 10 false (sequence r) ++ bytes_of ": " ++ msg ++
  (if truncated r then bytes_of " [truncated]" else []) ++
  10 :: bytes_of "context: tick=" ++ num_text 10 false (tick r) ++ bytes_of " task=" ++
  num_text 10 false (rec_task_id r) ++ bytes_of " (" ++ name ++ bytes_of ")" ++
  10 :: bytes_of "System halted." ++ [10].

Definition text_in (a text : list Z) : Prop := Forall (fun c => c <> 0) text /\ take (S (length text)) a = text ++ [0].

Lemma report_prints stack r msg name :
  length stack = 16%nat -> fits 32 (sequence r) -> fits 32 (tick r) -> fits 32 (rec_task_id r) ->
  text_in (message r) msg -> text_in (rec_task_name r) name ->
  prints (panic_report stack (Some r)) (report_text r msg name).
Proof.
  intros Hst H1 H2 H3 [Hm0 Hm] [Hn0 Hn].
  assert (E : report_text r msg name = (10 :: bytes_of "KERNEL PANIC") ++
    (bytes_of " #" ++ num_text 10 false (sequence r) ++ bytes_of ": " ++ msg ++ (if truncated r then bytes_of " [truncated]" else []) ++
     (10 :: bytes_of "context: tick=") ++ num_text 10 false (tick r) ++ bytes_of " task=" ++ num_text 10 false (rec_task_id r) ++
     bytes_of " (" ++ name ++ bytes_of ")") ++ 10 :: bytes_of "System halted." ++ [10]).
  { unfold report_text. rewrite <- !app_assoc. done. }
  rewrite E. unfold panic_report.
  repeat (apply prints_seq; [first [apply write_string_prints|by apply write_unsigned_prints|by apply write_array_prints|
    destruct (truncated r); [apply write_string_prints|apply prints_nil]|
    repeat (apply prints_seq; [first [apply write_string_prints|by apply write_unsigned_prints|by apply write_array_prints|
      destruct (truncated r); [apply write_string_prints|apply prints_nil]]|]); apply write_string_prints]|]).
  apply write_string_prints.
Qed.

(** ** The captured record *)

Lemma copy_string_run dst cap src s :
  length dst = cap -> (0 < cap)%nat -> bytes src ->
  exists a, panic_copy_string dst (Z.of_nat cap) (Some src) s = Done a s /\ message_of cap src a.
Proof.
  intros Hl Hc Hb. unfold panic_copy_string. replace (Z.of_nat cap =? 0) with false by lia. cbn [default].
  assert (H : forall rest pre a, bytes rest -> length a = cap -> take (length pre) a = pre -> (length pre < cap)%nat ->
    exists a', copy_loop a rest (Z.of_nat cap) (Z.of_nat (length pre)) s =
                 Done (a', Z.of_nat (length (take (cap - 1) (pre ++ rest)))) s /\
      length a' = cap /\ take (length (take (cap - 1) (pre ++ rest))) a' = take (cap - 1) (pre ++ rest)).
  { induction rest as [|c rest IH]; intros pre a Hbr Ha Hp Hlt; cbn [copy_loop].
    - exists a. rewrite app_nil_r, take_ge by lia. done.
    - destruct (Z.ltb_spec (Z.of_nat (length pre) + 1) (Z.of_nat cap)).
      + pose proof (Forall_inv Hbr) as Hcb. apply Forall_inv_tail in Hbr. rewrite (run_bind_done _ _ _ _ _ (array_set_run a (Z.of_nat (length pre)) c s ltac:(lia))).
        rewrite (wrap_small 8 c) by done. rewrite Nat2Z.id.
        destruct (IH (pre ++ [c]) (<[length pre := c]> a)) as (a' & Hrun & Hr); [done|by rewrite length_insert| |rewrite length_app; simpl; lia|].
        { rewrite length_app. cbn [length]. rewrite Nat.add_1_r, (take_S_r _ _ c) by (apply list_lookup_insert_eq; lia).
          by rewrite take_insert_ge, Hp by lia. }
        rewrite <- app_assoc in Hrun, Hr. exists a'. split; [|exact Hr].
        replace (Z.of_nat (length pre) + 1) with (Z.of_nat (length (pre ++ [c]))) by (rewrite length_app; simpl; lia). exact Hrun.
      + exists a. assert (E : take (cap - 1) (pre ++ c :: rest) = pre) by (rewrite take_app_le, take_ge by lia; done).
        rewrite E. done. }
  destruct (H src [] dst) as (a & Hrun & Ha & Ht); [done|done|done|simpl; lia|]. cbn [length app Z.of_nat] in *.
  rewrite (run_bind_done _ _ _ _ _ Hrun). cbn [fst snd]. rewrite length_take in *.
  rewrite array_set_run by lia. eexists. split; [done|]. change (u8 0) with 0. rewrite Nat2Z.id. split; [by rewrite length_insert|].
  rewrite length_take, (take_S_r _ _ 0) by (apply list_lookup_insert_eq; lia). by rewrite take_insert_ge, Ht by lia.
Qed.

Lemma bytes_of_bytes str : bytes (bytes_of str).
Proof.
  unfold bytes_of, bytes. rewrite Forall_fmap. apply Forall_forall. intros c _. unfold compose, fits.
  pose proof (Ascii.N_ascii_bounded c). change (2 ^ 8) with 256. lia.
Qed.

Lemma text_in_message cap text a : Forall (fun c => c <> 0) text -> message_of cap text a -> text_in a (take (cap - 1) text).
Proof. intros Hz [_ Ht]. split; [by apply Forall_take|done]. Qed.

Lemma cli_off e : fits 32 e -> interrupts_on (cli e) = false.
Proof. intros He. rewrite interrupts_on_testbit, cli_bits by (done || lia). done. Qed.

Lemma cli_fits e : fits 32 e -> fits 32 (cli e).
Proof.
  intros He. assert (E : cli e = u32 (cli e)); [|rewrite E; by apply wrap_fits].
  apply Z.bits_inj'. intros n Hn. unfold wrap. destruct (Z.lt_ge_cases n 32).
  - by rewrite Z.mod_pow2_bits_low by lia.
  - rewrite Z.mod_pow2_bits_high, cli_bits, (fits_bits_high 32 e) by (done || lia). apply andb_false_r.
Qed.

(** What the call needs: the stack's sixteen bytes, printable arguments, and the
    scheduler's answers. *)
Record panic_call s (stack : list Z) (format : cstring) (args : list panic_arg) (text : list Z)
    (now id : Z) (name : string) : Prop := {
  pc_stack : length stack = 16%nat;
  pc_eflags : fits 32 (pw_eflags s);
  pc_format : bytes (default [] format);
  pc_words : Forall word_arg args;
  pc_strings : Forall byte_arg args;
  pc_text : expand (default (bytes_of "(null panic message)") format) args = Some text;
  pc_nonzero : Forall (fun c => c <> 0) text;
  pc_ticks : scheduler_ticks (pw_sched s) = Done now (pw_sched s);
  pc_id : scheduler_current_task_id (pw_sched s) = Done id (pw_sched s);
  pc_name : scheduler_current_task_name (pw_sched s) = Done name (pw_sched s);
  pc_words_fit : fits 32 now /\ fits 32 id;
  pc_name_nonzero : Forall (fun c => c <> 0) (bytes_of name)
}.

(** The record of a panic: the message and the name are cut to their arrays. *)
Definition captured (text : list Z) (now id : Z) (name : string) (r : panic_record) : Prop :=
  tick r = now /\ rec_task_id r = id /\ truncated r = (159 <? length text)%nat /\
  message_of 160 text (message r) /\ message_of 24 (bytes_of name) (rec_task_name r).

Lemma capture_run s stack format args text now id name h :
  panic_call s stack format args text now id name -> rep (pw_log s) h ->
  exists r l, panic_log_capture_v stack format args s = Done tt (set_log l s) /\
    captured text now id name r /\ rep l (history_step h (LogAppend r)).
Proof.
  intros [] Hrep. unfold panic_log_capture_v. run. unfold reading at 1. rewrite (run_bind_done _ _ _ now s) by (by rewrite pc_ticks0).
  rewrite (run_bind_done _ _ _ id s) by (unfold reading; by rewrite pc_id0).
  rewrite (run_bind_done _ _ _ name s) by (unfold reading; by rewrite pc_name0).
  destruct (copy_string_run (rec_task_name zero_record) 24 (bytes_of name) s) as (a & Ha & Hname); [done|lia|apply bytes_of_bytes|].
  rewrite (run_bind_done _ _ _ _ _ Ha).
  destruct (format_message_run 160 stack ltac:(lia) pc_stack0 (message zero_record) format args text s) as (m & Hm & Hmsg); try done.
  rewrite (run_bind_done _ _ _ _ _ Hm). cbn [fst snd].
  destruct (run_op_spec (LogAppend (mk_record 0 now id a m (159 <? length text)%nat)) s h pc_eflags0 Hrep) as (l & Hop & Hl).
  eexists _, l. split_and!; [exact Hop|..|exact Hl]; done.
Qed.
End Panic.

(** C24: [panic] records itself and reports.  From any state whose log represents a
    history, the call ends by halting, with interrupts disabled, the new record (its
    message cut to 159 bytes, its task name to 23) at the head of the log, and
    exactly the report of that record printed on the console: its sequence number,
    message, tick and task. *)
Theorem kernel_panic_correct {D} (s : panic_world D) stack format args text now id name h :
  panic_call s stack format args text now id name -> rep (pw_log s) h ->
  exists r s', kernel_panic stack format args s = Panic "halted" s' /\
    interrupts_on (pw_eflags s') = false /\
    captured text now id name r /\
    rep (pw_log s') (history_step h (LogAppend r)) /\
    pw_console s' = con_puts (pw_console s)
      (report_text (stamp (u32 (last_sequence h + 1)) r) (take 159 text) (take 23 (bytes_of name))).
Proof.
  intros Hcall Hrep. destruct (capture_run s stack format args text now id name h Hcall Hrep) as (r & l & Hcap & Hr & Hl).
  destruct Hcall. unfold kernel_panic. rewrite (run_bind_done _ _ _ _ _ Hcap). run.
  set (s1 := set_eflags (cli (pw_eflags (set_log l s))) (set_log l s)).
  assert (He1 : fits 32 (pw_eflags s1)).
  { by apply cli_fits. }
  assert (Hread : panic_log_read 0 s1 = Done (Some (stamp (u32 (last_sequence h + 1)) r)) s1).
  { rewrite (log_read_run s1 _ 0 He1 Hl); [done|unfold fits; lia]. }
  rewrite (run_bind_done _ _ _ _ _ Hread).
  assert (Hp : prints (D := D) (panic_report stack (Some (stamp (u32 (last_sequence h + 1)) r)))
    (report_text (stamp (u32 (last_sequence h + 1)) r) (take 159 text) (take 23 (bytes_of name)))).
  { destruct Hr as (<- & <- & _ & Hm & Hn). apply report_prints; cbn; try done; [by apply wrap_fits|apply pc_words_fit0|apply pc_words_fit0| |].
    - by apply (text_in_message 160).
    - by apply (text_in_message 24). }
  rewrite (prints_bind _ _ _ _ Hp). exists r. eexists. split; [apply run_panic|]. clear Hp Hread.
  generalize (report_text (stamp (u32 (last_sequence h + 1)) r) (take 159 text) (take 23 (bytes_of name))). intros out.
  split; [by apply cli_off|]. split; [exact Hr|]. split; [exact Hl|reflexivity].
Qed.

(** A panic before the scheduler runs. *)
Definition early_world : panic_world (list Z) :=
  mk_world (mk_log (replicate 8 zero_record) 0 0 0) 514 (mk_console [] [vga_like] (replicate 128 0) []) cold_sched.

Lemma kernel_panic_correct_witness :
  exists r s', kernel_panic (replicate 16 9) (Some (bytes_of "no %s")) [PString (Some (bytes_of "memory"))] early_world = Panic "halted" s' /\
    interrupts_on (pw_eflags s') = false /\
    captured (bytes_of "no memory") 0 0 "none" r /\
    rep (pw_log s') (history_step (mk_history [] 0) (LogAppend r)) /\
    pw_console s' = con_puts (pw_console early_world)
      (report_text (stamp 1 r) (take 159 (bytes_of "no memory")) (take 23 (bytes_of "none"))).
Proof.
  apply (kernel_panic_correct early_world (replicate 16 9) (Some (bytes_of "no %s")) [PString (Some (bytes_of "memory"))]
    (bytes_of "no memory") 0 0 "none" (mk_history [] 0)); [|apply clear_rep].
  split; [reflexivity|vm_compute; split; congruence| |repeat constructor| |reflexivity| |reflexivity|reflexivity|reflexivity|
    split; unfold fits; lia|].
  all: try (apply (bool_decide_unpack _); vm_compute; exact I).
  constructor; [|constructor]. apply (bool_decide_unpack _). vm_compute. exact I.
Defined.

(** What is on the screen afterwards. *)
Example panic_sample :
  match kernel_panic (replicate 16 9) (Some (bytes_of "no %s")) [PString (Some (bytes_of "memory"))] early_world with
  | Panic _ s' => devices (pw_console s') =
      10 :: bytes_of "KERNEL PANIC #1: no memory" ++ 10 :: bytes_of "context: tick=0 task=0 (none)" ++ 10 :: bytes_of "System halted." ++ [10]
  | _ => False
  end.
Proof. vm_compute. reflexivity. Qed.
