(* ===== verification/Modules.v ===== *)
(** Driver modules: kernel/kernel/module.c.

    A module descriptor's [probe] and [activate] act on the state [W] of the drivers
    and devices.  The registry is the used prefix of the three parallel arrays. *)
From S2P Require Import Prelude.
From Stdlib Require Import ZArith Lia Sorting.Sorted.
Open Scope Z_scope.

Definition MODULE_REGISTRY_CAPACITY : Z := 32.

Inductive module_kind :=
| MODULE_KIND_CONSOLE
| MODULE_KIND_INPUT
| MODULE_KIND_IRQ_CONTROLLER
| MODULE_KIND_TIMER
| MODULE_KIND_STORAGE_CONTROLLER.
#[global] Instance module_kind_eq_dec : EqDecision module_kind.
Proof. solve_decision. Defined.

(** For the values of the enumeration. *)
Definition module_kind_name (kind : module_kind) : string :=
  match kind with
  | MODULE_KIND_CONSOLE => "console"
  | MODULE_KIND_INPUT => "input"
  | MODULE_KIND_IRQ_CONTROLLER => "irq controller"
  | MODULE_KIND_TIMER => "timer"
  | MODULE_KIND_STORAGE_CONTROLLER => "storage controller"
  end.

Section Modules.
Context {W : Type}.

Record module_descriptor := mk_module {
  mod_name : string;
  mod_kind : module_kind;
  priority : Z;
  probe : option (W -> bool * W);
  activate : option (W -> bool * W)
}.

Record modules := mk_modules {
  registered_modules : list (option module_descriptor);
  active_modules : list bool;
  attempted_modules : list bool;
  world : W
}.

Definition set_world (w : W) (s : modules) : modules :=
  mk_modules (registered_modules s) (active_modules s) (attempted_modules s) w.

Definition registered_module_count (s : modules) : Z := Z.of_nat (length (registered_modules s)).

(** A call through a pointer to [bool f(void)]. *)
Definition call (f : W -> bool * W) : M modules bool :=
  r <- gets (fun s => f (world s)) ;;
  modify (set_world (snd r)) ;;;
  ret (fst r).

Definition module_is_supported (module : option module_descriptor) : M modules bool :=
  match module with
  | None => ret false
  | Some m => match probe m with None => ret true | Some f => call f end
  end.

Definition module_matches_kind (module : option module_descriptor) (kind : module_kind) : bool :=
  match module with
  | None => false
  | Some m => bool_decide (mod_kind m = kind)
  end.

Definition flag_at (l : list bool) (i : Z) : M modules bool := of_option (l !! Z.to_nat i).

(** The search; the result is [*index_out], or [None] for [false]. *)
Definition module_find_best_candidate (kind : module_kind) : M modules (option Z) :=
  n <- gets registered_module_count ;;
  r <- for_acc (R := Empty_set) 0 n (None : option (Z * Z)) (fun i best =>
    s <- gets id ;;
    module <- of_option (registered_modules s !! Z.to_nat i) ;;
    active <- flag_at (active_modules s) i ;;
    attempted <- flag_at (attempted_modules s) i ;;
    if active || attempted || negb (module_matches_kind module kind) then ret (inl best) else
    supported <- module_is_supported module ;;
    if negb supported then ret (inl best) else
    m <- of_option module ;;
    ret (inl (match best with
              | None => Some (i, priority m)
              | Some (best_index, best_priority) =>
                  if best_priority <? priority m then Some (i, priority m) else best
              end))) ;;
  ret (match r with inl (Some (best_index, _)) => Some best_index | _ => None end).

Definition module_register (module : option module_descriptor) : M modules unit :=
  n <- gets registered_module_count ;;
  match module with
  | None => ret tt
  | Some m =>
      if MODULE_REGISTRY_CAPACITY <=? n then ret tt
      else modify (fun s => mk_modules (registered_modules s ++ [Some m]) (active_modules s ++ [false])
                              (attempted_modules s ++ [false]) (world s))
  end.

Definition mark_attempted (i : Z) : M modules unit :=
  modify (fun s => mk_modules (registered_modules s) (active_modules s)
                     (<[Z.to_nat i := true]> (attempted_modules s)) (world s)).
Definition mark_active (i : Z) : M modules unit :=
  modify (fun s => mk_modules (registered_modules s) (<[Z.to_nat i := true]> (active_modules s))
                     (attempted_modules s) (world s)).

(** The body of the two activation loops: [true] when the module came up. *)
Definition module_try (index : Z) : M modules bool :=
  s <- gets id ;;
  module <- of_option (registered_modules s !! Z.to_nat index) ;;
  m <- of_option module ;;
  mark_attempted index ;;;
  match activate m with
  | None => ret false
  | Some f =>
      ok <- call f ;;
      if ok then mark_active index ;;; ret true else ret false
  end.

Fixpoint activate_best_loop (fuel : nat) (kind : module_kind) : M modules bool :=
  match fuel with
  | O => fun _ => Spin
  | S fuel' =>
      r <- module_find_best_candidate kind ;;
      match r with
      | None => ret false
      | Some index =>
          ok <- module_try index ;;
          if ok then ret true else activate_best_loop fuel' kind
      end
  end.

Fixpoint activate_all_loop (fuel : nat) (kind : module_kind) (activated : Z) : M modules Z :=
  match fuel with
  | O => fun _ => Spin
  | S fuel' =>
      r <- module_find_best_candidate kind ;;
      match r with
      | None => ret activated
      | Some index =>
          ok <- module_try index ;;
          activate_all_loop fuel' kind (if ok then u32 (activated + 1) else activated)
      end
  end.

(** Every round marks one of at most 32 modules as attempted. *)
Definition module_activate_best (kind : module_kind) : M modules bool := activate_best_loop 33 kind.
Definition module_activate_all (kind : module_kind) : M modules Z := activate_all_loop 33 kind 0.

(** Counting the modules that satisfy a test. *)
Definition count_modules (test : modules -> Z -> option module_descriptor -> bool) : M modules Z :=
  n <- gets registered_module_count ;;
  r <- for_acc (R := Empty_set) 0 n 0 (fun i count =>
    s <- gets id ;;
    module <- of_option (registered_modules s !! Z.to_nat i) ;;
    ret (inl (if test s i module then u32 (count + 1) else count))) ;;
  ret (match r with inl count => count | inr e => match e with end end).

Definition module_registered_count (kind : module_kind) : M modules Z :=
  count_modules (fun _ _ module => module_matches_kind module kind).

Definition module_active_count (kind : module_kind) : M modules Z :=
  count_modules (fun s i module => default false (active_modules s !! Z.to_nat i) && module_matches_kind module kind).

(** ** The order of activation *)

(** The three arrays go together, within the capacity. *)
Record modules_ok (s : modules) : Prop := {
  ok_active : length (active_modules s) = length (registered_modules s);
  ok_attempted : length (attempted_modules s) = length (registered_modules s);
  ok_capacity : Z.of_nat (length (registered_modules s)) <= MODULE_REGISTRY_CAPACITY
}.

(** What is asked of a [probe]: whatever it does to the devices, it always finds the
    same. *)
Definition probe_ok (m : module_descriptor) : Prop :=
  match probe m with None => True | Some f => exists b, forall w, (f w).1 = b end.

(** The devices after a module's probe. *)
Definition look (w : W) (m : module_descriptor) : W :=
  match probe m with None => w | Some f => (f w).2 end.

(** The module in slot [k], if it is of that kind and was not tried yet: the search
    asks its probe. *)
Definition asked (s : modules) (kind : module_kind) (k : nat) : option module_descriptor :=
  match registered_modules s !! k, active_modules s !! k, attempted_modules s !! k with
  | Some (Some m), Some false, Some false => if decide (mod_kind m = kind) then Some m else None
  | _, _, _ => None
  end.

(** The state after the probes of the first [k] slots, in order, and of all. *)
Definition looked_upto (kind : module_kind) (k : nat) (s : modules) : modules :=
  set_world (fold_left look (omap (asked s kind) (seq 0 k)) (world s)) s.
Definition looked (kind : module_kind) (s : modules) : modules :=
  looked_upto kind (length (registered_modules s)) s.

Definition supported (s : modules) (m : module_descriptor) : bool :=
  match probe m with None => true | Some f => fst (f (world s)) end.

(** Module [i], with its descriptor, may still be tried. *)
Definition candidate (s : modules) (kind : module_kind) (i : Z) (m : module_descriptor) : Prop :=
  0 <= i /\ registered_modules s !! Z.to_nat i = Some (Some m) /\
  active_modules s !! Z.to_nat i = Some false /\ attempted_modules s !! Z.to_nat i = Some false /\
  mod_kind m = kind /\ supported s m = true.

(** [i] comes before [j]: higher priority, or registered first. *)
Definition before (a b : Z * module_descriptor) : Prop :=
  priority b.2 < priority a.2 \/ (priority b.2 = priority a.2 /\ a.1 < b.1).

Definition best (s : modules) (kind : module_kind) (i : Z) (m : module_descriptor) : Prop :=
  candidate s kind i m /\ forall j m', candidate s kind j m' -> j <> i -> before (i, m) (j, m').

(** The candidates in the order in which they are to be tried. *)
Definition activation_order (s : modules) (kind : module_kind) (l : list (Z * module_descriptor)) : Prop :=
  StronglySorted before l /\ forall i m, (i, m) ∈ l <-> candidate s kind i m.

(** Trying modules in a given order; before each attempt, and once more at the end,
    the modules that are left are probed. *)
Fixpoint try_until (kind : module_kind) (l : list (Z * module_descriptor)) : M modules bool :=
  modify (looked kind) ;;;
  match l with
  | [] => ret false
  | (i, _) :: l' => ok <- module_try i ;; if ok then ret true else try_until kind l'
  end.

Fixpoint try_all (kind : module_kind) (l : list (Z * module_descriptor)) (activated : Z) : M modules Z :=
  modify (looked kind) ;;;
  match l with
  | [] => ret activated
  | (i, _) :: l' => ok <- module_try i ;; try_all kind l' (if ok then u32 (activated + 1) else activated)
  end.
End Modules.
Arguments module_descriptor : clear implicits.
Arguments modules : clear implicits.
