(* ===== verification/ModulesSpec.v ===== *)
(** Modules are activated in the order of their priorities. *)
From S2P Require Import Prelude Modules.
From Stdlib Require Import ZArith Lia Sorting.Sorted.
Open Scope Z_scope.

Section Spec.
Context {W : Type}.
Implicit Types (s : modules W) (kind : module_kind) (m : module_descriptor W).




Lemma is_supported_run s m : module_is_supported (Some m) s = Done (supported s m) (set_world (look (world s) m) s).
Proof.
  unfold module_is_supported, supported, look. destruct (probe m) as [f|]; [done|]. by destruct s.
Qed.




(** ** The search *)





(** What a search finds out about slot [i]: its flags and its module. *)
Lemma slot_at s kind i : modules_ok s -> 0 <= i < Z.of_nat (length (registered_modules s)) ->
  exists mo act att, registered_modules s !! Z.to_nat i = Some mo /\ active_modules s !! Z.to_nat i = Some act /\
    attempted_modules s !! Z.to_nat i = Some att /\
    asked s kind (Z.to_nat i) = (if act || att || negb (module_matches_kind mo kind) then None else mo).
Proof.
  intros [Ha Ht _] Hi.
  destruct (lookup_lt_is_Some_2 (registered_modules s) (Z.to_nat i)) as [mo Hmo]; [lia|].
  destruct (lookup_lt_is_Some_2 (active_modules s) (Z.to_nat i)) as [act Hact]; [lia|].
  destruct (lookup_lt_is_Some_2 (attempted_modules s) (Z.to_nat i)) as [att Hatt]; [lia|].
  exists mo, act, att. split_and!; try done. unfold asked. rewrite Hmo, Hact, Hatt.
  destruct mo as [m|], act, att; cbn [orb negb module_matches_kind]; try done.
  case_decide as Ek; [by rewrite bool_decide_eq_true_2|by rewrite bool_decide_eq_false_2].
Qed.




(** ** One attempt *)

(** [s'] is [s] after an attempt at module [i]: nothing else changed but the
    devices, and perhaps the module's [active] flag. *)
Definition tried s (i : Z) s' : Prop :=
  registered_modules s' = registered_modules s /\
  attempted_modules s' = <[Z.to_nat i := true]> (attempted_modules s) /\
  (active_modules s' = active_modules s \/ active_modules s' = <[Z.to_nat i := true]> (active_modules s)).

Lemma slot_try_run w s i m : registered_modules s !! Z.to_nat i = Some (Some m) ->
  exists ok s', module_try i (set_world w s) = Done ok s' /\ tried s i s'.
Proof.
  intros Hm. unfold module_try. run. unfold id. cbn [registered_modules set_world]. rewrite Hm. do 2 (cbn [of_option]; run). unfold mark_attempted. run.
  destruct (activate m) as [f|].
  - unfold call. run. cbn [world set_world]. destruct (f w) as [[] w'] eqn:Ef; cbn [fst snd]; unfold mark_active; run; eexists _, _; (split; [reflexivity|]).
    + split_and!; [done|done|by right].
    + split_and!; [done|done|by left].
  - eexists _, _. split; [reflexivity|]. split_and!; [done|done|by left].
Qed.




(** ** The order *)




(** How many modules were not attempted yet. *)
Definition pending s : nat := length (filter (fun b : bool => b = false) (attempted_modules s)).

Lemma filter_insert_lt (l : list bool) i : l !! i = Some false ->
  (length (filter (fun b : bool => b = false) (<[i := true]> l)) < length (filter (fun b : bool => b = false) l))%nat.
Proof.
  revert i. induction l as [|b l IH]; intros [|i] Hi; simplify_eq/=.
  - rewrite filter_cons_False by done. lia.
  - specialize (IH i Hi). destruct b; [rewrite !filter_cons_False by done; done|].
    rewrite !filter_cons_True by done. simpl. lia.
Qed.


(** ** The loops *)






Lemma pending_bound s : modules_ok s -> (pending s <= 32)%nat.
Proof.
  intros [_ Ht Hc]. unfold pending, MODULE_REGISTRY_CAPACITY in *.
  pose proof (length_filter (fun b : bool => b = false) (attempted_modules s)). lia.
Qed.




(** ** Whatever the drivers do *)

(** Slot [i] holds a module that was not tried yet. *)
Definition untried s (i : Z) : Prop :=
  0 <= i /\ (exists m, registered_modules s !! Z.to_nat i = Some (Some m)) /\ attempted_modules s !! Z.to_nat i = Some false.

(** A search changes the devices only, and what it finds was not tried yet. *)
Lemma find_any_spec s kind : modules_ok s ->
  wp (module_find_best_candidate kind)
     (fun r s' => (exists w, s' = set_world w s) /\ match r with Some i => untried s i | None => True end) s.
Proof.
  intros Hok. unfold module_find_best_candidate. do 2 wp_step. unfold registered_module_count.
  apply wp_bind. apply (wp_for_acc _ _ _ _ (fun i acc s' => (exists w, s' = set_world w s) /\
    match acc with Some (b, _) => untried s b | None => True end)); [lia| | |].
  - split; [exists (world s); by destruct s|done].
  - intros i acc s' Hi [[w ->] Hacc]. do 2 wp_step.
    destruct (slot_at s kind i Hok Hi) as (mo & act & att & Hmo & Hact & Hatt & _).
    wp_step. eapply wp_of_option; [exact Hmo|]. cbv beta. wp_step. unfold flag_at. eapply wp_of_option; [exact Hact|]. cbv beta.
    wp_step. eapply wp_of_option; [exact Hatt|]. cbv beta.
    destruct (act || att || negb (module_matches_kind mo kind)) eqn:E; [apply wp_ret; split; [by exists w|done]|].
    z_bools. destruct mo as [m|]; [|done]. wp_step. eapply Done_wp; [apply is_supported_run|]. cbv beta.
    destruct (supported _ m); cbn [negb]; [|apply wp_ret; split; [by eexists|done]].
    cbn [of_option]. do 2 wp_step. split; [by eexists|]. subst. assert (untried s i) by (split_and!; [lia|by exists m|done]).
    destruct acc as [[b p]|]; [|done]. by destruct (p <? priority m).
  - intros acc s' [Hw Hacc]. apply wp_ret. split; [done|]. by destruct acc as [[b p]|].
Qed.

(** The invariant of the registry: the arrays go together and what is active was
    tried; [regs] was registered. *)
Record registry_inv (regs : list (option (module_descriptor W))) s : Prop := {
  ri_ok : modules_ok s;
  ri_registered : registered_modules s = regs;
  ri_some : Forall (fun o => o <> None) regs;
  ri_active i : active_modules s !! i = Some true -> attempted_modules s !! i = Some true
}.

Lemma try_any_spec regs s w i : registry_inv regs s -> untried s i ->
  wp (module_try i) (fun _ s' => registry_inv regs s' /\ (pending s' < pending s)%nat) (set_world w s).
Proof.
  intros [Hok Hr Hs Ha] (Hi & (m & Hm) & Hatt).
  destruct (slot_try_run w s i m Hm) as (ok & s' & Hrun & (Hr' & Ht' & Ha')). eapply Done_wp; [exact Hrun|].
  assert (Hlt : (Z.to_nat i < length (attempted_modules s))%nat) by (by eapply lookup_lt_Some).
  split; [split|].
  - destruct Hok. split; rewrite ?Hr', ?Ht', ?length_insert; try done. destruct Ha' as [->| ->]; by rewrite ?length_insert.
  - by rewrite Hr'.
  - done.
  - intros k Hk. rewrite Ht'. destruct (decide (k = Z.to_nat i)) as [->|Hne]; [by rewrite list_lookup_insert_eq|].
    rewrite list_lookup_insert_ne by done. apply Ha. destruct Ha' as [E|E]; rewrite E in Hk; [done|].
    by rewrite list_lookup_insert_ne in Hk by done.
  - unfold pending. rewrite Ht'. by apply filter_insert_lt.
Qed.

Lemma best_any_spec regs kind : forall fuel s, (pending s < fuel)%nat -> registry_inv regs s ->
  wp (activate_best_loop fuel kind) (fun _ s' => registry_inv regs s') s.
Proof.
  induction fuel as [|fuel IH]; intros s Hf I; [lia|]. cbn [activate_best_loop]. wp_step.
  eapply wp_mono; [apply find_any_spec, I|]. intros [i|] s1 [[w ->] Hu].
  - wp_step. eapply wp_mono; [by apply try_any_spec|]. intros ok s2 [I2 Hlt]. destruct ok; [by apply wp_ret|]. apply IH; [lia|done].
  - apply wp_ret. destruct I as [[] ? ? ?]. by split.
Qed.

Lemma all_any_spec regs kind : forall fuel s n, (pending s < fuel)%nat -> registry_inv regs s ->
  wp (activate_all_loop fuel kind n) (fun _ s' => registry_inv regs s') s.
Proof.
  induction fuel as [|fuel IH]; intros s n Hf I; [lia|]. cbn [activate_all_loop]. wp_step.
  eapply wp_mono; [apply find_any_spec, I|]. intros [i|] s1 [[w ->] Hu].
  - wp_step. eapply wp_mono; [by apply try_any_spec|]. intros ok s2 [I2 Hlt]. apply IH; [lia|done].
  - apply wp_ret. destruct I as [[] ? ? ?]. by split.
Qed.

(** What a client does with the registry. *)
Inductive module_op :=
| OpRegister (m : option (module_descriptor W))
| OpActivateBest (kind : module_kind)
| OpActivateAll (kind : module_kind).

Definition run_module_op (op : module_op) : M (modules W) unit :=
  match op with
  | OpRegister m => module_register m
  | OpActivateBest kind => module_activate_best kind ;;; ret tt
  | OpActivateAll kind => module_activate_all kind ;;; ret tt
  end.

(** The modules that some operations register: the first 32 that are not NULL. *)
Definition registrations (ops : list module_op) : list (option (module_descriptor W)) :=
  take 32 (omap (fun op => match op with OpRegister (Some m) => Some (Some m) | _ => None end) ops).

Definition register_into (regs : list (option (module_descriptor W))) (op : module_op) : list (option (module_descriptor W)) :=
  match op with
  | OpRegister (Some m) => if (length regs <? 32)%nat then regs ++ [Some m] else regs
  | _ => regs
  end.

Lemma register_any_spec o s regs : registry_inv regs s ->
  wp (module_register o) (fun _ s' => registry_inv (register_into regs (OpRegister o)) s') s.
Proof.
  intros [Hok Hr Hs Ha]. unfold module_register. do 2 wp_step. destruct o as [m|]; [|by apply wp_ret]. unfold registered_module_count. rewrite Hr.
  cbn [register_into]. destruct (Nat.ltb_spec (length regs) 32) as [Hlt|Hge]; unfold MODULE_REGISTRY_CAPACITY in *.
  - replace (32 <=? Z.of_nat (length regs)) with false by lia. apply wp_modify. pose proof Hok as [Hla Hlt' _]. rewrite Hr in Hla, Hlt'. split.
    + split; simpl; rewrite ?length_app, ?Hr; unfold MODULE_REGISTRY_CAPACITY; simpl; rewrite ?length_app; simpl; lia.
    + simpl. by rewrite Hr.
    + apply Forall_app. split; [done|]. by constructor.
    + intros i Hi. simpl in *. apply lookup_app_Some in Hi as [Hi|[Hge Hi]].
      * rewrite lookup_app_l; [by apply Ha|]. apply lookup_lt_Some in Hi. lia.
      * apply list_lookup_singleton_Some in Hi as [_ ?]. done.
  - replace (32 <=? Z.of_nat (length regs)) with true by lia. by apply wp_ret.
Qed.

Lemma registry_pending regs s : registry_inv regs s -> (pending s < 33)%nat.
Proof. intros I. pose proof (pending_bound s (ri_ok _ _ I)). lia. Qed.

Lemma module_op_spec op s regs : registry_inv regs s ->
  wp (run_module_op op) (fun _ s' => registry_inv (register_into regs op) s') s.
Proof.
  intros I. pose proof (registry_pending regs s I). destruct op as [o|kind|kind]; cbn [run_module_op]; [by apply register_any_spec| |]; wp_step.
  - eapply wp_mono; [by apply (best_any_spec regs)|]. intros ? s' I'. by apply wp_ret.
  - eapply wp_mono; [by apply (all_any_spec regs)|]. intros ? s' I'. by apply wp_ret.
Qed.

Lemma module_ops_spec ops : forall s regs, registry_inv regs s ->
  wp (foreach ops run_module_op) (fun _ s' => registry_inv (fold_left register_into ops regs) s') s.
Proof.
  induction ops as [|op ops IH]; intros s regs I; cbn [foreach fold_left]; [by apply wp_ret|].
  wp_step. eapply wp_mono; [by apply module_op_spec|]. intros ? s' I'. by apply IH.
Qed.

Lemma register_all ops : forall regs, (length regs <= 32)%nat ->
  fold_left register_into ops regs = take 32 (regs ++ omap (fun op => match op with OpRegister (Some m) => Some (Some m) | _ => None end) ops).
Proof.
  induction ops as [|op ops IH]; intros regs Hl; cbn [fold_left].
  - rewrite app_nil_r. by rewrite take_ge.
  - destruct op as [[m|]|kind|kind]; cbn [register_into]; simpl omap; try (by apply IH).
    destruct (Nat.ltb_spec (length regs) 32).
    + rewrite IH by (rewrite length_app; simpl; lia). by rewrite <- app_assoc.
    + rewrite IH by done. by rewrite !take_app_le by lia.
Qed.
End Spec.
Arguments module_op : clear implicits.


(** C27: whatever the drivers' probes and activations do, any sequence of
    registrations and activations from the empty registry ends, and afterwards the
    registry is well formed: it holds the first 32 registered modules in order, the
    three parallel arrays have the same length, at most 32, and a module is active
    only when it was tried. *)
Theorem module_registry_well_formed {W} (w : W) (ops : list (module_op W)) :
  wp (foreach ops run_module_op) (fun _ s' => modules_ok s' /\ registered_modules s' = registrations ops /\
    forall i, active_modules s' !! i = Some true -> attempted_modules s' !! i = Some true) (mk_modules [] [] [] w).
Proof.
  eapply wp_mono; [apply (module_ops_spec ops _ []); split; [split; simpl; try done; unfold MODULE_REGISTRY_CAPACITY; lia|done|by constructor|done]|].
  intros ? s' [Hok Hr _ Ha]. split; [done|]. split; [|exact Ha]. rewrite Hr. by rewrite register_all by (simpl; lia).
Qed.

(** A registry in the style of platform.c: two consoles, one of them absent, and a
    keyboard. *)
Definition sample_module (name : string) (kind : module_kind) (prio : Z) (present : bool) : module_descriptor (list string) :=
  mk_module name kind prio (Some (fun w => (present, w))) (Some (fun w => (true, w ++ [name]))).
Definition sample_registry : modules (list string) :=
  mk_modules [Some (sample_module "serial" MODULE_KIND_CONSOLE 80 true); Some (sample_module "vga" MODULE_KIND_CONSOLE 100 true);
              Some (sample_module "uart2" MODULE_KIND_CONSOLE 120 false); Some (sample_module "ps2" MODULE_KIND_INPUT 100 true)]
    [false; false; false; false] [false; false; false; false] [].

(** The consoles come up in the order vga, serial. *)
Example activation_sample :
  match module_activate_all MODULE_KIND_CONSOLE sample_registry with
  | Done n s => n = 2 /\ world s = ["vga"%string; "serial"%string]
  | _ => False
  end.
Proof. vm_compute. split; reflexivity. Qed.
