(* ===== verification/Gdt.v ===== *)
(** Segment descriptors and the task state segment: arch/i386/gdt.c, and what the
    processor reads in them. *)
From S2P Require Import Prelude.
From Stdlib Require Import ZArith Lia.
From stdpp Require Import list.
Open Scope Z_scope.

Definition GDT_SELECTOR_KERNEL_CODE : Z := 0x08.
Definition GDT_SELECTOR_KERNEL_DATA : Z := 0x10.
Definition GDT_SELECTOR_USER_CODE : Z := 0x18.
Definition GDT_SELECTOR_USER_DATA : Z := 0x20.
Definition GDT_SELECTOR_TSS : Z := 0x28.

Record gdt_entry := mk_gdt_entry {
  limit_low : Z;
  base_low : Z;
  base_middle : Z;
  access : Z;
  granularity : Z;
  base_high : Z
}.

(** The 25 words of the segment in their order, and the two halves of the last. *)
Record tss_entry := mk_tss {
  prev_tss : Z; esp0 : Z; ss0 : Z; esp1 : Z; ss1 : Z; esp2 : Z; ss2 : Z; tss_cr3 : Z; tss_eip : Z; tss_eflags : Z;
  tss_eax : Z; tss_ecx : Z; tss_edx : Z; tss_ebx : Z; tss_esp : Z; tss_ebp : Z; tss_esi : Z; tss_edi : Z;
  tss_es : Z; tss_cs : Z; tss_ss : Z; tss_ds : Z; tss_fs : Z; tss_gs : Z; ldt_selector : Z;
  trap : Z; iomap_base : Z
}.
Definition sizeof_tss_entry : Z := 25 * 4 + 2 * 2.
Definition zero_tss : tss_entry := mk_tss 0 0 0 0 0 0 0 0 0 0 0 0 0 0 0 0 0 0 0 0 0 0 0 0 0 0 0.

(** The static variables of gdt.c, and the two registers that [gdt_flush] and [ltr]
    load. *)
Record descriptors := mk_descriptors {
  gdt : list gdt_entry;
  gdt_size : Z;
  gdt_offset : Z;
  tss : tss_entry;
  gdtr : option (Z * Z);
  task_register : Z
}.

Definition set_gdt (l : list gdt_entry) (s : descriptors) : descriptors :=
  mk_descriptors l (gdt_size s) (gdt_offset s) (tss s) (gdtr s) (task_register s).
Definition set_descriptor (size offset : Z) (s : descriptors) : descriptors :=
  mk_descriptors (gdt s) size offset (tss s) (gdtr s) (task_register s).
Definition set_tss (t : tss_entry) (s : descriptors) : descriptors :=
  mk_descriptors (gdt s) (gdt_size s) (gdt_offset s) t (gdtr s) (task_register s).

(** The fields that an entry is given. *)
Definition encode_entry (base limit acc gran : Z) : gdt_entry :=
  mk_gdt_entry (u16 (Z.land limit 0xFFFF)) (u16 (Z.land base 0xFFFF)) (u8 (Z.land (Z.shiftr base 16) 0xFF)) acc
    (u8 (Z.lor (Z.land (Z.shiftr limit 16) 0x0F) (Z.land gran 0xF0))) (u8 (Z.land (Z.shiftr base 24) 0xFF)).

Definition gdt_set_entry (index base limit acc gran : Z) : M descriptors unit :=
  l <- gets gdt ;;
  if (0 <=? index) && (index <? Z.of_nat (length l))
  then modify (set_gdt (<[Z.to_nat index := encode_entry base limit acc gran]> l))
  else fault.

Definition set_esp0 (v : Z) (t : tss_entry) : tss_entry :=
  mk_tss (prev_tss t) v (ss0 t) (esp1 t) (ss1 t) (esp2 t) (ss2 t) (tss_cr3 t) (tss_eip t) (tss_eflags t) (tss_eax t) (tss_ecx t)
    (tss_edx t) (tss_ebx t) (tss_esp t) (tss_ebp t) (tss_esi t) (tss_edi t) (tss_es t) (tss_cs t) (tss_ss t) (tss_ds t) (tss_fs t)
    (tss_gs t) (ldt_selector t) (trap t) (iomap_base t).
Definition gdt_set_kernel_stack (stack_top : Z) : M descriptors unit := modify (fun s => set_tss (set_esp0 stack_top (tss s)) s).

Section Gdt.
(** Where the linker placed the table and the segment. *)
Context (gdt_address tss_address : Z).

(** The segment after [memset] and the two stores. *)
Definition boot_tss : tss_entry :=
  mk_tss 0 0 GDT_SELECTOR_KERNEL_DATA 0 0 0 0 0 0 0 0 0 0 0 0 0 0 0 0 0 0 0 0 0 0 0 (u16 sizeof_tss_entry).

Definition gdt_init : M descriptors unit :=
  modify (set_descriptor (u16 (6 * 8 - 1)) gdt_address) ;;;
  gdt_set_entry 0 0 0 0 0 ;;;
  gdt_set_entry 1 0 0xFFFFF 0x9A 0xCF ;;;
  gdt_set_entry 2 0 0xFFFFF 0x92 0xCF ;;;
  gdt_set_entry 3 0 0xFFFFF 0xFA 0xCF ;;;
  gdt_set_entry 4 0 0xFFFFF 0xF2 0xCF ;;;
  modify (set_tss boot_tss) ;;;
  gdt_set_entry 5 tss_address (sizeof_tss_entry - 1) 0x89 0 ;;;
  modify (fun s => mk_descriptors (gdt s) (gdt_size s) (gdt_offset s) (tss s) (Some (gdt_size s, gdt_offset s)) GDT_SELECTOR_TSS).
End Gdt.

(** * What the processor reads *)

(** A descriptor's address, its limit in bytes or in pages, its privilege level, its
    kind, and its size flags. *)
Record segment := mk_segment {
  seg_base : Z;
  seg_last : Z;
  seg_present : bool;
  seg_dpl : Z;
  seg_system : bool;
  seg_type : Z;
  seg_32bit : bool
}.

Definition raw_limit (e : gdt_entry) : Z := limit_low e + 2 ^ 16 * (granularity e mod 16).
Definition decode (e : gdt_entry) : segment :=
  mk_segment (base_low e + 2 ^ 16 * base_middle e + 2 ^ 24 * base_high e)
    (if Z.testbit (granularity e) 7 then raw_limit e * 4096 + 4095 else raw_limit e)
    (Z.testbit (access e) 7) (access e / 2 ^ 5 mod 4) (negb (Z.testbit (access e) 4)) (access e mod 16)
    (Z.testbit (granularity e) 6).

(** The segment that a selector names: the table's entry at its index, read within the
    table's size. *)
Definition segment_at (s : descriptors) (selector : Z) : option segment :=
  if selector + 7 <=? gdt_size s then decode <$> gdt s !! Z.to_nat (selector / 8) else None.

(** A segment over all of memory. *)
Definition flat (dpl type : Z) : segment := mk_segment 0 0xFFFFFFFF true dpl false type true.

(** * Properties *)

Lemma low_byte x : u8 (Z.land x 0xFF) = x mod 2 ^ 8.
Proof. change 0xFF with (Z.ones 8). rewrite Z.land_ones by lia. unfold wrap. by rewrite Zmod_mod. Qed.
Lemma low_half x : u16 (Z.land x 0xFFFF) = x mod 2 ^ 16.
Proof. change 0xFFFF with (Z.ones 16). rewrite Z.land_ones by lia. unfold wrap. by rewrite Zmod_mod. Qed.

(** The byte that holds the high bits of the limit and the flags. *)
Lemma granularity_byte hi gran :
  0 <= hi < 16 -> fits 8 gran ->
  u8 (Z.lor (Z.land hi 0x0F) (Z.land gran 0xF0)) = hi + 16 * (gran / 16).
Proof.
  intros Hh Hg. unfold fits in Hg. change 0x0F with (Z.ones 4). rewrite Z.land_ones, Z.mod_small by (simpl; lia).
  replace (Z.land gran 0xF0) with (gran / 16 * 16).
  - pose proof (Z.div_mod gran 16 ltac:(lia)). pose proof (Z.mod_pos_bound gran 16 ltac:(lia)).
    replace (Z.lor hi (gran / 16 * 16)) with (hi + 16 * (gran / 16)).
    + apply wrap_small. unfold fits. change (2 ^ 8) with 256 in *. lia.
    + rewrite (Z.mul_comm (gran / 16)). change 16 with (2 ^ 4). rewrite (Z.mul_comm (2 ^ 4)), <- Z.shiftl_mul_pow2 by lia.
      assert (Z.land hi (Z.shiftl (gran / 2 ^ 4) 4) = 0) as D; [|by rewrite <- Z.lxor_lor, <- Z.add_nocarry_lxor].
      apply Z.bits_inj'. intros n Hn. rewrite Z.land_spec, Z.bits_0. destruct (Z.lt_ge_cases n 4).
      * rewrite Z.shiftl_spec_low by lia. by rewrite andb_false_r.
      * rewrite (fits_bits_high 4 hi n) by (unfold fits; simpl; lia). done.
  - pose proof (land_mask 8 4 gran ltac:(lia) Hg) as E. change (wrap 8 (Z.lnot (2 ^ 4 - 1))) with 0xF0 in E. by rewrite E.
Qed.

(** What is written is what the processor reads. *)
Lemma decode_entry base limit acc gran :
  fits 32 base -> 0 <= limit < 2 ^ 20 -> fits 8 gran ->
  decode (encode_entry base limit acc gran) =
  mk_segment base (if Z.testbit gran 7 then limit * 4096 + 4095 else limit) (Z.testbit acc 7) (acc / 2 ^ 5 mod 4)
    (negb (Z.testbit acc 4)) (acc mod 16) (Z.testbit gran 6).
Proof.
  intros Hb Hl Hg. unfold encode_entry. rewrite !low_byte, !low_half, !Z.shiftr_div_pow2 by lia.
  assert (Hhi : 0 <= limit / 2 ^ 16 < 16).
  { split; [apply Z.div_pos; lia|]. apply Z.div_lt_upper_bound; [lia|]. change (2 ^ 16 * 16) with (2 ^ 20). lia. }
  rewrite granularity_byte by done. unfold decode, raw_limit. cbn [limit_low base_low base_middle access granularity base_high].
  assert (Hbit : forall k, 4 <= k -> Z.testbit (limit / 2 ^ 16 + 16 * (gran / 16)) k = Z.testbit gran k).
  { intros k Hk. replace (limit / 2 ^ 16 + 16 * (gran / 16)) with (limit / 2 ^ 16 + gran / 16 * 2 ^ 4) by (change (2 ^ 4) with 16; lia).
    replace k with (k - 4 + 4) by lia. rewrite <- (Z.shiftr_spec _ 4), Z.shiftr_div_pow2, Z.div_add, Z.div_small by (simpl; lia).
    rewrite Z.add_0_l. change 16 with (2 ^ 4). by rewrite <- Z.shiftr_div_pow2, Z.shiftr_spec by lia. }
  rewrite !Hbit by lia. replace ((limit / 2 ^ 16 + 16 * (gran / 16)) mod 16) with (limit / 2 ^ 16).
  2: { rewrite (Z.mul_comm 16), Z.mod_add, Z.mod_small by lia. done. }
  pose proof (Z.div_mod limit (2 ^ 16) ltac:(lia)). replace (limit mod 2 ^ 16 + 2 ^ 16 * (limit / 2 ^ 16)) with limit by lia.
  f_equal. unfold fits in Hb. pose proof (Z.div_mod base (2 ^ 16) ltac:(lia)) as E1. pose proof (Z.div_mod (base / 2 ^ 16) (2 ^ 8) ltac:(lia)) as E2.
  rewrite Z.div_div in E2 by lia. change (2 ^ 16 * 2 ^ 8) with (2 ^ 24) in E2.
  rewrite (Z.mod_small (base / 2 ^ 24)); [change (2 ^ 24) with (2 ^ 16 * 2 ^ 8) at 1; lia|].
  split; [apply Z.div_pos; lia|]. apply Z.div_lt_upper_bound; [lia|]. change (2 ^ 24 * 2 ^ 8) with (2 ^ 32). lia.
Qed.

(** [gdt_init] leaves flat code and data segments for both privilege levels at the
    selectors that the rest of the kernel uses, the null descriptor unusable, and the
    loaded task register naming the segment [tss], whose stack segment is the kernel's
    and whose I/O map is empty; [gdt_set_kernel_stack] then changes its stack only. *)
Theorem gdt_init_correct gdt_address tss_address s stack_top :
  length (gdt s) = 6%nat -> fits 32 tss_address ->
  exists s', gdt_init gdt_address tss_address s = Done tt s' /\ gdtr s' = Some (47, gdt_address) /\
    segment_at s' GDT_SELECTOR_KERNEL_CODE = Some (flat 0 0xA) /\
    segment_at s' GDT_SELECTOR_KERNEL_DATA = Some (flat 0 0x2) /\
    segment_at s' GDT_SELECTOR_USER_CODE = Some (flat 3 0xA) /\
    segment_at s' GDT_SELECTOR_USER_DATA = Some (flat 3 0x2) /\
    seg_present <$> segment_at s' 0 = Some false /\
    segment_at s' (task_register s') = Some (mk_segment tss_address (sizeof_tss_entry - 1) true 0 true 0x9 false) /\
    ss0 (tss s') = GDT_SELECTOR_KERNEL_DATA /\ seg_last <$> segment_at s' (task_register s') = Some (iomap_base (tss s') - 1) /\
    exists s'', gdt_set_kernel_stack stack_top s' = Done tt s'' /\ esp0 (tss s'') = stack_top /\
      gdt s'' = gdt s' /\ set_esp0 0 (tss s'') = set_esp0 0 (tss s').
Proof.
  intros Hl Ht. destruct s as [l sz off t r tr]. simpl in Hl. destruct l as [|e0 [|e1 [|e2 [|e3 [|e4 [|e5 [|]]]]]]]; try done.
  eexists. split; [reflexivity|]. split; [reflexivity|].
  unfold segment_at. cbn [gdt_size gdt task_register]. 
  do 4 (split; [vm_compute; reflexivity|]). split; [vm_compute; reflexivity|].
  change (u16 (6 * 8 - 1)) with 47. change (GDT_SELECTOR_TSS + 7 <=? 47) with true. cbv iota. change (Z.to_nat (GDT_SELECTOR_TSS / 8)) with 5%nat.
  match goal with |- context [?l !! 5%nat] => change (l !! 5%nat) with (Some (encode_entry tss_address (sizeof_tss_entry - 1) 0x89 0)) end.
  cbn [fmap option_fmap option_map]. rewrite (decode_entry tss_address (sizeof_tss_entry - 1) 0x89 0) by (done || (vm_compute; split; done || (intros H; discriminate H))).
  split; [reflexivity|]. split; [reflexivity|]. split; [reflexivity|]. eexists. split; [reflexivity|]. by split.
Qed.

Definition cold_descriptors : descriptors := mk_descriptors (replicate 6 (mk_gdt_entry 0 0 0 0 0 0)) 0 0 zero_tss None 0.
Lemma gdt_init_correct_witness :
  exists s', gdt_init 0xC0123000 0xC0124000 cold_descriptors = Done tt s' /\
    segment_at s' GDT_SELECTOR_KERNEL_CODE = Some (flat 0 0xA).
Proof.
  destruct (gdt_init_correct 0xC0123000 0xC0124000 cold_descriptors 0xC0500000 eq_refl ltac:(split; [lia|reflexivity])) as (s' & Hrun & _ & H & _).
  exists s'. split; [exact Hrun|exact H].
Defined.
