(* ===== verification/Irq.v ===== *)
(** Interrupt dispatch, the interrupt controller and the timer:
    arch/i386/interrupts.c, kernel/irq.c, arch/i386/pic.c, kernel/timer.c and
    arch/i386/pit_timer.c.

    Port writes are kept in order; handlers act on the state [W] of the drivers
    behind them. *)
From S2P Require Import Prelude Gdt SchedData Console Panic.
From Stdlib Require Import ZArith Lia.
Open Scope Z_scope.

Definition IDT_ENTRIES : Z := 256.
Definition ISR_STUB_LAST_VECTOR : Z := 50.
Definition PIC1_COMMAND : Z := 0x20.
Definition PIC1_DATA : Z := 0x21.
Definition PIC2_COMMAND : Z := 0xA0.
Definition PIC2_DATA : Z := 0xA1.
Definition PIC_EOI : Z := 0x20.
Definition PIC_BASE_VECTOR : Z := 0x20.
Definition IRQ_LINE_TIMER : Z := 0.
Definition IRQ_LINE_KEYBOARD : Z := 1.

(** ** The 8259 PIC *)

(** [pic_mask], and the bytes written to ports, oldest first. *)
Record chip := mk_chip { pic_mask : Z; ports : list (Z * Z) }.

Definition x86_outb (port value : Z) (c : chip) : chip := mk_chip (pic_mask c) (ports c ++ [(u16 port, u8 value)]).
(** [x86_io_wait] writes to port 0x80. *)
Definition x86_io_wait (c : chip) : chip := x86_outb 0x80 0 c.

Definition pic_write_mask (c : chip) : chip :=
  x86_outb PIC2_DATA (u8 (Z.land (Z.shiftr (pic_mask c) 8) 0xFF))
    (x86_outb PIC1_DATA (u8 (Z.land (pic_mask c) 0xFF)) c).

Definition pic_refresh_cascade_mask (c : chip) : chip :=
  if negb (Z.land (pic_mask c) 0xFF00 =? 0xFF00)
  then mk_chip (Z.land (pic_mask c) (u16 (Z.lnot (Z.shiftl 1 2)))) (ports c)
  else mk_chip (Z.lor (pic_mask c) (u16 (Z.shiftl 1 2))) (ports c).

Definition pic_set_mask (irq : Z) (masked : bool) (c : chip) : chip :=
  if 16 <=? irq then c else
  let c := mk_chip (if masked then Z.lor (pic_mask c) (u16 (Z.shiftl 1 irq))
                    else Z.land (pic_mask c) (u16 (Z.lnot (Z.shiftl 1 irq)))) (ports c) in
  let c := if 8 <=? irq then pic_refresh_cascade_mask c else c in
  pic_write_mask c.

Definition pic_command (port value : Z) (c : chip) : chip := x86_io_wait (x86_outb port value c).

Definition pic_init (c : chip) : chip :=
  let c := pic_command PIC1_COMMAND 0x11 c in
  let c := pic_command PIC2_COMMAND 0x11 c in
  let c := pic_command PIC1_DATA PIC_BASE_VECTOR c in
  let c := pic_command PIC2_DATA (PIC_BASE_VECTOR + 8) c in
  let c := pic_command PIC1_DATA 0x04 c in
  let c := pic_command PIC2_DATA 0x02 c in
  let c := pic_command PIC1_DATA 0x01 c in
  let c := pic_command PIC2_DATA 0x01 c in
  pic_write_mask (mk_chip 0xFFFF (ports c)).

Definition pic_enable_irq (irq : Z) : chip -> chip := pic_set_mask irq false.
Definition pic_disable_irq (irq : Z) : chip -> chip := pic_set_mask irq true.

Definition pic_acknowledge (irq : Z) (c : chip) : chip :=
  x86_outb PIC1_COMMAND PIC_EOI (if 8 <=? irq then x86_outb PIC2_COMMAND PIC_EOI c else c).

Definition pic_vector_for_irq (irq : Z) : Z := u8 (PIC_BASE_VECTOR + irq).

Definition pic_irq_for_vector (vector : Z) : option Z :=
  if (vector <? PIC_BASE_VECTOR) || (PIC_BASE_VECTOR + 16 <=? vector) then None
  else Some (u8 (vector - PIC_BASE_VECTOR)).

(** ** Controllers and handlers *)

Record irq_controller := mk_controller {
  ctl_name : option string;
  ctl_init : option (chip -> chip);
  ctl_enable : option (Z -> chip -> chip);
  ctl_disable : option (Z -> chip -> chip);
  ctl_acknowledge : option (Z -> chip -> chip);
  vector_for_irq : option (Z -> Z);
  irq_for_vector : option (Z -> option Z)
}.

Definition i386_pic_irq_controller : irq_controller :=
  mk_controller (Some "8259 PIC"%string) (Some pic_init) (Some pic_enable_irq) (Some pic_disable_irq)
    (Some pic_acknowledge) (Some pic_vector_for_irq) (Some pic_irq_for_vector).

Record idt_entry := mk_gate { offset_low : Z; selector : Z; gate_zero : Z; gate_flags : Z; offset_high : Z }.

Definition exception_names : list string :=
  ["divide error"; "debug"; "non-maskable interrupt"; "breakpoint";
   "overflow"; "bound range exceeded"; "invalid opcode"; "device not available";
   "double fault"; "coprocessor segment overrun"; "invalid TSS"; "segment not present";
   "stack-segment fault"; "general protection fault"; "page fault"; "reserved";
   "x87 floating-point exception"; "alignment check"; "machine check"; "SIMD floating-point exception";
   "virtualization exception"; "control protection exception"]%string.

Section Machine.
Context {W : Type}.

Definition interrupt_handler : Type := interrupt_frame -> W -> interrupt_frame * W.

Record machine := mk_machine {
  m_chip : chip;
  active_controller : option irq_controller;
  handlers : list (option interrupt_handler);
  idt : list idt_entry;
  idt_size : Z;
  idt_loads : nat;
  current_frequency_hz : Z;
  drivers : W;
  panic_call : option (string * list panic_arg)
}.

Definition set_chip (c : chip) (s : machine) : machine :=
  mk_machine c (active_controller s) (handlers s) (idt s) (idt_size s) (idt_loads s) (current_frequency_hz s) (drivers s) (panic_call s).
Definition set_controller (c : option irq_controller) (s : machine) : machine :=
  mk_machine (m_chip s) c (handlers s) (idt s) (idt_size s) (idt_loads s) (current_frequency_hz s) (drivers s) (panic_call s).
Definition set_handlers (h : list (option interrupt_handler)) (s : machine) : machine :=
  mk_machine (m_chip s) (active_controller s) h (idt s) (idt_size s) (idt_loads s) (current_frequency_hz s) (drivers s) (panic_call s).
Definition set_idt (l : list idt_entry) (s : machine) : machine :=
  mk_machine (m_chip s) (active_controller s) (handlers s) l (idt_size s) (idt_loads s) (current_frequency_hz s) (drivers s) (panic_call s).
Definition set_idt_size (n : Z) (s : machine) : machine :=
  mk_machine (m_chip s) (active_controller s) (handlers s) (idt s) n (idt_loads s) (current_frequency_hz s) (drivers s) (panic_call s).
Definition set_frequency (f : Z) (s : machine) : machine :=
  mk_machine (m_chip s) (active_controller s) (handlers s) (idt s) (idt_size s) (idt_loads s) f (drivers s) (panic_call s).
Definition set_drivers (w : W) (s : machine) : machine :=
  mk_machine (m_chip s) (active_controller s) (handlers s) (idt s) (idt_size s) (idt_loads s) (current_frequency_hz s) w (panic_call s).

Definition set_panic_call (c : option (string * list panic_arg)) (s : machine) : machine :=
  mk_machine (m_chip s) (active_controller s) (handlers s) (idt s) (idt_size s) (idt_loads s) (current_frequency_hz s) (drivers s) c.

(** [panic(format, ...)]: the machine remembers what it was called with. *)
Definition panic_with {A} (format : string) (args : list panic_arg) : M machine A :=
  modify (set_panic_call (Some (format, args))) ;;; panic format.

Definition on_chip (f : chip -> chip) : M machine unit := modify (fun s => set_chip (f (m_chip s)) s).

(** *** kernel/irq.c *)

Definition irq_controller_register (controller : option irq_controller) : M machine unit :=
  modify (set_controller controller).

Definition irq_controller_initialize : M machine bool :=
  ctl <- gets active_controller ;;
  match ctl with
  | None => ret false
  | Some c => match ctl_init c with Some init => on_chip init | None => ret tt end ;;; ret true
  end.

Definition irq_controller_name : M machine string :=
  ctl <- gets active_controller ;;
  ret (match ctl with
       | None => "unregistered"%string
       | Some c => default "unregistered"%string (ctl_name c)
       end).

Definition register_interrupt_handler (vector : Z) (handler : option interrupt_handler) : M machine unit :=
  modify (fun s => set_handlers (<[Z.to_nat (u8 vector) := handler]> (handlers s)) s).

Definition irq_register_handler (irq : Z) (handler : option interrupt_handler) : M machine bool :=
  ctl <- gets active_controller ;;
  match ctl with
  | None => ret false
  | Some c =>
      match vector_for_irq c with
      | None => ret false
      | Some f => register_interrupt_handler (f irq) handler ;;; ret true
      end
  end.

Definition irq_enable (irq : Z) : M machine unit :=
  ctl <- gets active_controller ;;
  match ctl with
  | None => ret tt
  | Some c => match ctl_enable c with None => ret tt | Some f => on_chip (f irq) end
  end.

Definition irq_disable (irq : Z) : M machine unit :=
  ctl <- gets active_controller ;;
  match ctl with
  | None => ret tt
  | Some c => match ctl_disable c with None => ret tt | Some f => on_chip (f irq) end
  end.

Definition irq_vector_to_line (vector : Z) : M machine (option Z) :=
  ctl <- gets active_controller ;;
  match ctl with
  | None => ret None
  | Some c => match irq_for_vector c with None => ret None | Some f => ret (f vector) end
  end.

Definition irq_acknowledge_vector (vector : Z) : M machine unit :=
  line <- irq_vector_to_line vector ;;
  match line with
  | None => ret tt
  | Some irq =>
      ctl <- gets active_controller ;;
      match ctl with
      | None => fault
      | Some c => match ctl_acknowledge c with Some f => on_chip (f irq) | None => ret tt end
      end
  end.

(** *** arch/i386/interrupts.c *)

Definition idt_set_gate (vector handler flags : Z) : M machine unit :=
  modify (fun s => set_idt (<[Z.to_nat vector :=
    mk_gate (u16 (Z.land handler 0xFFFF)) GDT_SELECTOR_KERNEL_CODE 0 flags
            (u16 (Z.land (Z.shiftr handler 16) 0xFFFF))]> (idt s)) s).

Definition exception_name (vector : Z) : string :=
  if vector <? Z.of_nat (length exception_names) then default "unknown"%string (exception_names !! Z.to_nat vector)
  else "unknown"%string.

Definition text (s : string) : panic_arg := PString (Some (bytes_of s)).
Definition bit_text (err bit : Z) (yes no : string) : panic_arg :=
  text (if negb (Z.land err bit =? 0) then yes else no).

(** [cr2] is what [x86_read_cr2] returns. *)
Definition default_exception_handler (cr2 : Z) (frame : interrupt_frame) : M machine interrupt_frame :=
  let name := exception_name (f_vector frame) in
  if f_vector frame =? 14 then
    let err := f_error_code frame in
    panic_with "page fault at eip=%p addr=%p err=0x%x (%s, %s, %s, %s, %s)"
      [PWord (f_eip frame); PWord cr2; PWord err;
       bit_text err 0x1 "protection violation" "non-present page";
       bit_text err 0x2 "write" "read";
       bit_text err 0x4 "user" "supervisor";
       bit_text err 0x8 "reserved-bit set" "reserved bits clear";
       bit_text err 0x10 "instruction fetch" "data access"]
  else
    panic_with "cpu exception %u (%s) at eip=%p err=0x%x"
      [PWord (f_vector frame); text name; PWord (f_eip frame); PWord (f_error_code frame)].

Definition call_handler (h : interrupt_handler) (frame : interrupt_frame) : M machine interrupt_frame :=
  r <- gets (fun s => h frame (drivers s)) ;;
  modify (set_drivers (snd r)) ;;;
  ret (fst r).

Definition isr_dispatch (cr2 : Z) (frame : interrupt_frame) : M machine interrupt_frame :=
  hs <- gets handlers ;;
  handler <- of_option (hs !! Z.to_nat (f_vector frame)) ;;
  next_frame <- (match handler with
                 | Some h => call_handler h frame
                 | None => if f_vector frame <? 32 then default_exception_handler cr2 frame else ret frame
                 end) ;;
  irq_acknowledge_vector (u8 (f_vector frame)) ;;;
  ret next_frame.

(** [isr_stub_table] is the table of entry points of interrupts_asm.S. *)
Definition idt_init (isr_stub_table : list Z) : M machine unit :=
  for_each 0 (ISR_STUB_LAST_VECTOR + 1) (fun vector =>
    stub <- of_option (isr_stub_table !! Z.to_nat vector) ;; idt_set_gate (u8 vector) stub 0x8E) ;;;
  for_each (ISR_STUB_LAST_VECTOR + 1) IDT_ENTRIES (fun vector =>
    stub <- of_option (isr_stub_table !! Z.to_nat ISR_STUB_LAST_VECTOR) ;; idt_set_gate (u8 vector) stub 0x8E) ;;;
  modify (set_idt_size (8 * IDT_ENTRIES - 1)) ;;;
  ok <- irq_controller_initialize ;;
  if negb ok then panic "no IRQ controller registered" else
  modify (fun s => mk_machine (m_chip s) (active_controller s) (handlers s) (idt s) (idt_size s)
                     (S (idt_loads s)) (current_frequency_hz s) (drivers s) (panic_call s)).

Definition idt_load_current_cpu : M machine unit :=
  modify (fun s => mk_machine (m_chip s) (active_controller s) (handlers s) (idt s) (idt_size s)
                     (S (idt_loads s)) (current_frequency_hz s) (drivers s) (panic_call s)).

(** *** arch/i386/pit_timer.c *)

Definition pit_divisor (frequency_hz : Z) : Z := 1193182 / frequency_hz.

Definition pit_timer_init (frequency_hz : Z) (tick_handler : option interrupt_handler) : M machine bool :=
  match tick_handler with
  | None => ret false
  | Some h =>
      if frequency_hz =? 0 then ret false else
      ok <- irq_register_handler IRQ_LINE_TIMER (Some h) ;;
      if negb ok then ret false else
      let divisor := pit_divisor frequency_hz in
      on_chip (x86_outb 0x43 0x36) ;;;
      on_chip (x86_outb 0x40 (u8 (Z.land divisor 0xFF))) ;;;
      on_chip (x86_outb 0x40 (u8 (Z.land (Z.shiftr divisor 8) 0xFF))) ;;;
      irq_enable IRQ_LINE_TIMER ;;;
      modify (set_frequency frequency_hz) ;;;
      ret true
  end.

Definition pit_timer_frequency_hz : M machine Z := gets current_frequency_hz.

(** *** kernel/timer.c: the functions take the registered driver. *)

Record timer_driver := mk_timer {
  timer_name : option string;
  timer_init : option (Z -> option interrupt_handler -> M machine bool);
  timer_frequency : option (M machine Z)
}.

Definition i386_pit_timer_driver : timer_driver :=
  mk_timer (Some "8253/8254 PIT"%string) (Some pit_timer_init) (Some pit_timer_frequency_hz).

Definition timer_register_driver (driver : option timer_driver) (active_driver : option timer_driver) : option timer_driver :=
  driver.

Definition timer_initialize (active_driver : option timer_driver) (frequency_hz : Z) (tick_handler : option interrupt_handler)
    : M machine bool :=
  match active_driver with
  | None => ret false
  | Some d => match timer_init d with None => ret false | Some init => init frequency_hz tick_handler end
  end.

Definition timer_frequency_hz (active_driver : option timer_driver) : M machine Z :=
  match active_driver with
  | None => ret 0
  | Some d => match timer_frequency d with None => ret 0 | Some f => f end
  end.

Definition timer_driver_name (active_driver : option timer_driver) : string :=
  match active_driver with
  | None => "unregistered"%string
  | Some d => default "unregistered"%string (timer_name d)
  end.
End Machine.
Arguments machine : clear implicits.
Arguments interrupt_handler : clear implicits.
