(* ===== verification/IrqSpec.v ===== *)
(** Interrupts reach their handlers and are acknowledged; the PIC's mask is the set
    of enabled lines. *)
From S2P Require Import Prelude SchedData Console Panic Irq.
From Stdlib Require Import ZArith Lia.
Open Scope Z_scope.

(** ** Bits *)

Lemma pow2_fits k w : 0 <= k < w -> fits w (2 ^ k).
Proof. intros H. split; [apply Z.pow_nonneg; lia|apply Z.pow_lt_mono_r; lia]. Qed.

Lemma set_bit_spec m k i : 0 <= k < 16 -> 0 <= i ->
  Z.testbit (Z.lor m (u16 (Z.shiftl 1 k))) i = Z.testbit m i || (i =? k).
Proof.
  intros Hk Hi. rewrite Z.shiftl_1_l, wrap_small by (apply pow2_fits; lia).
  by rewrite Z.lor_spec, Z.pow2_bits_eqb, (Z.eqb_sym k) by lia.
Qed.

Lemma clear_bit_spec m k i : 0 <= k < 16 -> 0 <= i < 16 ->
  Z.testbit (Z.land m (u16 (Z.lnot (Z.shiftl 1 k)))) i = Z.testbit m i && negb (i =? k).
Proof.
  intros Hk Hi. unfold wrap. rewrite Z.land_spec, Z.mod_pow2_bits_low, Z.lnot_spec, Z.shiftl_1_l, Z.pow2_bits_eqb by lia.
  by rewrite (Z.eqb_sym k).
Qed.

Lemma lor_fits w a b : 0 <= w -> fits w a -> fits w b -> fits w (Z.lor a b).
Proof.
  intros Hw Ha Hb. assert (E : Z.lor a b = wrap w (Z.lor a b)); [|rewrite E; by apply wrap_fits].
  apply Z.bits_inj'. intros n Hn. unfold wrap. destruct (Z.lt_ge_cases n w).
  - by rewrite Z.mod_pow2_bits_low by lia.
  - by rewrite Z.mod_pow2_bits_high, Z.lor_spec, !(fits_bits_high w) by (done || lia).
Qed.

Lemma land_fits_l w a b : 0 <= w -> fits w a -> fits w (Z.land a b).
Proof.
  intros Hw Ha. assert (E : Z.land a b = wrap w (Z.land a b)); [|rewrite E; by apply wrap_fits].
  apply Z.bits_inj'. intros n Hn. unfold wrap. destruct (Z.lt_ge_cases n w).
  - by rewrite Z.mod_pow2_bits_low by lia.
  - by rewrite Z.mod_pow2_bits_high, Z.land_spec, (fits_bits_high w a) by (done || lia).
Qed.

Definition slave_lines : list Z := [8; 9; 10; 11; 12; 13; 14; 15].

Lemma slave_mask_spec m : (Z.land m 0xFF00 =? 0xFF00) = forallb (Z.testbit m) slave_lines.
Proof.
  assert (Hb : forall n, 0 <= n -> Z.testbit 0xFF00 n = (8 <=? n) && (n <? 16)).
  { intros n Hn. change 0xFF00 with (Z.shiftl (Z.ones 8) 8). rewrite Z.shiftl_spec by lia.
    destruct (Z.lt_ge_cases n 8); [rewrite Z.testbit_neg_r by lia; lia|]. rewrite Z.testbit_ones_nonneg by lia. lia. }
  apply Bool.eq_iff_eq_true. rewrite forallb_forall, Z.eqb_eq. split.
  - intros H i Hi. assert (Hr : 8 <= i < 16) by (simpl in Hi; lia).
    assert (Z.testbit (Z.land m 0xFF00) i = Z.testbit 0xFF00 i) as E by (by rewrite H).
    rewrite Z.land_spec, Hb in E by lia. replace ((8 <=? i) && (i <? 16)) with true in E by lia. by rewrite andb_true_r in E.
  - intros H. apply Z.bits_inj'. intros n Hn. rewrite Z.land_spec, Hb by done.
    destruct ((8 <=? n) && (n <? 16)) eqn:E; [|by rewrite andb_false_r]. rewrite H; [done|]. z_bools. simpl. lia.
Qed.

(** ** The PIC refines the set of enabled lines *)

(** A request: line, and whether it is to be masked. *)
Definition mask_op : Type := Z * bool.
Definition run_mask_op (c : chip) (op : mask_op) : chip := pic_set_mask op.1 op.2 c.

(** Line [i] is enabled: the last request that names it asked for it. *)
Definition enabled_step (e : Z -> bool) (op : mask_op) : Z -> bool :=
  fun i => if (i =? op.1) then negb op.2 else e i.
Definition enabled (ops : list mask_op) : Z -> bool := fold_left enabled_step ops (fun _ => false).

(** The last byte written to a port. *)
Fixpoint last_write (port : Z) (l : list (Z * Z)) : option Z :=
  match l with
  | [] => None
  | (p, v) :: l' => match last_write port l' with
                    | Some v' => Some v'
                    | None => if p =? port then Some v else None
                    end
  end.

Lemma last_write_app port l1 l2 :
  last_write port (l1 ++ l2) = match last_write port l2 with Some v => Some v | None => last_write port l1 end.
Proof.
  induction l1 as [|[p v] l1 IH]; simpl; [by destruct (last_write port l2)|]. rewrite IH. by destruct (last_write port l2).
Qed.

Record pic_rep (c : chip) (e : Z -> bool) : Prop := {
  rep_fits : fits 16 (pic_mask c);
  rep_lines : forall i, 0 <= i < 16 -> i <> 2 -> Z.testbit (pic_mask c) i = negb (e i);
  rep_cascade : Z.testbit (pic_mask c) 2 = negb (existsb e slave_lines);
  rep_master : last_write PIC1_DATA (ports c) = Some (pic_mask c mod 256);
  rep_slave : last_write PIC2_DATA (ports c) = Some (pic_mask c / 256)
}.

Lemma write_mask_ports c : fits 16 (pic_mask c) ->
  pic_mask (pic_write_mask c) = pic_mask c /\
  last_write PIC1_DATA (ports (pic_write_mask c)) = Some (pic_mask c mod 256) /\
  last_write PIC2_DATA (ports (pic_write_mask c)) = Some (pic_mask c / 256).
Proof.
  intros Hf. unfold fits in Hf. unfold pic_write_mask, x86_outb. cbn [pic_mask ports]. rewrite <- !app_assoc, !last_write_app. cbn.
  split; [done|]. change 255 with (Z.ones 8). rewrite !Z.land_ones by lia. unfold wrap. rewrite !Z.mod_mod by lia.
  split; [done|]. rewrite Z.shiftr_div_pow2 by lia. change (2 ^ 8) with 256. rewrite (Z.mod_small (pic_mask c / 256)); [done|].
  split; [apply Z.div_pos; lia|]. apply Z.div_lt_upper_bound; lia.
Qed.

Lemma forallb_negb_existsb (f e : Z -> bool) l :
  (forall i, i ∈ l -> f i = negb (e i)) -> forallb f l = negb (existsb e l).
Proof.
  induction l as [|i l IH]; intros H; [done|]. simpl. rewrite (H i), IH, negb_orb; [done| |left].
  intros j Hj. apply H. by right.
Qed.

(** A request for a line of the first chip, or none, leaves the second one alone. *)
Lemma existsb_slaves e irq masked : irq < 8 \/ 16 <= irq ->
  existsb (enabled_step e (irq, masked)) slave_lines = existsb e slave_lines.
Proof.
  intros H. cbn [existsb slave_lines]. unfold enabled_step. cbn [fst snd].
  by replace (8 =? irq) with false by lia; replace (9 =? irq) with false by lia; replace (10 =? irq) with false by lia;
    replace (11 =? irq) with false by lia; replace (12 =? irq) with false by lia; replace (13 =? irq) with false by lia;
    replace (14 =? irq) with false by lia; replace (15 =? irq) with false by lia.
Qed.

(** The mask after a request, before the cascade line is refreshed. *)
Lemma mask_bit c irq (masked : bool) i : 0 <= irq < 16 -> 0 <= i < 16 ->
  Z.testbit (if masked then Z.lor (pic_mask c) (u16 (Z.shiftl 1 irq)) else Z.land (pic_mask c) (u16 (Z.lnot (Z.shiftl 1 irq)))) i =
  if i =? irq then masked else Z.testbit (pic_mask c) i.
Proof.
  intros Hirq Hi. destruct masked; [rewrite set_bit_spec by lia|rewrite clear_bit_spec by lia];
    destruct (i =? irq); rewrite ?orb_true_r, ?orb_false_r, ?andb_true_r, ?andb_false_r; done.
Qed.

Lemma refresh_bit c i : 0 <= i < 16 ->
  Z.testbit (pic_mask (pic_refresh_cascade_mask c)) i =
  if i =? 2 then forallb (Z.testbit (pic_mask c)) slave_lines else Z.testbit (pic_mask c) i.
Proof.
  intros Hi. unfold pic_refresh_cascade_mask. rewrite slave_mask_spec. destruct (forallb _ slave_lines); cbn [negb pic_mask].
  - rewrite set_bit_spec by lia. destruct (i =? 2); [apply orb_true_r|apply orb_false_r].
  - rewrite clear_bit_spec by lia. destruct (i =? 2); [apply andb_false_r|apply andb_true_r].
Qed.

Lemma set_mask_rep c e irq masked : 0 <= irq < 256 -> irq <> 2 ->
  pic_rep c e -> pic_rep (pic_set_mask irq masked c) (enabled_step e (irq, masked)).
Proof.
  intros Hirq Hne Hrep. unfold pic_set_mask. destruct (Z.leb_spec 16 irq).
  { destruct Hrep. split; try done.
    - intros i Hi H2. unfold enabled_step. simpl. replace (i =? irq) with false by lia. by apply rep_lines0.
    - rewrite rep_cascade0, existsb_slaves; [done|lia]. }
  set (c1 := mk_chip _ (ports c)). set (c2 := if 8 <=? irq then _ else c1).
  assert (Hf1 : fits 16 (pic_mask c1)).
  { destruct Hrep. destruct masked; [apply lor_fits; [lia|done|by apply wrap_fits]|apply land_fits_l; [lia|done]]. }
  assert (Hb1 : forall i, 0 <= i < 16 -> Z.testbit (pic_mask c1) i = if i =? irq then masked else Z.testbit (pic_mask c) i)
    by (intros i Hi; apply mask_bit; lia).
  assert (Hl1 : forall i, 0 <= i < 16 -> i <> 2 -> Z.testbit (pic_mask c1) i = negb (enabled_step e (irq, masked) i)).
  { intros i Hi H2. rewrite Hb1 by done. unfold enabled_step. cbn [fst snd]. destruct (i =? irq); [by rewrite negb_involutive|].
    by apply Hrep. }
  assert (Hslave : forallb (Z.testbit (pic_mask c1)) slave_lines = negb (existsb (enabled_step e (irq, masked)) slave_lines)).
  { apply forallb_negb_existsb. intros i Hi. apply list_elem_of_In in Hi. simpl in Hi. apply Hl1; lia. }
  assert (H2 : fits 16 (pic_mask c2) /\ forall i, 0 <= i < 16 -> Z.testbit (pic_mask c2) i =
    if i =? 2 then negb (existsb (enabled_step e (irq, masked)) slave_lines) else Z.testbit (pic_mask c1) i).
  { subst c2. destruct (Z.leb_spec 8 irq).
    - split.
      + unfold pic_refresh_cascade_mask. destruct (negb (Z.land (pic_mask c1) 65280 =? 65280)); cbn [pic_mask]; [apply land_fits_l; [lia|done]|apply lor_fits; [lia|done|by apply wrap_fits]].
      + intros i Hi. rewrite refresh_bit by done. by rewrite Hslave.
    - split; [done|]. intros i Hi. destruct (Z.eqb_spec i 2) as [->|]; [|done]. rewrite Hb1 by lia. replace (2 =? irq) with false by lia.
      by rewrite (rep_cascade _ _ Hrep), existsb_slaves by lia. }
  destruct H2 as [Hf2 Hb2]. destruct (write_mask_ports c2 Hf2) as (Em & Hp1 & Hp2). rewrite <- Em in Hp1, Hp2.
  split; try done; rewrite ?Em.
  - intros i Hi Hi2. rewrite Hb2 by done. replace (i =? 2) with false by lia. by apply Hl1.
  - by rewrite Hb2 by lia.
Qed.

Lemma pic_init_rep c : pic_rep (pic_init c) (fun _ => false).
Proof.
  unfold pic_init. match goal with |- pic_rep (pic_write_mask ?x) _ => destruct (write_mask_ports x) as (Em & H1 & H2); [cbn; unfold fits; lia|] end.
  rewrite <- Em in H1, H2. split; try done.
  intros i Hi _. assert (Hc : i = 0 \/ i = 1 \/ i = 2 \/ i = 3 \/ i = 4 \/ i = 5 \/ i = 6 \/ i = 7 \/ i = 8 \/ i = 9 \/ i = 10 \/ i = 11 \/
    i = 12 \/ i = 13 \/ i = 14 \/ i = 15) by lia.
  repeat destruct Hc as [->|Hc]; subst; done.
Qed.

(** C29: after [pic_init] and any sequence of enable and disable requests for lines
    other than the cascade line, the PIC's mask represents the set of enabled lines:
    line [i] is unmasked exactly when the last request that names it enabled it, the
    cascade line (2) is unmasked exactly when some line of the second chip is, and
    both chips' mask registers were last written with the two halves of the mask. *)
Theorem pic_mask_refines c (ops : list mask_op) :
  Forall (fun op => 0 <= op.1 < 256 /\ op.1 <> 2) ops ->
  pic_rep (fold_left run_mask_op ops (pic_init c)) (enabled ops).
Proof.
  intros Hops. unfold enabled. pose proof (pic_init_rep c) as Hrep. revert Hrep. generalize (pic_init c) as c0.
  generalize (fun _ : Z => false) as e. induction Hops as [|[irq masked] ops [H1 H2] _ IH]; intros e c0 Hrep; [done|].
  apply IH. by apply set_mask_rep.
Qed.

Lemma pic_mask_refines_witness :
  pic_rep (fold_left run_mask_op [(0, false); (12, false); (1, false); (12, true)] (pic_init (mk_chip 0 [])))
    (enabled [(0, false); (12, false); (1, false); (12, true)]).
Proof. apply pic_mask_refines. repeat constructor; simpl; lia. Defined.

(** ** Dispatch *)

(** The end-of-interrupt commands for a line: the second chip first. *)
Definition eoi (irq : Z) : list (Z * Z) :=
  (if 8 <=? irq then [(PIC2_COMMAND, PIC_EOI)] else []) ++ [(PIC1_COMMAND, PIC_EOI)].

(** What is written to the ports for a vector. *)
Definition eoi_for_vector (v : Z) : list (Z * Z) := if (32 <=? v) && (v <? 48) then eoi (v - 32) else [].

Section Dispatch.
Context {W : Type}.
Implicit Types (s : machine W) (h : interrupt_handler W).

(** [s] after the ports received [l] and the drivers became [w]. *)
Definition after s (w : W) (l : list (Z * Z)) : machine W :=
  set_chip (mk_chip (pic_mask (m_chip s)) (ports (m_chip s) ++ l)) (set_drivers w s).

Lemma after_same s : after s (drivers s) [] = s.
Proof. unfold after. rewrite app_nil_r. destruct s as [[] ? ? ? ? ? ? ? ?]. done. Qed.

Lemma acknowledge_run s v : fits 8 v -> active_controller s = Some i386_pic_irq_controller ->
  irq_acknowledge_vector v s = Done tt (after s (drivers s) (eoi_for_vector v)).
Proof.
  intros Hv Hc. unfold irq_acknowledge_vector, irq_vector_to_line. run. rewrite Hc. cbn [irq_for_vector i386_pic_irq_controller]. run.
  unfold pic_irq_for_vector, eoi_for_vector, PIC_BASE_VECTOR, fits in *.
  destruct ((v <? 32) || (32 + 16 <=? v)) eqn:E.
  - replace ((32 <=? v) && (v <? 48)) with false by lia. cbn. by rewrite after_same.
  - replace ((32 <=? v) && (v <? 48)) with true by lia. run. rewrite Hc. cbn [ctl_acknowledge i386_pic_irq_controller].
    rewrite (wrap_small 8 (v - 32)) by (unfold fits; lia). unfold on_chip, modify, after, pic_acknowledge, eoi, x86_outb.
    destruct (8 <=? v - 32); cbn [pic_mask ports]; rewrite <- ?app_assoc; by destruct s.
Qed.

(** The names of the processor's exceptions. *)
Definition exception_called (v : Z) : string :=
  match v with
  | 0 => "divide error" | 1 => "debug" | 2 => "non-maskable interrupt" | 3 => "breakpoint"
  | 4 => "overflow" | 5 => "bound range exceeded" | 6 => "invalid opcode" | 7 => "device not available"
  | 8 => "double fault" | 9 => "coprocessor segment overrun" | 10 => "invalid TSS" | 11 => "segment not present"
  | 12 => "stack-segment fault" | 13 => "general protection fault" | 14 => "page fault"
  | 15 => "reserved" | 16 => "x87 floating-point exception" | 17 => "alignment check" | 18 => "machine check"
  | 19 => "SIMD floating-point exception" | 20 => "virtualization exception" | 21 => "control protection exception"
  | _ => "unknown"
  end%string.

(** What is reported of an exception: for a page fault (vector 14) the instruction,
    the address that faulted, the error code and what its bits 0 to 4 mean; for the
    others the vector, its name, the instruction and the error code. *)
Definition told (s : string) : panic_arg := PString (Some (bytes_of s)).
Definition bit_told (err k : Z) (set clear : string) : panic_arg := told (if Z.testbit err k then set else clear).
Definition exception_told (cr2 : Z) (frame : interrupt_frame) : string * list panic_arg :=
  if decide (f_vector frame = 14) then
    ("page fault at eip=%p addr=%p err=0x%x (%s, %s, %s, %s, %s)"%string,
     [PWord (f_eip frame); PWord cr2; PWord (f_error_code frame);
      bit_told (f_error_code frame) 0 "protection violation" "non-present page";
      bit_told (f_error_code frame) 1 "write" "read";
      bit_told (f_error_code frame) 2 "user" "supervisor";
      bit_told (f_error_code frame) 3 "reserved-bit set" "reserved bits clear";
      bit_told (f_error_code frame) 4 "instruction fetch" "data access"])
  else
    ("cpu exception %u (%s) at eip=%p err=0x%x"%string,
     [PWord (f_vector frame); told (exception_called (f_vector frame)); PWord (f_eip frame); PWord (f_error_code frame)]).

Lemma exception_names_right v : 0 <= v < 32 -> exception_name v = exception_called v.
Proof.
  intros Hv. assert (H : Forall (fun v => exception_name v = exception_called v) (seqZ 0 32)) by (repeat constructor).
  rewrite Forall_forall in H. apply H, list_elem_of_In, elem_of_seqZ. lia.
Qed.

Lemma bit_text_told err k yes no : 0 <= k -> bit_text err (Z.shiftl 1 k) yes no = bit_told err k yes no.
Proof. intros Hk. unfold bit_text. by rewrite land_pow2_testbit. Qed.

Lemma exception_run s cr2 frame :
  0 <= f_vector frame < 32 ->
  default_exception_handler cr2 frame s =
    Panic (exception_told cr2 frame).1 (set_panic_call (Some (exception_told cr2 frame)) s).
Proof.
  intros Hv. unfold default_exception_handler, exception_told, panic_with. destruct (Z.eqb_spec (f_vector frame) 14) as [E|E].
  - rewrite decide_True by done. rewrite <- !bit_text_told by lia. reflexivity.
  - rewrite decide_False by done. unfold told. rewrite <- exception_names_right by done. reflexivity.
Qed.

(** The result of dispatching a vector. *)
Definition dispatched s (cr2 : Z) (frame : interrupt_frame) (o : option (interrupt_handler W)) : outcome (machine W) interrupt_frame :=
  let v := f_vector frame in
  match o with
  | Some h => Done (fst (h frame (drivers s))) (after s (snd (h frame (drivers s))) (eoi_for_vector v))
  | None =>
      if v <? 32 then Panic (exception_told cr2 frame).1 (set_panic_call (Some (exception_told cr2 frame)) s)
      else Done frame (after s (drivers s) (eoi_for_vector v))
  end.

Lemma dispatch_run s cr2 frame o :
  fits 8 (f_vector frame) -> active_controller s = Some i386_pic_irq_controller ->
  handlers s !! Z.to_nat (f_vector frame) = Some o ->
  isr_dispatch cr2 frame s = dispatched s cr2 frame o.
Proof.
  intros Hv Hc Hh. unfold isr_dispatch. run. rewrite Hh. cbn [of_option]. run. rewrite (wrap_small 8) by done. unfold dispatched.
  destruct o as [h|].
  - unfold call_handler. run. set (s1 := set_drivers _ s).
    rewrite (run_bind_done _ _ _ _ _ (acknowledge_run s1 (f_vector frame) Hv Hc)). done.
  - destruct (Z.ltb_spec (f_vector frame) 32); [unfold bind; by rewrite exception_run by (unfold fits in Hv; lia)|]. run. rewrite (run_bind_done _ _ _ _ _ (acknowledge_run s (f_vector frame) Hv Hc)). done.
Qed.
End Dispatch.

(** C22: with the PIC as controller, [isr_dispatch] on any of the 256 vectors calls
    the registered handler once and returns its frame; an exception without handler
    panics with a report that names it (for a page fault the faulting address and
    the meaning of the error bits, otherwise the vector and its name, with the
    instruction and the error code), any other vector without handler returns the frame
    unchanged; afterwards, and only for the vectors 32 to 47 of the PIC, the line is
    acknowledged: the second chip first when it is one of its lines, then the first. *)
Theorem isr_dispatch_correct {W} (s : machine W) cr2 frame :
  fits 8 (f_vector frame) -> length (handlers s) = 256%nat -> active_controller s = Some i386_pic_irq_controller ->
  exists o, handlers s !! Z.to_nat (f_vector frame) = Some o /\ isr_dispatch cr2 frame s = dispatched s cr2 frame o.
Proof.
  intros Hv Hl Hc. destruct (lookup_lt_is_Some_2 (handlers s) (Z.to_nat (f_vector frame))) as [o Ho]; [rewrite Hl; word_lia|].
  exists o. split; [done|]. by apply dispatch_run.
Qed.

(** A handler registered for an interrupt line receives exactly that line's
    interrupts: after [irq_register_handler irq h] for one of the 16 lines,
    dispatching the vector of the line runs [h] and acknowledges the line, and every
    other vector is dispatched as before. *)
Theorem irq_delivery_correct {W} (s : machine W) irq h cr2 frame :
  0 <= irq < 16 -> fits 8 (f_vector frame) -> length (handlers s) = 256%nat ->
  active_controller s = Some i386_pic_irq_controller ->
  exists s', irq_register_handler irq (Some h) s = Done true s' /\
    drivers s' = drivers s /\ m_chip s' = m_chip s /\
    (f_vector frame = 32 + irq ->
     isr_dispatch cr2 frame s' =
     Done (fst (h frame (drivers s))) (after s' (snd (h frame (drivers s))) (eoi irq))) /\
    (f_vector frame <> 32 + irq ->
     handlers s' !! Z.to_nat (f_vector frame) = handlers s !! Z.to_nat (f_vector frame)).
Proof.
  intros Hirq Hv Hl Hc. unfold irq_register_handler. run. rewrite Hc. cbn [vector_for_irq i386_pic_irq_controller].
  unfold register_interrupt_handler. run. unfold pic_vector_for_irq, PIC_BASE_VECTOR.
  rewrite (wrap_small 8 (32 + irq)) by word_lia. rewrite (wrap_small 8) by word_lia.
  eexists. split; [reflexivity|]. split_and!; [done|done| |].
  - intros E. rewrite (dispatch_run _ cr2 frame (Some h)); [|done|done|].
    + unfold dispatched. cbn [drivers set_handlers]. do 2 f_equal. unfold eoi_for_vector. rewrite E.
      replace ((32 <=? 32 + irq) && (32 + irq <? 48)) with true by lia. f_equal. lia.
    + cbn [handlers set_handlers]. rewrite E. apply list_lookup_insert_eq. lia.
  - intros Hne. cbn [handlers set_handlers]. unfold fits in Hv. rewrite list_lookup_insert_ne by lia. done.
Qed.

(** ** The interrupt descriptor table *)

Definition gate_offset (g : idt_entry) : Z := offset_low g + 65536 * offset_high g.

Lemma gate_roundtrip handler flags :
  fits 32 handler ->
  gate_offset (mk_gate (u16 (Z.land handler 0xFFFF)) GDT_SELECTOR_KERNEL_CODE 0 flags (u16 (Z.land (Z.shiftr handler 16) 0xFFFF))) = handler.
Proof.
  intros Hf. unfold gate_offset, fits, wrap in *. cbn [offset_low offset_high]. change 65535 with (Z.ones 16).
  rewrite !Z.land_ones, !Z.mod_mod, Z.shiftr_div_pow2 by lia. change (2 ^ 16) with 65536.
  rewrite (Z.mod_small (handler / 65536)); [pose proof (Z.div_mod handler 65536); lia|].
  split; [apply Z.div_pos; lia|]. apply Z.div_lt_upper_bound; lia.
Qed.

(** The entry [idt_init] installs at [v]. *)
Definition stub_for (isr_stub_table : list Z) (v : Z) : Z :=
  nth (Z.to_nat (Z.min v ISR_STUB_LAST_VECTOR)) isr_stub_table 0.

Definition gates_upto {W} (isr_stub_table : list Z) (n : Z) (s0 s : machine W) : Prop :=
  s = set_idt (idt s) s0 /\ length (idt s) = 256%nat /\
  forall v, 0 <= v < n -> exists g, idt s !! Z.to_nat v = Some g /\
    gate_offset g = stub_for isr_stub_table v /\ selector g = GDT_SELECTOR_KERNEL_CODE /\ gate_flags g = 0x8E.

Lemma set_gate_upto {W} table (s0 : machine W) s n stub (k : nat) :
  gates_upto table n s0 s -> 0 <= n < 256 -> table !! k = Some stub -> fits 32 stub -> stub = stub_for table n ->
  wp (x <- of_option (table !! k) ;; idt_set_gate (u8 n) x 0x8E) (fun _ => gates_upto table (n + 1) s0) s.
Proof.
  intros (Hs & Hl & Hg) Hn Hk Hf Hst. wp_step. eapply wp_of_option; [exact Hk|]. cbv beta. unfold idt_set_gate. apply wp_modify.
  rewrite (wrap_small 8 n) by word_lia. split_and!.
  - rewrite Hs. done.
  - cbn. by rewrite length_insert.
  - intros v Hv. cbn [idt set_idt]. destruct (Z.eq_dec v n) as [->|Hne].
    + rewrite list_lookup_insert_eq by lia. eexists. split; [done|]. rewrite gate_roundtrip by done. done.
    + rewrite list_lookup_insert_ne by lia. apply Hg. lia.
Qed.

(** [idt_init] fills all 256 gates: vectors up to 50 with their own stub, every
    later one with the stub of vector 50, as kernel-code interrupt gates whose two
    halves recombine to the stub's address; it then initialises the controller and
    loads the table. *)
Theorem idt_init_correct {W} (s : machine W) table :
  length (idt s) = 256%nat -> length table = 51%nat -> Forall (fits 32) table ->
  active_controller s = Some i386_pic_irq_controller ->
  wp (idt_init table) (fun _ s' =>
    (forall v, 0 <= v < 256 -> exists g, idt s' !! Z.to_nat v = Some g /\
       gate_offset g = stub_for table v /\ selector g = GDT_SELECTOR_KERNEL_CODE /\ gate_flags g = 0x8E) /\
    idt_size s' = 2047 /\ idt_loads s' = S (idt_loads s) /\ pic_mask (m_chip s') = 0xFFFF /\ handlers s' = handlers s /\
    active_controller s' = active_controller s /\ drivers s' = drivers s) s.
Proof.
  intros Hl Ht Hf Hc. unfold idt_init, ISR_STUB_LAST_VECTOR, IDT_ENTRIES.
  assert (Hstub : forall k, (k < 51)%nat -> exists x, table !! k = Some x /\ fits 32 x /\ x = nth k table 0).
  { intros k Hk. destruct (lookup_lt_is_Some_2 table k) as [x Hx]; [lia|]. exists x. split_and!; [done|by eapply Forall_lookup_1|].
    symmetry. by apply nth_lookup_Some. }
  wp_step. apply (wp_for_each _ _ _ (fun n => gates_upto table n s)); [lia|split_and!; [by destruct s|done|intros v Hv; lia]| |].
  { intros n s1 Hn Hg. destruct (Hstub (Z.to_nat n)) as (x & Hx & Hfx & Hnx); [lia|].
    eapply set_gate_upto; [done|lia|exact Hx|done|]. unfold stub_for, ISR_STUB_LAST_VECTOR. by rewrite Z.min_l by lia. }
  intros s1 Hg1. wp_step. apply (wp_for_each _ _ _ (fun n => gates_upto table n s)); [lia|done| |].
  { intros n s2 Hn Hg. destruct (Hstub 50%nat) as (x & Hx & Hfx & Hnx); [lia|].
    eapply set_gate_upto; [done|lia|exact Hx|done|]. unfold stub_for, ISR_STUB_LAST_VECTOR. by rewrite Z.min_r by lia. }
  intros s2 (Hs2 & Hl2 & Hg2). do 2 wp_step. wp_step. unfold irq_controller_initialize. do 2 wp_step.
  assert (Hc2 : active_controller (set_idt_size (8 * 256 - 1) s2) = Some i386_pic_irq_controller) by (by rewrite Hs2).
  rewrite Hc2. cbn [ctl_init i386_pic_irq_controller]. unfold on_chip. do 3 wp_step. cbn [negb]. apply wp_modify.
  split_and!; [exact Hg2|done|by rewrite Hs2|done|by rewrite Hs2..].
Qed.

(** ** The timer *)

(** The divisor the PIT is given: the two bytes written to its data port. *)
Definition programmed_divisor (frequency_hz : Z) : Z :=
  u8 (Z.land (pit_divisor frequency_hz) 0xFF) + 256 * u8 (Z.land (Z.shiftr (pit_divisor frequency_hz) 8) 0xFF).

Lemma programmed_mod f : programmed_divisor f = pit_divisor f mod 65536.
Proof.
  unfold programmed_divisor, wrap. change 255 with (Z.ones 8). rewrite !Z.land_ones, !Z.mod_mod, Z.shiftr_div_pow2 by lia.
  apply (digits_join 8 8); lia.
Qed.

(** Between 19 Hz and the PIT's input frequency the chip gets the divisor the
    driver computed; below 19 Hz its high bits are lost. *)
Theorem pit_divisor_fits f : 0 < f -> (programmed_divisor f = pit_divisor f <-> 19 <= f).
Proof.
  intros Hf. rewrite programmed_mod. unfold pit_divisor. split.
  - intros H. destruct (Z.lt_ge_cases f 19); [exfalso|lia]. pose proof (Z.mod_pos_bound (1193182 / f) 65536).
    assert (1193182 / 18 <= 1193182 / f) by (apply Z.div_le_compat_l; lia). change (1193182 / 18) with 66287 in *. lia.
  - intros H. apply Z.mod_small. split; [apply Z.div_pos; lia|]. apply Z.div_lt_upper_bound; lia.
Qed.

Lemma pit_divisor_fits_witness : programmed_divisor 100 = pit_divisor 100 <-> 19 <= 100.
Proof. apply pit_divisor_fits. lia. Defined.

(** A machine with the PIC registered and nothing else. *)
Definition sample_machine : machine nat :=
  mk_machine (mk_chip 0xFFFF []) (Some i386_pic_irq_controller) (replicate 256 None)
    (replicate 256 (mk_gate 0 0 0 0 0)) 0 0 0 0%nat None.
Definition sample_frame (v : Z) : interrupt_frame := mk_frame 0 0 0 0 0 0 0 0 v 0 0x1000 8 0x202.

Lemma isr_dispatch_correct_witness :
  (exists o, handlers sample_machine !! Z.to_nat (f_vector (sample_frame 44)) = Some o /\
    isr_dispatch 0 (sample_frame 44) sample_machine = dispatched sample_machine 0 (sample_frame 44) o) /\
  exists o, handlers sample_machine !! Z.to_nat (f_vector (sample_frame 14)) = Some o /\
    isr_dispatch 0xB0000000 (sample_frame 14) sample_machine = dispatched sample_machine 0xB0000000 (sample_frame 14) o.
Proof. split; (apply isr_dispatch_correct; [unfold fits; cbn; lia|reflexivity|reflexivity]). Defined.

Lemma irq_delivery_correct_witness :
  exists s', irq_register_handler 0 (Some (fun f w => (f, S w))) sample_machine = Done true s' /\
    drivers s' = drivers sample_machine /\ m_chip s' = m_chip sample_machine /\
    (f_vector (sample_frame 32) = 32 + 0 ->
     isr_dispatch 0 (sample_frame 32) s' = Done (sample_frame 32) (after s' 1%nat (eoi 0))) /\
    (f_vector (sample_frame 32) <> 32 + 0 ->
     handlers s' !! Z.to_nat (f_vector (sample_frame 32)) = handlers sample_machine !! Z.to_nat (f_vector (sample_frame 32))).
Proof.
  apply (irq_delivery_correct sample_machine 0 (fun f w => (f, S w)) 0 (sample_frame 32));
    [lia|unfold fits; cbn; lia|reflexivity|reflexivity].
Defined.

Lemma idt_init_correct_witness :
  wp (idt_init (replicate 51 0x100000)) (fun _ s' =>
    (forall v, 0 <= v < 256 -> exists g, idt s' !! Z.to_nat v = Some g /\
       gate_offset g = stub_for (replicate 51 0x100000) v /\ selector g = GDT_SELECTOR_KERNEL_CODE /\ gate_flags g = 0x8E) /\
    idt_size s' = 2047 /\ idt_loads s' = S (idt_loads sample_machine) /\ pic_mask (m_chip s') = 0xFFFF /\
    handlers s' = handlers sample_machine /\ active_controller s' = active_controller sample_machine /\
    drivers s' = drivers sample_machine) sample_machine.
Proof.
  apply idt_init_correct; [reflexivity|reflexivity|apply Forall_replicate; unfold fits; lia|reflexivity].
Defined.
