(* ===== verification/Keyboard.v ===== *)
(** The input registry and the PS/2 keyboard: kernel/input.c and
    arch/i386/ps2_keyboard.c.

    The bytes the keyboard controller delivers at port 0x60 are a parameter: the
    sequence [inb60] of the bytes successive reads return. *)
From S2P Require Import Prelude SchedData Console Panic Irq IrqSpec.
From Stdlib Require Import ZArith Lia.
Open Scope Z_scope.

Definition KEYBOARD_BUFFER_SIZE : Z := 256.

(** The tables are arrays of 128 characters, zero from the last one named. *)
Definition normal_map : list Z := resize 128 0
  ([0; 27] ++ bytes_of "1234567890-=" ++ [8; 9] ++
   bytes_of "qwertyuiop[]" ++ [10; 0] ++ bytes_of "as" ++
   bytes_of "dfghjkl;'`" ++ [0] ++ bytes_of "\zxcv" ++
   bytes_of "bnm,./" ++ [0; 42; 0; 32; 0]).

Definition shifted_map : list Z := resize 128 0
  ([0; 27] ++ bytes_of "!@#$%^&*()_+" ++ [8; 9] ++
   bytes_of "QWERTYUIOP{}" ++ [10; 0] ++ bytes_of "AS" ++
   bytes_of "DFGHJKL:" ++ [34] ++ bytes_of "~" ++ [0] ++ bytes_of "|ZXCV" ++
   bytes_of "BNM<>?" ++ [0; 42; 0; 32; 0]).

Record keyboard := mk_keyboard {
  buffer_head : Z;
  buffer_tail : Z;
  kb_buffer : list Z;
  shift_down : bool;
  caps_lock : bool;
  debugger_requested : bool;
  port_reads : nat
}.

Definition set_ring (head tail : Z) (buf : list Z) (k : keyboard) : keyboard :=
  mk_keyboard head tail buf (shift_down k) (caps_lock k) (debugger_requested k) (port_reads k).
Definition set_mods (shift caps debug : bool) (k : keyboard) : keyboard :=
  mk_keyboard (buffer_head k) (buffer_tail k) (kb_buffer k) shift caps debug (port_reads k).

Definition keyboard_push_char (c : Z) (k : keyboard) : keyboard :=
  let next := u32 (buffer_head k + 1) mod KEYBOARD_BUFFER_SIZE in
  if next =? buffer_tail k then k
  else set_ring next (buffer_tail k) (<[Z.to_nat (buffer_head k) := c]> (kb_buffer k)) k.

Definition translate_scancode (scancode : Z) (k : keyboard) : Z :=
  let c := nth (Z.to_nat scancode) (if shift_down k then shifted_map else normal_map) 0 in
  if (97 <=? c) && (c <=? 122) && caps_lock k then c - 97 + 65
  else if (65 <=? c) && (c <=? 90) && caps_lock k then c - 65 + 97
  else c.

(** The handler, on the scancode it read. *)
Definition keyboard_scancode (scancode : Z) (k : keyboard) : keyboard :=
  if (scancode =? 0x2A) || (scancode =? 0x36) then set_mods true (caps_lock k) (debugger_requested k) k
  else if (scancode =? 0xAA) || (scancode =? 0xB6) then set_mods false (caps_lock k) (debugger_requested k) k
  else if scancode =? 0x3A then set_mods (shift_down k) (negb (caps_lock k)) (debugger_requested k) k
  else if scancode =? 0x3B then set_mods (shift_down k) (caps_lock k) true k
  else if negb (Z.land scancode 0x80 =? 0) then k
  else if scancode <? Z.of_nat (length normal_map) then
    let c := translate_scancode scancode k in
    if negb (c =? 0) then keyboard_push_char c k else k
  else k.

Section Keyboard.
Context (inb60 : nat -> Z).

(** [x86_inb(0x60)] *)
Definition read_port (k : keyboard) : Z * keyboard :=
  (u8 (inb60 (port_reads k)),
   mk_keyboard (buffer_head k) (buffer_tail k) (kb_buffer k) (shift_down k) (caps_lock k) (debugger_requested k) (S (port_reads k))).

Definition ps2_keyboard_interrupt : interrupt_handler keyboard :=
  fun frame k => let '(scancode, k) := read_port k in (frame, keyboard_scancode scancode k).

Definition ps2_keyboard_init : M (machine keyboard) bool :=
  modify (fun s => set_drivers (mk_keyboard 0 0 (kb_buffer (drivers s)) false false false (port_reads (drivers s))) s) ;;;
  ok <- irq_register_handler IRQ_LINE_KEYBOARD (Some ps2_keyboard_interrupt) ;;
  if negb ok then ret false else
  irq_enable IRQ_LINE_KEYBOARD ;;;
  ret true.

(** The character read, or [None] for [false]. *)
Definition ps2_keyboard_read_char_nonblocking : M (machine keyboard) (option Z) :=
  k <- gets drivers ;;
  if buffer_tail k =? buffer_head k then ret None else
  c <- of_option (kb_buffer k !! Z.to_nat (buffer_tail k)) ;;
  modify (set_drivers (set_ring (buffer_head k) (u32 (buffer_tail k + 1) mod KEYBOARD_BUFFER_SIZE) (kb_buffer k) k)) ;;;
  ret (Some c).

Definition ps2_keyboard_debug_requested : M (machine keyboard) bool := gets (fun s => debugger_requested (drivers s)).

Definition ps2_keyboard_clear_debug_request : M (machine keyboard) unit :=
  modify (fun s => set_drivers (set_mods (shift_down (drivers s)) (caps_lock (drivers s)) false (drivers s)) s).

(** *** kernel/input.c: the functions take the registered driver. *)

Record input_driver := mk_input {
  input_name : option string;
  input_init : option (M (machine keyboard) bool);
  read_char_nonblocking : option (M (machine keyboard) (option Z));
  debug_requested : option (M (machine keyboard) bool);
  clear_debug_request : option (M (machine keyboard) unit)
}.

Definition i386_ps2_keyboard_driver : input_driver :=
  mk_input (Some "PS/2 keyboard"%string) (Some ps2_keyboard_init) (Some ps2_keyboard_read_char_nonblocking)
    (Some ps2_keyboard_debug_requested) (Some ps2_keyboard_clear_debug_request).

Definition input_register_driver (driver active_driver : option input_driver) : option input_driver := driver.

Definition input_initialize (active_driver : option input_driver) : M (machine keyboard) bool :=
  match active_driver with
  | None => ret false
  | Some d => match input_init d with Some init => init | None => ret true end
  end.

Definition input_read_char_nonblocking (active_driver : option input_driver) : M (machine keyboard) (option Z) :=
  match active_driver with
  | None => ret None
  | Some d => match read_char_nonblocking d with Some f => f | None => ret None end
  end.

Definition input_debug_requested (active_driver : option input_driver) : M (machine keyboard) bool :=
  match active_driver with
  | None => ret false
  | Some d => match debug_requested d with Some f => f | None => ret false end
  end.

Definition input_clear_debug_request (active_driver : option input_driver) : M (machine keyboard) unit :=
  match active_driver with
  | None => ret tt
  | Some d => match clear_debug_request d with Some f => f | None => ret tt end
  end.

Definition input_driver_name (active_driver : option input_driver) : string :=
  match active_driver with
  | None => "unregistered"%string
  | Some d => default "unregistered"%string (input_name d)
  end.

(** ** The keyboard refines a bounded queue of characters *)

(** The abstract keyboard: the characters typed and not yet read, at most 255. *)
Record typed := mk_typed { queue : list Z; t_shift : bool; t_caps : bool; t_debug : bool }.

Definition letter (upper : bool) (c : Z) : Z :=
  if (97 <=? c) && (c <=? 122) && upper then c - 32
  else if (65 <=? c) && (c <=? 90) && upper then c + 32 else c.

(** One key event. *)
Definition key (scancode : Z) (t : typed) : typed :=
  if bool_decide (scancode ∈ [0x2A; 0x36]) then mk_typed (queue t) true (t_caps t) (t_debug t)
  else if bool_decide (scancode ∈ [0xAA; 0xB6]) then mk_typed (queue t) false (t_caps t) (t_debug t)
  else if scancode =? 0x3A then mk_typed (queue t) (t_shift t) (negb (t_caps t)) (t_debug t)
  else if scancode =? 0x3B then mk_typed (queue t) (t_shift t) (t_caps t) true
  else if 128 <=? scancode then t
  else
    let c := letter (t_caps t) (nth (Z.to_nat scancode) (if t_shift t then shifted_map else normal_map) 0) in
    if (c =? 0) || (255 <=? Z.of_nat (length (queue t))) then t
    else mk_typed (queue t ++ [c]) (t_shift t) (t_caps t) (t_debug t).

Record kb_rep (k : keyboard) (t : typed) : Prop := {
  kr_head : 0 <= buffer_head k < 256;
  kr_tail : 0 <= buffer_tail k < 256;
  kr_buffer : length (kb_buffer k) = 256%nat;
  kr_length : Z.of_nat (length (queue t)) = (buffer_head k - buffer_tail k) mod 256;
  kr_queue : forall i c, queue t !! i = Some c -> kb_buffer k !! Z.to_nat ((buffer_tail k + Z.of_nat i) mod 256) = Some c;
  kr_shift : shift_down k = t_shift t;
  kr_caps : caps_lock k = t_caps t;
  kr_debug : debugger_requested k = t_debug t
}.

Lemma kr_bound k t : kb_rep k t -> Z.of_nat (length (queue t)) <= 255.
Proof. intros []. pose proof (Z.mod_pos_bound (buffer_head k - buffer_tail k) 256). lia. Qed.

Lemma set_mods_rep k t a b c : kb_rep k t -> kb_rep (set_mods a b c k) (mk_typed (queue t) a b c).
Proof. intros []. by split. Qed.

Lemma push_char_rep k t c : kb_rep k t ->
  kb_rep (keyboard_push_char c k)
    (if 255 <=? Z.of_nat (length (queue t)) then t else mk_typed (queue t ++ [c]) (t_shift t) (t_caps t) (t_debug t)).
Proof.
  intros Hrep. pose proof (kr_bound _ _ Hrep) as Hb. destruct Hrep. unfold keyboard_push_char, KEYBOARD_BUFFER_SIZE.
  rewrite (wrap_small 32) by word_lia.
  destruct (Z.leb_spec 255 (Z.of_nat (length (queue t)))) as [Hfull|Hroom].
  - replace ((buffer_head k + 1) mod 256 =? buffer_tail k) with true by (symmetry; apply Z.eqb_eq; Z.div_mod_to_equations; lia). by split.
  - replace ((buffer_head k + 1) mod 256 =? buffer_tail k) with false by (symmetry; apply Z.eqb_neq; Z.div_mod_to_equations; lia).
    split; cbn [buffer_head buffer_tail kb_buffer set_ring shift_down caps_lock debugger_requested queue t_shift t_caps t_debug]; try done.
    + apply Z.mod_pos_bound. lia.
    + by rewrite length_insert.
    + rewrite length_app. cbn [length]. Z.div_mod_to_equations. lia.
    + intros i x Hi. apply lookup_app_Some in Hi as [Hi|[Hge Hi]].
      * pose proof (lookup_lt_Some _ _ _ Hi). rewrite list_lookup_insert_ne; [by apply kr_queue0|]. Z.div_mod_to_equations. lia.
      * apply list_lookup_singleton_Some in Hi as [Hi <-].
        replace (Z.to_nat ((buffer_tail k + Z.of_nat i) mod 256)) with (Z.to_nat (buffer_head k)) by (Z.div_mod_to_equations; lia).
        apply list_lookup_insert_eq. lia.
Qed.

Lemma letter_eq upper c :
  (if (97 <=? c) && (c <=? 122) && upper then c - 97 + 65
   else if (65 <=? c) && (c <=? 90) && upper then c - 65 + 97 else c) = letter upper c.
Proof. unfold letter. destruct ((97 <=? c) && (c <=? 122) && upper); [lia|]. destruct ((65 <=? c) && (c <=? 90) && upper); lia. Qed.

Lemma high_bit scancode : fits 8 scancode -> negb (Z.land scancode 0x80 =? 0) = (128 <=? scancode).
Proof.
  intros Hf. change (Z.land scancode 0x80) with (Z.land scancode (Z.shiftl 1 7)). rewrite land_pow2_testbit by lia. unfold fits in Hf.
  rewrite Z.testbit_eqb by lia. change (2 ^ 7) with 128. destruct (Z.leb_spec 128 scancode).
  - apply Z.eqb_eq. Z.div_mod_to_equations. lia.
  - apply Z.eqb_neq. rewrite Z.div_small by lia. done.
Qed.

Lemma scancode_rep scancode k t : fits 8 scancode -> kb_rep k t -> kb_rep (keyboard_scancode scancode k) (key scancode t).
Proof.
  intros Hf Hrep. pose proof Hrep as []. unfold keyboard_scancode, key.
  rewrite (bool_decide_ext (scancode ∈ [0x2A; 0x36]) (scancode = 0x2A \/ scancode = 0x36)) by (rewrite !elem_of_cons, elem_of_nil; tauto).
  rewrite (bool_decide_ext (scancode ∈ [0xAA; 0xB6]) (scancode = 0xAA \/ scancode = 0xB6)) by (rewrite !elem_of_cons, elem_of_nil; tauto).
  destruct (Z.eqb_spec scancode 42), (Z.eqb_spec scancode 54); cbn [orb];
    try (rewrite bool_decide_eq_true_2 by lia; rewrite kr_caps0, kr_debug0; by apply set_mods_rep).
  rewrite bool_decide_eq_false_2 by lia.
  destruct (Z.eqb_spec scancode 170), (Z.eqb_spec scancode 182); cbn [orb];
    try (rewrite bool_decide_eq_true_2 by lia; rewrite kr_caps0, kr_debug0; by apply set_mods_rep).
  rewrite bool_decide_eq_false_2 by lia.
  destruct (scancode =? 58); [rewrite kr_caps0, kr_shift0, kr_debug0; by apply set_mods_rep|].
  destruct (scancode =? 59); [rewrite kr_caps0, kr_shift0; by apply set_mods_rep|].
  rewrite high_bit by done. destruct (Z.leb_spec 128 scancode); [done|].
  change (Z.of_nat (length normal_map)) with 128. replace (scancode <? 128) with true by lia. cbv zeta.
  unfold translate_scancode. cbv zeta. rewrite letter_eq, kr_shift0, kr_caps0.
  set (c := letter (t_caps t) (nth (Z.to_nat scancode) (if t_shift t then shifted_map else normal_map) 0)).
  destruct (c =? 0); cbn [negb orb]; [done|]. pose proof (push_char_rep k t c Hrep) as Hp. by destruct (255 <=? Z.of_nat (length (queue t))).
Qed.

Lemma read_rep (s : machine keyboard) t : kb_rep (drivers s) t ->
  exists k, ps2_keyboard_read_char_nonblocking s = Done (hd_error (queue t)) (set_drivers k s) /\
    port_reads k = port_reads (drivers s) /\ kb_rep k (mk_typed (tail (queue t)) (t_shift t) (t_caps t) (t_debug t)).
Proof.
  intros Hrep. pose proof (kr_bound _ _ Hrep) as Hb. pose proof Hrep as []. unfold ps2_keyboard_read_char_nonblocking. run.
  destruct (queue t) as [|c q] eqn:Eq; cbn [hd_error tail length] in *.
  - replace (buffer_tail (drivers s) =? buffer_head (drivers s)) with true by (symmetry; apply Z.eqb_eq; Z.div_mod_to_equations; lia).
    exists (drivers s). split; [by destruct s|]. split; [done|]. destruct t. simpl in *. subst. exact Hrep.
  - replace (buffer_tail (drivers s) =? buffer_head (drivers s)) with false by (symmetry; apply Z.eqb_neq; Z.div_mod_to_equations; lia).
    specialize (kr_queue0 O c eq_refl) as H0. rewrite Z.add_0_r, Z.mod_small in H0 by lia. rewrite H0. cbn [of_option]. run.
    eexists. split; [reflexivity|]. split; [done|]. unfold KEYBOARD_BUFFER_SIZE. rewrite (wrap_small 32) by word_lia.
    split; cbn [buffer_head buffer_tail kb_buffer set_ring shift_down caps_lock debugger_requested queue t_shift t_caps t_debug]; try done.
    + apply Z.mod_pos_bound. lia.
    + Z.div_mod_to_equations. lia.
    + intros i x Hi. rewrite <- (kr_queue0 (S i) x Hi). do 2 f_equal. rewrite Zplus_mod_idemp_l. f_equal. lia.
Qed.

(** ** Keys pressed and characters read *)

Inductive event :=
| Interrupt
| ReadChar.

(** The keyboard's interrupt, dispatched with some frame of its vector, and the
    client's read through the input registry. *)
Definition run_event (frame : interrupt_frame) (e : event) : M (machine keyboard) (list (option Z)) :=
  match e with
  | Interrupt => isr_dispatch 0 frame ;;; ret []
  | ReadChar => c <- input_read_char_nonblocking (Some i386_ps2_keyboard_driver) ;; ret [c]
  end.

Fixpoint run_events (frame : interrupt_frame) (l : list event) : M (machine keyboard) (list (option Z)) :=
  match l with
  | [] => ret []
  | e :: l' => a <- run_event frame e ;; b <- run_events frame l' ;; ret (a ++ b)
  end.

(** The same on the abstract keyboard, whose [n]-th key event is [inb60 n]. *)
Fixpoint spec_events (n : nat) (t : typed) (l : list event) : list (option Z) :=
  match l with
  | [] => []
  | Interrupt :: l' => spec_events (S n) (key (u8 (inb60 n)) t) l'
  | ReadChar :: l' => hd_error (queue t) :: spec_events n (mk_typed (tail (queue t)) (t_shift t) (t_caps t) (t_debug t)) l'
  end.

Record wired (s : machine keyboard) (n : nat) (t : typed) : Prop := {
  w_controller : active_controller s = Some i386_pic_irq_controller;
  w_handler : handlers s !! 33%nat = Some (Some ps2_keyboard_interrupt);
  w_reads : port_reads (drivers s) = n;
  w_rep : kb_rep (drivers s) t
}.

Lemma interrupt_wired frame s n t : f_vector frame = 33 -> wired s n t ->
  exists s', isr_dispatch 0 frame s = Done frame s' /\ wired s' (S n) (key (u8 (inb60 n)) t).
Proof.
  intros Hv []. rewrite (dispatch_run s 0 frame (Some ps2_keyboard_interrupt)); [|rewrite Hv; unfold fits; lia|done|by rewrite Hv].
  unfold dispatched. eexists. split; [reflexivity|]. cbn [ps2_keyboard_interrupt read_port fst snd].
  split; cbn [after active_controller handlers drivers set_chip set_drivers]; try done.
  - rewrite <- w_reads0. unfold keyboard_scancode, keyboard_push_char. repeat case_match; done.
  - rewrite <- w_reads0. apply scancode_rep; [by apply wrap_fits|]. destruct w_rep0. by split.
Qed.

Lemma read_wired s n t : wired s n t ->
  exists s', input_read_char_nonblocking (Some i386_ps2_keyboard_driver) s = Done (hd_error (queue t)) s' /\
    wired s' n (mk_typed (tail (queue t)) (t_shift t) (t_caps t) (t_debug t)).
Proof.
  intros []. destruct (read_rep s t w_rep0) as (k & Hrun & Hp & Hk). exists (set_drivers k s). split; [exact Hrun|].
  split; try done. cbn. by rewrite Hp.
Qed.

Lemma run_events_wired frame l : f_vector frame = 33 -> forall s n t, wired s n t ->
  exists s', run_events frame l s = Done (spec_events n t l) s'.
Proof.
  intros Hv. induction l as [|[] l IH]; intros s n t Hw; cbn [run_events spec_events run_event].
  - by exists s.
  - destruct (interrupt_wired frame s n t Hv Hw) as (s1 & Hrun & Hw1). destruct (IH s1 _ _ Hw1) as (s2 & Hrun2). exists s2.
    rewrite run_bind_bind, (run_bind_done _ _ _ _ _ Hrun). run. by rewrite (run_bind_done _ _ _ _ _ Hrun2).
  - destruct (read_wired s n t Hw) as (s1 & Hrun & Hw1). destruct (IH s1 _ _ Hw1) as (s2 & Hrun2). exists s2.
    rewrite run_bind_bind, (run_bind_done _ _ _ _ _ Hrun). run. by rewrite (run_bind_done _ _ _ _ _ Hrun2).
Qed.

Lemma init_wired s : active_controller s = Some i386_pic_irq_controller -> length (handlers s) = 256%nat ->
  length (kb_buffer (drivers s)) = 256%nat ->
  exists s', ps2_keyboard_init s = Done true s' /\ wired s' (port_reads (drivers s)) (mk_typed [] false false false).
Proof.
  intros Hc Hh Hb. unfold ps2_keyboard_init. run. unfold irq_register_handler. run. cbn [active_controller set_drivers]. rewrite Hc.
  cbn [vector_for_irq i386_pic_irq_controller]. unfold register_interrupt_handler. run. cbn [negb]. unfold irq_enable. run.
  cbn [active_controller set_drivers set_handlers]. rewrite Hc. cbn [ctl_enable i386_pic_irq_controller]. unfold on_chip. run.
  eexists. split; [reflexivity|]. split; cbn [active_controller handlers drivers set_chip set_drivers set_handlers port_reads]; try done.
  - change (Z.to_nat (u8 (pic_vector_for_irq IRQ_LINE_KEYBOARD))) with 33%nat. apply list_lookup_insert_eq. lia.
Qed.
End Keyboard.

(** C20: keys become characters in order.  After [ps2_keyboard_init], for any
    sequence of keyboard interrupts (dispatched through the interrupt table) and
    client reads, every read returns what the abstract keyboard says: the oldest
    unread character of a queue of at most 255, into which each key press puts its
    character (shifted, and with the case of letters inverted by caps lock) unless
    the queue is full. *)
Theorem keyboard_refines_queue inb60 (s : machine keyboard) frame (l : list event) :
  f_vector frame = 33 -> active_controller s = Some i386_pic_irq_controller -> length (handlers s) = 256%nat ->
  length (kb_buffer (drivers s)) = 256%nat ->
  exists s', (ps2_keyboard_init inb60 ;;; run_events inb60 frame l) s =
    Done (spec_events inb60 (port_reads (drivers s)) (mk_typed [] false false false) l) s'.
Proof.
  intros Hv Hc Hh Hb. destruct (init_wired inb60 s Hc Hh Hb) as (s1 & Hinit & Hw).
  destruct (run_events_wired inb60 frame l Hv s1 _ _ Hw) as (s2 & Hrun). exists s2.
  by rewrite (run_bind_done _ _ _ _ _ Hinit).
Qed.

(** Shift, [a], shift released, [b], then three reads. *)
Definition sample_keys : nat -> Z := fun n => nth n [0x2A; 0x1E; 0xAA; 0x30] 0.
Definition keyboard_machine : machine keyboard :=
  mk_machine (mk_chip 0xFFFF []) (Some i386_pic_irq_controller) (replicate 256 None) [] 0 0 0
    (mk_keyboard 5 7 (replicate 256 0) true true true 0) None.

Lemma keyboard_refines_queue_witness :
  exists s', (ps2_keyboard_init sample_keys ;;;
    run_events sample_keys (sample_frame 33) [Interrupt; Interrupt; Interrupt; Interrupt; ReadChar; ReadChar; ReadChar]) keyboard_machine =
    Done [Some 65; Some 98; None] s'.
Proof.
  apply (keyboard_refines_queue sample_keys keyboard_machine (sample_frame 33)
    [Interrupt; Interrupt; Interrupt; Interrupt; ReadChar; ReadChar; ReadChar]); reflexivity.
Defined.
