(* ===== verification/Vga.v ===== *)
(** The console devices: arch/i386/vga_console.c (with vga.h) and
    arch/i386/serial_console.c.

    The text screen is an array of 80 x 25 cells; storing outside it is a fault.  The
    serial line's registers are a parameter: what successive reads of the line status
    register and of the scratch register return. *)
From S2P Require Import Prelude Console.
From Stdlib Require Import ZArith Lia.
Open Scope Z_scope.

Definition VGA_WIDTH : Z := 80.
Definition VGA_HEIGHT : Z := 25.
Definition VGA_COLOR_BLACK : Z := 0.
Definition VGA_COLOR_LIGHT_GREY : Z := 7.

Definition vga_entry_color (fg bg : Z) : Z := u8 (Z.lor fg (Z.shiftl bg 4)).
Definition vga_entry (uc color : Z) : Z := u16 (Z.lor (u8 uc) (Z.shiftl (u8 color) 8)).

Record terminal := mk_terminal {
  terminal_row : Z;
  terminal_column : Z;
  terminal_color : Z;
  terminal_buffer : list Z
}.

Definition set_cursor (row column : Z) (t : terminal) : terminal :=
  mk_terminal row column (terminal_color t) (terminal_buffer t).
Definition set_cells (l : list Z) (t : terminal) : terminal :=
  mk_terminal (terminal_row t) (terminal_column t) (terminal_color t) l.

Definition cell_get (index : Z) : M terminal Z :=
  l <- gets terminal_buffer ;; of_option (l !! Z.to_nat index).
Definition cell_set (index v : Z) : M terminal unit :=
  l <- gets terminal_buffer ;;
  if (0 <=? index) && (index <? Z.of_nat (length l)) then modify (set_cells (<[Z.to_nat index := v]> l)) else fault.

Definition terminal_scroll : M terminal unit :=
  for_each 1 VGA_HEIGHT (fun y =>
    for_each 0 VGA_WIDTH (fun x =>
      v <- cell_get (y * VGA_WIDTH + x) ;;
      cell_set ((y - 1) * VGA_WIDTH + x) v)) ;;;
  for_each 0 VGA_WIDTH (fun x =>
    color <- gets terminal_color ;;
    cell_set ((VGA_HEIGHT - 1) * VGA_WIDTH + x) (vga_entry 32 color)).

Definition vga_console_clear : M terminal unit :=
  for_each 0 VGA_HEIGHT (fun y =>
    for_each 0 VGA_WIDTH (fun x =>
      color <- gets terminal_color ;;
      cell_set (y * VGA_WIDTH + x) (vga_entry 32 color))) ;;;
  modify (set_cursor 0 0).

Definition vga_console_init : M terminal bool :=
  modify (fun t => mk_terminal 0 0 (vga_entry_color VGA_COLOR_LIGHT_GREY VGA_COLOR_BLACK) (terminal_buffer t)) ;;;
  vga_console_clear ;;;
  ret true.

Definition terminal_putentryat (c color x y : Z) : M terminal unit :=
  cell_set (y * VGA_WIDTH + x) (vga_entry c color).

(** [++terminal_row], and the scroll at the bottom. *)
Definition next_row : M terminal unit :=
  t <- gets id ;;
  if terminal_row t + 1 =? VGA_HEIGHT
  then modify (set_cursor (VGA_HEIGHT - 1) (terminal_column t)) ;;; terminal_scroll
  else modify (set_cursor (terminal_row t + 1) (terminal_column t)).

Definition vga_console_putchar (c : Z) : M terminal unit :=
  t <- gets id ;;
  if c =? 8 then
    (if 0 <? terminal_column t then modify (set_cursor (terminal_row t) (terminal_column t - 1))
     else if 0 <? terminal_row t then modify (set_cursor (terminal_row t - 1) (VGA_WIDTH - 1))
     else ret tt) ;;;
    t <- gets id ;;
    terminal_putentryat 32 (terminal_color t) (terminal_column t) (terminal_row t)
  else if c =? 10 then
    modify (set_cursor (terminal_row t) 0) ;;; next_row
  else
    terminal_putentryat (u8 c) (terminal_color t) (terminal_column t) (terminal_row t) ;;;
    if terminal_column t + 1 =? VGA_WIDTH
    then modify (set_cursor (terminal_row t) 0) ;;; next_row
    else modify (set_cursor (terminal_row t) (terminal_column t + 1)).

Definition vga_console_write (data : list Z) : M terminal unit := foreach data vga_console_putchar.

(** ** The serial line *)

Definition SERIAL_COM1_BASE : Z := 0x3F8.
Definition SERIAL_DATA_REGISTER : Z := 0.
Definition SERIAL_INTERRUPT_ENABLE : Z := 1.
Definition SERIAL_FIFO_CONTROL : Z := 2.
Definition SERIAL_LINE_CONTROL : Z := 3.
Definition SERIAL_MODEM_CONTROL : Z := 4.
Definition SERIAL_LINE_STATUS : Z := 5.
Definition SERIAL_SCRATCH : Z := 7.
Definition SERIAL_LINE_DLAB : Z := 0x80.
Definition SERIAL_LINE_8N1 : Z := 0x03.
Definition SERIAL_FIFO_ENABLE_CLEAR : Z := 0xC7.
Definition SERIAL_MODEM_DTR_RTS_OUT2 : Z := 0x0B.
Definition SERIAL_TX_READY : Z := 0x20.

Definition serial_register (offset : Z) : Z := u16 (SERIAL_COM1_BASE + offset).

Record serial := mk_serial { serial_console_available : bool; serial_out : list (Z * Z); status_reads : nat }.

Definition serial_outb (port value : Z) : M serial unit :=
  modify (fun s => mk_serial (serial_console_available s) (serial_out s ++ [(port, u8 value)]) (status_reads s)).

Section Serial.
(** The line status register over time, and the scratch register after a write. *)
Context (line_status : nat -> Z) (scratch : Z -> Z).

Definition serial_console_probe : M serial bool :=
  serial_outb (serial_register SERIAL_SCRATCH) 0x5A ;;;
  ret (scratch 0x5A =? 0x5A).

Definition serial_console_init : M serial bool :=
  serial_outb (serial_register SERIAL_INTERRUPT_ENABLE) 0x00 ;;;
  serial_outb (serial_register SERIAL_LINE_CONTROL) SERIAL_LINE_DLAB ;;;
  serial_outb (serial_register SERIAL_DATA_REGISTER) 0x03 ;;;
  serial_outb (serial_register SERIAL_INTERRUPT_ENABLE) 0x00 ;;;
  serial_outb (serial_register SERIAL_LINE_CONTROL) SERIAL_LINE_8N1 ;;;
  serial_outb (serial_register SERIAL_FIFO_CONTROL) SERIAL_FIFO_ENABLE_CLEAR ;;;
  serial_outb (serial_register SERIAL_MODEM_CONTROL) SERIAL_MODEM_DTR_RTS_OUT2 ;;;
  modify (fun s => mk_serial true (serial_out s) (status_reads s)) ;;;
  ret true.

(** Polling for an empty transmitter; a line that stays busy keeps it waiting. *)
Fixpoint wait_ready (fuel : nat) : M serial unit :=
  match fuel with
  | O => fun _ => Spin
  | S fuel' =>
      n <- gets status_reads ;;
      modify (fun s => mk_serial (serial_console_available s) (serial_out s) (S (status_reads s))) ;;;
      if Z.land (line_status n) SERIAL_TX_READY =? 0 then wait_ready fuel' else ret tt
  end.

Definition serial_console_write_byte (fuel : nat) (value : Z) : M serial unit :=
  available <- gets serial_console_available ;;
  if negb available then ret tt else
  wait_ready fuel ;;;
  serial_outb (serial_register SERIAL_DATA_REGISTER) value.

Definition serial_console_putchar (fuel : nat) (c : Z) : M serial unit :=
  (if c =? 10 then serial_console_write_byte fuel 13 else ret tt) ;;;
  serial_console_write_byte fuel (u8 c).

Definition serial_console_write (fuel : nat) (data : list Z) : M serial unit :=
  foreach data (serial_console_putchar fuel).
End Serial.

(** ** The screen *)

(** The abstract terminal: a grid of cells and a cursor on it. *)
Record screen := mk_screen { cell : Z -> Z -> Z; crow : Z; ccol : Z; ccolor : Z }.

Definition blank (g : screen) : Z := vga_entry 32 (ccolor g).

(** Everything moves up a row; the last one is blank. *)
Definition scrolled (g : screen) : screen :=
  mk_screen (fun x y => if y =? 24 then blank g else cell g x (y + 1)) (crow g) (ccol g) (ccolor g).
Definition newline (g : screen) : screen :=
  if crow g =? 24 then scrolled (mk_screen (cell g) 24 0 (ccolor g)) else mk_screen (cell g) (crow g + 1) 0 (ccolor g).
Definition put (v : Z) (g : screen) : screen :=
  mk_screen (fun x y => if (x =? ccol g) && (y =? crow g) then v else cell g x y) (crow g) (ccol g) (ccolor g).
Definition back (g : screen) : screen :=
  if 0 <? ccol g then mk_screen (cell g) (crow g) (ccol g - 1) (ccolor g)
  else if 0 <? crow g then mk_screen (cell g) (crow g - 1) 79 (ccolor g) else g.

(** Typing a character. *)
Definition type_char (c : Z) (g : screen) : screen :=
  if c =? 8 then put (blank g) (back g)
  else if c =? 10 then newline g
  else
    let g' := put (vga_entry (u8 c) (ccolor g)) g in
    if ccol g =? 79 then newline g' else mk_screen (cell g') (crow g) (ccol g + 1) (ccolor g).

Record screen_rep (t : terminal) (g : screen) : Prop := {
  sr_length : length (terminal_buffer t) = 2000%nat;
  sr_row : terminal_row t = crow g;
  sr_col : terminal_column t = ccol g;
  sr_color : terminal_color t = ccolor g;
  sr_row_range : 0 <= crow g < 25;
  sr_col_range : 0 <= ccol g < 80;
  sr_cells : forall x y, 0 <= x < 80 -> 0 <= y < 25 -> terminal_buffer t !! Z.to_nat (y * 80 + x) = Some (cell g x y)
}.

(** The buffer shows [f] at every cell. *)
Definition shows (f : Z -> Z -> Z) (t0 t : terminal) : Prop :=
  t = set_cells (terminal_buffer t) t0 /\ length (terminal_buffer t) = 2000%nat /\
  forall x y, 0 <= x < 80 -> 0 <= y < 25 -> terminal_buffer t !! Z.to_nat (y * 80 + x) = Some (f x y).

Lemma shows_ext f f' t0 t : (forall x y, 0 <= x < 80 -> 0 <= y < 25 -> f x y = f' x y) -> shows f t0 t -> shows f' t0 t.
Proof. intros Hf (H1 & H2 & H3). split_and!; [done|done|]. intros x y Hx Hy. rewrite <- Hf by done. by apply H3. Qed.

Lemma shows_rest f t0 t : shows f t0 t ->
  terminal_row t = terminal_row t0 /\ terminal_column t = terminal_column t0 /\ terminal_color t = terminal_color t0.
Proof. by intros (-> & _). Qed.

Lemma cell_set_shows f t0 t x y v (Q : unit -> terminal -> Prop) :
  0 <= x < 80 -> 0 <= y < 25 -> shows f t0 t ->
  (forall t', shows (fun x' y' => if (x' =? x) && (y' =? y) then v else f x' y') t0 t' -> Q tt t') ->
  wp (cell_set (y * 80 + x) v) Q t.
Proof.
  intros Hx Hy (Ht & Hl & Hc) HQ. unfold cell_set. do 2 wp_step. replace ((0 <=? _) && (_ <? _)) with true by lia.
  apply wp_modify, HQ. split_and!; [rewrite Ht; done|cbn; by rewrite length_insert|].
  intros x' y' Hx' Hy'. cbn [terminal_buffer set_cells]. destruct ((x' =? x) && (y' =? y)) eqn:E.
  - z_bools. subst. apply list_lookup_insert_eq. lia.
  - rewrite list_lookup_insert_ne by lia. by apply Hc.
Qed.

Lemma cell_get_shows f t0 t x y : 0 <= x < 80 -> 0 <= y < 25 -> shows f t0 t -> cell_get (y * 80 + x) t = Done (f x y) t.
Proof. intros Hx Hy (_ & _ & Hc). unfold cell_get. run. by rewrite Hc. Qed.

(** A row written from left to right. *)
Lemma row_loop (body : Z -> M terminal unit) (g : Z -> Z) f t0 t y (Q : unit -> terminal -> Prop) :
  0 <= y < 25 -> shows f t0 t ->
  (forall x f' t' (Q' : unit -> terminal -> Prop), 0 <= x < 80 -> shows f' t0 t' ->
     (forall x' y', 0 <= x' < 80 -> 0 <= y' < 25 -> y' <> y -> f' x' y' = f x' y') ->
     (forall t'', shows (fun x' y' => if (x' =? x) && (y' =? y) then g x else f' x' y') t0 t'' -> Q' tt t'') -> wp (body x) Q' t') ->
  (forall t', shows (fun x' y' => if y' =? y then g x' else f x' y') t0 t' -> Q tt t') ->
  wp (for_each 0 80 body) Q t.
Proof.
  intros Hy Hs Hb HQ.
  apply (wp_for_each _ _ _ (fun x t' => shows (fun x' y' => if (y' =? y) && (x' <? x) then g x' else f x' y') t0 t')); [lia| | |].
  - eapply shows_ext; [|exact Hs]. intros x' y' Hx' _. cbv beta. by replace (x' <? 0) with false by lia; rewrite andb_false_r.
  - intros x t' Hx Hs'. eapply Hb; [lia|exact Hs'| |].
    + intros x' y' _ _ Hne. cbv beta. by replace (y' =? y) with false by lia.
    + intros t'' Hs''. eapply shows_ext; [|exact Hs'']. intros x' y' Hx' Hy'. cbv beta.
      destruct (Z.eqb_spec y' y), (Z.eqb_spec x' x); cbn [andb]; subst; try done.
      * by replace (x <? x + 1) with true by lia.
      * by replace (x' <? x + 1) with (x' <? x) by lia.
  - intros t' Hs'. apply HQ. eapply shows_ext; [|exact Hs']. intros x' y' Hx' _. cbv beta.
    replace (x' <? 80) with true by lia. by rewrite andb_true_r.
Qed.

Lemma scroll_shows f t0 t (Q : unit -> terminal -> Prop) :
  shows f t0 t ->
  (forall t', shows (fun x y => if y =? 24 then vga_entry 32 (terminal_color t0) else f x (y + 1)) t0 t' -> Q tt t') ->
  wp terminal_scroll Q t.
Proof.
  intros Hs HQ. unfold terminal_scroll, VGA_HEIGHT, VGA_WIDTH. wp_step.
  apply (wp_for_each _ _ _ (fun y t' => shows (fun x' y' => if y' <? y - 1 then f x' (y' + 1) else f x' y') t0 t')); [lia| | |].
  - eapply shows_ext; [|exact Hs]. intros x' y' _ Hy'. cbv beta. by replace (y' <? 1 - 1) with false by lia.
  - intros y t1 Hy Hs1. eapply (row_loop _ (fun x' => f x' y) _ t0 t1 (y - 1)); [lia|exact Hs1| |].
    + intros x f' t' Q' Hx Hs' Hsame HQ'. wp_step.
      eapply Done_wp; [apply (cell_get_shows f' t0); [done|lia|done]|]. cbv beta.
      eapply (cell_set_shows f' t0); [done|lia|done|]. intros t'' Hs''. apply HQ'.
      eapply shows_ext; [|exact Hs'']. intros x' y' _ _. cbv beta. destruct ((x' =? x) && (y' =? y - 1)); [|done].
      rewrite Hsame by lia. by replace (y <? y - 1) with false by lia.
    + intros t' Hs'. eapply shows_ext; [|exact Hs']. intros x' y' _ _. cbv beta.
      destruct (Z.eqb_spec y' (y - 1)) as [->|].
      * replace (y - 1 <? y + 1 - 1) with true by lia. f_equal. lia.
      * by replace (y' <? y + 1 - 1) with (y' <? y - 1) by lia.
  - intros t1 Hs1. eapply (row_loop _ (fun _ => vga_entry 32 (terminal_color t0)) _ t0 t1 24); [lia|exact Hs1| |].
    + intros x f' t' Q' Hx Hs' _ HQ'. do 2 wp_step. replace (terminal_color t') with (terminal_color t0) by (by destruct Hs' as (-> & _)).
      by eapply (cell_set_shows f' t0); [|lia| |].
    + intros t' Hs'. apply HQ. eapply shows_ext; [|exact Hs']. intros x' y' _ Hy'. cbv beta.
      destruct (Z.eqb_spec y' 24); [done|]. by replace (y' <? 25 - 1) with true by lia.
Qed.

Lemma rep_shows t g : screen_rep t g -> shows (cell g) t t.
Proof. intros []. split_and!; [by destruct t|done|done]. Qed.

Lemma next_row_rep t g (Q : unit -> terminal -> Prop) :
  screen_rep t (mk_screen (cell g) (crow g) 0 (ccolor g)) ->
  (forall t', screen_rep t' (newline g) -> Q tt t') -> wp next_row Q t.
Proof.
  intros Hrep HQ. pose proof Hrep as []. cbn in *. unfold next_row. do 2 wp_step. unfold id, VGA_HEIGHT.
  unfold newline in HQ. destruct (Z.eqb_spec (crow g) 24) as [E|E].
  - replace (terminal_row t + 1 =? 25) with true by lia. do 2 wp_step.
    set (t1 := set_cursor (25 - 1) (terminal_column t) t).
    eapply (scroll_shows (cell g) t1 t1); [by split_and!; [destruct t| |]|].
    intros t' Hs'. destruct (shows_rest _ _ _ Hs') as (Hr & Hcl & Hco). destruct Hs' as (_ & Hl' & Hc'). apply HQ.
    split; cbn [scrolled crow ccol ccolor cell]; rewrite ?Hr, ?Hcl, ?Hco; try done.
    intros x y Hx Hy. rewrite Hc' by done. unfold blank. cbn. by rewrite sr_color0.
  - replace (terminal_row t + 1 =? 25) with false by lia. apply wp_modify, HQ. split; cbn; try done; lia.
Qed.

Lemma put_rep t g v (Q : unit -> terminal -> Prop) :
  screen_rep t g -> (forall t', screen_rep t' (put v g) -> Q tt t') ->
  wp (cell_set (terminal_row t * 80 + terminal_column t) v) Q t.
Proof.
  intros Hrep HQ. pose proof Hrep as []. rewrite sr_row0, sr_col0.
  eapply (cell_set_shows (cell g) t); [done|done|by apply rep_shows|]. intros t' Hs'.
  destruct (shows_rest _ _ _ Hs') as (Hr & Hcl & Hco). destruct Hs' as (_ & Hl' & Hc'). apply HQ.
  split; rewrite ?Hr, ?Hcl, ?Hco; done.
Qed.

Lemma putchar_rep c t g (Q : unit -> terminal -> Prop) :
  screen_rep t g -> (forall t', screen_rep t' (type_char c g) -> Q tt t') -> wp (vga_console_putchar c) Q t.
Proof.
  intros Hrep HQ. pose proof Hrep as []. unfold vga_console_putchar, terminal_putentryat, type_char, VGA_WIDTH in *. do 2 wp_step. unfold id.
  destruct (c =? 8).
  - apply wp_bind.
    apply wp_mono with (Q := fun _ t' => screen_rep t' (back g)).
    { unfold back. rewrite sr_row0, sr_col0. destruct (Z.ltb_spec 0 (ccol g)); [|destruct (Z.ltb_spec 0 (crow g))].
      - apply wp_modify. split; cbn; try done; lia.
      - apply wp_modify. split; cbn; try done; lia.
      - by apply wp_ret. }
    intros ? t1 Ht1. cbv beta. do 2 wp_step. unfold id. eapply put_rep; [exact Ht1|]. intros t2 Ht2. apply HQ.
    replace (blank g) with (vga_entry 32 (terminal_color t1)); [done|]. unfold blank. f_equal. rewrite (sr_color _ _ Ht1).
    unfold back. by repeat case_match.
  - destruct (c =? 10).
    + do 2 wp_step. apply next_row_rep with g; [|done]. split; cbn; try done; lia.
    + wp_step. eapply put_rep; [exact Hrep|]. intros t1 Ht1. cbv beta. rewrite sr_color0 in Ht1.
      set (g' := put (vga_entry (u8 c) (ccolor g)) g) in *. cbv zeta in HQ. rewrite sr_row0, sr_col0.
      pose proof Ht1 as []. destruct (Z.eqb_spec (ccol g) 79) as [E|E].
      * replace (ccol g + 1 =? 80) with true by lia. do 2 wp_step. apply next_row_rep with g'; [|done]. split; cbn; try done; lia.
      * replace (ccol g + 1 =? 80) with false by lia. apply wp_modify, HQ. split; cbn; try done; lia.
Qed.

Lemma write_rep data : forall t g, screen_rep t g ->
  wp (vga_console_write data) (fun _ t' => screen_rep t' (fold_left (fun g c => type_char c g) data g)) t.
Proof.
  induction data as [|c data IH]; intros t g Hrep; cbn [vga_console_write foreach fold_left]; [by apply wp_ret|].
  wp_step. eapply putchar_rep; [exact Hrep|]. intros t1 Ht1. cbv beta. by apply IH.
Qed.

Lemma terminal_clear_rep t : length (terminal_buffer t) = 2000%nat ->
  wp vga_console_clear (fun _ t' => screen_rep t' (mk_screen (fun _ _ => vga_entry 32 (terminal_color t)) 0 0 (terminal_color t))) t.
Proof.
  intros Hl. unfold vga_console_clear, VGA_HEIGHT, VGA_WIDTH. wp_step.
  set (f0 := fun x y => default 0 (terminal_buffer t !! Z.to_nat (y * 80 + x))).
  assert (Hs0 : shows f0 t t).
  { split_and!; [by destruct t|done|]. intros x y Hx Hy. unfold f0.
    by destruct (lookup_lt_is_Some_2 (terminal_buffer t) (Z.to_nat (y * 80 + x))) as [v ->]; [lia|]. }
  apply (wp_for_each _ _ _ (fun y t' => shows (fun x' y' => if y' <? y then vga_entry 32 (terminal_color t) else f0 x' y') t t')); [lia| | |].
  - eapply shows_ext; [|exact Hs0]. intros x' y' _ Hy'. cbv beta. by replace (y' <? 0) with false by lia.
  - intros y t1 Hy Hs1. eapply (row_loop _ (fun _ => vga_entry 32 (terminal_color t)) _ t t1 y); [lia|exact Hs1| |].
    + intros x f' t' Q' Hx Hs' _ HQ'. do 2 wp_step. replace (terminal_color t') with (terminal_color t) by (by destruct Hs' as (-> & _)).
      by eapply (cell_set_shows f' t); [|lia| |].
    + intros t' Hs'. eapply shows_ext; [|exact Hs']. intros x' y' _ _. cbv beta. destruct (Z.eqb_spec y' y) as [->|].
      * by replace (y <? y + 1) with true by lia.
      * by replace (y' <? y + 1) with (y' <? y) by lia.
  - intros t1 Hs1. destruct (shows_rest _ _ _ Hs1) as (_ & _ & Hco). destruct Hs1 as (_ & Hl1 & Hc1).
    apply wp_modify. split; cbn [set_cursor terminal_buffer terminal_row terminal_column terminal_color crow ccol ccolor cell]; try done; try lia.
    intros x y Hx Hy. rewrite Hc1 by done. by replace (y <? 25) with true by lia.
Qed.

Lemma init_rep t : length (terminal_buffer t) = 2000%nat ->
  wp vga_console_init (fun ok t' => ok = true /\ screen_rep t' (mk_screen (fun _ _ => vga_entry 32 7) 0 0 7)) t.
Proof.
  intros Hl. unfold vga_console_init. do 3 wp_step. eapply wp_mono; [by apply terminal_clear_rep|]. intros ? t' Ht'. by apply wp_ret.
Qed.

(** The VGA console is a terminal of 80 columns and 25 rows.  After
    [vga_console_init] on any screen memory of 2000 cells, any bytes written leave
    the cursor on the screen, every store is inside the 2000 cells, and the cells
    show what typing the bytes one after the other leaves on the abstract screen:
    characters at the cursor, line wrap, newline, scrolling by one row at the bottom,
    and erasing backspace. *)
Theorem vga_console_refines t data :
  length (terminal_buffer t) = 2000%nat ->
  wp (vga_console_init ;;; vga_console_write data)
     (fun _ t' => screen_rep t' (fold_left (fun g c => type_char c g) data (mk_screen (fun _ _ => vga_entry 32 7) 0 0 7))) t.
Proof.
  intros Hl. wp_step. eapply wp_mono; [by apply init_rep|]. intros ok t1 [_ Ht1]. cbv beta. by apply write_rep.
Qed.

Lemma vga_console_refines_witness :
  wp (vga_console_init ;;; vga_console_write [72; 105; 8; 10; 33])
     (fun _ t' => screen_rep t' (fold_left (fun g c => type_char c g) [72; 105; 8; 10; 33] (mk_screen (fun _ _ => vga_entry 32 7) 0 0 7)))
     (mk_terminal 99 99 0 (replicate 2000 0)).
Proof. apply vga_console_refines. reflexivity. Defined.

(** ** Output on the serial line *)

(** Newlines become carriage return and newline. *)
Definition crlf (data : list Z) : list Z := data ≫= (fun c => if c =? 10 then [13; 10] else [u8 c]).

(** The transmitter is free again within [fuel] polls, whenever it is asked. *)
Definition line_drains (line_status : nat -> Z) (fuel : nat) : Prop :=
  forall n, exists k, (k < fuel)%nat /\ Z.land (line_status (n + k)%nat) SERIAL_TX_READY <> 0.

Section SerialFacts.
Context (line_status : nat -> Z) (fuel : nat).
Hypothesis Hdrains : line_drains line_status fuel.

Definition sent (s : serial) (l : list Z) (s' : serial) : Prop :=
  serial_console_available s' = serial_console_available s /\
  serial_out s' = serial_out s ++ ((fun c => (SERIAL_COM1_BASE, c)) <$> l).

Lemma wait_ready_run : forall f n s, status_reads s = n ->
  (exists k, (k < f)%nat /\ Z.land (line_status (n + k)%nat) SERIAL_TX_READY <> 0) ->
  wp (wait_ready line_status f) (fun _ s' => sent s [] s') s.
Proof.
  induction f as [|f IH]; intros n s Hn (k & Hk & Hr); [lia|]. cbn [wait_ready]. do 4 wp_step. rewrite Hn.
  destruct (Z.eqb_spec (Z.land (line_status n) SERIAL_TX_READY) 0) as [E|E].
  - destruct k as [|k]; [by rewrite Nat.add_0_r in Hr|]. eapply wp_mono; [apply (IH (S n)); [by rewrite <- Hn|]|done].
    exists k. split; [lia|]. by rewrite Nat.add_succ_comm.
  - apply wp_ret. split; [done|]. cbn. by rewrite app_nil_r.
Qed.

Lemma write_byte_run v s : serial_console_available s = true ->
  wp (serial_console_write_byte line_status fuel v) (fun _ s' => sent s [u8 v] s') s.
Proof.
  intros Ha. unfold serial_console_write_byte. do 2 wp_step. rewrite Ha. cbn [negb]. wp_step.
  eapply wp_mono; [eapply wait_ready_run; [done|apply Hdrains]|]. intros ? s1 [H1 H2]. cbv beta. apply wp_modify.
  split; [by rewrite H1|]. cbn in *. rewrite H2, app_nil_r. done.
Qed.

Lemma sent_trans s l1 s1 l2 s2 : sent s l1 s1 -> sent s1 l2 s2 -> sent s (l1 ++ l2) s2.
Proof. intros [H1 H2] [H3 H4]. split; [congruence|]. by rewrite H4, H2, fmap_app, app_assoc. Qed.

(** Every byte goes out in order, once the transmitter is free. *)
Lemma serial_write_run data : forall s, serial_console_available s = true ->
  wp (serial_console_write line_status fuel data) (fun _ s' => sent s (crlf data) s') s.
Proof.
  induction data as [|c data IH]; intros s Ha; cbn [serial_console_write foreach].
  { apply wp_ret. split; [done|]. cbn. by rewrite app_nil_r. }
  unfold serial_console_putchar. change (crlf (c :: data)) with ((if c =? 10 then [13; 10] else [u8 c]) ++ crlf data).
  do 2 wp_step. destruct (Z.eqb_spec c 10) as [->|Hne].
  - eapply wp_mono; [by apply write_byte_run|]. intros ? s1 H1. cbv beta.
    eapply wp_mono; [apply write_byte_run; by rewrite (proj1 H1)|]. intros ? s2 H2. cbv beta.
    eapply wp_mono; [apply IH; by rewrite (proj1 H2), (proj1 H1)|]. intros ? s3 H3.
    change [13; 10] with ([13] ++ [10]). eapply sent_trans; [eapply sent_trans; [exact H1|exact H2]|exact H3].
  - wp_step. eapply wp_mono; [by apply write_byte_run|]. intros ? s2 H2. cbv beta.
    eapply wp_mono; [apply IH; by rewrite (proj1 H2)|]. intros ? s3 H3. eapply sent_trans; [|exact H3].
    replace (u8 c) with (u8 (u8 c)); [exact H2|]. unfold wrap. by rewrite Z.mod_mod.
Qed.
End SerialFacts.

(** ** The drivers the console multiplexes *)

(** A driver's function as the console calls it: the device after the call.  A call that
    faults, or that waits for ever on a line that never gets ready, has no device after
    it; these functions are total and then leave the device as it is, so a theorem about
    what the console prints assumes a line that drains ([line_drains]). *)
Definition run_device {S A} (m : M S A) (d : S) : S := match m d with Done _ d' => d' | _ => d end.
Definition run_init {S} (m : M S bool) (d : S) : bool * S := match m d with Done b d' => (b, d') | _ => (false, d) end.

Definition i386_vga_console_driver : console_driver terminal :=
  mk_driver (Some (bytes_of "VGA text console")) (Some (run_init vga_console_init)) (Some (run_device vga_console_clear))
    (Some (fun c => run_device (vga_console_putchar c))) (Some (fun data => run_device (vga_console_write data))).

Definition i386_serial_console_driver (line_status : nat -> Z) (fuel : nat) : console_driver serial :=
  mk_driver (Some (bytes_of "16550 UART (COM1)")) (Some (run_init serial_console_init)) None
    (Some (fun c => run_device (serial_console_putchar line_status fuel c)))
    (Some (fun data => run_device (serial_console_write line_status fuel data))).
