(* ===== verification/Platform.v ===== *)
(** The i386 platform: arch/i386/platform.c, the module descriptors of the drivers,
    and the console with its two devices.

    The world the modules act on holds the console (with the screen and the serial
    line as its devices), the machine of the interrupt path, and the registered
    timer and input drivers. *)
From S2P Require Import Prelude Strings SchedData Console Modules ModulesSpec Panic Irq Keyboard Vga Stdio StdioNum StdioSpec StdioProps.
From Stdlib Require Import ZArith Lia.
Open Scope Z_scope.

Section Platform.
(** The hardware: the keyboard's bytes, the serial registers, the polls a byte takes. *)
Context (inb60 : nat -> Z) (line_status : nat -> Z) (scratch : Z -> Z) (fuel : nat).

Definition devices_t : Type := terminal * serial.

(** A driver of one of the two devices. *)
Definition on_screen (d : console_driver terminal) : console_driver devices_t :=
  mk_driver (drv_name d)
    ((fun f (w : devices_t) => let r := f w.1 in (fst r, (snd r, w.2))) <$> drv_init d)
    ((fun f (w : devices_t) => (f w.1, w.2)) <$> drv_clear d)
    ((fun f c (w : devices_t) => (f c w.1, w.2)) <$> drv_putchar d)
    ((fun f l (w : devices_t) => (f l w.1, w.2)) <$> drv_write d).
Definition on_line (d : console_driver serial) : console_driver devices_t :=
  mk_driver (drv_name d)
    ((fun f (w : devices_t) => let r := f w.2 in (fst r, (w.1, snd r))) <$> drv_init d)
    ((fun f (w : devices_t) => (w.1, f w.2)) <$> drv_clear d)
    ((fun f c (w : devices_t) => (w.1, f c w.2)) <$> drv_putchar d)
    ((fun f l (w : devices_t) => (w.1, f l w.2)) <$> drv_write d).

Definition vga_driver : console_driver devices_t := on_screen i386_vga_console_driver.
Definition serial_driver : console_driver devices_t := on_line (i386_serial_console_driver line_status fuel).

Record platform := mk_platform {
  pl_console : console devices_t;
  pl_machine : machine keyboard;
  pl_timer : option (@timer_driver keyboard);
  pl_input : option input_driver
}.

Definition register_console (d : console_driver devices_t) (p : platform) : platform :=
  mk_platform (run_device (console_register_driver (Some d)) (pl_console p)) (pl_machine p) (pl_timer p) (pl_input p).

Definition vga_console_activate (p : platform) : bool * platform := (true, register_console vga_driver p).

Definition serial_console_probe_fn (p : platform) : bool * platform :=
  let r := run_init (serial_console_probe scratch) (devices (pl_console p)).2 in
  (fst r, mk_platform (set_devices ((devices (pl_console p)).1, snd r) (pl_console p)) (pl_machine p) (pl_timer p) (pl_input p)).
Definition serial_console_activate (p : platform) : bool * platform := (true, register_console serial_driver p).

Definition ps2_keyboard_activate (p : platform) : bool * platform :=
  (true, mk_platform (pl_console p) (pl_machine p) (pl_timer p)
           (input_register_driver (Some (i386_ps2_keyboard_driver inb60)) (pl_input p))).
Definition pic_activate (p : platform) : bool * platform :=
  (true, mk_platform (pl_console p) (run_device (irq_controller_register (Some i386_pic_irq_controller)) (pl_machine p))
           (pl_timer p) (pl_input p)).
Definition pit_timer_activate (p : platform) : bool * platform :=
  (true, mk_platform (pl_console p) (pl_machine p) (timer_register_driver (Some i386_pit_timer_driver) (pl_timer p)) (pl_input p)).

Definition i386_vga_console_module : module_descriptor platform :=
  mk_module "VGA text console" MODULE_KIND_CONSOLE 100 None (Some vga_console_activate).
Definition i386_serial_console_module : module_descriptor platform :=
  mk_module "16550 UART (COM1)" MODULE_KIND_CONSOLE 80 (Some serial_console_probe_fn) (Some serial_console_activate).
Definition i386_ps2_keyboard_module : module_descriptor platform :=
  mk_module "PS/2 keyboard" MODULE_KIND_INPUT 100 None (Some ps2_keyboard_activate).
Definition i386_pic_irq_controller_module : module_descriptor platform :=
  mk_module "8259 PIC" MODULE_KIND_IRQ_CONTROLLER 50 None (Some pic_activate).
Definition i386_pit_timer_module : module_descriptor platform :=
  mk_module "8253/8254 PIT" MODULE_KIND_TIMER 50 None (Some pit_timer_activate).

Definition platform_register_drivers : M (modules platform) unit :=
  module_register (Some i386_vga_console_module) ;;;
  module_register (Some i386_serial_console_module) ;;;
  module_register (Some i386_ps2_keyboard_module) ;;;
  module_register (Some i386_pic_irq_controller_module) ;;;
  module_register (Some i386_pit_timer_module) ;;;
  module_activate_all MODULE_KIND_CONSOLE ;;;
  module_activate_best MODULE_KIND_INPUT ;;;
  module_activate_best MODULE_KIND_IRQ_CONTROLLER ;;;
  module_activate_best MODULE_KIND_TIMER ;;;
  ret tt.

(** What is registered afterwards. *)
Definition platform_ready (p0 p : platform) : Prop :=
  registered_drivers (pl_console p) =
    (if scratch 0x5A =? 0x5A then [Some vga_driver; Some serial_driver] else [Some vga_driver]) /\
  active_controller (pl_machine p) = Some i386_pic_irq_controller /\
  pl_timer p = Some i386_pit_timer_driver /\
  pl_input p = Some (i386_ps2_keyboard_driver inb60) /\
  (devices (pl_console p)).1 = (devices (pl_console p0)).1 /\
  active_driver_names (pl_console p) = active_driver_names (pl_console p0) /\
  handlers (pl_machine p) = handlers (pl_machine p0) /\
  idt (pl_machine p) = idt (pl_machine p0) /\
  drivers (pl_machine p) = drivers (pl_machine p0).

End Platform.

(** [platform_register_drivers], run on an empty module registry, ends with the
    i386 drivers in place: the VGA console registered before the serial one, the
    serial one exactly when its scratch register answers, the PIC as interrupt
    controller, the PIT as timer and the PS/2 keyboard as input; the screen and the
    interrupt handlers are untouched. *)
Theorem platform_register_drivers_correct inb60 line_status scratch fuel (p : platform) :
  registered_drivers (pl_console p) = [] ->
  wp (platform_register_drivers inb60 line_status scratch fuel)
     (fun _ s' => platform_ready inb60 line_status scratch fuel p (world s')) (mk_modules [] [] [] p).
Proof.
  intros Hc. destruct p as [[reg act names [t sr]] m tm inp]. simpl in Hc. subst reg.
  unfold platform_register_drivers, i386_serial_console_module, serial_console_probe_fn, serial_console_probe, platform_ready.
  destruct (scratch 90 =? 90);
    cbv -[vga_driver serial_driver i386_pic_irq_controller i386_pit_timer_driver i386_ps2_keyboard_driver]; split_and!; reflexivity.
Qed.

Definition empty_platform : platform :=
  mk_platform (mk_console [] [] (replicate 128 0) (mk_terminal 0 0 0 (replicate 2000 0), mk_serial false [] 0))
    keyboard_machine None None.

Lemma platform_register_drivers_correct_witness :
  wp (platform_register_drivers sample_keys (fun _ => 0x20) id 1)
     (fun _ s' => platform_ready sample_keys (fun _ => 0x20) id 1 empty_platform (world s')) (mk_modules [] [] [] empty_platform).
Proof. apply platform_register_drivers_correct. reflexivity. Defined.




(** ** Printing on the devices *)

Section Printing.
Context (line_status : nat -> Z) (polls : nat).
Hypothesis Hdrains : line_drains line_status polls.

(** The console drives the screen [g] and an available serial line, on which [l]
    was sent since [s0]. *)
Record displays (s0 : serial) (con : console devices_t) (g : screen) (l : list Z) : Prop := {
  ds_drivers : active_drivers con = [vga_driver; serial_driver line_status polls];
  ds_screen : screen_rep (devices con).1 g;
  ds_available : serial_console_available s0 = true;
  ds_sent : sent s0 (crlf l) (devices con).2
}.

Lemma crlf_snoc l c : crlf (l ++ [c]) = crlf l ++ crlf [c].
Proof. unfold crlf. by rewrite bind_app. Qed.

Lemma con_byte_displays s0 con g l c : displays s0 con g l -> displays s0 (con_byte con c) (type_char c g) (l ++ [c]).
Proof.
  intros [Hd Hs Ha Hsent]. unfold con_byte. rewrite Hd. cbn [fold_left].
  pose proof (write_rep [c] _ _ Hs) as Hw. apply wp_Done in Hw as (u & t' & Hw & Ht').
  assert (Hav : serial_console_available (devices con).2 = true) by (by rewrite (proj1 Hsent)).
  pose proof (serial_write_run line_status polls Hdrains [c] _ Hav) as Hsw. apply wp_Done in Hsw as (u' & s' & Hsw & Hs').
  assert (E : devices (set_devices (driver_write (serial_driver line_status polls) [c] (driver_write vga_driver [c] (devices con))) con) = (t', s')).
  { cbn [devices set_devices]. unfold driver_write, vga_driver, serial_driver, on_screen, on_line. cbn -[vga_console_write serial_console_write].
    unfold run_device. by rewrite Hw, Hsw. }
  split; try done; rewrite E; cbn [fst snd]; [exact Ht'|]. rewrite crlf_snoc. by eapply sent_trans.
Qed.

Lemma con_bytes_displays s0 out : forall con g l, displays s0 con g l ->
  displays s0 (fold_left con_byte out con) (fold_left (fun g c => type_char c g) out g) (l ++ out).
Proof.
  induction out as [|c out IH]; intros con g l H; cbn [fold_left]; [by rewrite app_nil_r|].
  replace (l ++ c :: out) with ((l ++ [c]) ++ out) by (by rewrite <- app_assoc). apply IH. by apply con_byte_displays.
Qed.
End Printing.

Lemma fold_con_u8 {D} (out : list Z) : forall con : console D,
  fold_left (fun con c => con_byte con (u8 c)) out con = fold_left con_byte (u8 <$> out) con.
Proof. induction out as [|c out IH]; intros con; [done|]. cbn. apply IH. Qed.

(** C13: what [printf] prints is what the user sees.  With the VGA screen and a
    serial line that drains as the active consoles, [printf] of a format leaves on the screen the
    result of typing the rendered text from the cursor on, and sends the same text,
    newlines as carriage return and newline, over the line. *)
Theorem printf_reaches_devices line_status polls fuel stack (s : stdio devices_t) ds fmt args out g :
  line_drains line_status polls ->
  active_drivers (io_console s) = [vga_driver; serial_driver line_status polls] ->
  screen_rep (devices (io_console s)).1 g ->
  serial_console_available (devices (io_console s)).2 = true ->
  length stack = 32%nat -> format_call fuel (with_sink s NULL 0) ds fmt args out ->
  exists s', printf fuel stack fmt (word_of <$> args) s = Done (result_of out) s' /\
    screen_rep (devices (io_console s')).1 (fold_left (fun g c => type_char c g) (u8 <$> out) g) /\
    sent (devices (io_console s)).2 (crlf (u8 <$> out)) (devices (io_console s')).2.
Proof.
  intros Hdr Hact Hscr Hav Hst Hcall. destruct (printf_run fuel stack s ds fmt args out Hst Hcall) as (s' & Hrun & _ & Hcon).
  exists s'. split; [done|]. rewrite fold_con_u8 in Hcon.
  assert (Hd : displays line_status polls (devices (io_console s)).2 (io_console s) g []).
  { split; try done. split; [done|]. cbn. by rewrite app_nil_r. }
  pose proof (con_bytes_displays line_status polls Hdr _ (u8 <$> out) _ _ _ Hd) as [_ Hscr' _ Hsent']. rewrite <- Hcon in *. done.
Qed.

(** A fresh screen and an initialised serial line that is always ready. *)
Definition fresh_console : console devices_t :=
  mk_console [] [vga_driver; serial_driver (fun _ => 0x20) 1] (replicate 128 0)
    (mk_terminal 0 0 7 (replicate 2000 (vga_entry 32 7)), mk_serial true [] 0).

Lemma fresh_screen : screen_rep (devices fresh_console).1 (mk_screen (fun _ _ => vga_entry 32 7) 0 0 7).
Proof.
  split; try done; cbn [crow ccol]; try lia. intros x y Hx Hy. cbn [devices fresh_console fst terminal_buffer cell].
  apply lookup_replicate_2. lia.
Qed.

Lemma printf_reaches_devices_witness :
  exists s', printf 64 (replicate 32 170) 100 (word_of <$> sample_args) (sample_on fresh_console) = Done 22 s' /\
    screen_rep (devices (io_console s')).1
      (fold_left (fun g c => type_char c g) (u8 <$> sample_text) (mk_screen (fun _ _ => vga_entry 32 7) 0 0 7)) /\
    sent (devices fresh_console).2 (crlf (u8 <$> sample_text)) (devices (io_console s')).2.
Proof.
  apply (printf_reaches_devices (fun _ => 0x20) 1 64 (replicate 32 170) (sample_on fresh_console) sample_format 100 sample_args sample_text);
    [|reflexivity|apply fresh_screen|reflexivity|reflexivity|apply sample_call; by left].
  intros n. exists O. split; [lia|]. vm_compute. discriminate.
Defined.
