(* ===== verification/Cpu.v ===== *)
(** Processors: arch/i386/cpu.c.

    The BIOS tables are read from the physical memory of the paging component
    through the direct map.  What the hardware answers is a parameter: the CPUID
    registers, the APIC base register, the local APIC's identification and command
    registers over time, and whether a started processor comes online before the
    timeout. *)
From S2P Require Import Prelude Bootinfo Pmm Vma SchedData Sched SchedApi PagingData PagingTables Paging.
From Stdlib Require Import ZArith Lia.
Open Scope Z_scope.

Definition IA32_APIC_BASE_MSR : Z := 0x1B.
Definition IA32_APIC_BASE_ENABLE : Z := Z.shiftl 1 11.
Definition IA32_APIC_BASE_ADDR_MASK : Z := 0xFFFFF000.
Definition LAPIC_REG_ID : Z := 0x020.
Definition LAPIC_REG_TPR : Z := 0x080.
Definition LAPIC_REG_EOI : Z := 0x0B0.
Definition LAPIC_REG_SVR : Z := 0x0F0.
Definition LAPIC_REG_ICR_LOW : Z := 0x300.
Definition LAPIC_REG_ICR_HIGH : Z := 0x310.
Definition LAPIC_SVR_ENABLE : Z := Z.shiftl 1 8.
Definition LAPIC_SPURIOUS_VECTOR : Z := 0xFF.
Definition LAPIC_ICR_DELIVERY_FIXED : Z := Z.shiftl 0 8.
Definition LAPIC_ICR_DELIVERY_INIT : Z := Z.shiftl 5 8.
Definition LAPIC_ICR_DELIVERY_STARTUP : Z := Z.shiftl 6 8.
Definition LAPIC_ICR_LEVEL_ASSERT : Z := Z.shiftl 1 14.
Definition LAPIC_ICR_TRIGGER_LEVEL : Z := Z.shiftl 1 15.
Definition LAPIC_ICR_STATUS_PENDING : Z := Z.shiftl 1 12.
Definition CPU_IPI_RESCHEDULE_VECTOR : Z := 49.
Definition CPU_IPI_WAKEUP_VECTOR : Z := 50.
Definition AP_TRAMPOLINE_PHYS : Z := 0x7000.
Definition AP_BOOT_STACK_PAGES : Z := 4.
Definition AP_STARTUP_TIMEOUT_SPINS : Z := 5000000.
Definition CPU_ID_INVALID : Z := 0xFF.
Definition sizeof_mp_floating_pointer_t : Z := 16.
Definition sizeof_mp_config_table_header_t : Z := 44.
Definition sizeof_mp_processor_entry_t : Z := 20.

Record smp_cpu_state := mk_smp_cpu {
  apic_id : Z;
  cpu_present : bool;
  cpu_started : bool;
  startup_stack_base : option Z;
  startup_stack_top : Z
}.
Definition no_cpu : smp_cpu_state := mk_smp_cpu 0 false false None 0.

(** The static variables of cpu.c, the local APIC's registers written (latest last)
    with the count of reads of its command register, and the components it calls. *)
Record smp := mk_smp {
  smp_cpus : list smp_cpu_state;
  apic_to_cpu : list Z;
  smp_cpu_count : Z;
  smp_boot_cpu : Z;
  lapic_base_phys : Z;
  lapic_base_virt : option Z;
  lapic_ready : bool;
  smp_started : bool;
  smp_release_secondaries : bool;
  lapic_writes : list (Z * Z);
  icr_reads : nat;
  ipi_vectors : list Z;
  pages : paging;
  scheduler : sched
}.

(** The part of the state that describes the processors. *)
Definition set_topology (c : list smp_cpu_state) (m : list Z) (n b : Z) (s : smp) : smp :=
  mk_smp c m n b (lapic_base_phys s) (lapic_base_virt s) (lapic_ready s) (smp_started s) (smp_release_secondaries s)
    (lapic_writes s) (icr_reads s) (ipi_vectors s) (pages s) (scheduler s).
Definition set_lapic (base : Z) (virt : option Z) (ready : bool) (s : smp) : smp :=
  mk_smp (smp_cpus s) (apic_to_cpu s) (smp_cpu_count s) (smp_boot_cpu s) base virt ready (smp_started s)
    (smp_release_secondaries s) (lapic_writes s) (icr_reads s) (ipi_vectors s) (pages s) (scheduler s).
Definition set_released (st rel : bool) (s : smp) : smp :=
  mk_smp (smp_cpus s) (apic_to_cpu s) (smp_cpu_count s) (smp_boot_cpu s) (lapic_base_phys s) (lapic_base_virt s) (lapic_ready s)
    st rel (lapic_writes s) (icr_reads s) (ipi_vectors s) (pages s) (scheduler s).
Definition set_io (w : list (Z * Z)) (n : nat) (v : list Z) (s : smp) : smp :=
  mk_smp (smp_cpus s) (apic_to_cpu s) (smp_cpu_count s) (smp_boot_cpu s) (lapic_base_phys s) (lapic_base_virt s) (lapic_ready s)
    (smp_started s) (smp_release_secondaries s) w n v (pages s) (scheduler s).
Definition set_pages (p : paging) (s : smp) : smp :=
  mk_smp (smp_cpus s) (apic_to_cpu s) (smp_cpu_count s) (smp_boot_cpu s) (lapic_base_phys s) (lapic_base_virt s) (lapic_ready s)
    (smp_started s) (smp_release_secondaries s) (lapic_writes s) (icr_reads s) (ipi_vectors s) p (scheduler s).
Definition set_scheduler (k : sched) (s : smp) : smp :=
  mk_smp (smp_cpus s) (apic_to_cpu s) (smp_cpu_count s) (smp_boot_cpu s) (lapic_base_phys s) (lapic_base_virt s) (lapic_ready s)
    (smp_started s) (smp_release_secondaries s) (lapic_writes s) (icr_reads s) (ipi_vectors s) (pages s) k.

(** Running a function of paging.c or scheduler.c. *)
Definition on_paging {A} (m : M paging A) : M smp A :=
  fun s => match m (pages s) with
           | Done a p => Done a (set_pages p s)
           | Panic msg p => Panic msg (set_pages p s)
           | Fault => Fault
           | Spin => Spin
           end.
Definition on_scheduler {A} (m : M sched A) : M smp A :=
  fun s => match m (scheduler s) with
           | Done a k => Done a (set_scheduler k s)
           | Panic msg k => Panic msg (set_scheduler k s)
           | Fault => Fault
           | Spin => Spin
           end.

(** ** Topology *)

Definition cpu_at (i : Z) : M smp smp_cpu_state := l <- gets smp_cpus ;; of_option (l !! Z.to_nat i).
Definition cpu_put (i : Z) (c : smp_cpu_state) : M smp unit :=
  l <- gets smp_cpus ;;
  if (0 <=? i) && (i <? Z.of_nat (length l))
  then modify (fun s => set_topology (<[Z.to_nat i := c]> (smp_cpus s)) (apic_to_cpu s) (smp_cpu_count s) (smp_boot_cpu s) s)
  else fault.
Definition apic_put (id cpu : Z) : M smp unit :=
  modify (fun s => set_topology (smp_cpus s) (<[Z.to_nat id := u8 cpu]> (apic_to_cpu s)) (smp_cpu_count s) (smp_boot_cpu s) s).

Definition cpu_reset_topology : M smp unit :=
  for_each 0 SCHEDULER_MAX_CPUS (fun i => cpu_put i no_cpu) ;;;
  for_each 0 256 (fun i => apic_put i CPU_ID_INVALID) ;;;
  modify (fun s => set_topology (smp_cpus s) (apic_to_cpu s) 1 0 s) ;;;
  modify (set_released false false).

Section Cpu.
(** The kernel's image, and what CPUID leaf 1 returns in EBX and EDX. *)
Context (img : kernel_image) (cpuid_ebx cpuid_edx : Z).

Definition cpu_bootstrap_apic_id : Z := u8 (Z.land (Z.shiftr cpuid_ebx 24) 0xFF).
Definition cpu_has_local_apic : bool := negb (Z.land cpuid_edx (Z.shiftl 1 9) =? 0).

(** *** The BIOS tables *)

(** The [size] bytes at an offset of the structure at a physical address, through the
    direct map: a structure that the map does not hold to that byte faults. *)
Definition phys_field {A} (read : memory -> Z -> A) (size p offset : Z) : M smp A :=
  v <- Prelude.paging_phys_to_virt p ;;
  if KERNEL_DIRECT_MAP_LIMIT_PHYS <? v - KERNEL_VMA + offset + size then fault
  else gets (fun s => read (phys (pages s)) (v - KERNEL_VMA + offset)).
Definition phys_byte : Z -> Z -> M smp Z := phys_field read_u8 1.
Definition phys_u16 : Z -> Z -> M smp Z := phys_field read_u16 2.
Definition phys_u32 : Z -> Z -> M smp Z := phys_field read_u32 4.

(** The sum of the first bytes of a structure. *)
Definition byte_checksum (data length : Z) : M smp Z :=
  phys_field (fun m a => fold_left (fun sum i => u8 (sum + read_u8 m (a + i))) (seqZ 0 length) 0) length data 0.

(** The four characters of a signature. *)
Definition signature_is (p a b c d : Z) : M smp bool :=
  x <- phys_byte p 0 ;; y <- phys_byte p 1 ;; z <- phys_byte p 2 ;; w <- phys_byte p 3 ;;
  ret ((x =? a) && (y =? b) && (z =? c) && (w =? d)).

(** The test of one position of the scan. *)
Definition mp_candidate (phys_addr : Z) : M smp bool :=
  sig <- signature_is phys_addr 95 77 80 95 ;;
  if negb sig then ret false else
  len <- phys_byte phys_addr 8 ;;
  let table_length := len * 16 in
  if table_length <? sizeof_mp_floating_pointer_t then ret false else
  sum <- byte_checksum phys_addr table_length ;;
  ret (sum =? 0).

Fixpoint mp_scan_loop (fuel : nat) (phys_addr end_phys : Z) : M smp (option Z) :=
  match fuel with
  | O => fun _ => Spin
  | S fuel' =>
      if negb (u32 (phys_addr + sizeof_mp_floating_pointer_t) <=? end_phys) then ret None else
      found <- mp_candidate phys_addr ;;
      if found then ret (Some phys_addr) else mp_scan_loop fuel' (u32 (phys_addr + 16)) end_phys
  end.

(** The address found, or [None] for NULL; a range of [length] bytes has at most
    [length / 16] positions. *)
Definition mp_scan_range (start_phys length : Z) : M smp (option Z) :=
  if length <? sizeof_mp_floating_pointer_t then ret None else
  let end_phys := u32 (start_phys + length) in
  if end_phys <? start_phys then ret None else
  mp_scan_loop (Z.to_nat (length / 16) + 1) start_phys end_phys.

Definition mp_find_floating_pointer : M smp (option Z) :=
  ebda_segment <- phys_u16 0x40E 0 ;;
  r <- (if negb (ebda_segment =? 0) then mp_scan_range (u32 (Z.shiftl ebda_segment 4)) 1024 else ret None) ;;
  match r with
  | Some mp => ret (Some mp)
  | None =>
      base_mem_kib <- phys_u16 0x413 0 ;;
      r <- (if 1 <=? base_mem_kib then mp_scan_range (u32 (u32 (base_mem_kib * 1024) - 1024)) 1024 else ret None) ;;
      match r with
      | Some mp => ret (Some mp)
      | None => mp_scan_range 0xF0000 0x10000
      end
  end.

(** What the loop over the entries keeps: the identifiers found (in order), which
    were seen, the boot processor's identifier and the cursor's offset. *)
Record mp_scan := mk_scan { apic_ids : list Z; bsp_apic : Z; cursor : Z }.

Definition mp_entry (header len : Z) (acc : mp_scan) : M smp (mp_scan + option (list Z * Z)) :=
  type <- phys_byte header (cursor acc) ;;
  if type =? 0 then
    if len - cursor acc <? sizeof_mp_processor_entry_t then ret (inr None) else
    local_apic_id <- phys_byte header (cursor acc + 1) ;;
    cpu_flags <- phys_byte header (cursor acc + 3) ;;
    let enabled := negb (Z.land cpu_flags 0x01 =? 0) in
    let is_bsp := negb (Z.land cpu_flags 0x02 =? 0) in
    let bsp := if enabled && is_bsp then local_apic_id else bsp_apic acc in
    let ids := if enabled && negb (bool_decide (local_apic_id ∈ apic_ids acc))
               then apic_ids acc ++ [local_apic_id] else apic_ids acc in
    ret (inl (mk_scan ids bsp (cursor acc + sizeof_mp_processor_entry_t)))
  else if len - cursor acc <? 8 then ret (inr None)
  else ret (inl (mk_scan (apic_ids acc) (bsp_apic acc) (cursor acc + 8))).

(** The loop [entry < entry_count && cursor < end]. *)
Definition mp_entries (header len entry_count bsp : Z) : M smp (option (list Z * Z)) :=
  r <- for_acc 0 entry_count (mk_scan [] bsp sizeof_mp_config_table_header_t) (fun _ acc =>
    if negb (cursor acc <? len) then ret (inr (Some (apic_ids acc, bsp_apic acc)))
    else mp_entry header len acc) ;;
  match r with
  | inl acc => ret (Some (apic_ids acc, bsp_apic acc))
  | inr r => ret r
  end.

(** The identifiers and the boot processor's, or [None] for [false]. *)
Definition mp_collect_cpu_ids (mp : option Z) : M smp (option (list Z * Z)) :=
  match mp with
  | None => ret None
  | Some mp =>
      config_table_phys <- phys_u32 mp 4 ;;
      feature1 <- phys_byte mp 11 ;;
      if (config_table_phys =? 0) || negb (feature1 =? 0) then ret None else
      sig <- signature_is config_table_phys 80 67 77 80 ;;
      if negb sig then ret None else
      base_table_length <- phys_u16 config_table_phys 4 ;;
      if base_table_length <? sizeof_mp_config_table_header_t then ret None else
      sum <- byte_checksum config_table_phys base_table_length ;;
      if negb (sum =? 0) then ret None else
      entry_count <- phys_u16 config_table_phys 34 ;;
      local_apic_address <- phys_u32 config_table_phys 36 ;;
      modify (fun s => set_lapic local_apic_address (lapic_base_virt s) (lapic_ready s) s) ;;;
      r <- mp_entries config_table_phys base_table_length entry_count cpu_bootstrap_apic_id ;;
      match r with
      | None => ret None
      | Some (ids, bsp) => ret (if Z.of_nat (length ids) =? 0 then None else Some (ids, bsp))
      end
  end.

(** *** The processors *)

Definition cpu_set_single_cpu_fallback : M smp unit :=
  cpu_reset_topology ;;;
  c <- cpu_at 0 ;;
  cpu_put 0 (mk_smp_cpu cpu_bootstrap_apic_id true true (startup_stack_base c) (startup_stack_top c)) ;;;
  apic_put cpu_bootstrap_apic_id 0.

(** Entering a processor at a logical number. *)
Definition enter_cpu (logical id : Z) (started : bool) : M smp unit :=
  c <- cpu_at logical ;;
  cpu_put logical (mk_smp_cpu id true started (startup_stack_base c) (startup_stack_top c)) ;;;
  apic_put id logical.

(** The last loop: every other processor, while there is room. *)
Fixpoint enter_others (ids : list Z) (bsp logical_count : Z) : M smp Z :=
  match ids with
  | [] => ret logical_count
  | id :: ids' =>
      if negb (logical_count <? SCHEDULER_MAX_CPUS) then ret logical_count
      else if id =? bsp then enter_others ids' bsp logical_count
      else
        m <- gets apic_to_cpu ;;
        known <- of_option (m !! Z.to_nat id) ;;
        if negb (known =? CPU_ID_INVALID) then enter_others ids' bsp logical_count
        else enter_cpu logical_count id false ;;; enter_others ids' bsp (logical_count + 1)
  end.

Definition cpu_build_topology_from_apic_ids (ids : list Z) (bsp_apic_id : Z) : M smp unit :=
  cpu_reset_topology ;;;
  let bsp_present := bool_decide (bsp_apic_id ∈ ids) in
  logical_count <- (if negb bsp_present && (Z.of_nat (length ids) <? SCHEDULER_MAX_CPUS)
                    then enter_cpu 0 bsp_apic_id true ;;; ret 1 else ret 0) ;;
  logical_count <- (if bsp_present && (logical_count <? SCHEDULER_MAX_CPUS)
                    then enter_cpu logical_count bsp_apic_id true ;;;
                         modify (fun s => set_topology (smp_cpus s) (apic_to_cpu s) (smp_cpu_count s) (u8 logical_count) s) ;;;
                         ret (logical_count + 1)
                    else ret logical_count) ;;
  logical_count <- (if logical_count =? 0 then enter_cpu 0 bsp_apic_id true ;;; ret 1 else ret logical_count) ;;
  logical_count <- enter_others ids bsp_apic_id logical_count ;;
  modify (fun s => set_topology (smp_cpus s) (apic_to_cpu s) (u8 logical_count) (smp_boot_cpu s) s).

(** ** The local APIC *)

(** The MSR, the identification register, and the command register over time. *)
Context (apic_base_msr lapic_id : Z) (icr_low : nat -> Z).

Definition lapic_map_mmio : M smp bool :=
  virt <- gets lapic_base_virt ;;
  match virt with
  | Some _ => ret true
  | None =>
      page <- on_paging (paging_alloc_pages img 1) ;;
      match page with
      | None => ret false
      | Some reserved_page =>
          allocated_frame <- on_paging (paging_virt_to_phys img reserved_page) ;;
          on_paging (paging_unmap_page img reserved_page) ;;;
          on_paging (on_pmm (pmm_free_frame allocated_frame)) ;;;
          base <- gets lapic_base_phys ;;
          ok <- on_paging (paging_map_page img reserved_page (Z.land base 0xFFFFF000) PAGE_WRITABLE) ;;
          if negb ok then ret false else
          modify (fun s => set_lapic (lapic_base_phys s) (Some (reserved_page + Z.land (lapic_base_phys s) 0xFFF)) (lapic_ready s) s) ;;;
          ret true
      end
  end.

(** The registers are reached through the mapping. *)
Definition lapic_write (offset value : Z) : M smp unit :=
  virt <- gets lapic_base_virt ;;
  match virt with
  | None => fault
  | Some _ => modify (fun s => set_io (lapic_writes s ++ [(offset, u32 value)]) (icr_reads s) (ipi_vectors s) s)
  end.

Definition lapic_eoi : M smp unit :=
  ready <- gets lapic_ready ;;
  if negb ready then ret tt else lapic_write LAPIC_REG_EOI 0.

Definition lapic_enable_local_controller : M smp bool :=
  if negb cpu_has_local_apic then ret false else
  let apic_base := Z.lor apic_base_msr IA32_APIC_BASE_ENABLE in
  modify (fun s => set_lapic (u32 (Z.land apic_base IA32_APIC_BASE_ADDR_MASK)) (lapic_base_virt s) (lapic_ready s) s) ;;;
  ok <- lapic_map_mmio ;;
  if negb ok then ret false else
  lapic_write LAPIC_REG_TPR 0 ;;;
  lapic_write LAPIC_REG_SVR (Z.lor LAPIC_SVR_ENABLE LAPIC_SPURIOUS_VECTOR) ;;;
  modify (fun s => set_lapic (lapic_base_phys s) (lapic_base_virt s) true s) ;;;
  ret true.

Definition lapic_current_apic_id : M smp Z :=
  ready <- gets lapic_ready ;;
  ret (if negb ready then cpu_bootstrap_apic_id else u8 (Z.land (Z.shiftr lapic_id 24) 0xFF)).

Definition lapic_wait_icr_idle : M smp unit :=
  for_range 0 AP_STARTUP_TIMEOUT_SPINS (fun _ =>
    n <- gets icr_reads ;;
    modify (fun s => set_io (lapic_writes s) (S (icr_reads s)) (ipi_vectors s) s) ;;;
    ret (if Z.land (icr_low n) LAPIC_ICR_STATUS_PENDING =? 0 then Some tt else None)) ;;;
  ret tt.

Definition lapic_send_ipi (id icr : Z) : M smp unit :=
  ready <- gets lapic_ready ;;
  if negb ready then ret tt else
  lapic_wait_icr_idle ;;;
  lapic_write LAPIC_REG_ICR_HIGH (Z.shiftl id 24) ;;;
  lapic_write LAPIC_REG_ICR_LOW icr ;;;
  lapic_wait_icr_idle.

(** ** The interface *)

Definition cpu_current_id : M smp Z :=
  id <- lapic_current_apic_id ;;
  m <- gets apic_to_cpu ;;
  cpu_id <- of_option (m !! Z.to_nat id) ;;
  ret (if cpu_id =? CPU_ID_INVALID then 0 else cpu_id).

Definition cpu_smp_available : M smp bool := gets smp_started.

(** The configuration written for the scheduler. *)
Definition cpu_topology_config (s : smp) : scheduler_topology_config :=
  mk_topology (smp_cpu_count s) (smp_boot_cpu s) 1 (fun _ => 0)
    (fun i => (i <? smp_cpu_count s) && match smp_cpus s !! Z.to_nat i with Some c => cpu_present c | None => false end).

Definition cpu_smp_prepare_topology : M smp scheduler_topology_config :=
  cpu_set_single_cpu_fallback ;;;
  modify (fun s => set_lapic (lapic_base_phys s) (lapic_base_virt s) false s) ;;;
  (if cpu_has_local_apic then
     mp <- mp_find_floating_pointer ;;
     r <- mp_collect_cpu_ids mp ;;
     match r with
     | Some (ids, bsp) => cpu_build_topology_from_apic_ids ids bsp
     | None => ret tt
     end
   else ret tt) ;;;
  ok <- lapic_enable_local_controller ;;
  (if negb ok then cpu_set_single_cpu_fallback else ret tt) ;;;
  modify (fun s => set_io (lapic_writes s) (icr_reads s)
                     (ipi_vectors s ++ [CPU_IPI_RESCHEDULE_VECTOR; CPU_IPI_WAKEUP_VECTOR]) s) ;;;
  gets cpu_topology_config.

(** The handler of both interprocessor interrupts. *)
Definition cpu_on_ipi (frame : Z) : M smp (option Z) :=
  next <- on_scheduler (scheduler_on_yield frame) ;;
  lapic_eoi ;;;
  ret next.

Definition cpu_send_ipi_to (cpu_id vector : Z) : M smp unit :=
  s <- gets id ;;
  if negb (smp_started s) || negb (lapic_ready s) || (smp_cpu_count s <=? cpu_id) then ret tt else
  c <- cpu_at cpu_id ;;
  if negb (cpu_started c) then ret tt
  else lapic_send_ipi (apic_id c) (Z.lor LAPIC_ICR_DELIVERY_FIXED vector).
Definition cpu_send_reschedule_ipi (cpu_id : Z) : M smp unit := cpu_send_ipi_to cpu_id CPU_IPI_RESCHEDULE_VECTOR.
Definition cpu_send_wakeup_ipi (cpu_id : Z) : M smp unit := cpu_send_ipi_to cpu_id CPU_IPI_WAKEUP_VECTOR.

(** ** Starting the other processors *)

(** The start-up code of ap_trampoline.S: its bytes, the offsets of the words that
    are patched, and the address of its table of descriptors. *)
Record trampoline_image := mk_trampoline {
  ti_bytes : list Z;
  gdt_base_offset : Z;
  gdt_offset : Z;
  cr0_offset : Z;
  cr3_offset : Z;
  cr4_offset : Z;
  stack_offset : Z;
  entry_offset : Z
}.

(** The image, the control registers, the entry point, the scheduler's kernel space,
    and which processors come online in time. *)
Context (ti : trampoline_image) (cr0 cr3 cr4 i386_ap_startup_entry kernel_space : Z) (comes_online : Z -> bool).

(** [memcpy] of the image and a word stored at an offset of the copy. *)
Definition copy_trampoline (m : memory) : memory :=
  fun x => if (AP_TRAMPOLINE_PHYS <=? x) && (x <? AP_TRAMPOLINE_PHYS + Z.of_nat (length (ti_bytes ti)))
           then nth (Z.to_nat (x - AP_TRAMPOLINE_PHYS)) (ti_bytes ti) 0 else m x.
Definition patch (offset value : Z) (m : memory) : memory := write_u32 m (AP_TRAMPOLINE_PHYS + offset) (u32 value).

Definition cpu_prepare_ap_trampoline (stack_top : Z) : M smp bool :=
  let trampoline_size := Z.of_nat (length (ti_bytes ti)) in
  if (trampoline_size =? 0) || (PAGE_SIZE <? trampoline_size) then ret false else
  modify (fun s => set_pages (set_phys
    (patch (entry_offset ti) i386_ap_startup_entry
      (patch (stack_offset ti) stack_top
        (patch (cr4_offset ti) cr4
          (patch (cr3_offset ti) cr3
            (patch (cr0_offset ti) (Z.lor cr0 0x80000001)
              (patch (gdt_base_offset ti) (AP_TRAMPOLINE_PHYS + gdt_offset ti)
                (copy_trampoline (phys (pages s))))))))) (pages s)) s) ;;;
  ret true.

(** The processor sets its [started] flag, or the loop times out. *)
Definition cpu_wait_for_ap_online (cpu_id : Z) : M smp bool :=
  if negb (comes_online cpu_id) then ret false else
  c <- cpu_at cpu_id ;;
  cpu_put cpu_id (mk_smp_cpu (apic_id c) (cpu_present c) true (startup_stack_base c) (startup_stack_top c)) ;;;
  ret true.

Definition cpu_start_one_ap (cpu_id : Z) : M smp bool :=
  s <- gets id ;;
  if smp_cpu_count s <=? cpu_id then ret false else
  c <- cpu_at cpu_id ;;
  if negb (cpu_present c) then ret false else
  boot <- cpu_at (smp_boot_cpu s) ;;
  if apic_id c =? apic_id boot then ret true else
  ok <- (match startup_stack_base c with
         | Some _ => ret true
         | None =>
             stack <- on_paging (paging_alloc_pages img AP_BOOT_STACK_PAGES) ;;
             match stack with
             | None => ret false
             | Some base =>
                 cpu_put cpu_id (mk_smp_cpu (apic_id c) (cpu_present c) (cpu_started c) (Some base)
                                   (u32 (base + AP_BOOT_STACK_PAGES * PAGE_SIZE))) ;;;
                 ret true
             end
         end) ;;
  if negb ok then ret false else
  c <- cpu_at cpu_id ;;
  ok <- on_scheduler (scheduler_bootstrap_secondary_current kernel_space cpu_id (startup_stack_top c) (Some "cpu-idle"%string)) ;;
  if negb ok then ret false else
  ok <- cpu_prepare_ap_trampoline (startup_stack_top c) ;;
  if negb ok then ret false else
  cpu_put cpu_id (mk_smp_cpu (apic_id c) (cpu_present c) false (startup_stack_base c) (startup_stack_top c)) ;;;
  let vector := u8 (Z.shiftr AP_TRAMPOLINE_PHYS 12) in
  lapic_send_ipi (apic_id c) (Z.lor (Z.lor LAPIC_ICR_DELIVERY_INIT LAPIC_ICR_LEVEL_ASSERT) LAPIC_ICR_TRIGGER_LEVEL) ;;;
  lapic_send_ipi (apic_id c) (Z.lor LAPIC_ICR_DELIVERY_INIT LAPIC_ICR_TRIGGER_LEVEL) ;;;
  lapic_send_ipi (apic_id c) (Z.lor LAPIC_ICR_DELIVERY_STARTUP vector) ;;;
  lapic_send_ipi (apic_id c) (Z.lor LAPIC_ICR_DELIVERY_STARTUP vector) ;;;
  cpu_wait_for_ap_online cpu_id.

Definition cpu_smp_start_secondary_cores : M smp bool :=
  s <- gets id ;;
  if negb (lapic_ready s) || (smp_cpu_count s <=? 1) then ret true else
  modify (fun s => set_released (smp_started s) false s) ;;;
  r <- for_range 0 (smp_cpu_count s) (fun cpu_id =>
    if cpu_id =? smp_boot_cpu s then ret None else
    ok <- cpu_start_one_ap cpu_id ;;
    ret (if ok then None else Some false)) ;;
  ret (default true r).

Definition cpu_smp_release_secondary_cores : M smp unit :=
  s <- gets id ;;
  if negb (lapic_ready s) || (smp_cpu_count s <=? 1) then ret tt
  else modify (set_released true true).
End Cpu.
