(* ===== verification/CpuSpec.v ===== *)
(** What arch/i386/cpu.c computes: the processors that the firmware's tables list, the
    logical numbers they get, and a topology that the scheduler accepts. *)
From S2P Require Import Prelude Bootinfo Pmm Vma SchedData Sched SchedApi PagingData PagingTables Paging.
From S2P Require Import PagingFacts PagingAlloc SchedBoot Cpu.
From Stdlib Require Import ZArith Lia.
From stdpp Require Import sets.
Open Scope Z_scope.

(** * The processors and their numbers *)

(** The boot processor first, then each other identifier once, in the order of the
    tables, while there is room. *)
Definition join (l : list Z) (id : Z) : list Z :=
  if bool_decide (id ∈ l) || (SCHEDULER_MAX_CPUS <=? Z.of_nat (length l)) then l else l ++ [id].
Definition roster (bsp : Z) (ids : list Z) : list Z := fold_left join ids [bsp].

(** The tables of cpu.c describe the processors [l], the first of them running. *)
Record topo (l : list Z) (s : smp) : Prop := {
  tp_cpus : length (smp_cpus s) = 8%nat;
  tp_map : length (apic_to_cpu s) = 256%nat;
  tp_cpu i id : l !! i = Some id -> smp_cpus s !! i = Some (mk_smp_cpu id true (bool_decide (i = 0%nat)) None 0);
  tp_none i : (length l <= i < 8)%nat -> smp_cpus s !! i = Some no_cpu;
  tp_apic i id : l !! i = Some id -> apic_to_cpu s !! Z.to_nat id = Some (Z.of_nat i);
  tp_other id : fits 8 id -> id ∉ l -> apic_to_cpu s !! Z.to_nat id = Some CPU_ID_INVALID
}.

(** Only the description of the processors differs. *)
Definition retopo (s s' : smp) : Prop :=
  exists c m n b st rel, s' = set_topology c m n b (set_released st rel s).

Lemma retopo_refl s : retopo s s.
Proof. exists (smp_cpus s), (apic_to_cpu s), (smp_cpu_count s), (smp_boot_cpu s), (smp_started s), (smp_release_secondaries s). by destruct s. Qed.
Lemma retopo_trans s1 s2 s3 : retopo s1 s2 -> retopo s2 s3 -> retopo s1 s3.
Proof.
  intros (c & m & n & b & st & rel & ->) (c' & m' & n' & b' & st' & rel' & ->). by exists c', m', n', b', st', rel'.
Qed.
Lemma retopo_set s c m n b : retopo s (set_topology c m n b s).
Proof. exists c, m, n, b, (smp_started s), (smp_release_secondaries s). by destruct s. Qed.
Lemma retopo_released s st rel : retopo s (set_released st rel s).
Proof. exists (smp_cpus s), (apic_to_cpu s), (smp_cpu_count s), (smp_boot_cpu s), st, rel. by destruct s. Qed.
#[local] Hint Resolve retopo_refl retopo_set retopo_released : core.

(** Only the processors and their numbers differ. *)
Definition renumbered (s s' : smp) : Prop :=
  exists c m, s' = set_topology c m (smp_cpu_count s) (smp_boot_cpu s) s.

Lemma renumbered_refl s : renumbered s s.
Proof. exists (smp_cpus s), (apic_to_cpu s). by destruct s. Qed.
Lemma renumbered_trans s1 s2 s3 : renumbered s1 s2 -> renumbered s2 s3 -> renumbered s1 s3.
Proof. intros (c & m & ->) (c' & m' & ->). by exists c', m'. Qed.

(** ** The steps *)

Lemma cpu_put_wp i c (Q : unit -> smp -> Prop) s :
  0 <= i < Z.of_nat (length (smp_cpus s)) ->
  Q tt (set_topology (<[Z.to_nat i := c]> (smp_cpus s)) (apic_to_cpu s) (smp_cpu_count s) (smp_boot_cpu s) s) ->
  wp (cpu_put i c) Q s.
Proof.
  intros Hi HQ. unfold cpu_put. wp_step. wp_step. replace (_ && _)%bool with true by (symmetry; lia). by apply wp_modify.
Qed.

(** What resetting leaves. *)
Lemma reset_spec s :
  length (smp_cpus s) = 8%nat -> length (apic_to_cpu s) = 256%nat ->
  wp cpu_reset_topology (fun _ s' => topo [] s' /\ smp_cpu_count s' = 1 /\ smp_boot_cpu s' = 0 /\
    smp_started s' = false /\ retopo s s') s.
Proof.
  intros Hc Hm. unfold cpu_reset_topology, SCHEDULER_MAX_CPUS. wp_step.
  apply (wp_for_each _ _ _ (fun i s' => retopo s s' /\ length (smp_cpus s') = 8%nat /\ length (apic_to_cpu s') = 256%nat /\
    forall j, (j < Z.to_nat i)%nat -> smp_cpus s' !! j = Some no_cpu)); [lia|by repeat split; try lia| |].
  { intros i s1 Hi (R & L1 & L2 & Hj). apply cpu_put_wp; [lia|]. split; [by eapply retopo_trans|]. simpl. rewrite length_insert.
    split; [done|]. split; [done|]. intros j Hlt. destruct (decide (j = Z.to_nat i)) as [->|Hne].
    - apply list_lookup_insert_eq. lia.
    - rewrite list_lookup_insert_ne by done. apply Hj. lia. }
  intros s1 (R1 & L1 & L2 & Hj). wp_step.
  apply (wp_for_each _ _ _ (fun i s' => retopo s s' /\ smp_cpus s' = smp_cpus s1 /\ length (apic_to_cpu s') = 256%nat /\
    forall j, (j < Z.to_nat i)%nat -> apic_to_cpu s' !! j = Some CPU_ID_INVALID)); [lia|by repeat split; try lia| |].
  { intros i s2 Hi (R & E & L & Hk). apply wp_modify. split; [by eapply retopo_trans|]. simpl. rewrite length_insert.
    split; [done|]. split; [done|]. intros j Hlt. destruct (decide (j = Z.to_nat i)) as [->|Hne].
    - apply list_lookup_insert_eq. lia.
    - rewrite list_lookup_insert_ne by done. apply Hk. lia. }
  intros s2 (R & E & L & Hk). wp_steps. split; [split; simpl; try done|].
  - by rewrite E.
  - intros i Hi. rewrite E. apply Hj. lia.
  - intros id Hid _. apply Hk. unfold fits in Hid. change (2 ^ 8) with 256 in Hid. lia.
  - split; [done|]. split; [done|]. split; [done|].
    eapply retopo_trans; [exact R|]. eapply retopo_trans; [apply retopo_set|apply retopo_released].
Qed.

(** Entering a processor at the next number. *)
Lemma enter_spec l id started (Q : unit -> smp -> Prop) s :
  topo l s -> fits 8 id -> id ∉ l -> (length l < 8)%nat -> started = bool_decide (length l = 0%nat) ->
  (forall s', topo (l ++ [id]) s' -> renumbered s s' -> Q tt s') ->
  wp (enter_cpu (Z.of_nat (length l)) id started) Q s.
Proof.
  intros T Hid Hni Hl -> HQ. pose proof T as [T1 T2 T3 T4 T5 T6]. unfold enter_cpu, cpu_at. do 3 wp_step.
  eapply wp_of_option; [rewrite Nat2Z.id; by apply T4|]. wp_step. apply cpu_put_wp; [lia|]. rewrite Nat2Z.id. apply wp_modify.
  apply HQ; [|by do 2 eexists].
  assert (Hb : (Z.to_nat id < 256)%nat) by (unfold fits in Hid; change (2 ^ 8) with 256 in Hid; lia).
  assert (Hu : u8 (Z.of_nat (length l)) = Z.of_nat (length l)) by (apply wrap_small; unfold fits; change (2 ^ 8) with 256; lia).
  assert (Hin : forall i x, l !! i = Some x -> Z.to_nat x <> Z.to_nat id /\ i <> length l).
  { intros i x Hx. pose proof (lookup_lt_Some _ _ _ Hx). split; [|lia]. intros Ex. apply (T5 _ _) in Hx as Hy.
    rewrite Ex, (T6 id Hid Hni) in Hy. injection Hy as Hy. unfold CPU_ID_INVALID in Hy. lia. }
  split; simpl; rewrite ?length_insert; try done.
  - intros i x Hx. apply lookup_app_Some in Hx as [Hx|[Hge Hx]].
    + destruct (Hin _ _ Hx). rewrite list_lookup_insert_ne by done. by apply T3.
    + apply list_lookup_singleton_Some in Hx as [Hz <-]. replace i with (length l) by lia. by rewrite list_lookup_insert_eq by lia.
  - intros i [Hi1 Hi2]. rewrite length_app in Hi1. simpl in Hi1. rewrite list_lookup_insert_ne by lia. apply T4. lia.
  - intros i x Hx. apply lookup_app_Some in Hx as [Hx|[Hge Hx]].
    + destruct (Hin _ _ Hx). rewrite list_lookup_insert_ne by done. by apply T5.
    + apply list_lookup_singleton_Some in Hx as [Hz <-]. rewrite list_lookup_insert_eq by lia. rewrite Hu. do 2 f_equal. lia.
  - intros x Hx Hnx. rewrite not_elem_of_app in Hnx. destruct Hnx as [Hnx Hne]. rewrite list_elem_of_singleton in Hne.
    rewrite list_lookup_insert_ne; [by apply T6|]. unfold fits in *. lia.
Qed.

(** Which identifiers the map knows. *)
Lemma topo_known l s id :
  topo l s -> fits 8 id -> (length l <= 8)%nat ->
  exists v, apic_to_cpu s !! Z.to_nat id = Some v /\ (v =? CPU_ID_INVALID) = negb (bool_decide (id ∈ l)).
Proof.
  intros T Hid Hl. destruct (decide (id ∈ l)) as [Hin|Hni].
  - rewrite bool_decide_eq_true_2 by done. apply list_elem_of_lookup in Hin as [i Hi]. pose proof (lookup_lt_Some _ _ _ Hi).
    exists (Z.of_nat i). split; [by apply T|]. unfold CPU_ID_INVALID. simpl. lia.
  - rewrite bool_decide_eq_false_2 by done. exists CPU_ID_INVALID. split; [by apply T|done].
Qed.

Lemma roster_full ids l : (8 <= length l)%nat -> fold_left join ids l = l.
Proof.
  intros Hl. induction ids as [|id ids IH]; [done|]. simpl. unfold join at 2.
  replace (SCHEDULER_MAX_CPUS <=? Z.of_nat (length l)) with true by (symmetry; unfold SCHEDULER_MAX_CPUS; lia).
  by rewrite orb_true_r.
Qed.

(** The roster has each identifier once, and leaves one out only for want of room. *)
Lemma join_ok l id x :
  NoDup l -> (length l <= 8)%nat ->
  NoDup (join l id) /\ (length l <= length (join l id) <= 8)%nat /\ (x ∈ join l id -> x ∈ l \/ x = id) /\
  (x ∈ l -> x ∈ join l id) /\ (id ∈ join l id \/ length (join l id) = 8%nat) /\ join l id !! 0%nat = (l ++ [id]) !! 0%nat.
Proof.
  intros Hnd Hl. unfold join, SCHEDULER_MAX_CPUS.
  destruct (bool_decide_reflect (id ∈ l)) as [Hin|Hni]; [|destruct (Z.leb_spec 8 (Z.of_nat (length l)))]; simpl.
  - repeat split; auto with lia. by destruct l; [apply not_elem_of_nil in Hin|].
  - repeat split; auto with lia. destruct l; [simpl in *; lia|done].
  - rewrite length_app. simpl. repeat split; [|lia|lia|set_solver|set_solver|set_solver].
    apply NoDup_app. split; [done|]. split; [set_solver|apply NoDup_singleton].
Qed.

Lemma roster_from ids l :
  NoDup l -> (length l <= 8)%nat ->
  let r := fold_left join ids l in
  NoDup r /\ (length l <= length r <= 8)%nat /\ (forall x, x ∈ r -> x ∈ l \/ x ∈ ids) /\ (forall x, x ∈ l -> x ∈ r) /\
  (forall x, x ∈ ids -> x ∈ r \/ length r = 8%nat).
Proof.
  revert l. induction ids as [|id ids IH]; intros l Hnd Hl; simpl; [repeat split; try done; auto; set_solver|].
  destruct (join_ok l id 0 Hnd Hl) as (Hnd' & Hl' & _ & _ & Hid & _). destruct (IH (join l id) Hnd' ltac:(lia)) as (A1 & A2 & A3 & A4 & A5).
  split; [done|]. split; [lia|]. split; [|split].
  - intros x Hx. destruct (A3 x Hx) as [Hj|Hi]; [|set_solver]. destruct (join_ok l id x Hnd Hl) as (_ & _ & H & _). destruct (H Hj); set_solver.
  - intros x Hx. apply A4. by apply (join_ok l id x Hnd Hl).
  - intros x [->|Hx]%elem_of_cons; [|auto]. destruct Hid as [Hj|Hf]; [left; by apply A4|right]. lia.
Qed.

Lemma roster_ok bsp ids :
  let r := roster bsp ids in
  NoDup r /\ (1 <= length r <= 8)%nat /\ (forall x, x ∈ r -> x = bsp \/ x ∈ ids) /\ bsp ∈ r /\
  (forall x, x ∈ ids -> x ∈ r \/ length r = 8%nat).
Proof.
  destruct (roster_from ids [bsp]) as (A1 & A2 & A3 & A4 & A5); [apply NoDup_singleton|simpl; lia|]. unfold roster.
  repeat split; [done|simpl in A2; lia|lia| |apply A4; set_solver|done].
  intros x Hx. destruct (A3 x Hx); set_solver.
Qed.

Lemma enter_others_spec ids bsp l (Q : Z -> smp -> Prop) s :
  topo l s -> Forall (fits 8) ids -> bsp ∈ l -> (0 < length l <= 8)%nat ->
  (forall s', topo (fold_left join ids l) s' -> renumbered s s' -> Q (Z.of_nat (length (fold_left join ids l))) s') ->
  wp (enter_others ids bsp (Z.of_nat (length l))) Q s.
Proof.
  revert l s. induction ids as [|id ids IH]; intros l s T Hids Hb Hl HQ; simpl; [apply wp_ret, HQ; [done|apply renumbered_refl]|].
  inversion Hids as [|? ? Hid Hids']; subst. destruct (topo_known l s id T Hid ltac:(lia)) as (v & Hv & Ev).
  destruct (Z.ltb_spec (Z.of_nat (length l)) SCHEDULER_MAX_CPUS) as [Hlt|Hge]; simpl.
  2: { unfold SCHEDULER_MAX_CPUS in Hge. rewrite (roster_full (id :: ids) l) in HQ by lia. apply wp_ret, HQ; [done|apply renumbered_refl]. }
  assert (Hskip : id ∈ l -> wp (enter_others ids bsp (Z.of_nat (length l))) Q s).
  { intros Hin. apply IH; [done..|]. simpl in HQ. unfold join at 2 4 in HQ. by rewrite bool_decide_eq_true_2 in HQ by done. }
  destruct (Z.eqb_spec id bsp) as [->|Hne]; [by apply Hskip|]. wp_step. wp_step. wp_step.
  eapply wp_of_option; [done|]. rewrite Ev. destruct (bool_decide_reflect (id ∈ l)) as [Hin|Hni]; simpl; [by apply Hskip|].
  wp_step. unfold SCHEDULER_MAX_CPUS in Hlt. apply (enter_spec l); [done|done|done|lia|by rewrite bool_decide_eq_false_2 by lia|].
  intros s1 T1 R1. replace (Z.of_nat (length l) + 1) with (Z.of_nat (length (l ++ [id]))) by (rewrite length_app; simpl; lia).
  assert (Ej : join l id = l ++ [id]).
  { unfold join. rewrite bool_decide_eq_false_2 by done. unfold SCHEDULER_MAX_CPUS. by replace (8 <=? _) with false by lia. }
  simpl in HQ. rewrite Ej in HQ. apply IH; [done|done|set_solver|rewrite length_app; simpl; lia|].
  intros s2 T2 R2. apply HQ; [done|by eapply renumbered_trans].
Qed.

(** The last steps, from a state where the boot processor has number 0. *)
Lemma build_rest ids bsp (Q : unit -> smp -> Prop) s :
  topo [bsp] s -> Forall (fits 8) ids -> smp_boot_cpu s = 0 ->
  (forall s', topo (roster bsp ids) s' -> smp_cpu_count s' = Z.of_nat (length (roster bsp ids)) -> smp_boot_cpu s' = 0 ->
     smp_started s' = smp_started s -> retopo s s' -> Q tt s') ->
  wp (bind (enter_others ids bsp 1) (fun logical_count =>
        modify (fun s => set_topology (smp_cpus s) (apic_to_cpu s) (u8 logical_count) (smp_boot_cpu s) s))) Q s.
Proof.
  intros T Hids Hb HQ. wp_step. change 1 with (Z.of_nat (length [bsp])).
  apply enter_others_spec; [done|done|set_solver|simpl; lia|]. fold (roster bsp ids). intros s' T' (c & m & ->). apply wp_modify.
  apply HQ; [by destruct T'; split| |done|done|eapply retopo_trans; apply retopo_set]. simpl. apply wrap_small.
  destruct (roster_ok bsp ids) as (_ & Hl & _). unfold fits. change (2 ^ 8) with 256. lia.
Qed.

(** The boot processor is entered first on every path. *)
Lemma build_spec ids bsp s :
  length (smp_cpus s) = 8%nat -> length (apic_to_cpu s) = 256%nat -> Forall (fits 8) ids -> fits 8 bsp ->
  wp (cpu_build_topology_from_apic_ids ids bsp) (fun _ s' => topo (roster bsp ids) s' /\
    smp_cpu_count s' = Z.of_nat (length (roster bsp ids)) /\ smp_boot_cpu s' = 0 /\ smp_started s' = false /\ retopo s s') s.
Proof.
  intros Hc Hm Hids Hbsp. unfold cpu_build_topology_from_apic_ids. wp_step.
  eapply wp_mono; [by apply reset_spec|]. intros [] s1 (T1 & C1 & B1 & St1 & R1). cbv zeta.
  assert (Hin : forall (Q : unit -> smp -> Prop), (forall s', topo [bsp] s' -> renumbered s1 s' -> Q tt s') -> wp (enter_cpu 0 bsp true) Q s1).
  { intros Q HQ. apply (enter_spec []); [done|done|set_solver|simpl; lia|done|exact HQ]. }
  unfold SCHEDULER_MAX_CPUS. wp_step.
  destruct (bool_decide (bsp ∈ ids)); simpl.
  - wp_step. wp_step. change (0 <? 8) with true. cbv iota. wp_step. apply Hin. intros s2 T2 (c & m & ->).
    do 4 wp_step. change (0 + 1 =? 0) with false. cbv iota. wp_step.
    apply build_rest; [by destruct T2; split|done|done|]. intros s' T' C' B' S' R'. rewrite S'. simpl.
    repeat (split; [done|]). eapply retopo_trans; [exact R1|]. eapply retopo_trans; [apply retopo_set|]. eapply retopo_trans; [apply retopo_set|done].
  - destruct (Z.of_nat (length ids) <? 8).
    + wp_step. apply Hin. intros s2 T2 (c & m & ->). do 4 wp_step. change (1 =? 0) with false. cbv iota. wp_step.
      apply build_rest; [done|done|done|]. intros s' T' C' B' S' R'. rewrite S'. simpl.
      repeat (split; [done|]). eapply retopo_trans; [exact R1|]. eapply retopo_trans; [apply retopo_set|done].
    + do 4 wp_step. change (0 =? 0) with true. cbv iota. wp_step. apply Hin. intros s2 T2 (c & m & ->). wp_step.
      apply build_rest; [done|done|done|]. intros s' T' C' B' S' R'. rewrite S'. simpl.
      repeat (split; [done|]). eapply retopo_trans; [exact R1|]. eapply retopo_trans; [apply retopo_set|done].
Qed.

(** * The firmware's tables *)

(** An entry of the configuration table: a processor with its flags, or a bus, an
    interrupt controller or a line. *)
Inductive mp_item :=
  | Processor (id flags : Z)
  | Device (type : Z).
Definition item_size (e : mp_item) : Z := match e with Processor _ _ => 20 | Device _ => 8 end.
Definition items_size (es : list mp_item) : Z := fold_right (fun e n => item_size e + n) 0 es.

(** The entries are in memory one after the other. *)
Fixpoint laid_out (m : memory) (a : Z) (es : list mp_item) : Prop :=
  match es with
  | [] => True
  | e :: es' =>
      match e with
      | Processor id flags => read_u8 m a = 0 /\ read_u8 m (a + 1) = id /\ read_u8 m (a + 3) = flags
      | Device type => type <> 0 /\ read_u8 m a = type
      end /\ laid_out m (a + item_size e) es'
  end.

(** The enabled processors, each once in the order of the table, and the one marked
    as the boot processor. *)
Definition enlist (acc : list Z * Z) (e : mp_item) : list Z * Z :=
  match e with
  | Processor id flags =>
      if Z.testbit flags 0
      then (if bool_decide (id ∈ acc.1) then acc.1 else acc.1 ++ [id], if Z.testbit flags 1 then id else acc.2)
      else acc
  | Device _ => acc
  end.
Definition listed (boot : Z) (es : list mp_item) : list Z * Z := fold_left enlist es ([], boot).

Lemma flag_test x k : 0 <= k -> negb (Z.land x (2 ^ k) =? 0) = Z.testbit x k.
Proof. intros Hk. by rewrite land_testbit, negb_involutive. Qed.

Lemma phys_field_wp {A} (read : memory -> Z -> A) size p off (Q : A -> smp -> Prop) s :
  0 <= p < KERNEL_DIRECT_MAP_LIMIT_PHYS -> p + off + size <= KERNEL_DIRECT_MAP_LIMIT_PHYS ->
  Q (read (phys (pages s)) (p + off)) s -> wp (phys_field read size p off) Q s.
Proof.
  intros Hp Ho HQ. unfold phys_field, Prelude.paging_phys_to_virt. wp_step.
  replace (KERNEL_DIRECT_MAP_LIMIT_PHYS <=? p) with false by lia. rewrite wrap_small.
  2: { unfold KERNEL_VMA, KERNEL_DIRECT_MAP_LIMIT_PHYS in *. word_lia. }
  wp_step. replace (KERNEL_VMA + p - KERNEL_VMA + off) with (p + off) by lia.
  by replace (KERNEL_DIRECT_MAP_LIMIT_PHYS <? p + off + size) with false by lia.
Qed.

(** ** Reading the entries *)

Ltac limits := unfold KERNEL_DIRECT_MAP_LIMIT_PHYS, sizeof_mp_processor_entry_t, sizeof_mp_config_table_header_t, sizeof_mp_floating_pointer_t in *.
Ltac field := apply phys_field_wp; [limits; lia|limits; lia|].

(** What the loop keeps on every table. *)
Record scan_ok (len : Z) (acc : mp_scan) : Prop := {
  so_ids : Forall (fits 8) (apic_ids acc);
  so_nodup : NoDup (apic_ids acc);
  so_bsp : fits 8 (bsp_apic acc);
  so_cursor : 44 <= cursor acc
}.

Lemma mp_entry_total header len acc s :
  0 <= header -> header + len <= KERNEL_DIRECT_MAP_LIMIT_PHYS -> scan_ok len acc -> cursor acc < len ->
  wp (mp_entry header len acc) (fun r s' => s' = s /\
    match r with inl acc' => scan_ok len acc' | inr r => r = None end) s.
Proof.
  intros Hh Hlen [H1 H2 H3 H4] Hc. unfold mp_entry. wp_step. field. wp_step.
  - wp_step; [by apply wp_ret|]. wp_step. field. wp_step. field. apply wp_ret. split; [done|].
    split; simpl; [| | |unfold sizeof_mp_processor_entry_t; lia].
    + destruct (_ && _); [|done]. apply Forall_app. split; [done|]. apply Forall_singleton, read_u8_fits.
    + destruct (bool_decide_reflect (read_u8 (phys (pages s)) (header + (cursor acc + 1)) ∈ apic_ids acc)); [by rewrite andb_false_r|].
      rewrite andb_true_r. destruct (negb _); [|done]. apply NoDup_app. split; [done|]. split; [set_solver|apply NoDup_singleton].
    + destruct (_ && _); [|done]. apply read_u8_fits.
  - wp_step; [by apply wp_ret|]. apply wp_ret. split; [done|]. split; simpl; try done. lia.
Qed.

Lemma mp_entries_total header len n bsp s :
  0 <= header -> header + len <= KERNEL_DIRECT_MAP_LIMIT_PHYS -> 0 <= n -> fits 8 bsp ->
  wp (mp_entries header len n bsp) (fun r s' => s' = s /\
    match r with Some (ids, b) => Forall (fits 8) ids /\ NoDup ids /\ fits 8 b | None => True end) s.
Proof.
  intros Hh Hlen Hn Hb. unfold mp_entries. wp_step.
  apply (wp_for_acc _ _ _ _ (fun _ acc s' => s' = s /\ scan_ok len acc)); [lia|split; [done|]| |].
  { split; simpl; [constructor|constructor|done|limits; lia]. }
  - intros i acc s' _ [-> Hok]. destruct (Z.ltb_spec (cursor acc) len) as [Hc|Hc]; simpl.
    + eapply wp_mono; [by apply mp_entry_total|]. intros [acc'|r] s' [-> Hr]; [by split|]. subst r. wp_step. by split.
    + apply wp_ret. wp_step. split; [done|]. by destruct Hok.
  - intros acc s' [-> Hok]. wp_step. split; [done|]. by destruct Hok.
Qed.

(** An entry that memory holds is read as it is. *)
Lemma mp_entry_item header len ids b cur e es s :
  0 <= header -> header + len <= KERNEL_DIRECT_MAP_LIMIT_PHYS -> 0 <= cur -> cur + item_size e <= len ->
  laid_out (phys (pages s)) (header + cur) (e :: es) ->
  wp (mp_entry header len (mk_scan ids b cur)) (fun r s' => s' = s /\
    r = inl (mk_scan (enlist (ids, b) e).1 (enlist (ids, b) e).2 (cur + item_size e))) s.
Proof.
  intros Hh Hlen Hc Hsz [He _]. unfold mp_entry. cbn [apic_ids bsp_apic cursor]. limits. wp_step.
  destruct e as [id flags|type]; cbn [item_size enlist fst snd] in *.
  - destruct He as (E1 & E2 & E3). field. rewrite E1. change (0 =? 0) with true. cbv iota. replace (len - cur <? 20) with false by lia.
    wp_step. field. wp_step. field. apply wp_ret. split; [done|].
    rewrite (Z.add_assoc header cur 1), (Z.add_assoc header cur 3), E2, E3.
    change 1 with (2 ^ 0) at 1 2. change 2 with (2 ^ 1). rewrite !flag_test by lia.
    destruct (Z.testbit flags 0), (Z.testbit flags 1); simpl; try done; by destruct (bool_decide (id ∈ ids)).
  - destruct He as [E1 E2]. field. rewrite E2. replace (type =? 0) with false by lia. replace (len - cur <? 8) with false by lia.
    by apply wp_ret.
Qed.

Lemma items_size_drop es i :
  items_size es = items_size (take i es) + items_size (drop i es).
Proof.
  revert i. induction es as [|e es IH]; intros [|i]; simpl; try lia. rewrite (IH i). lia.
Qed.
Lemma items_size_nonneg es : 0 <= items_size es.
Proof. induction es as [|e es IH]; simpl; [lia|]. destruct e; simpl; lia. Qed.

Lemma laid_out_drop m es i a : laid_out m a es -> laid_out m (a + items_size (take i es)) (drop i es).
Proof.
  revert i a. induction es as [|e es IH]; intros [|i] a H; simpl; try done; [by rewrite Z.add_0_r|].
  rewrite Z.add_assoc. apply IH. by destruct H.
Qed.

Lemma mp_entries_items header len bsp es s :
  0 <= header -> header + len <= KERNEL_DIRECT_MAP_LIMIT_PHYS -> 44 + items_size es <= len ->
  laid_out (phys (pages s)) (header + 44) es ->
  wp (mp_entries header len (Z.of_nat (length es)) bsp) (fun r s' => s' = s /\ r = Some (listed bsp es)) s.
Proof.
  intros Hh Hlen Hsz Hes. unfold mp_entries. wp_step.
  apply (wp_for_acc _ _ _ _ (fun i acc s' => s' = s /\
    acc = mk_scan (listed bsp (take (Z.to_nat i) es)).1 (listed bsp (take (Z.to_nat i) es)).2
            (44 + items_size (take (Z.to_nat i) es)))); [lia|done| |].
  - intros i acc s' Hi [-> ->]. destruct (lookup_lt_is_Some_2 es (Z.to_nat i)) as [e He]; [lia|].
    pose proof (items_size_drop es (Z.to_nat i)) as E. rewrite (drop_S es e _ He) in E. simpl in E.
    pose proof (items_size_nonneg (drop (S (Z.to_nat i)) es)). pose proof (items_size_nonneg (take (Z.to_nat i) es)).
    replace (_ <? len) with true by (symmetry; destruct e; simpl in *; lia). simpl negb. cbv iota.
    eapply wp_mono; [eapply (mp_entry_item _ _ _ _ _ e (drop (S (Z.to_nat i)) es)); [done|done|lia|lia|]|].
    { rewrite <- (drop_S es e _ He), Z.add_assoc. by apply laid_out_drop. }
    intros r s' [-> ->]. split; [done|]. replace (Z.to_nat (i + 1)) with (S (Z.to_nat i)) by lia. rewrite (take_S_r _ _ _ He).
    unfold listed. rewrite fold_left_app. unfold items_size. rewrite fold_right_app. cbn [fold_left].
    rewrite <- surjective_pairing. f_equal. simpl. rewrite Z.add_0_r. fold (items_size (take (Z.to_nat i) es)).
    change (fold_right _ (item_size e) ?l) with (fold_right (fun e n => item_size e + n) (item_size e) l). rewrite <- Z.add_assoc. f_equal.
    clear. induction (take (Z.to_nat i) es) as [|e' l IH]; simpl; [done|]. unfold items_size in *. simpl. lia.
  - intros acc s' [-> ->]. wp_step. split; [done|]. rewrite Nat2Z.id, firstn_all. simpl. by rewrite <- surjective_pairing.
Qed.

(** ** The configuration table *)

Definition sum_of (m : memory) (a n : Z) : Z := fold_left (fun sum i => u8 (sum + read_u8 m (a + i))) (seqZ 0 n) 0.
Definition signed (m : memory) (p a b c d : Z) : bool :=
  (read_u8 m (p + 0) =? a) && (read_u8 m (p + 1) =? b) && (read_u8 m (p + 2) =? c) && (read_u8 m (p + 3) =? d).

Lemma signature_wp p a b c d (Q : bool -> smp -> Prop) s :
  0 <= p -> p + 4 <= KERNEL_DIRECT_MAP_LIMIT_PHYS -> Q (signed (phys (pages s)) p a b c d) s -> wp (signature_is p a b c d) Q s.
Proof. intros Hp Hl HQ. unfold signature_is. do 4 (wp_step; field). by apply wp_ret. Qed.

(** The table that a floating pointer names, when it names one that is valid. *)
Definition table_of (m : memory) (mp : Z) : Z := read_u32 m (mp + 4).
Definition table_valid (m : memory) (mp : Z) : bool :=
  negb (table_of m mp =? 0) && (read_u8 m (mp + 11) =? 0) && signed m (table_of m mp) 80 67 77 80 &&
  (44 <=? read_u16 m (table_of m mp + 4)) && (sum_of m (table_of m mp + 0) (read_u16 m (table_of m mp + 4)) =? 0).

(** The direct map holds the table that the pointer names. *)
Definition table_low (m : memory) (mp : Z) : Prop :=
  table_of m mp = 0 \/ read_u8 m (mp + 11) <> 0 \/ table_of m mp + 0x10000 <= KERNEL_DIRECT_MAP_LIMIT_PHYS.

Section Tables.
Context (cpuid_ebx : Z).

(** The tests before the entries. *)
Lemma mp_collect_wp mp (Q : option (list Z * Z) -> smp -> Prop) s :
  let m := phys (pages s) in
  0 <= mp -> mp + 16 <= KERNEL_DIRECT_MAP_LIMIT_PHYS -> table_low m mp ->
  (table_valid m mp = false -> Q None s) ->
  (table_valid m mp = true ->
   wp (mp_entries (table_of m mp) (read_u16 m (table_of m mp + 4)) (read_u16 m (table_of m mp + 34)) (cpu_bootstrap_apic_id cpuid_ebx))
     (fun r => Q (match r with Some (ids, b) => if Z.of_nat (length ids) =? 0 then None else Some (ids, b) | None => None end))
     (set_lapic (read_u32 m (table_of m mp + 36)) (lapic_base_virt s) (lapic_ready s) s)) ->
  wp (mp_collect_cpu_ids cpuid_ebx (Some mp)) Q s.
Proof.
  intros m Hp Hl Hlow Hno Hyes. unfold table_valid in *. unfold mp_collect_cpu_ids. wp_step. field. wp_step. field.
  fold m. fold (table_of m mp). pose proof (read_u32_fits m (mp + 4)) as [Hc _]. fold (table_of m mp) in Hc. destruct (table_of m mp =? 0) eqn:E0; [by apply Hno|].
  destruct (read_u8 m (mp + 11) =? 0) eqn:E1; [|by apply Hno]. assert (Hc2 : table_of m mp + 0x10000 <= KERNEL_DIRECT_MAP_LIMIT_PHYS).
  { destruct Hlow as [?|[?|?]]; [lia|lia|done]. }
  simpl orb. cbv iota. wp_step. apply signature_wp; [done|limits; lia|]. fold m.
  destruct (signed m (table_of m mp) 80 67 77 80) eqn:E2; [|by apply Hno]. simpl negb. cbv iota. wp_step. field. fold m.
  pose proof (read_u16_fits m (table_of m mp + 4)) as Hf. unfold fits in Hf. change (2 ^ 16) with 0x10000 in Hf.
  unfold sizeof_mp_config_table_header_t. rewrite Z.ltb_antisym. destruct (44 <=? read_u16 m (table_of m mp + 4)) eqn:E3; [|by apply Hno].
  simpl negb. cbv iota. wp_step. unfold byte_checksum. field. fold m. fold (sum_of m (table_of m mp + 0) (read_u16 m (table_of m mp + 4))).
  destruct (sum_of m (table_of m mp + 0) (read_u16 m (table_of m mp + 4)) =? 0) eqn:E4; [|by apply Hno].
  simpl negb. cbv iota. wp_step. field. wp_step. field. wp_step. wp_step. wp_step. fold m.
  eapply wp_mono; [by apply Hyes|]. intros [[ids b]|] s' HQ; by apply wp_ret.
Qed.

Lemma bootstrap_fits : fits 8 (cpu_bootstrap_apic_id cpuid_ebx).
Proof. by apply wrap_fits. Qed.

(** Distinct bytes fit the array of 256. *)
Lemma bytes_fit l : Forall (fits 8) l -> NoDup l -> (length l <= 256)%nat.
Proof.
  intros Hf Hn. change 256%nat with (length (seqZ 0 256)). apply submseteq_length, NoDup_submseteq; [done|].
  intros x Hx. apply elem_of_seqZ. rewrite Forall_forall in Hf. specialize (Hf x Hx). unfold fits in Hf. change (2 ^ 8) with 256 in Hf. lia.
Qed.

(** Whatever the tables hold, the function returns, and fills at most the 256 places
    of its caller's array, with distinct identifiers. *)
Lemma mp_collect_total mp s :
  0 <= mp -> mp + 16 <= KERNEL_DIRECT_MAP_LIMIT_PHYS -> table_low (phys (pages s)) mp ->
  wp (mp_collect_cpu_ids cpuid_ebx (Some mp)) (fun r s' =>
    (exists b, s' = set_lapic b (lapic_base_virt s) (lapic_ready s) s) /\
    match r with
    | Some (ids, b) => Forall (fits 8) ids /\ NoDup ids /\ fits 8 b /\ (1 <= length ids <= 256)%nat
    | None => True
    end) s.
Proof.
  intros Hp Hl Hlow. assert (Hs : exists b, s = set_lapic b (lapic_base_virt s) (lapic_ready s) s).
  { exists (lapic_base_phys s). by destruct s. }
  apply mp_collect_wp; [done|done|done|by intros _|]. intros Hv. unfold table_valid in Hv. z_bools.
  pose proof (read_u32_fits (phys (pages s)) (mp + 4)) as [Hc _]. fold (table_of (phys (pages s)) mp) in Hc.
  pose proof (read_u16_fits (phys (pages s)) (table_of (phys (pages s)) mp + 4)) as Hf. unfold fits in Hf. change (2 ^ 16) with 0x10000 in Hf.
  pose proof (read_u16_fits (phys (pages s)) (table_of (phys (pages s)) mp + 34)) as [Hn _].
  eapply wp_mono; [apply mp_entries_total; [done| |done|apply bootstrap_fits]|].
  { destruct Hlow as [?|[?|?]]; lia. }
  intros [[ids b]|] s' [-> Hr]; [|split; [by eexists|done]]. destruct Hr as (K1 & K2 & K3).
  destruct (Z.eqb_spec (Z.of_nat (length ids)) 0); (split; [by eexists|]); [done|]. pose proof (bytes_fit ids K1 K2).
  do 3 (split; [done|]). lia.
Qed.

(** ** Finding the floating pointer *)

Definition is_mp (m : memory) (p : Z) : bool :=
  signed m p 95 77 80 95 && (16 <=? read_u8 m (p + 8) * 16) && (sum_of m (p + 0) (read_u8 m (p + 8) * 16) =? 0).

Lemma mp_candidate_wp p (Q : bool -> smp -> Prop) s :
  0 <= p -> p + 0x1000 <= KERNEL_DIRECT_MAP_LIMIT_PHYS -> Q (is_mp (phys (pages s)) p) s -> wp (mp_candidate p) Q s.
Proof.
  intros Hp Hl HQ. unfold mp_candidate, is_mp in *. wp_step. apply signature_wp; [done|lia|].
  destruct (signed (phys (pages s)) p 95 77 80 95); [|by apply wp_ret]. simpl negb. cbv iota zeta. wp_step. field.
  pose proof (read_u8_fits (phys (pages s)) (p + 8)) as Hf. unfold fits in Hf. change (2 ^ 8) with 256 in Hf.
  unfold sizeof_mp_floating_pointer_t. rewrite Z.ltb_antisym. destruct (16 <=? read_u8 (phys (pages s)) (p + 8) * 16); [|by apply wp_ret].
  simpl negb. cbv iota. wp_step. unfold byte_checksum. field. by apply wp_ret.
Qed.

(** The first valid position of a range, or none. *)
Definition first_mp (m : memory) (start len : Z) (r : option Z) : Prop :=
  match r with
  | Some p => exists k, 0 <= k < len / 16 /\ p = start + 16 * k /\ is_mp m p = true /\
                forall j, 0 <= j < k -> is_mp m (start + 16 * j) = false
  | None => forall j, 0 <= j < len / 16 -> is_mp m (start + 16 * j) = false
  end.

Lemma mp_scan_loop_spec fuel k start len s :
  0 <= start -> start + len + 0x1000 <= KERNEL_DIRECT_MAP_LIMIT_PHYS -> 0 <= k <= len / 16 ->
  len / 16 - k < Z.of_nat fuel -> (forall j, 0 <= j < k -> is_mp (phys (pages s)) (start + 16 * j) = false) ->
  wp (mp_scan_loop fuel (start + 16 * k) (start + len)) (fun r s' => s' = s /\ first_mp (phys (pages s)) start len r) s.
Proof.
  revert k. induction fuel as [|fuel IH]; intros k Hs Hb Hk Hf Hj; [lia|simpl].
  pose proof (Z.div_mod len 16 ltac:(lia)). pose proof (Z.mod_pos_bound len 16 ltac:(lia)).
  limits. rewrite !wrap_small by word_lia. destruct (Z.leb_spec (start + 16 * k + 16) (start + len)) as [Hle|Hgt]; simpl negb; cbv iota.
  2: { apply wp_ret. split; [done|]. intros j Hj'. apply Hj. lia. }
  wp_step. apply mp_candidate_wp; [lia|limits; lia|]. destruct (is_mp (phys (pages s)) (start + 16 * k)) eqn:E.
  - apply wp_ret. split; [done|]. exists k. by repeat split; try lia.
  - replace (start + 16 * k + 16) with (start + 16 * (k + 1)) by lia. apply IH; [lia|limits; lia|lia|lia|].
    intros j Hj'. destruct (Z.eq_dec j k) as [->|]; [done|apply Hj; lia].
Qed.

Lemma mp_scan_range_spec start len s :
  0 <= start -> 16 <= len -> start + len + 0x1000 <= KERNEL_DIRECT_MAP_LIMIT_PHYS ->
  wp (mp_scan_range start len) (fun r s' => s' = s /\ first_mp (phys (pages s)) start len r) s.
Proof.
  intros Hs Hl Hb. unfold mp_scan_range. limits. replace (len <? 16) with false by lia. rewrite wrap_small by word_lia.
  cbv zeta. replace (start + len <? start) with false by lia. replace start with (start + 16 * 0) at 1 by lia.
  pose proof (Z.div_pos len 16 ltac:(lia) ltac:(lia)). apply mp_scan_loop_spec; [done|limits; lia|lia|lia|lia].
Qed.

(** The areas searched, in their order, and the pointer found: the first area that has
    one, and its first. *)
Definition mp_areas (m : memory) : list (Z * Z) :=
  (if read_u16 m 0x40E =? 0 then [] else [(read_u16 m 0x40E * 16, 1024)]) ++
  (if read_u16 m 0x413 =? 0 then [] else [(read_u16 m 0x413 * 1024 - 1024, 1024)]) ++ [(0xF0000, 0x10000)].
Fixpoint first_in (m : memory) (areas : list (Z * Z)) (r : option Z) : Prop :=
  match areas with
  | [] => r = None
  | (start, len) :: rest =>
      (r <> None /\ first_mp m start len r) \/ (first_mp m start len None /\ first_in m rest r)
  end.

(** One area, and the areas after it. *)
Lemma search_step (b : bool) start len rest (k : M smp (option Z)) s :
  (b = true -> 0 <= start /\ 16 <= len /\ start + len + 0x1000 <= KERNEL_DIRECT_MAP_LIMIT_PHYS) ->
  wp k (fun r s' => s' = s /\ first_in (phys (pages s)) rest r) s ->
  wp (bind (if b then mp_scan_range start len else ret None) (fun r => match r with Some mp => ret (Some mp) | None => k end))
     (fun r s' => s' = s /\ first_in (phys (pages s)) ((if b then [(start, len)] else []) ++ rest) r) s.
Proof.
  intros Hb Hk. wp_step. destruct b; [|exact Hk]. destruct Hb as (B1 & B2 & B3); [done|].
  eapply wp_mono; [by apply mp_scan_range_spec|]. intros [p|] s' [-> Hf].
  - apply wp_ret. split; [done|]. by left.
  - eapply wp_mono; [exact Hk|]. intros r s' [-> Hr]. split; [done|]. by right.
Qed.

Lemma mp_find_spec s :
  wp mp_find_floating_pointer (fun r s' => s' = s /\ first_in (phys (pages s)) (mp_areas (phys (pages s))) r) s.
Proof.
  unfold mp_find_floating_pointer, mp_areas. wp_step. field. rewrite Z.add_0_r.
  pose proof (read_u16_fits (phys (pages s)) 0x40E) as H1. pose proof (read_u16_fits (phys (pages s)) 0x413) as H2.
  unfold fits in H1, H2. change (2 ^ 16) with 0x10000 in *. set (e := read_u16 _ 0x40E) in *.
  replace (u32 (Z.shiftl e 4)) with (e * 16) by (rewrite Z.shiftl_mul_pow2 by lia; rewrite wrap_small by word_lia; done).
  replace (if e =? 0 then [] else [(e * 16, 1024)]) with (if negb (e =? 0) then [(e * 16, 1024)] else []) by (by destruct (e =? 0)).
  apply search_step; [limits; lia|]. wp_step. field. rewrite Z.add_0_r. set (b := read_u16 _ 0x413) in *.
  replace (if b =? 0 then [] else [(b * 1024 - 1024, 1024)]) with (if 1 <=? b then [(b * 1024 - 1024, 1024)] else []).
  2: { destruct (Z.eqb_spec b 0), (Z.leb_spec 1 b); done || lia. }
  rewrite (wrap_small 32 (b * 1024)) by word_lia.
  assert (E : (if 1 <=? b then mp_scan_range (u32 (b * 1024 - 1024)) 1024 else ret None) =
    (if 1 <=? b then mp_scan_range (b * 1024 - 1024) 1024 else ret None)).
  { destruct (Z.leb_spec 1 b); [|done]. by rewrite wrap_small by word_lia. }
  rewrite E. apply search_step; [limits; lia|]. eapply wp_mono; [apply mp_scan_range_spec; limits; lia|].
  intros [p|] s' [-> Hf]; (split; [done|]); [by left|by right].
Qed.

(** A pointer found is low in memory. *)
Lemma first_in_low m p : first_in m (mp_areas m) (Some p) -> 0 <= p < 0x4000000 /\ is_mp m p = true.
Proof.
  pose proof (read_u16_fits m 0x40E) as H1. pose proof (read_u16_fits m 0x413) as H2. unfold fits in H1, H2. change (2 ^ 16) with 0x10000 in *.
  assert (G : forall areas, (forall a l, (a, l) ∈ areas -> 0 <= a /\ 16 <= l /\ a + l <= 0x4000000) ->
    first_in m areas (Some p) -> 0 <= p < 0x4000000 /\ is_mp m p = true).
  { induction areas as [|[a l] areas IH]; [done|]. intros Ha [[_ (k & Hk & -> & Hm & _)]|[_ Hr]].
    - destruct (Ha a l) as (A1 & A2 & A3); [set_solver|]. split; [|done].
      pose proof (Z.div_mod l 16 ltac:(lia)). pose proof (Z.mod_pos_bound l 16 ltac:(lia)). lia.
    - apply IH; [|done]. intros a' l' H. apply Ha. set_solver. }
  apply G. unfold mp_areas. intros a l Hin. destruct (Z.eqb_spec (read_u16 m 0x40E) 0), (Z.eqb_spec (read_u16 m 0x413) 0); simpl in Hin;
    rewrite ?elem_of_cons, elem_of_nil in Hin; naive_solver lia.
Qed.
End Tables.
