(* ===== verification/CpuProps.v ===== *)
(** The properties of arch/i386/cpu.c: what the firmware's tables become, the local
    APIC's page, and the topology given to the scheduler. *)
From S2P Require Import Prelude Bootinfo Pmm PmmFacts PmmAlloc PmmSpec Vma VmaFacts VmaSpec SchedData Sched SchedApi.
From S2P Require Import PagingData PagingTables Paging PagingFacts PagingAlloc PagingSpec PagingFree PagingBoot PagingProps.
From S2P Require Import SchedBoot Cpu CpuSpec.
From Stdlib Require Import ZArith Lia.
From stdpp Require Import sets.
Open Scope Z_scope.

Lemma on_paging_wp {A} (m : M paging A) (Q : A -> smp -> Prop) s :
  wp m (fun a p => Q a (set_pages p s)) (pages s) -> wp (on_paging m) Q s.
Proof. unfold wp, on_paging. by destruct (m (pages s)). Qed.

(** * The local APIC's page *)

Section Lapic.
Context (img : kernel_image) (Himg : image_ok img).

(** [s'] is [s] with a page of the dynamic area, unmapped before, that leads to the
    device at [base]; every frame is as it was. *)
Record device_mapped (base page : Z) (s s' : paging) : Prop := {
  dm_ok : pages_ok img s';
  dm_page : page_addr page /\ KERNEL_DYNAMIC_BASE <= page /\ page + PAGE_SIZE <= KERNEL_DYNAMIC_LIMIT;
  dm_gap v : page <= v < page + PAGE_SIZE -> kernel_frame img s.(phys) v = None;
  dm_new v : page <= v < page + PAGE_SIZE -> paging_translate_address img v s' = Done (Some (base + v mod PAGE_SIZE)) s';
  dm_old v : in_dynamic v -> ~ page <= v < page + PAGE_SIZE ->
    paging_translate_address img v s' = Done (translation img s.(phys) v) s';
  dm_frames g : 0 <= g < s.(frames).(total_frames) -> frame_used s'.(frames) g = frame_used s.(frames) g;
  dm_tree : exists l1 l2, intervals s.(kernel_vma_tree).(root) = l1 ++ l2 /\
    intervals s'.(kernel_vma_tree).(root) = l1 ++ (page, page + PAGE_SIZE, 0) :: l2
}.

(** Mapping and unmapping a page of the dynamic area. *)
Lemma dynamic_is_kernel page : in_dynamic page -> paging_address_is_kernel page = true.
Proof. unfold paging_address_is_kernel, in_dynamic, KERNEL_DYNAMIC_BASE, KERNEL_VMA. lia. Qed.

Lemma pages_ok_remapped page f s s' :
  pages_ok img s -> touched s s' -> remapped img s.(phys) s'.(phys) page f -> pages_ok img s'.
Proof.
  intros Hok Ht Hrm. pose proof Hok as [_ _ _ Hr].
  eapply pages_ok_step; [done|by apply only_pages_touched|by eapply rm_tables|exact (rm_outside _ _ _ _ _ Hrm)|].
  by destruct Ht as (m & l & ->).
Qed.

Lemma map_page_wp page base (Q : bool -> paging -> Prop) s :
  pages_ok img s -> page_addr page -> in_dynamic page -> page_addr base ->
  (forall s', pages_ok img s' -> touched s s' -> remapped img s.(phys) s'.(phys) page (Some base) -> Q true s') ->
  wp (paging_map_page img page base PAGE_WRITABLE) Q s.
Proof.
  intros Hok Hp Hv Hf HQ. pose proof Hok as [Hm K Hc Hr]. unfold paging_map_page. rewrite dynamic_is_kernel by done. decided.
  change (Z.land PAGE_WRITABLE PAGE_USER =? 0) with true. decided. wp_step. wp_step. rewrite Hm.
  eapply wp_mono; [by apply (pae_map_page_spec img Himg)|]. intros r s' (-> & Ht & Hrm). apply HQ; [|done|done]. by eapply pages_ok_remapped.
Qed.

Lemma unmap_page_wp page (Q : unit -> paging -> Prop) s :
  pages_ok img s -> in_dynamic page ->
  (forall s', pages_ok img s' -> touched s s' -> remapped img s.(phys) s'.(phys) page None -> Q tt s') ->
  wp (paging_unmap_page img page) Q s.
Proof.
  intros Hok Hv HQ. pose proof Hok as [Hm K Hc Hr]. unfold paging_unmap_page. rewrite dynamic_is_kernel by done. decided.
  wp_step. wp_step. rewrite Hm. eapply wp_mono; [by apply (pae_unmap_page_spec img Himg)|]. intros [] s' (Ht & Hrm).
  apply HQ; [|done|done]. by eapply pages_ok_remapped.
Qed.

Lemma page_span page v : page_addr page -> page <= v < page + PAGE_SIZE <-> page_of v = page_of page.
Proof.
  intros [_ Hm]. unfold page_of, PAGE_SIZE in *. pose proof (Z.div_mod page 4096 ltac:(lia)). pose proof (Z.div_mod v 4096 ltac:(lia)).
  pose proof (Z.mod_pos_bound v 4096 ltac:(lia)). split; [|lia]. intros Hv. symmetry. apply (Z.div_unique_pos v 4096 _ (v - page)); lia.
Qed.

(** From the page allocated to the device in its place. *)
Lemma device_mapped_intro base page f s s1 s2 s3 s4 :
  kernel_pages img s1 -> run_added img s s1 page 1 [f] -> touched s1 s2 -> remapped img s1.(phys) s2.(phys) page None ->
  changed false s2.(frames) s3.(frames) (fun g => g =? f) -> s3.(phys) = s2.(phys) -> s3.(kernel_vma_tree) = s2.(kernel_vma_tree) ->
  touched s3 s4 -> remapped img s3.(phys) s4.(phys) page (Some base) -> pages_ok img s4 ->
  device_mapped base page s s4.
Proof.
  intros KP R Ht2 R2 Hch Ep Et Ht4 R4 Hok. destruct (ra_base _ _ _ _ _ _ R) as (Hp & Hlo & Hhi). rewrite Z.mul_1_l in Hhi.
  assert (Hdyn : forall v, page <= v < page + PAGE_SIZE -> in_dynamic v) by (unfold in_dynamic; lia).
  assert (E2 : s2.(frames) = s1.(frames) /\ s2.(kernel_vma_tree) = s1.(kernel_vma_tree)) by (by destruct Ht2 as (m & l & ->)).
  assert (E4 : s4.(frames) = s3.(frames) /\ s4.(kernel_vma_tree) = s3.(kernel_vma_tree)) by (by destruct Ht4 as (m & l & ->)).
  destruct E2 as [E2 T2], E4 as [E4 T4]. pose proof Hok as [Hm K Hc _]. split; [done|exact (conj Hp (conj Hlo Hhi))|..].
  - intros v Hv. apply (ra_gap _ _ _ _ _ _ R). lia.
  - intros v Hv. rewrite (translate_run img Himg v s4 K Hm Hc) by auto. unfold translation. rewrite (rm_frame _ _ _ _ _ R4) by auto.
    apply (page_span page v Hp) in Hv. by rewrite Hv, Z.eqb_refl.
  - intros v Hv Hn. rewrite (translate_run img Himg v s4 K Hm Hc Hv). unfold translation. apply (f_equal (fun o => Done ((fun a => a + v mod PAGE_SIZE) <$> o) s4)).
    assert (Hne : (page_of v =? page_of page) = false) by (apply Z.eqb_neq; by rewrite <- page_span).
    rewrite (rm_frame _ _ _ _ _ R4), Hne, Ep, (rm_frame _ _ _ _ _ R2), Hne by done.
    apply (translate_frame img Himg); [apply KP|done|]. apply (ra_old _ _ _ _ _ _ R); [done|lia].
  - intros g Hg. rewrite E4, (ch_frames _ _ _ _ Hch g) by (rewrite E2, (ra_total _ _ _ _ _ _ R); done).
    rewrite E2, (ra_used _ _ _ _ _ _ R g Hg). destruct (Z.eqb_spec g f) as [->|Hne].
    + symmetry. apply (ra_fresh _ _ _ _ _ _ R). set_solver.
    + rewrite bool_decide_eq_false_2 by set_solver. done.
  - rewrite T4, Et, T2. pose proof (ra_tree _ _ _ _ _ _ R) as H. by rewrite Z.mul_1_l in H.
Qed.

Lemma lapic_page_addr x : page_addr (Z.land x 0xFFFFF000).
Proof. exact (entry_addr_page x). Qed.

(** The mapping of the local APIC: a page of its own, or none to be had. *)
Lemma lapic_map_spec s :
  kernel_pages img (pages s) -> lapic_base_virt s = None -> fits 32 (lapic_base_phys s) ->
  let base := Z.land (lapic_base_phys s) 0xFFFFF000 in
  wp (lapic_map_mmio img) (fun r s' =>
    if r then exists page, device_mapped base page (pages s) (pages s') /\
                s' = set_lapic (lapic_base_phys s) (Some (page + Z.land (lapic_base_phys s) 0xFFF)) (lapic_ready s) (set_pages (pages s') s)
    else s' = set_pages (pages s') s /\ unchanged_pages img (pages s) (pages s')) s.
Proof.
  intros KP Hv Hb base. unfold lapic_map_mmio. wp_step. wp_step. rewrite Hv. wp_step. apply on_paging_wp. unfold paging_alloc_pages.
  eapply wp_mono; [apply alloc_pages_spec; [done|done|unfold PMM_NUMA_NODE_ANY; lia|unfold PMM_NUMA_NODE_ANY; lia]|].
  intros [page|] s1 [KP1 Hr]; [|apply wp_ret; split; [done|apply Hr]]. destruct Hr as [fs R]. pose proof (ra_length _ _ _ _ _ _ R) as Hl.
  destruct fs as [|f [|? ?]]; simpl in Hl; [lia| |lia]. destruct (ra_base _ _ _ _ _ _ R) as (Hp & Hlo & Hhi). rewrite Z.mul_1_l in Hhi.
  assert (Hdyn : in_dynamic page) by (unfold in_dynamic, PAGE_SIZE in *; lia).
  wp_step. apply on_paging_wp. unfold paging_virt_to_phys. wp_step. 
  eapply Done_wp; [apply (ra_new _ _ _ _ _ _ R page f)|].
  { unfold PAGE_SIZE. lia. }
  { unfold page_index. by rewrite Z.sub_diag. }
  replace (page mod PAGE_SIZE) with 0 by (symmetry; apply Hp). rewrite Z.add_0_r. apply wp_ret.
  wp_step. apply on_paging_wp. apply unmap_page_wp; [apply KP1|done|]. intros s2 Hok2 Ht2 R2.
  wp_step. apply on_paging_wp, on_pmm_wp. cbn [pages set_pages]. destruct (ra_fresh _ _ _ _ _ _ R f ltac:(set_solver)) as [Hf _].
  eapply wp_mono; [apply (free_frame_spec s2.(frames) (f * PAGE_SIZE)); [apply Hok2|unfold PAGE_SIZE; lia]|].
  rewrite Z.div_mul by done. intros [] p3 (Hp3 & Hch & _).
  assert (Hok3 : pages_ok img (set_frames p3 s2)) by (eapply pages_ok_step; [exact Hok2|apply only_pages_frames|apply Hok2|done|done]).
  wp_step. wp_step. wp_step. apply on_paging_wp. cbn [pages set_pages lapic_base_phys]. fold base.
  apply map_page_wp; [done|done|done|by apply lapic_page_addr|]. intros s4 Hok4 Ht4 R4. simpl negb. cbv iota. wp_step. wp_step. wp_step.
  exists page. split; [|done]. by eapply (device_mapped_intro base page f (pages s) s1 s2 (set_frames p3 s2) s4).
Qed.

(** Enabling the controller changes nothing about the processors. *)
Definition same_cpus (s s' : smp) : Prop :=
  smp_cpus s' = smp_cpus s /\ apic_to_cpu s' = apic_to_cpu s /\ smp_cpu_count s' = smp_cpu_count s /\
  smp_boot_cpu s' = smp_boot_cpu s.

Lemma topo_same l s s' : same_cpus s s' -> topo l s -> topo l s'.
Proof. intros (E1 & E2 & _ & _) [T1 T2 T3 T4 T5 T6]. by split; rewrite ?E1, ?E2. Qed.

Lemma lapic_map_same s :
  kernel_pages img (pages s) -> fits 32 (lapic_base_phys s) ->
  wp (lapic_map_mmio img) (fun r s' => same_cpus s s' /\ lapic_ready s' = lapic_ready s /\ (r = true -> lapic_base_virt s' <> None)) s.
Proof.
  intros KP Hb. destruct (lapic_base_virt s) as [v|] eqn:Hv.
  - unfold lapic_map_mmio. wp_step. wp_step. rewrite Hv. wp_step. repeat split. by rewrite Hv.
  - eapply wp_mono; [by apply lapic_map_spec|]. intros [] s' Hr; simpl in Hr.
    + destruct Hr as (page & _ & ->). by repeat split.
    + destruct Hr as [-> _]. by repeat split.
Qed.

Lemma lapic_enable_spec edx msr s :
  kernel_pages img (pages s) ->
  wp (lapic_enable_local_controller img edx msr) (fun r s' => same_cpus s s' /\
    (if r then lapic_ready s' = true /\ lapic_base_virt s' <> None else lapic_ready s' = lapic_ready s)) s.
Proof.
  intros KP. unfold lapic_enable_local_controller. wp_step; [by apply wp_ret|]. cbv zeta. wp_step. wp_step. wp_step.
  eapply wp_mono; [apply lapic_map_same; [done|by apply wrap_fits]|]. intros [] s' (Hs & Hr & Hv); cbn [negb]; cbv iota; [|by apply wp_ret].
  specialize (Hv eq_refl). assert (Hw : forall off v s1 (Q : unit -> smp -> Prop), lapic_base_virt s1 <> None ->
    Q tt (set_io (lapic_writes s1 ++ [(off, u32 v)]) (icr_reads s1) (ipi_vectors s1) s1) -> wp (lapic_write off v) Q s1).
  { intros off v s1 Q Hn HQ. unfold lapic_write. wp_step. wp_step. destruct (lapic_base_virt s1); [exact HQ|done]. }
  wp_step. apply Hw; [done|]. wp_step. apply Hw; [done|]. wp_step. wp_step. wp_step. by split.
Qed.
End Lapic.

(** * The topology *)

Lemma fallback_spec ebx s :
  length (smp_cpus s) = 8%nat -> length (apic_to_cpu s) = 256%nat ->
  wp (cpu_set_single_cpu_fallback ebx) (fun _ s' => topo [cpu_bootstrap_apic_id ebx] s' /\ smp_cpu_count s' = 1 /\
    smp_boot_cpu s' = 0 /\ retopo s s') s.
Proof.
  intros Hc Hm. unfold cpu_set_single_cpu_fallback. wp_step. eapply wp_mono; [by apply reset_spec|].
  intros [] s1 (T1 & C1 & B1 & _ & R1). 
  apply (enter_spec [] (cpu_bootstrap_apic_id ebx) true); [done|apply bootstrap_fits|set_solver|simpl; lia|done|].
  intros s' T' (c & m & ->). repeat (split; [done|]). eapply retopo_trans; [exact R1|apply retopo_set].
Qed.

(** What the scheduler gets for the processors [l]. *)
Lemma topology_accepted l s :
  topo l s -> (1 <= length l <= 8)%nat -> smp_cpu_count s = Z.of_nat (length l) -> smp_boot_cpu s = 0 ->
  topology_ok (cpu_topology_config s) /\ cfg_cpu_count (cpu_topology_config s) = Z.of_nat (length l) /\
  forall i, 0 <= i < SCHEDULER_MAX_CPUS -> cpu_online (cpu_topology_config s) i = (i <? Z.of_nat (length l)).
Proof.
  intros T Hl Hc Hb. assert (Hon : forall i, 0 <= i < SCHEDULER_MAX_CPUS -> cpu_online (cpu_topology_config s) i = (i <? Z.of_nat (length l))).
  { intros i Hi. simpl. rewrite Hc. destruct (Z.ltb_spec i (Z.of_nat (length l))); [|done].
    destruct (lookup_lt_is_Some_2 l (Z.to_nat i)) as [id Hid]; [lia|]. by rewrite (tp_cpu _ _ T _ _ Hid). }
  split; [|by split]. unfold SCHEDULER_MAX_CPUS in *. split; simpl; rewrite ?Hc, ?Hb; unfold SCHEDULER_MAX_CPUS, SCHEDULER_MAX_NUMA_NODES; try lia.
  specialize (Hon 0). simpl in Hon. rewrite Hc in Hon. rewrite Hon by lia. lia.
Qed.

(** The state that describes some processors, the boot processor first. *)
Definition described (l : list Z) (s : smp) : Prop :=
  topo l s /\ (1 <= length l <= 8)%nat /\ smp_cpu_count s = Z.of_nat (length l) /\ smp_boot_cpu s = 0.

Section Prepare.
Context (img : kernel_image) (Himg : image_ok img) (ebx edx msr : Z).

(** Every floating pointer that the search returns names a table in the direct map. *)
Definition tables_low (m : memory) : Prop := forall mp, first_in m (mp_areas m) (Some mp) -> table_low m mp.

(** The processors of the tables, or the boot processor alone. *)
Lemma discover_spec s :
  tables_low (phys (pages s)) -> described [cpu_bootstrap_apic_id ebx] s ->
  wp (bind mp_find_floating_pointer (fun mp => bind (mp_collect_cpu_ids ebx mp) (fun r =>
        match r with Some (ids, bsp) => cpu_build_topology_from_apic_ids ids bsp | None => ret tt end)))
     (fun _ s' => (exists l, described l s') /\ pages s' = pages s /\ lapic_ready s' = lapic_ready s) s.
Proof.
  intros Hlow Hd. wp_step. eapply wp_mono; [apply mp_find_spec|]. intros [mp|] s1 [-> Hf]; wp_step.
  2: { unfold mp_collect_cpu_ids. do 2 wp_step. split; [by eexists|done]. }
  destruct (first_in_low _ _ Hf) as [Hp _].
  eapply wp_mono; [apply mp_collect_total; [lia|unfold KERNEL_DIRECT_MAP_LIMIT_PHYS; lia|by apply Hlow]|].
  intros [[ids b]|] s1 [[a ->] Hr].
  - destruct Hr as (R1 & _ & R3 & _). destruct Hd as ([] & _). destruct (roster_ok b ids) as (_ & Hl & _).
    eapply wp_mono; [by apply build_spec|]. intros [] s2 (T & C & B & _ & (c & m & n & bo & st & rel & E)).
    split; [exists (roster b ids); exact (conj T (conj Hl (conj C B)))|]. by rewrite E.
  - apply wp_ret. split; [|done]. exists [cpu_bootstrap_apic_id ebx]. destruct Hd as ([] & H2 & H3 & H4). by split.
Qed.

Lemma prepare_spec s :
  kernel_pages img (pages s) -> length (smp_cpus s) = 8%nat -> length (apic_to_cpu s) = 256%nat -> tables_low (phys (pages s)) ->
  wp (cpu_smp_prepare_topology img ebx edx msr) (fun config s' => exists l, described l s' /\ config = cpu_topology_config s' /\
    (lapic_ready s' = true -> lapic_base_virt s' <> None) /\
    (lapic_ready s' = false -> l = [cpu_bootstrap_apic_id ebx])) s.
Proof.
  intros KP Hc Hm Hlow. unfold cpu_smp_prepare_topology. wp_step. eapply wp_mono; [by apply fallback_spec|].
  intros [] s1 (T1 & C1 & B1 & (c & m & n & b & st & rel & ->)). wp_step. wp_step. wp_step. 
  set (s1 := set_lapic _ _ _ _). assert (D1 : described [cpu_bootstrap_apic_id ebx] s1) by (destruct T1; split; [by split|]; simpl; split; [lia|by split]).
  apply (wp_mono _ (fun _ s' => (exists l, described l s') /\ pages s' = pages s /\ lapic_ready s' = false)).
  { destruct (cpu_has_local_apic edx); [by apply discover_spec|apply wp_ret; split; [by eexists|done]]. }
  intros [] s2 ([l D2] & P2 & L2). wp_step. eapply wp_mono; [apply lapic_enable_spec; [done|by rewrite P2]|].
  intros ok s3 [Hs Hok]. pose proof Hs as (E1 & E2 & E3 & E4). destruct D2 as (T2 & Hl2 & C2 & B2).
  assert (D3 : described l s3) by (split; [by eapply topo_same|]; split; [done|]; split; congruence).
  assert (Hend : forall l s', described l s' -> (lapic_ready s' = true -> lapic_base_virt s' <> None) ->
    (lapic_ready s' = false -> l = [cpu_bootstrap_apic_id ebx]) ->
    let s'' := set_io (lapic_writes s') (icr_reads s') (ipi_vectors s' ++ [CPU_IPI_RESCHEDULE_VECTOR; CPU_IPI_WAKEUP_VECTOR]) s' in
    exists l, described l s'' /\ cpu_topology_config s'' = cpu_topology_config s'' /\
      (lapic_ready s'' = true -> lapic_base_virt s'' <> None) /\ (lapic_ready s'' = false -> l = [cpu_bootstrap_apic_id ebx])).
  { intros l' s' ([] & H2 & H3 & H4) Hv Hf. exists l'. split; [split; [by split|by split]|by split]. }
  wp_step. destruct ok; cbn [negb]; cbv iota.
  - wp_step. wp_step. wp_step. wp_step. apply (Hend l); [done|tauto|]. destruct Hok as [Hok _]. by rewrite Hok.
  - eapply wp_mono; [apply fallback_spec; [by rewrite E1; apply T2|by rewrite E2; apply T2]|].
    intros [] s4 (T4 & C4 & B4 & (c4 & m4 & n4 & b4 & st4 & rel4 & E)). wp_step. wp_step. wp_step.
    apply (Hend [cpu_bootstrap_apic_id ebx]); [split; [done|]; simpl; split; [lia|by split]| |done]. subst s4. cbn. rewrite Hok, L2. done.
Qed.
End Prepare.

(** * The properties *)

Lemma first_mp_unique m a l r1 r2 : first_mp m a l r1 -> first_mp m a l r2 -> r1 = r2.
Proof.
  destruct r1 as [p|], r2 as [q|]; simpl; [| | |done].
  - intros (k & Hk & -> & Ek & Fk) (j & Hj & -> & Ej & Fj). destruct (Z.lt_trichotomy k j) as [Hlt|[->|Hlt]]; [|done|].
    + by rewrite Fj in Ek by lia.
    + by rewrite Fk in Ej by lia.
  - intros (k & Hk & -> & Ek & _) H. by rewrite H in Ek.
  - intros H (k & Hk & -> & Ek & _). by rewrite H in Ek.
Qed.

Lemma first_in_unique m areas r1 r2 : first_in m areas r1 -> first_in m areas r2 -> r1 = r2.
Proof.
  induction areas as [|[a l] areas IH]; simpl; [congruence|].
  intros [[N1 H1]|[Z1 H1]] [[N2 H2]|[Z2 H2]]; [by eapply first_mp_unique| | |by apply IH].
  - by destruct N1; eapply first_mp_unique.
  - by destruct N2; eapply first_mp_unique.
Qed.

(** C23: the search returns the first valid floating pointer of the areas the firmware
    names, in their order, and from a valid table that lists the entries [es] the
    enabled processors are read, each once in the order of the table, with the one
    that is marked as the boot processor; a table without any gives none. *)
Theorem mp_tables_correct ebx es mp s :
  let m := phys (pages s) in
  first_in m (mp_areas m) (Some mp) -> table_valid m mp = true ->
  table_of m mp + 0x10000 <= KERNEL_DIRECT_MAP_LIMIT_PHYS ->
  read_u16 m (table_of m mp + 34) = Z.of_nat (length es) -> 44 + items_size es <= read_u16 m (table_of m mp + 4) ->
  laid_out m (table_of m mp + 44) es ->
  mp_find_floating_pointer s = Done (Some mp) s /\
  mp_collect_cpu_ids ebx (Some mp) s =
    Done (let r := listed (cpu_bootstrap_apic_id ebx) es in if Z.of_nat (length r.1) =? 0 then None else Some r)
      (set_lapic (read_u32 m (table_of m mp + 36)) (lapic_base_virt s) (lapic_ready s) s).
Proof.
  intros m Hf Hv Hlow Hn Hsz Hes. destruct (first_in_low _ _ Hf) as [Hp _]. pose proof (read_u32_fits m (mp + 4)) as [Hc _].
  pose proof (read_u16_fits m (table_of m mp + 4)) as Hl. unfold fits in Hl. change (2 ^ 16) with 0x10000 in Hl. split.
  - destruct (wp_Done _ _ _ (mp_find_spec s)) as (r & s' & -> & -> & Hr). by rewrite (first_in_unique _ _ _ _ Hr Hf).
  - assert (H : wp (mp_collect_cpu_ids ebx (Some mp)) (fun r s' =>
      r = (let r := listed (cpu_bootstrap_apic_id ebx) es in if Z.of_nat (length r.1) =? 0 then None else Some r) /\
      s' = set_lapic (read_u32 m (table_of m mp + 36)) (lapic_base_virt s) (lapic_ready s) s) s).
    { apply mp_collect_wp; [lia|unfold KERNEL_DIRECT_MAP_LIMIT_PHYS in *; lia|by right; right|fold m; by rewrite Hv|]. intros _. fold m. rewrite Hn.
      eapply wp_mono; [apply mp_entries_items; [exact Hc|lia|exact Hsz|exact Hes]|].
      intros r s' [-> ->]. split; [|done]. by destruct (listed _ es). }
    destruct (wp_Done _ _ _ H) as (r & s' & -> & -> & ->). done.
Qed.

(** [cpu_build_topology_from_apic_ids] gives number 0 to the boot processor and the
    next numbers to the other identifiers, each once in their order, as long as the
    eight places last; exactly these are present, only the boot processor is running,
    and a processor finds its own number by its identifier. *)
Theorem cpu_build_topology_correct ids bsp s :
  length (smp_cpus s) = 8%nat -> length (apic_to_cpu s) = 256%nat -> Forall (fits 8) ids -> fits 8 bsp ->
  let l := roster bsp ids in
  exists s', cpu_build_topology_from_apic_ids ids bsp s = Done tt s' /\ described l s' /\ pages s' = pages s /\
    NoDup l /\ (forall x, x ∈ ids -> x ∈ l \/ length l = 8%nat) /\
    (forall ebx lapic_id i id, l !! i = Some id -> lapic_current_apic_id ebx lapic_id s' = Done id s' ->
       cpu_current_id ebx lapic_id s' = Done (Z.of_nat i) s').
Proof.
  intros Hc Hm Hids Hb l. destruct (wp_Done _ _ _ (build_spec ids bsp s Hc Hm Hids Hb)) as ([] & s' & Hrun & T & C & B & _ & R).
  destruct (roster_ok bsp ids) as (Hnd & Hl & _ & _ & Hall). exists s'. split; [done|]. split; [exact (conj T (conj Hl (conj C B)))|].
  split; [by destruct R as (? & ? & ? & ? & ? & ? & ->)|]. split; [done|]. split; [done|].
  intros ebx lid i id Hi Hid. unfold cpu_current_id. rewrite (run_bind_done _ _ _ _ _ Hid). run. rewrite (tp_apic _ _ T _ _ Hi). simpl.
  run. pose proof (lookup_lt_Some _ _ _ Hi). unfold l, CPU_ID_INVALID in *. by replace (Z.of_nat i =? 255) with false by lia.
Qed.

(** [lapic_map_mmio] gives the local APIC a page of the dynamic area that nothing
    used, through which every address of the page leads to the controller's registers;
    the frame reserved on the way is given back, no other address or frame changes,
    and without a page or a frame to be had it fails with every mapping as it was. *)
Theorem lapic_map_mmio_correct img s :
  image_ok img -> kernel_pages img (pages s) -> lapic_base_virt s = None -> fits 32 (lapic_base_phys s) ->
  exists r s', lapic_map_mmio img s = Done r s' /\
    if r then exists page, device_mapped img (Z.land (lapic_base_phys s) 0xFFFFF000) page (pages s) (pages s') /\
                lapic_base_virt s' = Some (page + Z.land (lapic_base_phys s) 0xFFF)
    else lapic_base_virt s' = None /\ unchanged_pages img (pages s) (pages s').
Proof.
  intros Hi KP Hv Hb. destruct (wp_Done _ _ _ (lapic_map_spec img Hi s KP Hv Hb)) as ([] & s' & Hrun & Hr).
  - destruct Hr as (page & Hd & E). exists true, s'. split; [done|]. exists page. split; [done|]. by rewrite E.
  - destruct Hr as [E Hu]. exists false, s'. split; [done|]. split; [by rewrite E|done].
Qed.

(** C14: whatever the firmware's tables hold, as long as the direct map reaches them,
    [cpu_smp_prepare_topology] returns a topology that [scheduler_configure_topology]
    accepts: one to eight processors, numbered from the boot processor's 0, all online
    and none beyond.  When the local APIC cannot be used the boot processor is alone. *)
Theorem cpu_smp_prepare_topology_correct img ebx edx msr s :
  image_ok img -> kernel_pages img (pages s) -> length (smp_cpus s) = 8%nat -> length (apic_to_cpu s) = 256%nat ->
  tables_low (phys (pages s)) ->
  exists config s' l, cpu_smp_prepare_topology img ebx edx msr s = Done config s' /\ described l s' /\
    topology_ok config /\ cfg_cpu_count config = Z.of_nat (length l) /\
    (forall i, 0 <= i < SCHEDULER_MAX_CPUS -> cpu_online config i = (i <? Z.of_nat (length l))) /\
    (lapic_ready s' = true -> lapic_base_virt s' <> None) /\
    (lapic_ready s' = false -> l = [cpu_bootstrap_apic_id ebx]).
Proof.
  intros Hi KP Hc Hm Hlow. destruct (wp_Done _ _ _ (prepare_spec img Hi ebx edx msr s KP Hc Hm Hlow)) as (config & s' & Hrun & l & D & -> & Hv & Hf).
  pose proof D as (T & Hl & C & B). destruct (topology_accepted l s' T Hl C B) as (Hok & Hn & Hon).
  exists (cpu_topology_config s'), s', l. by repeat (split; [done|]).
Qed.

(** * A machine that the properties apply to *)

(** A floating pointer at 0xF0000 and a table at 0xF0100 that lists a disabled
    processor, the boot processor 4, the processors 6 and 7 and a bus. *)
Definition sample_items : list mp_item := [Processor 9 0; Processor 4 3; Device 1; Processor 6 1; Processor 7 1; Processor 6 1].
Definition item_bytes (e : mp_item) : list Z :=
  match e with
  | Processor id flags => [0; id; 0; flags] ++ replicate 16 0
  | Device type => type :: replicate 7 0
  end.
Definition sample_pointer : list Z := [95; 77; 80; 95; 0; 1; 15; 0; 1; 4; 0x90; 0; 0; 0; 0; 0].
Definition sample_table : list Z :=
  [80; 67; 77; 80; 152; 0; 4; 0x29] ++ replicate 26 0 ++ [6; 0] ++ [0; 0; 0xE0; 0xFE] ++ replicate 4 0 ++ flat_map item_bytes sample_items.
Definition sample_firmware (m : memory) : memory := fun x =>
  if (0 <=? x) && (x <? 0x100000) then
    if 0xF0100 <=? x then nth (Z.to_nat (x - 0xF0100)) sample_table 0
    else if 0xF0000 <=? x then nth (Z.to_nat (x - 0xF0000)) sample_pointer 0 else 0
  else m x.
Definition sample_smp (p : paging) : smp :=
  mk_smp (replicate 8 no_cpu) (replicate 256 0) 1 0 0xFEE00000 None false false false [] 0 []
    (set_phys (sample_firmware p.(phys)) p) cold_sched.

(** The firmware's area is apart from the page tables. *)
Lemma sample_machine_pages : exists p, kernel_pages sample_image p /\ kernel_pages sample_image (pages (sample_smp p)).
Proof.
  destruct (wp_Done _ _ _ (paging_init_spec sample_image sample_boot_image cold_paging ltac:(done))) as ([] & p & _ & I).
  assert (KP : forall m q, initialised sample_image (set_phys m cold_paging) q -> kernel_pages sample_image q).
  { intros m q Iq. eapply init_kernel_pages; [apply sample_boot_image|exact Iq|apply small_ready|done|apply cold_vma_wf]. }
  exists p. split; [by apply (KP cold_paging.(phys))|]. apply (KP (sample_firmware cold_paging.(phys))).
  assert (Ho : only_in 0 0x100000 p.(phys) (sample_firmware p.(phys))).
  { intros x Hx. unfold sample_firmware. by replace ((0 <=? x) && (x <? 0x100000)) with false by lia. }
  assert (Hm : forall base n f, 0x100000 <= base -> entries p.(phys) base n f -> entries (sample_firmware p.(phys)) base n f).
  { intros base n f Hb. apply (entries_only_in 0 0x100000); [done|]. unfold apart. lia. }
  assert (HT : init_tables sample_image (sample_firmware p.(phys))).
  { destruct (in_tables _ _ _ I) as [T1 T2 T3 T4 T5]. split.
    - apply Hm; [apply Z.leb_le; reflexivity|exact T1].
    - apply Hm; [apply Z.leb_le; reflexivity|exact T2].
    - intros t Ht. apply Hm; [change (itable sample_image t) with (0x202000 + 0x1000 * t); lia|exact (T3 t Ht)].
    - apply Hm; [apply Z.leb_le; reflexivity|exact T4].
    - intros d Hd. apply Hm; [change (direct_table sample_image d) with (0x205000 + 0x1000 * d); lia|exact (T5 d Hd)]. }
  destruct I as [_ I2 I3 I4 I5 I6 I7 I8 I9]. split; [exact HT| |exact I3|exact I4|exact I5|exact I6|exact I7|exact I8|exact I9].
  intros x Hx. specialize (I2 x Hx). unfold sample_smp, sample_firmware. cbn [pages phys set_phys]. by destruct (_ && _).
Qed.

Lemma sample_first p : first_in (phys (pages (sample_smp p))) (mp_areas (phys (pages (sample_smp p)))) (Some 0xF0000).
Proof.
  change (mp_areas (phys (pages (sample_smp p)))) with [(0xF0000, 0x10000)]. left. split; [done|]. exists 0. split; [done|]. split; [done|].
  split; [vm_compute; done|lia].
Qed.

Lemma mp_tables_correct_witness :
  exists p s', kernel_pages sample_image (pages (sample_smp p)) /\
    mp_find_floating_pointer (sample_smp p) = Done (Some 0xF0000) (sample_smp p) /\
    mp_collect_cpu_ids 0 (Some 0xF0000) (sample_smp p) = Done (Some ([4; 6; 7], 4)) s'.
Proof.
  destruct sample_machine_pages as (p & _ & KP). exists p. eexists. split; [exact KP|].
  apply (mp_tables_correct 0 sample_items 0xF0000 (sample_smp p) (sample_first p));
    [vm_compute; reflexivity|vm_compute; intros H; discriminate H|vm_compute; reflexivity|vm_compute; intros H; discriminate H|].
  vm_compute. repeat split; intros H; discriminate H.
Defined.

Lemma cpu_build_topology_correct_witness :
  exists s', cpu_build_topology_from_apic_ids [6; 4; 7; 6] 4 (sample_smp cold_paging) = Done tt s' /\ described [4; 6; 7] s'.
Proof.
  assert (Hb : forall x, x = 4 \/ x = 6 \/ x = 7 -> fits 8 x) by (intros x [-> | [-> | ->]]; split; reflexivity || (intros H; discriminate H)).
  assert (Hids : Forall (fits 8) [6; 4; 7; 6]) by (repeat (constructor; [apply Hb; lia|]); constructor).
  destruct (cpu_build_topology_correct [6; 4; 7; 6] 4 (sample_smp cold_paging) eq_refl eq_refl Hids (Hb 4 (or_introl eq_refl)))
    as (s' & Hrun & D & _).
  exists s'. split; [exact Hrun|exact D].
Defined.

Lemma lapic_map_mmio_correct_witness :
  exists p r s', kernel_pages sample_image p /\ lapic_map_mmio sample_image (sample_smp p) = Done r s'.
Proof.
  destruct sample_machine_pages as (p & KP0 & KP).
  destruct (lapic_map_mmio_correct sample_image (sample_smp p) (bok_image _ sample_boot_image) KP eq_refl ltac:(split; reflexivity || (intros H; discriminate H)))
    as (r & s' & Hrun & _).
  exists p, r, s'. split; [exact KP0|exact Hrun].
Defined.

Lemma cpu_smp_prepare_topology_correct_witness :
  exists p config s', kernel_pages sample_image (pages (sample_smp p)) /\
    cpu_smp_prepare_topology sample_image 0x04000000 0x200 0xFEE00000 (sample_smp p) = Done config s' /\ topology_ok config.
Proof.
  destruct sample_machine_pages as (p & _ & KP).
  assert (Hlow : tables_low (phys (pages (sample_smp p)))).
  { intros mp Hmp. pose proof (first_in_unique _ _ _ _ (sample_first p) Hmp) as E. injection E as <-. right. right.
    vm_compute. intros H. discriminate H. }
  destruct (cpu_smp_prepare_topology_correct sample_image 0x04000000 0x200 0xFEE00000 (sample_smp p) (bok_image _ sample_boot_image) KP
    eq_refl eq_refl Hlow) as (config & s' & l & Hrun & _ & Hok & _).
  exists p, config, s'. split; [exact KP|]. split; [exact Hrun|exact Hok].
Defined.
