(* ===== verification/CpuStart.v ===== *)
(** The start of another processor, kernel/arch/i386/cpu.c: [i386_ap_startup_entry] on
    that processor and the boot processor's [cpu_wait_for_ap_online] and
    [cpu_smp_release_secondary_cores], interleaved.  A step is an access to shared
    memory. *)
From S2P Require Import Prelude SchedData PagingData PagingProps Gdt Cpu.
From Stdlib Require Import ZArith Lia.
From stdpp Require Import list.
Open Scope Z_scope.

Inductive ap_pc : Type :=
| ApLoad
| ApIdentify
| ApStack (cpu_id : Z)
| ApStarted (cpu_id : Z)
| ApWait
| ApEnable
| ApHalt.

Inductive boot_pc : Type :=
| BootPoll (polls : nat)
| BootOnline (online : bool)
| BootDone.

(** The shared state, and the other processor's table register and flags. *)
Record handshake : Type := mk_handshake {
  h_smp : smp;
  h_tables : descriptors;
  h_idt_loads : nat;
  h_eflags : Z;
  h_ap : ap_pc;
  h_boot : boot_pc
}.

Section Start.
(** What the other processor's CPUID and local APIC answer, and its number. *)
Context (ebx lapic_id : Z) (cpu : Z).

Definition i386_ap_startup_entry (h : handshake) : option handshake :=
  let '(mk_handshake s d n f p b) := h in
  match p with
  | ApLoad => Some (mk_handshake s d (S n) f ApIdentify b)
  | ApIdentify =>
      match cpu_current_id ebx lapic_id s with
      | Done cpu_id s' => Some (mk_handshake s' d n f (if cpu_id <? smp_cpu_count s' then ApStack cpu_id else ApWait) b)
      | _ => None
      end
  | ApStack cpu_id =>
      match (c <- cpu_at cpu_id ;; ret (startup_stack_top c)) s with
      | Done top s' => match gdt_set_kernel_stack top d with Done _ d' => Some (mk_handshake s' d' n f (ApStarted cpu_id) b) | _ => None end
      | _ => None
      end
  | ApStarted cpu_id =>
      match (c <- cpu_at cpu_id ;; cpu_put cpu_id (mk_smp_cpu (apic_id c) (cpu_present c) true (startup_stack_base c) (startup_stack_top c))) s with
      | Done _ s' => Some (mk_handshake s' d n f ApWait b)
      | _ => None
      end
  | ApWait => Some (mk_handshake s d n f (if negb (smp_release_secondaries s) then ApWait else ApEnable) b)
  | ApEnable => Some (mk_handshake s d n (sti f) ApHalt b)
  | ApHalt => None
  end.

(** The boot processor polls the flag so many times, then releases the others. *)
Definition boot_step (h : handshake) : option handshake :=
  let '(mk_handshake s d n f p b) := h in
  match b with
  | BootPoll polls =>
      match polls with
      | O => Some (mk_handshake s d n f p (BootOnline false))
      | S polls' =>
          match smp_cpus s !! Z.to_nat cpu with
          | Some c => Some (mk_handshake s d n f p (if cpu_started c then BootOnline true else BootPoll polls'))
          | None => None
          end
      end
  | BootOnline true =>
      match cpu_smp_release_secondary_cores s with Done _ s' => Some (mk_handshake s' d n f p BootDone) | _ => None end
  | BootOnline false | BootDone => None
  end.

Definition handshake_start (s : smp) (d : descriptors) (f : Z) : handshake :=
  mk_handshake s d 0 f ApLoad (BootPoll (Z.to_nat AP_STARTUP_TIMEOUT_SPINS)).

Inductive handshake_reachable (h0 : handshake) : handshake -> Prop :=
| hs_first : handshake_reachable h0 h0
| hs_next h h' : handshake_reachable h0 h -> (i386_ap_startup_entry h = Some h' \/ boot_step h = Some h') -> handshake_reachable h0 h'.

(** ** What the two processors know of each other *)

Context (s0 : smp) (d0 : descriptors) (f0 : Z) (c0 : smp_cpu_state).
Hypothesis Hcpu : 0 <= cpu < smp_cpu_count s0.
Hypothesis Hentry : smp_cpus s0 !! Z.to_nat cpu = Some c0.
Hypothesis Hid : cpu_current_id ebx lapic_id s0 = Done cpu s0.
Hypothesis Hready : lapic_ready s0 = true /\ 1 < smp_cpu_count s0.
Hypothesis Hcold : cpu_started c0 = false /\ smp_release_secondaries s0 = false.

Definition entry (started : bool) : smp_cpu_state :=
  mk_smp_cpu (apic_id c0) (cpu_present c0) started (startup_stack_base c0) (startup_stack_top c0).
(** The state once the processor has reported, and once it is released. *)
Definition reported_smp : smp :=
  set_topology (<[Z.to_nat cpu := entry true]> (smp_cpus s0)) (apic_to_cpu s0) (smp_cpu_count s0) (smp_boot_cpu s0) s0.
Definition released_smp : smp := set_released true true reported_smp.

Definition ready_tables (d : descriptors) : Prop := d = set_tss (set_esp0 (startup_stack_top c0) (tss d0)) d0.

Record shaking (h : handshake) : Prop := {
  sh_early : match h_ap h with ApLoad | ApIdentify | ApStack _ | ApStarted _ => h_smp h = s0 | _ => h_smp h = match h_boot h with BootDone => released_smp | _ => reported_smp end end;
  sh_number : match h_ap h with ApStack k | ApStarted k => k = cpu | _ => True end;
  sh_loads : h_idt_loads h = match h_ap h with ApLoad => 0%nat | _ => 1%nat end;
  sh_tables : match h_ap h with ApLoad | ApIdentify | ApStack _ => h_tables h = d0 | _ => ready_tables (h_tables h) end;
  sh_flags : match h_ap h with ApHalt => h_eflags h = sti f0 | _ => h_eflags h = f0 end;
  sh_enable : match h_ap h with ApEnable | ApHalt => h_boot h = BootDone | _ => True end;
  sh_boot : match h_boot h with BootOnline true | BootDone => match h_ap h with ApLoad | ApIdentify | ApStack _ | ApStarted _ => False | _ => True end | _ => True end
}.

Lemma put_started : (c <- cpu_at cpu ;; cpu_put cpu (mk_smp_cpu (apic_id c) (cpu_present c) true (startup_stack_base c) (startup_stack_top c))) s0 = Done tt reported_smp.
Proof.
  unfold cpu_at, cpu_put. run. rewrite Hentry. simpl. run. pose proof (lookup_lt_Some _ _ _ Hentry) as Hl.
  replace ((0 <=? cpu) && (cpu <? Z.of_nat (length (smp_cpus s0)))) with true; [done|]. symmetry. apply andb_true_iff. lia.
Qed.

Lemma shaking_ap h h' : shaking h -> i386_ap_startup_entry h = Some h' -> shaking h'.
Proof.
  intros [E N L T F A B] Hs. destruct h as [s d n f p b]. simpl in *. destruct p; simpl in *.
  - injection Hs as <-. subst. by split; simpl.
  - subst s. rewrite Hid in Hs. replace (cpu <? smp_cpu_count s0) with true in Hs by lia. injection Hs as <-. by split; simpl.
  - subst s cpu_id. unfold cpu_at in Hs. rewrite run_bind_bind in Hs. revert Hs. run. rewrite Hentry. simpl. intros [= <-]. subst d. by split; simpl.
  - subst s cpu_id. rewrite put_started in Hs. injection Hs as <-. by destruct b as [|[]|]; split.
  - injection Hs as <-. destruct (smp_release_secondaries s) eqn:Er; simpl; [|by split].
    split; simpl; try done; destruct b as [|[]|]; subst s; try done; destruct Hcold; simpl in *; congruence.
  - injection Hs as <-. subst f. by split; simpl.
  - done.
Qed.

Lemma shaking_boot h h' : shaking h -> boot_step h = Some h' -> shaking h'.
Proof.
  intros [E N L T F A B] Hs. destruct h as [s d n f p b]. simpl in *. destruct b as [[|k]|[]|]; simpl in *; try done.
  - injection Hs as <-. split; simpl; try done. by destruct p.
  - destruct (smp_cpus s !! Z.to_nat cpu) as [c|] eqn:Ec; [|done]. injection Hs as <-. destruct (cpu_started c) eqn:Est; split; simpl; try done; try (by destruct p).
    destruct p; try done; subst s; rewrite Hentry in Ec; injection Ec as <-; destruct Hcold; congruence.
  - assert (Hr : cpu_smp_release_secondary_cores s = Done tt (set_released true true s)).
    { unfold cpu_smp_release_secondary_cores. run. assert (Hl : lapic_ready s = true /\ smp_cpu_count s = smp_cpu_count s0) by (destruct p; try done; subst s; split; [apply Hready|done]).
      destruct Hl as [Hl1 Hl2]. unfold id. rewrite Hl1, Hl2. simpl. replace (smp_cpu_count s0 <=? 1) with false by lia. done. }
    rewrite Hr in Hs. injection Hs as <-. split; simpl; try done; destruct p; try done; by subst s.
Qed.

Lemma shaking_reachable h : handshake_reachable (handshake_start s0 d0 f0) h -> shaking h.
Proof.
  induction 1 as [|h h' _ IH [Hs|Hs]]; [by split|by eapply shaking_ap|by eapply shaking_boot].
Qed.
End Start.

(** In every interleaving of a processor that starts and the boot processor that waits
    for it: when the boot processor sees it online, it has loaded the interrupt table,
    set its stack in the task segment and entered itself as started, and nothing else in
    the table of processors changed; and it enables interrupts only after the boot
    processor released it.  Before that its flags are as they were. *)
Theorem ap_startup_correct ebx lapic_id cpu s0 d0 f0 c0 h :
  0 <= cpu < smp_cpu_count s0 -> smp_cpus s0 !! Z.to_nat cpu = Some c0 -> cpu_current_id ebx lapic_id s0 = Done cpu s0 ->
  lapic_ready s0 = true /\ 1 < smp_cpu_count s0 -> cpu_started c0 = false /\ smp_release_secondaries s0 = false ->
  handshake_reachable ebx lapic_id cpu (handshake_start s0 d0 f0) h ->
  (h_boot h = BootOnline true -> h_idt_loads h = 1%nat /\ esp0 (tss (h_tables h)) = startup_stack_top c0 /\
     h_smp h = reported_smp cpu s0 c0 /\ h_eflags h = f0) /\
  (h_eflags h <> f0 -> h_boot h = BootDone /\ smp_release_secondaries (h_smp h) = true).
Proof.
  intros H1 H2 H3 H4 H5 Hr. destruct (shaking_reachable ebx lapic_id cpu s0 d0 f0 c0 H1 H2 H3 H4 H5 h Hr) as [E N L T F A B]. split.
  - intros Hb. rewrite Hb in *. destruct (h_ap h); try done; rewrite T; split_and!; done.
  - intros Hf. destruct (h_ap h); try done. rewrite A in *. by rewrite E.
Qed.

(** A processor with APIC identifier 1 next to the boot processor. *)
Definition two_processors : smp :=
  mk_smp [mk_smp_cpu 0 true true None 0; mk_smp_cpu 1 true false (Some 0xE0000000) 0xE0004000] ([0; 1] ++ replicate 254 255) 2 0 0xFEE00000
    (Some 0xE1000000) true false false [] 0 [] PagingProps.cold_paging cold_sched.

Lemma ap_startup_correct_witness :
  let h := mk_handshake two_processors cold_descriptors 1 0x2 ApIdentify (BootPoll (Z.to_nat AP_STARTUP_TIMEOUT_SPINS)) in
  handshake_reachable 0 0x01000000 1 (handshake_start two_processors cold_descriptors 0x2) h /\
  (h_eflags h <> 0x2 -> h_boot h = BootDone /\ smp_release_secondaries (h_smp h) = true).
Proof.
  intros h. assert (Hr : handshake_reachable 0 0x01000000 1 (handshake_start two_processors cold_descriptors 0x2) h).
  { eapply hs_next; [apply hs_first|]. left. reflexivity. }
  split; [exact Hr|].
  apply (ap_startup_correct 0 0x01000000 1 two_processors cold_descriptors 0x2 (mk_smp_cpu 1 true false (Some 0xE0000000) 0xE0004000) h);
    [simpl; lia|reflexivity|reflexivity|simpl; split; [reflexivity|lia]|split; reflexivity|exact Hr].
Defined.
