(* ===== verification/Ktest.v ===== *)
(** The registry and the runner of self tests: kernel/test.c.

    A name is the text of the C string, [None] for NULL; a hook is a computation on the
    state [W] of the kernel that is given the statistics of its run, and does not
    register tests itself.  The statistics are never NULL: every caller passes its own. *)
From S2P Require Import Prelude Console.
From Stdlib Require Import ZArith Lia String.
From stdpp Require Import sets.
Open Scope Z_scope.

Definition KTEST_MAX_SUBSYSTEMS : Z := 32.

Record ktest_stats := mk_stats { checks : Z; failures : Z }.
Record ktest_run_summary := mk_summary { executed : Z; passed : Z; failed : Z; sum_checks : Z; check_failures : Z }.

Definition ktest_stats_reset : ktest_stats := mk_stats 0 0.
Definition ktest_stats_record (stats : ktest_stats) (condition : bool) : ktest_stats :=
  mk_stats (u32 (checks stats + 1)) (if negb condition then u32 (failures stats + 1) else failures stats).
Definition ktest_stats_passed (stats : ktest_stats) : bool := failures stats =? 0.

(** The statistics and the verdict after normalisation. *)
Definition ktest_normalize_result (stats : ktest_stats) (pass : bool) : ktest_stats * bool :=
  let stats := if checks stats =? 0 then mk_stats 1 (if negb pass then 1 else failures stats) else stats in
  let stats := if checks stats <? failures stats then mk_stats (checks stats) (checks stats) else stats in
  (stats, failures stats =? 0).
Arguments ktest_normalize_result : simpl never.

Definition ktest_selector_matches (name : list Z) (selector : option (list Z)) : bool :=
  match selector with
  | None => true
  | Some sel => bool_decide (sel = []) || bool_decide (sel = bytes_of "all") || bool_decide (name = sel)
  end.

Section Ktest.
Context {W : Type}.

Definition ktest_hook : Type := ktest_stats -> M W (bool * ktest_stats).
Definition ktest_reporter : Type := list Z -> ktest_stats -> bool -> M W unit.

Record ktest_entry := mk_entry { entry_name : list Z; hook : ktest_hook }.
Record ktest := mk_ktest { ktest_registry : list ktest_entry; kernel : W }.

(** Running a hook or a reporter. *)
Definition in_kernel {A} (m : M W A) : M ktest A :=
  fun s => match m (kernel s) with
           | Done a w => Done a (mk_ktest (ktest_registry s) w)
           | Panic msg w => Panic msg (mk_ktest (ktest_registry s) w)
           | Fault => Fault
           | Spin => Spin
           end.

Definition ktest_registered_count : M ktest Z := gets (fun s => Z.of_nat (length (ktest_registry s))).

Definition ktest_registered_name (index : Z) : M ktest (option (list Z)) :=
  n <- ktest_registered_count ;;
  if n <=? index then ret None else
  l <- gets ktest_registry ;;
  e <- of_option (l !! Z.to_nat index) ;;
  ret (Some (entry_name e)).

(** The loop that looks for the name, and replaces the hook. *)
Fixpoint replace_hook (name : list Z) (h : ktest_hook) (l : list ktest_entry) : option (list ktest_entry) :=
  match l with
  | [] => None
  | e :: l' =>
      if bool_decide (entry_name e = name) then Some (mk_entry (entry_name e) h :: l')
      else cons e <$> replace_hook name h l'
  end.

Definition ktest_register_subsystem (name : option (list Z)) (h : option ktest_hook) : M ktest bool :=
  match name, h with
  | Some ((_ :: _) as name), Some h =>
      l <- gets ktest_registry ;;
      match replace_hook name h l with
      | Some l' => modify (fun s => mk_ktest l' (kernel s)) ;;; ret true
      | None =>
          if KTEST_MAX_SUBSYSTEMS <=? Z.of_nat (length l) then ret false
          else modify (fun s => mk_ktest (l ++ [mk_entry name h]) (kernel s)) ;;; ret true
      end
  | _, _ => ret false
  end.

(** Adding the normalised result of a test to the sums. *)
Definition tally (sum : ktest_run_summary) (stats : ktest_stats) (pass : bool) : ktest_run_summary :=
  mk_summary (u32 (executed sum + 1))
    (if pass then u32 (passed sum + 1) else passed sum) (if pass then failed sum else u32 (failed sum + 1))
    (u32 (sum_checks sum + checks stats)) (u32 (check_failures sum + failures stats)).

(** One entry of the run: its hook on fresh statistics, the normalised result, the
    sums and the report. *)
Definition run_entry (reporter : option ktest_reporter) (e : ktest_entry) (sum : ktest_run_summary) : M ktest ktest_run_summary :=
  r <- in_kernel (hook e ktest_stats_reset) ;;
  let '(stats, pass) := ktest_normalize_result r.2 r.1 in
  (match reporter with Some f => in_kernel (f (entry_name e) stats pass) | None => ret tt end) ;;;
  ret (tally sum stats pass).

Definition ktest_run (selector : option (list Z)) (reporter : option ktest_reporter) : M ktest (bool * ktest_run_summary) :=
  n <- ktest_registered_count ;;
  r <- for_acc (R := Empty_set) 0 n (mk_summary 0 0 0 0 0) (fun i sum =>
    l <- gets ktest_registry ;;
    e <- of_option (l !! Z.to_nat i) ;;
    if negb (ktest_selector_matches (entry_name e) selector) then ret (inl sum)
    else sum <- run_entry reporter e sum ;; ret (inl sum)) ;;
  match r with
  | inl sum => ret (negb (executed sum =? 0), sum)
  | inr f => match f with end
  end.

(** * What the runner and the registry do *)

(** Running some entries one after the other: the normalised result of each. *)
Abbreviation result := (list Z * ktest_stats * bool)%type.
Definition reported (reporter : option ktest_reporter) (r : result) (w w' : W) : Prop :=
  match reporter with Some f => f r.1.1 r.1.2 r.2 w = Done tt w' | None => w' = w end.
(** The verdict on a hook that answered [pass] with some statistics.  A hook that
    checked nothing counts as one check, failed when the hook said so or counted a
    failure; one that did counts its checks and no more failures than checks.  It
    passes when no failure is left. *)
Record judged (e : ktest_entry) (pass : bool) (st : ktest_stats) (r : result) : Prop := {
  jd_name : r.1.1 = entry_name e;
  jd_none : checks st = 0 -> checks r.1.2 = 1 /\ failures r.1.2 = if pass && (failures st =? 0) then 0 else 1;
  jd_some : checks st <> 0 -> checks r.1.2 = checks st /\ failures r.1.2 = Z.min (failures st) (checks st);
  jd_pass : r.2 = true <-> failures st = 0 /\ (checks st = 0 -> pass = true)
}.

(** Running some entries one after the other, each hook on fresh statistics; its
    counts are [uint32_t]. *)
Inductive runs (reporter : option ktest_reporter) : list ktest_entry -> W -> list result -> W -> Prop :=
  | runs_nil w : runs reporter [] w [] w
  | runs_cons e es w w1 w2 w3 pass st r rs :
      hook e (mk_stats 0 0) w = Done (pass, st) w1 -> 0 <= checks st < 2 ^ 32 -> 0 <= failures st < 2 ^ 32 ->
      judged e pass st r -> reported reporter r w1 w2 ->
      runs reporter es w2 rs w3 -> runs reporter (e :: es) w (r :: rs) w3.

(** The result as the code computes it. *)
Definition result_of (e : ktest_entry) (r : bool * ktest_stats) : result :=
  let n := ktest_normalize_result r.2 r.1 in (entry_name e, n.1, n.2).

Lemma judged_result e pass st r :
  0 <= checks st -> 0 <= failures st -> judged e pass st r -> r = result_of e (pass, st).
Proof.
  destruct r as [[n [c f]] p], st as [c0 f0]. intros Hc Hf [H1 H2 H3 H4]. simpl in *. subst n.
  unfold result_of, ktest_normalize_result. simpl. destruct (Z.eqb_spec c0 0) as [->|Hne].
  - destruct (H2 eq_refl) as [-> ->]. destruct pass; simpl in *.
    + destruct (Z.eqb_spec f0 0) as [->|Hf0]; simpl; [by rewrite (proj2 H4)|].
      assert (p = false) as -> by (destruct p; [exfalso; apply Hf0; tauto|done]).
      destruct (Z.ltb_spec 1 f0); simpl; [done|]. by replace f0 with 1 by lia.
    + destruct p; [|done]. destruct H4 as [H4 _]. by destruct (proj2 (H4 eq_refl) eq_refl).
  - destruct (H3 Hne) as [-> ->].
    assert (p = (f0 =? 0)) as ->. { destruct (Z.eqb_spec f0 0), p; try done; [by apply H4|tauto]. }
    cbv zeta. cbn [checks failures fst snd]. destruct (Z.ltb_spec c0 f0); cbn [checks failures fst snd].
    + rewrite Z.min_r by lia. replace (f0 =? 0) with false by lia. by replace (c0 =? 0) with false by lia.
    + by rewrite Z.min_l by lia.
Qed.

(** The tests a selector asks for: all of them when it is NULL, empty or the word
    all, and otherwise those of that name. *)
Definition selected (selector : option (list Z)) (name : list Z) : Prop :=
  selector = None \/ selector = Some [] \/ selector = Some [97; 108; 108] \/ selector = Some name.
#[export] Instance selected_decision selector name : Decision (selected selector name).
Proof. unfold selected. apply _. Defined.

Lemma selector_matches_spec name selector : ktest_selector_matches name selector = true <-> selected selector name.
Proof.
  unfold ktest_selector_matches, selected. destruct selector as [sel|]; [|naive_solver].
  rewrite !orb_true_iff, !bool_decide_eq_true. change (bytes_of "all") with [97; 108; 108]. naive_solver.
Qed.

(** The summary of some results. *)
Definition total (f : ktest_stats -> Z) (rs : list result) : Z := fold_right (fun r n => f r.1.2 + n) 0 rs.
Definition sum_results (rs : list result) : ktest_run_summary :=
  mk_summary (Z.of_nat (length rs)) (Z.of_nat (length (filter (fun r => r.2 = true) rs)))
    (Z.of_nat (length (filter (fun r => r.2 = false) rs))) (u32 (total checks rs)) (u32 (total failures rs)).

Lemma tally_results rs a b c d e :
  0 <= a -> 0 <= b -> 0 <= c -> a + Z.of_nat (length rs) < 2 ^ 32 -> b + Z.of_nat (length rs) < 2 ^ 32 -> c + Z.of_nat (length rs) < 2 ^ 32 ->
  fold_left (fun sum r => tally sum r.1.2 r.2) rs (mk_summary a b c (u32 d) (u32 e)) =
  mk_summary (a + Z.of_nat (length rs)) (b + Z.of_nat (length (filter (fun r => r.2 = true) rs)))
    (c + Z.of_nat (length (filter (fun r => r.2 = false) rs))) (u32 (d + total checks rs)) (u32 (e + total failures rs)).
Proof.
  revert a b c d e. induction rs as [|[[n st] p] rs IH]; intros a b c d e Ha Hb Hc La Lb Lc; simpl in *.
  { by rewrite !Z.add_0_r. }
  unfold tally at 2. cbn [executed passed failed sum_checks check_failures].
  assert (Hw : forall x y, u32 (u32 x + y) = u32 (x + y)) by (intros; unfold wrap; by rewrite Z.add_mod_idemp_l by lia).
  rewrite !Hw. rewrite (wrap_small 32 (a + 1)) by word_lia. destruct p.
  - rewrite (wrap_small 32 (b + 1)) by word_lia. rewrite IH by lia. rewrite filter_cons_True, filter_cons_False by done. simpl.
    f_equal; try lia; f_equal; lia.
  - rewrite (wrap_small 32 (c + 1)) by word_lia. rewrite IH by lia. rewrite filter_cons_False, filter_cons_True by done. simpl.
    f_equal; try lia; f_equal; lia.
Qed.

Lemma run_entry_run reporter e r w w1 w2 l sum :
  hook e (mk_stats 0 0) w = Done r w1 -> reported reporter (result_of e r) w1 w2 ->
  run_entry reporter e sum (mk_ktest l w) = Done (tally sum (result_of e r).1.2 (result_of e r).2) (mk_ktest l w2).
Proof.
  intros Hh Hr. unfold run_entry.
  assert (Hin : in_kernel (hook e ktest_stats_reset) (mk_ktest l w) = Done r (mk_ktest l w1)).
  { unfold in_kernel, ktest_stats_reset. cbn [kernel ktest_registry]. by rewrite Hh. }
  rewrite (run_bind_done _ _ _ _ _ Hin). unfold reported, result_of in *.
  destruct (ktest_normalize_result r.2 r.1) as [st p]. cbn [fst snd] in *. destruct reporter as [f|].
  - rewrite (run_bind_done _ _ _ tt (mk_ktest l w2)); [done|]. unfold in_kernel. cbn [kernel ktest_registry]. by rewrite Hr.
  - by subst w2.
Qed.

(** The loop from an entry on. *)
Lemma run_loop selector reporter : forall l2 l1 w rs w' sum,
  runs reporter (filter (fun e => ktest_selector_matches (entry_name e) selector = true) l2) w rs w' ->
  acc_loop (R := Empty_set) (length l2) (Z.of_nat (length l1)) sum (fun i sum =>
    l <- gets ktest_registry ;;
    e <- of_option (l !! Z.to_nat i) ;;
    if negb (ktest_selector_matches (entry_name e) selector) then ret (inl sum)
    else sum <- run_entry reporter e sum ;; ret (inl sum)) (mk_ktest (l1 ++ l2) w) =
  Done (inl (fold_left (fun sum r => tally sum r.1.2 r.2) rs sum)) (mk_ktest (l1 ++ l2) w').
Proof.
  induction l2 as [|e l2 IH]; intros l1 w rs w' sum Hr.
  { inversion Hr; subst. done. }
  simpl. run. cbn [ktest_registry]. rewrite Nat2Z.id, list_lookup_middle by done. simpl. run.
  assert (Hnext : forall w rs w' sum,
    runs reporter (filter (fun e => ktest_selector_matches (entry_name e) selector = true) l2) w rs w' ->
    acc_loop (R := Empty_set) (length l2) (Z.of_nat (length l1) + 1) sum (fun i sum =>
      l <- gets ktest_registry ;;
      e <- of_option (l !! Z.to_nat i) ;;
      if negb (ktest_selector_matches (entry_name e) selector) then ret (inl sum)
      else sum <- run_entry reporter e sum ;; ret (inl sum)) (mk_ktest (l1 ++ e :: l2) w) =
    Done (inl (fold_left (fun sum r => tally sum r.1.2 r.2) rs sum)) (mk_ktest (l1 ++ e :: l2) w')).
  { intros w0 rs0 w0' sum0 H. specialize (IH (l1 ++ [e]) w0 rs0 w0' sum0 H). rewrite length_app, <- app_assoc in IH. simpl in IH.
    replace (Z.of_nat (length l1 + 1)) with (Z.of_nat (length l1) + 1) in IH by lia. exact IH. }
  destruct (ktest_selector_matches (entry_name e) selector) eqn:E; simpl.
  - rewrite filter_cons_True in Hr by done. inversion Hr as [|? ? ? w1 w2 ? pass st r rs' Hh Hc Hf Hj Hrep Hrest]; subst.
    apply judged_result in Hj; [subst r|lia..].
    run. rewrite (run_bind_done _ _ _ _ _ (run_entry_run reporter e (pass, st) w w1 w2 _ sum Hh Hrep)). run.
    exact (Hnext w2 rs' w' _ Hrest).
  - rewrite filter_cons_False in Hr by (by rewrite E). run. by apply Hnext.
Qed.

(** ** The registry *)

(** Distinct names, at most 32. *)
Definition registry_ok (l : list ktest_entry) : Prop := NoDup (entry_name <$> l) /\ (length l <= 32)%nat.

(** The hook that a name has. *)
Fixpoint hook_of (name : list Z) (l : list ktest_entry) : option ktest_hook :=
  match l with
  | [] => None
  | e :: l' => if bool_decide (entry_name e = name) then Some (hook e) else hook_of name l'
  end.

Lemma replace_hook_spec name h l :
  match replace_hook name h l with
  | Some l' => entry_name <$> l' = entry_name <$> l /\ hook_of name l' = Some h /\
      forall n, n <> name -> hook_of n l' = hook_of n l
  | None => hook_of name l = None /\ name ∉ entry_name <$> l
  end.
Proof.
  induction l as [|e l IH]; simpl; [split; [done|set_solver]|].
  destruct (bool_decide_reflect (entry_name e = name)) as [<-|Hne]; simpl.
  - rewrite bool_decide_eq_true_2 by done. split; [done|]. split; [done|]. intros n Hn. by rewrite bool_decide_eq_false_2 by done.
  - destruct (replace_hook name h l) as [l'|]; simpl.
    + destruct IH as (E & Hh & Ho). rewrite bool_decide_eq_false_2 by done. split; [by f_equal|]. split; [done|].
      intros n Hn. by rewrite Ho.
    + destruct IH as [E Hn]. split; [done|]. rewrite not_elem_of_cons. by split.
Qed.

Lemma hook_of_app n l name h : hook_of n (l ++ [mk_entry name h]) =
  match hook_of n l with Some x => Some x | None => if bool_decide (name = n) then Some h else None end.
Proof. induction l as [|e l IH]; simpl; [done|]. destruct (bool_decide (entry_name e = n)); [done|exact IH]. Qed.
End Ktest.
Arguments ktest_hook : clear implicits.
Arguments ktest_reporter : clear implicits.
Arguments ktest : clear implicits.
Arguments ktest_entry : clear implicits.

(** [ktest_register_subsystem] keeps the names distinct and at most 32.  It answers
    [true] exactly when both arguments are given, the name is not empty and either
    known or there is room; then the name has the new hook and every other name the
    one it had, and otherwise nothing changes. *)
Theorem ktest_register_correct {W} (s : ktest W) name h :
  registry_ok (ktest_registry s) ->
  exists r s', ktest_register_subsystem name h s = Done r s' /\ registry_ok (ktest_registry s') /\ kernel s' = kernel s /\
    match name, h with
    | Some ((_ :: _) as n), Some h =>
        if r then hook_of n (ktest_registry s') = Some h /\
                  (forall m, m <> n -> hook_of m (ktest_registry s') = hook_of m (ktest_registry s))
        else s' = s /\ hook_of n (ktest_registry s) = None /\ length (ktest_registry s) = 32%nat
    | _, _ => r = false /\ s' = s
    end.
Proof.
  intros [Hnd Hl]. destruct name as [[|c n]|]; [by exists false, s| |by exists false, s]. destruct h as [h|]; [|by exists false, s].
  unfold ktest_register_subsystem. run. pose proof (replace_hook_spec (c :: n) h (ktest_registry s)) as Hr.
  destruct (replace_hook (c :: n) h (ktest_registry s)) as [l'|].
  - destruct Hr as (E & Hh & Ho). exists true. eexists. split; [reflexivity|]. unfold registry_ok. cbn [ktest_registry kernel]. rewrite E.
    assert (length l' = length (ktest_registry s)) as -> by (by rewrite <- (length_fmap entry_name l'), E, length_fmap). done.
  - destruct Hr as [E Hn]. destruct (Z.leb_spec KTEST_MAX_SUBSYSTEMS (Z.of_nat (length (ktest_registry s)))) as [Hge|Hlt]; unfold KTEST_MAX_SUBSYSTEMS in *.
    + exists false, s. repeat (split; [done|]). lia.
    + exists true. eexists. split; [reflexivity|]. cbn [ktest_registry kernel]. split; [|split; [done|split]].
      * split; [|rewrite length_app; simpl; lia]. rewrite fmap_app. apply NoDup_app. split; [done|].
        split; [set_solver|apply NoDup_singleton].
      * rewrite hook_of_app, E. by rewrite bool_decide_eq_true_2.
      * intros m Hm. rewrite hook_of_app. destruct (hook_of m _); [done|]. by rewrite bool_decide_eq_false_2 by done.
Qed.

(** C34: [ktest_run] runs exactly the registered tests that the selector asks for
    (all of them when it is NULL, empty or the word all), in the order of
    registration, each once on fresh statistics.  A test that checked nothing counts
    as one check, failed when its hook says so; failures are never more than checks,
    and a test passes exactly when no failure is left.  The summary counts the tests,
    those that passed and those that failed, and adds up the checks and failures;
    the result is whether any test ran. *)
Theorem ktest_run_correct {W} (s : ktest W) selector reporter rs w' :
  registry_ok (ktest_registry s) ->
  runs reporter (filter (fun e => selected selector (entry_name e)) (ktest_registry s)) (kernel s) rs w' ->
  ktest_run selector reporter s = Done (negb (bool_decide (rs = [])), sum_results rs) (mk_ktest (ktest_registry s) w') /\
  passed (sum_results rs) + failed (sum_results rs) = executed (sum_results rs).
Proof.
  intros [_ Hl] Hr. destruct s as [l w]. cbn [ktest_registry kernel] in *.
  rewrite (list_filter_iff _ (fun e => ktest_selector_matches (entry_name e) selector = true)) in Hr
    by (intros e; by rewrite selector_matches_spec).
  assert (Hlen : (length rs <= 32)%nat).
  { assert (E : length rs = length (filter (fun e => ktest_selector_matches (entry_name e) selector = true) l)).
    { clear Hl. remember (filter _ l) as l0 eqn:E0. clear E0. induction Hr; simpl; congruence. }
    rewrite E. etransitivity; [apply length_filter|done]. }
  split.
  - unfold ktest_run, ktest_registered_count, for_acc. run. cbn [ktest_registry]. rewrite Z.sub_0_r, Nat2Z.id.
    pose proof (run_loop selector reporter l [] w rs w' (mk_summary 0 0 0 0 0) Hr) as Hloop. simpl app in Hloop. change (Z.of_nat 0) with 0 in Hloop.
    rewrite (run_bind_done _ _ _ _ _ Hloop). run. change (mk_summary 0 0 0 0 0) with (mk_summary 0 0 0 (u32 0) (u32 0)).
    assert (Z.of_nat (length rs) <= 32) by lia. rewrite tally_results by word_lia. rewrite !Z.add_0_l. fold (sum_results rs). f_equal. f_equal. simpl.
    destruct rs; [done|]. rewrite bool_decide_eq_false_2 by done. simpl. lia.
  - cbn [sum_results passed failed executed]. clear. induction rs as [|[[n st] p] rs IH]; [done|]. destruct p.
    + rewrite filter_cons_True, filter_cons_False by done. cbn [length]. lia.
    + rewrite filter_cons_False, filter_cons_True by done. cbn [length]. lia.
Qed.

(** A registry of two tests on a counter. *)
Definition sample_tests : ktest nat :=
  mk_ktest [mk_entry (bytes_of "vma") (fun st w => Done (true, ktest_stats_record st true) (S w));
            mk_entry (bytes_of "pmm") (fun st w => Done (false, st) (S w))] 0%nat.

Lemma sample_tests_ok : registry_ok (ktest_registry sample_tests).
Proof. split; [|simpl; lia]. apply (bool_decide_eq_true_1 (NoDup (entry_name <$> ktest_registry sample_tests))). vm_compute. reflexivity. Qed.

Lemma ktest_run_correct_witness :
  exists sum s', ktest_run (Some (bytes_of "all")) None sample_tests = Done (true, sum) s' /\ failed sum = 1 /\ kernel s' = 2%nat.
Proof.
  assert (Hr : runs None (filter (fun e => selected (Some (bytes_of "all")) (entry_name e)) (ktest_registry sample_tests)) 0%nat
    [(bytes_of "vma", mk_stats 1 0, true); (bytes_of "pmm", mk_stats 1 1, false)] 2%nat).
  { change (filter (fun e => selected (Some (bytes_of "all")) (entry_name e)) (ktest_registry sample_tests)) with (ktest_registry sample_tests).
    eapply (runs_cons None _ _ 0%nat 1%nat 1%nat 2%nat true (mk_stats 1 0)); [reflexivity|simpl; lia|simpl; lia|by split|reflexivity|].
    eapply (runs_cons None _ _ 1%nat 2%nat 2%nat 2%nat false (mk_stats 0 0)); [reflexivity|simpl; lia|simpl; lia| |reflexivity|apply runs_nil].
    split; [done|done|done|]. simpl. split; [done|]. intros [_ H]. by specialize (H eq_refl). }
  destruct (ktest_run_correct sample_tests (Some (bytes_of "all")) None _ 2%nat sample_tests_ok Hr) as [H _].
  eexists _, _. split; [exact H|]. split; reflexivity.
Defined.
