(* ===== verification/Kdebug.v ===== *)
(** The debugger shell and its self tests: kernel/kdebug.c.

    The state joins the components that the commands print and the tests exercise.
    Output is the list of calls of [printf] and [putchar]; Stdio.v and its properties
    say what each prints.  The line buffer is at [line_addr] of memory.  The tests that
    run several tasks and wait for them are parameters. *)
From S2P Require Import Prelude Bootinfo Pmm Vma SchedData Sched SchedApi SchedSelfTest Strings Vfs Sync PagingData Paging PagingFacts.
From S2P Require Import Heap HeapPaging Console Panic Irq Keyboard Ktest.
From Stdlib Require Import ZArith Lia String.
From stdpp Require Import list.
Open Scope Z_scope.

Definition KDEBUG_LINE_MAX : Z := 128.
Definition PAGING_USER_BASE : Z := 0x00400000.

(** An argument of [printf]: a word, a 64-bit value, a text, a string in memory, or the
    root of an address space (0 for none). *)
Inductive arg :=
  | ANum (n : Z)
  | A64 (n : Z)
  | AText (s : string)
  | ABytes (l : list Z)
  | AAddr (p : Z)
  | ARoot (space : option Z).
Inductive output :=
  | Printf (format : string) (args : list arg)
  | Putchar (c : Z).

Definition yes_no (b : bool) : arg := AText (if b then "yes" else "no").

Section Kdebug.
Context {D : Type} (img : kernel_image) (Himg : image_ok img) (slab_pool_addr : Z).
#[local] Instance kernel_store : PageStore paging := paging_store img Himg.

Record kernel := mk_kernel {
  k_boot : bootinfo;
  k_heap : heap (P := paging);
  k_panic : panic_world D;
  k_vfs : vfs;
  k_input : machine keyboard;
  k_out : list output;
  debugger_active : bool
}.

Definition set_boot v k := mk_kernel v (k_heap k) (k_panic k) (k_vfs k) (k_input k) (k_out k) (debugger_active k).
Definition set_heap v k := mk_kernel (k_boot k) v (k_panic k) (k_vfs k) (k_input k) (k_out k) (debugger_active k).
Definition set_panic v k := mk_kernel (k_boot k) (k_heap k) v (k_vfs k) (k_input k) (k_out k) (debugger_active k).
Definition set_vfs v k := mk_kernel (k_boot k) (k_heap k) (k_panic k) v (k_input k) (k_out k) (debugger_active k).
Definition set_input v k := mk_kernel (k_boot k) (k_heap k) (k_panic k) (k_vfs k) v (k_out k) (debugger_active k).
Definition set_out v k := mk_kernel (k_boot k) (k_heap k) (k_panic k) (k_vfs k) (k_input k) v (debugger_active k).
Definition set_debugger_active v k := mk_kernel (k_boot k) (k_heap k) (k_panic k) (k_vfs k) (k_input k) (k_out k) v.

(** Running a component's function on its part of the state. *)
Definition on {S A} (get : kernel -> S) (set : S -> kernel -> kernel) (m : M S A) : M kernel A :=
  fun k => match m (get k) with
           | Done a s => Done a (set s k)
           | Panic msg s => Panic msg (set s k)
           | Fault => Fault
           | Spin => Spin
           end.
Definition on_boot {A} : M bootinfo A -> M kernel A := on k_boot set_boot.
Definition on_heap {A} : M (heap (P := paging)) A -> M kernel A := on k_heap set_heap.
Definition on_paging {A} : M paging A -> M kernel A :=
  on (fun k => Heap.pages (k_heap k)) (fun p k => set_heap (Heap.set_pages p (k_heap k)) k).
Definition on_frames {A} (m : M pmm A) : M kernel A := on_paging (on_pmm m).
Definition on_nodes {A} (m : M vma_pool A) : M kernel A := on_paging (on_vma_nodes m).
Definition on_log {A} : M (panic_world D) A -> M kernel A := on k_panic set_panic.
Definition on_sched {A} : M sched A -> M kernel A :=
  on (fun k => pw_sched (k_panic k))
     (fun s k => set_panic (mk_world (pw_log (k_panic k)) (pw_eflags (k_panic k)) (pw_console (k_panic k)) s) k).
Definition on_files {A} : M vfs A -> M kernel A := on k_vfs set_vfs.
Definition on_input {A} : M (machine keyboard) A -> M kernel A := on k_input set_input.

Definition printf (format : string) (args : list arg) : M kernel unit :=
  modify (fun k => set_out (k_out k ++ [Printf format args]) k).
Definition putchar (c : Z) : M kernel unit := modify (fun k => set_out (k_out k ++ [Putchar c]) k).

Definition nl : string := String (Ascii.ascii_of_nat 10) "".

Definition kdebug_print_prompt : M kernel unit := printf (nl ++ "[kdebug] ")%string [].

(** [context] of a test is its statistics. *)
Definition kdebug_stats_add (stats : ktest_stats) (c f : Z) : ktest_stats :=
  mk_stats (u32 (checks stats + c)) (u32 (failures stats + f)).
Definition kdebug_record_subtest (stats : ktest_stats) (pass : bool) : ktest_stats * bool := (ktest_stats_record stats pass, pass).

Definition kdebug_zombie_count : M kernel Z :=
  l <- on_sched scheduler_get_list_snapshot ;;
  ret (let '(_, _, _, _, zombies) := l in zombies).

(** ** Commands that print *)

Definition kdebug_show_tasks : M kernel unit :=
  count <- on_sched scheduler_task_count ;;
  for_each 0 count (fun i =>
    snapshot <- on_sched (scheduler_get_task_snapshot i) ;;
    match snapshot with
    | None => ret tt
    | Some t =>
        printf ("task %u %-12s state=%-8s prio=%u cpu=%u node=%u wake=%u affinity=0x%x cr3=0x%x" ++ nl)
          [ANum (snap_id t); AText (snap_name t); AText (snap_state t); ANum (snap_priority t); ANum (snap_cpu_id t);
           ANum (snap_numa_node t); ANum (snap_wakeup_tick t); ANum (snap_cpu_affinity_mask t); ARoot (snap_space t)]
    end).

Definition kdebug_show_cpus : M kernel unit :=
  count <- on_sched scheduler_cpu_count ;;
  for_each 0 count (fun i =>
    cpu <- on_sched (scheduler_get_cpu_snapshot i) ;;
    match cpu with
    | None => ret tt
    | Some (cpu_id, node, is_online, queued, running_id, running_name) =>
        printf ("cpu %u node=%u online=%s running=%u(%s) runnable=%u" ++ nl)
          [ANum cpu_id; ANum node; yes_no is_online; ANum running_id; AText running_name; ANum queued]
    end) ;;;
  lists <- on_sched scheduler_get_list_snapshot ;;
  let '(free, queued, sleeping, blocked, zombies) := lists in
  printf ("lists: free=%u runnable=%u sleeping=%u blocked=%u zombie=%u" ++ nl)
    [ANum free; ANum queued; ANum sleeping; ANum blocked; ANum zombies].

Definition kdebug_show_numa : M kernel unit :=
  node_count <- on_frames pmm_numa_node_count ;;
  printf ("numa: nodes=%u" ++ nl) [ANum node_count] ;;;
  for_each 0 node_count (fun node =>
    stats <- on_frames (pmm_get_numa_node_stats node true) ;;
    match stats with
    | None => ret tt
    | Some (node_id, first, count, free) =>
        let start_phys := u64 (first * PAGE_SIZE) in
        let end_phys := u64 (start_phys + u64 (count * PAGE_SIZE)) in
        printf ("node %u: frames=%u free=%u range=[0x%llx, 0x%llx)" ++ nl)
          [ANum node_id; ANum count; ANum free; A64 start_phys; A64 end_phys]
    end).

Definition kdebug_print_latency_metric (name : string) (metric : scheduler_trace_latency_metric) : M kernel unit :=
  printf ("%s: samples=%llu total=%llu min=%u max=%u" ++ nl)
    [AText name; A64 (sample_count metric); A64 (total_ticks metric); ANum (min_ticks metric); ANum (max_ticks metric)].

Definition kdebug_show_schedstat : M kernel unit :=
  c <- on_sched scheduler_get_trace_counters ;;
  l <- on_sched scheduler_get_trace_latency ;;
  printf ("schedstat: ticks=%llu schedule=%llu switches=%llu preempt=%llu yields=%llu wakeups=%llu" ++ nl)
    [A64 (c timer_ticks); A64 (c schedule_events); A64 (c context_switches); A64 (c preemptions); A64 (c voluntary_yields);
     A64 (c wakeups)] ;;;
  printf ("schedstat: waits=%llu timeouts=%llu sleeps=%llu creates=%llu exits=%llu prio_updates=%llu" ++ nl)
    [A64 (c wait_calls); A64 (c wait_timeouts); A64 (c sleep_calls); A64 (c task_creations); A64 (c task_exits);
     A64 (c priority_updates)] ;;;
  printf ("schedstat: balance_runs=%llu balance_moves=%llu migrations=%llu remote_wake_ipi=%llu remote_resched_ipi=%llu" ++ nl)
    [A64 (c load_balance_runs); A64 (c load_balance_migrations); A64 (c task_migrations); A64 (c remote_wakeup_ipis);
     A64 (c remote_reschedule_ipis)] ;;;
  kdebug_print_latency_metric "runnable_wait_ticks" (l runnable_wait_ticks) ;;;
  kdebug_print_latency_metric "sleep_overshoot_ticks" (l sleep_overshoot_ticks) ;;;
  kdebug_print_latency_metric "wait_timeout_overshoot_ticks" (l wait_timeout_overshoot_ticks).

Definition kdebug_list_files : M kernel unit :=
  count <- on_files vfs_file_count ;;
  for_each 0 count (fun i =>
    node <- on_files (vfs_get_file i) ;;
    match node with
    | None => ret tt
    | Some n => printf ("%s (%u bytes)" ++ nl) [AAddr (node_name n); ANum (node_size n)]
    end).

(** [fuel] bounds the comparison of the path. *)
Definition kdebug_cat_file (fuel : nat) (path : Z) : M kernel unit :=
  node <- on_files (vfs_open fuel path) ;;
  match node with
  | None => printf ("no such file: %s" ++ nl) [AAddr path]
  | Some n =>
      printf ("----- %s -----" ++ nl) [AAddr (node_name n)] ;;;
      for_each 0 (node_size n) (fun i => c <- on_files (on_memory (byte_at (node_data n + i))) ;; putchar c) ;;;
      last <- (if node_size n =? 0 then ret true
               else c <- on_files (on_memory (byte_at (node_data n + (node_size n - 1)))) ;; ret (negb (c =? 10))) ;;
      if last : bool then putchar 10 else ret tt
  end.

(** ** Self tests *)

(** The entries counted and the lengths of the available regions added up. *)
Definition kdebug_test_memmap (stats : ktest_stats) : M kernel (bool * ktest_stats) :=
  has <- gets (fun k => bootinfo_has_memory_map (k_boot k)) ;;
  if negb has then
    printf ("memmap: bootloader did not provide a memory map" ++ nl) [] ;;;
    ret (false, ktest_stats_record stats false)
  else
    regions <- on_boot memory_regions ;;
    let entries := u32 (Z.of_nat (length regions)) in
    let available_bytes := fold_left (fun n r => if region_type r =? MULTIBOOT_MEMORY_AVAILABLE then u64 (n + region_length r) else n) regions 0 in
    let pass := (0 <? entries) && (0 <? available_bytes) in
    printf ("memmap: entries=%u available=%u MiB" ++ nl) [ANum entries; ANum (u32 (Z.shiftr available_bytes 20))] ;;;
    ret (pass, ktest_stats_record stats pass).

(** [pass = pass && call]: the call is made only while the test passes. *)
Definition also {A} (pass : bool) (skip : A) (m : M kernel (A * bool)) : M kernel (A * bool) :=
  if pass then m else ret (skip, false).

Definition kdebug_test_vma_tree (stats : ktest_stats) : M kernel (bool * ktest_stats) :=
  let tree := vma_tree_init in
  r <- on_nodes (vma_tree_insert tree 0x1000 0x3000 1) ;; let '(tree, pass) := r in
  r <- also pass tree (on_nodes (vma_tree_insert tree 0x5000 0x7000 2)) ;; let '(tree, pass) := r in
  r <- also pass tree (r <- on_nodes (vma_tree_insert tree 0x2800 0x3800 3) ;; ret (fst r, negb (snd r))) ;; let '(tree, pass) := r in
  let found := if pass then vma_tree_find_gap tree 0x1000 0x9000 0x1000 0x1000 else None in
  let gap := default 0 found in
  let pass := pass && match found with Some _ => true | None => false end in
  let pass := pass && (gap =? 0x3000) in
  let area := if pass then vma_tree_find tree 0x5200 else None in
  let '(start, end_, flags) := default (0, 0, 0) area in
  let pass := pass && match area with Some _ => true | None => false end in
  let pass := pass && ((start =? 0x5000) && (end_ =? 0x7000) && (flags =? 2)) in
  r <- also pass tree (on_nodes (vma_tree_remove tree 0x5000 0x7000)) ;; let '(tree, pass) := r in
  on_nodes (vma_tree_clear tree) ;;;
  printf ("vma: gap=%u start=0x%x end=0x%x flags=0x%x" ++ nl) [ANum gap; ANum start; ANum end_; ANum flags] ;;;
  ret (pass, ktest_stats_record stats pass).

(** [memset] through the kernel's pages. *)
Definition fill (p c n : Z) : M (heap (P := paging)) unit := for_each 0 n (fun i => store8 (p + i) c).
Definition free_all (l : list Z) : M kernel unit := foreach l (fun p => on_heap (kfree slab_pool_addr p)).

Definition kdebug_test_slab (stats : ktest_stats) : M kernel (bool * ktest_stats) :=
  a <- on_heap (kmalloc slab_pool_addr 24) ;;
  b <- on_heap (kmalloc slab_pool_addr 96) ;;
  c <- on_heap (kmalloc slab_pool_addr 1600) ;;
  d <- on_heap (kmalloc slab_pool_addr 5000) ;;
  if negb (negb (a =? 0) && negb (b =? 0) && negb (c =? 0) && negb (d =? 0)) then
    printf ("slab: allocation failed a=%p b=%p c=%p d=%p" ++ nl) [ANum a; ANum b; ANum c; ANum d] ;;;
    free_all [d; c; b; a] ;;;
    ret (false, ktest_stats_record stats false)
  else
    on_heap (fill a 0xA5 24) ;;; on_heap (fill b 0x5A 96) ;;; on_heap (fill c 0x3C 1600) ;;; on_heap (fill d 0xC3 5000) ;;;
    free_all [d; c; b; a] ;;;
    printf ("slab: mixed-size alloc/free cycle complete" ++ nl) [] ;;;
    ret (true, ktest_stats_record stats true).

(** The mappings and look-ups, made one after the other while they succeed. *)
Definition check_spaces (space_a space_b frame_a frame_b test_virtual : Z) : M kernel (bool * Z * Z) :=
  ok <- on_paging (paging_map_user_page img (Some space_a) test_virtual frame_a PAGE_WRITABLE) ;;
  r <- also ok tt (ok <- on_paging (paging_map_user_page img (Some space_b) test_virtual frame_b PAGE_WRITABLE) ;; ret (tt, ok)) ;;
  let pass := snd r in
  ra <- (if pass : bool then on_paging (paging_lookup_physical img (Some space_a) test_virtual true) else ret None) ;;
  let pass := match ra with Some _ => true | None => false end in
  rb <- (if pass : bool then on_paging (paging_lookup_physical img (Some space_b) test_virtual true) else ret None) ;;
  let resolved_a := default 0 ra in
  let resolved_b := default 0 rb in
  let pass := match rb with Some _ => true | None => false end in
  let pass := pass && (resolved_a =? frame_a) && (resolved_b =? frame_b) && negb (resolved_a =? resolved_b) in
  printf ("aspace: resolved_a=0x%x resolved_b=0x%x" ++ nl) [ANum resolved_a; ANum resolved_b] ;;;
  ret (pass, frame_a, frame_b).

(** What the label [cleanup] does. *)
Definition cleanup_spaces (space_a space_b : option Z) (test_virtual : Z) (freed : list Z) : M kernel unit :=
  (match space_a with Some _ => on_paging (paging_unmap_user_page img space_a test_virtual) | None => ret tt end) ;;;
  (match space_b with Some _ => on_paging (paging_unmap_user_page img space_b test_virtual) | None => ret tt end) ;;;
  foreach freed (fun f => on_frames (pmm_free_frame f)) ;;;
  (match space_a with Some _ => on_paging (paging_destroy_process_space img space_a) | None => ret tt end) ;;;
  (match space_b with Some _ => on_paging (paging_destroy_process_space img space_b) | None => ret tt end).

Definition kdebug_test_address_spaces (stats : ktest_stats) : M kernel (bool * ktest_stats) :=
  let test_virtual := PAGING_USER_BASE + PAGE_SIZE in
  space_a <- on_paging (paging_create_process_space img) ;;
  space_b <- on_paging (paging_create_process_space img) ;;
  r <- (match space_a, space_b with
        | Some a, Some b =>
            fa <- on_frames (pmm_alloc_frame true) ;;
            fb <- (match fa with None => ret None | Some _ => on_frames (pmm_alloc_frame true) end) ;;
            match fa, fb with
            | Some frame_a, Some frame_b =>
                r <- check_spaces a b frame_a frame_b test_virtual ;;
                ret (let '(pass, frame_a, frame_b) := r in (pass, [frame_a; frame_b]))
            | _, _ => printf ("aspace: failed to allocate physical frames" ++ nl) [] ;;; ret (false, [])
            end
        | _, _ => printf ("aspace: failed to allocate process spaces" ++ nl) [] ;;; ret (false, [])
        end) ;;
  let '(pass, freed) := r in
  cleanup_spaces space_a space_b test_virtual freed ;;;
  ret (pass, ktest_stats_record stats pass).

(** The tests that create tasks and wait for them. *)
Record task_tests := mk_task_tests {
  kdebug_test_scheduler_join : M kernel bool;
  kdebug_test_sync_locking : M kernel bool;
  kdebug_test_wait_queue_timeout : M kernel bool;
  kdebug_test_wait_queue_wake : M kernel bool;
  kdebug_test_mutex_locking : M kernel bool;
  kdebug_test_mutex_timeout : M kernel bool
}.
Context (tests : task_tests).

Definition kdebug_test_scheduler (stats : ktest_stats) : M kernel (bool * ktest_stats) :=
  r <- on_sched scheduler_run_self_tests ;;
  let '(report_checks, report_failures, pass) := r in
  let stats := kdebug_stats_add stats report_checks report_failures in
  counters <- on_sched scheduler_get_trace_counters ;;
  on_sched scheduler_get_trace_latency ;;;
  let trace_ok := true in
  let stats := ktest_stats_record stats trace_ok in
  let pass := pass && trace_ok in
  join_ok <- kdebug_test_scheduler_join tests ;;
  let stats := ktest_stats_record stats join_ok in
  let pass := pass && join_ok in
  printf ("sched: checks=%u failures=%u trace=%s join=%s schedule=%llu switches=%llu" ++ nl)
    [ANum report_checks; ANum report_failures; AText (if trace_ok then "ok" else "fail"); AText (if join_ok : bool then "ok" else "fail");
     A64 (counters schedule_events); A64 (counters context_switches)] ;;;
  ret (pass, stats).

(** The first node that has frames, with its count of free frames. *)
Definition first_populated_node (node_count : Z) : M kernel (option (Z * Z)) :=
  for_range 0 node_count (fun node =>
    snapshot <- on_frames (pmm_get_numa_node_stats node true) ;;
    ret (match snapshot with
         | Some (_, _, count, free) => if count =? 0 then None else Some (node, free)
         | None => None
         end)).

Definition kdebug_test_pmm_numa (stats : ktest_stats) : M kernel (bool * ktest_stats) :=
  node_count <- on_frames pmm_numa_node_count ;;
  let pass := 0 <? node_count in
  preferred <- first_populated_node node_count ;;
  match preferred with
  | None =>
      printf ("pmm: no NUMA node has physical frames" ++ nl) [] ;;;
      ret (false, ktest_stats_record stats false)
  | Some (preferred_node, preferred_free) =>
      frame <- on_frames (pmm_alloc_frame_on_node preferred_node true) ;;
      match frame with
      | None =>
          printf ("pmm: preferred allocation failed on node %u" ++ nl) [ANum preferred_node] ;;;
          ret (false, ktest_stats_record stats false)
      | Some preferred_frame =>
          actual_node <- on_frames (pmm_numa_node_for_physical preferred_frame) ;;
          let pass := pass && (if 0 <? preferred_free then actual_node =? preferred_node
                               else negb (actual_node =? PMM_NUMA_NODE_ANY)) in
          on_frames (pmm_free_frame preferred_frame) ;;;
          fallback <- on_frames (pmm_alloc_frame_on_node node_count true) ;;
          let fallback_ok := match fallback with Some _ => true | None => false end in
          let pass := pass && fallback_ok in
          (match fallback with Some f => on_frames (pmm_free_frame f) | None => ret tt end) ;;;
          printf ("pmm: nodes=%u preferred=%u actual=%u fallback=%s" ++ nl)
            [ANum node_count; ANum preferred_node; ANum actual_node; AText (if fallback_ok then "ok" else "fail")] ;;;
          ret (pass, ktest_stats_record stats pass)
      end
  end.

(** A local lock and the processor's flags. *)
Definition on_lock {A} (v : Z) (m : M spin_cpu A) : M kernel (A * Z) :=
  fun k => match m (mk_spin_cpu v (pw_eflags (k_panic k))) with
           | Done a s => Done (a, spin_value s) (set_panic (Panic.set_eflags (eflags s) (k_panic k)) k)
           | Panic msg s => Panic msg (set_panic (Panic.set_eflags (eflags s) (k_panic k)) k)
           | Fault => Fault
           | Spin => Spin
           end.

Definition on_off (b : bool) : arg := AText (if b then "on" else "off").

Definition kdebug_test_irqsave_spinlock : M kernel bool :=
  r <- on_lock 0 (kspinlock_init (Some tt)) ;;
  before_flags <- gets (fun k => pw_eflags (k_panic k)) ;;
  r <- on_lock (snd r) (kspin_lock_irqsave (Some tt)) ;;
  let '(irq_state, v) := r in
  inside_flags <- gets (fun k => pw_eflags (k_panic k)) ;;
  on_lock v (kspin_unlock_irqrestore (Some tt) irq_state) ;;;
  after_flags <- gets (fun k => pw_eflags (k_panic k)) ;;
  let before_enabled := interrupts_on before_flags in
  let inside_enabled := interrupts_on inside_flags in
  let after_enabled := interrupts_on after_flags in
  let pass := negb inside_enabled && eqb after_enabled before_enabled in
  printf ("sync-irq: before=%s inside=%s after=%s" ++ nl) [on_off before_enabled; on_off inside_enabled; on_off after_enabled] ;;;
  ret pass.

(** A computation on a local object or counter. *)
Definition local_run {S A} (s : S) (m : M S A) : M kernel (A * S) :=
  fun k => match m s with
           | Done a s' => Done (a, s') k
           | Panic msg _ => Panic msg k
           | Fault => Fault
           | Spin => Spin
           end.

Definition sizeof_kdebug_lifetime_object : Z := 12.

(** The checks on the object, whose release function counts its calls; its fields are
    kept apart from the bytes of its block. *)
Definition check_object : M kobject bool :=
  let object := Some tt in
  kobject_init object true ;;;
  n1 <- kobject_refcount object ;;
  kobject_get object ;;;
  n2 <- (if n1 =? 1 then kobject_refcount object else ret 0) ;;
  kobject_put object ;;;
  n3 <- (if n2 =? 2 then kobject_refcount object else ret 0) ;;
  c1 <- gets released ;;
  kobject_put object ;;;
  c2 <- gets released ;;
  ret ((n1 =? 1) && (n2 =? 2) && (n3 =? 1) && Nat.eqb c1 0 && Nat.eqb c2 1).

(** The checks on the counter: the calls of [kref_put] stop at the first that fails. *)
Definition check_counter (pass : bool) : M Z bool :=
  kref_init (Some tt) 2 ;;;
  kref_get (Some tt) ;;;
  n <- (if pass then kref_read (Some tt) else ret 0) ;;
  let pass := pass && (n =? 3) in
  p1 <- (if pass then r <- kref_put (Some tt) ;; ret (negb r) else ret false) ;;
  p2 <- (if p1 : bool then r <- kref_put (Some tt) ;; ret (negb r) else ret false) ;;
  if p2 : bool then kref_put (Some tt) else ret false.

Definition kdebug_test_lifetime_model : M kernel bool :=
  object <- on_heap (kmalloc slab_pool_addr sizeof_kdebug_lifetime_object) ;;
  if object =? 0 then printf ("lifetime: failed to allocate object" ++ nl) [] ;;; ret false else
  r <- local_run (mk_kobject 0 false 0) check_object ;;
  let '(pass, o) := r in
  r <- local_run 0 (check_counter pass) ;;
  on_heap (kfree slab_pool_addr object) ;;;
  printf ("lifetime: release_count=%u" ++ nl) [ANum (u32 (Z.of_nat (released o)))] ;;;
  ret (fst r).

(** One subtest: it runs even when an earlier one failed. *)
Definition subtest (acc : bool * ktest_stats) (test : M kernel bool) : M kernel (bool * ktest_stats) :=
  ok <- test ;;
  let '(stats, ok) := kdebug_record_subtest (snd acc) ok in
  ret (ok && fst acc, stats).

Definition kdebug_test_sync_primitives (stats : ktest_stats) : M kernel (bool * ktest_stats) :=
  r <- subtest (true, stats) (kdebug_test_sync_locking tests) ;;
  r <- subtest r kdebug_test_irqsave_spinlock ;;
  r <- subtest r (kdebug_test_wait_queue_timeout tests) ;;
  r <- subtest r (kdebug_test_wait_queue_wake tests) ;;
  r <- subtest r (kdebug_test_mutex_locking tests) ;;
  r <- subtest r (kdebug_test_mutex_timeout tests) ;;
  subtest r kdebug_test_lifetime_model.

(** The text in an array, up to its terminator. *)
Fixpoint text_of (a : list Z) : list Z :=
  match a with
  | [] => []
  | c :: a' => if c =? 0 then [] else c :: text_of a'
  end.

(** [stack] is the array of the number formatter. *)
Definition kdebug_test_panic_log (stack : list Z) (stats : ktest_stats) : M kernel (bool * ktest_stats) :=
  let format := Some (bytes_of "panic-log-self-test run=%u") in
  on_log (panic_log_capture stack format [PWord 1]) ;;;
  on_log (panic_log_capture stack format [PWord 2]) ;;;
  count <- on_log panic_log_count ;;
  newest <- (if 2 <=? count then on_log (panic_log_read 0) else ret None) ;;
  older <- (match newest with Some _ => on_log (panic_log_read 1) | None => ret None end) ;;
  let pass := match newest, older with
              | Some n, Some o =>
                  (sequence o <? sequence n) &&
                  bool_decide (text_of (message n) = bytes_of "panic-log-self-test run=2") &&
                  bool_decide (text_of (message o) = bytes_of "panic-log-self-test run=1")
              | _, _ => false
              end in
  count <- on_log panic_log_count ;;
  printf ("panic: records=%u newest_seq=%u" ++ nl) [ANum count; ANum (match newest with Some n => sequence n | None => 0 end)] ;;;
  ret (pass, ktest_stats_record stats pass).

Definition kdebug_show_panic_log : M kernel unit :=
  count <- on_log panic_log_count ;;
  if count =? 0 then printf ("paniclog: empty" ++ nl) [] else
  for_each 0 count (fun i =>
    record <- on_log (panic_log_read i) ;;
    match record with
    | None => ret tt
    | Some r =>
        printf ("paniclog[%u]: seq=%u tick=%u task=%u(%s)%s" ++ nl)
          [ANum i; ANum (sequence r); ANum (tick r); ANum (rec_task_id r); ABytes (text_of (rec_task_name r));
           AText (if truncated r then " [truncated]" else "")] ;;;
        printf ("  %s" ++ nl) [ABytes (text_of (message r))]
    end).

(** ** The runner *)

Definition registry := ktest kernel.

Definition kdebug_test_reporter : ktest_reporter kernel := fun name stats pass =>
  printf ("test:%-8s checks=%u failures=%u -> %s" ++ nl)
    [ABytes name; ANum (checks stats); ANum (failures stats); AText (if pass : bool then "PASS" else "FAIL")].

Definition kdebug_print_test_selectors : M registry unit :=
  count <- ktest_registered_count ;;
  if count =? 0 then in_kernel (printf ("tests: no registered subsystems" ++ nl) []) else
  in_kernel (printf "tests: all" []) ;;;
  for_each 0 count (fun i =>
    name <- ktest_registered_name i ;;
    in_kernel (printf ", %s" [ABytes (default [] name)])) ;;;
  in_kernel (putchar 10).

Definition kdebug_run_tests (selector : list Z) : M registry unit :=
  r <- ktest_run (Some selector) (Some kdebug_test_reporter) ;;
  let '(ran, summary) := r in
  if negb ran then
    in_kernel (printf ("tests: unknown selector '%s'" ++ nl) [ABytes selector]) ;;;
    kdebug_print_test_selectors
  else
    let pass := failed summary =? 0 in
    in_kernel (printf ("tests: suites=%u passed=%u failed=%u checks=%u check_failures=%u -> %s" ++ nl)
      [ANum (executed summary); ANum (passed summary); ANum (failed summary); ANum (sum_checks summary);
       ANum (check_failures summary); AText (if pass then "PASS" else "FAIL")]).

Definition kdebug_register_test_hook (name : string) (h : ktest_hook kernel) : M registry unit :=
  ok <- ktest_register_subsystem (Some (bytes_of name)) (Some h) ;;
  if ok : bool then ret tt else in_kernel (printf ("kdebug: failed to register test hook '%s'" ++ nl) [AText name]).

(** [registered] is [tests_registered], and the result its new value. *)
Definition kdebug_register_tests (stack : list Z) (registered : bool) : M registry bool :=
  if registered then ret true else
  kdebug_register_test_hook "memmap" kdebug_test_memmap ;;;
  kdebug_register_test_hook "vma" kdebug_test_vma_tree ;;;
  kdebug_register_test_hook "slab" kdebug_test_slab ;;;
  kdebug_register_test_hook "pmm" kdebug_test_pmm_numa ;;;
  kdebug_register_test_hook "aspace" kdebug_test_address_spaces ;;;
  kdebug_register_test_hook "sched" kdebug_test_scheduler ;;;
  kdebug_register_test_hook "sync" kdebug_test_sync_primitives ;;;
  kdebug_register_test_hook "panic" (kdebug_test_panic_log stack) ;;;
  ret true.

(** ** The shell *)

(** The address of the line buffer, and a bound on the comparison of paths. *)
Context (line_addr : Z) (fuel : nat).

(** The text from an address on, read for at most [n] bytes. *)
Fixpoint text_at (n : nat) (p : Z) : M kernel (list Z) :=
  match n with
  | O => fault
  | S n' =>
      c <- on_files (on_memory (byte_at p)) ;;
      if c =? 0 then ret [] else
      rest <- text_at n' (p + 1) ;;
      ret (c :: rest)
  end.

(** [strcmp(line, word) == 0] and [starts_with(line, prefix)]. *)
Definition is_word (line : list Z) (word : string) : bool := bool_decide (line = bytes_of word).
Definition starts_with (line : list Z) (prefix : string) : bool :=
  bool_decide (take (length (bytes_of prefix)) line = bytes_of prefix).

Definition kdebug_execute : M registry unit :=
  line <- in_kernel (text_at (Z.to_nat KDEBUG_LINE_MAX) line_addr) ;;
  leave <-
    (if is_word line "help" then
       in_kernel (printf ("commands: help, tasks, cpus, mem, numa, schedstat [reset], ls, cat <file>, test [all|<subsystem>|list], paniclog [clear], continue" ++ nl) []) ;;; ret false
     else if is_word line "tasks" then in_kernel kdebug_show_tasks ;;; ret false
     else if is_word line "cpus" then in_kernel kdebug_show_cpus ;;; ret false
     else if is_word line "mem" then
       total <- in_kernel (on_frames pmm_total_memory_kib) ;;
       free <- in_kernel (on_frames pmm_free_memory_kib) ;;
       nodes <- in_kernel (on_frames pmm_numa_node_count) ;;
       in_kernel (printf ("memory: total=%u KiB free=%u KiB numa_nodes=%u" ++ nl) [ANum total; ANum free; ANum nodes]) ;;; ret false
     else if is_word line "numa" then in_kernel kdebug_show_numa ;;; ret false
     else if is_word line "schedstat" then in_kernel kdebug_show_schedstat ;;; ret false
     else if is_word line "schedstat reset" then
       in_kernel (on_sched scheduler_trace_reset) ;;;
       in_kernel (printf ("schedstat: reset" ++ nl) []) ;;; ret false
     else if is_word line "ls" then in_kernel kdebug_list_files ;;; ret false
     else if starts_with line "cat " then in_kernel (kdebug_cat_file fuel (line_addr + 4)) ;;; ret false
     else if is_word line "test" then kdebug_run_tests (bytes_of "all") ;;; ret false
     else if is_word line "test list" then kdebug_print_test_selectors ;;; ret false
     else if starts_with line "test " then kdebug_run_tests (drop 5 line) ;;; ret false
     else if is_word line "paniclog" then in_kernel kdebug_show_panic_log ;;; ret false
     else if is_word line "paniclog clear" then
       in_kernel (on_log panic_log_clear) ;;;
       in_kernel (printf ("paniclog: cleared" ++ nl) []) ;;; ret false
     else if is_word line "continue" then
       in_kernel (modify (set_debugger_active false)) ;;;
       in_kernel (printf ("leaving debugger" ++ nl) []) ;;; ret true
     else if negb (bool_decide (line = [])) then
       in_kernel (printf ("unknown command: %s" ++ nl) [ABytes line]) ;;; ret false
     else ret false) ;;
  if leave : bool then ret tt else
  active <- in_kernel (gets debugger_active) ;;
  if active : bool then in_kernel kdebug_print_prompt else ret tt.

Definition store_line (i c : Z) : M kernel unit :=
  if (0 <=? i) && (i <? KDEBUG_LINE_MAX) then on_files (on_memory (store_byte (line_addr + i) c)) else fault.

(** What the loop does with a character, and the length of the line after it. *)
Definition kdebug_key (line_length c : Z) : M registry Z :=
  let c := if c =? 13 then 10 else c in
  if c =? 10 then
    in_kernel (putchar 10) ;;;
    in_kernel (store_line line_length 0) ;;;
    kdebug_execute ;;;
    ret 0
  else if c =? 8 then
    if 0 <? line_length then in_kernel (putchar 8) ;;; ret (line_length - 1) else ret line_length
  else if line_length + 1 <? KDEBUG_LINE_MAX then
    in_kernel (store_line line_length c) ;;;
    in_kernel (putchar c) ;;;
    ret (line_length + 1)
  else ret line_length.

(** One round of the loop: the length of the line, and whether the task sleeps. *)
Context (driver : option input_driver).
Definition kdebug_task_round (line_length : Z) : M registry (Z * bool) :=
  active <- in_kernel (gets debugger_active) ;;
  requested <- (if negb active then in_kernel (on_input (input_debug_requested driver)) else ret false) ;;
  (if requested : bool then
     in_kernel (on_input (input_clear_debug_request driver)) ;;;
     in_kernel (modify (set_debugger_active true)) ;;;
     in_kernel (printf (nl ++ "entered kernel debugger, type 'help'" ++ nl) []) ;;;
     in_kernel kdebug_print_prompt
   else ret tt) ;;;
  active <- in_kernel (gets debugger_active) ;;
  if negb active then ret (line_length, true) else
  c <- in_kernel (on_input (input_read_char_nonblocking driver)) ;;
  match c with
  | None => ret (line_length, true)
  | Some c => n <- kdebug_key line_length c ;; ret (n, false)
  end.

(** [trampoline], [entry] and the answers of paging are those of the creation of a task. *)
Definition kdebug_init (stack : list Z) (registered : bool) (trampoline entry : Z) (space_answer stack_answer : option Z)
    : M registry bool :=
  registered <- kdebug_register_tests stack registered ;;
  in_kernel (modify (set_debugger_active false)) ;;;
  in_kernel (on_sched (scheduler_create_kernel_task trampoline space_answer stack_answer (Some "kdebug"%string) (Some entry) 0)) ;;;
  ret registered.
End Kdebug.
Arguments kernel : clear implicits.
