(* ===== verification/KdebugSpec.v ===== *)
(** What kernel/kdebug.c does: the line editor of the debugger, and self tests that pass
    on every state of the components they exercise. *)
From S2P Require Import Prelude Bootinfo Pmm PmmFacts PmmAlloc PmmSpec Vma SchedData Sched SchedApi Strings Vfs Sync PagingData Paging PagingFacts PagingAlloc.
From S2P Require Import PagingProps Heap HeapPaging HeapProps Console Panic PanicSpec PanicProps Irq Keyboard Ktest Kdebug.
From Stdlib Require Import ZArith Lia String.
From stdpp Require Import sets.
Open Scope Z_scope.

(** * The line editor *)

(** A key added to the line: backspace takes the last character back, and a line of 127
    characters takes no more. *)
Definition edit_key (text : list Z) (c : Z) : list Z :=
  if c =? 8 then take (length text - 1) text else if Z.of_nat (length text) <? 127 then text ++ [c] else text.
Definition edit (keys : list Z) : list Z := fold_left edit_key keys [].

(** What is echoed. *)
Fixpoint echo (text keys : list Z) : list output :=
  match keys with
  | [] => []
  | c :: keys' =>
      (if c =? 8 then if bool_decide (text = []) then [] else [Putchar 8]
       else if Z.of_nat (length text) <? 127 then [Putchar c] else []) ++ echo (edit_key text c) keys'
  end.

(** The keys that a line is made of. *)
Definition line_key (c : Z) : Prop := 0 < c < 256 /\ c <> 10 /\ c <> 13.

Section Editor.
Context {D : Type} (line_addr : Z) (fuel : nat).

Fixpoint type_keys (n : Z) (keys : list Z) : M (registry (D := D)) Z :=
  match keys with
  | [] => ret n
  | c :: keys' => n <- kdebug_key line_addr fuel n c ;; type_keys n keys'
  end.

(** The state with other memory and more output. *)
Definition shell (m : memory) (o : list output) (s : registry (D := D)) : registry :=
  mk_ktest (ktest_registry s)
    (set_out (k_out (Ktest.kernel s) ++ o) (set_vfs (mk_vfs m (files (k_vfs (Ktest.kernel s)))) (Ktest.kernel s))).

(** Memory holds the text in the line buffer and is [m0] elsewhere. *)
Definition line_in (m0 : memory) (text : list Z) (m : memory) : Prop :=
  (forall i c, text !! i = Some c -> read_u8 m (line_addr + Z.of_nat i) = c) /\
  forall x, ~ (line_addr <= x < line_addr + 128) -> m x = m0 x.

Lemma shell_print m o s c : in_kernel (putchar c) (shell m o s) = Done tt (shell m (o ++ [Putchar c]) s).
Proof. unfold in_kernel, putchar, modify, shell. simpl. unfold set_out. simpl. by rewrite app_assoc. Qed.

Lemma shell_store m o s i c : 0 <= i < 128 ->
  in_kernel (store_line line_addr i c) (shell m o s) = Done tt (shell (mem_set m (line_addr + i) (u8 c)) o s).
Proof.
  intros Hi. unfold in_kernel, store_line, KDEBUG_LINE_MAX. by replace ((0 <=? i) && (i <? 128)) with true by (symmetry; lia).
Qed.

Lemma line_in_store m0 text m c :
  (length text < 128)%nat -> 0 <= c < 256 -> line_in m0 text m ->
  line_in m0 (text ++ [c]) (mem_set m (line_addr + Z.of_nat (length text)) (u8 c)).
Proof.
  intros Hl Hc [H1 H2]. split.
  - intros i x Hx. unfold read_u8, mem_set. apply lookup_app_Some in Hx as [Hx|[Hge Hx]].
    + pose proof (lookup_lt_Some _ _ _ Hx). replace (_ =? _) with false by lia. by apply H1.
    + apply list_lookup_singleton_Some in Hx as [Hz <-]. replace (_ =? _) with true by lia. unfold wrap. rewrite Zmod_mod.
      apply Z.mod_small. change (2 ^ 8) with 256. lia.
  - intros x Hx. unfold mem_set. replace (_ =? _) with false by lia. by apply H2.
Qed.

Lemma key_run m0 text c m o s :
  line_key c -> (length text <= 127)%nat -> line_in m0 text m ->
  exists m', line_in m0 (edit_key text c) m' /\ (length (edit_key text c) <= 127)%nat /\
    kdebug_key line_addr fuel (Z.of_nat (length text)) c (shell m o s) =
    Done (Z.of_nat (length (edit_key text c))) (shell m' (o ++ echo text [c]) s).
Proof.
  intros (Hc & H10 & H13) Hl Hin. unfold kdebug_key, edit_key, KDEBUG_LINE_MAX. simpl echo.
  replace (c =? 13) with false by lia. cbv zeta. replace (c =? 10) with false by lia. destruct (Z.eqb_spec c 8) as [->|Hne].
  - exists m. destruct text as [|x text].
    + simpl. rewrite app_nil_r. split; [done|]. split; [lia|done].
    + rewrite length_take. assert ((0 <? Z.of_nat (length (x :: text))) = true) as -> by (apply Z.ltb_lt; cbn [length]; lia).
      split; [|split; [lia|]].
      * destruct Hin as [H1 H2]. split; [|done]. intros i y Hy. apply lookup_take_Some in Hy as [Hy _]. by apply H1.
      * rewrite (run_bind_done _ _ _ _ _ (shell_print m o s 8)). rewrite bool_decide_eq_false_2 by done. rewrite app_nil_r.
        unfold ret. f_equal. simpl. lia.
  - replace (Z.of_nat (length text) + 1 <? 128) with (Z.of_nat (length text) <? 127) by lia.
    destruct (Z.ltb_spec (Z.of_nat (length text)) 127) as [Hlt|Hge].
    + exists (mem_set m (line_addr + Z.of_nat (length text)) (u8 c)). rewrite length_app. simpl.
      split; [apply line_in_store; [lia|lia|done]|]. split; [lia|].
      rewrite (run_bind_done _ _ _ _ _ (shell_store m o s (Z.of_nat (length text)) c ltac:(lia))), (run_bind_done _ _ _ _ _ (shell_print _ o s c)).
      unfold ret. f_equal. lia.
    + exists m. rewrite app_nil_r. simpl. by rewrite ?app_nil_r.
Qed.

Lemma type_run m0 s keys : forall text m o,
  Forall line_key keys -> (length text <= 127)%nat -> line_in m0 text m ->
  let text' := fold_left edit_key keys text in
  exists m', line_in m0 text' m' /\ (length text' <= 127)%nat /\
    type_keys (Z.of_nat (length text)) keys (shell m o s) = Done (Z.of_nat (length text')) (shell m' (o ++ echo text keys) s).
Proof.
  induction keys as [|c keys IH]; intros text m o Hk Hl Hin; simpl.
  { exists m. by rewrite app_nil_r. }
  inversion Hk as [|? ? Hc Hk']; subst. destruct (key_run m0 text c m o s Hc Hl Hin) as (m1 & Hin1 & Hl1 & Hrun).
  destruct (IH (edit_key text c) m1 (o ++ echo text [c]) Hk' Hl1 Hin1) as (m2 & Hin2 & Hl2 & Hrun2).
  exists m2. split; [done|]. split; [done|]. rewrite (run_bind_done _ _ _ _ _ Hrun), Hrun2. do 2 f_equal.
  simpl echo. by rewrite app_nil_r, <- app_assoc.
Qed.

Lemma shell_self s : shell (vmem (k_vfs (Ktest.kernel s))) [] s = s.
Proof. destruct s as [l [b h p [m f] i o a]]. unfold shell, set_out, set_vfs. simpl. by rewrite app_nil_r. Qed.

(** The command is read as it was typed. *)
Lemma text_at_run m o s text : forall n p,
  (length text < n)%nat -> Forall (fun c => 0 < c) text ->
  (forall i c, text !! i = Some c -> read_u8 m (p + Z.of_nat i) = c) -> read_u8 m (p + Z.of_nat (length text)) = 0 ->
  let k := Ktest.kernel (shell m o s) in text_at n p k = Done text k.
Proof.
  induction text as [|c text IH]; intros n p Hn Hp H1 H0 k; (destruct n as [|n]; [simpl in Hn; lia|]); simpl in Hn.
  - simpl in H0. rewrite Z.add_0_r in H0. simpl. unfold bind, on_files, on, on_memory, byte_at, gets. simpl. by rewrite H0.
  - inversion Hp as [|? ? Hc Hp']; subst. pose proof (H1 0%nat c eq_refl) as Hr. simpl in Hr. rewrite Z.add_0_r in Hr.
    assert (Hb : on_files (on_memory (byte_at p)) k = Done c k).
    { unfold on_files, on, on_memory, byte_at, gets. simpl. by rewrite Hr. }
    simpl. rewrite (run_bind_done _ _ _ _ _ Hb). replace (c =? 0) with false by lia.
    rewrite (run_bind_done _ _ _ text k); [done|]. apply IH; [lia|done| |].
    + intros i x Hx. replace (p + 1 + Z.of_nat i) with (p + Z.of_nat (S i)) by lia. by apply H1.
    + rewrite <- H0. f_equal. cbn [length]. lia.
Qed.
End Editor.

Lemma edit_keys keys : forall text, Forall line_key keys -> Forall (fun c => 0 < c) text -> Forall (fun c => 0 < c) (fold_left edit_key keys text).
Proof.
  induction keys as [|c keys IH]; intros text Hk Ht; [done|]. inversion Hk as [|? ? [Hc _] Hk']; subst. simpl. apply IH; [done|].
  unfold edit_key. destruct (c =? 8); [by apply Forall_take|]. destruct (_ <? _); [|done]. apply Forall_app. split; [done|]. apply Forall_singleton. lia.
Qed.

(** C25: the debugger's line editor.  Whatever keys are typed before Enter, every store
    stays inside the 128 bytes of the line buffer, each accepted key is echoed, and the
    command that is then run is exactly the text that the keys edit: backspace takes
    the last character back, and a line of 127 characters takes no more. *)
Theorem kdebug_line_correct {D} line_addr fuel (s : registry (D := D)) keys c :
  Forall line_key keys -> c = 10 \/ c = 13 ->
  exists m, let s1 := shell m (echo [] keys ++ [Putchar 10]) s in
    (n <- type_keys line_addr fuel 0 keys ;; kdebug_key line_addr fuel n c) s = (kdebug_execute line_addr fuel ;;; ret 0) s1 /\
    (length (edit keys) <= 127)%nat /\
    text_at (Z.to_nat KDEBUG_LINE_MAX) line_addr (Ktest.kernel s1) = Done (edit keys) (Ktest.kernel s1) /\
    forall x, ~ (line_addr <= x < line_addr + 128) -> m x = vmem (k_vfs (Ktest.kernel s)) x.
Proof.
  intros Hk Hc. destruct (type_run line_addr fuel (vmem (k_vfs (Ktest.kernel s))) s keys [] (vmem (k_vfs (Ktest.kernel s))) [] Hk)
    as (m1 & [H1 H2] & Hl & Hrun); [simpl; lia|by split|]. rewrite shell_self in Hrun. fold (edit keys) in *. simpl app in Hrun.
  set (n := Z.of_nat (length (edit keys))) in *. exists (mem_set m1 (line_addr + n) (u8 0)).
  split; [|split; [done|split]].
  - rewrite (run_bind_done _ _ _ _ _ Hrun). unfold kdebug_key. replace (if c =? 13 then 10 else c) with 10 by (destruct Hc as [->| ->]; done).
    cbv zeta. change (10 =? 10) with true. cbv iota.
    rewrite (run_bind_done _ _ _ _ _ (shell_print m1 (echo [] keys) s 10)).
    by rewrite (run_bind_done _ _ _ _ _ (shell_store line_addr m1 _ s n 0 ltac:(lia))).
  - apply text_at_run; [unfold KDEBUG_LINE_MAX; lia|by apply edit_keys| |].
    + intros i x Hx. pose proof (lookup_lt_Some _ _ _ Hx). unfold read_u8, mem_set. replace (_ =? _) with false by lia. by apply H1.
    + unfold read_u8, mem_set. fold n. by rewrite Z.eqb_refl.
  - intros x Hx. unfold mem_set. replace (_ =? _) with false by lia. by apply H2.
Qed.

(** A machine at start-up whose debugger reads a line. *)
Definition cold_kernel : kernel (list Z) :=
  mk_kernel sample_boot (cold_heap cold_paging) early_world (mk_vfs (fun _ => 0) []) keyboard_machine [] true.

Lemma kdebug_line_correct_witness :
  exists m, let s1 := shell m (echo [] (bytes_of "helq" ++ [8; 112]) ++ [Putchar 10]) (mk_ktest [] cold_kernel) in
    (n <- type_keys 0xC0170000 100 0 (bytes_of "helq" ++ [8; 112]) ;; kdebug_key 0xC0170000 100 n 13) (mk_ktest [] cold_kernel) =
      (kdebug_execute 0xC0170000 100 ;;; ret 0) s1 /\
    text_at (Z.to_nat KDEBUG_LINE_MAX) 0xC0170000 (Ktest.kernel s1) = Done (bytes_of "help") (Ktest.kernel s1).
Proof.
  destruct (kdebug_line_correct 0xC0170000 100 (mk_ktest [] cold_kernel) (bytes_of "helq" ++ [8; 112]) 13) as (m & H1 & _ & H2 & _).
  - repeat constructor; vm_compute; congruence.
  - by right.
  - exists m. cbv zeta. split; [exact H1|].
    assert (He : edit (bytes_of "helq" ++ [8; 112]) = bytes_of "help") by (vm_compute; reflexivity). rewrite He in H2. exact H2.
Defined.

(** * The self test of the physical memory manager *)

Section PmmTest.
Context {D : Type}.
#[local] Abbreviation kernel := (kernel D).

Definition frames_of (k : kernel) : pmm := PagingData.frames (Heap.pages (k_heap k)).
Definition with_frames (s : pmm) (k : kernel) : kernel :=
  set_heap (Heap.set_pages (set_frames s (Heap.pages (k_heap k))) (k_heap k)) k.

Lemma on_frames_wp {A} (m : M pmm A) (Q : A -> kernel -> Prop) k :
  wp m (fun a s => Q a (with_frames s k)) (frames_of k) -> wp (on_frames m) Q k.
Proof.
  unfold wp, on_frames, on_paging, on, on_pmm, frames_of, with_frames. by destruct (m (PagingData.frames (Heap.pages (k_heap k)))).
Qed.

Lemma with_frames_of s k : frames_of (with_frames s k) = s.
Proof. done. Qed.

(** The queries read the state under the lock and leave it as it was. *)
Lemma node_count_wp s (Q : Z -> pmm -> Prop) : pmm_ready s -> Q s.(active_numa_node_count) s -> wp pmm_numa_node_count Q s.
Proof.
  intros R H. unfold pmm_numa_node_count. apply wp_locked_shape; [done|]. wp_step. split; [done|]. rewrite unlocked_same by apply R. exact H.
Qed.

Lemma node_stats_wp s i n (Q : option (Z * Z * Z * Z) -> pmm -> Prop) :
  pmm_ready s -> 0 <= i < s.(active_numa_node_count) -> active_nodes s !! Z.to_nat i = Some n ->
  Q (Some (i, n.(first_frame), n.(frame_count), n.(node_free_frames))) s -> wp (pmm_get_numa_node_stats i true) Q s.
Proof.
  intros R Hi Hn H. apply active_lookup in Hn as [Hn _]; [|apply R].
  unfold pmm_get_numa_node_stats. simpl negb. cbv iota. apply wp_locked_shape; [done|]. do 2 wp_step. wp_step; [simpl in E; z_bools; lia|].
  wp_step. apply (Done_wp _ _ _ n (PmmSpec.locked s)); [by apply node_at_run|]. wp_step. split; [done|]. by rewrite unlocked_same by apply R.
Qed.

Lemma node_for_physical_wp s f (Q : Z -> pmm -> Prop) :
  pmm_ready s -> 0 <= f < s.(total_frames) ->
  (forall i n, 0 <= i < s.(active_numa_node_count) -> active_nodes s !! Z.to_nat i = Some n ->
     n.(first_frame) <= f < n.(first_frame) + n.(frame_count) -> Q i s) ->
  wp (pmm_numa_node_for_physical (f * PAGE_SIZE)) Q s.
Proof.
  intros R Hf H. unfold pmm_numa_node_for_physical. rewrite Z.div_mul by done.
  apply wp_locked_shape; [done|]. do 2 wp_step. wp_step; [simpl in E; z_bools; lia|].
  destruct (node_index_run (PmmSpec.locked s) f) as (i & n & Hrun & Hi & Hn & Hr); [by apply wf_locked, R|done|].
  apply (Done_wp _ _ _ _ _ Hrun). split; [done|]. rewrite unlocked_same by apply R. by apply (H i n).
Qed.

(** A frame taken and given back. *)
Lemma take_give s p f0 :
  pmm_ready s -> s.(initialized) = true -> 0 <= p -> 0 <= f0 < s.(total_frames) -> frame_used s f0 = false ->
  wp (pmm_alloc_frame_on_node p true) (fun r s1 => exists f, r = Some (f * PAGE_SIZE) /\ pmm_ready s1 /\ took s s1 f 1 /\
    (preferred_usable s p = true -> node_range s p f \/ node_full s p) /\
    wp (pmm_free_frame (f * PAGE_SIZE)) (fun _ s2 => pmm_ready s2 /\ same_shape s s2 /\
      forall g, 0 <= g < s.(total_frames) -> frame_used s2 g = frame_used s g) s1) s.
Proof.
  intros R Hi Hp Hf0 Hfree. eapply wp_mono; [by apply alloc_frame_on_node_spec|]. intros [a|] s1 [R1 H].
  - destruct H as (f & -> & T & Hnode). pose proof (took_range _ _ _ _ T). exists f. do 4 (split; [done|]).
    eapply wp_mono; [apply free_frame_spec; [done|unfold PAGE_SIZE; lia]|]. intros _ s2 (R2 & C & _).
    rewrite Z.div_mul in C by done. split; [done|]. pose proof (took_shape _ _ _ _ T) as Hsh. split; [etransitivity; [exact Hsh|apply C]|].
    intros g Hg. rewrite (ch_frames _ _ _ _ C) by (rewrite (sh_total _ _ Hsh); lia). destruct (Z.eqb_spec g f) as [->|Hne].
    + symmetry. apply (took_free _ _ _ _ T). lia.
    + rewrite (took_used _ _ _ _ T) by lia. by replace ((f <=? g) && (g <? f + 1)) with false by lia.
  - destruct H as [-> H]. by rewrite (H f0 Hf0) in Hfree.
Qed.

Lemma first_populated_wp k (Q : option (Z * Z) -> kernel -> Prop) :
  pmm_ready (frames_of k) -> 0 < (frames_of k).(total_frames) ->
  (forall i n, 0 <= i < (frames_of k).(active_numa_node_count) -> active_nodes (frames_of k) !! Z.to_nat i = Some n ->
    Q (Some (i, n.(node_free_frames))) k) ->
  wp (first_populated_node (frames_of k).(active_numa_node_count)) Q k.
Proof.
  intros R Hpos H. set (s := frames_of k) in *. pose proof (wf_layout _ (ready_wf _ R)) as L. pose proof (lay_active _ L).
  unfold first_populated_node.
  apply (wp_for _ _ _ (fun i k' => k' = k /\ forall j n, Z.of_nat j < i -> active_nodes s !! j = Some n -> n.(frame_count) = 0)); [lia| | |].
  - split; [done|]. intros. lia.
  - intros i k' Hi [-> Hno]. destruct (active_node s i L Hi) as (n & _ & Hn). wp_step. apply on_frames_wp. fold s.
    apply (node_stats_wp s i n); [done|done|done|]. wp_step. assert (Hk : with_frames s k = k) by (by destruct k as [? [? ? ? ? ? ? []]]).
    rewrite Hk. destruct (Z.eqb_spec (frame_count n) 0) as [Hz|Hnz]; [|by apply (H i n)].
    split; [done|]. intros j m Hj Hm. destruct (Z.eq_dec (Z.of_nat j) i) as [<-|]; [|apply (Hno j); [lia|done]].
    rewrite Nat2Z.id in Hn. by simplify_eq.
  - intros k' [-> Hno]. exfalso. destruct (chain_covers _ _ _ 0 (lay_chain _ L)) as (j & n & Hj & Hn); [lia|].
    rewrite (Hno j n) in Hn; [lia| |done]. by apply active_lookup in Hj as [_ ?].
Qed.

(** The node that the test sees a frame of the preferred node in. *)
Lemma node_of_frame s s' p i n m f :
  pmm_ready s -> pmm_ready s' -> same_shape s s' -> active_nodes s !! Z.to_nat p = Some n -> 0 < n.(node_free_frames) ->
  node_range s p f \/ node_full s p ->
  active_nodes s' !! Z.to_nat i = Some m -> m.(first_frame) <= f < m.(first_frame) + m.(frame_count) -> 0 <= i -> 0 <= p -> i = p.
Proof.
  intros R R' Hsh Hn Hpos Hr Hm Hmr Hi Hp. assert (node_range s p f) as (n2 & Hn2 & Hr2).
  { destruct Hr as [Hr|Hfull]; [done|]. exfalso. rewrite (Forall_lookup_1 _ _ _ _ (wf_nodes _ (ready_wf _ R)) Hn) in Hpos.
    apply count_exists in Hpos as (g & Hg & Hfg). unfold frame_free in Hfg. rewrite (Hfull g) in Hfg; [done|]. by exists n. }
  destruct (same_shape_node _ _ _ _ Hsh Hn2) as (n3 & Hn3 & E1 & E2).
  enough (Z.to_nat i = Z.to_nat p) by lia.
  apply (chain_disjoint _ _ _ _ _ m n3 f (lay_chain _ (wf_layout _ (ready_wf _ R')))); [done|done|done|lia].
Qed.

(** The physical memory manager's self test passes on every well-formed state of the
    manager with a free frame, and leaves the same frames in use. *)
Theorem kdebug_pmm_test_passes stats k f0 :
  pmm_ready (frames_of k) -> (frames_of k).(initialized) = true ->
  0 <= f0 < (frames_of k).(total_frames) -> frame_used (frames_of k) f0 = false ->
  exists k', kdebug_test_pmm_numa stats k = Done (true, ktest_stats_record stats true) k' /\
    pmm_ready (frames_of k') /\
    forall g, 0 <= g < (frames_of k).(total_frames) -> frame_used (frames_of k') g = frame_used (frames_of k) g.
Proof.
  intros R Hi Hf0 Hfree. set (s := frames_of k) in *. pose proof (lay_active _ (wf_layout _ (ready_wf _ R))) as Ha.
  enough (wp (kdebug_test_pmm_numa stats) (fun r k' => r = (true, ktest_stats_record stats true) /\ pmm_ready (frames_of k') /\
    forall g, 0 <= g < s.(total_frames) -> frame_used (frames_of k') g = frame_used s g) k) as H.
  { apply wp_Done in H as (r & k' & Hrun & -> & H). by exists k'. }
  assert (Hk : with_frames s k = k) by (by destruct k as [? [? ? ? ? ? ? []]]).
  unfold kdebug_test_pmm_numa. wp_step. apply on_frames_wp. fold s. apply node_count_wp; [done|]. rewrite Hk.
  wp_step. apply first_populated_wp; [done|fold s; lia|]. fold s. intros p n Hp Hn.
  wp_step. apply on_frames_wp. fold s. eapply wp_mono; [apply (take_give s p f0); (done || lia)|].
  intros r s1 (f & -> & R1 & T & Hnode & Hgive). cbv iota. pose proof (took_range _ _ _ _ T) as Hfr. pose proof (took_shape _ _ _ _ T) as Hsh.
  wp_step. apply on_frames_wp. rewrite with_frames_of. apply node_for_physical_wp; [done|rewrite (sh_total _ _ Hsh); lia|].
  intros i m Him Hm Hmr. set (ok := (0 <? _) && _). assert (ok = true) as ->.
  { subst ok. apply andb_true_iff. split; [lia|]. destruct (Z.ltb_spec 0 (node_free_frames n)) as [Hpos|_].
    - apply Z.eqb_eq. apply (node_of_frame s s1 p i n m f); try done; [|lia|lia].
      apply Hnode. unfold preferred_usable, PMM_NUMA_NODE_ANY. lia.
    - rewrite (sh_active _ _ Hsh) in Him. unfold PMM_NUMA_NODE_ANY. lia. }
  wp_step. apply on_frames_wp. rewrite with_frames_of. eapply wp_mono; [exact Hgive|]. intros _ s2 (R2 & Hsh2 & Hu2).
  wp_step. apply on_frames_wp. rewrite with_frames_of.
  eapply wp_mono; [apply (take_give s2 (active_numa_node_count s) f0); [done|by rewrite (sh_init _ _ Hsh2)|lia|by rewrite (sh_total _ _ Hsh2)|by rewrite Hu2]|].
  intros r s3 (f3 & -> & R3 & _ & _ & Hgive3). cbv iota. wp_step. apply on_frames_wp. rewrite with_frames_of.
  eapply wp_mono; [exact Hgive3|]. intros _ s4 (R4 & _ & Hu4). rewrite (sh_total _ _ Hsh2) in Hu4. wp_step. unfold printf. wp_step. wp_step.
  split; [done|]. split; [done|]. intros g Hg. change (frame_used s4 g = frame_used s g). by rewrite Hu4, Hu2.
Qed.
End PmmTest.

Lemma kdebug_pmm_test_passes_witness :
  exists k', kdebug_test_pmm_numa (mk_stats 0 0) cold_kernel = Done (true, mk_stats 1 0) k' /\ frame_used (frames_of k') 3 = false.
Proof.
  destruct (kdebug_pmm_test_passes (mk_stats 0 0) cold_kernel 0) as (k' & Hrun & _ & Hu);
    [exact small_ready|reflexivity|split; [lia|reflexivity]|reflexivity|].
  exists k'. split; [exact Hrun|]. rewrite Hu by (split; [lia|reflexivity]). reflexivity.
Defined.
