(* ===== verification/KdebugTasks.v ===== *)
(** The self tests of kernel/kdebug.c that run several tasks: the tasks that count
    under a lock ([kdebug_sync_counter_task], [kdebug_mutex_counter_task]) and the tests
    that start them.

    As in Sync.v every access to shared memory is a step and any task may take the next
    one.  The context of a test lies on the stack of the task that runs it and is shared
    with the workers.  A worker uses its lock through the class [LockMachine], which the
    spin lock and the mutex of Sync.v implement. *)
From S2P Require Import Prelude SchedData Sync.
From Stdlib Require Import ZArith Lia.
From stdpp Require Import relations.
Open Scope Z_scope.

(** ** Locks *)

(** [lm_returned]: the task is outside of the lock's functions, and whether it holds the
    lock.  [lm_lock] and [lm_unlock] are the first steps of the calls. *)
Class LockMachine (W P : Type) : Type := {
  lm_init : W -> W;
  lm_out : bool -> P;
  lm_lock : P;
  lm_unlock : P;
  lm_returned : P -> option bool;
  lm_step : nat -> choice -> P -> W -> option (W * P)
}.

(** A task that uses a spin lock. *)
Inductive spin_task : Type :=
| SpinOut (holds : bool)
| SpinIn (p : spin_pc)
| SpinRelease.

#[export] Instance spin_machine {Ch} `{WaitChannel Ch} : LockMachine (world (Ch := Ch)) spin_task := {|
  lm_init := on_mutex (set_lock_value 0);
  lm_out := SpinOut;
  lm_lock := SpinIn SpinTry;
  lm_unlock := SpinRelease;
  lm_returned := fun p => match p with SpinOut holds => Some holds | _ => None end;
  lm_step := fun _ _ p w =>
    match p with
    | SpinOut _ => None
    | SpinIn q =>
        let '(w', n) := spin_step q w in
        Some (w', match n with Go q' => SpinIn q' | Return _ => SpinOut true | Die _ => SpinIn q end)
    | SpinRelease => Some (on_mutex release_spin w, SpinOut false)
    end
|}.

(** The mutex, for tasks whose numbers are [tid]. *)
Definition mutex_machine {Ch} `{WaitChannel Ch} (tid : nat -> Z) : LockMachine (world (Ch := Ch)) pc := {|
  lm_init := on_mutex kmutex_init;
  lm_out := Outside;
  lm_lock := InLock false true KWAIT_FOREVER LockStart;
  lm_unlock := InUnlock true (UnlockSpin SpinTry);
  lm_returned := fun p => match p with Outside holds => Some holds | _ => None end;
  lm_step := task_step tid
|}.

(** ** Counting under a lock *)

(** [kdebug_sync_counter_ctx_t] and [kdebug_mutex_counter_ctx_t], without the lock;
    [iterations_per_worker] is not written after the workers start. *)
Record counter_ctx : Type := mk_counter_ctx {
  counter : Z;
  done_workers : Z
}.

(** Where a worker is, with its local variables. *)
Inductive counter_pc : Type :=
| CounterLock (i : Z)
| CounterRead (i : Z)
| CounterWrite (i v : Z)
| CounterUnlock (i : Z)
| CounterTest (i : Z)
| CounterYield (i : Z)
| DoneLock
| DoneRead
| DoneWrite (v : Z)
| DoneUnlock
| Exited.

Section Counting.
Context {W P : Type} `{LockMachine W P}.
Variable iterations_per_worker : Z.

(** The head of the worker's loop. *)
Definition counter_loop (i : Z) : counter_pc := if i <? iterations_per_worker then CounterLock i else DoneLock.

(** A call of a function of the lock: its first step, its other steps, and the place
    where the worker goes on when it returns. *)
Definition lock_call (me : nat) (c : choice) (entry p : P) (w : W) (here next : counter_pc) : option (W * (counter_pc * P)) :=
  match lm_returned p with
  | Some _ => Some (w, (here, entry))
  | None =>
      match lm_step me c p w with
      | None => None
      | Some (w', p') => Some (w', (match lm_returned p' with Some _ => next | None => here end, p'))
      end
  end.

Definition counter_task (me : nat) (c : choice) (x : counter_pc) (p : P) (w : W) (ctx : counter_ctx)
    : option (W * counter_ctx * (counter_pc * P)) :=
  let call entry next := match lock_call me c entry p w x next with None => None | Some (w', t) => Some (w', ctx, t) end in
  match x with
  | CounterLock i => call lm_lock (CounterRead i)
  | CounterRead i => Some (w, ctx, (CounterWrite i (counter ctx), p))
  | CounterWrite i v => Some (w, mk_counter_ctx (u32 (v + 1)) (done_workers ctx), (CounterUnlock i, p))
  | CounterUnlock i => call lm_unlock (CounterTest i)
  | CounterTest i => Some (w, ctx, (if Z.land i 31 =? 0 then CounterYield i else counter_loop (u32 (i + 1)), p))
  | CounterYield i => Some (w, ctx, (counter_loop (u32 (i + 1)), p))
  | DoneLock => call lm_lock DoneRead
  | DoneRead => Some (w, ctx, (DoneWrite (done_workers ctx), p))
  | DoneWrite v => Some (w, mk_counter_ctx (counter ctx) (u32 (v + 1)), (DoneUnlock, p))
  | DoneUnlock => call lm_unlock Exited
  | Exited => None
  end.

(** *** The test *)

(** Where the test is.  [late]: the loop ended because the time was up.  The result
    comes with what was printed: the two fields and whether the zombies were reaped. *)
Inductive test_pc : Type :=
| TestCreate (created : nat)
| TestStart
| TestWait (start_tick : Z)
| TestClock (start_tick : Z)
| TestSleep (start_tick : Z)
| TestDone (late : bool)
| TestCounter (late pass : bool)
| TestReap (late pass : bool)
| TestPrintDone (late pass reaped : bool)
| TestPrintCounter (late pass reaped : bool) (done : Z)
| TestReturned (pass : bool) (report : option (bool * Z * Z * bool)).

Record test_config : Type := mk_test {
  t_world : W;
  t_ctx : counter_ctx;
  t_workers : list (counter_pc * P);
  t_main : test_pc
}.

Definition test_timeout_ticks : Z := 400.
Definition expected_count : Z := u32 (iterations_per_worker * 2).

(** A step of the test at time [now]; [ok] is what the scheduler answers: whether the
    task could be created, and whether the zombies could be reaped. *)
Definition test_step (now : Z) (ok : bool) (s : test_config) : option test_config :=
  let at_ m := Some (mk_test (t_world s) (t_ctx s) (t_workers s) m) in
  match t_main s with
  | TestCreate created =>
      if ok then Some (mk_test (t_world s) (t_ctx s) (t_workers s ++ [(counter_loop 0, lm_out false)])
                         (if (created =? 0)%nat then TestCreate 1 else TestStart))
      else at_ (TestReturned false None)
  | TestStart => at_ (TestWait now)
  | TestWait start => at_ (if done_workers (t_ctx s) <? 2 then TestClock start else TestDone false)
  | TestClock start => at_ (if u32 (now - start) <? test_timeout_ticks then TestSleep start else TestDone true)
  | TestSleep start => at_ (TestWait start)
  | TestDone late => at_ (TestCounter late (done_workers (t_ctx s) =? 2))
  | TestCounter late pass => at_ (TestReap late (pass && (counter (t_ctx s) =? expected_count)))
  | TestReap late pass => at_ (TestPrintDone late (pass && ok) ok)
  | TestPrintDone late pass reaped => at_ (TestPrintCounter late pass reaped (done_workers (t_ctx s)))
  | TestPrintCounter late pass reaped done => at_ (TestReturned pass (Some (late, done, counter (t_ctx s), reaped)))
  | TestReturned _ _ => None
  end.

(** Who takes the next step. *)
Inductive test_event : Type :=
| Worker (i : nat) (c : choice)
| Main (ok : bool)
| Elapse.
Context (clock : W -> Z) (tick : W -> W).

Definition counter_step (e : test_event) (s : test_config) : option test_config :=
  match e with
  | Worker i c =>
      match t_workers s !! i with
      | None => None
      | Some (x, p) =>
          match counter_task i c x p (t_world s) (t_ctx s) with
          | None => None
          | Some (w', ctx', t) => Some (mk_test w' ctx' (<[i := t]> (t_workers s)) (t_main s))
          end
      end
  | Main ok => test_step (clock (t_world s)) ok s
  | Elapse => Some (mk_test (tick (t_world s)) (t_ctx s) (t_workers s) (t_main s))
  end.

(** The test before it creates its workers. *)
Definition counter_start (w : W) : test_config := mk_test (lm_init w) (mk_counter_ctx 0 0) [] (TestCreate 0).

Inductive counter_reachable (w : W) : test_config -> Prop :=
| reach_start : counter_reachable w (counter_start w)
| reach_step s e s' : counter_reachable w s -> counter_step e s = Some s' -> counter_reachable w s'.

Fixpoint run_events (l : list test_event) (s : test_config) : option test_config :=
  match l with
  | [] => Some s
  | e :: l' => match counter_step e s with None => None | Some s' => run_events l' s' end
  end.
End Counting.
Arguments test_config W P : clear implicits.

Section Tests.
Context {Ch : Type} `{WaitChannel Ch}.
Definition world_tick (w : world (Ch := Ch)) : world := mk_world (mutex w) (channel w) (u32 (ticks w + 1)).

(** The tasks of kdebug.c. *)
Definition kdebug_sync_counter_task := counter_task (W := world (Ch := Ch)) (P := spin_task) 600.
Definition kdebug_mutex_counter_task (tid : nat -> Z) := counter_task (H := mutex_machine (Ch := Ch) tid) 400.

(** [kdebug_test_sync_locking] and [kdebug_test_mutex_locking], as what they can reach. *)
Definition kdebug_test_sync_locking : world -> test_config world spin_task -> Prop :=
  counter_reachable 600 ticks world_tick.
Definition kdebug_test_mutex_locking (tid : nat -> Z) : world -> test_config world pc -> Prop :=
  counter_reachable (H := mutex_machine tid) 400 ticks world_tick.
End Tests.
