(* ===== verification/KdebugTasksSpec.v ===== *)
(** The counting tests of kdebug.c report no lost update, however their tasks
    interleave: proved against what a lock promises, which the spin lock and the mutex
    keep. *)
From S2P Require Import Prelude SchedData Sync SyncSpec KdebugTasks.
From Stdlib Require Import ZArith Lia.
From stdpp Require Import relations.
Open Scope Z_scope.

(** * What a lock promises *)

(** In a call that ends by holding the lock, or not: it has returned so, or is still
    under way. *)
Definition during {W P} `{LockMachine W P} (f : P -> Prop) (holds : bool) (p : P) : Prop :=
  lm_returned p = Some holds \/ (lm_returned p = None /\ f p).

Class LockLaws (W P : Type) `{LockMachine W P} (tick : W -> W) : Type := {
  ll_inv : W -> list P -> Prop;
  ll_locking : P -> Prop;
  ll_unlocking : P -> Prop;
  ll_start w : ll_inv (lm_init w) [];
  ll_spawn w ps : ll_inv w ps -> (length ps < 2)%nat -> ll_inv w (ps ++ [lm_out false]);
  ll_tick w ps : ll_inv w ps -> ll_inv (tick w) ps;
  ll_out b : lm_returned (lm_out b) = Some b;
  ll_lock w ps i p : ll_inv w ps -> ps !! i = Some p -> lm_returned p = Some false ->
    ll_inv w (<[i := lm_lock]> ps) /\ lm_returned lm_lock = None /\ ll_locking lm_lock;
  ll_unlock w ps i p : ll_inv w ps -> ps !! i = Some p -> lm_returned p = Some true ->
    ll_inv w (<[i := lm_unlock]> ps) /\ lm_returned lm_unlock = None /\ ll_unlocking lm_unlock;
  ll_step w ps i p c w' p' : ll_inv w ps -> ps !! i = Some p -> lm_step i c p w = Some (w', p') -> lm_returned p = None ->
    ll_inv w' (<[i := p']> ps) /\ (ll_locking p -> during ll_locking true p') /\ (ll_unlocking p -> during ll_unlocking false p');
  ll_exclusive w ps i j p q : ll_inv w ps -> ps !! i = Some p -> ps !! j = Some q ->
    lm_returned p = Some true -> lm_returned q = Some true -> i = j
}.

(** * Counting *)

Section Counting.
Context {W P : Type} `{LL : LockLaws W P tick} (clock : W -> Z).
Variable n : Z.
Hypothesis Hn : 0 <= n < 2 ^ 31.

(** How often the worker has counted, and whether it has reported. *)
Definition counted (x : counter_pc) : Z :=
  match x with
  | CounterLock i | CounterRead i | CounterWrite i _ => i
  | CounterUnlock i | CounterTest i | CounterYield i => i + 1
  | _ => n
  end.
Definition reported (x : counter_pc) : Z := match x with DoneUnlock | Exited => 1 | _ => 0 end.

Fixpoint total (f : counter_pc -> Z) (ws : list (counter_pc * P)) : Z :=
  match ws with [] => 0 | t :: ws' => f t.1 + total f ws' end.

Lemma total_insert f ws k t t' : ws !! k = Some t -> total f (<[k := t']> ws) = total f ws - f t.1 + f t'.1.
Proof.
  revert k. induction ws as [|x ws IH]; intros [|k] Hk; simpl in *; try done.
  - injection Hk as ->. lia.
  - rewrite (IH k) by done. lia.
Qed.
Lemma total_app f ws t : total f (ws ++ [t]) = total f ws + f t.1.
Proof. induction ws as [|x ws IH]; simpl; lia. Qed.

(** Where the worker is agrees with where its lock is. *)
Definition agrees (t : counter_pc * P) : Prop :=
  match t.1 with
  | CounterLock i => 0 <= i < n /\ (lm_returned t.2 = Some false \/ (lm_returned t.2 = None /\ ll_locking t.2))
  | CounterRead i | CounterWrite i _ => 0 <= i < n /\ lm_returned t.2 = Some true
  | CounterUnlock i => 0 <= i < n /\ (lm_returned t.2 = Some true \/ (lm_returned t.2 = None /\ ll_unlocking t.2))
  | CounterTest i | CounterYield i => 0 <= i < n /\ lm_returned t.2 = Some false
  | DoneLock => lm_returned t.2 = Some false \/ (lm_returned t.2 = None /\ ll_locking t.2)
  | DoneRead | DoneWrite _ => lm_returned t.2 = Some true
  | DoneUnlock => lm_returned t.2 = Some true \/ (lm_returned t.2 = None /\ ll_unlocking t.2)
  | Exited => lm_returned t.2 = Some false
  end.

(** A value that was read under the lock is still there. *)
Definition fresh (ctx : counter_ctx) (x : counter_pc) : Prop :=
  match x with CounterWrite _ v => v = counter ctx | DoneWrite v => v = done_workers ctx | _ => True end.

Record counting (w : W) (ctx : counter_ctx) (ws : list (counter_pc * P)) : Prop := {
  cn_lock : ll_inv w (ws.*2);
  cn_agrees k t : ws !! k = Some t -> agrees t;
  cn_fresh k t : ws !! k = Some t -> fresh ctx t.1;
  cn_counter : counter ctx = total counted ws;
  cn_done : done_workers ctx = total reported ws;
  cn_length : (length ws <= 2)%nat
}.

Lemma counted_bounds t : agrees t -> 0 <= counted t.1 <= n.
Proof. destruct t as [[] p]; unfold agrees; simpl; intros Ha; try destruct Ha; lia. Qed.
Lemma reported_bounds x : 0 <= reported x <= 1.
Proof. destruct x; simpl; lia. Qed.
Lemma reported_counted x : reported x = 1 -> counted x = n.
Proof. by destruct x. Qed.

(** The head of the loop. *)
Lemma loop_agrees i p : 0 <= i <= n -> lm_returned p = Some false ->
  agrees (counter_loop n i, p) /\ counted (counter_loop n i) = i /\ reported (counter_loop n i) = 0 /\ forall ctx, fresh ctx (counter_loop n i).
Proof.
  intros Hi Hp. unfold counter_loop. destruct (Z.ltb_spec i n); simpl; split_and!; try done; try lia; [|by left]. split; [lia|by left].
Qed.

Lemma counting_spawn w ctx ws : counting w ctx ws -> (length ws < 2)%nat -> counting w ctx (ws ++ [(counter_loop n 0, lm_out false)]).
Proof.
  intros [L A F C D Le] Hl. destruct (loop_agrees 0 (lm_out false)) as (A0 & C0 & R0 & F0); [lia|apply ll_out|].
  split.
  - rewrite fmap_app. apply ll_spawn; [done|by rewrite length_fmap].
  - intros k t [Hk|[_ Hk]]%lookup_app_Some; [by eapply A|]. apply list_lookup_singleton_Some in Hk as [_ <-]. done.
  - intros k t [Hk|[_ Hk]]%lookup_app_Some; [by eapply F|]. apply list_lookup_singleton_Some in Hk as [_ <-]. apply F0.
  - rewrite total_app. simpl. lia.
  - rewrite total_app. simpl. lia.
  - rewrite length_app. simpl. lia.
Qed.

(** ** A step of a worker *)

Lemma counting_move w ctx ws k t w' ctx' t' :
  counting w ctx ws -> ws !! k = Some t -> ll_inv w' (<[k := t'.2]> (ws.*2)) -> agrees t' -> fresh ctx' t'.1 ->
  (forall j u, j <> k -> ws !! j = Some u -> fresh ctx' u.1) ->
  counter ctx' = counter ctx - counted t.1 + counted t'.1 -> done_workers ctx' = done_workers ctx - reported t.1 + reported t'.1 ->
  counting w' ctx' (<[k := t']> ws).
Proof.
  intros [L A F C D Le] Hk L' A' F' Fo C' D'. split.
  - by rewrite list_fmap_insert.
  - intros j u Hj. apply list_lookup_insert_Some in Hj as [(-> & <- & _)|[_ Hj]]; [done|by eapply A].
  - intros j u Hj. apply list_lookup_insert_Some in Hj as [(-> & <- & _)|[Hne Hj]]; [done|by eapply Fo].
  - rewrite (total_insert _ _ _ t) by done. lia.
  - rewrite (total_insert _ _ _ t) by done. lia.
  - by rewrite length_insert.
Qed.

(** A step that does not change the context. *)
Lemma counting_quiet w ctx ws k t w' t' :
  counting w ctx ws -> ws !! k = Some t -> ll_inv w' (<[k := t'.2]> (ws.*2)) -> agrees t' -> fresh ctx t'.1 ->
  counted t'.1 = counted t.1 -> reported t'.1 = reported t.1 -> counting w' ctx (<[k := t']> ws) /\ reported t.1 <= reported t'.1.
Proof.
  intros H1 Hk L A F C R. split; [|lia]. eapply counting_move; try done; [|lia|lia]. intros j u _. by apply (cn_fresh _ _ _ H1).
Qed.

(** The calls of the lock. *)
Lemma lock_call_spec w ps k c p x next w' t :
  ll_inv w ps -> ps !! k = Some p -> during ll_locking false p -> lock_call k c lm_lock p w x next = Some (w', t) ->
  ll_inv w' (<[k := t.2]> ps) /\ ((t.1 = x /\ lm_returned t.2 = None /\ ll_locking t.2) \/ (t.1 = next /\ lm_returned t.2 = Some true)).
Proof.
  intros L Hp Hd. unfold lock_call. destruct Hd as [Hr|[Hr Hl]]; rewrite Hr.
  - intros [= <- <-]. destruct (ll_lock _ _ _ _ L Hp Hr) as (L' & R' & K'). split; [done|]. by left.
  - destruct (lm_step k c p w) as [[w1 p1]|] eqn:E; [|done]. intros [= <- <-].
    destruct (ll_step _ _ _ _ _ _ _ L Hp E Hr) as (L' & K' & _). split; [done|].
    destruct (K' Hl) as [R1|[R1 K1]]; rewrite R1; [by right|by left].
Qed.
Lemma unlock_call_spec w ps k c p x next w' t :
  ll_inv w ps -> ps !! k = Some p -> during ll_unlocking true p -> lock_call k c lm_unlock p w x next = Some (w', t) ->
  ll_inv w' (<[k := t.2]> ps) /\ ((t.1 = x /\ lm_returned t.2 = None /\ ll_unlocking t.2) \/ (t.1 = next /\ lm_returned t.2 = Some false)).
Proof.
  intros L Hp Hd. unfold lock_call. destruct Hd as [Hr|[Hr Hl]]; rewrite Hr.
  - intros [= <- <-]. destruct (ll_unlock _ _ _ _ L Hp Hr) as (L' & R' & K'). split; [done|]. by left.
  - destruct (lm_step k c p w) as [[w1 p1]|] eqn:E; [|done]. intros [= <- <-].
    destruct (ll_step _ _ _ _ _ _ _ L Hp E Hr) as (L' & _ & K'). split; [done|].
    destruct (K' Hl) as [R1|[R1 K1]]; rewrite R1; [by right|by left].
Qed.

(** Only the holder of the lock has read a value. *)
Lemma others_not_fresh w ctx ws k t ctx' j u :
  counting w ctx ws -> ws !! k = Some t -> lm_returned t.2 = Some true -> j <> k -> ws !! j = Some u -> fresh ctx' u.1.
Proof.
  intros H1 Hk Hr Hne Hj. pose proof (cn_agrees _ _ _ H1 _ _ Hj) as A.
  assert (Hu : lm_returned u.2 <> Some true).
  { intros Hu. apply Hne. eapply (ll_exclusive w (ws.*2) j k u.2 t.2); [apply H1|by rewrite list_lookup_fmap, Hj|by rewrite list_lookup_fmap, Hk|done|done]. }
  destruct u as [[] q]; simpl in *; try done; destruct Hu; apply A.
Qed.

Lemma total_bounds f m ws : (forall k t, ws !! k = Some t -> 0 <= f t.1 <= m) -> 0 <= total f ws <= m * Z.of_nat (length ws).
Proof.
  induction ws as [|t ws IH]; intros Hf; cbn [total length]; [lia|]. pose proof (Hf O t eq_refl).
  assert (0 <= total f ws <= m * Z.of_nat (length ws)) by (apply IH; intros k u Hu; exact (Hf (S k) u Hu)). lia.
Qed.
Lemma counting_bounds w ctx ws : counting w ctx ws -> 0 <= counter ctx <= 2 * n /\ 0 <= done_workers ctx <= 2.
Proof.
  intros [L A F C D Le]. rewrite C, D. split.
  - pose proof (total_bounds counted n ws ltac:(intros k t Hk; apply counted_bounds; by eapply A)). nia.
  - pose proof (total_bounds reported 1 ws ltac:(intros k t Hk; apply reported_bounds)). lia.
Qed.

(** A step inside a call of the lock. *)
Ltac call_step H1 Hk L Hp A spec :=
  match goal with Hs : match ?m with _ => _ end = Some _ |- _ =>
    let E := fresh "E" in destruct m as [[? [? ?]]|] eqn:E; [|done]; injection Hs as <- <- <-;
    try match type of A with _ /\ _ => destruct A as [? A] end;
    eapply spec in E as (L' & Ht); [|exact L|exact Hp|exact A]; simpl in L', Ht;
    eapply (counting_quiet _ _ _ _ _ _ _ H1 Hk); [exact L'|..];
      destruct Ht as [(-> & ? & ?)|(-> & ?)]; unfold agrees; simpl; auto
  end.

Lemma counting_worker w ctx ws k c x p w' ctx' t :
  counting w ctx ws -> ws !! k = Some (x, p) -> counter_task n k c x p w ctx = Some (w', ctx', t) ->
  counting w' ctx' (<[k := t]> ws) /\ reported x <= reported t.1.
Proof.
  intros H1 Hk Hs. pose proof (cn_agrees _ _ _ H1 _ _ Hk) as A. pose proof (cn_fresh _ _ _ H1 _ _ Hk) as F.
  pose proof (cn_lock _ _ _ H1) as L. assert (Hp : ws.*2 !! k = Some p) by (by rewrite list_lookup_fmap, Hk).
  assert (Lp : ll_inv w (<[k := p]> (ws.*2))) by (by rewrite list_insert_id).
  pose proof (counting_bounds _ _ _ H1) as [Hc Hd].
  destruct x; unfold agrees in A; simpl in Hs, A, F; try (call_step H1 Hk L Hp A lock_call_spec; fail); try (call_step H1 Hk L Hp A unlock_call_spec; fail).
  - injection Hs as <- <- <-. by apply (counting_quiet _ _ _ _ _ _ _ H1 Hk).
  - injection Hs as <- <- <-. rewrite F, wrap_small by word_lia. split; [|done]. destruct A as [Hi A].
    apply (counting_move _ _ _ _ _ _ _ _ H1 Hk); simpl; try lia; try done; [split; auto|].
    intros j u Hne Hj. by apply (others_not_fresh _ _ _ _ _ _ _ _ H1 Hk A Hne Hj).
  - destruct A as [Hi A]. destruct (loop_agrees (i + 1) p) as (A1 & C1 & R1 & F1); [lia|done|]. rewrite (wrap_small 32 (i + 1)) in Hs by word_lia.
    destruct (_ =? 0); injection Hs as <- <- <-; by apply (counting_quiet _ _ _ _ _ _ _ H1 Hk).
  - destruct A as [Hi A]. destruct (loop_agrees (i + 1) p) as (A1 & C1 & R1 & F1); [lia|done|]. rewrite (wrap_small 32 (i + 1)) in Hs by word_lia.
    injection Hs as <- <- <-. by apply (counting_quiet _ _ _ _ _ _ _ H1 Hk).
  - injection Hs as <- <- <-. by apply (counting_quiet _ _ _ _ _ _ _ H1 Hk).
  - injection Hs as <- <- <-. rewrite F, wrap_small by word_lia. split; [|done].
    apply (counting_move _ _ _ _ _ _ _ _ H1 Hk); simpl; try lia; try done; [by left|].
    intros j u Hne Hj. by apply (others_not_fresh _ _ _ _ _ _ _ _ H1 Hk A Hne Hj).
  - done.
Qed.

(** ** The test *)

(** What the test has seen is still so. *)
Definition test_ok (s : test_config W P) : Prop :=
  let all := total reported (t_workers s) = 2 in
  match t_main s with
  | TestCreate k => length (t_workers s) = k /\ (k < 2)%nat
  | TestReturned pass None => pass = false
  | TestReturned pass (Some (late, done, count, reaped)) =>
      (late = false -> done = 2 /\ pass = reaped) /\ (done = 2 -> count = expected_count n) /\ (pass = true -> done = 2 /\ reaped = true)
  | m => length (t_workers s) = 2%nat /\
      match m with
      | TestDone late => late = false -> all
      | TestCounter late pass | TestReap late pass => (late = false -> pass = true) /\ (pass = true -> all)
      | TestPrintDone late pass reaped => (late = false -> all /\ pass = reaped) /\ (pass = true -> all /\ reaped = true)
      | TestPrintCounter late pass reaped done =>
          (late = false -> done = 2 /\ pass = reaped) /\ (done = 2 -> all) /\ (pass = true -> done = 2 /\ reaped = true)
      | _ => True
      end
  end.

Definition test_inv (s : test_config W P) : Prop := counting (t_world s) (t_ctx s) (t_workers s) /\ test_ok s.

Lemma all_counted w ctx ws : counting w ctx ws -> total reported ws = 2 -> length ws = 2%nat -> counter ctx = expected_count n.
Proof.
  intros H1 Ht Hl. rewrite (cn_counter _ _ _ H1). destruct ws as [|a [|b [|]]]; try done. simpl in *.
  pose proof (reported_bounds a.1). pose proof (reported_bounds b.1). rewrite !reported_counted by lia.
  unfold expected_count. rewrite wrap_small; word_lia.
Qed.

Lemma test_main_inv now ok s s' : test_inv s -> test_step n now ok s = Some s' -> test_inv s'.
Proof.
  intros [H1 Hm] Hs. destruct s as [w ctx ws m]. unfold test_inv, test_ok, test_step in *. simpl in *.
  assert (Hd : done_workers ctx = total reported ws) by apply H1.
  destruct m; try discriminate Hs.
  - destruct Hm as [Hl Hk]. destruct ok; [|by injection Hs as <-]. assert (Hlt : (length ws < 2)%nat) by lia.
    pose proof (counting_spawn _ _ _ H1 Hlt) as H2. injection Hs as <-. simpl. split; [done|]. rewrite length_app. simpl.
    destruct created as [|[|]]; simpl; lia.
  - injection Hs as <-. simpl. done.
  - injection Hs as <-. simpl. split; [done|]. destruct Hm as [Hl _]. pose proof (counting_bounds _ _ _ H1).
    destruct (Z.ltb_spec (done_workers ctx) 2); split; try done. intros _. lia.
  - injection Hs as <-. simpl. split; [done|]. destruct Hm as [Hl _]. by destruct (_ <? _).
  - injection Hs as <-. simpl. done.
  - injection Hs as <-. simpl. split; [done|]. destruct Hm as [Hl Hm]. split; [done|].
    split; [intros Hlate; rewrite Hd, Hm by done; done|]. intros E%Z.eqb_eq. lia.
  - injection Hs as <-. simpl. split; [done|]. destruct Hm as (Hl & H2 & H3). split; [done|]. split.
    + intros Hlate. rewrite (H2 Hlate). simpl. apply Z.eqb_eq. by apply (all_counted w _ ws), Hl; [|apply H3, H2].
    + intros [E _]%andb_true_iff. auto.
  - injection Hs as <-. simpl. split; [done|]. destruct Hm as (Hl & H2 & H3). split; [done|]. split.
    + intros Hlate. split; [auto|]. by rewrite (H2 Hlate).
    + intros [E ->]%andb_true_iff. auto.
  - injection Hs as <-. simpl. split; [done|]. destruct Hm as (Hl & H2 & H3). split; [done|]. rewrite Hd. split_and!; intuition.
  - injection Hs as <-. simpl. split; [done|]. destruct Hm as (Hl & H2 & H3 & H4). split_and!; try done.
    intros E. apply (all_counted w _ ws); auto.
Qed.

Lemma test_worker_inv s i c x p w' ctx' t :
  test_inv s -> t_workers s !! i = Some (x, p) -> counter_task n i c x p (t_world s) (t_ctx s) = Some (w', ctx', t) ->
  test_inv (mk_test w' ctx' (<[i := t]> (t_workers s)) (t_main s)).
Proof.
  intros [H1 Hm] Hi Hs. destruct s as [w ctx ws m]. simpl in *. destruct (counting_worker _ _ _ _ _ _ _ _ _ _ H1 Hi Hs) as [H2 Hr].
  split; [done|]. unfold test_ok in *. simpl in *. rewrite length_insert.
  assert (Hall : total reported ws = 2 -> total reported (<[i := t]> ws) = 2).
  { intros E. pose proof (counting_bounds _ _ _ H2) as [_ Hb]. rewrite (cn_done _ _ _ H2) in Hb.
    rewrite (total_insert _ _ _ (x, p)) in * by done. simpl in *. lia. }
  destruct m as [| | | | | | | | | |? [[[[]]]|]]; intuition.
Qed.

Lemma test_tick_inv s : test_inv s -> test_inv (mk_test (tick (t_world s)) (t_ctx s) (t_workers s) (t_main s)).
Proof. intros [[L A F C D Le] Hm]. split; [|done]. split; simpl; try done. by apply ll_tick. Qed.

Lemma counter_reachable_inv w s : counter_reachable n clock tick w s -> test_inv s.
Proof.
  induction 1 as [|s e s' _ IH Hs].
  - split; [|split; [done|simpl; lia]]. split; simpl; try done; [apply ll_start|lia].
  - destruct e as [i c|ok|]; simpl in Hs.
    + destruct (t_workers s !! i) as [[x p]|] eqn:Hi; [|done]. destruct (counter_task _ _ _ _ _ _ _) as [[[w' ctx'] t]|] eqn:E; [|done].
      injection Hs as <-. by eapply test_worker_inv.
    + by eapply test_main_inv.
    + injection Hs as <-. by apply test_tick_inv.
Qed.

(** What the test prints and returns. *)
Lemma counter_test_sound w s pass late done count reaped :
  counter_reachable n clock tick w s -> t_main s = TestReturned pass (Some (late, done, count, reaped)) ->
  (late = false -> done = 2 /\ pass = reaped) /\ (done = 2 -> count = expected_count n) /\ (pass = true -> done = 2 /\ reaped = true).
Proof. intros [_ Hm]%counter_reachable_inv E. unfold test_ok in Hm. by rewrite E in Hm. Qed.

(** A worker is never stuck in a failed call. *)
Lemma counter_worker_sound w s i x p :
  counter_reachable n clock tick w s -> t_workers s !! i = Some (x, p) ->
  (exists b, lm_returned p = Some b) \/ ll_locking p \/ ll_unlocking p.
Proof.
  intros [H1 _]%counter_reachable_inv Hi. pose proof (cn_agrees _ _ _ H1 _ _ Hi) as A. unfold agrees in A.
  destruct x; simpl in A; naive_solver.
Qed.
End Counting.

(** * The spin lock *)

Section Locks.
Context {Ch : Type} `{WaitChannel Ch}.

(** The lock's word is set exactly while a task is between its locking and its
    unlocking. *)
Definition spin_has (p : spin_task) : bool := match p with SpinOut true | SpinRelease => true | _ => false end.
Record spin_inv (w : world (Ch := Ch)) (ps : list spin_task) : Prop := {
  si_value : lock_value (mutex w) = 0 \/ lock_value (mutex w) = 1;
  si_free i p : lock_value (mutex w) = 0 -> ps !! i = Some p -> spin_has p = false;
  si_unique i j p q : ps !! i = Some p -> ps !! j = Some q -> spin_has p = true -> spin_has q = true -> i = j
}.

Lemma spin_inv_same w ps i p p' : spin_inv w ps -> ps !! i = Some p -> spin_has p' = spin_has p -> spin_inv w (<[i := p']> ps).
Proof.
  intros [V F U] Hi Hp. split; [done| |].
  - intros j q H0 [(-> & <- & _)|[_ Hj]]%list_lookup_insert_Some; [rewrite Hp; by eapply F|by eapply F].
  - intros j k q r [(-> & <- & _)|[_ Hj]]%list_lookup_insert_Some [(-> & <- & _)|[_ Hk]]%list_lookup_insert_Some; try rewrite Hp; eauto.
Qed.

#[local] Instance spin_laws : LockLaws (world (Ch := Ch)) spin_task world_tick.
Proof.
  refine {| ll_inv := spin_inv; ll_locking := fun p => exists q, p = SpinIn q; ll_unlocking := fun p => p = SpinRelease |}.
  - intros w. split; [by left|done|done].
  - intros w ps [V F U] _. split; [done| |].
    + intros i p H0 [Hi|[_ [_ <-]%list_lookup_singleton_Some]]%lookup_app_Some; [by eapply F|done].
    + intros i j p q [Hi|[_ [_ <-]%list_lookup_singleton_Some]]%lookup_app_Some [Hj|[_ [_ <-]%list_lookup_singleton_Some]]%lookup_app_Some; try done. by eapply U.
  - intros w ps [V F U]. by split.
  - done.
  - intros w ps i p I Hi Hr. split; [|split; [done|by eexists]]. eapply spin_inv_same; [done|done|]. destruct p as [[]| |]; done.
  - intros w ps i p I Hi Hr. split; [|done]. eapply spin_inv_same; [done|done|]. destruct p as [[]| |]; done.
  - intros w ps i p c w' p' I Hi Hs Hr. destruct p as [|q|]; [done| |].
    + simpl in Hs. destruct (spin_step q w) as [w1 m] eqn:E. injection Hs as <- <-.
      apply spin_step_effect in E as [(q' & -> & ->)|(-> & H0 & ->)]; [| |apply I].
      * split; [by eapply spin_inv_same|]. split; [|done]. intros _. right. split; [done|by eexists].
      * split; [|split; [by left|done]]. destruct I as [V F U]. split; [by right|done|].
        intros j k p1 p2 [(-> & <- & _)|[_ Hj]]%list_lookup_insert_Some [(-> & <- & _)|[_ Hk]]%list_lookup_insert_Some; try done.
        -- intros _ Hp. by rewrite (F _ _ H0 Hk) in Hp.
        -- intros Hp. by rewrite (F _ _ H0 Hj) in Hp.
        -- intros Hp. by rewrite (F _ _ H0 Hj) in Hp.
    + injection Hs as <- <-. split; [|split; [by intros [? ?]|by left]]. destruct I as [V F U].
      assert (Ho : forall j p, j <> i -> ps !! j = Some p -> spin_has p = false).
      { intros j p Hne Hj. destruct (spin_has p) eqn:Ep; [|done]. destruct Hne. by apply (U j i p SpinRelease). }
      split; [by left| |].
      * intros j p _ [(-> & <- & _)|[Hne Hj]]%list_lookup_insert_Some; [done|by eapply Ho].
      * intros j k p1 p2 [(-> & <- & _)|[Hj1 Hj]]%list_lookup_insert_Some [(-> & <- & _)|[Hk1 Hk]]%list_lookup_insert_Some; try done.
        intros Hp. by rewrite (Ho j p1 (not_eq_sym Hj1) Hj) in Hp.
  - intros w ps i j p q [V F U] Hi Hj Hp Hq. apply (U i j p q); try done; [by destruct p as [[]| |]|by destruct q as [[]| |]].
Defined.

(** * The mutex *)

Context (tid : nat -> Z) (tid_inj : Inj (=) (=) tid).
#[local] Instance tid_machine : LockMachine (world (Ch := Ch)) pc := mutex_machine tid.

Lemma waiting_app ts p : waiting (ts ++ [p]) = waiting ts + (if in_wait p then 1 else 0).
Proof. induction ts as [|x ts IH]; simpl; lia. Qed.

Lemma inv_spawn (w : world (Ch := Ch)) ts : inv tid (mk_config w ts) -> inv tid (mk_config w (ts ++ [Outside false])).
Proof.
  intros [V Fr Sp Lo Ow Un Ti Kn Wa]. simpl in *.
  assert (Hnew : forall i p, (ts ++ [Outside false]) !! i = Some p -> ts !! i = Some p \/ p = Outside false).
  { intros i p [Hi|[_ [_ <-]%list_lookup_singleton_Some]]%lookup_app_Some; auto. }
  split; simpl; try done.
  - intros i p H0 [Hi| ->]%Hnew; [by eapply Fr|done].
  - intros i j p q [Hi| ->]%Hnew [Hj| ->]%Hnew; try done. by eapply Sp.
  - intros i p [Hi| ->]%Hnew; [by eapply Lo|done].
  - intros Hl. destruct (Ow Hl) as (i & p & Hi & Hp). exists i, p. split; [|done]. by apply lookup_app_l_Some.
  - intros i j p q [Hi| ->]%Hnew [Hj| ->]%Hnew; try done. by eapply Un.
  - intros i p [Hi| ->]%Hnew; [by eapply Ti|done].
  - intros i p [Hi| ->]%Hnew; [by eapply Kn|done].
  - rewrite waiting_app. simpl. by rewrite Z.add_0_r.
Qed.

Definition mutex_locking (p : pc) : Prop := exists q, p = InLock false true KWAIT_FOREVER q.
Definition mutex_unlocking (p : pc) : Prop := exists q, p = InUnlock true q.

Lemma cond_step_dies me t c q (w w' : world (Ch := Ch)) why : cond_step me t c q w = Some (w', Die why) -> why = WaiterCountUnderflow.
Proof.
  destruct q as [| | |? p| |? p]; simpl; try (intros; repeat case_match; simplify_eq; done).
  - destruct p; simpl; intros; repeat case_match; simplify_eq; done.
  - destruct (spin_step p w) as [w1 m] eqn:E. intros [= -> Hm]. destruct m; try discriminate Hm. by apply spin_step_no_panic in E.
Qed.
Lemma lock_step_dies me t c q (w w' : world (Ch := Ch)) why :
  lock_step tid me t c q w = Some (w', Die why) -> why = LockRecursion \/ why = WaiterCountUnderflow.
Proof.
  destruct q as [|? p| | | | | |? ? p| | | | |]; simpl; try (intros; repeat case_match; simplify_eq; by left).
  - destruct (spin_step p w) as [w1 m] eqn:E. intros [= -> Hm]. destruct m; try discriminate Hm. by apply spin_step_no_panic in E.
  - destruct (cond_step _ _ _ _ _) as [[w1 [|[]|]]|] eqn:E; intros [= -> ?]; try (by repeat case_match). subst. right. by eapply cond_step_dies.
Qed.

(** A call neither fails nor is left in another way than by its return. *)
Lemma locking_step w ts i p c w' p' :
  inv tid (mk_config w ts) -> Z.of_nat (length ts) < 2 ^ 32 -> ts !! i = Some p -> task_step tid i c p w = Some (w', p') ->
  mutex_locking p -> p' = Outside true \/ mutex_locking p'.
Proof.
  intros I Hl Hi Hs [q ->]. pose proof (inv_task_knows tid tid_inj (mk_config w ts) i _ c w' p' I Hl Hi Hs) as Hk. simpl in Hs.
  destruct (lock_step tid i KWAIT_FOREVER c q w) as [[w1 [q'|[]|why]]|] eqn:E; [..|done]; injection Hs as <- <-; simpl in *.
  - right. by eexists.
  - by left.
  - done.
  - by apply lock_step_dies in E as [->| ->].
Qed.
Lemma unlocking_step w ts i p c w' p' :
  inv tid (mk_config w ts) -> Z.of_nat (length ts) < 2 ^ 32 -> ts !! i = Some p -> task_step tid i c p w = Some (w', p') ->
  mutex_unlocking p -> p' = Outside false \/ mutex_unlocking p'.
Proof.
  intros I Hl Hi Hs [q ->]. pose proof (inv_task_knows tid tid_inj (mk_config w ts) i _ c w' p' I Hl Hi Hs) as Hk. simpl in Hs.
  destruct (unlock_step tid i q w) as [w1 [q'|[]|why]] eqn:E; injection Hs as <- <-; simpl in *.
  - right. by eexists.
  - by left.
  - exfalso. destruct q; simpl in E; repeat case_match; simplify_eq; first [done | by eapply spin_step_no_panic].
Qed.

#[local] Instance mutex_laws : LockLaws (world (Ch := Ch)) pc world_tick.
Proof.
  refine {| ll_inv := fun w ps => (length ps <= 2)%nat /\ inv tid (mk_config w ps); ll_locking := mutex_locking; ll_unlocking := mutex_unlocking |}.
  - intros w. split; [simpl; lia|]. by split; simpl; try done; left.
  - intros w ps [Hl I] Hlt. split; [rewrite length_app; simpl; lia|by apply inv_spawn].
  - intros w ps [Hl I]. split; [done|]. exact (inv_tick tid (mk_config w ps) I).
  - done.
  - intros w ps i p [Hl I] Hi Hr. split; [|split; [done|by eexists]]. split; [by rewrite length_insert|].
    destruct p as [[]| | | |]; try done. apply (inv_task tid tid_inj (mk_config w ps) i (Outside false) (CallLock false)); [done|simpl; lia|done|done].
  - intros w ps i p [Hl I] Hi Hr. split; [|split; [done|by eexists]]. split; [by rewrite length_insert|].
    destruct p as [[]| | | |]; try done. apply (inv_task tid tid_inj (mk_config w ps) i (Outside true) (CallUnlock false)); [done|simpl; lia|done|done].
  - intros w ps i p c w' p' [Hl I] Hi Hs Hr. split; [|split].
    + split; [by rewrite length_insert|]. apply (inv_task tid tid_inj (mk_config w ps) i p c); [done|simpl; lia|done|done].
    + intros Hk. destruct (locking_step w ps i p c w' p' I ltac:(lia) Hi Hs Hk) as [->|[q ->]]; [by left|right; split; [done|by eexists]].
    + intros Hk. destruct (unlocking_step w ps i p c w' p' I ltac:(lia) Hi Hs Hk) as [->|[q ->]]; [by left|right; split; [done|by eexists]].
  - intros w ps i j p q [Hl I] Hi Hj Hp Hq. destruct p as [[]| | | |]; try done. destruct q as [[]| | | |]; try done.
    by apply (inv_unique tid _ I i j (Outside true) (Outside true)).
Defined.
End Locks.

(** * The tests *)

(** C8: the counting tests under every interleaving of their tasks with each other and
    with the clock.  When [kdebug_test_sync_locking] or [kdebug_test_mutex_locking]
    returns after it created both workers, what it prints is consistent: two workers
    done means that exactly all increments were counted, none lost; if its loop ended
    before the time was up, both workers are done and the test passes exactly if the
    zombies were reaped; and it passes only then.  No worker of the mutex test panics. *)
Theorem kdebug_counting_tests_correct {Ch} `{WaitChannel Ch} (tid : nat -> Z) `{!Inj (=) (=) tid} (w : world (Ch := Ch)) :
  (forall s pass late done count reaped,
     kdebug_test_sync_locking w s -> t_main s = TestReturned pass (Some (late, done, count, reaped)) ->
     (done = 2 -> count = 1200) /\ (late = false -> done = 2 /\ pass = reaped) /\ (pass = true -> done = 2 /\ reaped = true)) /\
  (forall s pass late done count reaped,
     kdebug_test_mutex_locking tid w s -> t_main s = TestReturned pass (Some (late, done, count, reaped)) ->
     (done = 2 -> count = 800) /\ (late = false -> done = 2 /\ pass = reaped) /\ (pass = true -> done = 2 /\ reaped = true)) /\
  (forall s i x h why, kdebug_test_mutex_locking tid w s -> t_workers s !! i <> Some (x, Panicked h why)).
Proof.
  split; [|split].
  - intros s pass late done count reaped Hr Hm.
    destruct (counter_test_sound (LL := spin_laws) ticks 600 ltac:(lia) w s pass late done count reaped Hr Hm) as (H1 & H2 & H3). by split_and!.
  - intros s pass late done count reaped Hr Hm.
    destruct (counter_test_sound (LL := mutex_laws tid _) ticks 400 ltac:(lia) w s pass late done count reaped Hr Hm) as (H1 & H2 & H3). by split_and!.
  - intros s i x h why Hr Hi.
    destruct (counter_worker_sound (LL := mutex_laws tid _) ticks 400 ltac:(lia) w s i x _ Hr Hi) as [[b Hb]|[[q Hq]|[q Hq]]]; done.
Qed.

Lemma run_events_reachable {W P} `{LockMachine W P} n clock tick w l s :
  run_events n clock tick l (counter_start w) = Some s -> counter_reachable n clock tick w s.
Proof.
  assert (Hgo : forall s0, counter_reachable n clock tick w s0 -> run_events n clock tick l s0 = Some s -> counter_reachable n clock tick w s).
  { induction l as [|e l IH]; intros s0 H0 Hr; simpl in Hr; [by injection Hr as <-|].
    destruct (counter_step n clock tick e s0) as [s1|] eqn:E; [|done]. apply (IH s1); [|done]. by eapply reach_step. }
  apply Hgo. constructor.
Qed.

(** A test context is on the stack of the test.  When the second worker cannot be
    created the test returns although the first one still uses the context. *)
Theorem kdebug_worker_outlives_context {Ch} `{WaitChannel Ch} (w : world (Ch := Ch)) :
  exists s, kdebug_test_sync_locking w s /\ t_main s = TestReturned false None /\ t_workers s = [(CounterLock 0, SpinOut false)].
Proof.
  eexists. split; [by apply (run_events_reachable _ _ _ _ [Main true; Main false])|]. by split.
Qed.

(** Both workers are created, run one after the other to their end, and are reaped. *)
Definition sample_events : list test_event :=
  [Main true; Main true] ++ replicate 4225 (Worker 0 Continue) ++ replicate 4225 (Worker 1 Continue) ++ replicate 7 (Main true).
Definition sample_world : world (Ch := list nat) := mk_world zero_mutex [] 0.

Lemma sample_run : exists s, kdebug_test_sync_locking sample_world s /\ t_main s = TestReturned true (Some (false, 2, 1200, true)).
Proof.
  assert (H : t_main <$> run_events 600 ticks world_tick sample_events (counter_start sample_world) = Some (TestReturned true (Some (false, 2, 1200, true)))) by (by vm_compute).
  destruct (run_events _ _ _ _ _) as [s|] eqn:E; [|done]. injection H as H. exists s. split; [|done]. by eapply run_events_reachable.
Qed.

Lemma kdebug_counting_tests_correct_witness :
  exists s, kdebug_test_sync_locking sample_world s /\ t_main s = TestReturned true (Some (false, 2, 1200, true)) /\ true = true /\ 1200 = 1200.
Proof.
  destruct sample_run as (s & Hr & Hm). exists s. split; [exact Hr|]. split; [exact Hm|].
  destruct (kdebug_counting_tests_correct task_number sample_world) as (H1 & _ & _).
  destruct (H1 s true false 2 1200 true Hr Hm) as (Hc & Hl & _). split; [apply Hl|apply Hc]; reflexivity.
Defined.
