(* ===== verification/KdebugTimeout.v ===== *)
(** The self test of kernel/kdebug.c that lets a mutex time out:
    [kdebug_test_mutex_timeout] and its [kdebug_mutex_timeout_task], as a machine over
    the mutex of Sync.v, and what the test finds in every interleaving. *)
From S2P Require Import Prelude SchedData Sync SyncSpec KdebugTasks KdebugTasksSpec.
From Stdlib Require Import ZArith Lia.
From stdpp Require Import relations.
Open Scope Z_scope.

(** [kdebug_mutex_timeout_ctx_t], without the mutex. *)
Record timeout_ctx : Type := mk_timeout_ctx {
  worker_done : bool;
  worker_acquired : bool;
  worker_timed_out : bool
}.

(** The worker. *)
Inductive timeout_pc : Type :=
| WorkerLock
| WorkerSetAcquired (acquired : bool)
| WorkerSetTimedOut (acquired : bool)
| WorkerUnlock
| WorkerSetDone
| WorkerExited.

(** The test.  [late]: its loop ended because the time was up.  [found]: the fields that
    were read for the report, so far. *)
Inductive timeout_main : Type :=
| MainLock
| MainCreate
| MainFailed
| MainStart
| MainWait (start_tick : Z)
| MainClock (start_tick : Z)
| MainSleep (start_tick : Z)
| MainUnlock (late : bool)
| MainDone (late : bool)
| MainAcquired (late pass : bool)
| MainTimedOut (late pass : bool)
| MainReap (late pass : bool)
| MainPrint (late pass reaped : bool) (found : list bool)
| MainReturned (pass : bool) (report : option (bool * bool * list bool)).

Section Timeout.
Context {Ch : Type} `{WaitChannel Ch}.
(** The test's task is task 0 of the mutex, the worker task 1. *)
Variable tid : nat -> Z.

Record timeout_config : Type := mk_timeout {
  o_world : world (Ch := Ch);
  o_ctx : timeout_ctx;
  o_main : timeout_main;
  o_main_at : pc;
  o_worker : option (timeout_pc * pc)
}.

(** A call of a function of the mutex: entered, continued, or returned with a result. *)
Definition mutex_call (me : nat) (c : choice) (entry p : pc) (w : world) : option (world * pc * option bool) :=
  match p with
  | Outside _ => Some (w, entry, None)
  | _ =>
      match task_step tid me c p w with
      | None => None
      | Some (w', p') => Some (w', p', match p' with Outside holds => Some holds | _ => None end)
      end
  end.

Definition kmutex_lock_entry : pc := InLock false true KWAIT_FOREVER LockStart.
Definition kmutex_lock_timeout_entry (timeout_ticks : Z) : pc := InLock false false timeout_ticks LockStart.
Definition kmutex_unlock_entry : pc := InUnlock true (UnlockSpin SpinTry).

Definition kdebug_mutex_timeout_task (c : choice) (x : timeout_pc) (p : pc) (w : world) (ctx : timeout_ctx)
    : option (world * timeout_ctx * (timeout_pc * pc)) :=
  match x with
  | WorkerLock =>
      match mutex_call 1 c (kmutex_lock_timeout_entry 5) p w with
      | None => None
      | Some (w', p', r) => Some (w', ctx, (match r with Some acquired => WorkerSetAcquired acquired | None => WorkerLock end, p'))
      end
  | WorkerSetAcquired acquired =>
      Some (w, mk_timeout_ctx (worker_done ctx) acquired (worker_timed_out ctx), (WorkerSetTimedOut acquired, p))
  | WorkerSetTimedOut acquired =>
      Some (w, mk_timeout_ctx (worker_done ctx) (worker_acquired ctx) (negb acquired), (if acquired then WorkerUnlock else WorkerSetDone, p))
  | WorkerUnlock =>
      match mutex_call 1 c kmutex_unlock_entry p w with
      | None => None
      | Some (w', p', r) => Some (w', ctx, (match r with Some _ => WorkerSetDone | None => WorkerUnlock end, p'))
      end
  | WorkerSetDone => Some (w, mk_timeout_ctx true (worker_acquired ctx) (worker_timed_out ctx), (WorkerExited, p))
  | WorkerExited => None
  end.

Definition timeout_limit : Z := 100.

(** A step of the test; [c] is the choice of the mutex, [ok] what the scheduler answers. *)
Definition kdebug_test_mutex_timeout (c : choice) (ok : bool) (s : timeout_config) : option timeout_config :=
  let '(mk_timeout w ctx m p t) := s in
  let at_ m' := Some (mk_timeout w ctx m' p t) in
  let call entry next :=
    match mutex_call 0 c entry p w with
    | None => None
    | Some (w', p', r) => Some (mk_timeout w' ctx (match r with Some _ => next | None => m end) p' t)
    end in
  match m with
  | MainLock => call kmutex_lock_entry MainCreate
  | MainCreate =>
      if ok then Some (mk_timeout w ctx MainStart p (Some (WorkerLock, Outside false))) else at_ MainFailed
  | MainFailed => call kmutex_unlock_entry (MainReturned false None)
  | MainStart => at_ (MainWait (ticks w))
  | MainWait start => at_ (if negb (worker_done ctx) then MainClock start else MainUnlock false)
  | MainClock start => at_ (if u32 (ticks w - start) <? timeout_limit then MainSleep start else MainUnlock true)
  | MainSleep start => at_ (MainWait start)
  | MainUnlock late => call kmutex_unlock_entry (MainDone late)
  | MainDone late => at_ (MainAcquired late (worker_done ctx))
  | MainAcquired late pass => at_ (MainTimedOut late (pass && negb (worker_acquired ctx)))
  | MainTimedOut late pass => at_ (MainReap late (pass && worker_timed_out ctx))
  | MainReap late pass => at_ (MainPrint late (pass && ok) ok [])
  | MainPrint late pass reaped found =>
      at_ (match found with
           | [] => MainPrint late pass reaped [worker_done ctx]
           | [d] => MainPrint late pass reaped [d; worker_acquired ctx]
           | d :: a :: _ => MainReturned pass (Some (late, reaped, [d; a; worker_timed_out ctx]))
           end)
  | MainReturned _ _ => None
  end.

(** Who takes the next step. *)
Inductive timeout_event : Type :=
| StepWorker (c : choice)
| StepMain (c : choice) (ok : bool)
| StepClock.

Definition timeout_step (e : timeout_event) (s : timeout_config) : option timeout_config :=
  match e with
  | StepWorker c =>
      match o_worker s with
      | None => None
      | Some (x, p) =>
          match kdebug_mutex_timeout_task c x p (o_world s) (o_ctx s) with
          | None => None
          | Some (w', ctx', t) => Some (mk_timeout w' ctx' (o_main s) (o_main_at s) (Some t))
          end
      end
  | StepMain c ok => kdebug_test_mutex_timeout c ok s
  | StepClock => Some (mk_timeout (world_tick (o_world s)) (o_ctx s) (o_main s) (o_main_at s) (o_worker s))
  end.

Definition timeout_start (w : world) : timeout_config :=
  mk_timeout (on_mutex kmutex_init w) (mk_timeout_ctx false false false) MainLock (Outside false) None.

Inductive timeout_reachable (w : world) : timeout_config -> Prop :=
| timeout_first : timeout_reachable w (timeout_start w)
| timeout_next s e s' : timeout_reachable w s -> timeout_step e s = Some s' -> timeout_reachable w s'.

(** ** The calls *)

Context (tid_inj : Inj (=) (=) tid).
Definition mutex_timing (p : pc) : Prop := exists q, p = InLock false false 5 q.

Lemma mutex_call_inv w ts i c k entry h p w' p' r :
  inv tid (mk_config w ts) -> Z.of_nat (length ts) < 2 ^ 32 -> ts !! i = Some p ->
  call k h = Some entry -> (p = Outside h \/ forall b, p <> Outside b) -> mutex_call i c entry p w = Some (w', p', r) ->
  inv tid (mk_config w' (<[i := p']> ts)) /\
  ((p = Outside h /\ p' = entry /\ r = None) \/
   (task_step tid i c p w = Some (w', p') /\ (forall b, p <> Outside b) /\ r = match p' with Outside b => Some b | _ => None end)).
Proof.
  intros I Hl Hi Hc [->|Hn] Hm.
  - injection Hm as <- <- <-. split; [|by left]. eapply (inv_task tid tid_inj (mk_config w ts) i (Outside h) k); [done|done|done|]. simpl. by rewrite Hc.
  - assert (Hs : exists w1 p1, task_step tid i c p w = Some (w1, p1) /\ w' = w1 /\ p' = p1 /\ r = match p1 with Outside b => Some b | _ => None end).
    { unfold mutex_call in Hm. destruct p; [by destruct (Hn holds)|..]; destruct (task_step _ _ _ _ _) as [[w1 p1]|]; simplify_eq; eauto 6. }
    destruct Hs as (w1 & p1 & Hs & -> & -> & ->). split; [by eapply (inv_task tid tid_inj (mk_config w ts))|]. by right.
Qed.

Lemma call_lock w ts i p c w' p' r :
  inv tid (mk_config w ts) -> Z.of_nat (length ts) < 2 ^ 32 -> ts !! i = Some p -> p = Outside false \/ mutex_locking p ->
  mutex_call i c kmutex_lock_entry p w = Some (w', p', r) ->
  inv tid (mk_config w' (<[i := p']> ts)) /\ ((r = None /\ mutex_locking p') \/ (r = Some true /\ p' = Outside true)).
Proof.
  intros I Hl Hi Hp Hm. destruct (mutex_call_inv w ts i c (CallLock false) _ false p w' p' r I Hl Hi eq_refl) as [I' Hr]; [|done|].
  { destruct Hp as [->|[q ->]]; [by left|by right]. }
  split; [done|]. destruct Hr as [(_ & -> & ->)|(Hs & Hn & ->)]; [left; split; [done|by eexists]|].
  destruct Hp as [->|Hp]; [by destruct (Hn false)|]. destruct (locking_step tid tid_inj w ts i p c w' p' I Hl Hi Hs Hp) as [->|[q ->]]; [by right|left].
  split; [done|by eexists].
Qed.
Lemma call_unlock w ts i p c w' p' r :
  inv tid (mk_config w ts) -> Z.of_nat (length ts) < 2 ^ 32 -> ts !! i = Some p -> p = Outside true \/ mutex_unlocking p ->
  mutex_call i c kmutex_unlock_entry p w = Some (w', p', r) ->
  inv tid (mk_config w' (<[i := p']> ts)) /\ ((r = None /\ mutex_unlocking p') \/ (r = Some false /\ p' = Outside false)).
Proof.
  intros I Hl Hi Hp Hm. destruct (mutex_call_inv w ts i c (CallUnlock false) _ true p w' p' r I Hl Hi eq_refl) as [I' Hr]; [|done|].
  { destruct Hp as [->|[q ->]]; [by left|by right]. }
  split; [done|]. destruct Hr as [(_ & -> & ->)|(Hs & Hn & ->)]; [left; split; [done|by eexists]|].
  destruct Hp as [->|Hp]; [by destruct (Hn true)|]. destruct (unlocking_step tid tid_inj w ts i p c w' p' I Hl Hi Hs Hp) as [->|[q ->]]; [by right|left].
  split; [done|by eexists].
Qed.
Lemma call_timed w ts i p c w' p' r :
  inv tid (mk_config w ts) -> Z.of_nat (length ts) < 2 ^ 32 -> ts !! i = Some p -> p = Outside false \/ mutex_timing p ->
  mutex_call i c (kmutex_lock_timeout_entry 5) p w = Some (w', p', r) ->
  inv tid (mk_config w' (<[i := p']> ts)) /\ ((r = None /\ mutex_timing p') \/ exists b, r = Some b /\ p' = Outside b).
Proof.
  intros I Hl Hi Hp Hm. destruct (mutex_call_inv w ts i c (CallLockTimeout false 5) _ false p w' p' r I Hl Hi eq_refl) as [I' Hr]; [|done|].
  { destruct Hp as [->|[q ->]]; [by left|by right]. }
  split; [done|]. destruct Hr as [(_ & -> & ->)|(Hs & Hn & ->)]; [left; split; [done|by eexists]|].
  destruct Hp as [->|[q ->]]; [by destruct (Hn false)|].
  pose proof (inv_task_knows tid tid_inj (mk_config w ts) i _ c w' p' I Hl Hi Hs) as Hk. simpl in Hs.
  destruct (lock_step tid i 5 c q w) as [[w1 [q'|b|why]]|] eqn:E; [..|done]; injection Hs as <- <-; simpl in *.
  - left. split; [done|by eexists].
  - right. by exists b.
  - by apply lock_step_dies in E as [->| ->].
Qed.

(** ** The invariant *)

Definition both (p : pc) (t : option (timeout_pc * pc)) : list pc := p :: match t with Some x => [x.2] | None => [] end.

(** Where the test's and the worker's task are in the mutex. *)
Definition main_at (m : timeout_main) (p : pc) : Prop :=
  match m with
  | MainLock => p = Outside false \/ mutex_locking p
  | MainCreate | MainStart | MainWait _ | MainClock _ | MainSleep _ => p = Outside true
  | MainFailed | MainUnlock _ => p = Outside true \/ mutex_unlocking p
  | _ => p = Outside false
  end.
Definition worker_at (t : timeout_pc * pc) : Prop :=
  match t.1 with
  | WorkerLock => t.2 = Outside false \/ mutex_timing t.2
  | WorkerSetAcquired a | WorkerSetTimedOut a => t.2 = Outside a
  | WorkerUnlock => t.2 = Outside true \/ mutex_unlocking t.2
  | WorkerSetDone | WorkerExited => t.2 = Outside false
  end.

(** The worker has not got the mutex. *)
Definition excluded (ctx : timeout_ctx) (t : option (timeout_pc * pc)) : Prop :=
  worker_acquired ctx = false /\
  match t with
  | None => True
  | Some (x, _) =>
      match x with
      | WorkerLock => True
      | WorkerSetAcquired a | WorkerSetTimedOut a => a = false
      | WorkerUnlock => False
      | WorkerSetDone | WorkerExited => worker_timed_out ctx = true
      end
  end.
Definition timed_out (ctx : timeout_ctx) : Prop := ctx = mk_timeout_ctx true false true.

(** What the test has found is still so. *)
Definition main_knows (ctx : timeout_ctx) (m : timeout_main) : Prop :=
  match m with
  | MainUnlock late | MainDone late => late = false -> timed_out ctx
  | MainAcquired late pass => (late = false -> timed_out ctx /\ pass = true) /\ (pass = true -> worker_done ctx = true)
  | MainTimedOut late pass => (late = false -> timed_out ctx /\ pass = true) /\ (pass = true -> worker_done ctx = true /\ worker_acquired ctx = false)
  | MainReap late pass => (late = false -> pass = true) /\ (pass = true -> timed_out ctx)
  | MainPrint late pass reaped found =>
      (late = false -> pass = reaped) /\ (pass = true -> reaped = true) /\
      (late = false \/ pass = true -> timed_out ctx /\ (found = [] \/ found = [true] \/ found = [true; false]))
  | MainReturned pass (Some (late, reaped, found)) =>
      (late = false -> pass = reaped) /\ (pass = true -> reaped = true) /\ (late = false \/ pass = true -> found = [true; false; true])
  | MainReturned pass None => pass = false
  | _ => True
  end.

Definition has_worker (m : timeout_main) : bool :=
  match m with MainLock | MainCreate | MainFailed | MainReturned _ None => false | _ => true end.

Record timing (s : timeout_config) : Prop := {
  tm_inv : inv tid (mk_config (o_world s) (both (o_main_at s) (o_worker s)));
  tm_main : main_at (o_main s) (o_main_at s);
  tm_worker t : o_worker s = Some t -> worker_at t;
  tm_exists : o_worker s = None <-> has_worker (o_main s) = false;
  tm_none : o_worker s = None -> o_ctx s = mk_timeout_ctx false false false;
  tm_done : worker_done (o_ctx s) = true -> exists p, o_worker s = Some (WorkerExited, p);
  tm_excluded : o_main_at s = Outside true -> excluded (o_ctx s) (o_worker s);
  tm_knows : main_knows (o_ctx s) (o_main s)
}.

Lemma both_short p t : Z.of_nat (length (both p t)) < 2 ^ 32.
Proof. destruct t; simpl; lia. Qed.

(** The worker holds the mutex only when the test does not. *)
Lemma not_both (w : world (Ch := Ch)) p x : inv tid (mk_config w (both p (Some (x, Outside true)))) -> p <> Outside true.
Proof. intros I ->. by pose proof (inv_unique tid _ I 0%nat 1%nat (Outside true) (Outside true) eq_refl eq_refl eq_refl eq_refl). Qed.

(** While the worker is not done the test has found nothing. *)
Lemma knows_early ctx ctx' m : worker_done ctx = false -> main_knows ctx m -> main_knows ctx' m.
Proof.
  intros Hd. assert (Ht : ~ timed_out ctx) by (intros ->; done).
  destruct m as [| | | | | | |l|l|l q|l q|l q|l q r f|q [[[]]|]]; simpl; try done; try destruct l; try destruct q; intuition congruence.
Qed.

Lemma timing_move w ctx m q x p w' ctx' y p' :
  timing (mk_timeout w ctx m q (Some (x, p))) -> x <> WorkerExited ->
  inv tid (mk_config w' (both q (Some (y, p')))) -> worker_at (y, p') -> (worker_done ctx' = true -> worker_done ctx = true \/ y = WorkerExited) ->
  (q = Outside true -> excluded ctx (Some (x, p)) -> excluded ctx' (Some (y, p'))) -> timing (mk_timeout w' ctx' m q (Some (y, p'))).
Proof.
  intros [I M A E N D X K] Hx I' A' D' X'. simpl in *.
  assert (Hd : worker_done ctx = false) by (destruct (worker_done ctx); [|done]; destruct (D eq_refl) as [? [=]]; done).
  split; simpl; try done.
  - by intros t [= <-].
  - split; [done|]. intros Hm. apply E in Hm. done.
  - intros Ht. destruct (D' Ht) as [?| ->]; [congruence|by eexists].
  - intros Hq. apply X'; [done|]. by apply X.
  - by apply (knows_early ctx).
Qed.

Lemma timing_worker w ctx m q c x p w' ctx' t :
  timing (mk_timeout w ctx m q (Some (x, p))) -> kdebug_mutex_timeout_task c x p w ctx = Some (w', ctx', t) ->
  timing (mk_timeout w' ctx' m q (Some t)).
Proof.
  intros T Hs. assert (Hx : x <> WorkerExited) by (by intros ->).
  pose proof (tm_inv _ T) as I. pose proof (tm_worker _ T _ eq_refl) as A. unfold worker_at in A.
  destruct x; simpl in Hs, A, I.
  - destruct (mutex_call _ _ _ _ _) as [[[w1 p1] r]|] eqn:Ec; [|done]. injection Hs as <- <- <-.
    destruct (call_timed _ _ 1%nat p _ _ _ _ I (both_short q (Some (WorkerLock, p))) eq_refl A Ec) as [I' Hr].
    destruct Hr as [[-> Ht]|(b & -> & ->)]; apply (timing_move _ _ _ _ _ _ _ _ _ _ T Hx I'); try done; [by right|by left|by left|].
    intros Hq [Ha _]. split; [done|]. destruct b; [|done]. by destruct (not_both _ _ WorkerExited I').
  - injection Hs as <- <- <-. apply (timing_move _ _ _ _ _ _ _ _ _ _ T Hx); [exact I|exact A|by left|]. intros _ [_ ->]. done.
  - injection Hs as <- <- <-. destruct acquired; simpl in A.
    + apply (timing_move _ _ _ _ _ _ _ _ _ _ T Hx); [exact I|by left|by left|]. by intros _ [_ ?].
    + apply (timing_move _ _ _ _ _ _ _ _ _ _ T Hx); [exact I|exact A|by left|]. by intros _ [? _].
  - destruct (mutex_call _ _ _ _ _) as [[[w1 p1] r]|] eqn:Ec; [|done]. injection Hs as <- <- <-.
    destruct (call_unlock _ _ 1%nat p _ _ _ _ I (both_short q (Some (WorkerUnlock, p))) eq_refl A Ec) as [I' Hr].
    destruct Hr as [[-> Ht]|[-> ->]]; apply (timing_move _ _ _ _ _ _ _ _ _ _ T Hx I'); try done; try (by left); try (by right); by intros _ [].
  - injection Hs as <- <- <-. apply (timing_move _ _ _ _ _ _ _ _ _ _ T Hx); [exact I|exact A|by right|done].
  - done.
Qed.

(** A step of the test outside of the mutex, and one inside. *)
Lemma timing_at w ctx m p t m' :
  timing (mk_timeout w ctx m p t) -> main_at m' p -> has_worker m' = has_worker m -> main_knows ctx m' -> timing (mk_timeout w ctx m' p t).
Proof. intros [I M A E N D X K] M' Hh K'. split; simpl in *; try done. by rewrite Hh. Qed.

Lemma timing_call w ctx m p t w' m' p' :
  timing (mk_timeout w ctx m p t) -> inv tid (mk_config w' (<[0%nat := p']> (both p t))) -> main_at m' p' ->
  has_worker m' = has_worker m -> (p' = Outside true -> t = None) -> main_knows ctx m' -> timing (mk_timeout w' ctx m' p' t).
Proof.
  intros [I M A E N D X K] I' M' Hh Hp K'. split; simpl in *; try done; [by rewrite Hh|].
  intros Ht. rewrite (Hp Ht). split; [|done]. by rewrite (N (Hp Ht)).
Qed.

Lemma timing_main c ok s s' : timing s -> kdebug_test_mutex_timeout c ok s = Some s' -> timing s'.
Proof.
  intros T Hs. destruct s as [w ctx m p t]. pose proof (tm_inv _ T) as I. pose proof (tm_main _ T) as M. pose proof (tm_knows _ T) as K. pose proof (tm_exists _ T) as E.
  simpl in Hs, I, M, K, E.
  assert (Hdone : p = Outside true -> worker_done ctx = true -> timed_out ctx).
  { intros Hp Hd. destruct (tm_excluded _ T Hp) as [Ha Hx]. destruct (tm_done _ T Hd) as [q Hq]. simpl in *. rewrite Hq in Hx.
    destruct ctx as [d a o]. simpl in *. by subst. }
  destruct m; simpl in Hs, M, K, E.
  - destruct (mutex_call _ _ _ _ _) as [[[w1 p1] r]|] eqn:Ec; [|done]. injection Hs as <-. assert (t = None) as -> by (by apply E).
    destruct (call_lock _ _ 0%nat p _ _ _ _ I (both_short p None) eq_refl M Ec) as [I' [[-> Hl]|[-> ->]]];
      apply (timing_call _ _ _ _ _ _ _ _ T I'); try done. by right.
  - assert (t = None) as -> by (by apply E). destruct ok; injection Hs as <-; [|apply (timing_at _ _ _ _ _ _ T); [by left|done|done]].
    destruct T as [_ _ A _ N D X _]. simpl in *. split; simpl; try done.
    + subst p. by apply (inv_spawn tid w [Outside true]).
    + by intros t' [= <-]; left.
    + intros Hd. rewrite (N eq_refl) in Hd. done.
  - destruct (mutex_call _ _ _ _ _) as [[[w1 p1] r]|] eqn:Ec; [|done]. injection Hs as <-. assert (t = None) as -> by (by apply E).
    destruct (call_unlock _ _ 0%nat p _ _ _ _ I (both_short p None) eq_refl M Ec) as [I' [[-> Hl]|[-> ->]]];
      apply (timing_call _ _ _ _ _ _ _ _ T I'); try done. by right.
  - injection Hs as <-. by apply (timing_at _ _ _ _ _ _ T).
  - injection Hs as <-. destruct (worker_done ctx) eqn:Hd; apply (timing_at _ _ _ _ _ _ T); try done; [by left|]. intros _. by apply Hdone.
  - injection Hs as <-. destruct (_ <? _); apply (timing_at _ _ _ _ _ _ T); try done. by left.
  - injection Hs as <-. by apply (timing_at _ _ _ _ _ _ T).
  - destruct (mutex_call _ _ _ _ _) as [[[w1 p1] r]|] eqn:Ec; [|done]. injection Hs as <-.
    destruct (call_unlock _ _ 0%nat p _ _ _ _ I (both_short p t) eq_refl M Ec) as [I' [[-> [q ->]]|[-> ->]]];
      apply (timing_call _ _ _ _ _ _ _ _ T I'); try done. right. by eexists.
  - injection Hs as <-. apply (timing_at _ _ _ _ _ _ T); try done. split; [|done]. intros Hl. split; [by apply K|]. by rewrite (K Hl).
  - injection Hs as <-. apply (timing_at _ _ _ _ _ _ T); try done. destruct K as [K1 K2]. split.
    + intros Hl. destruct (K1 Hl) as [Kt ->]. split; [done|]. by rewrite Kt.
    + intros [Hp Ha]%andb_true_iff. apply negb_true_iff in Ha. auto.
  - injection Hs as <-. apply (timing_at _ _ _ _ _ _ T); try done. destruct K as [K1 K2]. split.
    + intros Hl. destruct (K1 Hl) as [Kt ->]. by rewrite Kt.
    + intros [Hp Ha]%andb_true_iff. destruct (K2 Hp) as [Kd Ka]. destruct ctx as [d a o]. simpl in *. by subst.
  - injection Hs as <-. apply (timing_at _ _ _ _ _ _ T); try done. destruct K as [K1 K2]. split_and!.
    + intros Hl. by rewrite (K1 Hl).
    + by intros [_ ?]%andb_true_iff.
    + intros Hl. split; [|by left]. apply K2. destruct Hl as [Hl|[Hl _]%andb_true_iff]; auto.
  - injection Hs as <-. destruct K as (K1 & K2 & K3). apply (timing_at _ _ _ _ _ _ T); try done; destruct found as [|d [|a l]]; try done; simpl; split_and!; try done;
      intros Hl; destruct (K3 Hl) as [-> [Hf|[Hf|Hf]]]; simplify_eq; try (split; [done|]); simpl; auto.
  - done.
Qed.

Lemma timeout_reachable_inv w s : timeout_reachable w s -> timing s.
Proof.
  induction 1 as [|s e s' _ IH Hs].
  - split; simpl; try done; [|by left]. split; simpl; try done; try (by left); try (by intros [|i]; naive_solver).
  - destruct e as [c|c ok|]; simpl in Hs.
    + destruct s as [w1 ctx m q [[x p]|]]; [|done]. simpl in Hs. destruct (kdebug_mutex_timeout_task _ _ _ _ _) as [[[w' ctx'] t]|] eqn:E; [|done].
      injection Hs as <-. by eapply timing_worker.
    + by eapply timing_main.
    + injection Hs as <-. destruct IH as [I M A E N D X K]. split; simpl; try done. exact (inv_tick tid (mk_config _ _) I).
Qed.
End Timeout.
Arguments timeout_config Ch : clear implicits.

(** In every interleaving of the test, its worker and the clock, [kdebug_test_mutex_timeout]
    finds the worker done, without the mutex and timed out, and passes exactly if the
    zombies were reaped, unless its own loop ran out of time; and it passes only then.
    Neither task panics. *)
Theorem kdebug_mutex_timeout_correct {Ch} `{WaitChannel Ch} (tid : nat -> Z) `{!Inj (=) (=) tid} (w : world (Ch := Ch)) s :
  timeout_reachable tid w s ->
  (forall pass late reaped found, o_main s = MainReturned pass (Some (late, reaped, found)) ->
     (late = false -> found = [true; false; true] /\ pass = reaped) /\ (pass = true -> found = [true; false; true] /\ reaped = true)) /\
  (forall h why, o_main_at s <> Panicked h why /\ forall x, o_worker s <> Some (x, Panicked h why)).
Proof.
  intros [I M A _ _ _ _ K]%timeout_reachable_inv; [|done]. split.
  - intros pass late reaped found Hm. rewrite Hm in K. simpl in K. destruct K as (K1 & K2 & K3). split; intros Hl; split; auto.
  - intros h why. split; [intros Hp; rewrite Hp in M; unfold main_at, mutex_locking, mutex_unlocking in M; destruct (o_main s); naive_solver|].
    intros x Hx. pose proof (A _ Hx) as Hw. unfold worker_at, mutex_timing, mutex_unlocking in Hw. destruct x; simpl in Hw; naive_solver.
Qed.

Fixpoint timeout_run {Ch} `{WaitChannel Ch} (tid : nat -> Z) (l : list timeout_event) (s : timeout_config Ch) : option (timeout_config Ch) :=
  match l with
  | [] => Some s
  | e :: l' => match timeout_step tid e s with None => None | Some s' => timeout_run tid l' s' end
  end.

(** The test takes the mutex, the worker waits and times out. *)
Definition timeout_events : list timeout_event :=
  let go := StepMain Continue true in let work := StepWorker Continue in
  replicate 9 go ++ replicate 11 work ++ [StepWorker Expire] ++ replicate 8 work ++ replicate 17 go.

Lemma timeout_run_reachable {Ch} `{WaitChannel Ch} tid (w : world (Ch := Ch)) l s :
  timeout_run tid l (timeout_start w) = Some s -> timeout_reachable tid w s.
Proof.
  assert (Hgo : forall s0, timeout_reachable tid w s0 -> timeout_run tid l s0 = Some s -> timeout_reachable tid w s).
  { induction l as [|e l IH]; intros s0 H0 Hr; simpl in Hr; [by injection Hr as <-|].
    destruct (timeout_step tid e s0) as [s1|] eqn:E; [|done]. apply (IH s1); [|done]. by eapply timeout_next. }
  apply Hgo. constructor.
Qed.

Lemma timeout_sample : exists s, timeout_reachable task_number sample_world s /\ o_main s = MainReturned true (Some (false, true, [true; false; true])).
Proof.
  assert (H : o_main <$> timeout_run task_number timeout_events (timeout_start sample_world) = Some (MainReturned true (Some (false, true, [true; false; true])))) by (by vm_compute).
  destruct (timeout_run _ _ _) as [s|] eqn:E; [|done]. injection H as H. exists s. split; [|done]. by eapply timeout_run_reachable.
Qed.

Lemma kdebug_mutex_timeout_correct_witness :
  exists s, timeout_reachable task_number sample_world s /\ o_main s = MainReturned true (Some (false, true, [true; false; true])) /\ true = true.
Proof.
  destruct timeout_sample as (s & Hr & Hm). exists s. split; [exact Hr|]. split; [exact Hm|].
  destruct (kdebug_mutex_timeout_correct task_number sample_world s Hr) as (H1 & _).
  exact (proj2 (proj1 (H1 true false true _ Hm) eq_refl)).
Defined.
