(* ===== verification/KdebugWake.v ===== *)
(** The self test of kernel/kdebug.c that wakes a waiter of a condition:
    [kdebug_test_wait_queue_wake] with [kdebug_sync_waiter_task] and
    [kdebug_sync_signaler_task], as a machine over the spin lock and the condition of
    Sync.v, and what the test finds in every interleaving. *)
From S2P Require Import Prelude SchedData Sync SyncSpec KdebugTasks KdebugTasksSpec.
From Stdlib Require Import ZArith Lia.
From stdpp Require Import relations.
Open Scope Z_scope.

(** [kdebug_sync_condition_ctx_t]; its lock and its condition are those of [mutex]. *)
Record wake_ctx : Type := mk_wake_ctx {
  ready : bool;
  waiter_done : bool;
  waiter_woke : bool;
  waiter_timed_out : bool
}.

Inductive waiter_pc : Type :=
| WaiterLock (p : spin_pc)
| WaiterTest
| WaiterWait (p : cond_pc)
| WaiterTimedOut
| WaiterRead
| WaiterSetWoke (r : bool)
| WaiterSetDone
| WaiterUnlock
| WaiterExited
| WaiterPanicked (why : panic_reason).

Inductive signaler_pc : Type :=
| SignalerSleep
| SignalerLock (p : spin_pc)
| SignalerReady
| SignalerSequence
| SignalerWake
| SignalerUnlock
| SignalerExited.

(** The test.  [late]: its loop ended because the time was up. *)
Inductive wake_main : Type :=
| WakeCreateWaiter
| WakeCreateSignaler
| WakeStart
| WakeWait (start_tick : Z)
| WakeClock (start_tick : Z)
| WakeSleep (start_tick : Z)
| WakeDone (late : bool)
| WakeWoke (late pass : bool)
| WakeTimedOut (late pass : bool)
| WakeReap (late pass : bool)
| WakePrint (late pass reaped : bool) (found : list bool)
| WakeReturned (pass : bool) (report : option (bool * bool * list bool)).

Section Wake.
Context {Ch : Type} `{WaitChannel Ch}.

Record wake_config : Type := mk_wake {
  k_world : world (Ch := Ch);
  k_ctx : wake_ctx;
  k_waiter : option waiter_pc;
  k_signaler : option signaler_pc;
  k_main : wake_main
}.

(** The waiter is task 0 of the condition's channel. *)
Definition kdebug_sync_waiter_task (c : choice) (x : waiter_pc) (w : world) (ctx : wake_ctx) : option (world * wake_ctx * waiter_pc) :=
  match x with
  | WaiterLock p =>
      let '(w', n) := spin_step p w in
      Some (w', ctx, match n with Go p' => WaiterLock p' | Return _ => WaiterTest | Die why => WaiterPanicked why end)
  | WaiterTest => Some (w, ctx, if negb (ready ctx) then WaiterWait CondObserve else WaiterRead)
  | WaiterWait p =>
      match cond_step 0 50 c p w with
      | None => None
      | Some (w', n) =>
          Some (w', ctx, match n with
                         | Go p' => WaiterWait p'
                         | Return signaled => if negb signaled then WaiterTimedOut else WaiterTest
                         | Die why => WaiterPanicked why
                         end)
      end
  | WaiterTimedOut => Some (w, mk_wake_ctx (ready ctx) (waiter_done ctx) (waiter_woke ctx) true, WaiterRead)
  | WaiterRead => Some (w, ctx, WaiterSetWoke (ready ctx))
  | WaiterSetWoke r => Some (w, mk_wake_ctx (ready ctx) (waiter_done ctx) r (waiter_timed_out ctx), WaiterSetDone)
  | WaiterSetDone => Some (w, mk_wake_ctx (ready ctx) true (waiter_woke ctx) (waiter_timed_out ctx), WaiterUnlock)
  | WaiterUnlock => Some (on_mutex release_spin w, ctx, WaiterExited)
  | WaiterExited | WaiterPanicked _ => None
  end.

(** [kcondition_signal] is two accesses. *)
Definition kdebug_sync_signaler_task (x : signaler_pc) (w : world) (ctx : wake_ctx) : option (world * wake_ctx * signaler_pc) :=
  match x with
  | SignalerSleep => Some (w, ctx, SignalerLock SpinTry)
  | SignalerLock p =>
      let '(w', n) := spin_step p w in
      Some (w', ctx, match n with Go p' => SignalerLock p' | Return _ => SignalerReady | Die _ => SignalerLock p end)
  | SignalerReady => Some (w, mk_wake_ctx true (waiter_done ctx) (waiter_woke ctx) (waiter_timed_out ctx), SignalerSequence)
  | SignalerSequence => Some (on_mutex signal_sequence w, ctx, SignalerWake)
  | SignalerWake => Some (kwait_wake_one w, ctx, SignalerUnlock)
  | SignalerUnlock => Some (on_mutex release_spin w, ctx, SignalerExited)
  | SignalerExited => None
  end.

Definition wake_limit : Z := 200.

Definition kdebug_test_wait_queue_wake (ok : bool) (s : wake_config) : option wake_config :=
  let '(mk_wake w ctx a b m) := s in
  let at_ m' := Some (mk_wake w ctx a b m') in
  match m with
  | WakeCreateWaiter =>
      if ok then Some (mk_wake w ctx (Some (WaiterLock SpinTry)) b WakeCreateSignaler) else at_ (WakeReturned false None)
  | WakeCreateSignaler =>
      if ok then Some (mk_wake w ctx a (Some SignalerSleep) WakeStart) else at_ (WakeReturned false None)
  | WakeStart => at_ (WakeWait (ticks w))
  | WakeWait start => at_ (if negb (waiter_done ctx) then WakeClock start else WakeDone false)
  | WakeClock start => at_ (if u32 (ticks w - start) <? wake_limit then WakeSleep start else WakeDone true)
  | WakeSleep start => at_ (WakeWait start)
  | WakeDone late => at_ (WakeWoke late (waiter_done ctx))
  | WakeWoke late pass => at_ (WakeTimedOut late (pass && waiter_woke ctx))
  | WakeTimedOut late pass => at_ (WakeReap late (pass && negb (waiter_timed_out ctx)))
  | WakeReap late pass => at_ (WakePrint late (pass && ok) ok [])
  | WakePrint late pass reaped found =>
      at_ (match found with
           | [] => WakePrint late pass reaped [waiter_done ctx]
           | [d] => WakePrint late pass reaped [d; waiter_woke ctx]
           | d :: k :: _ => WakeReturned pass (Some (late, reaped, [d; k; waiter_timed_out ctx]))
           end)
  | WakeReturned _ _ => None
  end.

(** Who takes the next step. *)
Inductive wake_event : Type :=
| RunWaiter (c : choice)
| RunSignaler
| RunMain (ok : bool)
| RunClock.

Definition wake_step (e : wake_event) (s : wake_config) : option wake_config :=
  match e with
  | RunWaiter c =>
      match k_waiter s with
      | None => None
      | Some x =>
          match kdebug_sync_waiter_task c x (k_world s) (k_ctx s) with
          | None => None
          | Some (w', ctx', x') => Some (mk_wake w' ctx' (Some x') (k_signaler s) (k_main s))
          end
      end
  | RunSignaler =>
      match k_signaler s with
      | None => None
      | Some x =>
          match kdebug_sync_signaler_task x (k_world s) (k_ctx s) with
          | None => None
          | Some (w', ctx', x') => Some (mk_wake w' ctx' (k_waiter s) (Some x') (k_main s))
          end
      end
  | RunMain ok => kdebug_test_wait_queue_wake ok s
  | RunClock => Some (mk_wake (world_tick (k_world s)) (k_ctx s) (k_waiter s) (k_signaler s) (k_main s))
  end.

Definition wake_start (w : world) : wake_config :=
  mk_wake (on_mutex (fun m => kcondition_init (set_lock_value 0 m)) w) (mk_wake_ctx false false false false) None None WakeCreateWaiter.

Inductive wake_reachable (w : world) : wake_config -> Prop :=
| wake_first : wake_reachable w (wake_start w)
| wake_next s e s' : wake_reachable w s -> wake_step e s = Some s' -> wake_reachable w s'.

(** ** The invariant *)

(** Who has the lock, and whether the waiter is counted in the queue. *)
Definition waiter_has (x : waiter_pc) : bool :=
  match x with
  | WaiterWait p => spin_cond p
  | WaiterTest | WaiterTimedOut | WaiterRead | WaiterSetWoke _ | WaiterSetDone | WaiterUnlock => true
  | _ => false
  end.
Definition waiter_counted (x : waiter_pc) : bool :=
  match x with WaiterWait (CondWait _ p) => match p with WaitEnter => false | _ => true end | _ => false end.
Definition signaler_has (x : signaler_pc) : bool :=
  match x with SignalerReady | SignalerSequence | SignalerWake | SignalerUnlock => true | _ => false end.
Definition one (b : bool) : Z := if b then 1 else 0.
Definition holds_lock {A} (f : A -> bool) (x : option A) : Z := one (match x with Some a => f a | None => false end).

(** What the waiter has found out. *)
Definition waiter_knows (ctx : wake_ctx) (x : waiter_pc) : Prop :=
  (match x with WaiterUnlock | WaiterExited => True | _ => waiter_done ctx = false end) /\
  match x with
  | WaiterRead => waiter_timed_out ctx = false -> ready ctx = true
  | WaiterSetWoke r => (waiter_timed_out ctx = false -> r = true) /\ (r = true -> ready ctx = true)
  | WaiterSetDone | WaiterUnlock | WaiterExited =>
      (waiter_timed_out ctx = false -> waiter_woke ctx = true) /\ (waiter_woke ctx = true -> ready ctx = true)
  | WaiterPanicked _ => False
  | _ => waiter_timed_out ctx = false
  end.

(** What the test has found is still so. *)
Definition main_found (ctx : wake_ctx) (m : wake_main) : Prop :=
  let good := waiter_done ctx = true /\ waiter_woke ctx = true /\ waiter_timed_out ctx = false in
  match m with
  | WakeDone late => late = false -> waiter_done ctx = true
  | WakeWoke late pass => (late = false -> waiter_done ctx = true /\ pass = true) /\ (pass = true -> waiter_done ctx = true)
  | WakeTimedOut late pass => (late = false -> waiter_done ctx = true /\ pass = waiter_woke ctx) /\ (pass = true -> waiter_done ctx = true /\ waiter_woke ctx = true)
  | WakeReap late pass => (late = false -> waiter_done ctx = true /\ pass = waiter_woke ctx && negb (waiter_timed_out ctx)) /\ (pass = true -> good)
  | WakePrint late pass reaped found =>
      (late = false -> waiter_done ctx = true /\ pass = (waiter_woke ctx && negb (waiter_timed_out ctx)) && reaped) /\ (pass = true -> good /\ reaped = true) /\
      (waiter_done ctx = true -> late = false \/ pass = true -> found = [] \/ found = [true] \/ found = [true; waiter_woke ctx])
  | WakeReturned pass (Some (late, reaped, found)) =>
      (late = false -> exists woke out, found = [true; woke; out] /\ pass = (woke && negb out) && reaped /\ (out = false -> woke = true)) /\
      (pass = true -> found = [true; true; false] /\ reaped = true)
  | WakeReturned pass None => pass = false
  | _ => True
  end.

Record waking (s : wake_config) : Prop := {
  wk_lock : lock_value (mutex (k_world s)) = holds_lock waiter_has (k_waiter s) + holds_lock signaler_has (k_signaler s);
  wk_value : lock_value (mutex (k_world s)) = 0 \/ lock_value (mutex (k_world s)) = 1;
  wk_count : waiter_count (mutex (k_world s)) = holds_lock waiter_counted (k_waiter s);
  wk_waiter x : k_waiter s = Some x -> waiter_knows (k_ctx s) x;
  wk_none : k_waiter s = None -> waiter_done (k_ctx s) = false /\ waiter_timed_out (k_ctx s) = false;
  wk_main : main_found (k_ctx s) (k_main s);
  wk_early : k_waiter s = None -> k_main s = WakeCreateWaiter \/ k_main s = WakeReturned false None;
  wk_first : match k_main s with WakeCreateWaiter => k_waiter s = None /\ k_signaler s = None | WakeCreateSignaler => k_signaler s = None | _ => True end
}.

(** While the waiter is not done the test has found nothing. *)
Lemma found_early ctx ctx' m : waiter_done ctx = false -> main_found ctx m -> main_found ctx' m.
Proof.
  intros Hd. destruct m as [| | | | | |l|l q|l q|l q|l q r f|q [[[]]|]]; simpl; try done; rewrite Hd; try destruct l; try destruct q; intuition congruence.
Qed.
Lemma cond_step_waking c p (w w' : world (Ch := Ch)) n :
  cond_step 0 50 c p w = Some (w', n) -> (lock_value (mutex w) = 0 \/ lock_value (mutex w) = 1) ->
  waiter_count (mutex w) = one (waiter_counted (WaiterWait p)) ->
  (spin_cond p = true -> lock_value (mutex w) = 1) ->
  exists x, n = match x with WaiterWait p' => Go p' | WaiterTest => Return true | _ => Return false end /\
    (x = WaiterTest \/ x = WaiterTimedOut \/ exists p', x = WaiterWait p') /\
    lock_value (mutex w') = lock_value (mutex w) - one (spin_cond p) + one (waiter_has x) /\
    (lock_value (mutex w') = 0 \/ lock_value (mutex w') = 1) /\ waiter_count (mutex w') = one (waiter_counted x).
Proof.
  intros Hs Hv Hc Hl. destruct p as [|o|o|o q|o|sg q]; simpl in Hs.
  - injection Hs as <- <-. exists (WaiterWait (CondRelease (sequence (mutex w)))). simpl in *. rewrite Hl by done. split_and!; eauto.
  - injection Hs as <- <-. exists (WaiterWait (CondCheck o)). simpl in *. rewrite Hl by done. split_and!; eauto.
  - destruct (negb _); injection Hs as <- <-; [exists (WaiterWait (CondAcquire true SpinTry))|exists (WaiterWait (CondWait o WaitEnter))]; simpl in *; split_and!; eauto; lia.
  - destruct q; simpl in Hs, Hc.
    + injection Hs as <- <-. exists (WaiterWait (CondWait o WaitChannelCall)). simpl. rewrite Hc. split_and!; eauto; lia.
    + injection Hs as <- <-. exists (WaiterWait (CondWait o WaitBlocked)). simpl. split_and!; eauto; lia.
    + destruct (match c with Expire => _ | _ => _ end) as [[w1 n1]|] eqn:E; [|done].
      assert (Hw : exists b, n1 = Go (WaitLeave b) /\ mutex w1 = mutex w) by (repeat case_match; simplify_eq; eauto).
      destruct Hw as (b & -> & Hm). injection Hs as <- <-. exists (WaiterWait (CondWait o (WaitLeave b))). rewrite Hm. simpl. split_and!; eauto; lia.
    + rewrite Hc in Hs. change (atomic_sub_u32 _ 1) with 0 in Hs. simpl in Hs.
      destruct woke; injection Hs as <- <-; [exists (WaiterWait (CondCheck o))|exists (WaiterWait (CondRecheck o))]; simpl; split_and!; eauto; lia.
  - injection Hs as <- <-. exists (WaiterWait (CondAcquire (negb (sequence (mutex w) =? o)) SpinTry)). simpl in *. split_and!; eauto; lia.
  - destruct (spin_step q w) as [w1 m] eqn:E. injection Hs as <- <-.
    destruct (spin_step_effect q w w1 m Hv E) as [(q' & -> & ->)|(-> & H0 & ->)].
    + exists (WaiterWait (CondAcquire sg q')). simpl in *. split_and!; eauto; lia.
    + exists (if sg then WaiterTest else WaiterTimedOut). simpl in *. rewrite H0. destruct sg; split_and!; eauto.
Qed.

(** ** Steps *)

Lemma waking_move w ctx x b m w' ctx' x' :
  waking (mk_wake w ctx (Some x) b m) ->
  lock_value (mutex w') = lock_value (mutex w) - one (waiter_has x) + one (waiter_has x') ->
  lock_value (mutex w') = 0 \/ lock_value (mutex w') = 1 -> waiter_count (mutex w') = one (waiter_counted x') ->
  waiter_knows ctx' x' -> main_found ctx' m -> waking (mk_wake w' ctx' (Some x') b m).
Proof.
  intros [L V C K N M E F] L' V' C' K' M'. simpl in *. split; simpl; try done; [|by intros ? [= <-]|by destruct m as []; try (by destruct F)].
  rewrite L', L. unfold holds_lock at 1 3. lia.
Qed.

Lemma waking_waiter c x w ctx b m w' ctx' x' :
  waking (mk_wake w ctx (Some x) b m) -> kdebug_sync_waiter_task c x w ctx = Some (w', ctx', x') -> waking (mk_wake w' ctx' (Some x') b m).
Proof.
  intros T Hs. pose proof T as [L V C K _ M _ _]. simpl in *. destruct (K x eq_refl) as [Kd Kx].
  assert (Hmine : waiter_has x = true -> lock_value (mutex w) = 1).
  { intros Hx. rewrite L. unfold holds_lock at 1. rewrite Hx. destruct V as [V|V]; rewrite V in L; unfold holds_lock, one in *; repeat case_match; lia. }
  destruct x; simpl in Hs, Kx, Kd.
  - destruct (spin_step p w) as [w1 n] eqn:Es. injection Hs as <- <- <-.
    destruct (spin_step_effect p w w1 n V Es) as [(q' & -> & ->)|(-> & H0 & ->)];
      apply (waking_move _ _ _ _ _ _ _ _ T); simpl; first [done | lia | by right].
  - injection Hs as <- <- <-. destruct (ready ctx) eqn:Hr; apply (waking_move _ _ _ _ _ _ _ _ T); simpl; first [done | lia].
  - destruct (cond_step 0 50 c p w) as [[w1 n]|] eqn:Ec; [|done]. injection Hs as <- <- <-.
    destruct (cond_step_waking c p w w1 n Ec V C Hmine) as (y & -> & Hy & Hl & Hv & Hc).
    destruct Hy as [->|[->|[p' ->]]]; by apply (waking_move _ _ _ _ _ _ _ _ T).
  - injection Hs as <- <- <-. apply (waking_move _ _ _ _ _ _ _ _ T); simpl; first [done | lia | by apply (found_early ctx)].
  - injection Hs as <- <- <-. apply (waking_move _ _ _ _ _ _ _ _ T); simpl; first [done | lia].
  - injection Hs as <- <- <-. apply (waking_move _ _ _ _ _ _ _ _ T); simpl; first [done | lia | by apply (found_early ctx)].
  - injection Hs as <- <- <-. apply (waking_move _ _ _ _ _ _ _ _ T); simpl; first [done | lia | by apply (found_early ctx)].
  - injection Hs as <- <- <-. apply (waking_move _ _ _ _ _ _ _ _ T); simpl; first [done | rewrite Hmine by done; lia | by left].
  - done.
  - done.
Qed.

Lemma waking_signaler x w ctx a m w' ctx' x' :
  waking (mk_wake w ctx a (Some x) m) -> kdebug_sync_signaler_task x w ctx = Some (w', ctx', x') -> waking (mk_wake w' ctx' a (Some x') m).
Proof.
  intros [L V C K N M E F] Hs. simpl in *.
  assert (Fm : forall y : signaler_pc, match m with WakeCreateWaiter => a = None /\ Some y = None | WakeCreateSignaler => Some y = None | _ => True end) by (by destruct m; try (by destruct F)).
  assert (Ha : holds_lock waiter_has a = 0 \/ holds_lock waiter_has a = 1) by (unfold holds_lock, one; repeat case_match; auto).
  unfold holds_lock at 2 in L.
  destruct x; simpl in Hs, L.
  - injection Hs as <- <- <-. split; simpl; try done; apply Fm.
  - destruct (spin_step p w) as [w1 n] eqn:Es. injection Hs as <- <- <-.
    destruct (spin_step_effect p w w1 n V Es) as [(q' & -> & ->)|(-> & H0 & ->)]; split; simpl; try done; try apply Fm; [|by right].
    unfold holds_lock at 2. simpl. lia.
  - injection Hs as <- <- <-. split; simpl; try done; try apply Fm.
    intros y Hy. destruct (K y Hy) as [K1 K2]. split; [by destruct y|]. destruct y; simpl in *; intuition.
  - injection Hs as <- <- <-. split; simpl; try done; apply Fm.
  - injection Hs as <- <- <-. split; simpl; try done; apply Fm.
  - injection Hs as <- <- <-. split; simpl; try done; try apply Fm; [|by left]. unfold holds_lock at 2. simpl. lia.
  - done.
Qed.

Lemma waking_main ok s s' : waking s -> kdebug_test_wait_queue_wake ok s = Some s' -> waking s'.
Proof.
  intros T Hs. destruct s as [w ctx a b m]. pose proof T as [L V C K N M E F]. simpl in *.
  assert (Hat : forall m', main_found ctx m' -> (a = None -> m' = WakeCreateWaiter \/ m' = WakeReturned false None) ->
    match m' with WakeCreateWaiter | WakeCreateSignaler => False | _ => True end -> waking (mk_wake w ctx a b m')) by (intros m' M' E' F'; split; try done; by destruct m').
  assert (Hsome : m <> WakeCreateWaiter -> m <> WakeReturned false None -> a <> None) by (intros H1 H2 Ha; by destruct (E Ha)).
  assert (Hdone : waiter_done ctx = true -> waiter_timed_out ctx = false -> waiter_woke ctx = true).
  { intros Hd Ht. destruct a as [x|]; [|destruct (N eq_refl); congruence]. destruct (K x eq_refl) as [K1 K2]. destruct x; simpl in *; intuition congruence. }
  assert (Hgo : forall m', a <> None -> main_found ctx m' -> match m' with WakeCreateWaiter | WakeCreateSignaler => False | _ => True end ->
    waking (mk_wake w ctx a b m')) by (intros m' Ha ? ?; by apply Hat).
  destruct m; simpl in Hs, M; try (assert (Ha : a <> None) by (by apply Hsome)).
  - destruct F as [-> ->]. destruct ok; injection Hs as <-; [|by apply Hat; [|right|]]. destruct (N eq_refl). split; simpl; try done. by intros ? [= <-].
  - subst b. destruct ok; injection Hs as <-; [by split|]. by apply Hat; [|right|].
  - injection Hs as <-. by apply Hgo.
  - injection Hs as <-. destruct (waiter_done ctx) eqn:Hd; apply Hgo; simpl; rewrite ?Hd; done.
  - injection Hs as <-. destruct (_ <? _); by apply Hgo.
  - injection Hs as <-. by apply Hgo.
  - injection Hs as <-. apply Hgo; try done. split; [|done]. intros Hl. by rewrite (M Hl).
  - injection Hs as <-. apply Hgo; try done. destruct M as [M1 M2]. split.
    + intros Hl. destruct (M1 Hl) as [Hd ->]. done.
    + intros [Hp Hw]%andb_true_iff. auto.
  - injection Hs as <-. apply Hgo; try done. destruct M as [M1 M2]. split.
    + intros Hl. destruct (M1 Hl) as [Hd ->]. done.
    + intros [Hp Hw]%andb_true_iff. apply negb_true_iff in Hw. destruct (M2 Hp). auto.
  - injection Hs as <-. apply Hgo; try done. destruct M as [M1 M2]. split_and!.
    + intros Hl. destruct (M1 Hl) as [Hd ->]. done.
    + intros [Hp Hw]%andb_true_iff. auto.
    + by left.
  - injection Hs as <-. destruct M as (M1 & M2 & M3). destruct found as [|d [|k l]]; apply Hgo; try done; simpl.
    + split_and!; [done|done|]. intros Hd Hl. right. left. by rewrite Hd.
    + split_and!; [done|done|]. intros Hd Hl. destruct (M3 Hd Hl) as [?|[[= ->]|?]]; try done. auto.
    + split.
      * intros Hl. destruct (M1 Hl) as [Hd Hp]. destruct (M3 Hd (or_introl Hl)) as [?|[?|[= -> -> ->]]]; try done.
        exists (waiter_woke ctx), (waiter_timed_out ctx). auto.
      * intros Hp. destruct (M2 Hp) as [(Hd & Hw & Ht) Hr]. destruct (M3 Hd (or_intror Hp)) as [?|[?|[= -> -> ->]]]; try done. by rewrite Hw, Ht.
  - done.
Qed.

Lemma wake_reachable_inv w s : wake_reachable w s -> waking s.
Proof.
  induction 1 as [|s e s' _ IH Hs].
  - split; simpl; try done; by left.
  - destruct e as [c| |ok|]; simpl in Hs.
    + destruct s as [w1 ctx [x|] b m]; [|done]. simpl in Hs. destruct (kdebug_sync_waiter_task _ _ _ _) as [[[w' ctx'] x']|] eqn:E; [|done].
      injection Hs as <-. by eapply waking_waiter.
    + destruct s as [w1 ctx a [x|] m]; [|done]. simpl in Hs. destruct (kdebug_sync_signaler_task _ _ _) as [[[w' ctx'] x']|] eqn:E; [|done].
      injection Hs as <-. by eapply waking_signaler.
    + by eapply waking_main.
    + injection Hs as <-. destruct IH. by split.
Qed.
End Wake.
Arguments wake_config Ch : clear implicits.

(** In every interleaving of the test, the waiter, the signaler and the clock: the waiter
    and the signaler are never both inside the lock, the waiter does not panic, and when
    [kdebug_test_wait_queue_wake] returns before its time is up, the waiter is done, it
    woke unless its wait timed out, and the test passes exactly if it woke in time and
    the zombies were reaped; the test passes only then. *)
Theorem kdebug_wait_wake_correct {Ch} `{WaitChannel Ch} (w : world (Ch := Ch)) s :
  wake_reachable w s ->
  (forall x y, k_waiter s = Some x -> k_signaler s = Some y -> waiter_has x && signaler_has y = false) /\
  (forall why, k_waiter s <> Some (WaiterPanicked why)) /\
  (forall pass late reaped found, k_main s = WakeReturned pass (Some (late, reaped, found)) ->
     (late = false -> exists woke out, found = [true; woke; out] /\ pass = (woke && negb out) && reaped /\ (out = false -> woke = true)) /\
     (pass = true -> found = [true; true; false] /\ reaped = true)).
Proof.
  intros [L V C K N M E F]%wake_reachable_inv. split; [|split].
  - intros x y Hx Hy. rewrite Hx, Hy in L. unfold holds_lock, one in L. destruct (waiter_has x), (signaler_has y); try done. lia.
  - intros why Hx. by destruct (K _ Hx).
  - intros pass late reaped found Hm. by rewrite Hm in M.
Qed.

Fixpoint wake_run {Ch} `{WaitChannel Ch} (l : list wake_event) (s : wake_config Ch) : option (wake_config Ch) :=
  match l with
  | [] => Some s
  | e :: l' => match wake_step e s with None => None | Some s' => wake_run l' s' end
  end.

Lemma wake_run_reachable {Ch} `{WaitChannel Ch} (w : world (Ch := Ch)) l s : wake_run l (wake_start w) = Some s -> wake_reachable w s.
Proof.
  assert (Hgo : forall s0, wake_reachable w s0 -> wake_run l s0 = Some s -> wake_reachable w s).
  { induction l as [|e l IH]; intros s0 H0 Hr; simpl in Hr; [by injection Hr as <-|].
    destruct (wake_step e s0) as [s1|] eqn:E; [|done]. apply (IH s1); [|done]. by eapply wake_next. }
  apply Hgo. constructor.
Qed.

(** The waiter blocks, the signaler wakes it. *)
Definition wake_events : list wake_event :=
  let wait := RunWaiter Continue in let go := RunMain true in
  replicate 3 go ++ replicate 7 wait ++ replicate 6 RunSignaler ++ replicate 9 wait ++ replicate 8 go.

Lemma wake_sample : exists s, wake_reachable sample_world s /\ k_main s = WakeReturned true (Some (false, true, [true; true; false])).
Proof.
  assert (H : k_main <$> wake_run wake_events (wake_start sample_world) = Some (WakeReturned true (Some (false, true, [true; true; false])))) by (by vm_compute).
  destruct (wake_run _ _) as [s|] eqn:E; [|done]. injection H as H. exists s. split; [|done]. by eapply wake_run_reachable.
Qed.

Lemma kdebug_wait_wake_correct_witness :
  exists s, wake_reachable sample_world s /\ k_main s = WakeReturned true (Some (false, true, [true; true; false])) /\ true = true.
Proof.
  destruct wake_sample as (s & Hr & Hm). exists s. split; [exact Hr|]. split; [exact Hm|].
  destruct (kdebug_wait_wake_correct sample_world s Hr) as (_ & _ & H1).
  exact (proj2 (proj2 (H1 true false true _ Hm) eq_refl)).
Defined.
