(* ===== verification/Kernel.v ===== *)
(** Start-up: kernel/kernel.c and kernel/stack_protector.c.

    [computer] joins the states of all components.  A component that keeps a copy of
    another's state in its own model (the boot information and the files see physical
    memory, the processors see paging and the scheduler) is run on the current value and
    its changes are written back, so there is one page table, one memory and one
    scheduler.  [kernel_main] returns where the source enters its idle loop.  What is
    printed is the list of the calls, as in Kdebug.v: the devices are not run for it, so a
    serial line that never gets ready does not stop the kernel here (Platform.v has the
    theorem on what the devices show).  The memory of a task is an argument of the steps
    that create one, with both answers of paging.c: [create_worker] panics when it is
    missing, and nothing here says that paging has it. *)
From S2P Require Import Prelude Bootinfo Pmm Vma SchedData Sched SchedApi Strings Vfs PagingData PagingTables Paging PagingFacts.
From S2P Require Import Heap HeapPaging Console Panic Gdt Irq Keyboard Modules Vga Platform Cpu Ktest Kdebug.
From Stdlib Require Import ZArith Lia String.
From stdpp Require Import list.
Open Scope Z_scope.

(** What the devices and the processor answer. *)
Record hardware := mk_hardware {
  hw_keyboard : nat -> Z;
  hw_line_status : nat -> Z;
  hw_scratch : Z -> Z;
  hw_polls : nat;
  hw_cpuid_ebx : Z;
  hw_cpuid_edx : Z;
  hw_apic_base : Z;
  hw_icr : nat -> Z;
  hw_cr0 : Z;
  hw_cr4 : Z;
  hw_esp : Z;
  hw_comes_online : Z -> bool
}.

(** Where the linker put what the kernel refers to by address. *)
Record link_map := mk_link_map {
  lm_kernel_start : Z;
  lm_kernel_end : Z;
  lm_gdt : Z;
  lm_tss : Z;
  lm_stubs : list Z;
  lm_slab_pool : Z;
  lm_trampoline : trampoline_image;
  lm_ap_entry : Z;
  lm_task_trampoline : Z;
  lm_worker_task : Z;
  lm_worker_names : Z * Z;
  lm_kdebug_task : Z
}.

(** What paging answers when a task is created: its address space and its stack. *)
Record task_memory := mk_task_memory { tm_space : option Z; tm_stack : option Z }.

Record computer := mk_computer {
  c_modules : modules platform;
  stack_chk_guard : Z;
  c_descriptors : descriptors;
  c_boot : bootinfo;
  c_heap : heap (P := paging);
  c_files : list vfs_node;
  c_smp : smp;
  c_log : panic_log;
  c_eflags : Z;
  c_tests : list (ktest_entry (kernel devices_t));
  tests_registered : bool;
  c_debugger_active : bool;
  c_out : list output
}.

(** ** Parts of the state *)

Definition set_modules v c := mk_computer v (stack_chk_guard c) (c_descriptors c) (c_boot c) (c_heap c) (c_files c) (c_smp c) (c_log c) (c_eflags c) (c_tests c) (tests_registered c) (c_debugger_active c) (c_out c).
Definition set_guard v c := mk_computer (c_modules c) v (c_descriptors c) (c_boot c) (c_heap c) (c_files c) (c_smp c) (c_log c) (c_eflags c) (c_tests c) (tests_registered c) (c_debugger_active c) (c_out c).
Definition set_descriptors v c := mk_computer (c_modules c) (stack_chk_guard c) v (c_boot c) (c_heap c) (c_files c) (c_smp c) (c_log c) (c_eflags c) (c_tests c) (tests_registered c) (c_debugger_active c) (c_out c).
Definition set_cboot v c := mk_computer (c_modules c) (stack_chk_guard c) (c_descriptors c) v (c_heap c) (c_files c) (c_smp c) (c_log c) (c_eflags c) (c_tests c) (tests_registered c) (c_debugger_active c) (c_out c).
Definition set_cheap v c := mk_computer (c_modules c) (stack_chk_guard c) (c_descriptors c) (c_boot c) v (c_files c) (c_smp c) (c_log c) (c_eflags c) (c_tests c) (tests_registered c) (c_debugger_active c) (c_out c).
Definition set_cfiles v c := mk_computer (c_modules c) (stack_chk_guard c) (c_descriptors c) (c_boot c) (c_heap c) v (c_smp c) (c_log c) (c_eflags c) (c_tests c) (tests_registered c) (c_debugger_active c) (c_out c).
Definition set_smp v c := mk_computer (c_modules c) (stack_chk_guard c) (c_descriptors c) (c_boot c) (c_heap c) (c_files c) v (c_log c) (c_eflags c) (c_tests c) (tests_registered c) (c_debugger_active c) (c_out c).
Definition set_cout v c := mk_computer (c_modules c) (stack_chk_guard c) (c_descriptors c) (c_boot c) (c_heap c) (c_files c) (c_smp c) (c_log c) (c_eflags c) (c_tests c) (tests_registered c) (c_debugger_active c) v.
Definition set_registered v c := mk_computer (c_modules c) (stack_chk_guard c) (c_descriptors c) (c_boot c) (c_heap c) (c_files c) (c_smp c) (c_log c) (c_eflags c) (c_tests c) v (c_debugger_active c) (c_out c).

Definition c_pages (c : computer) : paging := Heap.pages (c_heap c).
Definition set_cpages (p : paging) (c : computer) : computer := set_cheap (Heap.set_pages p (c_heap c)) c.
Definition c_platform (c : computer) : platform := world (c_modules c).
Definition set_platform (p : platform) (c : computer) : computer := set_modules (set_world p (c_modules c)) c.

(** Running a component's function on its part. *)
Definition via {S A} (get : computer -> S) (put : S -> computer -> computer) (m : M S A) : M computer A :=
  fun c => match m (get c) with
           | Done a s => Done a (put s c)
           | Panic msg s => Panic msg (put s c)
           | Fault => Fault
           | Spin => Spin
           end.

Definition on_modules {A} : M (modules platform) A -> M computer A := via c_modules set_modules.
Definition on_console {A} : M (console devices_t) A -> M computer A :=
  via (fun c => pl_console (c_platform c))
      (fun v c => let p := c_platform c in set_platform (mk_platform v (pl_machine p) (pl_timer p) (pl_input p)) c).
Definition on_machine {A} : M (machine keyboard) A -> M computer A :=
  via (fun c => pl_machine (c_platform c))
      (fun v c => let p := c_platform c in set_platform (mk_platform (pl_console p) v (pl_timer p) (pl_input p)) c).
Definition on_descriptors {A} : M descriptors A -> M computer A := via c_descriptors set_descriptors.
Definition on_pages {A} : M paging A -> M computer A := via c_pages set_cpages.
Definition on_heap {A} : M (heap (P := paging)) A -> M computer A := via c_heap set_cheap.

(** The boot information is read from the memory of the page tables. *)
Definition boot_view (c : computer) : bootinfo :=
  mk_bootinfo (loader_kind (c_boot c)) (info_phys (c_boot c)) (multiboot_info (c_boot c)) (phys (c_pages c)).
Definition on_boot {A} : M bootinfo A -> M computer A := via boot_view set_cboot.

(** The files are read through the direct map; vfs.c stores nothing in memory. *)
Definition files_view (c : computer) : vfs := mk_vfs (fun v => phys (c_pages c) (v - KERNEL_VMA)) (c_files c).
Definition on_files {A} : M vfs A -> M computer A := via files_view (fun v => set_cfiles (files v)).

(** The processors, with the kernel's pages. *)
Definition on_smp {A} : M smp A -> M computer A :=
  via (fun c => Cpu.set_pages (c_pages c) (c_smp c)) (fun v c => set_smp v (set_cpages (Cpu.pages v) c)).
Definition on_sched {A} : M sched A -> M computer A :=
  via (fun c => Cpu.scheduler (c_smp c)) (fun v c => set_smp (Cpu.set_scheduler v (c_smp c)) c).

(** The state that the debugger works on. *)
Definition debug_view (c : computer) : registry (D := devices_t) :=
  mk_ktest (c_tests c)
    (mk_kernel (boot_view c) (c_heap c) (mk_world (c_log c) (c_eflags c) (pl_console (c_platform c)) (Cpu.scheduler (c_smp c)))
       (files_view c) (pl_machine (c_platform c)) (c_out c) (c_debugger_active c)).
Definition debug_put (r : registry (D := devices_t)) (c : computer) : computer :=
  let k := Ktest.kernel r in
  let p := c_platform c in
  mk_computer (set_world (mk_platform (pw_console (k_panic k)) (k_input k) (pl_timer p) (pl_input p)) (c_modules c))
    (stack_chk_guard c) (c_descriptors c) (k_boot k) (k_heap k) (files (k_vfs k))
    (Cpu.set_scheduler (pw_sched (k_panic k)) (c_smp c)) (pw_log (k_panic k)) (pw_eflags (k_panic k))
    (ktest_registry r) (tests_registered c) (debugger_active k) (k_out k).
Definition on_debugger {A} : M (registry (D := devices_t)) A -> M computer A := via debug_view debug_put.

Definition printf (format : string) (args : list arg) : M computer unit :=
  modify (fun c => set_cout (c_out c ++ [Printf format args]) c).

(** ** stack_protector.c *)

Definition guard_of (seed_a seed_b : Z) : Z :=
  let guard := Z.lxor (Z.lxor (u32 (Z.shiftl seed_a 16)) seed_b) 0x9e3779b9 in
  if guard =? 0 then 0x6f2c8e51 else guard.
Definition stack_protector_init (seed_a seed_b : Z) : M computer unit := modify (set_guard (guard_of seed_a seed_b)).
Definition stack_chk_fail : M computer unit := panic "stack smash detected".

(** The flag is set in every component's view of the register. *)
Definition interrupts_set (c : computer) : computer :=
  let p := c_pages c in
  let c := set_cpages (set_frames (Pmm.set_eflags (sti (Pmm.eflags (frames p))) (frames p)) p) c in
  let k := Cpu.scheduler (c_smp c) in
  let c := set_smp (Cpu.set_scheduler (SchedData.set_eflags (sti (SchedData.eflags k)) k) (c_smp c)) c in
  mk_computer (c_modules c) (stack_chk_guard c) (c_descriptors c) (c_boot c) (c_heap c) (c_files c) (c_smp c) (c_log c)
    (sti (c_eflags c)) (c_tests c) (tests_registered c) (c_debugger_active c) (c_out c).
Definition interrupts_enable : M computer unit := modify interrupts_set.

(** ** kernel_main *)

Section Main.
Context (img : kernel_image) (Himg : image_ok img) (hw : hardware) (lm : link_map).
(** The handler that the timer's interrupt calls, [scheduler_on_timer_tick] as the
    dispatcher sees it, and the self tests that run several tasks. *)
Context (tick_handler : interrupt_handler keyboard) (tests : task_tests (D := devices_t)) (digits : list Z).

(** From the drivers to the interrupt table. *)
Definition boot_devices (multiboot_magic multiboot_info_addr : Z) : M computer unit :=
  on_modules (platform_register_drivers (hw_keyboard hw) (hw_line_status hw) (hw_scratch hw) (hw_polls hw)) ;;;
  ok <- on_console console_initialize ;;
  if negb ok then (fun _ => Spin) else
  printf ("DFOS kernel bootstrap" ++ nl) [] ;;;
  stack_protector_init multiboot_magic multiboot_info_addr ;;;
  if negb (multiboot_magic =? MULTIBOOT_BOOTLOADER_MAGIC) then panic "invalid multiboot magic 0x%x" else
  on_descriptors (gdt_init (lm_gdt lm) (lm_tss lm)) ;;;
  on_machine (idt_init (lm_stubs lm)).

(** From [paging_init] to [heap_init].  [pmm_init] is given the addresses of the image
    that it translates itself. *)
Definition boot_memory (multiboot_magic multiboot_info_addr : Z) : M computer unit :=
  on_pages (paging_init img) ;;;
  ok <- on_boot (bootinfo_init multiboot_magic multiboot_info_addr) ;;
  if negb ok then panic "unsupported bootloader handoff (magic=0x%x)" else
  kernel_start_phys <- on_pages (paging_virt_to_phys img (lm_kernel_start lm)) ;;
  kernel_end_phys <- on_pages (paging_virt_to_phys img (lm_kernel_end lm)) ;;
  bi <- gets boot_view ;;
  on_pages (on_pmm (pmm_init kernel_start_phys kernel_end_phys bi)) ;;;
  on_pages (paging_finalize_bootstrap img) ;;;
  on_heap heap_init.

(** From [input_initialize] to [kdebug_init]. *)
Definition boot_services (debug : task_memory) : M computer unit :=
  p <- gets c_platform ;;
  ok <- on_machine (input_initialize (pl_input p)) ;;
  if negb ok then panic "failed to initialize input driver" else
  bi <- gets boot_view ;;
  on_files (vfs_init bi) ;;;
  on_sched scheduler_init ;;;
  topology <- on_smp (cpu_smp_prepare_topology img (hw_cpuid_ebx hw) (hw_cpuid_edx hw) (hw_apic_base hw)) ;;
  ok <- on_sched (scheduler_configure_topology topology) ;;
  if negb ok then panic "failed to apply cpu topology" else
  ok <- on_machine (timer_initialize (pl_timer p) 100 (Some tick_handler)) ;;
  if negb ok then panic "failed to initialize timer driver" else
  pg <- gets c_pages ;;
  on_sched (scheduler_bootstrap_current (default 0 (kernel_space pg)) (default 0 (current_space pg)) (hw_esp hw) (Some "bootstrap"%string)) ;;;
  pg <- gets c_pages ;;
  ok <- on_smp (cpu_smp_start_secondary_cores img (hw_icr hw) (lm_trampoline lm) (hw_cr0 hw) (PagingData.cr3 pg) (hw_cr4 hw)
                  (lm_ap_entry lm) (default 0 (kernel_space pg)) (hw_comes_online hw)) ;;
  if negb ok then panic "failed to start secondary cpus" else
  on_smp cpu_smp_release_secondary_cores ;;;
  registered <- gets tests_registered ;;
  registered <- on_debugger (kdebug_init img Himg (lm_slab_pool lm) tests digits registered (lm_task_trampoline lm) (lm_kdebug_task lm)
                               (tm_space debug) (tm_stack debug)) ;;
  modify (set_registered registered).

Definition plural (n : Z) : arg := AText (if n =? 1 then "" else "s").

Definition boot_banner : M computer unit :=
  numa_nodes <- on_pages (on_pmm pmm_numa_node_count) ;;
  total <- on_pages (on_pmm pmm_total_memory_kib) ;;
  free <- on_pages (on_pmm pmm_free_memory_kib) ;;
  printf ("physical memory: %u KiB total, %u KiB free (%u NUMA node%s)" ++ nl) [ANum total; ANum free; ANum numa_nodes; plural numa_nodes] ;;;
  start <- on_heap heap_start ;;
  end_ <- on_heap heap_end ;;
  printf ("heap window: %p - %p" ++ nl) [ANum start; ANum end_] ;;;
  mode <- on_pages paging_mode_name ;;
  supported <- on_pages paging_pae_supported ;;
  printf ("paging mode: %s (PAE supported: %s)" ++ nl) [AText mode; yes_no supported] ;;;
  ready <- on_pages paging_pae_ready ;;
  printf ("PAE runtime: %s" ++ nl) [AText (if ready : bool then "active" else "inactive")] ;;;
  n <- on_files vfs_file_count ;;
  printf ("initrd files: %u" ++ nl) [ANum n] ;;;
  name <- on_console console_driver_name ;;
  count <- on_console console_driver_count ;;
  printf ("console: %s (%u backend%s)" ++ nl) [ABytes (text_of name); ANum count; plural count] ;;;
  p <- gets c_platform ;;
  printf ("input: %s" ++ nl) [AText (input_driver_name (pl_input p))] ;;;
  hz <- on_machine (timer_frequency_hz (pl_timer p)) ;;
  printf ("timer: %s @ %u Hz" ++ nl) [AText (timer_driver_name (pl_timer p)); ANum hz] ;;;
  ctl <- on_machine irq_controller_name ;;
  printf ("irq controller: %s" ++ nl) [AText ctl] ;;;
  cpus <- on_sched scheduler_cpu_count ;;
  smp_on <- on_smp cpu_smp_available ;;
  printf ("cpu topology: %u cpu(s), smp %s" ++ nl) [ANum cpus; AText (if smp_on : bool then "enabled" else "disabled")] ;;;
  n1 <- on_modules (module_registered_count MODULE_KIND_CONSOLE) ;;
  n2 <- on_modules (module_registered_count MODULE_KIND_INPUT) ;;
  n3 <- on_modules (module_registered_count MODULE_KIND_TIMER) ;;
  n4 <- on_modules (module_registered_count MODULE_KIND_IRQ_CONTROLLER) ;;
  printf ("module candidates: %u console, %u input, %u timer, %u irq" ++ nl) [ANum n1; ANum n2; ANum n3; ANum n4] ;;;
  printf ("debug hotkey: F1" ++ nl) [].

(** A demonstration task of some priority. *)
Definition create_worker (name : string) (arg priority : Z) (mem : task_memory) : M computer unit :=
  let default := scheduler_task_config_default in
  let config := mk_task_config priority (cfg_cpu_affinity_mask default) (cfg_preferred_numa_node default) in
  ok <- on_sched (scheduler_create_kernel_task_ex (lm_task_trampoline lm) (tm_space mem) (tm_stack mem) (Some name)
                    (Some (lm_worker_task lm)) arg (Some config)) ;;
  if ok : bool then ret tt else panic ("failed to create " ++ name).

Definition kernel_main (debug worker_a worker_b : task_memory) (multiboot_magic multiboot_info_addr : Z) : M computer unit :=
  boot_devices multiboot_magic multiboot_info_addr ;;;
  boot_memory multiboot_magic multiboot_info_addr ;;;
  boot_services debug ;;;
  boot_banner ;;;
  create_worker "worker-a" (fst (lm_worker_names lm)) SCHEDULER_PRIORITY_HIGH worker_a ;;;
  create_worker "worker-b" (snd (lm_worker_names lm)) SCHEDULER_PRIORITY_LOW worker_b ;;;
  printf ("interrupts online, scheduler started" ++ nl) [] ;;;
  interrupts_enable.
End Main.
