(* ===== verification/KernelSpec.v ===== *)
(** What start-up establishes: the memory components, from the boot loader's data to a
    heap that can be used. *)
From S2P Require Import Prelude Bootinfo Pmm PmmFacts PmmAlloc PmmSpec PmmInit Vma VmaFacts VmaSpec SchedData.
From S2P Require Import PagingData PagingTables Paging PagingFacts PagingAlloc PagingSpec PagingBoot PagingProps.
From S2P Require Import Heap HeapInv HeapSpec HeapPaging HeapProps Platform Cpu Kernel.
From Stdlib Require Import ZArith Lia.
From stdpp Require Import sets gmap.
Open Scope Z_scope.

(** * Memory outside the page tables *)

(** The [n] bytes at [p] are apart from all regions of [R]. *)
Definition clear_of (R : list (Z * Z)) (p n : Z) : Prop := Forall (fun r => apart r.1 r.2 p n) R.

Lemma clear_of_sub R p n q k : clear_of R p n -> p <= q -> q + k <= p + n -> clear_of R q k.
Proof. intros H Hp Hk. eapply Forall_impl; [exact H|]. intros r. unfold apart. lia. Qed.

Lemma kept_u32 R m m' p : tables_kept R m m' -> clear_of R p 4 -> read_u32 m' p = read_u32 m p.
Proof.
  intros Hk Hc. unfold read_u32, read_u16, read_u8.
  repeat (rewrite Hk; [|eapply Forall_impl; [exact Hc|]; intros r; unfold apart; lia]). done.
Qed.
Lemma kept_u64 R m m' p : tables_kept R m m' -> clear_of R p 8 -> read_u64 m' p = read_u64 m p.
Proof. intros Hk Hc. unfold read_u64. by rewrite !(kept_u32 R m m') by (done || (eapply clear_of_sub; [exact Hc|lia|lia])). Qed.

Lemma map_at_kept R m m' p regions e : tables_kept R m m' -> clear_of R p (e - p) -> map_at m p regions e -> map_at m' p regions e.
Proof.
  intros Hk Hc Hm. induction Hm as [p|p r rest e Hsz Hb Hl Ht Hm IH]; [constructor|].
  pose proof (map_at_le _ _ _ _ Hm).
  assert (E : read_u32 m' p = read_u32 m p) by (apply (kept_u32 R); [done|eapply clear_of_sub; [exact Hc|lia|lia]]).
  apply map_at_cons; rewrite ?E; try done.
  - rewrite <- Hb. apply (kept_u64 R); [done|eapply clear_of_sub; [exact Hc|lia|lia]].
  - rewrite <- Hl. apply (kept_u64 R); [done|eapply clear_of_sub; [exact Hc|lia|lia]].
  - rewrite <- Ht. apply (kept_u32 R); [done|eapply clear_of_sub; [exact Hc|lia|lia]].
  - apply IH. eapply clear_of_sub; [exact Hc|lia|lia].
Qed.

(** * The boot loader's data *)

Section Data.
Context (R : list (Z * Z)) (addr : Z) (regions : list bootinfo_memory_region).

(** The boot information after [bootinfo_init]. *)
Definition loaded (m : memory) : bootinfo := mk_bootinfo BOOTINFO_LOADER_MULTIBOOT1 addr (Some (KERNEL_VMA + addr)) m.

(** A Multiboot structure at [addr] with a memory map of [regions] and modules that can
    be named, all in reach of the direct map and apart from the page tables. *)
Record boot_data (m : memory) : Prop := {
  bd_tables : multiboot_tables (loaded m) regions;
  bd_addr : 0 < addr /\ addr + sizeof_multiboot_info_t <= KERNEL_DIRECT_MAP_LIMIT_PHYS;
  bd_info : clear_of R addr sizeof_multiboot_info_t;
  bd_map : clear_of R (info_word (loaded m) 48) (info_word (loaded m) 44);
  bd_modules i : 0 <= i < modules_told (loaded m) -> clear_of R (module_entry (loaded m) i) 12
}.

Lemma info_kept m m' k : tables_kept R m m' -> boot_data m -> 0 <= k <= 84 -> info_word (loaded m') k = info_word (loaded m) k.
Proof.
  intros Hk D Hr. apply (kept_u32 R); [done|]. simpl. eapply clear_of_sub; [apply (bd_info m D)|lia|unfold sizeof_multiboot_info_t; lia].
Qed.
Lemma told_kept m m' : tables_kept R m m' -> boot_data m -> modules_told (loaded m') = modules_told (loaded m).
Proof. intros Hk D. unfold modules_told. by rewrite !(info_kept m m') by (done || lia). Qed.

Lemma boot_data_kept m m' : tables_kept R m m' -> boot_data m -> boot_data m'.
Proof.
  intros Hk D. pose proof (fun k => info_kept m m' k Hk D) as E. pose proof (told_kept m m' Hk D) as Et.
  assert (Ee : forall i, module_entry (loaded m') i = module_entry (loaded m) i) by (intros i; unfold module_entry; by rewrite E by lia).
  destruct D as [[T1 T2 T3 T4 (H1 & H2 & H3 & H4) T6 T7] Ha Hi Hm Hmod].
  split; [split; rewrite ?Et, ?E by lia; try done|done|done|rewrite !E by lia; done|intros i; rewrite Et, Ee; apply Hmod].
  - split; [done|]. split; [done|]. split; [done|]. apply (map_at_kept R m m'); [done| |done].
    eapply clear_of_sub; [exact Hm|lia|lia].
  - intros i Hii. rewrite Ee. simpl. rewrite (kept_u32 R m m'); [by apply T7|done|]. eapply clear_of_sub; [by apply Hmod|lia|lia].
Qed.
End Data.

(** * The memory components *)

Section Memory.
Context (img : kernel_image) (Hboot : boot_image_ok img) (lm : link_map) (addr : Z) (regions : list bootinfo_memory_region).
#[local] Instance boot_store : PageStore paging := paging_store img (bok_image img Hboot).

Definition start_phys : Z := pa (lm_kernel_start lm).
Definition end_phys : Z := pa (lm_kernel_end lm).

(** The image lies in the window that is mapped at start, with room for the bitmap
    behind it, and contains its page tables. *)
Record linked : Prop := {
  lk_start : 0 <= start_phys < end_phys;
  lk_end : bitmap_start end_phys + bitmap_size (pages_for (top_address regions)) < 0x400000;
  lk_window : end_phys < BOOTSTRAP_WINDOW_SIZE;
  lk_tables : Forall (fun r => start_phys <= r.1 /\ r.1 + r.2 <= end_phys) (image_tables img)
}.

(** The static variables before start-up. *)
Record cold (c : computer) : Prop := {
  cold_spaces : length (paging_spaces (c_pages c)) = Z.to_nat PAGING_MAX_SPACES;
  cold_nodes : length (numa_nodes (frames (c_pages c))) = 8%nat;
  cold_flags : fits 32 (Pmm.eflags (frames (c_pages c)));
  cold_vmas : vma_wf (vma_nodes (c_pages c)) vma_tree_init;
  cold_pool : Z.of_nat (length (slab_metadata_pool (c_heap c))) = HEAP_MAX_SLABS;
  cold_caches : Z.of_nat (length (slab_caches (c_heap c))) = SLAB_CACHE_COUNT
}.

Lemma via_wp {S A} (get : computer -> S) put (m : M S A) (Q : A -> computer -> Prop) c :
  wp m (fun a s => Q a (put s c)) (get c) -> wp (via get put m) Q c.
Proof. unfold wp, via. by destruct (m (get c)). Qed.

Lemma initialised_frames s0 s1 f : initialised img s0 s1 -> initialised img (set_frames f s0) (set_frames f s1).
Proof. intros [T K Ms F Sp Ro Ot Tr [_ Re]]. by split. Qed.

(** A frame that holds no byte of the image holds no page table. *)
Lemma free_frames_clear s0 s1 f g x :
  linked -> initialised img s0 s1 ->
  (forall a, g * 4096 <= a < (g + 1) * 4096 -> ~ start_phys <= a < end_phys) -> g * PAGE_SIZE <= x < g * PAGE_SIZE + PAGE_SIZE ->
  ~ table_byte img (set_frames f s1) x.
Proof.
  intros L I Hov Hx Ht. apply (Hov x); [unfold PAGE_SIZE in Hx; lia|].
  pose proof (lk_tables L) as T. unfold image_tables in T. rewrite !Forall_cons in T.
  destruct T as (T1 & _ & _ & T2 & T3 & T4 & _). cbn [fst snd] in *.
  destruct Ht as [H|[H|[H|[H|(i & sp & Hi & Hsp & H)]]]]; try lia.
  destruct (in_space _ _ _ I) as [Hc _]. destruct (in_root _ _ _ I) as [Hr _].
  change (current_space (set_frames f s1)) with (current_space s1) in Hi. change (paging_spaces (set_frames f s1)) with (paging_spaces s1) in Hsp.
  rewrite Hc in Hi. injection Hi as <-. change (Z.to_nat 0) with 0%nat in Hsp. rewrite Hr in Hsp. injection Hsp as <-. simpl in H. rewrite (pdpt_root img Hboot) in H. lia.
Qed.

Lemma virt_to_phys_run s0 s1 v : initialised img s0 s1 -> 0 <= pa v < KERNEL_DIRECT_MAP_LIMIT_PHYS -> paging_virt_to_phys img v s1 = Done (pa v) s1.
Proof.
  intros I Hv. pose proof (init_translate_direct img Hboot s0 s1 (pa v) I Hv) as Ht. replace (KERNEL_VMA + pa v) with v in Ht by (unfold pa; lia).
  unfold paging_virt_to_phys. by rewrite (run_bind_done _ _ _ _ _ Ht).
Qed.

(** The last two steps, once the frames are known. *)
Lemma start_heap c :
  paging_mode (c_pages c) = PAGING_MODE_PAE -> heap_zeroed (c_heap c) ->
  wp (on_pages (paging_finalize_bootstrap img) ;;; on_heap heap_init)
     (fun _ c' => exists h, c' = set_cheap h c /\ Heap.pages h = c_pages c /\ heap_reachable (lm_slab_pool lm) h ∅) c.
Proof.
  intros Hm Hz. destruct (wp_Done _ _ _ (heap_init_spec (lm_slab_pool lm) (c_heap c) Hz)) as ([] & h & Hrun & HI & Hp & _).
  assert (Hfin : paging_finalize_bootstrap img (c_pages c) = Done tt (c_pages c)).
  { revert Hm. generalize (c_pages c). intros [m fr ? ? ? ? ? mode ? ? ? ? ? ? ? ?] Hm. simpl in Hm. subst mode.
    unfold paging_finalize_bootstrap, on_pmm, pmm_is_initialized, bind, gets. simpl. by destruct (initialized fr). }
  wp_step. apply via_wp. eapply Done_wp; [exact Hfin|]. assert (Hs : set_cpages (c_pages c) c = c) by (by destruct c as [? ? ? ? [] ? ? ? ? ? ? ? ?]).
  rewrite Hs. apply via_wp. eapply Done_wp; [exact Hrun|]. exists h. split; [done|]. split; [exact Hp|]. exact (reach_init _ _ _ Hz Hrun).
Qed.

(** What is in place after the memory components have started. *)
Record memory_started (c c' : computer) : Prop := {
  ms_heap : heap_reachable (lm_slab_pool lm) (c_heap c') ∅;
  ms_pages : kernel_pages img (c_pages c');
  ms_direct p : 0 <= p < KERNEL_DIRECT_MAP_LIMIT_PHYS ->
    paging_translate_address img (KERNEL_VMA + p) (c_pages c') = Done (Some p) (c_pages c');
  ms_total : total_frames (frames (c_pages c')) = pages_for (top_address regions);
  ms_free g : 0 <= g < pages_for (top_address regions) -> frame_used (frames (c_pages c')) g = false <->
    Exists (fun r => available_frame r g) regions /\
    forall a, g * 4096 <= a < (g + 1) * 4096 ->
      ~ PmmInit.kept_byte start_phys end_phys (pages_for (top_address regions)) (boot_view c') a;
  ms_memory : tables_kept (image_tables img) (phys (c_pages c)) (phys (c_pages c'));
  ms_boot : boot_view c' = loaded addr (phys (c_pages c'));
  ms_rest : c' = set_cheap (c_heap c') (set_cboot (c_boot c') c)
}.

Lemma boot_memory_spec c :
  linked -> cold c -> boot_data (image_tables img) addr regions (phys (c_pages c)) -> top_address regions <> 0 ->
  wp (boot_memory img lm MULTIBOOT_BOOTLOADER_MAGIC addr) (fun _ c' => memory_started c c') c.
Proof.
  intros L C D Hh. set (s0 := c_pages c).
  unfold boot_memory. wp_step. apply via_wp. eapply wp_mono; [apply (paging_init_spec img Hboot), (cold_spaces c C)|].
  intros [] s1 I. pose proof (boot_data_kept _ _ _ _ _ (in_kept _ _ _ I) D) as D1. destruct (in_rest _ _ _ I) as [Hf Hn].
  pose proof (bd_addr _ _ _ _ D1) as Ha. unfold sizeof_multiboot_info_t in Ha.
  pose proof (lk_start L). pose proof (lk_window L). unfold BOOTSTRAP_WINDOW_SIZE, KERNEL_DIRECT_MAP_LIMIT_PHYS in *.
  wp_step. apply via_wp. unfold bootinfo_init. do 2 wp_step. change (MULTIBOOT_BOOTLOADER_MAGIC =? MULTIBOOT_BOOTLOADER_MAGIC) with true.
  simpl negb. cbv iota. do 2 wp_step. wp_step. eapply Done_wp; [apply phys_to_virt_spec; unfold KERNEL_DIRECT_MAP_LIMIT_PHYS; lia|].
  do 2 wp_step. wp_step. simpl negb. cbv iota.
  wp_step. apply via_wp. eapply Done_wp; [apply (virt_to_phys_run s0 s1); [exact I|unfold start_phys, end_phys, KERNEL_DIRECT_MAP_LIMIT_PHYS in *; lia]|].
  wp_step. apply via_wp. eapply Done_wp; [apply (virt_to_phys_run s0 s1); [exact I|unfold start_phys, end_phys, KERNEL_DIRECT_MAP_LIMIT_PHYS in *; lia]|].
  wp_step. wp_step. fold start_phys end_phys. wp_step. apply via_wp. apply on_pmm_wp.
  match goal with |- wp (pmm_init _ _ ?b) _ _ => change b with (loaded addr (phys s1)) end.
  match goal with |- wp _ _ ?f => change f with (frames s1) end. rewrite Hf.
  eapply wp_mono; [apply (pmm_init_exact start_phys end_phys (loaded addr (phys s1)) regions); [apply D1|done|done|apply L|apply C|apply C]|].
  intros _ f (Hr & Hi & Ht & Hfree). pose proof (initialised_frames _ _ f I) as If.
  assert (KP : kernel_pages img (set_frames f s1)) by (eapply (init_kernel_pages img Hboot); [exact If|done|done|apply C]).
  match goal with |- wp _ _ ?c2 => set (c1 := c2) end.
  assert (Hp1 : c_pages c1 = set_frames f s1) by done.
  eapply wp_mono; [apply start_heap|].
  - rewrite Hp1. apply (in_mode _ _ _ If).
  - split; [|apply C|apply C]. split; [exact KP|]. intros g x [Hg Hav] Hx. apply (free_frames_clear s0 s1 f g x L I); [|done].
    destruct Hav as [Hu|(v & Hd & Hv)].
    + intros a Ha' Him. simpl in Hg, Hu. rewrite Ht in Hg. apply (proj2 (proj1 (Hfree g Hg) Hu) a Ha'). by apply kept_image.
    + rewrite (init_no_frames img) in Hv; [done|exact (in_tables _ _ _ If)|done].
  - intros _ c' (h & -> & Hp & HR). rewrite Hp1 in Hp. assert (Hp' : c_pages (set_cheap h c1) = set_frames f s1) by exact Hp.
    assert (Hb' : boot_view (set_cheap h c1) = loaded addr (phys s1)) by (unfold boot_view; by rewrite Hp').
    split; rewrite ?Hp', ?Hb'; try done.
    + intros p Hp2. by apply (init_translate_direct img Hboot _ _ p If).
    + exact (in_kept _ _ _ I).
Qed.
End Memory.
