(* ===== verification/KernelBoot.v ===== *)
(** [kernel_main] up to its idle loop: the devices, the services and the tasks that it
    starts, on a machine with one processor. *)
From S2P Require Import Prelude Bootinfo Pmm PmmFacts PmmAlloc PmmSpec PmmInit SchedData Sched SchedApi SchedLists SchedInv SchedMoves SchedSettled SchedBalance SchedBoot SchedStart.
From S2P Require Import Vma VmaFacts Strings Vfs PagingData Paging PagingFacts PagingAlloc PagingBoot PagingProps Heap HeapSpec HeapPaging HeapProps.
From S2P Require Import Console Panic Modules Gdt Irq IrqSpec Keyboard Vga Platform Cpu CpuSpec CpuProps Ktest Kdebug KdebugSpec Kernel KernelSpec.
From Stdlib Require Import ZArith Lia.
From stdpp Require Import sets.
Open Scope Z_scope.

(** * One processor *)

Lemma prepare_alone img ebx edx msr s :
  length (smp_cpus s) = 8%nat -> length (apic_to_cpu s) = 256%nat -> cpu_has_local_apic edx = false ->
  wp (cpu_smp_prepare_topology img ebx edx msr) (fun config s' => topology_ok config /\ cfg_cpu_count config = 1 /\
    lapic_ready s' = false /\ Cpu.pages s' = Cpu.pages s /\ scheduler s' = scheduler s) s.
Proof.
  intros Hc Hm Ha. unfold cpu_smp_prepare_topology, lapic_enable_local_controller. rewrite Ha. cbn [negb]. cbv iota.
  wp_step. eapply wp_mono; [by apply fallback_spec|]. intros [] s1 (T1 & _ & _ & (c & m & n & b & st & rel & ->)).
  do 6 wp_step. wp_step. cbn [negb]. eapply wp_mono; [apply fallback_spec; apply T1|].
  intros [] s2 (T2 & C2 & B2 & (c2 & m2 & n2 & b2 & st2 & rel2 & E2)). do 3 wp_step.
  match goal with |- topology_ok (cpu_topology_config ?x) /\ _ => set (s3 := x) end.
  assert (T3 : topo [cpu_bootstrap_apic_id ebx] s3) by (destruct T2; by split).
  destruct (topology_accepted [cpu_bootstrap_apic_id ebx] s3 T3) as (Hok & Hn & _); [simpl; lia|exact C2|exact B2|].
  split; [exact Hok|]. split; [exact Hn|]. subst s3. rewrite E2. done.
Qed.

(** Counting modules changes nothing. *)
Lemma count_modules_wp {W} test (s : modules W) (Q : Z -> modules W -> Prop) : (forall n, Q n s) -> wp (count_modules test) Q s.
Proof.
  intros HQ. unfold count_modules. do 3 wp_step.
  apply (wp_for_acc _ _ _ _ (fun _ _ s' => s' = s)); [unfold registered_module_count; lia|done| |].
  - intros i acc s' Hi ->. do 2 wp_step. wp_step. unfold registered_module_count in Hi.
    destruct (lookup_lt_is_Some_2 (registered_modules s) (Z.to_nat i)) as [m Hm]; [lia|]. eapply wp_of_option; [exact Hm|]. by wp_step.
  - intros acc s' ->. wp_step. apply HQ.
Qed.

(** * The devices *)

Section Main.
Context (img : kernel_image) (Hboot : boot_image_ok img) (hw : hardware) (lm : link_map).
Context (tick_handler : interrupt_handler keyboard) (tests : task_tests (D := devices_t)) (digits : list Z).

(** What the devices' drivers do not touch. *)
Record same_core (c c' : computer) : Prop := {
  sc_boot : c_boot c' = c_boot c;
  sc_heap : c_heap c' = c_heap c;
  sc_smp : scheduler (c_smp c') = scheduler (c_smp c) /\ smp_cpus (c_smp c') = smp_cpus (c_smp c) /\ apic_to_cpu (c_smp c') = apic_to_cpu (c_smp c);
  sc_eflags : c_eflags c' = c_eflags c;
  sc_tests : c_tests c' = c_tests c /\ tests_registered c' = tests_registered c
}.

#[local] Instance same_core_preorder : PreOrder same_core.
Proof.
  split; [by split|]. intros c1 c2 c3 [B1 H1 (S1 & U1 & A1) E1 [T1 R1]] [B2 H2 (S2 & U2 & A2) E2 [T2 R2]].
  split; [congruence|congruence|split; [|split]; congruence|congruence|split; congruence].
Qed.

(** The static variables of the drivers before start-up. *)
Record cold_devices (c : computer) : Prop := {
  cd_modules : c_modules c = mk_modules [] [] [] (c_platform c);
  cd_console : registered_drivers (pl_console (c_platform c)) = [];
  cd_names : length (active_driver_names (pl_console (c_platform c))) = 128%nat;
  cd_screen : length (terminal_buffer (devices (pl_console (c_platform c))).1) = 2000%nat;
  cd_idt : length (idt (pl_machine (c_platform c))) = 256%nat;
  cd_handlers : length (handlers (pl_machine (c_platform c))) = 256%nat;
  cd_gdt : length (gdt (c_descriptors c)) = 6%nat
}.
Record stubs_linked : Prop := {
  sl_tss : fits 32 (lm_tss lm);
  sl_count : length (lm_stubs lm) = 51%nat;
  sl_stubs : Forall (fits 32) (lm_stubs lm)
}.

(** The drivers that are in place. *)
Record drivers_up (p : platform) : Prop := {
  du_pic : active_controller (pl_machine p) = Some i386_pic_irq_controller;
  du_timer : pl_timer p = Some i386_pit_timer_driver;
  du_input : pl_input p = Some (i386_ps2_keyboard_driver (hw_keyboard hw));
  du_handlers : length (handlers (pl_machine p)) = 256%nat
}.

(** The keyboard's and the timer's interrupts are unmasked and handled. *)
Record interrupts_served (m : machine keyboard) : Prop := {
  is_pic : active_controller m = Some i386_pic_irq_controller;
  is_mask : pic_mask (m_chip m) = 0xFFFC;
  is_timer : handlers m !! 32%nat = Some (Some tick_handler);
  is_keyboard : handlers m !! 33%nat = Some (Some (ps2_keyboard_interrupt (hw_keyboard hw)))
}.

Lemma vga_starts (d : devices_t) :
  length (terminal_buffer d.1) = 2000%nat -> exists init, drv_init vga_driver = Some init /\ fst (init d) = true.
Proof.
  intros Hl. eexists. split; [reflexivity|]. destruct (wp_Done _ _ _ (init_rep d.1 Hl)) as (ok & t & Hrun & -> & _).
  unfold run_init. simpl. unfold run_init. by rewrite Hrun.
Qed.

Lemma console_starts s :
  registered_drivers s = (if hw_scratch hw 0x5A =? 0x5A then [Some vga_driver; Some (serial_driver (hw_line_status hw) (hw_polls hw))] else [Some vga_driver]) ->
  length (active_driver_names s) = 128%nat -> length (terminal_buffer (devices s).1) = 2000%nat ->
  exists s', console_initialize s = Done true s'.
Proof.
  intros Hr Hn Hl. destruct (vga_starts (devices s) Hl) as (init & Hi & Hok).
  assert (Hc : Z.of_nat (length (registered_drivers s)) <= CONSOLE_DRIVER_CAPACITY) by (rewrite Hr; destruct (_ =? _); unfold CONSOLE_DRIVER_CAPACITY; simpl; lia).
  assert (Ht : Forall is_text (driver_names (omap id (registered_drivers s)))).
  { rewrite Hr. destruct (_ =? _); apply (bool_decide_unpack _); vm_compute; exact I. }
  pose proof (console_initialize_correct s Hn Hc Ht) as H. destruct (select_drivers _ _) as [active d] eqn:Es.
  destruct H as (names & Hrun & _). eexists. rewrite Hrun. f_equal.
  assert (Ha : exists l, active = vga_driver :: l).
  { rewrite Hr in Es. destruct (_ =? _); cbn [select_drivers] in Es; rewrite Hi, Hok in Es; cbn [fst snd] in Es; injection Es as <- _; by eexists. }
  destruct Ha as [l ->]. simpl. lia.
Qed.

Lemma devices_spec c addr :
  cold_devices c -> stubs_linked ->
  wp (boot_devices hw lm MULTIBOOT_BOOTLOADER_MAGIC addr)
     (fun _ c' => same_core c c' /\ drivers_up (c_platform c') /\ pic_mask (m_chip (pl_machine (c_platform c'))) = 0xFFFF /\
       stack_chk_guard c' = guard_of MULTIBOOT_BOOTLOADER_MAGIC addr) c.
Proof.
  intros [Hm Hc Hn Hs Hi Hh Hg] [St Sc Sf]. unfold boot_devices.
  wp_step. apply via_wp. rewrite Hm. eapply wp_mono; [by apply platform_register_drivers_correct|].
  intros [] ms (R1 & R2 & R3 & R4 & R5 & R6 & R7 & R8 & R9).
  wp_step. apply via_wp. destruct (console_starts (pl_console (world ms))) as [con Hcon]; [exact R1|by rewrite R6|by rewrite R5|].
  eapply Done_wp; [exact Hcon|]. cbn [negb]. cbv iota. unfold printf, stack_protector_init. do 4 wp_step.
  change (MULTIBOOT_BOOTLOADER_MAGIC =? MULTIBOOT_BOOTLOADER_MAGIC) with true. cbn [negb]. cbv iota.
  wp_step. apply via_wp. destruct (gdt_init_correct (lm_gdt lm) (lm_tss lm) (c_descriptors c) 0 Hg St) as (ds & Hgdt & _).
  eapply Done_wp; [exact Hgdt|]. apply via_wp. eapply wp_mono; [apply idt_init_correct; [exact (eq_trans (f_equal length R8) Hi)|done|done|exact R2]|].
  intros [] mc (_ & _ & _ & Hmask & Hhan & Hac & _). split; [by split|]. split; [|by split].
  split; [exact (eq_trans Hac R2)|exact R3|exact R4|]. exact (eq_trans (f_equal length Hhan) (eq_trans (f_equal length R7) Hh)).
Qed.

Lemma input_starts m :
  active_controller m = Some i386_pic_irq_controller -> length (handlers m) = 256%nat -> pic_mask (m_chip m) = 0xFFFF ->
  exists m', input_initialize (Some (i386_ps2_keyboard_driver (hw_keyboard hw))) m = Done true m' /\
    active_controller m' = Some i386_pic_irq_controller /\ length (handlers m') = 256%nat /\ pic_mask (m_chip m') = 0xFFFD /\
    handlers m' !! 33%nat = Some (Some (ps2_keyboard_interrupt (hw_keyboard hw))).
Proof.
  intros Hc Hl Hk. destruct m as [[mk ports] ac h i sz ld fr dr]. simpl in Hc, Hl, Hk. subst ac mk.
  unfold input_initialize. cbn [input_init i386_ps2_keyboard_driver]. unfold ps2_keyboard_init.
  unfold irq_register_handler, register_interrupt_handler, irq_enable, on_chip, bind, gets, modify, ret. cbn. eexists. split; [done|].
  split; [done|]. cbn [handlers set_chip set_handlers set_drivers]. change (Z.to_nat (u8 _)) with 33%nat. split; [by rewrite length_insert|]. split; [done|].
  apply list_lookup_insert_eq. lia.
Qed.

Lemma timer_starts m :
  active_controller m = Some i386_pic_irq_controller -> length (handlers m) = 256%nat -> pic_mask (m_chip m) = 0xFFFD ->
  handlers m !! 33%nat = Some (Some (ps2_keyboard_interrupt (hw_keyboard hw))) ->
  exists m', timer_initialize (Some i386_pit_timer_driver) 100 (Some tick_handler) m = Done true m' /\ interrupts_served m'.
Proof.
  intros Hc Hl Hk Hkb. destruct m as [[mk ports] ac h i sz ld fr dr]. simpl in Hc, Hl, Hk, Hkb. subst ac mk. unfold timer_initialize. cbn [timer_init i386_pit_timer_driver]. unfold pit_timer_init. change (100 =? 0) with false. cbv iota.
  unfold irq_register_handler, register_interrupt_handler, irq_enable, on_chip, bind, gets, modify, ret. cbn. eexists. split; [done|].
  split; [done|done| |]; cbn [handlers set_chip set_handlers set_frequency]; change (Z.to_nat (u8 _)) with 32%nat.
  - apply list_lookup_insert_eq. lia.
  - by rewrite list_lookup_insert_ne.
Qed.

(** * The debugger *)

(** Registering tests changes the registry and the output only. *)
Lemma register_hook_wp name h (s : registry (D := devices_t)) :
  wp (kdebug_register_test_hook name h) (fun _ s' => exists l o, s' = mk_ktest l (Kdebug.set_out o (Ktest.kernel s))) s.
Proof.
  unfold kdebug_register_test_hook. wp_step. unfold ktest_register_subsystem.
  assert (H0 : exists l o, s = mk_ktest l (Kdebug.set_out o (Ktest.kernel s))) by (exists (ktest_registry s), (k_out (Ktest.kernel s)); by destruct s as [? []]).
  assert (Hend : forall b s', (exists l o, s' = mk_ktest l (Kdebug.set_out o (Ktest.kernel s))) ->
    wp (if b : bool then ret tt else in_kernel (Kdebug.printf ("kdebug: failed to register test hook '%s'" ++ nl) [AText name]))
       (fun _ s' => exists l o, s' = mk_ktest l (Kdebug.set_out o (Ktest.kernel s))) s').
  { intros [] s' (l & o & ->); [wp_step; by exists l, o|]. unfold wp, in_kernel, Kdebug.printf, modify. cbn. by eexists _, _. }
  destruct (bytes_of name) as [|x n]; [wp_step; by apply (Hend false)|]. do 2 wp_step. case_match.
  - do 2 wp_step. wp_step. apply (Hend true). destruct H0 as (l' & o & E'). rewrite E'. by eexists _, _.
  - wp_step; [wp_step; by apply (Hend false)|]. do 2 wp_step. wp_step. apply (Hend true). destruct H0 as (l' & o & E'). rewrite E'. by eexists _, _.
Qed.

Lemma register_tests_wp registered (s : registry (D := devices_t)) :
  wp (kdebug_register_tests img (bok_image img Hboot) (lm_slab_pool lm) tests digits registered)
     (fun b s' => b = true /\ exists l o, s' = mk_ktest l (Kdebug.set_out o (Ktest.kernel s))) s.
Proof.
  assert (Hstep : forall name h (k : M (registry (D := devices_t)) bool) s1,
    (exists l o, s1 = mk_ktest l (Kdebug.set_out o (Ktest.kernel s))) ->
    (forall s2, (exists l o, s2 = mk_ktest l (Kdebug.set_out o (Ktest.kernel s))) ->
       wp k (fun b s' => b = true /\ exists l o, s' = mk_ktest l (Kdebug.set_out o (Ktest.kernel s))) s2) ->
    wp (kdebug_register_test_hook name h ;;; k) (fun b s' => b = true /\ exists l o, s' = mk_ktest l (Kdebug.set_out o (Ktest.kernel s))) s1).
  { intros name h k s1 (l & o & ->) Hk. wp_step. eapply wp_mono; [apply register_hook_wp|]. intros _ s2 (l2 & o2 & ->). apply Hk. by exists l2, o2. }
  assert (H0 : exists l o, s = mk_ktest l (Kdebug.set_out o (Ktest.kernel s))) by (exists (ktest_registry s), (k_out (Ktest.kernel s)); by destruct s as [? []]).
  unfold kdebug_register_tests. destruct registered; [wp_step; by split|].
  do 8 (apply Hstep; [done|]; clear H0; intros ? H0). wp_step. by split.
Qed.

(** [kdebug_init] queues the debugger's task. *)
Lemma kdebug_spec L k s space stack registered :
  alone k L (pw_sched (k_panic (Ktest.kernel s))) -> 0 <= k < 32 ->
  wp (kdebug_init img (bok_image img Hboot) (lm_slab_pool lm) tests digits registered (lm_task_trampoline lm) (lm_kdebug_task lm) (Some space) (Some stack))
     (fun b s' => b = true /\ exists l o sc, s' = mk_ktest l (Kdebug.set_out o (Kdebug.set_debugger_active false
        (Kdebug.set_panic (mk_world (pw_log (k_panic (Ktest.kernel s))) (pw_eflags (k_panic (Ktest.kernel s))) (pw_console (k_panic (Ktest.kernel s))) sc)
          (Ktest.kernel s)))) /\ alone (k + 1) (queued L k SCHEDULER_PRIORITY_NORMAL) sc) s.
Proof.
  intros A Hk. unfold kdebug_init. wp_step. eapply wp_mono; [apply register_tests_wp|]. intros b s1 (-> & l & o & ->).
  wp_step. unfold wp at 1, in_kernel, modify. cbn [Ktest.kernel]. wp_step.
  destruct (wp_Done _ _ _ (create_one k L (pw_sched (k_panic (Ktest.kernel s))) (lm_task_trampoline lm) space stack (Some "kdebug"%string)
    (lm_kdebug_task lm) 0 scheduler_task_config_default A Hk ltac:(done))) as (ok & sc & Hrun & -> & A').
  unfold wp, in_kernel, Kdebug.on_sched, on. cbn [Ktest.kernel k_panic Kdebug.set_out Kdebug.set_debugger_active pw_sched].
  unfold scheduler_create_kernel_task. rewrite Hrun. cbn. split; [done|]. eexists _, _, sc. split; [reflexivity|exact A'].
Qed.
(** * The services *)

(** An archive is its bytes. *)
Lemma bytes_at_same m m' l : forall p, (forall x, p <= x < p + Z.of_nat (length l) -> m' x = m x) -> bytes_at m p l -> bytes_at m' p l.
Proof.
  induction l as [|c l IH]; intros p H Hb; [done|]. destruct Hb as [H1 H2]. cbn [length] in H. split.
  - unfold read_u8 in *. by rewrite H by lia.
  - apply IH; [|done]. intros x Hx. apply H. lia.
Qed.
Lemma cstr_same m m' l : forall p, (forall x, p <= x <= p + Z.of_nat (length l) -> m' x = m x) -> cstr m p l -> cstr m' p l.
Proof.
  induction l as [|c l IH]; intros p H Hb; cbn [cstr length] in *; unfold read_u8 in *; rewrite H by lia; [done|].
  destruct Hb as (H1 & H2 & H3). split; [done|]. split; [done|]. apply IH; [|done]. intros x Hx. apply H. lia.
Qed.
Lemma archive_same m m' limit es : forall c,
  (forall x, c <= x < limit -> m' x = m x) -> archive m c limit es -> archive m' c limit es.
Proof.
  induction es as [|e es IH]; intros c H Ha; cbn [archive] in *.
  - destruct (decide (limit < c + 512)); [by left|]. right. destruct Ha as [Ha|Ha]; [done|].
    intros i Hi. unfold read_u8 in *. rewrite H by lia. by apply Ha.
  - destruct Ha as ([H1 H2 H3 H4] & H5 & H6 & H7). pose proof (padded_bounds _ H5) as Hp. split; [|split; [done|split; [done|]]].
    + split; [|done| |].
      * apply (cstr_same m); [|done]. intros x Hx. apply H. lia.
      * apply (bytes_at_same m); [|done]. intros x Hx. rewrite length_app, octal_digits_length in Hx. simpl in Hx. apply H. lia.
      * unfold read_u8 in *. by rewrite H by lia.
    + apply IH; [|done]. intros x Hx. apply H. lia.
Qed.

(** There is no module, or the first one is a well-formed archive. *)
Definition files_ok (R : list (Z * Z)) (addr : Z) (m : memory) : Prop :=
  modules_told (loaded addr m) = 0 \/
  0 < modules_told (loaded addr m) /\ exists es, let mods := info_word (loaded addr m) 24 in
    clear_of R mods 8 /\ clear_of R (read_u32 m mods) (read_u32 m (mods + 4) - read_u32 m mods) /\
    read_u32 m mods <= read_u32 m (mods + 4) < KERNEL_DIRECT_MAP_LIMIT_PHYS /\
    archive (fun v => m (v - KERNEL_VMA)) (KERNEL_VMA + read_u32 m mods) (KERNEL_VMA + read_u32 m (mods + 4)) es.

Lemma files_ok_kept R addr regions m m' : tables_kept R m m' -> boot_data R addr regions m -> files_ok R addr m -> files_ok R addr m'.
Proof.
  intros Hk D Hf. unfold files_ok. rewrite (told_kept R addr regions m m' Hk D), (info_kept R addr regions m m' 24 Hk D) by lia.
  destruct Hf as [Hf|(Hp & es & C1 & C2 & Hr & Ha)]; [by left|]. right. split; [done|]. exists es.
  rewrite !(kept_u32 R m m') by (done || (eapply clear_of_sub; [exact C1|lia|lia])). split_and!; try done; try lia.
  eapply archive_same; [|exact Ha]. intros x Hx. apply Hk. eapply Forall_impl; [exact C2|]. intros r. unfold apart. lia.
Qed.

Lemma files_spec R addr regions c :
  boot_data R addr regions (phys (c_pages c)) -> files_ok R addr (phys (c_pages c)) ->
  wp (vfs_init (loaded addr (phys (c_pages c)))) (fun _ _ => True) (files_view c).
Proof.
  intros D Hf. pose proof (bd_tables _ _ _ _ D) as T. unfold vfs_init. do 2 wp_step. rewrite (tables_count _ _ T).
  destruct Hf as [Hz|(Hp & es & _ & _ & Hr & Ha)]; [rewrite Hz; by apply wp_ret|].
  replace (_ =? 0) with false by lia. wp_step. eapply wp_reading; [apply (tables_module _ _ T 0); lia|].
  unfold module_entry. rewrite Z.mul_0_r, Z.add_0_r. cbn [Bootinfo.mod_start Bootinfo.mod_end].
  eapply Done_wp; [|exact I]. apply (vfs_load_run _ _ _ es); [exact Hr|apply read_u32_fits|done|exact Ha].
Qed.

(** What the services leave as it is. *)
Record same_base (c c' : computer) : Prop := {
  sb_heap : c_heap c' = c_heap c;
  sb_guard : stack_chk_guard c' = stack_chk_guard c;
  sb_eflags : c_eflags c' = c_eflags c
}.
#[local] Instance same_base_preorder : PreOrder same_base.
Proof. split; [by split|]. intros c1 c2 c3 [] []. split; congruence. Qed.

Lemma set_pages_same (c : computer) : Heap.set_pages (c_pages c) (c_heap c) = c_heap c.
Proof. unfold c_pages. by destruct (c_heap c). Qed.

(** A step on the processors that leaves the pages alone. *)
Lemma on_smp_wp {A} (m : M smp A) (Q : A -> computer -> Prop) c :
  wp m (fun a v => Cpu.pages v = c_pages c /\ Q a (set_smp v c)) (Cpu.set_pages (c_pages c) (c_smp c)) -> wp (on_smp m) Q c.
Proof.
  intros H. apply via_wp. eapply wp_mono; [exact H|]. intros a v [Hp HQ]. rewrite Hp. unfold set_cpages. rewrite set_pages_same.
  by destruct c.
Qed.

(** The scheduler is configured for one processor. *)
Lemma topology_starts {A} c (K : M computer A) (Q : A -> computer -> Prop) :
  SchedBoot.cold (scheduler (c_smp c)) -> length (smp_cpus (c_smp c)) = 8%nat -> length (apic_to_cpu (c_smp c)) = 256%nat ->
  cpu_has_local_apic (hw_cpuid_edx hw) = false ->
  (forall config v, topology_ok config -> cfg_cpu_count config = 1 -> settled (scheduler v) all_free ->
     fresh_cpus config (scheduler v) -> (scheduler v).(scheduler_bootstrapped) = false -> lapic_ready v = false ->
     wp K Q (set_smp v c)) ->
  wp (on_sched scheduler_init ;;;
      topology <- on_smp (cpu_smp_prepare_topology img (hw_cpuid_ebx hw) (hw_cpuid_edx hw) (hw_apic_base hw)) ;;
      ok <- on_sched (scheduler_configure_topology topology) ;;
      if negb ok then panic "failed to apply cpu topology" else K) Q c.
Proof.
  intros Hc H8 H256 Ha HK. wp_step. apply via_wp. apply init_spec; [exact Hc|]. intros s1 S1 F1 B1 N1 T1.
  wp_step. apply on_smp_wp. eapply wp_mono; [apply prepare_alone; [exact H8|exact H256|exact Ha]|].
  intros config v (Hok & H1 & Hl & Hp & Hs). split; [exact Hp|]. cbn in Hs. wp_step. apply via_wp.
  cbn [c_smp set_smp]. rewrite Hs. apply configure_spec; [exact S1|exact B1|exact Hok|].
  intros s2 S2 F2 B2 T2 N2. cbn [negb]. cbv iota. by apply (HK config (Cpu.set_scheduler s2 v)).
Qed.

(** The bootstrap task is the only task, and there is no other processor to start. *)
Lemma bootstrap_starts {A} c config icr tr cr0 cr3 cr4 entry space online (K : M computer A) (Q : A -> computer -> Prop) :
  topology_ok config -> cfg_cpu_count config = 1 -> settled (scheduler (c_smp c)) all_free ->
  fresh_cpus config (scheduler (c_smp c)) -> (scheduler (c_smp c)).(scheduler_bootstrapped) = false -> lapic_ready (c_smp c) = false ->
  (forall v, alone 1 (upd all_free SchedData.free_list (seqZ 1 31)) (scheduler v) -> wp K Q (set_smp v c)) ->
  wp (pg <- gets c_pages ;;
      on_sched (scheduler_bootstrap_current (default 0 (kernel_space pg)) (default 0 (current_space pg)) (hw_esp hw) (Some "bootstrap"%string)) ;;;
      pg <- gets c_pages ;;
      ok <- on_smp (cpu_smp_start_secondary_cores img icr tr cr0 (cr3 pg) cr4 entry (space pg) online) ;;
      if negb ok then panic "failed to start secondary cpus" else
      on_smp cpu_smp_release_secondary_cores ;;; K) Q c.
Proof.
  intros Hok H1 S F B Hl HK. do 2 wp_step. wp_step. apply via_wp. eapply wp_mono; [by apply (bootstrap_one _ config)|].
  intros [] s1 A1. do 2 wp_step. wp_step. apply on_smp_wp. unfold cpu_smp_start_secondary_cores. do 2 wp_step.
  cbn [id set_smp c_smp Cpu.set_scheduler Cpu.set_pages lapic_ready]. rewrite Hl. cbn [negb orb]. wp_step. split; [done|]. cbn [negb]. cbv iota.
  wp_step. apply on_smp_wp. unfold cpu_smp_release_secondary_cores. do 2 wp_step.
  cbn [id set_smp c_smp Cpu.set_scheduler Cpu.set_pages lapic_ready]. rewrite Hl. cbn [negb orb]. wp_step. split; [done|].
  match goal with |- wp _ _ ?c2 => change (wp K Q (set_smp (c_smp c2) c)) end. by apply HK.
Qed.

Lemma services_spec R addr regions c space stack :
  drivers_up (c_platform c) -> pic_mask (m_chip (pl_machine (c_platform c))) = 0xFFFF ->
  boot_view c = loaded addr (phys (c_pages c)) ->
  boot_data R addr regions (phys (c_pages c)) -> files_ok R addr (phys (c_pages c)) ->
  SchedBoot.cold (scheduler (c_smp c)) -> length (smp_cpus (c_smp c)) = 8%nat -> length (apic_to_cpu (c_smp c)) = 256%nat ->
  cpu_has_local_apic (hw_cpuid_edx hw) = false ->
  wp (boot_services img (bok_image img Hboot) hw lm tick_handler tests digits (mk_task_memory (Some space) (Some stack)))
     (fun _ c' => same_base c c' /\ pl_timer (c_platform c') = Some i386_pit_timer_driver /\ interrupts_served (pl_machine (c_platform c')) /\
        alone 2 (queued (upd all_free SchedData.free_list (seqZ 1 31)) 1 SCHEDULER_PRIORITY_NORMAL) (scheduler (c_smp c'))) c.
Proof.
  intros [Dp Dt Di Dh] Hmask Hbv D Hfiles Hcold H8 H256 Ha. unfold boot_services.
  do 2 wp_step. wp_step. apply via_wp. rewrite Di. destruct (input_starts _ Dp Dh Hmask) as (m1 & Hrun1 & P1 & L1 & K1 & V1).
  eapply Done_wp; [exact Hrun1|]. cbn [negb]. cbv iota. do 2 wp_step. wp_step. apply via_wp.
  match goal with |- wp (vfs_init ?b) _ _ => change b with (boot_view c) end. rewrite Hbv.
  match goal with |- wp _ _ ?f => change f with (files_view c) end.
  eapply wp_mono; [by apply (files_spec R addr regions)|]. intros [] fs _.
  apply topology_starts; [exact Hcold|exact H8|exact H256|exact Ha|]. intros config v Hok H1 S F B Hl.
  wp_step. apply via_wp. rewrite Dt. destruct (timer_starts m1 P1 L1 K1 V1) as (m2 & Hrun2 & Hs).
  eapply Done_wp; [exact Hrun2|]. cbn [negb]. cbv iota.
  apply (bootstrap_starts _ config); [exact Hok|exact H1|exact S|exact F|exact B|exact Hl|]. intros v2 A.
  do 2 wp_step. wp_step. apply via_wp. cbn [tm_space tm_stack]. eapply wp_mono; [apply (kdebug_spec (upd all_free SchedData.free_list (seqZ 1 31)) 1); [exact A|lia]|].
  intros b r (-> & l & o & sc & -> & A'). wp_step. split; [by split|]. split; [reflexivity|]. split; [exact Hs|exact A'].
Qed.

(** * The banner and the tasks *)

(** What the banner leaves as it is: it only reads what it prints. *)
Record reads (c c' : computer) : Prop := {
  rd_base : same_base c c';
  rd_platform : c_platform c' = c_platform c;
  rd_scheduler : scheduler (c_smp c') = scheduler (c_smp c)
}.
#[local] Instance reads_preorder : PreOrder reads.
Proof. split; [by split|]. intros c1 c2 c3 [] []. split; [by etransitivity|congruence..]. Qed.

Lemma read_wp {S A B} (get : computer -> S) put (m : M S A) (K : A -> M computer B) (Q : B -> computer -> Prop) c0 c :
  reads c0 c -> wp m (fun _ s => s = get c) (get c) -> reads c (put (get c) c) ->
  (forall a c', reads c0 c' -> wp (K a) Q c') -> wp (a <- via get put m ;; K a) Q c.
Proof.
  intros H0 Hm Hr HK. wp_step. apply via_wp. eapply wp_mono; [exact Hm|]. intros a s ->. apply HK. by etransitivity.
Qed.
Lemma gets_wp {S A} (f : S -> A) s : wp (gets f) (fun _ s' => s' = s) s.
Proof. by wp_step. Qed.
Lemma print_wp {B} format args (K : M computer B) (Q : B -> computer -> Prop) c0 c :
  reads c0 c -> (forall c', reads c0 c' -> wp K Q c') -> wp (printf format args ;;; K) Q c.
Proof. intros H0 HK. unfold printf. do 2 wp_step. apply HK. etransitivity; [exact H0|]. by split. Qed.

Lemma free_kib_wp (s : pmm) : pmm_ready s -> wp pmm_free_memory_kib (fun _ s' => s' = s) s.
Proof. intros R. unfold pmm_free_memory_kib. apply wp_locked_shape; [done|]. wp_step. split; [done|]. by rewrite unlocked_same by apply R. Qed.

Lemma frames_read_wp {A} (m : M pmm A) (p : paging) : wp m (fun _ s => s = frames p) (frames p) -> wp (on_pmm m) (fun _ s => s = p) p.
Proof. intros H. apply on_pmm_wp. eapply wp_mono; [exact H|]. intros _ s ->. by destruct p. Qed.

(** Writing back what was read. *)
Lemma put_heap_reads c : reads c (set_cheap (c_heap c) c).
Proof. by split. Qed.
Lemma put_pages_reads c : reads c (set_cpages (c_pages c) c).
Proof. unfold set_cpages. rewrite set_pages_same. apply put_heap_reads. Qed.
Lemma put_platform_reads c :
  let p := c_platform c in reads c (set_platform (mk_platform (pl_console p) (pl_machine p) (pl_timer p) (pl_input p)) c).
Proof. split; [by split| |done]. unfold set_platform, c_platform. simpl. by destruct (world (c_modules c)). Qed.
Lemma put_smp_reads c : reads c (set_smp (Cpu.set_pages (c_pages c) (c_smp c)) (set_cpages (c_pages c) c)).
Proof. etransitivity; [apply put_pages_reads|]. by split. Qed.

(** One step of the banner, which started on [c]. *)
Ltac banner_step c read :=
  first [ apply (print_wp _ _ _ _ c); [assumption|]; intros ? ?
        | eapply (read_wp _ _ _ _ _ c);
            [ assumption | first [apply gets_wp | apply frames_read_wp, gets_wp | read]
            | first [apply put_pages_reads | apply put_smp_reads | apply put_platform_reads | apply put_heap_reads | by split] |];
          intros ? ? ? ].

Lemma banner_spec c :
  pmm_ready (frames (c_pages c)) -> pl_timer (c_platform c) = Some i386_pit_timer_driver -> wp boot_banner (fun _ c' => reads c c') c.
Proof.
  intros R Ht. assert (Hready : forall c', reads c c' -> pmm_ready (frames (c_pages c'))).
  { intros c' [[Hh _ _] _ _]. unfold c_pages in *. by rewrite Hh. }
  assert (R0 : reads c c) by done. unfold boot_banner.
  banner_step c ltac:(apply frames_read_wp, node_count_wp; [exact R|done]).
  banner_step c idtac.
  banner_step c ltac:(by apply frames_read_wp, free_kib_wp, Hready).
  do 3 banner_step c idtac.
  banner_step c idtac.
  banner_step c ltac:(unfold paging_mode_name; by do 3 wp_step).
  do 9 banner_step c idtac.
  do 2 wp_step. match goal with H : reads c ?x |- context [c_platform ?x] => rewrite (rd_platform _ _ H), Ht end.
  do 3 banner_step c idtac.
  banner_step c ltac:(unfold irq_controller_name; by do 3 wp_step).
  do 4 banner_step c idtac.
  do 4 banner_step c ltac:(by apply count_modules_wp).
  banner_step c idtac. unfold printf. wp_step. etransitivity; [eassumption|]. by split.
Qed.

(** A task is created at some priority. *)
Lemma worker_spec name arg priority k L c space stack :
  alone k L (scheduler (c_smp c)) -> 0 <= k < 32 -> 0 <= priority < SCHEDULER_PRIORITY_COUNT ->
  wp (create_worker lm name arg priority (mk_task_memory (Some space) (Some stack)))
     (fun _ c' => exists sc, c' = set_smp (Cpu.set_scheduler sc (c_smp c)) c /\ alone (k + 1) (queued L k priority) sc) c.
Proof.
  intros A Hk Hp. unfold create_worker. wp_step. apply via_wp. eapply wp_mono; [by apply (create_one k L)|].
  intros b sc (-> & A'). wp_step. by exists sc.
Qed.

(** * The whole of start-up *)

#[local] Instance main_store : PageStore paging := paging_store img (bok_image img Hboot).

(** The kernel when it enables interrupts: the heap is empty, the kernel's pages and the
    scheduler are consistent, the direct map is in place, the free frames are those
    of memory that hold nothing of low memory, of the kernel or of the boot loader, both interrupts are served, and of the three tasks that
    wait for the processor each is queued at its own priority. *)
Record kernel_running (addr : Z) (regions : list bootinfo_memory_region) (c0 c : computer) : Prop := {
  st_heap : heap_reachable (lm_slab_pool lm) (c_heap c) ∅;
  st_pages : kernel_pages img (c_pages c);
  st_direct p : 0 <= p < KERNEL_DIRECT_MAP_LIMIT_PHYS ->
    paging_translate_address img (KERNEL_VMA + p) (c_pages c) = Done (Some p) (c_pages c);
  st_frames g : 0 <= g < pages_for (top_address regions) -> frame_used (frames (c_pages c)) g = false <->
    Exists (fun r => available_frame r g) regions /\
    forall a, g * 4096 <= a < (g + 1) * 4096 ->
      ~ PmmInit.kept_byte (start_phys lm) (end_phys lm) (pages_for (top_address regions)) (loaded addr (phys (c_pages c))) a;
  st_guard : stack_chk_guard c = guard_of MULTIBOOT_BOOTLOADER_MAGIC addr;
  st_interrupts : interrupts_served (pl_machine (c_platform c));
  st_tasks : exists L, alone 4 L (scheduler (c_smp c)) /\
    L (runnable 0 SCHEDULER_PRIORITY_NORMAL) = [1] /\ L (runnable 0 SCHEDULER_PRIORITY_HIGH) = [2] /\ L (runnable 0 SCHEDULER_PRIORITY_LOW) = [3];
  st_eflags : c_eflags c = c_eflags c0
}.

Lemma kernel_main_spec c addr regions space stack space_a stack_a space_b stack_b :
  cold_devices c -> stubs_linked -> linked img lm regions -> KernelSpec.cold c ->
  boot_data (image_tables img) addr regions (phys (c_pages c)) -> top_address regions <> 0 -> files_ok (image_tables img) addr (phys (c_pages c)) ->
  SchedBoot.cold (scheduler (c_smp c)) -> length (smp_cpus (c_smp c)) = 8%nat -> length (apic_to_cpu (c_smp c)) = 256%nat ->
  cpu_has_local_apic (hw_cpuid_edx hw) = false ->
  wp (kernel_main img (bok_image img Hboot) hw lm tick_handler tests digits (mk_task_memory (Some space) (Some stack))
        (mk_task_memory (Some space_a) (Some stack_a)) (mk_task_memory (Some space_b) (Some stack_b)) MULTIBOOT_BOOTLOADER_MAGIC addr)
     (fun _ c' => exists c1, c' = interrupts_set c1 /\ kernel_running addr regions c c1) c.
Proof.
  intros Cd Sl Lk C D Hh Hf Cs H8 H256 Ha. unfold kernel_main.
  wp_step. eapply wp_mono; [by apply devices_spec|]. intros [] c1 ([B1 P1 (S1 & U1 & A1) F1 _] & Du & Hm & Hg).
  assert (Hpg : c_pages c1 = c_pages c) by (unfold c_pages; by rewrite P1).
  wp_step. eapply wp_mono; [apply (boot_memory_spec img Hboot lm addr regions); [done| | |done]|].
  { destruct C. split; by rewrite ?P1, ?Hpg. }
  { by rewrite Hpg. }
  intros [] c2 [M1 M2 M3 _ M5 M6 M7 M8]. rewrite Hpg in M6. wp_step.
  assert (Er : c_platform c2 = c_platform c1 /\ c_smp c2 = c_smp c1 /\ c_eflags c2 = c_eflags c1 /\ stack_chk_guard c2 = stack_chk_guard c1) by (by rewrite M8).
  destruct Er as (Ep & Es & Ee & Eg).
  eapply wp_mono; [apply (services_spec (image_tables img) addr regions)|].
  all: rewrite ?Ep, ?Es, ?S1, ?U1, ?A1; try done.
  { exact (boot_data_kept _ _ _ _ _ M6 D). }
  { exact (files_ok_kept _ _ _ _ _ M6 D Hf). }
  intros [] c3 ([H3 G3 E3] & Ht3 & I3 & A3). wp_step.
  assert (Hp3 : c_pages c3 = c_pages c2) by (unfold c_pages; by rewrite H3).
  eapply wp_mono; [apply banner_spec; [rewrite Hp3; apply (pok_pmm _ _ (kp_ok _ _ M2))|exact Ht3]|].
  intros [] c4 [[H4 G4 E4] P4 S4]. rewrite <- S4 in A3. wp_step.
  eapply wp_mono; [by apply (worker_spec _ _ _ 2 _ _ _ _ A3)|]. intros [] c5 (sc5 & -> & A5). wp_step.
  eapply wp_mono; [by eapply (worker_spec _ _ _ 3); [exact A5|..]|]. intros [] c6 (sc6 & -> & A6).
  unfold printf, interrupts_enable. do 3 wp_step. eexists. split; [reflexivity|]. split.
  - change (heap_reachable (lm_slab_pool lm) (c_heap c4) ∅). by rewrite H4, H3.
  - change (kernel_pages img (Heap.pages (c_heap c4))). by rewrite H4, H3.
  - change (forall p, 0 <= p < KERNEL_DIRECT_MAP_LIMIT_PHYS -> paging_translate_address img (KERNEL_VMA + p) (Heap.pages (c_heap c4)) = Done (Some p) (Heap.pages (c_heap c4))).
    by rewrite H4, H3.
  - match goal with |- context [frames (c_pages ?x)] =>
      assert (Hpe : c_pages x = c_pages c2) by (change (Heap.pages (c_heap c4) = Heap.pages (c_heap c2)); by rewrite H4, H3) end.
    rewrite Hpe, <- M7. exact M5.
  - change (stack_chk_guard c4 = guard_of MULTIBOOT_BOOTLOADER_MAGIC addr). congruence.
  - change (interrupts_served (pl_machine (c_platform c4))). by rewrite P4.
  - eexists. split; [exact A6|]. by vm_compute.
  - change (c_eflags c4 = c_eflags c). congruence.
Qed.

(** [boot_memory] panics on another loader's magic number. *)
Lemma bad_magic_memory c addr magic :
  KernelSpec.cold c -> magic <> MULTIBOOT_BOOTLOADER_MAGIC ->
  exists c', boot_memory img lm magic addr c = Panic "unsupported bootloader handoff (magic=0x%x)" c'.
Proof.
  intros C Hm. destruct (wp_Done _ _ _ (paging_init_spec img Hboot (c_pages c) (cold_spaces c C))) as ([] & s1 & Hrun & _).
  unfold boot_memory. rewrite (run_bind_done _ _ _ tt (set_cpages s1 c)) by (unfold on_pages, via; by rewrite Hrun).
  unfold bind, on_boot, via, bootinfo_init, modify. rewrite (proj2 (Z.eqb_neq _ _) Hm). cbn. by eexists.
Qed.

(** Another loader's magic number stops the kernel before it touches the processor's
    tables or memory. *)
Lemma bad_magic_panics c addr magic :
  cold_devices c -> magic <> MULTIBOOT_BOOTLOADER_MAGIC ->
  exists c', boot_devices hw lm magic addr c = Panic "invalid multiboot magic 0x%x" c' /\ same_core c c' /\ c_descriptors c' = c_descriptors c.
Proof.
  intros [Hm Hc Hn Hs _ _ _] Hmag. unfold boot_devices.
  assert (H : wp (on_modules (platform_register_drivers (hw_keyboard hw) (hw_line_status hw) (hw_scratch hw) (hw_polls hw)) ;;; on_console console_initialize)
    (fun ok c' => ok = true /\ same_core c c' /\ c_descriptors c' = c_descriptors c) c).
  { wp_step. apply via_wp. rewrite Hm. eapply wp_mono; [by apply platform_register_drivers_correct|].
    intros [] ms (R1 & _ & _ & _ & R5 & R6 & _). apply via_wp.
    destruct (console_starts (pl_console (world ms))) as [con Hcon]; [exact R1|by rewrite R6|by rewrite R5|].
    eapply Done_wp; [exact Hcon|]. split; [done|]. by split. }
  destruct (wp_Done _ _ _ H) as (ok & c1 & Hrun & -> & S1 & D1). rewrite <- run_bind_bind, (run_bind_done _ _ _ _ _ Hrun). cbn [negb]. cbv iota.
  unfold printf, stack_protector_init. run. rewrite (proj2 (Z.eqb_neq _ _) Hmag). cbn [negb]. cbv iota.
  eexists. split; [reflexivity|]. split; [|exact D1]. etransitivity; [exact S1|]. by split.
Qed.
End Main.

(** On a machine with one processor, from a well-formed Multiboot handoff and the
    static variables as they are linked, and given that paging has an address space and a
    stack for each of the three tasks, [kernel_main] runs through: no step panics, faults
    or waits for ever, where what it prints is only recorded.  When it enables interrupts,
    the console, the interrupt controller, the timer and the keyboard are in place and
    their interrupts unmasked and handled, the stack guard is seeded, the memory is as
    [boot_memory_correct] says, and the scheduler runs the bootstrap task, with the
    debugger and the two workers each queued at its priority. *)
Theorem kernel_main_correct img (Hboot : boot_image_ok img) hw lm tick_handler (tests : task_tests (D := devices_t)) digits c addr regions
    space stack space_a stack_a space_b stack_b :
  cold_devices c -> stubs_linked lm -> linked img lm regions -> KernelSpec.cold c ->
  boot_data (image_tables img) addr regions (phys (c_pages c)) -> top_address regions <> 0 -> files_ok (image_tables img) addr (phys (c_pages c)) ->
  SchedBoot.cold (scheduler (c_smp c)) -> length (smp_cpus (c_smp c)) = 8%nat -> length (apic_to_cpu (c_smp c)) = 256%nat ->
  cpu_has_local_apic (hw_cpuid_edx hw) = false ->
  exists c1, kernel_main img (bok_image img Hboot) hw lm tick_handler tests digits (mk_task_memory (Some space) (Some stack))
      (mk_task_memory (Some space_a) (Some stack_a)) (mk_task_memory (Some space_b) (Some stack_b)) MULTIBOOT_BOOTLOADER_MAGIC addr c =
      Done tt (interrupts_set c1) /\
    kernel_running img Hboot hw lm tick_handler addr regions c c1 /\ interrupts_on (c_eflags (interrupts_set c1)) = true.
Proof.
  intros Cd Sl Lk C D Hh Hf Cs H8 H256 Ha.
  destruct (wp_Done _ _ _ (kernel_main_spec img Hboot hw lm tick_handler tests digits c addr regions space stack space_a stack_a space_b stack_b
    Cd Sl Lk C D Hh Hf Cs H8 H256 Ha)) as ([] & c' & Hrun & c1 & -> & Hk).
  exists c1. split; [exact Hrun|]. split; [exact Hk|]. simpl. rewrite interrupts_on_testbit. unfold sti. rewrite Z.lor_spec. apply orb_true_r.
Qed.

(** C4: the memory part of [kernel_main], from [paging_init] to [heap_init], on a
    well-formed Multiboot handoff, with the static variables as they are linked and a
    page directory pointer table at the start of a page: every step returns.  Then the
    page tables map the first 256 MiB at the kernel's addresses and are consistent with
    the frame allocator; the allocator manages the frames up to the top of the map, and
    the free ones are exactly those that end in an available region and hold no byte of
    low memory, the kernel, the bitmap or the boot loader's data; the heap is an empty
    heap over these pages; memory outside the page tables and all other components are
    as before.  Another loader's magic number ends in a panic. *)
Theorem boot_memory_correct img (Hboot : boot_image_ok img) lm addr regions c :
  linked img lm regions -> KernelSpec.cold c -> boot_data (image_tables img) addr regions (phys (c_pages c)) -> top_address regions <> 0 ->
  (exists c', boot_memory img lm MULTIBOOT_BOOTLOADER_MAGIC addr c = Done tt c' /\ memory_started img Hboot lm addr regions c c') /\
  forall magic, magic <> MULTIBOOT_BOOTLOADER_MAGIC -> exists c', boot_memory img lm magic addr c = Panic "unsupported bootloader handoff (magic=0x%x)" c'.
Proof.
  intros L C D Ht. split.
  - destruct (wp_Done _ _ _ (boot_memory_spec img Hboot lm addr regions c L C D Ht)) as ([] & c' & Hrun & Hs). by exists c'.
  - intros magic Hm. by apply bad_magic_memory.
Qed.

(** ** A machine that start-up applies to *)

(** Sixteen megabytes of memory, otherwise with the Multiboot data of [sample_boot], no
    local APIC, a serial line that answers, and a kernel from 1 MB to 0x310000. *)
Definition roomy_memory : memory := fun a => if a =? 0x60E then 0 else if a =? 0x60F then 1 else sample_memory a.
Definition roomy_regions : list bootinfo_memory_region := [mk_region 0 0x1000000 1].
Definition sample_hardware : hardware := mk_hardware sample_keys (fun _ => 0x20) id 1 0 0 0 (fun _ => 0) 0 0 0xC0500000 (fun _ => true).
Definition sample_link : link_map :=
  mk_link_map 0xC0100000 0xC0310000 0xC0123000 0xC0124000 (replicate 51 0xC0101000) sample_pool
    (mk_trampoline [] 0 0 0 0 0 0 0) 0xC0102000 0xC0103000 0xC0104000 (0xC0110000, 0xC0110010) 0xC0105000.
Definition sample_platform : platform :=
  mk_platform (pl_console empty_platform)
    (mk_machine (mk_chip 0 []) None (replicate 256 None) (replicate 256 (mk_gate 0 0 0 0 0)) 0 0 0 (drivers keyboard_machine) None) None None.
Definition sample_computer : computer :=
  mk_computer (mk_modules [] [] [] sample_platform) 0x6f2c8e51 cold_descriptors
    (mk_bootinfo BOOTINFO_LOADER_UNKNOWN 0 None roomy_memory)
    (cold_heap (mk_paging roomy_memory cold_pmm (mk_pool [] false) vma_tree_init false false false PAGING_MODE_LEGACY
       (replicate 32 (mk_space false 0 0)) None None (fun _ => false) 0 0 0x300000 [])) []
    (mk_smp (replicate 8 no_cpu) (replicate 256 0) 1 0 0 None false false false [] 0 [] cold_paging cold_sched)
    (mk_log (replicate 8 zero_record) 0 0 0) 0x2 [] false false [].
Definition no_tests : task_tests (D := devices_t) := mk_task_tests (ret true) (ret true) (ret true) (ret true) (ret true) (ret true).

Lemma sample_linked : linked sample_image sample_link roomy_regions.
Proof. split; [by vm_compute..|]. repeat constructor; by vm_compute. Qed.

Lemma sample_clear p n : 0 <= n -> p + n <= 0x200000 -> clear_of (image_tables sample_image) p n.
Proof.
  intros Hn Hp. apply Forall_forall. intros r Hr. assert (0x200000 <= r.1).
  { revert r Hr. apply Forall_forall. apply (bool_decide_unpack _). by vm_compute. }
  unfold apart. lia.
Qed.

Lemma sample_boot_data : boot_data (image_tables sample_image) 0x500 roomy_regions roomy_memory.
Proof.
  split.
  - split; [reflexivity|reflexivity|by vm_compute|by vm_compute| |by vm_compute|].
    + split; [by vm_compute|]. split; [by vm_compute|]. split; [by vm_compute|]. apply map_at_cons; [done..|]. apply map_at_nil.
    + intros i. change (modules_told (loaded 0x500 roomy_memory)) with 0. lia.
  - by vm_compute.
  - by apply sample_clear.
  - by apply sample_clear.
  - intros i. change (modules_told (loaded 0x500 roomy_memory)) with 0. lia.
Qed.

Lemma kernel_main_correct_witness :
  exists c1, kernel_main sample_image (bok_image _ sample_boot_image) sample_hardware sample_link (fun f k => (f, k)) no_tests []
      (mk_task_memory (Some 1) (Some 0xE0000000)) (mk_task_memory (Some 2) (Some 0xE0010000)) (mk_task_memory (Some 3) (Some 0xE0020000))
      MULTIBOOT_BOOTLOADER_MAGIC 0x500 sample_computer = Done tt (interrupts_set c1) /\
    kernel_running sample_image sample_boot_image sample_hardware sample_link (fun f k => (f, k)) 0x500 roomy_regions sample_computer c1 /\
    interrupts_on (c_eflags (interrupts_set c1)) = true.
Proof.
  apply (kernel_main_correct sample_image sample_boot_image sample_hardware sample_link (fun f k => (f, k)) no_tests [] sample_computer 0x500 roomy_regions).
  - split; reflexivity.
  - split; [split; [intros H; discriminate H|reflexivity]|reflexivity|apply Forall_replicate; split; [intros H; discriminate H|reflexivity]].
  - exact sample_linked.
  - split; [reflexivity|reflexivity|split; [intros H; discriminate H|reflexivity]|exact cold_vma_wf|reflexivity|reflexivity].
  - exact sample_boot_data.
  - discriminate.
  - left. reflexivity.
  - exact cold_sched_cold.
  - reflexivity.
  - reflexivity.
  - reflexivity.
Defined.

(** Frame 1000 of that machine is free when its memory has started. *)
Lemma roomy_frame_free c :
  memory_started sample_image sample_boot_image sample_link 0x500 roomy_regions sample_computer c -> frame_used (frames (c_pages c)) 1000 = false.
Proof.
  intros M. apply (ms_free _ _ _ _ _ _ _ M); [by vm_compute|]. split; [constructor; by vm_compute|].
  intros a Ha. rewrite (ms_boot _ _ _ _ _ _ _ M). pose proof (ms_memory _ _ _ _ _ _ _ M) as Hk.
  change (phys (c_pages sample_computer)) with roomy_memory in Hk.
  pose proof (fun k => info_kept _ _ _ _ _ k Hk sample_boot_data) as E. pose proof (told_kept _ _ _ _ _ Hk sample_boot_data) as Et.
  change (modules_told (loaded 0x500 roomy_memory)) with 0 in Et.
  change (start_phys sample_link) with 0x100000. change (end_phys sample_link) with 0x310000. change (pages_for (top_address roomy_regions)) with 4096.
  intros [H|H|H|H|H|Hn H|i Hi H|i Hi Hn H]; try lia.
  - change (bitmap_start 0x310000) with 0x310000 in H. change (bitmap_size 4096) with 0x1000 in H. lia.
  - simpl in H. lia.
  - rewrite (E 48), (E 44) in H by lia. change (info_word (loaded 0x500 roomy_memory) 48) with 0x600 in H.
    change (info_word (loaded 0x500 roomy_memory) 44) with 24 in H. lia.
Qed.

Lemma boot_memory_correct_witness :
  exists c', boot_memory sample_image sample_link MULTIBOOT_BOOTLOADER_MAGIC 0x500 sample_computer = Done tt c' /\
    memory_started sample_image sample_boot_image sample_link 0x500 roomy_regions sample_computer c' /\
    frame_used (frames (c_pages c')) 1000 = false.
Proof.
  destruct (boot_memory_correct sample_image sample_boot_image sample_link 0x500 roomy_regions sample_computer) as [(c' & Hrun & M) _].
  - exact sample_linked.
  - split; [reflexivity|reflexivity|split; [intros H; discriminate H|reflexivity]|exact cold_vma_wf|reflexivity|reflexivity].
  - exact sample_boot_data.
  - discriminate.
  - exists c'. split; [exact Hrun|]. split; [exact M|]. exact (roomy_frame_free c' M).
Defined.
